(* ===== verification/_CoqProject ===== *)
-Q . S2P
Prelude.v
Params.v
CString.v
Devices.v
Kbd.v
Spinlock.v
Core.v
Pipe.v
Kalloc.v
Vm.v
VmTree.v
VmSpec.v
VmUser.v
VmTheorems.v
Bio.v
BioSpec.v
BioTheorems.v
Log.v
LogSpec.v
LogCrash.v
LogCommit.v
Transactions.v
BlockStore.v
Fs.v
FsBlocks.v
FsInodes.v
FsFiles.v
FsWrite.v
FsDirs.v
FsPaths.v
Console.v
ConsoleOut.v
ConsoleIn.v
Frame.v
Kernel.v
File.v
Proc.v
ProcSched.v
KernelInv.v
Syscall.v
Exec.v
SysFile.v
FileInv.v
Trap.v
KernelCalls.v
ProcInv.v
KernelTheorems.v
ProcTheorems.v
Grep.v
Sh.v
ShTheorems.v
ShPrint.v
ShRun.v
Umalloc.v
UmallocTheorems.v
PyText.v
Debugger.v
DebuggerTheorems.v
CrashReport.v
Ide.v
IdeTheorems.v
IdeRuns.v
Boot.v
BootTheorems.v
Asm.v
AsmTheorems.v
AsmTraps.v
AsmCalls.v
AsmBoot.v
Smp.v
SmpTheorems.v
Main.v
MainInit.v
MainTheorems.v
User.v
Programs.v
UserTheorems.v
Mkfs.v
MkfsTheorems.v
MkfsBoot.v
