(* ===== verification/Prelude.v ===== *)
(** * A verification of xv6-64 and of its crash debugger

    The repository holds a 64-bit port of the teaching operating system xv6 (a kernel in C, its
    boot loader, the program mkfs that makes its disk image, and its user programs) and
    debugger.py, a program that runs the kernel under QEMU and gdb, catches crashes and asks
    a service for an analysis of them.  This library translates the C, the assembly and the
    Python into executable definitions and proves what makes them correct.  All sources are under src/.

    ** How code is translated

    A function of the kernel is a state transformer of the monad [M] of this file: it
    returns ([Done]), stops the machine in panic ([Panic]) or gives the processor away
    ([Sleep], with the channel and the state in which the process sleeps).  What a process
    does when it is woken up is the loop around the sleep, called again.  The state of a
    component is a record; [zoom] lifts a function of a component to the state of the kernel.
    Pointers to objects of a table are indices of the table, memory is a function from
    addresses to bytes (or from pages to their bytes), machine integers are [Z] with the
    wrap-around written out ([u8], [u32], [s32], [u64]).  User programs (user) and the debugger
    (py) are trees of their system calls or actions, with the answers of the environment as
    arguments of the subtrees.  Devices that are not code of the repository are interfaces:
    [Ide.Drive] for the disk, [Smp.Machine] for the ports and the local APIC, with their
    behaviour in [IdeTheorems.DriveLaws], [SmpTheorems.Clock] and
    [MainTheorems.ProcessorLaws] and an instance of each.  A drive may report errors;
    [IdeTheorems.Faultless] is one that does not.
    A file in assembly is the list of its instructions, which the interpreter [Asm.run] of the
    processor executes until control leaves the file.

    ** The files

    - Prelude: the monad and its rules, integers of fixed width, little-endian numbers, lists.
    - Params, CString: the constants of the headers; string.c.

    Locks and processes.
    - Spinlock: spinlock.c on several processors, as a step relation.
    - Core: the view of it that the other files use, the set of locks that the processor holds;
      sleep, wakeup and the sleep locks (sleeplock.c); the process table of proc.h.
    - Proc, ProcSched, ProcTheorems: proc.c, its scheduler, kill, wait and exit.

    Memory.
    - Kalloc: kalloc.c, with the free list linked through the pages.
    - Vm, VmTree, VmSpec, VmUser, VmTheorems: vm.c, the page tables in memory; the tree that
      they form, and what each function does to the address spaces.

    The disk and the file system.
    - Ide, IdeTheorems, IdeRuns: ide.c, the queue of requests and the interrupt.
    - Bio, BioSpec, BioTheorems: bio.c over memide.c.
    - Log, LogSpec, LogCrash, LogCommit, Transactions: log.c, crashes and recovery.
    - BlockStore: what the file system needs of the layers below, as the class [BlockStore]
      with the laws [BlockLaws]; the log over the cache is an instance.
    - Fs, FsBlocks, FsInodes, FsFiles, FsWrite, FsDirs, FsPaths: fs.c, over any block store.
    - Mkfs, MkfsTheorems, MkfsBoot: mkfs.c, and the kernel on the image that it makes.

    The console.
    - Devices, Kbd, Console, ConsoleOut, ConsoleIn: console.c, uart.c, kbd.c with kbd.h, and
      ioapic.c.

    The kernel as a whole.
    - Kernel, File, Pipe, Exec, Syscall, SysFile, Trap: the state of the kernel, file.c, pipe.c,
      exec.c, syscall.c, sysfile.c, sysproc.c and trap.c.
    - Frame, KernelInv, FileInv, KernelCalls, ProcInv, KernelTheorems: the invariant of locks,
      files and processes.
    - Boot, BootTheorems: bootmain.c.  Smp, SmpTheorems: mp.c and lapic.c.
    - Main, MainInit, MainTheorems: main.c with seginit and the other initialisations, the
      start of the other processors, and userinit.

    Machine code.
    - Asm: the processor, and the instructions of swtch.S, trapasm.S, vectors.S (as vectors.pl
      writes it), usys.S, initcode.S, entry.S, bootasm.S and entryother.S.
    - AsmTheorems: memory and runs of the processor, and swtch.S.  AsmTraps: the entry and the
      exit of traps.  AsmCalls: system calls from the stub to the kernel and back.  AsmBoot:
      the start of the processors.

    User programs.
    - Grep: grep.c.  Sh, ShTheorems, ShPrint, ShRun: sh.c.  Umalloc, UmallocTheorems:
      umalloc.c.
    - User, Programs, UserTheorems: ulib.c, printf.c, the small programs, the mains of grep
      and the shell, forktest.c, stressfs.c, zombie.c and the programs that crash.

    The debugger.
    - PyText, Debugger, DebuggerTheorems: debugger.py.
    - CrashReport: trap.c, the console and the debugger together.

    ** What the theorems show

    - Crash safety: whatever prefix of its disk writes a commit has made, recovery leaves all
      of the transaction or nothing of it (end_op_crash_atomic); a commit that returns is on
      the disk (end_op_durable).  The disk driver serves requests in order, with the errors
      that the drive reports, and each of them ends (ide_linearizable, ide_completes); the
      cache is an array of blocks (cache_reads_writes).
    - Files: what is written is read back and nothing else changes (writei_readi,
      writei_content), names that are linked are found (dirlink_dirlookup), and the kernel
      finds on the image of mkfs the files that mkfs was given (mkfs_boot).
    - Memory: pages are handed out once (kalloc_partition), fork copies an address space
      (copyuvm_copies), and blocks of malloc do not overlap (malloc_disjoint).
    - Locks, processes and system calls: mutual exclusion (spin_mutual_exclusion) and the
      refinement that the other files rest on (spin_held_refined), a fair scheduler
      (scheduler_fair), and the invariant of locks, reference counts and processes over every
      system call and trap (syscall_keeps_kernel_ok, console_kernel_ok, exit_closes_files).
    - Machine code: a process that gives the processor away goes on as it was when it gets it
      back (swtch_resumes), an interrupt is invisible to the code that it interrupts
      (trap_transparent), and a system call brings its arguments to the kernel and its result
      back (syscall_roundtrip).
    - Input and output: pipes are queues (pipe_fifo), the console is a line editor
      (console_line_editor), and the keyboard driver types what a US keyboard says
      (kbd_types).
    - Start: the boot sector reaches bootmain (bootasm_reaches_bootmain), the boot loader loads
      the kernel (boot_loads), entry.S maps memory and enters main (entry_reaches_main), the
      other processors reach mpenter on their stacks (ap_reaches_mpenter), main comes to the
      scheduler with every processor that mpinit recorded started and the first process
      ready to run (main_boots),
      and the clock is read at one moment (cmostime_snapshot).
    - Programs: the shell parses what is printed (parse_print), ends on every line
      (parsecmd_ends) and wires its commands as they say (runcmd_wires); grep matches the
      language of its pattern (grep_match_occurs).  UserTheorems relates the mains to these
      models: the calls of grep write what its loop selects (ugrep_writes), a turn of the shell
      makes the calls of its line (sh_turn_calls), and forktest reports OK exactly when the
      kernel refuses a fork in time (forktest_reports).
    - The debugger ends QEMU (debugger_closes_qemu), and asks gdb about exactly the address of the
      fault that the kernel prints (crash_source_found).
    - What the code does wrong: admitted_ops_overflow, mkfs_root_hole,
      sys_read_kernel_pointer, kill_zero_kills_next.

    ** Bounds

    Loops that are not structural have a bound (fuel).  A loop of the kernel over a table, a
    path, a count of bytes or a table of the BIOS gets a bound that is computed from its
    arguments, and a lemma or the theorem itself shows that it is enough.  A loop that waits for a device (waitdisk, idewait, the delivery
    of an interrupt, the clock) gets the number of polls as a parameter, and the theorem says how many are
    enough for a device that answers.  A loop of a user program that ends with its input gets a bound, and the theorem
    says that it is enough for the input.  A run of machine code gets a number of instructions, and the theorems
    give a number that is enough.

    ** What is not modelled

    - The processors share memory: except in Spinlock, a function of the kernel runs from one
      release of the processor to the next without steps of the others in between, which its
      locks make equivalent; interrupts arrive between functions.  While the kernel starts, another
      processor runs when main waits for it, from mpenter to the call of scheduler, if it was
      sent its INIT and STARTUP and finds its code, its entry and its stack where it looks
      for them; then it stands still until main is at the scheduler, too.
    - usertests.c, which only exercises the kernel, and buffer_overflow.c, which writes past an
      array: what it does is up to the compiler's layout of the stack.
    - gdb, QEMU, the compiler and the service that the debugger talks to: they are its
      environment, and what they answer is arbitrary. *)

From Stdlib Require Export ZArith Lia.
From stdpp Require Export base numbers gmap sets strings list.

#[export] Set Default Goal Selector "!".
#[global] Open Scope Z_scope.

(** ** Outcomes of kernel code

    A C function of the kernel is translated to a state transformer.  It
    returns ([Done]), stops the machine in [panic] ([Panic]), or gives the
    processor away in [sleep] ([Sleep], with the state as it is when the
    process has gone to sleep). *)
Inductive outcome (Ch St A : Type) : Type :=
| Done (a : A) (s : St)
| Panic (msg : string)
| Sleep (ch : Ch) (s : St).
Arguments Done {Ch St A} a s.
Arguments Panic {Ch St A} msg.
Arguments Sleep {Ch St A} ch s.

Definition M (Ch St A : Type) : Type := St → outcome Ch St A.

Section monad.
Context {Ch St : Type}.

Definition ret {A} (a : A) : M Ch St A := λ s, Done a s.

Definition bind {A B} (m : M Ch St A) (k : A → M Ch St B) : M Ch St B := λ s,
    match m s with
    | Done a s' => k a s'
    | Panic e => Panic e
    | Sleep c s' => Sleep c s'
    end.

Definition panic {A} (msg : string) : M Ch St A := λ _, Panic msg.
Definition get : M Ch St St := λ s, Done s s.
Definition gets {A} (f : St → A) : M Ch St A := λ s, Done (f s) s.
Definition modify (f : St → St) : M Ch St unit := λ s, Done tt (f s).

Lemma bind_done {A B} (m : M Ch St A) (k : A → M Ch St B) s a s' :
  m s = Done a s' → bind m k s = k a s'.
Proof. intros H. unfold bind. by rewrite H. Qed.

Lemma bind_ext {A B} (m : M Ch St A) (k k' : A → M Ch St B) s :
  (∀ a s', k a s' = k' a s') → bind m k s = bind m k' s.
Proof. intros H. unfold bind. destruct (m s); [apply H|done..]. Qed.

Lemma bind_assoc {A B C} (m : M Ch St A) (k : A → M Ch St B) (k' : B → M Ch St C) s :
  bind (bind m k) k' s = bind m (λ a, bind (k a) k') s.
Proof. unfold bind. by destruct (m s). Qed.
End monad.

Declare Scope kernel_scope.
Delimit Scope kernel_scope with kernel.
Notation "x <- m ;; k" := (bind m (λ x, k))
  (at level 100, m at next level, right associativity) : kernel_scope.
Notation "m ;;; k" := (bind m (λ _, k))
  (at level 100, right associativity) : kernel_scope.
#[global] Open Scope kernel_scope.

(** Running a computation of a component inside a larger state. *)
Definition zoom {Ch S T A} (view : S → T) (upd : T → S → S) (m : M Ch T A)
  : M Ch S A := λ s,
  match m (view s) with
  | Done a t => Done a (upd t s)
  | Panic e => Panic e
  | Sleep c t => Sleep c (upd t s)
  end.

(** ** Machine integers *)
Definition u8 (z : Z) : Z := z mod 2 ^ 8.
Definition u16 (z : Z) : Z := z mod 2 ^ 16.
Definition u32 (z : Z) : Z := z mod 2 ^ 32.
Definition u64 (z : Z) : Z := z mod 2 ^ 64.

(** Two's complement reading of the low [w] bits. *)
Definition signed (w z : Z) : Z :=
  let r := z mod 2 ^ w in if r <? 2 ^ (w - 1) then r else r - 2 ^ w.
Definition s16 (z : Z) : Z := signed 16 z.
Definition s32 (z : Z) : Z := signed 32 z.
Definition s64 (z : Z) : Z := signed 64 z.

Lemma s32_nonneg v : 0 ≤ v < 2 ^ 31 → s32 v = v.
Proof. intros Hv. unfold s32, signed. rewrite Z.mod_small by lia. destruct (Z.ltb_spec v (2 ^ (32 - 1))); lia. Qed.

(** C truth values. *)
Definition b2z (b : bool) : Z := if b then 1 else 0.
Definition tst (flags mask : Z) : bool := negb (Z.land flags mask =? 0).

(** The characters of a C string literal. *)
Definition str (s : string) : list Z := (λ c, Z.of_N (Ascii.N_of_ascii c)) <$> String.list_ascii_of_string s.

(** ** Byte sequences *)
Definition is_byte (b : Z) : Prop := 0 ≤ b < 256.
#[global] Instance is_byte_dec b : Decision (is_byte b) := _.
Abbreviation bytes_ok := (Forall is_byte).

(** [n] elements of [l] from offset [off]; overwriting [l] at [off]. *)
Definition slice {A} (off n : nat) (l : list A) : list A := take n (drop off l).
Definition splice {A} (off : nat) (l' l : list A) : list A :=
  take off l ++ l' ++ drop (off + length l') l.

Section slices.
Context {A : Type}.
Implicit Types l : list A.

Lemma length_slice off n l :
    (off + n ≤ length l)%nat → length (slice off n l) = n.
  Proof. intros H. unfold slice. rewrite length_take, length_drop. lia. Qed.

Lemma length_splice off l' l :
    (off + length l' ≤ length l)%nat → length (splice off l' l) = length l.
  Proof.
    intros H. unfold splice. rewrite !length_app, length_take, length_drop. lia.
  Qed.

Lemma lookup_slice off n l i :
    (i < n)%nat → slice off n l !! i = l !! (off + i)%nat.
  Proof.
    intros H. unfold slice. rewrite lookup_take_lt by done. apply lookup_drop.
  Qed.

Lemma lookup_slice_ge off n l i : (n ≤ i)%nat → slice off n l !! i = None.
  Proof.
    intros H. apply lookup_ge_None. unfold slice. rewrite length_take. lia.
  Qed.

Lemma lookup_splice_new off l' l i :
    (off + length l' ≤ length l)%nat → (off ≤ i < off + length l')%nat →
    splice off l' l !! i = l' !! (i - off)%nat.
  Proof.
    intros H Hi. unfold splice.
    rewrite lookup_app_r by (rewrite length_take; lia).
    rewrite length_take_le by lia. apply lookup_app_l. lia.
  Qed.

Lemma lookup_splice_old off l' l i :
    (off + length l' ≤ length l)%nat → (i < off ∨ off + length l' ≤ i)%nat →
    splice off l' l !! i = l !! i.
  Proof.
    intros H Hi. unfold splice. destruct Hi.
    - rewrite lookup_app_l by (rewrite length_take; lia).
      by apply lookup_take_lt.
    - rewrite lookup_app_r by (rewrite length_take; lia).
      rewrite length_take_le by lia.
      rewrite lookup_app_r by lia. rewrite lookup_drop. f_equal. lia.
  Qed.

  (** Lists of one length with the same elements are equal. *)
Lemma list_eq_lookup l1 l2 :
    length l1 = length l2 →
    (∀ i, (i < length l1)%nat → l1 !! i = l2 !! i) → l1 = l2.
  Proof.
    intros Hl H. apply list_eq. intros i. destruct (decide (i < length l1)%nat).
    - by apply H.
    - rewrite !lookup_ge_None_2 by lia. done.
  Qed.

(** An update out of range changes nothing. *)
Lemma filter_not_in `{EqDecision A} (x : A) (l : list A) : x ∉ l → filter (λ y, y ≠ x) l = l.
Proof.
  induction l as [|y l IH]; intros Hl; [done|].
  apply not_elem_of_cons in Hl as [? ?].
  rewrite filter_cons_True by congruence. by rewrite IH.
Qed.

Lemma list_alter_ge (f : A → A) l i : (length l ≤ i)%nat → alter f i l = l.
Proof.
  intros H. apply list_eq. intros j. destruct (decide (i = j)) as [<-|].
  - rewrite list_lookup_alter_eq, lookup_ge_None_2 by done. done.
  - by rewrite list_lookup_alter_ne.
Qed.

Lemma slice_splice_same off l' l :
    (off + length l' ≤ length l)%nat → slice off (length l') (splice off l' l) = l'.
  Proof.
    intros H. assert (Hl := length_splice off l' l H).
    apply list_eq_lookup; [rewrite length_slice; lia|].
    rewrite length_slice by lia. intros i Hi.
    rewrite lookup_slice by done. rewrite lookup_splice_new by lia.
    f_equal. lia.
  Qed.

Lemma slice_splice_disjoint off l' l o n :
    (off + length l' ≤ length l)%nat → (o + n ≤ off ∨ off + length l' ≤ o)%nat →
    slice o n (splice off l' l) = slice o n l.
  Proof.
    intros H Hd. apply list_eq. intros i. destruct (decide (i < n)%nat).
    - rewrite !lookup_slice by done. apply lookup_splice_old; [done|]. lia.
    - rewrite !lookup_slice_ge by lia. done.
  Qed.

Lemma splice_slice off n l :
    (off + n ≤ length l)%nat → splice off (slice off n l) l = l.
  Proof.
    intros H. unfold splice. rewrite length_slice by done. unfold slice.
    rewrite <- (take_drop off l) at 4. f_equal.
    rewrite <- drop_drop. apply take_drop.
  Qed.

Lemma splice_splice_same off l1 l2 l :
    length l1 = length l2 → (off + length l1 ≤ length l)%nat →
    splice off l2 (splice off l1 l) = splice off l2 l.
  Proof.
    intros Hl H. pose proof (length_splice off l1 l H).
    apply list_eq_lookup; [rewrite !length_splice; lia|].
    intros i _. destruct (decide (off ≤ i < off + length l2)%nat).
    - rewrite !lookup_splice_new by lia. done.
    - rewrite !lookup_splice_old by lia. done.
  Qed.

Lemma Forall_slice (P : A → Prop) off n l : Forall P l → Forall P (slice off n l).
  Proof. intros H. by apply Forall_take, Forall_drop. Qed.

Lemma Forall_splice (P : A → Prop) off l' l :
    Forall P l → Forall P l' → Forall P (splice off l' l).
  Proof.
    intros H H'. apply Forall_app; split; [by apply Forall_take|].
    apply Forall_app; split; [done|]. by apply Forall_drop.
  Qed.
End slices.

(** ** Little-endian integers in byte arrays *)
Fixpoint le_get (bs : list Z) : Z :=
  match bs with [] => 0 | b :: t => b + 256 * le_get t end.
Fixpoint le_put (n : nat) (z : Z) : list Z :=
  match n with O => [] | S n => z mod 256 :: le_put n (z / 256) end.

Lemma length_le_put n z : length (le_put n z) = n.
Proof. revert z. induction n; intros z; simpl; auto. Qed.

Lemma le_put_bytes n z : bytes_ok (le_put n z).
Proof.
  revert z. induction n as [|n IH]; intros z; simpl; constructor; auto.
  apply Z.mod_pos_bound. lia.
Qed.

Lemma le_get_put n z : le_get (le_put n z) = z mod 256 ^ Z.of_nat n.
Proof.
  revert z. induction n as [|n IH]; intros z; [by rewrite Z.mod_1_r|].
  cbn [le_put le_get]. rewrite IH, Nat2Z.inj_succ, Z.pow_succ_r by lia.
  rewrite Z.rem_mul_r by lia. lia.
Qed.

Lemma le_get_put_small n z :
  0 ≤ z < 256 ^ Z.of_nat n → le_get (le_put n z) = z.
Proof. intros H. rewrite le_get_put. by apply Z.mod_small. Qed.

Lemma le_get_bound bs : bytes_ok bs → 0 ≤ le_get bs < 256 ^ Z.of_nat (length bs).
Proof.
  induction 1 as [|b bs Hb _ IH]; [cbn; lia|].
  cbn [le_get length]. rewrite Nat2Z.inj_succ, Z.pow_succ_r by lia.
  unfold is_byte in Hb. lia.
Qed.

Lemma le_put_get bs : bytes_ok bs → le_put (length bs) (le_get bs) = bs.
Proof.
  induction 1 as [|b bs Hb _ IH]; [done|]. cbn [le_get le_put length].
  unfold is_byte in Hb.
  replace ((b + 256 * le_get bs) mod 256) with b
    by (Z.to_euclidean_division_equations; lia).
  replace ((b + 256 * le_get bs) / 256) with (le_get bs)
    by (Z.to_euclidean_division_equations; lia).
  by rewrite IH.
Qed.

(** An unsigned field of [n] bytes at offset [off] of an array. *)
Definition field (off n : nat) (l : list Z) : Z := le_get (slice off n l).
Definition set_field (off n : nat) (z : Z) (l : list Z) : list Z :=
  splice off (le_put n z) l.

Section fields.
Implicit Types l : list Z.

Lemma length_set_field off n z l :
    (off + n ≤ length l)%nat → length (set_field off n z l) = length l.
  Proof. intros H. apply length_splice. by rewrite length_le_put. Qed.

Lemma field_set_same off n z l :
    (off + n ≤ length l)%nat →
    field off n (set_field off n z l) = z mod 256 ^ Z.of_nat n.
  Proof.
    intros H. unfold field, set_field.
    rewrite <- (length_le_put n z) at 1.
    rewrite slice_splice_same by (by rewrite length_le_put). apply le_get_put.
  Qed.

Lemma field_set_other off n z l o m :
    (off + n ≤ length l)%nat → (o + m ≤ off ∨ off + n ≤ o)%nat →
    field o m (set_field off n z l) = field o m l.
  Proof.
    intros H Hd. unfold field, set_field.
    rewrite slice_splice_disjoint by (rewrite length_le_put; lia). done.
  Qed.

Lemma set_field_bytes off n z l : bytes_ok l → bytes_ok (set_field off n z l).
  Proof. intros H. apply Forall_splice; [done|]. apply le_put_bytes. Qed.

Lemma field_bound off n l :
    bytes_ok l → (off + n ≤ length l)%nat → 0 ≤ field off n l < 256 ^ Z.of_nat n.
  Proof.
    intros Hb Hl. pose proof (le_get_bound (slice off n l)) as H.
    rewrite length_slice in H by done. apply H. by apply Forall_slice.
  Qed.
End fields.
