(* ===== verification/Params.v ===== *)
(** * Constants of param.h, fs.h, buf.h, stat.h, fcntl.h, mmu.h and memlayout.h *)

From S2P Require Import Prelude.

(** param.h *)
Definition NPROC : nat := 64.
Definition KSTACKSIZE : Z := 4096.
Definition NCPU : nat := 8.
Definition NOFILE : nat := 16.
Definition NFILE : nat := 100.
Definition NINODE : nat := 50.
Definition NDEV : Z := 10.
Definition ROOTDEV : Z := 1.
Definition MAXARG : nat := 32.
Definition MAXOPBLOCKS : Z := 10.
Definition LOGSIZE : Z := MAXOPBLOCKS * 3.
Definition NBUF : nat := 30.   (* MAXOPBLOCKS*3 *)
Definition FSSIZE : Z := 1000.

(** fs.h *)
Definition ROOTINO : Z := 1.
Definition BSIZE : Z := 512.
Definition NDIRECT : Z := 12.
Definition NINDIRECT : Z := BSIZE / 4.
Definition MAXFILE : Z := NDIRECT + NINDIRECT.
Definition DINODE_SIZE : Z := 64.   (* sizeof(struct dinode) *)
Definition IPB : Z := BSIZE / DINODE_SIZE.
Definition BPB : Z := BSIZE * 8.
Definition DIRSIZ : Z := 14.
Definition DIRENT_SIZE : Z := 16.   (* sizeof(struct dirent) *)

(** stat.h, fcntl.h *)
Definition T_DIR : Z := 1.
Definition T_FILE : Z := 2.
Definition T_DEV : Z := 3.
Definition O_RDONLY : Z := 0.
Definition O_WRONLY : Z := 1.
Definition O_RDWR : Z := 2.
Definition O_CREATE : Z := 512.

(** buf.h, file.h *)
Definition B_VALID : Z := 2.
Definition B_DIRTY : Z := 4.
Definition I_VALID : Z := 2.

(** traps.h *)
Definition T_IRQ0 : Z := 32.
Definition IRQ_TIMER : Z := 0.
Definition IRQ_KBD : Z := 1.
Definition IRQ_COM1 : Z := 4.
Definition IRQ_IDE : Z := 14.
Definition IRQ_SPURIOUS : Z := 31.

(** mmu.h, memlayout.h *)
Definition PGSIZE : Z := 4096.
Definition EXTMEM : Z := 0x100000.
Definition PHYSTOP : Z := 0xE000000.
Definition KERNBASE : Z := 0xFFFF800000000000.
Definition PGROUNDUP (sz : Z) : Z := Z.land (u64 (sz + (PGSIZE - 1))) (u64 (Z.lnot (PGSIZE - 1))).
Definition PGROUNDDOWN (a : Z) : Z := Z.land a (u64 (Z.lnot (PGSIZE - 1))).
Definition V2P (a : Z) : Z := u64 (a - KERNBASE).
Definition P2V (a : Z) : Z := u64 (a + KERNBASE).

(** Masking out the low twelve bits. *)
Lemma land_page_mask x : 0 ≤ x < 2 ^ 64 → Z.land x (u64 (Z.lnot (PGSIZE - 1))) = x - x mod PGSIZE.
Proof.
  intros Hx. change (u64 (Z.lnot (PGSIZE - 1))) with (Z.shiftl (Z.ones 52) 12).
  replace (x - x mod PGSIZE) with (Z.shiftl (Z.shiftr x 12) 12).
  - apply Z.bits_inj'. intros i Hi. rewrite Z.land_spec, !Z.shiftl_spec by lia.
    destruct (Z.lt_ge_cases i 12) as [Hlt|Hge].
    + rewrite !(Z.testbit_neg_r _ (i - 12)) by lia. apply andb_false_r.
    + rewrite Z.shiftr_spec by lia. replace (i - 12 + 12) with i by lia.
      destruct (Z.lt_ge_cases i 64) as [Hs|Hs].
      * rewrite Z.ones_spec_low by lia. apply andb_true_r.
      * rewrite Z.ones_spec_high by lia. rewrite andb_false_r.
        destruct (decide (x = 0)) as [->|]; [by rewrite Z.testbit_0_l|].
        symmetry. apply Z.bits_above_log2; [lia|]. apply Z.log2_lt_pow2; [lia|].
        eapply Z.lt_le_trans; [apply Hx|]. apply Z.pow_le_mono_r; lia.
  - rewrite Z.shiftl_mul_pow2, Z.shiftr_div_pow2 by lia. change (2 ^ 12) with 4096.
    unfold PGSIZE. Z.to_euclidean_division_equations; lia.
Qed.

Lemma pground_down v : 0 ≤ v < 2 ^ 64 → PGROUNDDOWN v = v - v mod PGSIZE.
Proof. apply land_page_mask. Qed.

Lemma pground_up v :
  0 ≤ v ≤ 2 ^ 64 - PGSIZE → PGROUNDUP v mod PGSIZE = 0 ∧ v ≤ PGROUNDUP v < v + PGSIZE.
Proof.
  intros Hv. unfold PGROUNDUP. rewrite land_page_mask by (unfold u64; apply Z.mod_pos_bound; lia).
  unfold u64, PGSIZE in *. rewrite (Z.mod_small (v + _) (2 ^ 64)) by lia.
  Z.to_euclidean_division_equations; lia.
Qed.
