(* ===== verification/CString.v ===== *)
(** * string.c: memory and string routines

    Memory is a function from addresses to bytes.  A [const char *] that is
    only read is a [cptr], the bytes from the address on.  The pairs of source
    and destination that [strncpy] and [safestrcpy] get are distinct objects,
    so the destination is a list of bytes of its own. *)

From S2P Require Import Prelude.

Definition mem : Type := Z → Z.
Definition cptr : Type := nat → Z.

Definition store (m : mem) (a v : Z) : mem := λ x, if x =? a then v else m x.

(** The string instructions of x86.h: [rep stosb] and [rep stosl]. *)
Fixpoint stosb (n : nat) (a data : Z) (m : mem) : mem :=
  match n with
  | O => m
  | S n => stosb n (a + 1) data (store m a (u8 data))
  end.

Definition store32 (m : mem) (a v : Z) : mem :=
  store (store (store (store m a (u8 v)) (a + 1) (u8 (Z.shiftr v 8)))
    (a + 2) (u8 (Z.shiftr v 16))) (a + 3) (u8 (Z.shiftr v 24)).

Fixpoint stosl (n : nat) (a data : Z) (m : mem) : mem :=
  match n with
  | O => m
  | S n => stosl n (a + 4) data (store32 m a data)
  end.

Definition memset (dst c n : Z) (m : mem) : mem :=
  if (dst mod 4 =? 0) && (n mod 4 =? 0) then
    let c := Z.land c 0xFF in
    stosl (Z.to_nat (u32 (n / 4))) dst
      (u32 (Z.lor (Z.lor (Z.lor (Z.shiftl c 24) (Z.shiftl c 16)) (Z.shiftl c 8)) c)) m
  else stosb (Z.to_nat (u32 n)) dst c m.

(** The comparison loops, [i] bytes past the pointers they are called with. *)
Fixpoint memcmp_at (i : nat) (s1 s2 : cptr) (n : nat) : Z :=
  match n with
  | O => 0
  | S n => if negb (s1 i =? s2 i) then s1 i - s2 i else memcmp_at (S i) s1 s2 n
  end.

Definition memcmp (s1 s2 : cptr) (n : nat) : Z := memcmp_at 0 s1 s2 n.

(** The two loops of memmove; [move_down] gets the addresses past the end. *)
Fixpoint move_up (n : nat) (d s : Z) (m : mem) : mem :=
  match n with
  | O => m
  | S n => move_up n (d + 1) (s + 1) (store m d (m s))
  end.

Fixpoint move_down (n : nat) (d s : Z) (m : mem) : mem :=
  match n with
  | O => m
  | S n => move_down n (d - 1) (s - 1) (store m (d - 1) (m (s - 1)))
  end.

Definition memmove (dst src n : Z) (m : mem) : mem :=
  if (src <? dst) && (dst <? src + n) then
    move_down (Z.to_nat n) (dst + n) (src + n) m
  else move_up (Z.to_nat n) dst src m.

Definition memcpy (dst src n : Z) (m : mem) : mem := memmove dst src n m.

Fixpoint strncmp_at (i : nat) (p q : cptr) (n : nat) : Z :=
  match n with
  | O => 0
  | S n => if negb (p i =? 0) && (p i =? q i) then strncmp_at (S i) p q n else p i - q i
  end.

Definition strncmp (p q : cptr) (n : nat) : Z := strncmp_at 0 p q n.

(** The tail loop of strncpy: zeroes from index [i] on. *)
Fixpoint strncpy_pad (n : nat) (s : list Z) (i : nat) : list Z :=
  match n with
  | O => s
  | S n => strncpy_pad n (<[i := 0]> s) (S i)
  end.

Fixpoint strncpy_copy (n : nat) (s : list Z) (i : nat) (t : cptr) : list Z :=
  match n with
  | O => s
  | S n =>
      let s := <[i := t i]> s in
      if negb (t i =? 0) then strncpy_copy n s (S i) t
      else strncpy_pad n s (S i)
  end.

Definition strncpy (s : list Z) (t : cptr) (n : Z) : list Z :=
  strncpy_copy (Z.to_nat n) s 0 t.

Fixpoint safestrcpy_copy (n : nat) (s : list Z) (i : nat) (t : cptr) : list Z :=
  match n with
  | O => <[i := 0]> s
  | S n =>
      let s := <[i := t i]> s in
      if negb (t i =? 0) then safestrcpy_copy n s (S i) t
      else <[S i := 0]> s
  end.

Definition safestrcpy (s : list Z) (t : cptr) (n : Z) : list Z :=
  if n <=? 0 then s else safestrcpy_copy (Z.to_nat (n - 1)) s 0 t.

(** [strlen] reads up to the first NUL; [fuel] bounds the bytes it looks at. *)
Fixpoint strlen_at (fuel n : nat) (s : cptr) : option nat :=
  match fuel with
  | O => None
  | S fuel => if s n =? 0 then Some n else strlen_at fuel (S n) s
  end.

Definition strlen (fuel : nat) (s : cptr) : option nat := strlen_at fuel 0 s.

(** ** What the routines compute *)

(** The string in the first [n] bytes of [p]: up to the first NUL. *)
Fixpoint cname_at (i : nat) (n : nat) (p : cptr) : list Z :=
  match n with
  | O => []
  | S n => if p i =? 0 then [] else p i :: cname_at (S i) n p
  end.
Definition cname (n : nat) (p : cptr) : list Z := cname_at 0 n p.

(** Byte [j] of the NUL-padded copy of [t]. *)
Definition padded (t : cptr) (j : nat) : Z :=
  if existsb (λ k, t k =? 0) (seq 0 j) then 0 else t j.

Lemma stosb_spec n a c m x :
  stosb n a c m x = if (a <=? x) && (x <? a + Z.of_nat n) then u8 c else m x.
Proof.
  revert a m. induction n as [|n IH]; intros a m; cbn [stosb].
  - destruct (Z.leb_spec a x), (Z.ltb_spec x (a + Z.of_nat 0)); simpl; lia || done.
  - rewrite IH. unfold store.
    destruct (Z.leb_spec (a + 1) x), (Z.ltb_spec x (a + 1 + Z.of_nat n)),
      (Z.leb_spec a x), (Z.ltb_spec x (a + Z.of_nat (S n))),
      (Z.eqb_spec x a); simpl; lia || done.
Qed.

Lemma store32_spec m a v x :
  (∀ k, 0 ≤ k < 4 → u8 (Z.shiftr v (8 * k)) = u8 v) →
  store32 m a v x = if (a <=? x) && (x <? a + 4) then u8 v else m x.
Proof.
  intros H. unfold store32, store.
  pose proof (H 1 ltac:(lia)) as H1. pose proof (H 2 ltac:(lia)) as H2.
  pose proof (H 3 ltac:(lia)) as H3. cbn [Z.mul] in H1, H2, H3.
  change (8 * 1) with 8 in H1. change (8 * 2) with 16 in H2.
  change (8 * 3) with 24 in H3. rewrite H1, H2, H3.
  destruct (Z.leb_spec a x), (Z.ltb_spec x (a + 4)), (Z.eqb_spec x (a + 3)),
    (Z.eqb_spec x (a + 2)), (Z.eqb_spec x (a + 1)), (Z.eqb_spec x a);
    simpl; lia || done.
Qed.

Lemma stosl_spec n a v m x :
  (∀ k, 0 ≤ k < 4 → u8 (Z.shiftr v (8 * k)) = u8 v) →
  stosl n a v m x = if (a <=? x) && (x <? a + 4 * Z.of_nat n) then u8 v else m x.
Proof.
  intros H. revert a m. induction n as [|n IH]; intros a m; cbn [stosl].
  - destruct (Z.leb_spec a x), (Z.ltb_spec x (a + 4 * Z.of_nat 0)); simpl; lia || done.
  - rewrite IH. rewrite store32_spec by done.
    destruct (Z.leb_spec (a + 4) x), (Z.ltb_spec x (a + 4 + 4 * Z.of_nat n)),
      (Z.leb_spec a x), (Z.ltb_spec x (a + 4 * Z.of_nat (S n))),
      (Z.ltb_spec x (a + 4)); simpl; lia || done.
Qed.

(** The four bytes of the word that memset hands to [stosl]. *)
Lemma memset_word_bytes c :
  let w := u32 (Z.lor (Z.lor (Z.lor (Z.shiftl (Z.land c 255) 24)
             (Z.shiftl (Z.land c 255) 16)) (Z.shiftl (Z.land c 255) 8)) (Z.land c 255)) in
  ∀ k, 0 ≤ k < 4 → u8 (Z.shiftr w (8 * k)) = u8 c.
Proof.
  intros w k Hk. apply Z.bits_inj'. intros n Hn. unfold u8, w, u32.
  destruct (Z.ltb_spec n 8).
  2: { rewrite !Z.mod_pow2_bits_high by lia. done. }
  rewrite !Z.mod_pow2_bits_low by lia.
  rewrite Z.shiftr_spec by lia. rewrite Z.mod_pow2_bits_low by lia.
  rewrite !Z.lor_spec, !Z.shiftl_spec by lia.
  change 255 with (Z.ones 8).
  assert (Hb : ∀ j, Z.testbit (Z.land c (Z.ones 8)) j
                 = (0 <=? j) && (j <? 8) && Z.testbit c j).
  { intros j. destruct (Z.ltb_spec j 0) as [Hj|Hj].
    { rewrite !Z.testbit_neg_r by done. destruct (Z.leb_spec 0 j); done || lia. }
    rewrite Z.land_spec, Z.testbit_ones_nonneg by lia.
    destruct (Z.leb_spec 0 j); [|lia]. destruct (j <? 8), (Z.testbit c j); done. }
  rewrite !Hb.
  assert (k = 0 ∨ k = 1 ∨ k = 2 ∨ k = 3) as [-> | [-> | [-> | ->]]] by lia.
  all: repeat match goal with
    | |- context [Z.leb 0 ?x] => destruct (Z.leb_spec 0 x); try lia
    | |- context [Z.ltb ?x 8] => destruct (Z.ltb_spec x 8); try lia
    end; simpl; rewrite ?orb_false_r; f_equal; lia.
Qed.

Lemma move_up_spec n d s m x :
  (s < d → s + Z.of_nat n ≤ d) →
  move_up n d s m x = if (d <=? x) && (x <? d + Z.of_nat n) then m (s + (x - d)) else m x.
Proof.
  revert d s m. induction n as [|n IH]; intros d s m H; cbn [move_up].
  - destruct (Z.leb_spec d x), (Z.ltb_spec x (d + Z.of_nat 0)); simpl; lia || done.
  - rewrite IH by lia. unfold store.
    destruct (Z.leb_spec (d + 1) x), (Z.ltb_spec x (d + 1 + Z.of_nat n)),
      (Z.leb_spec d x), (Z.ltb_spec x (d + Z.of_nat (S n))); simpl; try lia.
    + destruct (Z.eqb_spec (s + 1 + (x - (d + 1))) d); [lia|]. f_equal. lia.
    + destruct (Z.eqb_spec x d); [lia|done].
    + destruct (Z.eqb_spec x d); [|lia]. f_equal. lia.
    + destruct (Z.eqb_spec x d); [lia|done].
Qed.

Lemma move_down_spec n d s m x :
  s ≤ d →
  move_down n d s m x =
    if (d - Z.of_nat n <=? x) && (x <? d) then m (s + (x - d)) else m x.
Proof.
  revert d s m. induction n as [|n IH]; intros d s m H; cbn [move_down].
  - destruct (Z.leb_spec (d - Z.of_nat 0) x), (Z.ltb_spec x d); simpl; lia || done.
  - rewrite IH by lia. unfold store.
    destruct (Z.leb_spec (d - 1 - Z.of_nat n) x), (Z.ltb_spec x (d - 1)),
      (Z.leb_spec (d - Z.of_nat (S n)) x), (Z.ltb_spec x d); simpl; try lia.
    + destruct (Z.eqb_spec (s - 1 + (x - (d - 1))) (d - 1)); [lia|]. f_equal. lia.
    + destruct (Z.eqb_spec x (d - 1)); [|lia]. f_equal. lia.
    + destruct (Z.eqb_spec x (d - 1)); [lia|done].
    + destruct (Z.eqb_spec x (d - 1)); [lia|done].
Qed.


Lemma strncmp_at_zero i p q n :
  strncmp_at i p q n = 0 ↔ cname_at i n p = cname_at i n q.
Proof.
  revert i. induction n as [|n IH]; intros i; [done|]. cbn [strncmp_at cname_at].
  destruct (Z.eqb_spec (p i) 0) as [Hp|Hp], (Z.eqb_spec (q i) 0) as [Hq|Hq],
    (Z.eqb_spec (p i) (q i)) as [He|He]; simpl; try lia.
  - split; [done|lia].
  - split; [lia|done].
  - split; [lia|done].
  - rewrite IH, He. split; [congruence|]. by intros [= ?].
  - split; [lia|]. intros [= ? ?]. lia.
Qed.

Lemma length_strncpy_pad n s i : length (strncpy_pad n s i) = length s.
Proof.
  revert s i. induction n as [|n IH]; intros s i; [done|]. cbn [strncpy_pad].
  by rewrite IH, length_insert.
Qed.

Lemma lookup_strncpy_pad n s i j :
  (i + n ≤ length s)%nat →
  strncpy_pad n s i !! j = if decide (i ≤ j < i + n)%nat then Some 0 else s !! j.
Proof.
  revert s i. induction n as [|n IH]; intros s i H; cbn [strncpy_pad].
  - case_decide; [lia|done].
  - rewrite IH by (rewrite length_insert; lia).
    repeat case_decide; try lia; try done.
    + assert (j = i) as -> by lia. by rewrite list_lookup_insert_eq by lia.
    + by rewrite list_lookup_insert_ne by lia.
Qed.

Lemma length_strncpy_copy n s i t : length (strncpy_copy n s i t) = length s.
Proof.
  revert s i. induction n as [|n IH]; intros s i; [done|]. cbn [strncpy_copy].
  destruct (negb _); rewrite ?IH, ?length_strncpy_pad, length_insert; done.
Qed.

Lemma length_strncpy s t n : length (strncpy s t n) = length s.
Proof. apply length_strncpy_copy. Qed.

Lemma padded_no_nul t j : (∀ k, (k < j)%nat → t k ≠ 0) → padded t j = t j.
Proof.
  intros H. unfold padded. destruct (existsb _ _) eqn:E; [|done].
  apply existsb_exists in E as (k & Hk & E). apply in_seq in Hk.
  apply Z.eqb_eq in E. exfalso. apply (H k); lia.
Qed.

Lemma padded_nul t i j : t i = 0 → (i ≤ j)%nat → padded t j = 0.
Proof.
  intros H Hj. unfold padded. destruct (existsb _ _) eqn:E; [done|].
  destruct (decide (i = j)) as [<-|]; [done|].
  exfalso. apply Bool.not_true_iff_false in E. apply E, existsb_exists.
  exists i. rewrite in_seq. split; [lia|]. by apply Z.eqb_eq.
Qed.

Lemma lookup_strncpy_copy n s i t j :
  (i + n ≤ length s)%nat → (∀ k, (k < i)%nat → t k ≠ 0) →
  strncpy_copy n s i t !! j =
    if decide (i ≤ j < i + n)%nat then Some (padded t j) else s !! j.
Proof.
  revert s i. induction n as [|n IH]; intros s i H Hn; cbn [strncpy_copy].
  { case_decide; [lia|done]. }
  destruct (Z.eqb_spec (t i) 0) as [Ht|Ht]; simpl.
  - rewrite lookup_strncpy_pad by (rewrite length_insert; lia).
    repeat case_decide; try lia.
    + by rewrite (padded_nul t i) by lia.
    + assert (j = i) as -> by lia.
      by rewrite list_lookup_insert_eq, padded_no_nul by (lia || done).
    + by rewrite list_lookup_insert_ne by lia.
  - rewrite IH; [|rewrite length_insert; lia|].
    2: { intros k Hk. destruct (decide (k = i)) as [->|]; [done|]. apply Hn. lia. }
    repeat case_decide; try lia; try done.
    + assert (j = i) as -> by lia.
      by rewrite list_lookup_insert_eq, padded_no_nul by (lia || done).
    + by rewrite list_lookup_insert_ne by lia.
Qed.

Lemma lookup_strncpy s t n j :
  0 ≤ n ≤ Z.of_nat (length s) →
  strncpy s t n !! j =
    if decide (Z.of_nat j < n) then Some (padded t j) else s !! j.
Proof.
  intros H. unfold strncpy. rewrite lookup_strncpy_copy by lia.
  repeat case_decide; lia || done.
Qed.

(** [padded t] has the same name as [t]. *)
Lemma cname_at_ext i n p q :
  (∀ k, (i ≤ k < i + n)%nat → p k = q k) → cname_at i n p = cname_at i n q.
Proof.
  revert i. induction n as [|n IH]; intros i H; [done|]. cbn [cname_at].
  rewrite <- (H i) by lia. rewrite (IH (S i)); [done|]. intros k Hk. apply H. lia.
Qed.

Lemma cname_at_padded i n t :
  (∀ k, (k < i)%nat → t k ≠ 0) → cname_at i n (padded t) = cname_at i n t.
Proof.
  revert i. induction n as [|n IH]; intros i H; [done|]. cbn [cname_at].
  rewrite padded_no_nul by done. destruct (Z.eqb_spec (t i) 0) as [|Ht]; [done|].
  rewrite IH; [done|]. intros k Hk.
  destruct (decide (k = i)) as [->|]; [done|]. apply H. lia.
Qed.

Lemma safestrcpy_copy_spec n s i t :
  (i + n < length s)%nat → (∀ k, (k < i)%nat → t k ≠ 0) →
  length (safestrcpy_copy n s i t) = length s ∧
  (∀ j, (j < i)%nat → safestrcpy_copy n s i t !! j = s !! j) ∧
  (∀ j, (i ≤ j < i + length (cname_at i n t))%nat →
        safestrcpy_copy n s i t !! j = Some (t j)) ∧
  safestrcpy_copy n s i t !! (i + length (cname_at i n t))%nat = Some 0.
Proof.
  revert s i. induction n as [|n IH]; intros s i H Hn; cbn [safestrcpy_copy cname_at].
  - rewrite length_insert, Nat.add_0_r. split; [done|].
    split; [intros; rewrite list_lookup_insert_ne by lia; done|].
    split; [simpl; lia|]. by rewrite list_lookup_insert_eq by lia.
  - destruct (Z.eqb_spec (t i) 0) as [Ht|Ht]; simpl.
    + rewrite !length_insert, Nat.add_0_r. split; [done|].
      split; [intros; rewrite !list_lookup_insert_ne by lia; done|].
      split; [lia|]. rewrite list_lookup_insert_ne by lia.
      by rewrite list_lookup_insert_eq, Ht by lia.
    + destruct (IH (<[i:=t i]> s) (S i)) as (Hl & Hlo & Hmid & Hend).
      { rewrite length_insert. lia. }
      { intros k Hk. destruct (decide (k = i)) as [->|]; [done|]. apply Hn. lia. }
      rewrite length_insert in Hl. split; [done|]. split.
      { intros j Hj. rewrite Hlo by lia. by rewrite list_lookup_insert_ne by lia. }
      split; [|by rewrite Nat.add_succ_r].
      intros j Hj. destruct (decide (j = i)) as [->|].
      * rewrite Hlo by lia. by rewrite list_lookup_insert_eq by lia.
      * apply Hmid. lia.
Qed.

(** ** Properties *)

(** memmove copies the [n] bytes at [src] to [dst] and changes nothing
    else, whether or not the two regions overlap: every byte of the
    destination gets the value its source byte had before the call. *)
Theorem memmove_copies dst src n m x :
  memmove dst src n m x =
    if (dst <=? x) && (x <? dst + n) then m (src + (x - dst)) else m x.
Proof.
  unfold memmove.
  destruct (Z.ltb_spec src dst), (Z.ltb_spec dst (src + n)); simpl.
  1: rewrite move_down_spec by lia.
  2-4: rewrite move_up_spec by lia.
  all: repeat match goal with
    | |- context [?a <=? ?b] => destruct (Z.leb_spec a b)
    | |- context [?a <? ?b] => destruct (Z.ltb_spec a b)
    end; simpl; lia || (f_equal; lia) || done.
Qed.
