(* ===== verification/Devices.v ===== *)
(** * The devices of the machine

    The input ring, the screen, the serial port, the keyboard and the interrupt
    controller: the state that console.c, uart.c, kbd.c and ioapic.c keep or drive,
    with the routines that touch nothing else. *)

From S2P Require Import Prelude Params.

(** ** State *)

(** console.c: [input]. *)
Definition INPUT_BUF : Z := 128.

Record input := Input {
  in_buf : list Z;    (* buf, INPUT_BUF bytes *)
  in_r : Z;           (* read index *)
  in_w : Z;           (* write index *)
  in_e : Z            (* edit index *)
}.

(** CGA memory, one cell of 16 bits per character, and the cursor registers 14 and 15
    of the controller as one number. *)
Record screen := Screen { crt : list Z; crt_pos : Z }.

(** The serial port: whether there is one, the bytes written to its ports, oldest
    first, and the received bytes that wait to be read. *)
Record serial := Serial { uart : bool; com_out : list (Z * Z); com_in : list Z }.

(** The keyboard: the shift state of the driver and the scan codes that wait in the
    controller. *)
Record keyboard := Keyboard { kbd_shift : Z; kbd_in : list Z }.

Record devices := Devices {
  d_input : input;
  d_locking : bool;         (* cons.locking *)
  d_panicked : bool;
  d_screen : screen;
  d_serial : serial;
  d_kbd : keyboard;
  d_idt : bool;             (* the interrupt table is loaded *)
  d_ioapic : Z → Z          (* the registers of the I/O interrupt controller *)
}.

Definition set_input (x : input) (d : devices) : devices :=
  Devices x (d_locking d) (d_panicked d) (d_screen d) (d_serial d) (d_kbd d) (d_idt d) (d_ioapic d).
Definition set_locking (x : bool) (d : devices) : devices :=
  Devices (d_input d) x (d_panicked d) (d_screen d) (d_serial d) (d_kbd d) (d_idt d) (d_ioapic d).
Definition set_panicked (x : bool) (d : devices) : devices :=
  Devices (d_input d) (d_locking d) x (d_screen d) (d_serial d) (d_kbd d) (d_idt d) (d_ioapic d).
Definition set_screen (x : screen) (d : devices) : devices :=
  Devices (d_input d) (d_locking d) (d_panicked d) x (d_serial d) (d_kbd d) (d_idt d) (d_ioapic d).
Definition set_serial (x : serial) (d : devices) : devices :=
  Devices (d_input d) (d_locking d) (d_panicked d) (d_screen d) x (d_kbd d) (d_idt d) (d_ioapic d).
Definition set_kbd (x : keyboard) (d : devices) : devices :=
  Devices (d_input d) (d_locking d) (d_panicked d) (d_screen d) (d_serial d) x (d_idt d) (d_ioapic d).
Definition set_idt (x : bool) (d : devices) : devices :=
  Devices (d_input d) (d_locking d) (d_panicked d) (d_screen d) (d_serial d) (d_kbd d) x (d_ioapic d).
Definition set_ioapic (x : Z → Z) (d : devices) : devices :=
  Devices (d_input d) (d_locking d) (d_panicked d) (d_screen d) (d_serial d) (d_kbd d) (d_idt d) x.

(** The machine before the kernel has touched the devices, with an empty screen. *)
Definition devices0 : devices :=
  Devices (Input (replicate (Z.to_nat INPUT_BUF) 0) 0 0 0) false false (Screen (replicate 2000 0) 0)
    (Serial false [] []) (Keyboard 0 []) true (λ _, 0).

(** ** The screen (console.c) *)
Definition BACKSPACE : Z := 0x100.

(** Writing past the last cell is outside the array; [ConsoleTheorems] shows that it
    does not happen. *)
Definition cgaputc (c : Z) (s : screen) : screen :=
  let pos := crt_pos s in
  let '(m, pos) :=
    if c =? 10 then (crt s, pos + (80 - pos mod 80))
    else if c =? BACKSPACE then (crt s, if 0 <? pos then pos - 1 else pos)
    else (<[Z.to_nat pos := Z.lor (Z.land c 0xff) 0x0700]> (crt s), pos + 1) in
  let '(m, pos) :=
    if 24 <=? pos / 80 then
      let m := splice 0 (slice 80 (23 * 80) m) m in
      let pos := pos - 80 in
      (splice (Z.to_nat pos) (replicate (Z.to_nat (24 * 80 - pos)) 0) m, pos)
    else (m, pos) in
  Screen (<[Z.to_nat pos := Z.lor 32 0x0700]> m) (u16 pos).

(** ** The serial port (uart.c) *)
Definition COM1 : Z := 0x3f8.

Definition outb_com (port data : Z) (s : serial) : serial :=
  Serial (uart s) (com_out s ++ [(port, u8 data)]) (com_in s).

(** The wait for the transmitter has no effect on the state: after 128 turns the byte is
    sent in any case. *)
Definition uartputc (c : Z) (s : serial) : serial :=
  if uart s then outb_com COM1 c s else s.

Definition uartgetc (s : serial) : Z * serial :=
  if uart s then
    match com_in s with
    | [] => (-1, s)
    | c :: l => (c, Serial (uart s) (com_out s) l)
    end
  else (-1, s).

Definition uart_banner : list Z := str "xv6..." ++ [10].

(** [status] is the line status register; all ones when there is no port. *)
Definition uartearlyinit (status : Z) (s : serial) : serial :=
  let s := outb_com (COM1 + 2) 0 s in
  let s := outb_com (COM1 + 3) 0x80 s in
  let s := outb_com (COM1 + 0) (115200 / 9600) s in
  let s := outb_com (COM1 + 1) 0 s in
  let s := outb_com (COM1 + 3) 0x03 s in
  let s := outb_com (COM1 + 4) 0 s in
  let s := outb_com (COM1 + 1) 0x01 s in
  if status =? 0xFF then s
  else foldl (λ s c, uartputc c s) (Serial true (com_out s) (com_in s)) uart_banner.

(** ** The I/O interrupt controller (ioapic.c) *)
Definition REG_ID : Z := 0x00.
Definition REG_VER : Z := 0x01.
Definition REG_TABLE : Z := 0x10.
Definition INT_DISABLED : Z := 0x00010000.

Definition ioapicread (reg : Z) (r : Z → Z) : Z := r reg.
Definition ioapicwrite (reg data : Z) (r : Z → Z) : Z → Z :=
  λ x, if x =? reg then data else r x.

Fixpoint ioapicinit_loop (k : nat) (i : Z) (r : Z → Z) : Z → Z :=
  match k with
  | O => r
  | S k =>
      let r := ioapicwrite (REG_TABLE + 2 * i) (Z.lor INT_DISABLED (T_IRQ0 + i)) r in
      let r := ioapicwrite (REG_TABLE + 2 * i + 1) 0 r in
      ioapicinit_loop k (i + 1) r
  end.

(** Up to the message about the id. *)
Definition ioapicinit (r : Z → Z) : Z → Z :=
  let maxintr := Z.land (Z.shiftr (ioapicread REG_VER r) 16) 0xFF in
  ioapicinit_loop (Z.to_nat (maxintr + 1)) 0 r.

Definition ioapicenable (irq cpunum : Z) (r : Z → Z) : Z → Z :=
  let r := ioapicwrite (REG_TABLE + 2 * irq) (T_IRQ0 + irq) r in
  ioapicwrite (REG_TABLE + 2 * irq + 1) (u32 (Z.shiftl cpunum 24)) r.
