(* ===== verification/Kbd.v ===== *)
(** * The keyboard driver: kbd.c and the tables of kbd.h *)

From S2P Require Import Prelude Params Devices.

(** ** kbd.h *)
Definition NO : Z := 0.
Definition SHIFT : Z := Z.shiftl 1 0.
Definition CTL : Z := Z.shiftl 1 1.
Definition ALT : Z := Z.shiftl 1 2.
Definition CAPSLOCK : Z := Z.shiftl 1 3.
Definition NUMLOCK : Z := Z.shiftl 1 4.
Definition SCROLLLOCK : Z := Z.shiftl 1 5.
Definition E0ESC : Z := Z.shiftl 1 6.

Definition KEY_HOME : Z := 0xE0.
Definition KEY_END : Z := 0xE1.
Definition KEY_UP : Z := 0xE2.
Definition KEY_DN : Z := 0xE3.
Definition KEY_LF : Z := 0xE4.
Definition KEY_RT : Z := 0xE5.
Definition KEY_PGUP : Z := 0xE6.
Definition KEY_PGDN : Z := 0xE7.
Definition KEY_INS : Z := 0xE8.
Definition KEY_DEL : Z := 0xE9.

(** An array of 256 bytes with the given first elements and designated elements. *)
Definition table (l : list Z) (init : list (nat * Z)) : list Z :=
  foldl (λ t p, <[fst p := snd p]> t) (l ++ replicate (256 - length l) NO) init.

Definition shiftcode : list Z := table []
  [(0x1D, CTL); (0x2A, SHIFT); (0x36, SHIFT); (0x38, ALT); (0x9D, CTL); (0xB8, ALT)]%nat.

Definition togglecode : list Z := table []
  [(0x3A, CAPSLOCK); (0x45, NUMLOCK); (0x46, SCROLLLOCK)]%nat.

(** The keys that come with an escape, in all three maps. *)
Definition escaped : list (nat * Z) :=
  [(0xC8, KEY_UP); (0xD0, KEY_DN); (0xC9, KEY_PGUP); (0xD1, KEY_PGDN); (0xCB, KEY_LF);
   (0xCD, KEY_RT); (0x97, KEY_HOME); (0xCF, KEY_END); (0xD2, KEY_INS); (0xD3, KEY_DEL)]%nat.

Definition normalmap : list Z := table
  ([NO; 0x1B] ++ str "1234567890-=" ++ [8; 9] ++
   str "qwertyuiop[]" ++ [10; NO] ++ str "as" ++
   str "dfghjkl;'`" ++ [NO] ++ str "\zxcv" ++
   str "bnm,./" ++ [NO] ++ str "*" ++
   [NO; 32; NO; NO; NO; NO; NO; NO;
    NO; NO; NO; NO; NO; NO; NO] ++ str "7" ++
   str "89-456+1" ++
   str "230." ++ [NO; NO; NO; NO])
  ([(0x9C%nat, 10); (0xB5%nat, 47)] ++ escaped).

Definition shiftmap : list Z := table
  ([NO; 27] ++ str "!@#$%^&*()_+" ++ [8; 9] ++
   str "QWERTYUIOP{}" ++ [10; NO] ++ str "AS" ++
   str "DFGHJKL:" ++ [34] ++ str "~" ++ [NO] ++ str "|ZXCV" ++
   str "BNM<>?" ++ [NO] ++ str "*" ++
   [NO; 32; NO; NO; NO; NO; NO; NO;
    NO; NO; NO; NO; NO; NO; NO] ++ str "7" ++
   str "89-456+1" ++
   str "230." ++ [NO; NO; NO; NO])
  ([(0x9C%nat, 10); (0xB5%nat, 47)] ++ escaped).

(** C(x): control and x, as the array of bytes keeps it. *)
Definition ctl (s : string) : list Z := (λ c, u8 (c - 64)) <$> str s.

Definition ctlmap : list Z := table
  (replicate 16 NO ++
   ctl "QWERTYUIOP" ++ [NO; NO; 13; NO] ++ ctl "AS" ++
   ctl "DFGHJKL" ++ [NO; NO; NO; NO] ++ ctl "\ZXCV" ++
   ctl "BNM" ++ [NO; NO] ++ ctl "/" ++ [NO; NO])
  ([(0x9C%nat, 13); (0xB5%nat, u8 (47 - 64))] ++ escaped).

(** ** kbd.c *)
Definition charcode : list (list Z) := [normalmap; shiftmap; ctlmap; ctlmap].

(** The status register says that data waits as long as scan codes do. *)
Definition kbdgetc (k : keyboard) : Z * keyboard :=
  let shift := kbd_shift k in
  match kbd_in k with
  | [] => (-1, k)
  | data :: rest =>
      if data =? 0xE0 then (0, Keyboard (Z.lor shift E0ESC) rest)
      else if tst data 0x80 then
        let data := if tst shift E0ESC then data else Z.land data 0x7F in
        (0, Keyboard (Z.land shift (u32 (Z.lnot (Z.lor (shiftcode !!! Z.to_nat data) E0ESC)))) rest)
      else
        let '(data, shift) :=
          if tst shift E0ESC then (Z.lor data 0x80, Z.land shift (u32 (Z.lnot E0ESC)))
          else (data, shift) in
        let shift := Z.lor shift (shiftcode !!! Z.to_nat data) in
        let shift := Z.lxor shift (togglecode !!! Z.to_nat data) in
        let c := charcode !!! Z.to_nat (Z.land shift (Z.lor CTL SHIFT)) !!! Z.to_nat data in
        let c :=
          if tst shift CAPSLOCK then
            if (97 <=? c) && (c <=? 122) then c + (65 - 97)
            else if (65 <=? c) && (c <=? 90) then c + (97 - 65)
            else c
          else c in
        (c, Keyboard shift rest)
  end.

(** ** A keyboard *)

(** What the keys of a US keyboard are for: characters, with shift and without it, modifiers
    that work while they are pressed, and locks that change with each press. *)
Inductive modifier := M_shift | M_ctl | M_alt.
Inductive lock := L_caps | L_num | L_scroll.
Inductive key := K_char (plain shifted : Z) | K_mod (m : modifier) | K_lock (l : lock) | K_none.

(** The rows of keys: the scan code of the first key, and the characters of the row. *)
Definition main_rows : list (Z * list Z * list Z) :=
  [(0x01, [27], [27]);
   (0x02, str "1234567890-=", str "!@#$%^&*()_+");
   (0x0E, [8; 9], [8; 9]);
   (0x10, str "qwertyuiop[]", str "QWERTYUIOP{}");
   (0x1C, [10], [10]);
   (0x1E, str "asdfghjkl;'`", str "ASDFGHJKL:" ++ [34] ++ str "~");
   (0x2B, str "\zxcvbnm,./", str "|ZXCVBNM<>?");
   (0x37, str "*", str "*");
   (0x39, str " ", str " ");
   (0x47, str "789-456+1230.", str "789-456+1230.")].

(** The keys whose scan codes come with an escape. *)
Definition escaped_rows : list (Z * list Z * list Z) :=
  [(0x1C, [10], [10]); (0x35, str "/", str "/"); (0x17, [KEY_HOME], [KEY_HOME]);
   (0x48, [KEY_UP; KEY_PGUP], [KEY_UP; KEY_PGUP]); (0x4B, [KEY_LF], [KEY_LF]); (0x4D, [KEY_RT], [KEY_RT]);
   (0x4F, [KEY_END; KEY_DN; KEY_PGDN; KEY_INS; KEY_DEL], [KEY_END; KEY_DN; KEY_PGDN; KEY_INS; KEY_DEL])].

Fixpoint find_key (code : Z) (rows : list (Z * list Z * list Z)) : key :=
  match rows with
  | [] => K_none
  | (first, plain, shifted) :: rows =>
      if (first <=? code) && (code <? first + Z.of_nat (length plain)) then
        let i := Z.to_nat (code - first) in K_char (plain !!! i) (shifted !!! i)
      else find_key code rows
  end.

(** The key of a scan code without its top bit. *)
Definition layout (escape : bool) (code : Z) : key :=
  if escape then
    if code =? 0x1D then K_mod M_ctl else if code =? 0x38 then K_mod M_alt else find_key code escaped_rows
  else if code =? 0x1D then K_mod M_ctl
  else if (code =? 0x2A) || (code =? 0x36) then K_mod M_shift
  else if code =? 0x38 then K_mod M_alt
  else if code =? 0x3A then K_lock L_caps
  else if code =? 0x45 then K_lock L_num
  else if code =? 0x46 then K_lock L_scroll
  else find_key code main_rows.

(** The modifiers that are pressed, the locks that are on, and whether an escape has come. *)
Record board := Board { bd_shift : bool; bd_ctl : bool; bd_alt : bool; bd_caps : bool; bd_num : bool; bd_scroll : bool; bd_escape : bool }.

Definition set_escape (e : bool) (b : board) : board :=
  Board (bd_shift b) (bd_ctl b) (bd_alt b) (bd_caps b) (bd_num b) (bd_scroll b) e.
Definition set_modifier (m : modifier) (down : bool) (b : board) : board :=
  match m with
  | M_shift => Board down (bd_ctl b) (bd_alt b) (bd_caps b) (bd_num b) (bd_scroll b) (bd_escape b)
  | M_ctl => Board (bd_shift b) down (bd_alt b) (bd_caps b) (bd_num b) (bd_scroll b) (bd_escape b)
  | M_alt => Board (bd_shift b) (bd_ctl b) down (bd_caps b) (bd_num b) (bd_scroll b) (bd_escape b)
  end.
Definition toggle (l : lock) (b : board) : board :=
  match l with
  | L_caps => Board (bd_shift b) (bd_ctl b) (bd_alt b) (negb (bd_caps b)) (bd_num b) (bd_scroll b) (bd_escape b)
  | L_num => Board (bd_shift b) (bd_ctl b) (bd_alt b) (bd_caps b) (negb (bd_num b)) (bd_scroll b) (bd_escape b)
  | L_scroll => Board (bd_shift b) (bd_ctl b) (bd_alt b) (bd_caps b) (bd_num b) (negb (bd_scroll b)) (bd_escape b)
  end.

Definition lower (c : Z) : bool := (97 <=? c) && (c <=? 122).
Definition upper (c : Z) : bool := (65 <=? c) && (c <=? 90).
Definition other_case (c : Z) : Z := if lower c then c - 32 else if upper c then c + 32 else c.

(** Control with a key: the control character of a letter, of \ and of /, a carriage return for
    enter, and the arrows and their like as they are. *)
Definition control (c : Z) : Z :=
  if lower c then c - 96 else if c =? 92 then 28 else if c =? 47 then u8 (47 - 64)
  else if c =? 10 then 13 else if 0xE0 <=? c then c else 0.

(** What a key types; 0 is nothing. *)
Definition typed (b : board) (k : key) : Z :=
  match k with
  | K_char plain shifted =>
      let c := if bd_ctl b then control plain else if bd_shift b then shifted else plain in
      if bd_caps b then other_case c else c
  | _ => 0
  end.

Definition press (k : key) (b : board) : board :=
  match k with K_mod m => set_modifier m true b | K_lock l => toggle l b | _ => b end.
Definition unpress (k : key) (b : board) : board :=
  match k with K_mod m => set_modifier m false b | _ => b end.

(** One scan code: an escape, or a key that is released or pressed. *)
Definition strike (b : board) (code : Z) : Z * board :=
  if code =? 0xE0 then (0, set_escape true b)
  else
    let k := layout (bd_escape b) (code mod 128) in
    let b := set_escape false b in
    if 128 <=? code then (0, unpress k b) else (typed (press k b) k, press k b).

Fixpoint strikes (b : board) (codes : list Z) : list Z * board :=
  match codes with
  | [] => ([], b)
  | code :: codes =>
      let '(c, b) := strike b code in
      let '(cs, b) := strikes b codes in (c :: cs, b)
  end.

(** ** The driver is this keyboard *)
Definition flags (b : board) : Z :=
  Z.b2z (bd_shift b) + 2 * Z.b2z (bd_ctl b) + 4 * Z.b2z (bd_alt b) + 8 * Z.b2z (bd_caps b) + 16 * Z.b2z (bd_num b) +
  32 * Z.b2z (bd_scroll b) + 64 * Z.b2z (bd_escape b).

(** The loop of consoleintr: kbdgetc until no scan code waits, at most [n] times. *)
Fixpoint kbd_drain (n : nat) (k : keyboard) : list Z * keyboard :=
  match n with
  | O => ([], k)
  | S n =>
      let '(c, k) := kbdgetc k in
      if 0 <=? c then let '(cs, k) := kbd_drain n k in (c :: cs, k) else ([], k)
  end.

Definition strike_ok (b : board) (code : Z) : bool :=
  let '(c, k) := kbdgetc (Keyboard (flags b) [code]) in
  let '(c', b') := strike b code in
  (c =? c') && (kbd_shift k =? flags b') && (0 <=? c).

(** A board has seven flags and a scan code eight bits, so all cases can be run. *)
Lemma strikes_ok b : forallb (strike_ok b) (seqZ 0 256) = true.
Proof. destruct b as [[] [] [] [] [] [] []]; vm_compute; reflexivity. Qed.

Lemma kbdgetc_rest shift data rest :
  kbdgetc (Keyboard shift (data :: rest)) =
    (fst (kbdgetc (Keyboard shift [data])), Keyboard (kbd_shift (snd (kbdgetc (Keyboard shift [data])))) rest).
Proof.
  unfold kbdgetc. cbn [kbd_in kbd_shift]. destruct (data =? 0xE0); [done|]. destruct (tst data 0x80); [done|].
  destruct (if tst shift E0ESC then _ else _) as [d s]. done.
Qed.

Lemma kbdgetc_strike b code rest :
  is_byte code →
  kbdgetc (Keyboard (flags b) (code :: rest)) = (fst (strike b code), Keyboard (flags (snd (strike b code))) rest) ∧
  0 ≤ fst (strike b code).
Proof.
  intros Hc. pose proof (strikes_ok b) as H. rewrite forallb_forall in H. specialize (H code).
  rewrite <- list_elem_of_In, elem_of_seqZ in H. specialize (H ltac:(unfold is_byte in Hc; lia)).
  rewrite kbdgetc_rest. unfold strike_ok in H. destruct (kbdgetc _) as [c k], (strike b code) as [c' b'].
  apply andb_true_iff in H as [[->%Z.eqb_eq E%Z.eqb_eq]%andb_true_iff H%Z.leb_le]. cbn [fst snd]. by rewrite E.
Qed.

(** C35: the keyboard driver types what the keys say.  From any state of the modifiers and
    locks, any sequence of scan codes - keys pressed and released in any order, with and
    without escapes - gives, one call of kbdgetc for each, the characters of the keys of a
    US keyboard: shifted while shift is pressed, control characters while control is, with
    the case of letters changed while caps lock is on, and nothing for releases, modifiers
    and locks; then kbdgetc gives -1, and the state has the modifiers that are still pressed
    and the locks that are on. *)
Theorem kbd_types b codes n :
  bytes_ok codes → (length codes < n)%nat →
  kbd_drain n (Keyboard (flags b) codes) = (fst (strikes b codes), Keyboard (flags (snd (strikes b codes))) []).
Proof.
  intros Hc. revert b n. induction Hc as [|code codes Hcode Hc IH]; intros b n Hn; (destruct n as [|n]; [cbn in Hn; lia|]); [done|].
  cbn [kbd_drain strikes]. destruct (kbdgetc_strike b code codes Hcode) as [-> H0]. destruct (strike b code) as [c b'].
  cbn [fst snd] in *. rewrite (proj2 (Z.leb_le 0 c)), IH by (done || cbn in Hn; lia). by destruct (strikes b' codes).
Qed.

(** Caps lock, shift and c with shift released before it, control and c, and the arrow up. *)
Lemma kbd_types_witness :
  kbd_drain 14 (Keyboard 0 [0x3A; 0xBA; 0x2A; 0x2E; 0xAA; 0xAE; 0x2E; 0x1D; 0x2E; 0x9D; 0xE0; 0x48; 0x1E]) =
    ([0; 0; 0; 99; 0; 0; 67; 0; 3; 0; 0; KEY_UP; 65], Keyboard CAPSLOCK []).
Proof.
  transitivity (fst (strikes (Board false false false false false false false)
                      [0x3A; 0xBA; 0x2A; 0x2E; 0xAA; 0xAE; 0x2E; 0x1D; 0x2E; 0x9D; 0xE0; 0x48; 0x1E]), Keyboard CAPSLOCK []).
  - apply (kbd_types (Board false false false false false false false)
      [0x3A; 0xBA; 0x2A; 0x2E; 0xAA; 0xAE; 0x2E; 0x1D; 0x2E; 0x9D; 0xE0; 0x48; 0x1E] 14); [|cbn; lia].
    by apply (bool_decide_unpack _).
  - vm_compute. reflexivity.
Defined.
