(* ===== verification/Spinlock.v ===== *)
(** * Spin locks in detail: spinlock.c on several processors

    The lock word, its owner, the nesting depth of pushcli and the interrupt
    flag of every processor.  The operations are the code between two accesses
    to shared memory, and a step relation interleaves those of all processors.
    The rest of the development works with the set of locks that the running
    processor holds ([Core.c_held]); the theorems here show that this set is
    what the lock words and the owner fields implement. *)

From stdpp Require Import functions.
From S2P Require Import Prelude Params.

(** ** State *)

(** struct spinlock: [name] is not used by the code. *)
Record spinlock := Spinlock { locked : Z; lk_cpu : option nat; lk_pcs : list Z }.

(** The fields of struct cpu that pushcli and popcli use, and the interrupt
    flag FL_IF of the processor. *)
Record cpu := Cpu { ncli : Z; intena : bool; fl_if : bool }.

Definition initlock : spinlock := Spinlock 0 None (replicate 10 0).

(** ** Interrupts *)
Definition pushcli (c : cpu) : cpu :=
  let eflags := fl_if c in
  let c := Cpu (ncli c) (intena c) false in      (* cli *)
  let c := if ncli c =? 0 then Cpu (ncli c) eflags (fl_if c) else c in
  Cpu (ncli c + 1) (intena c) (fl_if c).

Definition popcli (c : cpu) : string + cpu :=
  if fl_if c then inl "popcli - interruptible" else
  let c := Cpu (ncli c - 1) (intena c) (fl_if c) in
  if ncli c <? 0 then inl "popcli" else
  inr (if (ncli c =? 0) && intena c then Cpu (ncli c) (intena c) true else c).

(** ** The call stack, for debugging *)

(** [mem a] is the word at address [a].  The chain is followed while the frame
    pointer is a kernel address. *)
Fixpoint walk_stack (n : nat) (mem : Z → Z) (rbp : Z) : list Z :=
  match n with
  | O => []
  | S n =>
      if (rbp =? 0) || (rbp <? KERNBASE) || (rbp =? 0xffffffff) then []
      else mem (u64 (rbp + 8)) :: walk_stack n mem (mem rbp)
  end.

Definition getstackpcs (mem : Z → Z) (rbp : Z) : list Z :=
  let pcs := walk_stack 10 mem rbp in
  pcs ++ replicate (10 - length pcs) 0.

(** ** Locks *)
Definition holding (lock : spinlock) (me : nat) : bool :=
  negb (locked lock =? 0) && bool_decide (lk_cpu lock = Some me).

(** The atomic exchange: the old lock word, and the lock with the new one. *)
Definition xchg (lk : spinlock) (v : Z) : Z * spinlock :=
  (locked lk, Spinlock v (lk_cpu lk) (lk_pcs lk)).

(** acquire up to the loop. *)
Definition acquire_enter (lk : spinlock) (me : nat) (c : cpu) : string + cpu :=
  let c := pushcli c in
  if holding lk me then inl "acquire" else inr c.

(** One turn of the loop: whether the lock was free. *)
Definition acquire_try (lk : spinlock) : bool * spinlock :=
  let '(old, lk) := xchg lk 1 in (old =? 0, lk).

(** acquire after the loop. *)
Definition acquire_record (me : nat) (mem : Z → Z) (rbp : Z) (lk : spinlock) : spinlock :=
  Spinlock (locked lk) (Some me) (getstackpcs mem rbp).

(** release up to the store that frees the lock. *)
Definition release_enter (lk : spinlock) (me : nat) : string + spinlock :=
  if negb (holding lk me) then inl "release"
  else inr (Spinlock (locked lk) None (<[0%nat := 0]> (lk_pcs lk))).

(** The store and popcli. *)
Definition release_store (lk : spinlock) : spinlock := Spinlock 0 (lk_cpu lk) (lk_pcs lk).

(** ** All processors *)

(** Where a processor is: outside the lock operations, spinning in acquire, past
    the exchange that took the lock, past the part of release that gives up the
    ownership. *)
Inductive pc := Run | Spin (l : nat) | Got (l : nat) | Rel (l : nat).

(** [m_held] and [m_extra] are ghost state: the locks for which acquire has
    returned and release has not been called, and the calls of pushcli outside
    the lock operations that have no popcli yet. *)
Record mach := Mach {
  m_cpus : nat → cpu;
  m_locks : nat → spinlock;
  m_pc : nat → pc;
  m_held : nat → list nat;
  m_extra : nat → nat
}.

Definition mach0 : mach :=
  Mach (λ _, Cpu 0 false false) (λ _, initlock) (λ _, Run) (λ _, []) (λ _, 0%nat).

Inductive step (m : mach) : string + mach → Prop :=
| step_acquire_panic c l msg :
    m_pc m c = Run → acquire_enter (m_locks m l) c (m_cpus m c) = inl msg →
    step m (inl msg)
| step_acquire c l cp :
    m_pc m c = Run → acquire_enter (m_locks m l) c (m_cpus m c) = inr cp →
    step m (inr (Mach (<[c := cp]> (m_cpus m)) (m_locks m) (<[c := Spin l]> (m_pc m))
                   (m_held m) (m_extra m)))
| step_spin c l lk :
    m_pc m c = Spin l → acquire_try (m_locks m l) = (false, lk) →
    step m (inr (Mach (m_cpus m) (<[l := lk]> (m_locks m)) (m_pc m) (m_held m) (m_extra m)))
| step_got c l lk :
    m_pc m c = Spin l → acquire_try (m_locks m l) = (true, lk) →
    step m (inr (Mach (m_cpus m) (<[l := lk]> (m_locks m)) (<[c := Got l]> (m_pc m))
                   (m_held m) (m_extra m)))
| step_record c l mem rbp :
    m_pc m c = Got l →
    step m (inr (Mach (m_cpus m) (<[l := acquire_record c mem rbp (m_locks m l)]> (m_locks m))
                   (<[c := Run]> (m_pc m)) (<[c := l :: m_held m c]> (m_held m)) (m_extra m)))
| step_release_panic c l msg :
    m_pc m c = Run → release_enter (m_locks m l) c = inl msg → step m (inl msg)
| step_release c l lk :
    m_pc m c = Run → release_enter (m_locks m l) c = inr lk →
    step m (inr (Mach (m_cpus m) (<[l := lk]> (m_locks m)) (<[c := Rel l]> (m_pc m))
                   (<[c := filter (λ x, x ≠ l) (m_held m c)]> (m_held m)) (m_extra m)))
| step_free_panic c l msg :
    m_pc m c = Rel l → popcli (m_cpus m c) = inl msg → step m (inl msg)
| step_free c l cp :
    m_pc m c = Rel l → popcli (m_cpus m c) = inr cp →
    step m (inr (Mach (<[c := cp]> (m_cpus m)) (<[l := release_store (m_locks m l)]> (m_locks m))
                   (<[c := Run]> (m_pc m)) (m_held m) (m_extra m)))
| step_push c :
    m_pc m c = Run →
    step m (inr (Mach (<[c := pushcli (m_cpus m c)]> (m_cpus m)) (m_locks m) (m_pc m)
                   (m_held m) (<[c := S (m_extra m c)]> (m_extra m))))
| step_pop_panic c n msg :
    m_pc m c = Run → m_extra m c = S n → popcli (m_cpus m c) = inl msg → step m (inl msg)
| step_pop c n cp :
    m_pc m c = Run → m_extra m c = S n → popcli (m_cpus m c) = inr cp →
    step m (inr (Mach (<[c := cp]> (m_cpus m)) (m_locks m) (m_pc m)
                   (m_held m) (<[c := n]> (m_extra m))))
| step_sti c b :
    m_pc m c = Run → ncli (m_cpus m c) = 0 →
    step m (inr (Mach (<[c := Cpu 0 (intena (m_cpus m c)) b]> (m_cpus m)) (m_locks m) (m_pc m)
                   (m_held m) (m_extra m))).

Inductive reachable : mach → Prop :=
| reach_boot : reachable mach0
| reach_step m m' : reachable m → step m (inr m') → reachable m'.

(** ** The invariant *)
Definition owns (m : mach) (c l : nat) : Prop :=
  l ∈ m_held m c ∨ m_pc m c = Got l ∨ m_pc m c = Rel l.

(** The lock word is set exactly while some processor owns the lock, no two
    processors own it, and the owner field names the processor that holds it. *)
Record locks_ok (m : mach) : Prop := {
  lo_word : ∀ l, locked (m_locks m l) ≠ 0 ↔ ∃ c, owns m c l;
  lo_one : ∀ l c c', owns m c l → owns m c' l → c = c';
  lo_cpu : ∀ l c, lk_cpu (m_locks m l) = Some c ↔ l ∈ m_held m c;
  lo_nodup : ∀ c, NoDup (m_held m c);
  lo_pc : ∀ c l, m_pc m c = Got l ∨ m_pc m c = Rel l → l ∉ m_held m c
}.

Definition in_op (p : pc) : nat := match p with Run => 0 | _ => 1 end.

(** The nesting depth counts the locks held, the operation under way and the
    other calls of pushcli; interrupts are off while it is not 0. *)
Record cpus_ok (m : mach) : Prop := {
  co_ncli : ∀ c, ncli (m_cpus m c) =
    Z.of_nat (length (m_held m c) + m_extra m c + in_op (m_pc m c));
  co_if : ∀ c, 0 < ncli (m_cpus m c) → fl_if (m_cpus m c) = false
}.

Ltac fn_case a b :=
  destruct (decide (a = b)) as [<-|];
  [rewrite ?fn_lookup_insert in *|rewrite ?(fn_lookup_insert_ne _ a b) in * by done].

Ltac fn_cases :=
  repeat match goal with
  | H : context [(<[?a := _]> _) ?b] |- _ => fn_case a b
  | |- context [(<[?a := _]> _) ?b] => fn_case a b
  end.

Lemma holding_held m c l : locks_ok m → holding (m_locks m l) c = bool_decide (l ∈ m_held m c).
Proof.
  intros H. unfold holding. apply eq_true_iff_eq. rewrite andb_true_iff, negb_true_iff, Z.eqb_neq.
  rewrite !bool_decide_eq_true, (lo_cpu _ H), (lo_word _ H). split; [by intros [_ ?]|].
  intros Hl. split; [|done]. exists c. by left.
Qed.

(** *** Locks *)
Lemma locks_ok_same m m' :
  (∀ l, m_locks m' l = m_locks m l) → (∀ c l, owns m' c l ↔ owns m c l) →
  (∀ c, m_held m' c = m_held m c) → (∀ c l, m_pc m' c = Got l ∨ m_pc m' c = Rel l → m_pc m c = m_pc m' c) →
  locks_ok m → locks_ok m'.
Proof.
  intros El Eo Eh Ep [H1 H2 H3 H4 H5]. split.
  - intros l. rewrite El, H1. by setoid_rewrite Eo.
  - intros l c c'. rewrite !Eo. apply H2.
  - intros l c. rewrite El, Eh. apply H3.
  - intros c. rewrite Eh. apply H4.
  - intros c l Hp. rewrite Eh. apply H5. by rewrite (Ep c l Hp).
Qed.

Lemma locks_ok_spin m c l lk :
  m_pc m c = Spin l → acquire_try (m_locks m l) = (false, lk) → locks_ok m →
  locks_ok (Mach (m_cpus m) (<[l := lk]> (m_locks m)) (m_pc m) (m_held m) (m_extra m)).
Proof.
  intros Hpc [= Hold <-] [H1 H2 H3 H4 H5]. apply Z.eqb_neq in Hold.
  split; cbn; [|exact H2| |exact H4|exact H5].
  - intros l'. fn_cases; [|by apply H1]. cbn. split; [|done]. intros _. by apply H1.
  - intros l' c'. fn_cases; apply H3.
Qed.

Lemma locks_ok_got m c l lk :
  m_pc m c = Spin l → acquire_try (m_locks m l) = (true, lk) → locks_ok m →
  locks_ok (Mach (m_cpus m) (<[l := lk]> (m_locks m)) (<[c := Got l]> (m_pc m)) (m_held m) (m_extra m)).
Proof.
  intros Hpc [= Hold <-] [H1 H2 H3 H4 H5]. apply Z.eqb_eq in Hold.
  assert (Hfree : ∀ c', ¬ owns m c' l) by (intros c' Ho; assert (locked (m_locks m l) ≠ 0) by (apply H1; eauto); done).
  assert (Ho : ∀ c' l', owns (Mach (m_cpus m) (<[l := Spinlock 1 (lk_cpu (m_locks m l)) (lk_pcs (m_locks m l))]> (m_locks m)) (<[c := Got l]> (m_pc m)) (m_held m) (m_extra m)) c' l' ↔ owns m c' l' ∨ (c' = c ∧ l' = l)).
  { intros c' l'. unfold owns. cbn. fn_cases; [rewrite Hpc|]; naive_solver. }
  split; cbn [m_cpus m_locks m_pc m_held m_extra].
  - intros l'. setoid_rewrite Ho. fn_cases; cbn; [naive_solver|]. rewrite H1. naive_solver.
  - intros l' c1 c2. rewrite !Ho. intros [?|[-> ->]] [?|[-> ?]]; subst; eauto; exfalso; naive_solver.
  - intros l' c'. fn_cases; apply H3.
  - exact H4.
  - intros c' l'. fn_cases; [|apply H5]. intros [[= <-]|?]; [|done]. intros Hin. apply (Hfree c). by left.
Qed.

Lemma locks_ok_record m c l mem rbp :
  m_pc m c = Got l → locks_ok m →
  locks_ok (Mach (m_cpus m) (<[l := acquire_record c mem rbp (m_locks m l)]> (m_locks m))
              (<[c := Run]> (m_pc m)) (<[c := l :: m_held m c]> (m_held m)) (m_extra m)).
Proof.
  intros Hpc [H1 H2 H3 H4 H5]. set (m' := Mach _ _ _ _ _).
  assert (Ho : ∀ c' l', owns m' c' l' ↔ owns m c' l').
  { intros c' l'. unfold owns. cbn. fn_cases; [rewrite Hpc, elem_of_cons|]; naive_solver. }
  assert (Hl : ∀ c', l ∈ m_held m c' → False).
  { intros c' Hin. assert (c' = c) as -> by (apply (H2 l); [by left|right; by left]).
    by apply (H5 c l); [left|]. }
  split; cbn.
  - intros l'. setoid_rewrite Ho. fn_cases; apply H1.
  - intros l' c1 c2. rewrite !Ho. apply H2.
  - intros l' c'. fn_cases; cbn; rewrite ?elem_of_cons; split.
    + by left.
    + done.
    + intros [= ->]. done.
    + intros Hin. exfalso. eauto.
    + intros Hc%H3. by right.
    + intros [->|Hin]; [done|by apply H3].
    + apply H3.
    + apply H3.
  - intros c'. fn_cases; [|done]. constructor; [|done]. intros Hin. eauto.
  - intros c' l'. fn_cases; [naive_solver|apply H5].
Qed.

Lemma locks_ok_release m c l lk :
  m_pc m c = Run → release_enter (m_locks m l) c = inr lk → locks_ok m →
  locks_ok (Mach (m_cpus m) (<[l := lk]> (m_locks m)) (<[c := Rel l]> (m_pc m))
              (<[c := filter (λ x, x ≠ l) (m_held m c)]> (m_held m)) (m_extra m)).
Proof.
  intros Hpc Hre Hok. pose proof Hok as [H1 H2 H3 H4 H5]. unfold release_enter in Hre.
  rewrite holding_held in Hre by done. case_bool_decide as Hin; [|done]. injection Hre as <-.
  set (m' := Mach _ _ _ _ _).
  assert (Ho : ∀ c' l', owns m' c' l' ↔ owns m c' l').
  { intros c' l'. unfold owns. cbn. fn_cases; [rewrite Hpc, list_elem_of_filter|naive_solver].
    destruct (decide (l' = l)) as [->|]; naive_solver. }
  assert (Hl : ∀ c', l ∈ m_held m c' → c' = c) by (intros c' Hc; apply (H2 l); by left).
  split; cbn.
  - intros l'. setoid_rewrite Ho. fn_cases; apply H1.
  - intros l' c1 c2. rewrite !Ho. apply H2.
  - intros l' c'. fn_cases; cbn; rewrite ?list_elem_of_filter; split; try naive_solver;
      try apply H3; intros; try (split; [done|]); try (by apply H3); naive_solver.
  - intros c'. fn_cases; [|done]. by apply NoDup_filter.
  - intros c' l'. fn_cases; [|apply H5]. rewrite list_elem_of_filter. naive_solver.
Qed.

Lemma locks_ok_free m c l cp :
  m_pc m c = Rel l → locks_ok m →
  locks_ok (Mach cp (<[l := release_store (m_locks m l)]> (m_locks m))
              (<[c := Run]> (m_pc m)) (m_held m) (m_extra m)).
Proof.
  intros Hpc Hok. pose proof Hok as [H1 H2 H3 H4 H5]. set (m' := Mach _ _ _ _ _).
  assert (Ho : ∀ c' l', owns m' c' l' ↔ owns m c' l' ∧ l' ≠ l).
  { intros c' l'. unfold owns. cbn. fn_cases; [rewrite Hpc|].
    - destruct (decide (l' = l)) as [->|]; [|naive_solver].
      split; [|naive_solver]. intros [Hin|[?|?]]; [|done..]. by destruct (H5 c l); [right|].
    - split; [|naive_solver]. intros Hc. split; [done|]. intros ->.
      assert (c' = c); [|done]. apply (H2 l); [done|]. right; by right. }
  split; cbn.
  - intros l'. setoid_rewrite Ho. fn_cases; cbn; [naive_solver|]. rewrite H1. naive_solver.
  - intros l' c1 c2. rewrite !Ho. intros [??] [??]. eauto.
  - intros l' c'. fn_cases; apply H3.
  - done.
  - intros c' l'. fn_cases; [naive_solver|apply H5].
Qed.

Lemma locks_ok_step m m' : locks_ok m → step m (inr m') → locks_ok m'.
Proof.
  intros Hok Hst. inversion Hst; subst; clear Hst.
  - eapply locks_ok_same, Hok; [done| |done|].
    + intros c' l'. unfold owns. cbn. fn_cases; [|done]. rewrite H0. naive_solver.
    + intros c' l'. cbn. fn_cases; naive_solver.
  - by eapply locks_ok_spin.
  - by eapply locks_ok_got.
  - by eapply locks_ok_record.
  - by eapply locks_ok_release.
  - by eapply locks_ok_free.
  - by eapply locks_ok_same, Hok.
  - by eapply locks_ok_same, Hok.
  - by eapply locks_ok_same, Hok.
Qed.

(** *** Interrupts *)
Lemma pushcli_ncli c : ncli (pushcli c) = ncli c + 1 ∧ fl_if (pushcli c) = false.
Proof. unfold pushcli. cbn. by destruct (ncli c =? 0). Qed.

Lemma popcli_ok c :
  0 < ncli c → fl_if c = false →
  ∃ c', popcli c = inr c' ∧ ncli c' = ncli c - 1 ∧ (0 < ncli c' → fl_if c' = false).
Proof.
  intros Hn Hf. unfold popcli. rewrite Hf. cbn. rewrite (proj2 (Z.ltb_ge _ _)) by lia.
  eexists. split; [done|]. destruct (Z.eqb_spec (ncli c - 1) 0); destruct (intena c); cbn; (split; [lia|]); intros; done || lia.
Qed.

Lemma length_filter_ne (l : nat) k :
  NoDup k → l ∈ k → S (length (filter (λ x, x ≠ l) k)) = length k.
Proof.
  induction 1 as [|x k Hx Hk IH]; [by intros ?%elem_of_nil|]. intros [->|Hl]%elem_of_cons.
  - rewrite filter_cons_False by (intros H; by apply H). cbn. by rewrite filter_not_in.
  - rewrite filter_cons_True by (intros ->; done). cbn. f_equal. by apply IH.
Qed.

Lemma cpus_ok_step m m' : locks_ok m → cpus_ok m → step m (inr m') → cpus_ok m'.
Proof.
  intros Hl [Hn Hi] Hst. inversion Hst as [|c l cp Hp E|c l lk Hp E|c l lk Hp E|c l mem rbp Hp
    | |c l lk Hp E| |c l cp Hp E|c Hp| |c n cp Hp Hx E|c b Hp Hz]; subst; clear Hst;
    split; intros c'; cbn; fn_cases; auto.
  - revert E. unfold acquire_enter. destruct (holding _ _); [done|]. intros [= <-].
    rewrite (proj1 (pushcli_ncli _)), Hn, Hp. cbn. lia.
  - revert E. unfold acquire_enter. destruct (holding _ _); [done|]. intros [= <-] _. apply pushcli_ncli.
  - rewrite Hn, Hp. done.
  - rewrite Hn, Hp. cbn. lia.
  - revert E. unfold release_enter. rewrite holding_held by done. case_bool_decide as Hin; [|done].
    intros _. rewrite Hn, Hp. cbn.
    rewrite <- (length_filter_ne l (m_held m c)) by (done || apply (lo_nodup _ Hl)). lia.
  - destruct (popcli_ok (m_cpus m c)) as (c' & E' & Hn' & _); rewrite ?Hi; rewrite ?Hn, ?Hp; cbn; try done; try lia.
    rewrite E in E'. injection E' as ->. rewrite Hn', Hn, Hp. cbn. lia.
  - intros Hpos. destruct (popcli_ok (m_cpus m c)) as (c' & E' & Hn' & Hf); rewrite ?Hi; rewrite ?Hn, ?Hp; cbn; try done; try lia.
    rewrite E in E'. injection E' as ->. auto.
  - rewrite (proj1 (pushcli_ncli _)), Hn. lia.
  - intros _. apply pushcli_ncli.
  - destruct (popcli_ok (m_cpus m c)) as (c' & E' & Hn' & _); rewrite ?Hi; rewrite ?Hn, ?Hx; cbn; try done; try lia.
    rewrite E in E'. injection E' as ->. rewrite Hn', Hn, Hx. lia.
  - intros Hpos. destruct (popcli_ok (m_cpus m c)) as (c' & E' & Hn' & Hf); rewrite ?Hi; rewrite ?Hn, ?Hx; cbn; try done; try lia.
    rewrite E in E'. injection E' as ->. auto.
  - rewrite <- Hz. apply Hn.
  - cbn. lia.
Qed.

Lemma reachable_ok m : reachable m → locks_ok m ∧ cpus_ok m.
Proof.
  induction 1 as [|m m' _ [Hl Hc] Hst].
  - split; split; unfold owns; cbn.
    + intros l. split; [done|]. by intros (c & [?%elem_of_nil|[?|?]]).
    + intros l c c' [?%elem_of_nil|[?|?]]; done.
    + intros l c. split; [done|]. by intros ?%elem_of_nil.
    + intros c. constructor.
    + intros c l [?|?]; done.
    + done.
    + done.
  - split; [by eapply locks_ok_step|by eapply cpus_ok_step].
Qed.

(** ** Properties *)

(** C12: mutual exclusion.  However the processors interleave, at most one of them
    is between the exchange that takes a lock and the store that frees it. *)
Theorem spin_mutual_exclusion m l c c' :
  reachable m → owns m c l → owns m c' l → c = c'.
Proof. intros [Hl _]%reachable_ok. apply (lo_one _ Hl). Qed.

(** Processor 0 takes lock 3. *)
Definition sample_mach : mach :=
  let m := Mach (<[0%nat := Cpu 1 false false]> (m_cpus mach0)) (m_locks mach0)
             (<[0%nat := Spin 3]> (m_pc mach0)) (m_held mach0) (m_extra mach0) in
  let m := Mach (m_cpus m) (<[3%nat := Spinlock 1 None (replicate 10 0)]> (m_locks m))
             (<[0%nat := Got 3]> (m_pc m)) (m_held m) (m_extra m) in
  Mach (m_cpus m) (<[3%nat := acquire_record 0 (λ _, 0) 0 (m_locks m 3%nat)]> (m_locks m))
    (<[0%nat := Run]> (m_pc m)) (<[0%nat := 3%nat :: m_held m 0%nat]> (m_held m)) (m_extra m).

Lemma sample_mach_reachable : reachable sample_mach.
Proof.
  eapply reach_step; [eapply reach_step; [eapply reach_step; [apply reach_boot|]|]|].
  - by apply (step_acquire _ 0 3 (Cpu 1 false false)).
  - by apply (step_got _ 0 3 (Spinlock 1 None (replicate 10 0))).
  - by apply (step_record _ 0 3 (λ _, 0) 0).
Qed.

Lemma spin_mutual_exclusion_witness :
  reachable sample_mach ∧ ∀ c, owns sample_mach c 3 → c = 0%nat.
Proof.
  split; [exact sample_mach_reachable|]. intros c Hc.
  apply (spin_mutual_exclusion sample_mach 3 c 0 sample_mach_reachable Hc). left. left.
Defined.

(** C25: the lock words, owner fields and nesting depths implement the set of held
    locks.  In every reachable state [holding] tests membership; acquire panics
    exactly on a lock that the processor holds, release exactly on one it does
    not; popcli does not panic at the end of release.  The nesting depth counts the
    locks held, the lock operation under way and the calls of pushcli that wait for
    their popcli; and interrupts are off while the processor holds a lock, spins for
    one, is inside acquire or release, or is between pushcli and popcli. *)
Theorem spin_held_refined m c l :
  reachable m →
  holding (m_locks m l) c = bool_decide (l ∈ m_held m c) ∧
  (acquire_enter (m_locks m l) c (m_cpus m c) = inl "acquire" ↔ l ∈ m_held m c) ∧
  (release_enter (m_locks m l) c = inl "release" ↔ l ∉ m_held m c) ∧
  (m_pc m c = Rel l → ∃ c', popcli (m_cpus m c) = inr c') ∧
  ncli (m_cpus m c) = Z.of_nat (length (m_held m c) + m_extra m c + in_op (m_pc m c)) ∧
  (m_held m c ≠ [] ∨ m_pc m c ≠ Run ∨ m_extra m c ≠ 0%nat → fl_if (m_cpus m c) = false).
Proof.
  intros [Hl [Hn Hi]]%reachable_ok. unfold acquire_enter, release_enter.
  rewrite holding_held by done. split; [done|].
  split; [by case_bool_decide|]. split; [by case_bool_decide|]. split; [|split; [apply Hn|]].
  - intros Hp. destruct (popcli_ok (m_cpus m c)) as (c' & E & _); [| |by eexists].
    + rewrite Hn, Hp. cbn. lia.
    + apply Hi. rewrite Hn, Hp. cbn. lia.
  - intros Hbusy. apply Hi. rewrite Hn. destruct Hbusy as [Hh|[Hp|Hx]]; [|destruct (m_pc m c); cbn; [done|lia..]|lia].
    destruct (m_held m c); [done|]. cbn. lia.
Qed.

(** Processor 0 spins for lock 4 while it holds lock 3. *)
Definition sample_spin : mach :=
  Mach (<[0%nat := Cpu 2 false false]> (m_cpus sample_mach)) (m_locks sample_mach)
    (<[0%nat := Spin 4]> (m_pc sample_mach)) (m_held sample_mach) (m_extra sample_mach).

Lemma sample_spin_reachable : reachable sample_spin.
Proof.
  eapply reach_step; [exact sample_mach_reachable|]. by apply (step_acquire _ 0 4 (Cpu 2 false false)).
Qed.

Lemma spin_held_refined_witness :
  reachable sample_spin ∧ holding (m_locks sample_spin 3) 0 = true ∧ holding (m_locks sample_spin 3) 1 = false ∧
  fl_if (m_cpus sample_spin 0%nat) = false.
Proof.
  split; [exact sample_spin_reachable|].
  destruct (spin_held_refined sample_spin 0 3 sample_spin_reachable) as (H0 & _ & _ & _ & _ & Hi).
  destruct (spin_held_refined sample_spin 1 3 sample_spin_reachable) as [H1 _].
  split; [rewrite H0; reflexivity|]. split; [rewrite H1; reflexivity|]. apply Hi. by left.
Defined.

(** Sequences of pushcli ([true]) and popcli ([false]) on one processor. *)
Fixpoint cli_run (ops : list bool) (c : cpu) : string + cpu :=
  match ops with
  | [] => inr c
  | true :: ops => cli_run ops (pushcli c)
  | false :: ops => match popcli c with inl msg => inl msg | inr c => cli_run ops c end
  end.

(** From depth [n], the calls match and end at depth 0. *)
Fixpoint matched (n : nat) (ops : list bool) : bool :=
  match ops, n with
  | [], O => true
  | true :: ops, n => matched (S n) ops
  | false :: ops, S n => matched n ops
  | _, _ => false
  end.

Lemma cli_run_matched ops n c b :
  matched n ops = true → ncli c = Z.of_nat n →
  (if (n =? 0)%nat then fl_if c = b else intena c = b ∧ fl_if c = false) →
  ∃ c', cli_run ops c = inr c' ∧ ncli c' = 0 ∧ fl_if c' = b.
Proof.
  revert n c. induction ops as [|[] ops IH]; intros [|n] c Hm Hn Hf; cbn in Hm; try done.
  - by exists c.
  - apply (IH 1%nat); [done|cbn; rewrite Hn; done|]. cbn. rewrite Hn. done.
  - apply (IH (S (S n))); [done|cbn; rewrite (proj2 (Z.eqb_neq _ 0)) by lia; cbn; lia|].
    destruct Hf as [Hi Hf]. cbn. rewrite (proj2 (Z.eqb_neq _ 0)) by lia. done.
  - destruct Hf as [Hi Hf]. cbn [cli_run]. unfold popcli. rewrite Hf. cbn [ncli intena fl_if].
    rewrite (proj2 (Z.ltb_ge _ _)) by lia. rewrite Hi. apply (IH n); [done|..].
    + destruct (_ && _); cbn; lia.
    + destruct n as [|n]; cbn.
      * rewrite Hn. by destruct b.
      * by rewrite (proj2 (Z.eqb_neq _ 0)) by lia.
Qed.

(** pushcli and popcli are matched: any properly nested sequence of calls runs
    without a panic and leaves the interrupt flag as it was before the first. *)
Theorem cli_restores ops c :
  matched 0 ops = true → ncli c = 0 →
  ∃ c', cli_run ops c = inr c' ∧ ncli c' = 0 ∧ fl_if c' = fl_if c.
Proof. intros Hm Hn. by apply (cli_run_matched ops 0). Qed.

Lemma cli_restores_witness :
  ∃ c', cli_run [true; true; false; true; false; false] (Cpu 0 false true) = inr c' ∧
    ncli c' = 0 ∧ fl_if c' = true.
Proof. apply (cli_restores [true; true; false; true; false; false] (Cpu 0 false true)); reflexivity. Defined.
