(* ===== verification/Core.v ===== *)
(** * Locks, the process table, sleep and wakeup

    The part of the kernel state that every other component shares: the spin
    locks the running processor holds (spinlock.c), the process table
    (proc.h, proc.c), the current process and the devices.  [sleep], [wakeup] and
    the sleep locks of sleeplock.c are built on it. *)

From S2P Require Import Prelude Params Devices.

(** ** Names of locks and sleep channels

    The code names a lock and a channel by an address; distinct objects have
    distinct addresses, so the model names the object. *)
Inductive slid := SL_buf (i : nat) | SL_inode (i : nat).

Inductive lockid :=
| Lk_ptable | Lk_kmem | Lk_bcache | Lk_ide | Lk_log | Lk_icache | Lk_ftable
| Lk_ticks | Lk_cons | Lk_input
| Lk_sleep (s : slid)
| Lk_pipe (p : Z).

Inductive chan :=
| Ch_null
| Ch_sleeplock (s : slid)
| Ch_buf (i : nat)
| Ch_log
| Ch_proc (i : nat)
| Ch_pipe_read (p : Z)
| Ch_pipe_write (p : Z)
| Ch_ticks
| Ch_input.

#[global] Instance slid_eq_dec : EqDecision slid.
Proof. solve_decision. Defined.
#[global] Instance lockid_eq_dec : EqDecision lockid.
Proof. solve_decision. Defined.
#[global] Instance chan_eq_dec : EqDecision chan.
Proof. solve_decision. Defined.

(** ** Processes (proc.h) *)
Inductive procstate := UNUSED | EMBRYO | SLEEPING | RUNNABLE | RUNNING | ZOMBIE.
#[global] Instance procstate_eq_dec : EqDecision procstate.
Proof. solve_decision. Defined.

(** x86.h: the trap frame. *)
Record trapframe := Trapframe {
  rax : Z; rbx : Z; rcx : Z; rdx : Z; rbp : Z; rsi : Z; rdi : Z;
  r8 : Z; r9 : Z; r10 : Z; r11 : Z; r12 : Z; r13 : Z; r14 : Z; r15 : Z;
  trapno : Z; err : Z; rip : Z; cs : Z; rflags : Z; rsp : Z; ss : Z
}.

Record proc := Proc {
  p_sz : Z;
  p_pgdir : Z;
  p_kstack : Z;
  p_state : procstate;
  p_pid : Z;
  p_parent : option nat;
  p_tf : trapframe;
  p_chan : chan;
  p_killed : bool;
  p_ofile : list (option nat);
  p_cwd : option nat;
  p_name : list Z
}.

Definition set_state (st : procstate) (p : proc) : proc :=
  Proc (p_sz p) (p_pgdir p) (p_kstack p) st (p_pid p) (p_parent p) (p_tf p)
    (p_chan p) (p_killed p) (p_ofile p) (p_cwd p) (p_name p).
Definition set_chan (ch : chan) (p : proc) : proc :=
  Proc (p_sz p) (p_pgdir p) (p_kstack p) (p_state p) (p_pid p) (p_parent p) (p_tf p)
    ch (p_killed p) (p_ofile p) (p_cwd p) (p_name p).

Record core := Core {
  c_held : list lockid;    (* spin locks held by this processor, latest first *)
  c_procs : list proc;     (* ptable.proc *)
  c_cur : option nat;      (* proc, an index of the table *)
  c_dev : devices
}.

Definition set_held (h : list lockid) (c : core) : core := Core h (c_procs c) (c_cur c) (c_dev c).
Definition set_procs (ps : list proc) (c : core) : core := Core (c_held c) ps (c_cur c) (c_dev c).
Definition set_dev (d : devices) (c : core) : core := Core (c_held c) (c_procs c) (c_cur c) d.
Definition upd_proc (i : nat) (f : proc → proc) (c : core) : core :=
  set_procs (alter f i (c_procs c)) c.

(** The computations of the kernel: channels are [chan]s. *)
Abbreviation K := (M chan).

(** ** Spin locks, as the processor that runs the code sees them

    [Spinlock] has the lock word, the owner and the interrupt state, and shows
    that the held set below is what they implement. *)
Definition holding (l : lockid) : K core bool :=
  gets (λ c, bool_decide (l ∈ c_held c)).

Definition acquire (l : lockid) : K core unit :=
  h <- holding l;;
  if (h : bool) then panic "acquire" else modify (λ c, set_held (l :: c_held c) c).

Definition release (l : lockid) : K core unit :=
  h <- holding l;;
  if (h : bool) then modify (λ c, set_held (filter (λ x, x ≠ l) (c_held c)) c)
  else panic "release".

(** ** proc.c: sched, sleep, wakeup *)

(** [sched] up to the [swtch]: the process gives the processor away.  Each held
    lock is one level of [cpu->ncli].  The last check, that interrupts are off, is left
    out: it comes after the one that ptable.lock is held, and they are off while a lock is
    held ([Spinlock.spin_held_refined]). *)
Definition sched (ch : chan) : K core unit := λ c,
  if negb (bool_decide (Lk_ptable ∈ c_held c)) then Panic "sched ptable.lock"
  else if negb (length (c_held c) =? 1)%nat then Panic "sched locks"
  else match c_cur c ≫= λ i, c_procs c !! i with
       | Some p => if bool_decide (p_state p = RUNNING) then Panic "sched running"
                   else Sleep ch c
       | None => Panic "sched: no process"
       end.

Definition sleep (ch : chan) (lk : lockid) : K core unit :=
  cur <- gets c_cur;;
  match cur with
  | None => panic "sleep"
  | Some i =>
      (if bool_decide (lk = Lk_ptable) then ret tt
       else acquire Lk_ptable ;;; release lk) ;;;
      modify (upd_proc i (λ p, set_state SLEEPING (set_chan ch p))) ;;;
      sched ch
  end.

(** What [sleep] does when the scheduler has switched back to the process. *)
Definition sleep_return (lk : lockid) : K core unit :=
  cur <- gets c_cur;;
  match cur with
  | None => panic "sleep"
  | Some i =>
      modify (upd_proc i (set_chan Ch_null)) ;;;
      if bool_decide (lk = Lk_ptable) then ret tt
      else release Lk_ptable ;;; acquire lk
  end.

Definition wakeup1_proc (ch : chan) (p : proc) : proc :=
  if bool_decide (p_state p = SLEEPING) && bool_decide (p_chan p = ch)
  then set_state RUNNABLE p else p.

Definition wakeup1 (ch : chan) : K core unit :=
  modify (λ c, set_procs (wakeup1_proc ch <$> c_procs c) c).

Definition wakeup (ch : chan) : K core unit :=
  acquire Lk_ptable ;;; wakeup1 ch ;;; release Lk_ptable.

(** ** Sleep locks (sleeplock.c) *)
Record sleeplock := Sleeplock { sl_locked : bool; sl_pid : Z }.

Definition initsleeplock : sleeplock := Sleeplock false 0.

Definition on_core {T A} (m : K core A) : K (T * core) A :=
  zoom snd (λ c s, (fst s, c)) m.

Definition cur_pid (c : core) : Z :=
  match c_cur c ≫= λ i, c_procs c !! i with Some p => p_pid p | None => 0 end.

(** From the [while] on; a process woken from the sleep comes back here. *)
Definition acquiresleep_loop (id : slid) : K (sleeplock * core) unit :=
  l <- gets fst;;
  if sl_locked l then on_core (sleep (Ch_sleeplock id) (Lk_sleep id))
  else
    modify (λ s, (Sleeplock true (cur_pid (snd s)), snd s)) ;;;
    on_core (release (Lk_sleep id)).

Definition acquiresleep (id : slid) : K (sleeplock * core) unit :=
  on_core (acquire (Lk_sleep id)) ;;; acquiresleep_loop id.

Definition releasesleep (id : slid) : K (sleeplock * core) unit :=
  on_core (acquire (Lk_sleep id)) ;;;
  modify (λ s, (Sleeplock false 0, snd s)) ;;;
  on_core (wakeup (Ch_sleeplock id)) ;;;
  on_core (release (Lk_sleep id)).

Definition holdingsleep (id : slid) : K (sleeplock * core) bool :=
  on_core (acquire (Lk_sleep id)) ;;;
  r <- gets (λ s, sl_locked (fst s));;
  on_core (release (Lk_sleep id)) ;;;
  ret r.

(** ** Lemmas on locks *)
Create HintDb kernel discriminated.

Lemma acquire_ok l c :
  l ∉ c_held c → acquire l c = Done tt (set_held (l :: c_held c) c).
Proof.
  intros H. unfold acquire, bind, holding, gets.
  by rewrite bool_decide_eq_false_2.
Qed.

Lemma acquire_held l c : l ∈ c_held c → acquire l c = Panic "acquire".
Proof.
  intros H. unfold acquire, bind, holding, gets. by rewrite bool_decide_eq_true_2.
Qed.

Lemma release_head l H c :
  c_held c = l :: H → l ∉ H → release l c = Done tt (set_held H c).
Proof.
  intros Hc Hl. unfold release, bind, holding, gets. rewrite Hc.
  rewrite bool_decide_eq_true_2 by apply list_elem_of_here.
  unfold modify. rewrite Hc, filter_cons_False by tauto. by rewrite filter_not_in.
Qed.

Lemma release_not_held l c : l ∉ c_held c → release l c = Panic "release".
Proof.
  intros H. unfold release, bind, holding, gets. by rewrite bool_decide_eq_false_2.
Qed.

Definition woken (ch : chan) (c : core) : core :=
  set_procs (wakeup1_proc ch <$> c_procs c) c.

Lemma wakeup_ok ch c :
  Lk_ptable ∉ c_held c → wakeup ch c = Done tt (woken ch c).
Proof.
  intros H. unfold wakeup, bind. rewrite acquire_ok by done. unfold wakeup1, modify.
  rewrite (release_head _ (c_held c)) by done. destruct c; done.
Qed.

(** A state in which the current process exists and holds no spin lock. *)
Definition quiet (c : core) : Prop :=
  c_held c = [] ∧ is_Some (c_cur c ≫= λ i, c_procs c !! i).

Lemma quiet_woken ch c : quiet c → quiet (woken ch c).
Proof.
  intros [H [p Hp]]. split; [done|]. simpl.
  destruct (c_cur c) as [i|]; [|done]. simpl in *.
  rewrite list_lookup_fmap, Hp. eauto.
Qed.
#[export] Hint Resolve quiet_woken : kernel.

Lemma quiet_held c l : quiet c → l ∉ c_held c.
Proof. intros [-> _]. apply not_elem_of_nil. Qed.
#[export] Hint Resolve quiet_held : kernel.

Lemma set_held_twice h1 h2 c : set_held h1 (set_held h2 c) = set_held h1 c.
Proof. done. Qed.
Lemma set_held_id c : set_held (c_held c) c = c.
Proof. by destruct c. Qed.

Lemma acquiresleep_ok id l c :
  sl_locked l = false → quiet c →
  acquiresleep id (l, c) = Done tt (Sleeplock true (cur_pid c), c).
Proof.
  intros Hl Hq. unfold acquiresleep, on_core, bind, zoom; simpl.
  rewrite acquire_ok by auto with kernel. unfold acquiresleep_loop, bind, gets; simpl.
  rewrite Hl. simpl. unfold on_core, zoom; simpl. destruct Hq as [Hh _].
  rewrite (release_head _ []) by (simpl; rewrite ?Hh; done || apply not_elem_of_nil).
  by destruct c; simpl in *; subst.
Qed.

Lemma releasesleep_ok id l c :
  quiet c →
  releasesleep id (l, c) = Done tt (Sleeplock false 0, woken (Ch_sleeplock id) c).
Proof.
  intros Hq. unfold releasesleep, on_core, bind, zoom; simpl.
  rewrite acquire_ok by auto with kernel. simpl. destruct Hq as [Hh _].
  rewrite wakeup_ok.
  2: { simpl. rewrite Hh. apply not_elem_of_cons. split; [done|apply not_elem_of_nil]. }
  rewrite (release_head _ []) by (simpl; rewrite ?Hh; done || apply not_elem_of_nil).
  by destruct c; simpl in *; subst.
Qed.

Lemma holdingsleep_ok id l c :
  quiet c → holdingsleep id (l, c) = Done (sl_locked l) (l, c).
Proof.
  intros Hq. unfold holdingsleep, on_core, bind, zoom, gets; simpl.
  rewrite acquire_ok by auto with kernel. simpl. destruct Hq as [Hh _].
  rewrite (release_head _ []) by (simpl; rewrite ?Hh; done || apply not_elem_of_nil).
  by destruct c; simpl in *; subst.
Qed.

(** Going to sleep releases the condition lock and keeps only ptable.lock. *)
Lemma sleep_ok ch lk c i p :
  c_held c = [lk] → lk ≠ Lk_ptable → c_cur c = Some i → c_procs c !! i = Some p →
  sleep ch lk c = Sleep ch (upd_proc i (λ p, set_state SLEEPING (set_chan ch p))
                              (set_held [Lk_ptable] c)).
Proof.
  intros Hh Hlk Hc Hp. unfold sleep, bind at 1, gets. rewrite Hc.
  rewrite bool_decide_eq_false_2 by done. rewrite bind_assoc.
  erewrite bind_done by (apply acquire_ok; rewrite Hh; set_solver).
  erewrite bind_done.
  2: { unfold release, bind, holding, gets. cbn [c_held set_held]. rewrite Hh.
       rewrite bool_decide_eq_true_2 by set_solver. unfold modify. cbn [c_held set_held].
       rewrite filter_cons_True by done. rewrite filter_cons_False by tauto. done. }
  unfold bind, modify, sched, upd_proc. cbn [c_held c_procs c_cur set_held set_procs].
  rewrite bool_decide_eq_true_2 by set_solver. rewrite Hc. cbn [length Nat.eqb negb option_bind mbind].
  rewrite list_lookup_alter_eq, Hp. done.
Qed.

(** ** A concrete machine: one process, which runs *)
Definition sample_core : core :=
  Core [] [Proc 0 0 0 RUNNING 1 None (Trapframe 0 0 0 0 0 0 0 0 0 0 0 0 0 0 0 0 0 0 0 0 0 0)
             Ch_null false [] None []] (Some 0%nat) devices0.

Lemma sample_quiet : quiet sample_core.
Proof. split; [done|]. by eexists. Qed.
