(* ===== verification/Pipe.v ===== *)
(** * pipe.c: reading and writing a pipe

    The operations work on one pipe and the locks and processes of [Core]; the
    pipe is named by its address.  [pipealloc] needs the file table and is in
    [File].  A call that sleeps ends with [Sleep]; woken up, the process takes the
    lock again ([Core.sleep_return]) and goes on in the loop with the same index. *)

From S2P Require Import Prelude Params Core.

Definition PIPESIZE : Z := 512.

Record pipe := Pipe {
  pi_data : list Z;
  nread : Z;
  nwrite : Z;
  readopen : bool;
  writeopen : bool
}.

Abbreviation pst := (pipe * core)%type.

Definition pipe0 : pipe := Pipe (replicate 512 0) 0 0 true true.

Definition cur_killed (c : core) : bool :=
  match c_cur c ≫= λ i, c_procs c !! i with Some p => p_killed p | None => false end.

Definition set_nread (v : Z) (p : pipe) : pipe := Pipe (pi_data p) v (nwrite p) (readopen p) (writeopen p).
Definition push_byte (b : Z) (p : pipe) : pipe :=
  Pipe (<[Z.to_nat (nwrite p mod PIPESIZE) := b]> (pi_data p)) (nread p) (u32 (nwrite p + 1))
    (readopen p) (writeopen p).
Definition upd_pipe (f : pipe → pipe) : K pst unit := modify (λ s, (f (fst s), snd s)).

Section ops.
Variable p : Z.     (* the address of the pipe *)

(** The outcome says whether the pipe has no end open any more: then the caller
    frees it. *)
Definition pipeclose_pipe (writable : bool) : K pst bool :=
  on_core (acquire (Lk_pipe p)) ;;;
  (if writable then
     upd_pipe (λ q, Pipe (pi_data q) (nread q) (nwrite q) (readopen q) false) ;;;
     on_core (wakeup (Ch_pipe_read p))
   else
     upd_pipe (λ q, Pipe (pi_data q) (nread q) (nwrite q) false (writeopen q)) ;;;
     on_core (wakeup (Ch_pipe_write p))) ;;;
  q <- gets fst;;
  on_core (release (Lk_pipe p)) ;;;
  ret (negb (readopen q) && negb (writeopen q)).

(** The loop from index [i] on, with [k] bytes to go. *)
Fixpoint pipewrite_loop (k : nat) (addr : list Z) (n i : Z) : K pst Z :=
  match k with
  | O =>
      on_core (wakeup (Ch_pipe_read p)) ;;;
      on_core (release (Lk_pipe p)) ;;;
      ret n
  | S k =>
      q <- gets fst;;
      if nwrite q =? u32 (nread q + PIPESIZE) then
        killed <- gets (λ s, cur_killed (snd s));;
        if negb (readopen q) || killed then
          on_core (release (Lk_pipe p)) ;;; ret (-1)
        else
          on_core (wakeup (Ch_pipe_read p)) ;;;
          on_core (sleep (Ch_pipe_write p) (Lk_pipe p)) ;;;
          panic "sleep returned"
      else
        upd_pipe (push_byte (addr !!! Z.to_nat i)) ;;;
        pipewrite_loop k addr n (i + 1)
  end.

Definition pipewrite (addr : list Z) (n : Z) : K pst Z :=
  on_core (acquire (Lk_pipe p)) ;;;
  pipewrite_loop (Z.to_nat n) addr n 0.

(** The copying loop of piperead: the bytes read so far are [out]. *)
Fixpoint piperead_copy (k : nat) (out : list Z) : K pst (list Z) :=
  match k with
  | O => ret out
  | S k =>
      q <- gets fst;;
      if nread q =? nwrite q then ret out else
      let b := pi_data q !!! Z.to_nat (nread q mod PIPESIZE) in
      upd_pipe (set_nread (u32 (nread q + 1))) ;;;
      piperead_copy k (out ++ [b])
  end.

(** The number of bytes, and the bytes stored at [addr]. *)
Definition piperead_loop (n : Z) : K pst (Z * list Z) :=
  q <- gets fst;;
  if (nread q =? nwrite q) && writeopen q then
    killed <- gets (λ s, cur_killed (snd s));;
    if (killed : bool) then on_core (release (Lk_pipe p)) ;;; ret (-1, [])
    else on_core (sleep (Ch_pipe_read p) (Lk_pipe p)) ;;; panic "sleep returned"
  else
    out <- piperead_copy (Z.to_nat n) [];;
    on_core (wakeup (Ch_pipe_write p)) ;;;
    on_core (release (Lk_pipe p)) ;;;
    ret (Z.of_nat (length out), out).

Definition piperead (n : Z) : K pst (Z * list Z) :=
  on_core (acquire (Lk_pipe p)) ;;; piperead_loop n.

(** ** The queue in the pipe *)
Record pipe_rep (pi : pipe) (q : list Z) : Prop := {
  pr_len : length (pi_data pi) = 512%nat;
  pr_size : (length q ≤ 512)%nat;
  pr_nread : 0 ≤ nread pi < 2 ^ 32;
  pr_nwrite : nwrite pi = u32 (nread pi + Z.of_nat (length q));
  pr_data : ∀ k b, q !! k = Some b →
    pi_data pi !! Z.to_nat ((nread pi + Z.of_nat k) mod PIPESIZE) = Some b
}.

Lemma pipe_rep_empty : pipe_rep pipe0 [].
Proof. split; try done. cbn. lia. Qed.

Lemma u32_mod_pipe z : u32 z mod PIPESIZE = z mod PIPESIZE.
Proof.
  unfold u32, PIPESIZE.
  replace z with (z mod 2 ^ 32 + (z / 2 ^ 32 * 8388608) * 512) at 2
    by (Z.to_euclidean_division_equations; lia).
  by rewrite Z.mod_add.
Qed.

Lemma pipe_full pi q : pipe_rep pi q → (nwrite pi =? u32 (nread pi + PIPESIZE)) = bool_decide (length q = 512%nat).
Proof.
  intros [Hl Hs Hr Hw _]. rewrite Hw. unfold u32, PIPESIZE. case_bool_decide as H.
  - rewrite H. apply Z.eqb_refl.
  - apply Z.eqb_neq. Z.to_euclidean_division_equations; lia.
Qed.

Lemma pipe_empty pi q : pipe_rep pi q → (nread pi =? nwrite pi) = bool_decide (q = []).
Proof.
  intros [Hl Hs Hr Hw _]. rewrite Hw. unfold u32. case_bool_decide as H.
  - subst. cbn. rewrite Z.add_0_r, Z.mod_small by lia. apply Z.eqb_refl.
  - apply Z.eqb_neq. destruct q; [done|]. cbn [length] in *. Z.to_euclidean_division_equations; lia.
Qed.

Lemma pipe_push pi q b : pipe_rep pi q → (length q < 512)%nat → pipe_rep (push_byte b pi) (q ++ [b]).
Proof.
  intros [Hl Hs Hr Hw Hd] Hlt. split; cbn [push_byte pi_data nread nwrite].
  - by rewrite length_insert.
  - rewrite length_app. cbn. lia.
  - done.
  - rewrite Hw, length_app. cbn. unfold u32. rewrite Zplus_mod_idemp_l. f_equal. lia.
  - intros k x Hk. rewrite Hw, u32_mod_pipe. apply lookup_app_Some in Hk as [Hk|[Hge Hk]].
    + pose proof (lookup_lt_Some _ _ _ Hk). rewrite list_lookup_insert_ne; [by apply Hd|].
      unfold PIPESIZE. Z.to_euclidean_division_equations; lia.
    + apply list_lookup_singleton_Some in Hk as [Hk <-].
      replace k with (length q) by lia. apply list_lookup_insert_eq.
      rewrite Hl. unfold PIPESIZE. Z.to_euclidean_division_equations; lia.
Qed.

Lemma pipe_pop pi q b :
  pipe_rep pi (b :: q) →
  pi_data pi !!! Z.to_nat (nread pi mod PIPESIZE) = b ∧ pipe_rep (set_nread (u32 (nread pi + 1)) pi) q.
Proof.
  intros [Hl Hs Hr Hw Hd]. cbn [length] in *. split.
  - specialize (Hd 0%nat b eq_refl). rewrite Z.add_0_r in Hd. by apply list_lookup_total_correct.
  - split; cbn [set_nread pi_data nread nwrite]; [done|lia|unfold u32; apply Z.mod_pos_bound; lia|..].
    + rewrite Hw. unfold u32. rewrite Zplus_mod_idemp_l. f_equal. lia.
    + intros k x Hk. specialize (Hd (S k) x Hk). rewrite <- Hd. f_equal. f_equal.
      rewrite <- (u32_mod_pipe (u32 _ + _)), <- (u32_mod_pipe (nread pi + _)). unfold u32.
      rewrite Zplus_mod_idemp_l. f_equal. f_equal. lia.
Qed.

(** ** The operations on the queue *)
Lemma pipe_acquire (pi : pipe) c : quiet c → on_core (acquire (Lk_pipe p)) (pi, c) = Done tt (pi, set_held [Lk_pipe p] c).
Proof.
  intros Hq. unfold on_core, zoom. cbn [fst snd]. rewrite acquire_ok by auto with kernel.
  destruct Hq as [-> _]. done.
Qed.

Lemma pipe_release (pi : pipe) c :
  c_held c = [Lk_pipe p] → on_core (release (Lk_pipe p)) (pi, c) = Done tt (pi, set_held [] c).
Proof.
  intros Hh. unfold on_core, zoom. cbn [fst snd].
  by rewrite (release_head _ []) by (done || apply not_elem_of_nil).
Qed.

Lemma pipe_wakeup (pi : pipe) c ch :
  c_held c = [Lk_pipe p] → on_core (wakeup ch) (pi, c) = Done tt (pi, woken ch c).
Proof.
  intros Hh. unfold on_core, zoom. cbn [fst snd]. rewrite wakeup_ok; [done|]. rewrite Hh. set_solver.
Qed.

(** The processor after the current process has gone to sleep on [ch]. *)
Definition asleep (ch : chan) (c : core) : core :=
  match c_cur c with
  | Some i => upd_proc i (λ x, set_state SLEEPING (set_chan ch x)) (set_held [Lk_ptable] c)
  | None => c
  end.

Lemma pipe_sleep (pi : pipe) c ch (A : Type) (k : unit → K pst A) :
  c_held c = [Lk_pipe p] → is_Some (c_cur c ≫= λ i, c_procs c !! i) →
  (x <- on_core (sleep ch (Lk_pipe p));; k x) (pi, c) = Sleep ch (pi, asleep ch c).
Proof.
  intros Hh [x Hx]. unfold bind, on_core, zoom. cbn [fst snd]. unfold asleep.
  destruct (c_cur c) as [i|] eqn:Ei; [|done]. cbn in Hx. by rewrite (sleep_ok _ _ _ i x).
Qed.

Lemma cur_woken ch c : is_Some (c_cur c ≫= λ i, c_procs c !! i) → is_Some (c_cur (woken ch c) ≫= λ i, c_procs (woken ch c) !! i).
Proof.
  intros [x Hx]. cbn. destruct (c_cur c) as [i|]; [|done]. cbn in *. rewrite list_lookup_fmap, Hx. by eexists.
Qed.

(** What pipewrite leaves to write after a queue of length [n] is filled up. *)
Definition fits (q : list Z) (bs : list Z) : list Z := take (512 - length q) bs.

Definition same_ends (pi pi' : pipe) : Prop := readopen pi' = readopen pi ∧ writeopen pi' = writeopen pi.

Definition write_result (n : Z) (pi : pipe) (q bs : list Z) (c : core) (pi' : pipe) : outcome chan pst Z :=
  if (length bs <=? 512 - length q)%nat then Done n (pi', set_held [] (woken (Ch_pipe_read p) c))
  else if negb (readopen pi) || cur_killed c then Done (-1) (pi', set_held [] c)
  else Sleep (Ch_pipe_write p) (pi', asleep (Ch_pipe_write p) (woken (Ch_pipe_read p) c)).

Lemma pipewrite_loop_spec k addr n i pi q c :
  pipe_rep pi q → c_held c = [Lk_pipe p] → is_Some (c_cur c ≫= λ i, c_procs c !! i) →
  0 ≤ i → (Z.to_nat i + k ≤ length addr)%nat →
  let bs := slice (Z.to_nat i) k addr in
  ∃ pi', pipe_rep pi' (q ++ fits q bs) ∧ same_ends pi pi' ∧ nread pi' = nread pi ∧
    pipewrite_loop k addr n i (pi, c) = write_result n pi q bs c pi'.
Proof.
  intros Hr Hh Hcur. revert i pi q Hr. induction k as [|k IH]; intros i pi q Hr Hi Hlen bs.
  - exists pi. unfold bs, slice, fits. rewrite take_0, take_nil, app_nil_r. repeat (split; [done|]).
    cbn [pipewrite_loop]. rewrite (bind_done _ _ _ _ _ (pipe_wakeup pi c _ Hh)).
    rewrite (bind_done _ _ _ _ _ (pipe_release pi (woken _ c) Hh)). done.
  - assert (Hbs : bs = addr !!! Z.to_nat i :: slice (Z.to_nat (i + 1)) k addr).
    { unfold bs, slice. rewrite (drop_S addr (addr !!! Z.to_nat i) (Z.to_nat i)) by (apply list_lookup_lookup_total_lt; lia).
      cbn. f_equal. f_equal. f_equal. lia. }
    assert (Hl : length bs = S k) by (unfold bs; by rewrite length_slice).
    cbn [pipewrite_loop]. unfold bind at 1, gets. cbn [fst snd]. rewrite (pipe_full pi q Hr).
    case_bool_decide as Hfull.
    + exists pi. unfold fits, write_result. rewrite Hfull, Hl. cbn [Nat.sub take Nat.leb]. rewrite app_nil_r.
      repeat (split; [done|]). unfold bind at 1, gets. cbn [snd].
      destruct (negb (readopen pi) || cur_killed c).
      * by rewrite (bind_done _ _ _ _ _ (pipe_release pi c Hh)).
      * rewrite (bind_done _ _ _ _ _ (pipe_wakeup pi c _ Hh)). apply pipe_sleep; [done|by apply cur_woken].
    + pose proof (pr_size _ _ Hr). unfold bind at 1, upd_pipe, modify. cbn [fst snd].
      destruct (IH (i + 1) (push_byte (addr !!! Z.to_nat i) pi) (q ++ [addr !!! Z.to_nat i]))
        as (pi' & Hr' & [He1 He2] & Hnr & E).
      * apply pipe_push; [done|lia].
      * lia.
      * lia.
      * exists pi'. assert (Hf : (q ++ [addr !!! Z.to_nat i]) ++ fits (q ++ [addr !!! Z.to_nat i]) (slice (Z.to_nat (i + 1)) k addr) = q ++ fits q bs).
        { rewrite Hbs. unfold fits. rewrite length_app, <- app_assoc. cbn [length app].
          replace (512 - length q)%nat with (S (512 - (length q + 1)))%nat by lia. done. }
        rewrite Hf in Hr'. split; [done|]. split; [done|]. split; [done|]. rewrite E. unfold write_result.
        rewrite Hbs, length_app. cbn [length]. rewrite length_slice by lia.
        replace (S k <=? 512 - length q)%nat with (k <=? 512 - (length q + 1))%nat; [done|].
        apply eq_true_iff_eq. rewrite !Nat.leb_le. lia.
Qed.

Lemma pipewrite_spec addr n pi q c :
  pipe_rep pi q → quiet c → n = Z.of_nat (length addr) →
  ∃ pi', pipe_rep pi' (q ++ fits q addr) ∧ same_ends pi pi' ∧ nread pi' = nread pi ∧
    pipewrite addr n (pi, c) = write_result n pi q addr (set_held [Lk_pipe p] c) pi'.
Proof.
  intros Hr Hq ->. unfold pipewrite. rewrite (bind_done _ _ _ _ _ (pipe_acquire pi c Hq)).
  destruct (pipewrite_loop_spec (length addr) addr (Z.of_nat (length addr)) 0 pi q (set_held [Lk_pipe p] c))
    as (pi' & Hr' & He & E); [done|done|apply Hq|lia|cbn; lia|].
  assert (Hs : slice (Z.to_nat 0) (length addr) addr = addr).
  { unfold slice. cbn [Z.to_nat]. rewrite drop_0. by apply take_ge. }
  rewrite Hs in *. exists pi'. rewrite Nat2Z.id. done.
Qed.

Lemma piperead_copy_spec k pi q c out :
  pipe_rep pi q →
  ∃ pi', pipe_rep pi' (drop k q) ∧ same_ends pi pi' ∧
    piperead_copy k out (pi, c) = Done (out ++ take k q) (pi', c).
Proof.
  revert pi q out. induction k as [|k IH]; intros pi q out Hr.
  - exists pi. rewrite take_0, app_nil_r, drop_0. done.
  - cbn [piperead_copy]. unfold bind at 1, gets. cbn [fst]. rewrite (pipe_empty pi q Hr).
    case_bool_decide as He.
    + subst q. exists pi. rewrite drop_nil, take_nil, app_nil_r. done.
    + destruct q as [|b q]; [done|]. destruct (pipe_pop pi q b Hr) as [-> Hr1].
      unfold bind, upd_pipe, modify. cbn [fst snd].
      destruct (IH _ q (out ++ [b]) Hr1) as (pi' & Hr' & [? ?] & E). exists pi'.
      split; [done|]. split; [done|]. rewrite E, <- app_assoc. done.
Qed.

Lemma piperead_spec n pi q c :
  pipe_rep pi q → quiet c → 0 ≤ n →
  (q = [] → writeopen pi = true →
   piperead n (pi, c) = if cur_killed c then Done (-1, []) (pi, set_held [] c)
     else Sleep (Ch_pipe_read p) (pi, asleep (Ch_pipe_read p) (set_held [Lk_pipe p] c))) ∧
  (q ≠ [] ∨ writeopen pi = false →
   ∃ pi', pipe_rep pi' (drop (Z.to_nat n) q) ∧ same_ends pi pi' ∧
     piperead n (pi, c) = Done (Z.of_nat (length (take (Z.to_nat n) q)), take (Z.to_nat n) q)
                            (pi', woken (Ch_pipe_write p) c)).
Proof.
  intros Hr Hq Hn. pose proof Hq as [Hh Hcur]. unfold piperead. rewrite (bind_done _ _ _ _ _ (pipe_acquire pi c Hq)).
  split.
  - intros -> Hw. unfold piperead_loop, bind at 1, gets. cbn [fst]. rewrite (pipe_empty pi [] Hr).
    rewrite bool_decide_eq_true_2, Hw by done. cbn [andb].
    unfold bind at 1, gets. cbn [snd]. change (cur_killed (set_held [Lk_pipe p] c)) with (cur_killed c).
    destruct (cur_killed c); [|by apply pipe_sleep].
    by rewrite (bind_done _ _ _ _ _ (pipe_release pi (set_held [Lk_pipe p] c) eq_refl)).
  - intros Hne. assert (Hg : bool_decide (q = []) && writeopen pi = false).
    { case_bool_decide; [|done]. destruct Hne as [?| ->]; done. }
    destruct (piperead_copy_spec (Z.to_nat n) pi q (set_held [Lk_pipe p] c) [] Hr) as (pi' & Hr' & He & E).
    exists pi'. split; [done|]. split; [done|].
    unfold piperead_loop, bind at 1, gets. cbn [fst]. rewrite (pipe_empty pi q Hr), Hg.
    rewrite (bind_done _ _ _ _ _ E).
    rewrite (bind_done _ _ _ _ _ (pipe_wakeup pi' (set_held [Lk_pipe p] c) _ eq_refl)).
    rewrite (bind_done _ _ _ _ _ (pipe_release pi' (woken _ (set_held [Lk_pipe p] c)) eq_refl)).
    unfold ret. cbn [app]. f_equal. f_equal. unfold woken, set_procs, set_held. cbn. by rewrite Hh.
Qed.
End ops.

(** ** Traces *)

(** The pieces of calls on one pipe, in the order in which their critical sections
    run: a write of [bs], which may end with some bytes left (the writer sleeps and
    goes on later with the rest, or gives up), and a read of at most [n] bytes.
    The processor a piece runs on is arbitrary. *)
Inductive pipe_op := PWrite (bs : list Z) | PRead (n : Z).

Definition after {A} (o : outcome chan pst A) : option pipe :=
  match o with Done _ s | Sleep _ s => Some (fst s) | Panic _ => None end.

Definition bytes_stored (pi pi' : pipe) : nat := Z.to_nat (u32 (nwrite pi' - nwrite pi)).

(** [pipe_trace p pi ops pi' w r]: the bytes [w] went in, [r] came out. *)
Inductive pipe_trace (p : Z) : pipe → list pipe_op → pipe → list Z → list Z → Prop :=
| trace_nil pi : pipe_trace p pi [] pi [] []
| trace_write pi pi1 pi2 c bs ops w r :
    quiet c →
    after (pipewrite p bs (Z.of_nat (length bs)) (pi, c)) = Some pi1 →
    pipe_trace p pi1 ops pi2 w r →
    pipe_trace p pi (PWrite bs :: ops) pi2 (take (bytes_stored pi pi1) bs ++ w) r
| trace_read pi pi1 pi2 c n k out s ops w r :
    quiet c → 0 ≤ n →
    piperead p n (pi, c) = Done (k, out) s → pi1 = fst s →
    pipe_trace p pi1 ops pi2 w r →
    pipe_trace p pi (PRead n :: ops) pi2 w (out ++ r)
| trace_read_sleep pi pi1 pi2 c n ch s ops w r :
    quiet c → 0 ≤ n →
    piperead p n (pi, c) = Sleep ch s → pi1 = fst s →
    pipe_trace p pi1 ops pi2 w r →
    pipe_trace p pi (PRead n :: ops) pi2 w r.

Lemma bytes_stored_rep pi pi1 q bs :
  pipe_rep pi q → pipe_rep pi1 (q ++ fits q bs) → nread pi1 = nread pi → take (bytes_stored pi pi1) bs = fits q bs.
Proof.
  intros [_ Hs Hr Hw _] [_ Hs1 _ Hw1 _] En. unfold bytes_stored. rewrite Hw, Hw1, En, length_app.
  unfold u32. rewrite <- Zminus_mod.
  replace (nread pi + Z.of_nat (length q + length (fits q bs)) - (nread pi + Z.of_nat (length q)))
    with (Z.of_nat (length (fits q bs))) by lia.
  rewrite length_app in Hs1. rewrite Z.mod_small by lia. rewrite Nat2Z.id.
  unfold fits. rewrite length_take. destruct (decide (512 - length q ≤ length bs)%nat) as [H|H].
  - by rewrite Nat.min_l by lia.
  - rewrite Nat.min_r by lia. rewrite !take_ge by lia. done.
Qed.

(** ** Properties *)

(** C18: a pipe is a FIFO queue.  For any interleaving of writes and reads on a new
    pipe, the bytes read so far followed by the bytes still in the pipe are
    exactly the bytes that the writes have stored, in order; the pipe never holds
    more than PIPESIZE bytes, also when the 32-bit counters wrap around. *)
Theorem pipe_fifo p ops pi w r :
  pipe_trace p pipe0 ops pi w r → ∃ q, pipe_rep pi q ∧ w = r ++ q ∧ (length q ≤ 512)%nat.
Proof.
  assert (Hgen : ∀ pi0 q0, pipe_rep pi0 q0 → pipe_trace p pi0 ops pi w r →
    ∃ q, pipe_rep pi q ∧ q0 ++ w = r ++ q).
  { intros pi0 q0 Hr Ht. revert q0 Hr. induction Ht as [pi|pi pi1 pi2 c bs ops w r Hq Ha Ht IH
      |pi pi1 pi2 c n k out s ops w r Hq Hn E -> Ht IH|pi pi1 pi2 c n ch s ops w r Hq Hn E -> Ht IH]; intros q0 Hr.
    - exists q0. by rewrite app_nil_r.
    - destruct (pipewrite_spec p bs _ pi q0 c Hr Hq eq_refl) as (pi' & Hr' & _ & Hnr & E).
      rewrite E in Ha. assert (pi1 = pi') as ->.
      { revert Ha. unfold write_result. destruct (_ <=? _)%nat; [by intros [= <-]|]. destruct (_ || _); by intros [= <-]. }
      destruct (IH _ Hr') as (q & Hrq & Hw). exists q. split; [done|].
      by rewrite (bytes_stored_rep pi pi' q0), app_assoc.
    - destruct (piperead_spec p n pi q0 c Hr Hq Hn) as [H1 H2].
      destruct (decide (q0 = [] ∧ writeopen pi = true)) as [[-> Hw]|Hne].
      + rewrite H1 in E by done. destruct (cur_killed c); [|done]. injection E as <- <- <-. by apply IH.
      + destruct H2 as (pi' & Hr' & _ & E'); [destruct q0, (writeopen pi); naive_solver|].
        rewrite E' in E. injection E as <- <- <-. destruct (IH _ Hr') as (q & Hrq & Hw). exists q.
        split; [done|]. rewrite <- app_assoc, <- Hw, app_assoc. by rewrite take_drop.
    - destruct (piperead_spec p n pi q0 c Hr Hq Hn) as [H1 H2].
      destruct (decide (q0 = [] ∧ writeopen pi = true)) as [[-> Hw]|Hne].
      + rewrite H1 in E by done. destruct (cur_killed c); [done|]. injection E as <- <-. by apply IH.
      + destruct H2 as (pi' & Hr' & _ & E'); [destruct q0, (writeopen pi); naive_solver|]. by rewrite E' in E. }
  intros Ht. destruct (Hgen pipe0 [] pipe_rep_empty Ht) as (q & Hr & Hw). exists q. split; [done|].
  split; [done|]. apply Hr.
Qed.

Lemma pipe_fifo_witness :
  ∃ pi, pipe_trace 8192 pipe0 [PWrite [1; 2; 3]; PRead 2] pi [1; 2; 3] [1; 2] ∧
    ∃ q, pipe_rep pi q ∧ [1; 2; 3] = [1; 2] ++ q.
Proof.
  assert (Ht : ∃ pi, pipe_trace 8192 pipe0 [PWrite [1; 2; 3]; PRead 2] pi [1; 2; 3] [1; 2]).
  { eexists. apply (trace_write 8192 pipe0 (push_byte 3 (push_byte 2 (push_byte 1 pipe0))) _ sample_core
      [1; 2; 3] [PRead 2] [] [1; 2] sample_quiet); [reflexivity|].
    eapply (trace_read 8192 _ _ _ sample_core 2 2 [1; 2] _ [] [] [] sample_quiet);
      [lia|reflexivity|reflexivity|constructor]. }
  destruct Ht as [pi Ht]. exists pi. split; [exact Ht|].
  destruct (pipe_fifo _ _ _ _ _ Ht) as (q & Hr & Hq & _). exists q. split; [exact Hr|exact Hq].
Defined.

(** a reader waits only for data.  On an empty pipe whose write end is open,
    piperead sleeps, unless the process has been killed, which gives -1; on any
    other pipe it returns at once with the oldest bytes, as many as asked for and
    available, so that an empty pipe with a closed write end gives 0. *)
Theorem piperead_waits p n pi q c :
  pipe_rep pi q → quiet c → 0 ≤ n →
  (q = [] → writeopen pi = true →
   piperead p n (pi, c) = if cur_killed c then Done (-1, []) (pi, c)
     else Sleep (Ch_pipe_read p) (pi, asleep (Ch_pipe_read p) (set_held [Lk_pipe p] c))) ∧
  (q ≠ [] ∨ writeopen pi = false →
   ∃ pi', pipe_rep pi' (drop (Z.to_nat n) q) ∧
     piperead p n (pi, c) = Done (Z.of_nat (length (take (Z.to_nat n) q)), take (Z.to_nat n) q)
                              (pi', woken (Ch_pipe_write p) c)).
Proof.
  intros Hr Hq Hn. destruct (piperead_spec p n pi q c Hr Hq Hn) as [H1 H2]. split.
  - intros Hqe Hw. rewrite (H1 Hqe Hw). destruct (cur_killed c); [|done].
    destruct Hq as [Hh _]. by rewrite <- Hh, set_held_id.
  - intros H. destruct (H2 H) as (pi' & Hr' & _ & E). by exists pi'.
Qed.

Lemma piperead_waits_witness :
  ∃ s, piperead 8192 5 (pipe0, sample_core) = Sleep (Ch_pipe_read 8192) s.
Proof.
  destruct (piperead_waits 8192 5 pipe0 [] sample_core pipe_rep_empty sample_quiet) as [H _]; [lia|].
  eexists. rewrite H; reflexivity.
Defined.
