(* ===== verification/Kalloc.v ===== *)
(** * kalloc.c: the page allocator

    Physical memory is a function from the kernel address of a page to its 4096
    bytes.  The free list is linked through the first word of each free page, as
    in the code.  The operations work on the allocator and the locks of [Core]. *)

From stdpp Require Import functions.
From S2P Require Import Prelude Params Devices Core.

Abbreviation page := (list Z).

(** kmem, and the memory it manages. *)
Record kmem := KMem {
  km_uselock : bool;
  km_freelist : Z;
  km_page : Z → page
}.

Abbreviation kst := (kmem * core)%type.

Definition set_freelist (r : Z) (s : kst) : kst :=
  (KMem (km_uselock (fst s)) r (km_page (fst s)), snd s).
Definition set_page (v : Z) (d : page) (s : kst) : kst :=
  (KMem (km_uselock (fst s)) (km_freelist (fst s)) (<[v := d]> (km_page (fst s))), snd s).
Definition set_uselock (b : bool) (s : kst) : kst :=
  (KMem b (km_freelist (fst s)) (km_page (fst s)), snd s).

(** The 8-byte word at address [a]: a page table entry, the link of a free page. *)
Definition pg_base (a : Z) : Z := a - a mod PGSIZE.
Definition load64 (m : kmem) (a : Z) : Z :=
  field (Z.to_nat (a mod PGSIZE)) 8 (km_page m (pg_base a)).
Definition store64 (a v : Z) (s : kst) : kst :=
  set_page (pg_base a) (set_field (Z.to_nat (a mod PGSIZE)) 8 v (km_page (fst s) (pg_base a))) s.

(** memset of one page. *)
Definition memset_page (v c : Z) (s : kst) : kst :=
  set_page v (replicate (Z.to_nat PGSIZE) (u8 c)) s.

Section kalloc.
(** end: the first address after the kernel, set by the linker. *)
Variable kend : Z.

(** The lock is used once kinit2 has run. *)
Definition kmem_lock : K kst unit :=
  u <- gets (λ s, km_uselock (fst s));;
  if (u : bool) then on_core (acquire Lk_kmem) else ret tt.
Definition kmem_unlock : K kst unit :=
  u <- gets (λ s, km_uselock (fst s));;
  if (u : bool) then on_core (release Lk_kmem) else ret tt.

Definition kfree (v : Z) : K kst unit :=
  if negb (v mod PGSIZE =? 0) || (v <? kend) || (PHYSTOP <=? V2P v) then panic "kfree" else
  modify (memset_page v 1) ;;;
  kmem_lock ;;;
  modify (λ s, store64 v (km_freelist (fst s)) s) ;;;
  modify (set_freelist v) ;;;
  kmem_unlock.

Definition kalloc : K kst Z :=
  kmem_lock ;;;
  r <- gets (λ s, km_freelist (fst s));;
  (if r =? 0 then panic "Out of memory!"
   else modify (λ s, set_freelist (load64 (fst s) r) s)) ;;;
  kmem_unlock ;;;
  ret r.

Fixpoint freerange_loop (fuel : nat) (p vend : Z) : K kst unit :=
  if p + PGSIZE <=? vend then
    match fuel with
    | O => panic "freerange: out of fuel"
    | S fuel => kfree p ;;; freerange_loop fuel (p + PGSIZE) vend
    end
  else ret tt.

Definition freerange (vstart vend : Z) : K kst unit :=
  freerange_loop (Z.to_nat ((vend - vstart) / PGSIZE + 1)) (PGROUNDUP vstart) vend.

Definition kinit1 (vstart vend : Z) : K kst unit :=
  modify (set_uselock false) ;;;
  modify (set_freelist 0) ;;;
  freerange vstart vend.

Definition kinit2 : K kst unit := modify (set_uselock true).

(** ** The free list *)
Definition valid_page (v : Z) : Prop :=
  v mod PGSIZE = 0 ∧ kend ≤ v ∧ v < KERNBASE + PHYSTOP.

Fixpoint chain (m : kmem) (p : Z) (l : list Z) : Prop :=
  match l with
  | [] => p = 0
  | q :: l => p = q ∧ chain m (load64 m q) l
  end.

(** [l] is the free list: distinct pages of the managed range, linked in order. *)
Record free_rep (m : kmem) (l : list Z) : Prop := {
  fr_chain : chain m (km_freelist m) l;
  fr_nodup : NoDup l;
  fr_valid : Forall valid_page l;
  fr_len : ∀ v, length (km_page m v) = Z.to_nat PGSIZE;
  fr_byte : ∀ v, Forall is_byte (km_page m v)
}.

Hypothesis Hend : KERNBASE < kend ≤ KERNBASE + PHYSTOP.

Lemma kfree_guard v : valid_page v → V2P v < PHYSTOP ∧ v = P2V (V2P v) ∧ 0 ≤ V2P v.
Proof.
  intros (_ & Hv & Hp). unfold V2P, P2V, u64. unfold PHYSTOP, KERNBASE in *.
  rewrite Z.mod_small by lia. rewrite Z.sub_add. rewrite (Z.mod_small v) by lia. lia.
Qed.

Lemma pg_base_page v : v mod PGSIZE = 0 → pg_base v = v.
Proof. unfold pg_base. lia. Qed.

Lemma chain_frame m m' p l :
  (∀ q, q ∈ l → km_page m' q = km_page m q) → Forall valid_page l → chain m p l → chain m' p l.
Proof.
  revert p. induction l as [|q l IH]; intros p Hf Hv; [done|]. cbn.
  apply Forall_cons in Hv as [Hq Hv]. intros [-> Hc]. split; [done|].
  replace (load64 m' q) with (load64 m q).
  - apply IH; [|done|done]. intros x Hx. apply Hf. by right.
  - unfold load64. rewrite pg_base_page by apply Hq. by rewrite Hf by (left; done).
Qed.

(** The lock is free and can be taken. *)
Definition kquiet (c : core) : Prop := Lk_kmem ∉ c_held c.

Definition klocked (m : kmem) (c : core) : core :=
  if km_uselock m then set_held (Lk_kmem :: c_held c) c else c.

Lemma kmem_locked (m : kmem) c : kquiet c → kmem_lock (m, c) = Done tt (m, klocked m c).
Proof.
  intros Hq. unfold kmem_lock, klocked, bind, gets. cbn [fst snd].
  destruct (km_uselock m); [|done].
  unfold on_core, zoom. cbn [fst snd]. by rewrite acquire_ok.
Qed.

Lemma kmem_unlocked (m m' : kmem) c :
  kquiet c → km_uselock m' = km_uselock m → kmem_unlock (m', klocked m c) = Done tt (m', c).
Proof.
  intros Hq Hu. unfold kmem_unlock, klocked, bind, gets. cbn [fst snd]. rewrite Hu.
  destruct (km_uselock m); [|done]. unfold on_core, zoom. cbn [fst snd].
  rewrite (release_head _ (c_held c)) by done. by rewrite set_held_twice, set_held_id.
Qed.

(** kalloc takes the first free page and changes no page. *)
Lemma kalloc_spec m c r l :
  kquiet c → free_rep m (r :: l) →
  kalloc (m, c) = Done r (KMem (km_uselock m) (load64 m r) (km_page m), c) ∧
  free_rep (KMem (km_uselock m) (load64 m r) (km_page m)) l.
Proof.
  intros Hq [Hc Hn Hv Hl Hb]. cbn in Hc. destruct Hc as [Hr Hc].
  apply NoDup_cons in Hn as [Hnr Hn]. apply Forall_cons in Hv as [Hvr Hv]. split.
  - unfold kalloc. rewrite (bind_done _ _ _ _ _ (kmem_locked m c Hq)). unfold bind, gets, modify, ret, set_freelist. cbn [fst snd].
    rewrite Hr. destruct (Z.eqb_spec r 0) as [->|_].
    { destruct Hvr as (_ & H & _). unfold KERNBASE in Hend. lia. }
    cbn [fst snd]. by rewrite kmem_unlocked by done.
  - split; try done. cbn. apply (chain_frame m); done.
Qed.

(** kalloc on an empty list panics: it never returns 0. *)
Lemma kalloc_empty m c : kquiet c → free_rep m [] → kalloc (m, c) = Panic "Out of memory!".
Proof.
  intros Hq [Hc _ _ _ _]. cbn in Hc. unfold kalloc. rewrite (bind_done _ _ _ _ _ (kmem_locked m c Hq)).
  unfold bind, gets. cbn. by rewrite Hc.
Qed.

(** The page after kfree: junk, with the link in its first word. *)
Definition freed_page (next : Z) : page := set_field 0 8 next (replicate (Z.to_nat PGSIZE) 1).
Definition freed (v : Z) (m : kmem) : kmem :=
  KMem (km_uselock m) v (<[v := freed_page (km_freelist m)]> (<[v := replicate (Z.to_nat PGSIZE) 1]> (km_page m))).

Lemma length_freed_page n : length (freed_page n) = Z.to_nat PGSIZE.
Proof. unfold freed_page. rewrite length_set_field; rewrite length_replicate; [done|]. unfold PGSIZE. lia. Qed.

Lemma chain_head m p l : chain m p l → Forall valid_page l → 0 ≤ p < 2 ^ 64.
Proof.
  destruct l as [|q l]; cbn; [lia|]. intros [-> _] [(_ & Hq & Hp) _]%Forall_cons.
  unfold KERNBASE, PHYSTOP in *. lia.
Qed.

Lemma freed_link v m : v mod PGSIZE = 0 → 0 ≤ km_freelist m < 2 ^ 64 → load64 (freed v m) v = km_freelist m.
Proof.
  intros Hm Hf. unfold load64. rewrite Hm, pg_base_page by done. cbn [freed km_page].
  rewrite fn_lookup_insert. unfold freed_page. change (Z.to_nat 0) with 0%nat. rewrite field_set_same.
  - by apply Z.mod_small.
  - rewrite length_replicate. unfold PGSIZE. lia.
Qed.

Lemma kfree_spec m c v l :
  kquiet c → free_rep m l → valid_page v → v ∉ l →
  kfree v (m, c) = Done tt (freed v m, c) ∧ free_rep (freed v m) (v :: l).
Proof.
  intros Hq Hf Hv Hvl. pose proof Hf as [Hc Hn Hvs Hl Hb].
  destruct (kfree_guard v Hv) as (Hp & _ & _). pose proof Hv as (Hm & Hk & _). split.
  - unfold kfree. rewrite Hm. rewrite (proj2 (Z.ltb_ge _ _)) by lia. rewrite (proj2 (Z.leb_gt _ _)) by lia.
    cbn [negb orb Z.eqb]. unfold bind at 1, modify at 1. unfold memset_page, set_page. cbn [fst snd].
    rewrite (bind_done _ _ _ _ _ (kmem_locked _ c Hq)). unfold bind, modify. cbn [fst snd].
    unfold store64, set_freelist, set_page. cbn [fst snd km_uselock km_freelist km_page].
    rewrite pg_base_page by done. rewrite Hm, fn_lookup_insert.
    by rewrite (kmem_unlocked (KMem (km_uselock m) (km_freelist m) (<[v:=replicate (Z.to_nat PGSIZE) (u8 1)]> (km_page m)))) by done.
  - split; cbn [freed km_freelist km_page km_uselock].
    + cbn [chain]. split; [done|]. rewrite freed_link by (done || apply (chain_head _ _ _ Hc Hvs)).
      eapply (chain_frame m); [|done|done]. intros q Hql. cbn.
      rewrite !fn_lookup_insert_ne by (intros ->; done). done.
    + by constructor.
    + by constructor.
    + intros x. destruct (decide (v = x)) as [<-|]; [rewrite fn_lookup_insert; apply length_freed_page|].
      by rewrite !fn_lookup_insert_ne by done.
    + intros x. destruct (decide (v = x)) as [<-|]; [rewrite fn_lookup_insert|by rewrite !fn_lookup_insert_ne by done].
      apply set_field_bytes, Forall_replicate. unfold is_byte. lia.
Qed.

(** *** The initial list *)
Definition pages (p : Z) (n : nat) : list Z := (λ i, p + PGSIZE * Z.of_nat i) <$> seq 0 n.

Lemma pages_S p n : pages p (S n) = p :: pages (p + PGSIZE) n.
Proof.
  unfold pages. cbn [seq fmap list_fmap]. f_equal; [lia|].
  rewrite <- fmap_S_seq, <- list_fmap_compose. apply list_fmap_ext. intros i x _. cbn. lia.
Qed.

Lemma elem_of_pages p n x : x ∈ pages p n → p ≤ x < p + PGSIZE * Z.of_nat n ∧ (x - p) mod PGSIZE = 0.
Proof.
  intros (i & -> & Hi)%list_elem_of_fmap. apply elem_of_seq in Hi. unfold PGSIZE. split; [lia|].
  replace (p + 4096 * Z.of_nat i - p) with (Z.of_nat i * 4096) by lia. by apply Z.mod_mul.
Qed.

Lemma NoDup_pages p n : NoDup (pages p n).
Proof. apply NoDup_fmap_2; [intros ???; unfold PGSIZE in *; lia|]. apply NoDup_seq. Qed.

Lemma pages_valid p n :
  p mod PGSIZE = 0 → kend ≤ p → p + PGSIZE * Z.of_nat n ≤ KERNBASE + PHYSTOP →
  Forall valid_page (pages p n).
Proof.
  intros Hm Hk Hp. apply Forall_forall. intros x [Hx Hxm]%elem_of_pages.
  split; [|split; [lia|lia]]. unfold PGSIZE in *. Z.to_euclidean_division_equations; lia.
Qed.

Lemma freerange_loop_spec fuel p vend n m c l :
  kquiet c → free_rep m l → (n ≤ fuel)%nat →
  p + PGSIZE * Z.of_nat n ≤ vend < p + PGSIZE * (Z.of_nat n + 1) →
  Forall valid_page (pages p n) → (∀ x, x ∈ pages p n → x ∉ l) →
  ∃ m', freerange_loop fuel p vend (m, c) = Done tt (m', c) ∧ free_rep m' (reverse (pages p n) ++ l).
Proof.
  intros Hq. revert fuel p m l. induction n as [|n IH]; intros fuel p m l Hf Hfuel Hend' Hv Hd.
  - exists m. split; [|done]. destruct fuel; cbn [freerange_loop];
      rewrite (proj2 (Z.leb_gt _ _)) by (unfold PGSIZE in *; lia); done.
  - destruct fuel as [|fuel]; [lia|]. cbn [freerange_loop].
    rewrite (proj2 (Z.leb_le _ _)) by (unfold PGSIZE in *; lia).
    rewrite pages_S in Hv, Hd. apply Forall_cons in Hv as [Hp Hv].
    destruct (kfree_spec m c p l Hq Hf Hp) as [E Hf']; [apply Hd; left|].
    rewrite (bind_done _ _ _ _ _ E).
    destruct (IH fuel (p + PGSIZE) (freed p m) (p :: l)) as (m' & E' & Hr); [done|lia|unfold PGSIZE in *; lia|done|..].
    { intros x Hx. pose proof (elem_of_pages _ _ _ Hx) as [Hlt _].
      apply not_elem_of_cons. split; [unfold PGSIZE in *; lia|]. apply Hd. by right. }
    exists m'. split; [done|]. rewrite pages_S, reverse_cons, <- app_assoc. done.
Qed.

(** The memory that kinit1 gets. *)
Definition memory_ok (m : kmem) : Prop :=
  (∀ v, length (km_page m v) = Z.to_nat PGSIZE) ∧ (∀ v, Forall is_byte (km_page m v)).

Lemma kinit1_spec m c vend n :
  let p := PGROUNDUP kend in
  kquiet c → memory_ok m → p + PGSIZE * Z.of_nat n ≤ vend < p + PGSIZE * (Z.of_nat n + 1) →
  vend ≤ KERNBASE + PHYSTOP →
  ∃ m', kinit1 kend vend (m, c) = Done tt (m', c) ∧ free_rep m' (reverse (pages p n)).
Proof.
  intros p Hq [Hl Hb] Hn Hv. destruct (pground_up kend) as [Hpm Hp]; [unfold KERNBASE, PGSIZE, PHYSTOP in *; lia|].
  fold p in Hpm, Hp. unfold kinit1, bind, modify, set_uselock, set_freelist, freerange. cbn [fst snd km_uselock km_freelist km_page].
  destruct (freerange_loop_spec (Z.to_nat ((vend - kend) / PGSIZE + 1)) p vend n (KMem false 0 (km_page m)) c [])
    as (m' & E & Hr); try done.
  - split; cbn; try done; constructor.
  - unfold PGSIZE in *. Z.to_euclidean_division_equations; lia.
  - apply pages_valid; [done|lia|lia].
  - intros x _ Hx. by apply elem_of_nil in Hx.
  - exists m'. rewrite app_nil_r in Hr. split; [exact E|done].
Qed.

(** ** Clients *)

(** A client allocates, or frees the [k]-th of the pages it has. *)
Inductive kop := KAlloc | KFree (k : nat).
#[global] Instance kop_eq_dec : EqDecision kop.
Proof. solve_decision. Defined.

Fixpoint krun (ops : list kop) (have : list Z) : K kst (list Z) :=
  match ops with
  | [] => ret have
  | KAlloc :: ops => r <- kalloc;; krun ops (r :: have)
  | KFree k :: ops =>
      match have !! k with
      | Some v => kfree v ;;; krun ops (delete k have)
      | None => krun ops have
      end
  end.

(** The pages [have] of the client and the free pages [l] are those of [all], each once. *)
Definition shares (all have : list Z) (m : kmem) : Prop :=
  ∃ l, free_rep m l ∧ Forall valid_page have ∧ NoDup (have ++ l) ∧ have ++ l ≡ₚ all.

Lemma shares_alloc all have m c :
  kquiet c → shares all have m →
  have ≡ₚ all ∧ kalloc (m, c) = Panic "Out of memory!" ∨
  ∃ r m', kalloc (m, c) = Done r (m', c) ∧ shares all (r :: have) m'.
Proof.
  intros Hq ([|r l] & Hf & Hv & Hnd & Hp).
  - left. rewrite app_nil_r in Hp. split; [done|]. by apply kalloc_empty.
  - right. destruct (kalloc_spec m c r l Hq Hf) as [E Hf']. eexists r, _. split; [exact E|]. exists l.
    assert (Hp' : (r :: have) ++ l ≡ₚ have ++ r :: l) by (cbn; by rewrite Permutation_middle).
    split; [done|]. split; [|split; [by rewrite Hp'|by rewrite Hp']].
    constructor; [|done]. pose proof (fr_valid _ _ Hf) as Hv'. by apply Forall_cons in Hv' as [??].
Qed.

Lemma shares_free all have m c k v :
  kquiet c → shares all have m → have !! k = Some v →
  ∃ m', kfree v (m, c) = Done tt (m', c) ∧ shares all (delete k have) m'.
Proof.
  intros Hq (l & Hf & Hv & Hnd & Hp) Ek. pose proof (delete_Permutation _ _ _ Ek) as Hd.
  assert (Hnd' : NoDup (v :: delete k have ++ l)) by (by rewrite Hd in Hnd). apply NoDup_cons in Hnd' as [Hvn _].
  destruct (kfree_spec m c v l Hq Hf) as [E Hf'].
  { rewrite Forall_forall in Hv. apply Hv. by eapply list_elem_of_lookup_2. }
  { intros Hin. apply Hvn. apply elem_of_app. by right. }
  exists (freed v m). split; [done|]. exists (v :: l).
  assert (Hp2 : delete k have ++ v :: l ≡ₚ have ++ l)
    by (transitivity ((v :: delete k have) ++ l); [cbn; symmetry; apply Permutation_middle|by rewrite <- Hd]).
  split; [done|]. split; [|split; by rewrite Hp2]. rewrite Hd in Hv. by apply Forall_cons in Hv as [??].
Qed.

(** What a run of a client from the pages [have] may end in. *)
Definition krun_ends (all : list Z) (ops : list kop) (have : list Z) (m : kmem) (c : core) : Prop :=
  match krun ops have (m, c) with
  | Done have' (m', c') => c' = c ∧ shares all have' m'
  | Panic msg => msg = "Out of memory!" ∧
      ∃ ops1 ops2 have1 m1, ops = ops1 ++ KAlloc :: ops2 ∧ krun ops1 have (m, c) = Done have1 (m1, c) ∧ have1 ≡ₚ all
  | Sleep _ _ => False
  end.

(** One operation in front of a run. *)
Lemma krun_ends_cons all o ops have m c have1 m1 :
  (∀ ops, krun (o :: ops) have (m, c) = krun ops have1 (m1, c)) → krun_ends all ops have1 m1 c → krun_ends all (o :: ops) have m c.
Proof.
  intros E. unfold krun_ends. rewrite E. destruct (krun ops have1 (m1, c)) as [? [??]|msg|]; [done| |done].
  intros (-> & ops1 & ops2 & have2 & m2 & -> & E2 & Hp). split; [done|]. exists (o :: ops1), ops2, have2, m2.
  split; [done|]. split; [by rewrite E|done].
Qed.

Lemma krun_shares all ops have m c : kquiet c → shares all have m → krun_ends all ops have m c.
Proof.
  intros Hq. revert have m. induction ops as [|[|k] ops IH]; intros have m Hs.
  - by split.
  - destruct (shares_alloc all have m c Hq Hs) as [[Hall E]|(r & m' & E & Hs')].
    + unfold krun_ends. cbn [krun]. unfold bind. rewrite E. split; [done|]. by exists [], ops, have, m.
    + apply (krun_ends_cons _ _ _ _ _ _ (r :: have) m'); [|by apply IH].
      intros ops'. cbn [krun]. by rewrite (bind_done _ _ _ _ _ E).
  - destruct (have !! k) as [v|] eqn:Ek.
    + destruct (shares_free all have m c k v Hq Hs Ek) as (m' & E & Hs').
      apply (krun_ends_cons _ _ _ _ _ _ (delete k have) m'); [|by apply IH].
      intros ops'. cbn [krun]. by rewrite Ek, (bind_done _ _ _ _ _ E).
    + apply (krun_ends_cons _ _ _ _ _ _ have m); [|by apply IH]. intros ops'. cbn [krun]. by rewrite Ek.
Qed.

(** C17: the page allocator hands out each page of its range to one client at a
    time.  After kinit1 and kinit2, run any sequence of kalloc and kfree of pages that the
    client has.  Either it runs to its end, and the pages the client has and the free ones
    are together exactly the pages between end and the end of memory, each of them once;
    or it panics with "Out of memory!", at a kalloc that comes when the client has every
    page. *)
Theorem kalloc_partition ops m c vend n :
  let p := PGROUNDUP kend in
  kquiet c → memory_ok m → p + PGSIZE * Z.of_nat n ≤ vend < p + PGSIZE * (Z.of_nat n + 1) →
  vend ≤ KERNBASE + PHYSTOP →
  let client ops := (kinit1 kend vend ;;; kinit2 ;;; krun ops []) (m, c) in
  match client ops with
  | Done have (m', c') => c' = c ∧ shares (pages p n) have m'
  | Panic msg => msg = "Out of memory!" ∧
      ∃ ops1 ops2 have1 m1, ops = ops1 ++ KAlloc :: ops2 ∧ client ops1 = Done have1 (m1, c) ∧ have1 ≡ₚ pages p n
  | Sleep _ _ => False
  end.
Proof.
  intros p Hq Hm Hn Hv. destruct (kinit1_spec m c vend n Hq Hm Hn Hv) as (m1 & E & Hf). fold p in Hf. cbv beta zeta.
  assert (Ei : ∀ ops, (kinit1 kend vend ;;; kinit2 ;;; krun ops []) (m, c) = krun ops [] (KMem true (km_freelist m1) (km_page m1), c)).
  { intros ops'. by rewrite (bind_done _ _ _ _ _ E). }
  assert (Hr : krun_ends (pages p n) ops [] (KMem true (km_freelist m1) (km_page m1)) c).
  { apply krun_shares; [done|]. exists (reverse (pages p n)).
    split; [destruct Hf as [Hc Hd Hvv Hl Hb]; split; try done; by eapply (chain_frame m1)|].
    split; [done|]. split; [|apply reverse_Permutation]. cbn. rewrite reverse_Permutation. apply NoDup_pages. }
  unfold krun_ends in Hr. rewrite Ei. destruct (krun ops [] _) as [? [??]|msg|]; [done| |done].
  destruct Hr as (-> & ops1 & ops2 & have1 & m2 & Eo & E1 & Hp). split; [done|]. exists ops1, ops2, have1, m2. by rewrite Ei.
Qed.
End kalloc.

(** One page, after a kernel that ends in the middle of a page: it is given out, freed and
    given out again, and then there is none left. *)
Definition sample_end : Z := KERNBASE + 0x100800.
Definition sample_memory : kmem := KMem false 0 (λ _, replicate (Z.to_nat PGSIZE) 0).
Definition sample_kops : list kop := [KAlloc; KFree 0; KAlloc; KAlloc].

Lemma kalloc_partition_witness :
  match (kinit1 sample_end sample_end (KERNBASE + 0x102000) ;;; kinit2 ;;; krun sample_end sample_kops [])
      (sample_memory, Core [] [] None devices0) with
  | Done have (m', c') => c' = Core [] [] None devices0 ∧ shares sample_end (pages (KERNBASE + 0x101000) 1) have m'
  | Panic msg => msg = "Out of memory!" ∧
      ∃ ops1 ops2 have1 m1, sample_kops = ops1 ++ KAlloc :: ops2 ∧
        (kinit1 sample_end sample_end (KERNBASE + 0x102000) ;;; kinit2 ;;; krun sample_end ops1 [])
          (sample_memory, Core [] [] None devices0) = Done have1 (m1, Core [] [] None devices0) ∧
        have1 ≡ₚ pages (KERNBASE + 0x101000) 1
  | Sleep _ _ => False
  end.
Proof.
  apply (kalloc_partition sample_end ltac:(vm_compute; intuition congruence) sample_kops sample_memory
    (Core [] [] None devices0) (KERNBASE + 0x102000) 1).
  - intros H. by apply elem_of_nil in H.
  - split; intros v; cbn; [apply length_replicate|]. apply Forall_replicate. unfold is_byte. lia.
  - vm_compute. intuition congruence.
  - vm_compute. congruence.
Defined.
