(* ===== verification/Vm.v ===== *)
(** * vm.c: page tables

    The four-level page tables live in pages of the allocator's memory, as the
    code builds them; an entry is a 64-bit word.  [walkpgdir] returns the address
    of an entry, or nothing. *)

From stdpp Require Import functions.
From S2P Require Import Prelude Params Core Kalloc.

(** ** mmu.h *)
Definition PXMASK : Z := 0x1FF.
Definition PTXSHIFT : Z := 12.
Definition PDXSHIFT : Z := 21.
Definition PDPXSHIFT : Z := 30.
Definition PML4XSHIFT : Z := 39.
Definition PMX (va : Z) : Z := Z.land (Z.shiftr va PML4XSHIFT) PXMASK.
Definition PDPX (va : Z) : Z := Z.land (Z.shiftr va PDPXSHIFT) PXMASK.
Definition PDX (va : Z) : Z := Z.land (Z.shiftr va PDXSHIFT) PXMASK.
Definition PTX (va : Z) : Z := Z.land (Z.shiftr va PTXSHIFT) PXMASK.
Definition NPDENTRIES : nat := 512.
Definition PTE_P : Z := 0x001.
Definition PTE_W : Z := 0x002.
Definition PTE_U : Z := 0x004.
Definition PTE_PWT : Z := 0x008.
Definition PTE_PCD : Z := 0x010.
Definition PTE_PS : Z := 0x080.
Definition PTE_ADDR (pte : Z) : Z := Z.land pte (u64 (Z.lnot 0xFFF)).
Definition PTE_FLAGS (pte : Z) : Z := Z.land pte 0xFFF.

(** ** Entries *)
Definition entry_addr (tab idx : Z) : Z := tab + 8 * idx.
Definition entry (m : kmem) (tab idx : Z) : Z := load64 m (entry_addr tab idx).

Section vm.
Variable kend : Z.

Local Abbreviation kfree := (kfree kend).

(** One level of walkpgdir: the table that entry [idx] of [tab] points to,
    allocated and zeroed if it is missing and [alloc] is set. *)
Definition walk_level (tab idx : Z) (alloc : bool) : K kst (option Z) :=
  e <- gets (λ s, entry (fst s) tab idx);;
  if tst e PTE_P then ret (Some (P2V (PTE_ADDR e)))
  else if negb alloc then ret None else
    t <- kalloc;;
    if t =? 0 then ret None else
    modify (memset_page t 0) ;;;
    modify (store64 (entry_addr tab idx)
              (Z.lor (Z.lor (Z.lor (V2P t) PTE_P) PTE_W) PTE_U)) ;;;
    ret (Some t).

Definition walkpgdir (pml4 va : Z) (alloc : bool) : K kst (option Z) :=
  pdp <- walk_level pml4 (PMX va) alloc;;
  match pdp with
  | None => ret None
  | Some pdp =>
      pd <- walk_level pdp (PDPX va) alloc;;
      match pd with
      | None => ret None
      | Some pd =>
          pgtab <- walk_level pd (PDX va) alloc;;
          match pgtab with
          | None => ret None
          | Some pgtab => ret (Some (entry_addr pgtab (PTX va)))
          end
      end
  end.

Fixpoint mappages_loop (fuel : nat) (pgdir a last pa perm : Z) : K kst Z :=
  pte <- walkpgdir pgdir a true;;
  match pte with
  | None => ret (-1)
  | Some pte =>
      e <- gets (λ s, load64 (fst s) pte);;
      if tst e PTE_P then panic "remap" else
      modify (store64 pte (Z.lor (Z.lor pa perm) PTE_P)) ;;;
      if a =? last then ret 0 else
      match fuel with
      | O => panic "mappages: out of fuel"
      | S fuel => mappages_loop fuel pgdir (u64 (a + PGSIZE)) last (u64 (pa + PGSIZE)) perm
      end
  end.

(** The loop makes one turn for each page from the first to the last. *)
Definition mappages (pgdir va size pa perm : Z) : K kst Z :=
  let a := PGROUNDDOWN va in
  let last := PGROUNDDOWN (u64 (va + size - 1)) in
  mappages_loop (Z.to_nat (u64 (last - a) / PGSIZE)) pgdir a last pa perm.

(** ** Kernel page tables *)
Definition setupkvm (kpdpt : Z) : K kst Z :=
  pml4 <- kalloc;;
  modify (memset_page pml4 0) ;;;
  modify (store64 (entry_addr pml4 256) (Z.lor (Z.lor (V2P kpdpt) PTE_P) PTE_W)) ;;;
  ret pml4.

(** kpml4 and kpdpt, which the code keeps in variables. *)
Definition kvmalloc : K kst (Z * Z) :=
  kpml4 <- kalloc;;
  modify (memset_page kpml4 0) ;;;
  kpdpt <- kalloc;;
  modify (memset_page kpdpt 0) ;;;
  modify (store64 (entry_addr kpml4 (PMX KERNBASE)) (Z.lor (Z.lor (V2P kpdpt) PTE_P) PTE_W)) ;;;
  modify (store64 (entry_addr kpdpt 0) (Z.lor (Z.lor (Z.lor 0 PTE_PS) PTE_P) PTE_W)) ;;;
  modify (store64 (entry_addr kpdpt 3)
    (Z.lor (Z.lor (Z.lor (Z.lor (Z.lor 0xC0000000 PTE_PS) PTE_P) PTE_W) PTE_PWT) PTE_PCD)) ;;;
  ret (kpml4, kpdpt).

(** ** User memory *)
Definition inituvm (pgdir : Z) (init : list Z) (sz : Z) : K kst unit :=
  if PGSIZE <=? sz then panic "inituvm: more than a page" else
  mem <- kalloc;;
  modify (memset_page mem 0) ;;;
  _ <- mappages pgdir PGSIZE PGSIZE (V2P mem) (Z.lor PTE_W PTE_U);;
  modify (λ s, set_page mem (splice 0 (take (Z.to_nat sz) init) (km_page (fst s) mem)) s).

(** The body of the loop of deallocuvm. *)
Definition dealloc_page (pgdir a : Z) : K kst unit :=
  pte <- walkpgdir pgdir a false;;
  match pte with
  | None => ret tt
  | Some pte =>
      e <- gets (λ s, load64 (fst s) pte);;
      if tst e PTE_P then
        let pa := PTE_ADDR e in
        if pa =? 0 then panic "kfree" else
        kfree (P2V pa) ;;;
        modify (store64 pte 0)
      else ret tt
  end.

Fixpoint deallocuvm_loop (fuel : nat) (pgdir a oldsz : Z) : K kst unit :=
  if a <? oldsz then
    match fuel with
    | O => panic "deallocuvm: out of fuel"
    | S fuel =>
        dealloc_page pgdir a ;;;
        deallocuvm_loop fuel pgdir (u64 (a + PGSIZE)) oldsz
    end
  else ret tt.

Definition deallocuvm (pgdir oldsz newsz : Z) : K kst Z :=
  if oldsz <=? newsz then ret oldsz else
  deallocuvm_loop (Z.to_nat (oldsz / PGSIZE + 1)) pgdir (PGROUNDUP newsz) oldsz ;;;
  ret newsz.

Fixpoint allocuvm_loop (fuel : nat) (pgdir a oldsz newsz : Z) : K kst Z :=
  if a <? newsz then
    match fuel with
    | O => panic "allocuvm: out of fuel"
    | S fuel =>
        mem <- kalloc;;
        if mem =? 0 then deallocuvm pgdir newsz oldsz ;;; ret 0 else
        modify (memset_page mem 0) ;;;
        r <- mappages pgdir a PGSIZE (V2P mem) (Z.lor PTE_W PTE_U);;
        if r <? 0 then deallocuvm pgdir newsz oldsz ;;; kfree mem ;;; ret 0 else
        allocuvm_loop fuel pgdir (u64 (a + PGSIZE)) oldsz newsz
    end
  else ret newsz.

Definition allocuvm (pgdir oldsz newsz : Z) : K kst Z :=
  if KERNBASE <=? newsz then ret 0 else
  if newsz <? oldsz then ret oldsz else
  allocuvm_loop (Z.to_nat (newsz / PGSIZE + 1)) pgdir (PGROUNDUP oldsz) oldsz newsz.

(** The four loops of freevm, from the innermost on.  [i] is the index of the
    entry, [n] the number of entries left. *)
Fixpoint free_entries (free_table : Z → K kst unit) (n : nat) (tab i : Z) : K kst unit :=
  match n with
  | O => ret tt
  | S n =>
      e <- gets (λ s, entry (fst s) tab i);;
      (if tst e PTE_P then free_table (P2V (PTE_ADDR e)) else ret tt) ;;;
      free_entries free_table n tab (i + 1)
  end.

Definition free_pt (pt : Z) : K kst unit := free_entries kfree NPDENTRIES pt 0 ;;; kfree pt.
Definition free_pd (pd : Z) : K kst unit := free_entries free_pt NPDENTRIES pd 0 ;;; kfree pd.
Definition free_pdp (pdp : Z) : K kst unit := free_entries free_pd NPDENTRIES pdp 0 ;;; kfree pdp.

Definition freevm (pml4 : Z) : K kst unit :=
  if pml4 =? 0 then panic "freevm: no pgdir" else
  free_entries free_pdp (NPDENTRIES / 2) pml4 0 ;;;
  kfree pml4.

Definition clearpteu (pgdir uva : Z) : K kst unit :=
  pte <- walkpgdir pgdir uva false;;
  match pte with
  | None => panic "clearpteu"
  | Some pte => modify (λ s, store64 pte (Z.land (load64 (fst s) pte) (Z.lnot PTE_U)) s)
  end.

(** The body of the loop of copyuvm: -1 stands for the jump to [bad]. *)
Definition copy_page (pgdir d i : Z) : K kst Z :=
  pte <- walkpgdir pgdir i false;;
  match pte with
  | None => panic "copyuvm: pte should exist"
  | Some pte =>
      e <- gets (λ s, load64 (fst s) pte);;
      if negb (tst e PTE_P) then panic "copyuvm: page not present" else
      let pa := PTE_ADDR e in
      let flags := PTE_FLAGS e in
      mem <- kalloc;;
      if mem =? 0 then ret (-1) else
      modify (λ s, set_page mem (km_page (fst s) (P2V pa)) s) ;;;
      mappages d i PGSIZE (V2P mem) flags
  end.

Fixpoint copyuvm_loop (fuel : nat) (pgdir d i sz : Z) : K kst Z :=
  if i <? sz then
    match fuel with
    | O => panic "copyuvm: out of fuel"
    | S fuel =>
        r <- copy_page pgdir d i;;
        if r <? 0 then freevm d ;;; ret 0 else
        copyuvm_loop fuel pgdir d (u64 (i + PGSIZE)) sz
    end
  else ret d.

(** [sz] is a 32-bit unsigned int. *)
Definition copyuvm (kpdpt pgdir sz : Z) : K kst Z :=
  let sz := u32 sz in
  d <- setupkvm kpdpt;;
  if d =? 0 then ret 0 else
  copyuvm_loop (Z.to_nat (sz / PGSIZE + 1)) pgdir d PGSIZE sz.

(** The code reads the entry without a check that there is one: a null entry
    pointer is a page fault in the kernel, which trap answers with a panic. *)
Definition uva2ka (pgdir uva : Z) : K kst Z :=
  pte <- walkpgdir pgdir uva false;;
  match pte with
  | None => panic "trap"
  | Some pte =>
      e <- gets (λ s, load64 (fst s) pte);;
      if negb (tst e PTE_P) then ret 0 else
      if negb (tst e PTE_U) then ret 0 else
      ret (P2V (PTE_ADDR e))
  end.

Fixpoint copyout_loop (fuel : nat) (pgdir va : Z) (buf : list Z) (len : Z) : K kst Z :=
  if 0 <? len then
    match fuel with
    | O => panic "copyout: out of fuel"
    | S fuel =>
        let va0 := PGROUNDDOWN va in
        pa0 <- uva2ka pgdir va0;;
        if pa0 =? 0 then ret (-1) else
        let n := PGSIZE - (va - va0) in
        let n := if len <? n then len else n in
        modify (λ s, set_page pa0 (splice (Z.to_nat (va - va0)) (take (Z.to_nat n) buf)
                                     (km_page (fst s) pa0)) s) ;;;
        copyout_loop fuel pgdir (u64 (va0 + PGSIZE)) (drop (Z.to_nat n) buf) (len - n)
    end
  else ret 0.

Definition copyout (pgdir va : Z) (p : list Z) (len : Z) : K kst Z :=
  copyout_loop (Z.to_nat (len / PGSIZE + 2)) pgdir va p len.
End vm.
