(* ===== verification/VmTree.v ===== *)
(** * The tree of a page table

    The tables and user pages below a root are the nodes of a tree, named by the
    path of entry indices that leads to them: the root has the empty path, a page
    table a path of three indices and a user page one of four.  The invariant is
    that all nodes of all page tables are distinct pages of the allocator, none of
    them free. *)

From stdpp Require Import functions.
From S2P Require Import Prelude Params Core Kalloc Vm.

(** ** Entries *)
Definition present (e : Z) : option Z := if tst e PTE_P then Some (P2V (PTE_ADDR e)) else None.
Definition child (m : kmem) (tab i : Z) : option Z := present (entry m tab i).

Lemma lor_add a f : a mod PGSIZE = 0 → 0 ≤ f < PGSIZE → 0 ≤ a → Z.lor a f = a + f.
Proof.
  intros Ha Hf H0. assert (Hd : Z.land a f = 0).
  { apply Z.bits_inj'. intros i Hi. rewrite Z.land_spec, Z.bits_0.
    destruct (Z.lt_ge_cases i 12) as [Hlt|Hge].
    - replace a with (Z.shiftl (a / 4096) 12).
      + rewrite Z.shiftl_spec_low by lia. done.
      + rewrite Z.shiftl_mul_pow2 by lia. change (2 ^ 12) with 4096. unfold PGSIZE in Ha.
        Z.to_euclidean_division_equations; lia.
    - destruct (decide (f = 0)) as [->|]; [by rewrite Z.bits_0, andb_false_r|].
      rewrite (Z.bits_above_log2 f), andb_false_r by (lia || (apply Z.log2_lt_pow2; [lia|];
        eapply Z.lt_le_trans; [apply Hf|]; change PGSIZE with (2 ^ 12); apply Z.pow_le_mono_r; lia)).
      done. }
  rewrite Z.add_nocarry_lxor by done. by rewrite Z.lxor_lor.
Qed.

Section tree.
Variable kend : Z.
Hypothesis Hend : KERNBASE < kend ≤ KERNBASE + PHYSTOP.

Local Abbreviation valid_page := (valid_page kend).
Local Abbreviation free_rep := (free_rep kend).

Lemma V2P_page v : valid_page v → V2P v mod PGSIZE = 0 ∧ 0 ≤ V2P v < PHYSTOP ∧ P2V (V2P v) = v.
Proof.
  intros Hv. destruct (kfree_guard kend Hend v Hv) as (H1 & H2 & H3). destruct Hv as (Hm & Hk & Hp).
  split; [|split; [lia|done]]. clear H1 H2 H3. unfold V2P, u64, PGSIZE, KERNBASE, PHYSTOP in *.
  rewrite (Z.mod_small (v - _) (2 ^ 64)) by lia. Z.to_euclidean_division_equations; lia.
Qed.

(** The entry for page [v] with flag bits [f]. *)
Definition mkpte (v f : Z) : Z := Z.lor (V2P v) f.

Lemma mkpte_bound v f : valid_page v → 0 ≤ f < PGSIZE → 0 ≤ mkpte v f < 2 ^ 64.
Proof.
  intros Hv Hf. destruct (V2P_page v Hv) as (H1 & H2 & _). unfold mkpte. rewrite lor_add by (done || lia).
  unfold PGSIZE, PHYSTOP in *. lia.
Qed.

Lemma mkpte_addr v f : valid_page v → 0 ≤ f < PGSIZE → P2V (PTE_ADDR (mkpte v f)) = v.
Proof.
  intros Hv Hf. destruct (V2P_page v Hv) as (H1 & H2 & H3). pose proof (mkpte_bound v f Hv Hf) as Hb.
  unfold PTE_ADDR. change (Z.lnot 0xFFF) with (Z.lnot (PGSIZE - 1)). rewrite land_page_mask by done.
  unfold mkpte. rewrite lor_add by (done || lia). rewrite <- H3 at 3. f_equal.
  unfold PGSIZE in *. Z.to_euclidean_division_equations; lia.
Qed.

Lemma mkpte_flags v f : valid_page v → 0 ≤ f < PGSIZE → PTE_FLAGS (mkpte v f) = f.
Proof.
  intros Hv Hf. destruct (V2P_page v Hv) as (H1 & H2 & H3). unfold PTE_FLAGS.
  change 0xFFF with (Z.ones 12). rewrite Z.land_ones by lia. unfold mkpte. rewrite lor_add by (done || lia).
  change (2 ^ 12) with PGSIZE. rewrite Z.add_mod, H1 by done. rewrite Z.add_0_l, Z.mod_mod by done.
  by apply Z.mod_small.
Qed.

Lemma tst_lor e f : 0 ≤ f → Z.odd f = true → tst (Z.lor e f) PTE_P = true.
Proof.
  intros Hf Ho. unfold tst, PTE_P. apply negb_true_iff, Z.eqb_neq. intros E.
  apply (f_equal (λ z, Z.testbit z 0)) in E. rewrite Z.land_spec, Z.lor_spec, Z.bits_0 in E.
  rewrite (Z.bit0_odd f), Ho, orb_true_r in E. done.
Qed.

Lemma present_mkpte v f : valid_page v → 0 ≤ f < PGSIZE → Z.odd f = true → present (mkpte v f) = Some v.
Proof.
  intros Hv Hf Ho. unfold present, mkpte at 1. rewrite tst_lor by (done || lia). by rewrite mkpte_addr.
Qed.

(** ** Words of a page *)
Definition put_page (v : Z) (d : page) (m : kmem) : kmem :=
  KMem (km_uselock m) (km_freelist m) (<[v := d]> (km_page m)).
Definition put_entry (t i e : Z) (m : kmem) : kmem :=
  put_page t (set_field (Z.to_nat (8 * i)) 8 e (km_page m t)) m.

Lemma entry_addr_base t i :
  t mod PGSIZE = 0 → 0 ≤ i < 512 → pg_base (entry_addr t i) = t ∧ entry_addr t i mod PGSIZE = 8 * i.
Proof.
  intros Ht Hi. assert (E : entry_addr t i mod PGSIZE = 8 * i).
  { unfold entry_addr, PGSIZE in *. Z.to_euclidean_division_equations; lia. }
  split; [|done]. unfold pg_base. rewrite E. unfold entry_addr. lia.
Qed.

Lemma entry_field m t i :
  t mod PGSIZE = 0 → 0 ≤ i < 512 → entry m t i = field (Z.to_nat (8 * i)) 8 (km_page m t).
Proof. intros Ht Hi. unfold entry, load64. by destruct (entry_addr_base t i Ht Hi) as [-> ->]. Qed.

Lemma store64_entry t i e m c :
  t mod PGSIZE = 0 → 0 ≤ i < 512 → store64 (entry_addr t i) e (m, c) = (put_entry t i e m, c).
Proof. intros Ht Hi. unfold store64. by destruct (entry_addr_base t i Ht Hi) as [-> ->]. Qed.

Lemma entry_put m t i e j :
  length (km_page m t) = Z.to_nat PGSIZE → t mod PGSIZE = 0 → 0 ≤ i < 512 → 0 ≤ j < 512 → 0 ≤ e < 2 ^ 64 →
  entry (put_entry t i e m) t j = if j =? i then e else entry m t j.
Proof.
  intros Hl Ht Hi Hj He. rewrite !entry_field by done. cbn [put_entry put_page km_page].
  rewrite fn_lookup_insert. destruct (Z.eqb_spec j i) as [->|Hne].
  - rewrite field_set_same by (rewrite Hl; unfold PGSIZE; lia). by apply Z.mod_small.
  - apply field_set_other; rewrite ?Hl; unfold PGSIZE; lia.
Qed.

Lemma entry_same m m' t i : t mod PGSIZE = 0 → 0 ≤ i < 512 → km_page m' t = km_page m t → entry m' t i = entry m t i.
Proof. intros Ht Hi E. rewrite !entry_field by done. by rewrite E. Qed.

(** ** Nodes *)
Fixpoint node (m : kmem) (P : Z) (p : list Z) : option Z :=
  match p with
  | [] => Some P
  | i :: p => child m P i ≫= λ t, node m t p
  end.

Lemma node_app m P p q : node m P (p ++ q) = node m P p ≫= λ t, node m t q.
Proof.
  revert P. induction p as [|i p IH]; intros P; [done|]. cbn. destruct (child m P i); [|done]. apply IH.
Qed.

Lemma node_snoc m P p i : node m P (p ++ [i]) = node m P p ≫= λ t, child m t i.
Proof.
  rewrite node_app. destruct (node m P p) as [t|]; [|done]. cbn. by destruct (child m t i).
Qed.

(** The paths of the user half. *)
Definition upath (p : list Z) : Prop :=
  (length p ≤ 4)%nat ∧ Forall (λ i, 0 ≤ i < 512) p ∧ (∀ i, head p = Some i → i < 256).

Lemma upath_app p q : upath (p ++ q) → upath p.
Proof.
  intros (Hl & Hf & Hh). rewrite length_app in Hl. apply Forall_app in Hf as [Hf _].
  split; [lia|]. split; [done|]. intros i Hi. apply Hh. by destruct p.
Qed.

Lemma upath_last p i : upath (p ++ [i]) → 0 ≤ i < 512.
Proof. intros (_ & Hf & _). apply Forall_app in Hf as [_ Hf]. by apply Forall_cons in Hf as [??]. Qed.

(** [l] is the free list and [R] the roots of the page tables. *)
Record vm_rep (m : kmem) (l R : list Z) : Prop := {
  vr_free : free_rep m l;
  vr_nodes : ∀ P p a, P ∈ R → upath p → node m P p = Some a → valid_page a ∧ a ∉ l;
  vr_inj : ∀ P Q p q a, P ∈ R → Q ∈ R → upath p → upath q →
    node m P p = Some a → node m Q q = Some a → P = Q ∧ p = q
}.

(** A page that is neither free nor a node. *)
Definition fresh (m : kmem) (l R : list Z) (v : Z) : Prop :=
  valid_page v ∧ v ∉ l ∧ ∀ Q q, Q ∈ R → upath q → node m Q q ≠ Some v.

(** ** Changing one entry *)
Section entry.
Context (m m' : kmem) (l R : list Z) (P : Z) (p : list Z) (i t : Z).
Hypothesis Hvr : vm_rep m l R.
Hypothesis HP : P ∈ R.
Hypothesis Hp : upath (p ++ [i]).
Hypothesis Ht : node m P p = Some t.
Hypothesis Hentries : ∀ j, 0 ≤ j < 512 → j ≠ i → entry m' t j = entry m t j.
Hypothesis Hpages : ∀ Q q a, Q ∈ R → upath q → (length q < 4)%nat → node m Q q = Some a → a ≠ t →
  km_page m' a = km_page m a.

(** The nodes that are not below the entry stay as they are. *)
Lemma node_other Q q :
  Q ∈ R → upath q → ¬ (Q = P ∧ p ++ [i] `prefix_of` q) → node m' Q q = node m Q q.
Proof.
  intros HQ. induction q as [|j q IH] using rev_ind; intros Hq Hnp; [done|].
  pose proof (upath_app _ _ Hq) as Hq'. pose proof (upath_last _ _ Hq) as Hj.
  rewrite !node_snoc, IH; [|done|intros [-> Hpre]; apply Hnp; split; [done|by apply prefix_app_r]].
  destruct (node m Q q) as [a|] eqn:Ea; [|done]. cbn. unfold child. f_equal.
  destruct (vr_nodes _ _ _ Hvr _ _ _ HQ Hq' Ea) as [Hva _].
  destruct (decide (a = t)) as [->|Hat].
  - destruct (vr_inj _ _ _ Hvr Q P q p t) as [-> ->]; try done; [by eapply upath_app|].
    apply Hentries; [done|]. intros ->. by apply Hnp.
  - apply entry_same; [apply Hva|done|]. eapply Hpages; try done. destruct Hq as (Hl & _).
    rewrite length_app in Hl. cbn in Hl. lia.
Qed.

(** A new node [v] at the entry. *)
Section add.
Context (v : Z) (l' : list Z).
Hypothesis Hv : fresh m l' R v.
Hypothesis Hl' : ∀ x, x ∈ l' → x ∈ l.
Hypothesis Hfree : free_rep m' l'.
Hypothesis Hnone : child m t i = None.
Hypothesis Hnew : child m' t i = Some v.
Hypothesis Hzero : (length p < 3)%nat → ∀ j, 0 ≤ j < 512 → child m' v j = None.

Lemma add_node_at Q q a :
  Q ∈ R → upath q → node m' Q q = Some a ↔ node m Q q = Some a ∨ (Q = P ∧ q = p ++ [i] ∧ a = v).
Proof.
  intros HQ Hq. assert (Hbelow : ∀ r, upath (p ++ [i] ++ r) → node m' P (p ++ [i] ++ r) = if decide (r = []) then Some v else None).
  { intros r Hr. rewrite node_app, (node_other P p); [|done|by eapply upath_app|].
    - rewrite Ht. cbn. rewrite Hnew. cbn. destruct r as [|j r]; [done|]. cbn.
      rewrite Hzero; [done|..].
      + destruct Hr as (Hl & _). rewrite !length_app in Hl. cbn in Hl. lia.
      + rewrite app_assoc in Hr. apply (upath_last (p ++ [i])). apply (upath_app _ r). by rewrite <- app_assoc.
    - intros [_ Hpre%prefix_length]. rewrite length_app in Hpre. cbn in Hpre. lia. }
  assert (Hbefore : ∀ r, node m P (p ++ [i] ++ r) = None).
  { intros r. rewrite node_app, Ht. cbn. by rewrite Hnone. }
  destruct (decide (Q = P ∧ p ++ [i] `prefix_of` q)) as [[-> [r ->]]|Hn].
  - rewrite <- app_assoc in *. rewrite Hbelow, Hbefore by done. destruct (decide (r = [])) as [->|Hr].
    + rewrite app_nil_r. naive_solver.
    + split; [done|]. intros [?|(_ & E & _)]; [done|].
      apply (f_equal length) in E. rewrite !length_app in E. destruct r; [done|]. cbn in E. lia.
  - rewrite node_other by done. split; [by left|]. intros [?|(-> & -> & _)]; [done|].
    exfalso. apply Hn. by split.
Qed.

Lemma add_node : vm_rep m' l' R.
Proof.
  destruct Hv as (Hvv & Hvl & Hvn). split; [done|..].
  - intros Q q a HQ Hq [Ha|(-> & -> & ->)]%add_node_at; [|done..].
    destruct (vr_nodes _ _ _ Hvr _ _ _ HQ Hq Ha). split; [done|]. intros Hin. eauto.
  - intros Q1 Q2 q1 q2 a H1 H2 Hq1 Hq2.
    rewrite !add_node_at by done. intros [Ha|(-> & -> & ->)] [Hb|(-> & -> & E)].
    + by eapply (vr_inj _ _ _ Hvr).
    + subst. by apply Hvn in Ha.
    + by apply Hvn in Hb.
    + done.
Qed.
End add.
End entry.
End tree.
