(* ===== verification/VmSpec.v ===== *)
(** * What the functions of vm.c do to address spaces

    An address space maps the number of a user page to its contents and flags.
    The specifications say how each function changes the address spaces of all
    page tables and how many pages it takes from the free list. *)

From stdpp Require Import functions.
From S2P Require Import Prelude Params Core Kalloc Vm VmTree.

(** User addresses. *)
Definition MAXVA : Z := 2 ^ 47.
Definition path3 (va : Z) : list Z := [PMX va; PDPX va; PDX va].

Lemma index_bound va s : 0 ≤ s → 0 ≤ Z.land (Z.shiftr va s) PXMASK < 512.
Proof.
  intros Hs. change PXMASK with (Z.ones 9). rewrite Z.land_ones by lia.
  apply Z.mod_pos_bound. lia.
Qed.

Lemma index_div va s : 0 ≤ s → Z.land (Z.shiftr va s) PXMASK = (va / 2 ^ s) mod 512.
Proof.
  intros Hs. change PXMASK with (Z.ones 9). rewrite Z.land_ones, Z.shiftr_div_pow2 by lia. done.
Qed.

Lemma path3_upath va : 0 ≤ va < MAXVA → upath (path3 va ++ [PTX va]).
Proof.
  intros Hva. split; [cbn; lia|]. split.
  - repeat constructor; apply index_bound; done.
  - intros i [= <-]. unfold PMX. rewrite index_div by done. unfold PML4XSHIFT, MAXVA in *.
    rewrite Z.mod_small; [|split; [apply Z.div_pos; lia|]]; (apply Z.div_lt_upper_bound; lia).
Qed.

(** The indices determine the number of the page. *)
Lemma path3_inj va wa :
  0 ≤ va < MAXVA → 0 ≤ wa < MAXVA → path3 va ++ [PTX va] = path3 wa ++ [PTX wa] → va / PGSIZE = wa / PGSIZE.
Proof.
  intros Hv Hw [= E1 E2 E3 E4]. unfold PMX, PDPX, PDX, PTX in *. rewrite !index_div in * by done.
  unfold PML4XSHIFT, PDPXSHIFT, PDXSHIFT, PTXSHIFT, MAXVA, PGSIZE in *.
  assert (Hx : ∀ x, 0 ≤ x < 2 ^ 47 → x / 4096 =
    (((x / 2 ^ 39) mod 512 * 512 + (x / 2 ^ 30) mod 512) * 512 + (x / 2 ^ 21) mod 512) * 512 + (x / 2 ^ 12) mod 512).
  { intros x Hx. change (2 ^ 39) with (4096 * 512 * 512 * 512). change (2 ^ 30) with (4096 * 512 * 512).
    change (2 ^ 21) with (4096 * 512). change (2 ^ 12) with 4096. rewrite <- !Z.div_div by lia.
    set (y := x / 4096). assert (0 ≤ y < 2 ^ 35) by (unfold y; Z.to_euclidean_division_equations; lia).
    Z.to_euclidean_division_equations; lia. }
  rewrite (Hx va), (Hx wa) by done. by rewrite E1, E2, E3, E4.
Qed.

Lemma path3_page va wa : va / PGSIZE = wa / PGSIZE → path3 va = path3 wa ∧ PTX va = PTX wa.
Proof.
  intros E. unfold path3, PMX, PDPX, PDX, PTX. rewrite !index_div by done.
  unfold PML4XSHIFT, PDPXSHIFT, PDXSHIFT, PTXSHIFT, PGSIZE in *.
  change (2 ^ 39) with (4096 * 2 ^ 27). change (2 ^ 30) with (4096 * 2 ^ 18).
  change (2 ^ 21) with (4096 * 2 ^ 9). change (2 ^ 12) with 4096.
  rewrite <- !Z.div_div by lia. by rewrite E.
Qed.

Section spec.
Variable kend : Z.
Hypothesis Hend : KERNBASE < kend ≤ KERNBASE + PHYSTOP.

Local Abbreviation valid_page := (valid_page kend).
Local Abbreviation free_rep := (free_rep kend).
Local Abbreviation vm_rep := (vm_rep kend).
Local Abbreviation fresh := (fresh kend).

(** ** Address spaces *)
Definition leaf (m : kmem) (P : Z) (p : list Z) (i : Z) : Z :=
  match node m P p with Some t => entry m t i | None => 0 end.

Definition pte (m : kmem) (P va : Z) : Z := leaf m P (path3 va) (PTX va).

(** The user page that holds address [va]: its contents and flags. *)
Definition upage (m : kmem) (P va : Z) : option (page * Z) :=
  (λ a, (km_page m a, PTE_FLAGS (pte m P va))) <$> present (pte m P va).

Lemma leaf_node m P p i : present (leaf m P p i) = node m P (p ++ [i]).
Proof. rewrite node_snoc. unfold leaf. destruct (node m P p); done. Qed.

Lemma pte_node m P va : present (pte m P va) = node m P (path3 va ++ [PTX va]).
Proof. apply leaf_node. Qed.

(** ** New tables *)

(** From [m] with free list [l] to [m'] with [l'], at most [k] new tables. *)
Record tables (k : nat) (R : list Z) (m : kmem) (l : list Z) (m' : kmem) (l' : list Z) : Prop := {
  tb_list : ∃ u, l = u ++ l' ∧ (length u ≤ k)%nat;
  tb_node : ∀ Q q a, Q ∈ R → upath q → node m Q q = Some a → node m' Q q = Some a;
  tb_new : ∀ Q q a, Q ∈ R → upath q → node m' Q q = Some a → node m Q q = Some a ∨ a ∈ l;
  tb_leaf : ∀ Q q i, Q ∈ R → upath (q ++ [i]) → length q = 3%nat → leaf m' Q q i = leaf m Q q i;
  tb_page : ∀ v, v ∉ l → (∀ Q q, Q ∈ R → upath q → (length q < 4)%nat → node m Q q ≠ Some v) →
    km_page m' v = km_page m v
}.

Lemma tables_refl R m l : tables 0 R m l m l.
Proof. split; try done; [by exists []|by left]. Qed.

Lemma tables_trans k1 k2 R m l m1 l1 m2 l2 :
  tables k1 R m l m1 l1 → tables k2 R m1 l1 m2 l2 → tables (k1 + k2) R m l m2 l2.
Proof.
  intros [(u1 & -> & Hu1) N1 W1 L1 G1] [(u2 & -> & Hu2) N2 W2 L2 G2].
  assert (Hin : ∀ x, x ∈ u2 ++ l2 → x ∈ u1 ++ u2 ++ l2) by (intros x Hx; apply elem_of_app; by right).
  split.
  - exists (u1 ++ u2). rewrite <- app_assoc, length_app. split; [done|lia].
  - eauto.
  - intros Q q a HQ Hq Ha. destruct (W2 Q q a HQ Hq Ha) as [H|H]; [|by auto]. by apply W1.
  - intros Q q i HQ Hq Hl. by rewrite L2, L1.
  - intros v Hv Ht. rewrite G2, G1; [done|done|done|by auto|].
    intros Q q HQ Hq Hl Hn. destruct (W1 Q q v HQ Hq Hn) as [H|H]; [|done]. by eapply Ht.
Qed.

Lemma tables_mono k k' R m l m' l' : (k ≤ k')%nat → tables k R m l m' l' → tables k' R m l m' l'.
Proof. intros Hk [(u & ? & ?) ????]. split; try done. exists u. split; [done|lia]. Qed.

Lemma tables_fresh k R m l m' l' v : tables k R m l m' l' → fresh m l R v → fresh m' l' R v.
Proof.
  intros [(u & -> & _) _ W _ _] (Hv & Hl & Hn). split; [done|]. split.
  - intros H. apply Hl. apply elem_of_app. by right.
  - intros Q q HQ Hq Ha. destruct (W Q q v HQ Hq Ha); [by eapply Hn|done].
Qed.

Lemma tables_upage k R m l m' l' Q va :
  vm_rep m l R → tables k R m l m' l' → Q ∈ R → 0 ≤ va < MAXVA → upage m' Q va = upage m Q va.
Proof.
  intros Hvr Ht HQ Hva. pose proof (path3_upath va Hva) as Hup.
  unfold upage, pte. rewrite (tb_leaf _ _ _ _ _ _ Ht) by done.
  rewrite leaf_node. destruct (node m Q (path3 va ++ [PTX va])) as [a|] eqn:Ea; [|done]. cbn.
  rewrite (tb_page _ _ _ _ _ _ Ht a); [done|by eapply vr_nodes|].
  intros Q' q HQ' Hq Hl Hn. destruct (vr_inj _ _ _ _ Hvr Q Q' _ q a HQ HQ' Hup Hq Ea Hn) as [_ <-].
  cbn in Hl. lia.
Qed.

(** ** walkpgdir *)
Lemma walk_level_lookup t i m c : walk_level t i false (m, c) = Done (child m t i) (m, c).
Proof.
  unfold walk_level, bind, gets, child, present. cbn [fst]. by destruct (tst _ PTE_P).
Qed.

Lemma walkpgdir_lookup P va m c :
  walkpgdir P va false (m, c) =
  Done ((λ t, entry_addr t (PTX va)) <$> node m P (path3 va)) (m, c).
Proof.
  unfold walkpgdir, path3. rewrite (bind_done _ _ _ _ _ (walk_level_lookup _ _ _ _)). cbn [node].
  destruct (child m P (PMX va)) as [t1|]; [|done]. cbn [mbind option_bind].
  rewrite (bind_done _ _ _ _ _ (walk_level_lookup _ _ _ _)).
  destruct (child m t1 (PDPX va)) as [t2|]; [|done]. cbn [mbind option_bind].
  rewrite (bind_done _ _ _ _ _ (walk_level_lookup _ _ _ _)).
  by destruct (child m t2 (PDX va)) as [t3|].
Qed.

Lemma walk_level_present t i alloc m c t' : child m t i = Some t' → walk_level t i alloc (m, c) = Done (Some t') (m, c).
Proof.
  unfold child, present. intros E. unfold walk_level, bind, gets. cbn [fst].
  destruct (tst _ PTE_P); [|done]. by injection E as ->.
Qed.

(** ** The allocator and the tree *)
Lemma free_rep_put m l v d :
  free_rep m l → v ∉ l → length d = Z.to_nat PGSIZE → Forall is_byte d → free_rep (put_page v d m) l.
Proof.
  intros [Hc Hn Hv Hl Hb] Hvl Hd Hdb. split; cbn; try done.
  - apply (chain_frame kend m); [|done|done]. intros q Hq. cbn. apply fn_lookup_insert_ne. by intros ->.
  - intros x. destruct (decide (v = x)) as [<-|]; [by rewrite fn_lookup_insert|by rewrite fn_lookup_insert_ne].
  - intros x. destruct (decide (v = x)) as [<-|]; [by rewrite fn_lookup_insert|by rewrite fn_lookup_insert_ne].
Qed.

Lemma free_rep_put_entry m l t i e :
  free_rep m l → t ∉ l → 0 ≤ i < 512 → free_rep (put_entry t i e m) l.
Proof.
  intros Hf Ht Hi. apply free_rep_put; [done|done|..].
  - rewrite length_set_field; [apply Hf|]. rewrite (fr_len _ _ _ Hf). unfold PGSIZE. lia.
  - apply set_field_bytes, Hf.
Qed.

Lemma node_pages m m' P p : (∀ v, km_page m' v = km_page m v) → node m' P p = node m P p.
Proof.
  intros E. revert P. induction p as [|i p IH]; intros P; [done|]. cbn.
  unfold child, entry, load64. rewrite E. destruct (present _); [|done]. apply IH.
Qed.

(** The allocator after kalloc has returned [r]. *)
Definition popped (m : kmem) (r : Z) : kmem := KMem (km_uselock m) (load64 m r) (km_page m).

Lemma vm_kalloc m c r l R :
  kquiet c → vm_rep m (r :: l) R →
  kalloc (m, c) = Done r (popped m r, c) ∧ r ≠ 0 ∧ vm_rep (popped m r) l R ∧ fresh (popped m r) l R r.
Proof.
  intros Hq [Hf Hn Hi]. destruct (kalloc_spec kend Hend m c r l Hq Hf) as [E Hf'].
  pose proof (fr_valid _ _ _ Hf) as Hv. apply Forall_cons in Hv as [Hvr _].
  pose proof (fr_nodup _ _ _ Hf) as Hnd. apply NoDup_cons in Hnd as [Hrl _].
  split; [exact E|]. split; [destruct Hvr as (_ & ? & _); unfold KERNBASE in *; lia|]. split.
  - split; [exact Hf'|..].
    + intros P p a HP Hp Ha. rewrite (node_pages m (popped m r)) in Ha by done. destruct (Hn P p a HP Hp Ha) as [? Hal].
      split; [done|]. intros Hin. apply Hal. by right.
    + intros P Q p q a ????. rewrite !(node_pages m (popped m r)) by done. by apply Hi.
  - split; [done|]. split; [done|]. intros Q q HQ Hq' Ha. rewrite (node_pages m (popped m r)) in Ha by done.
    destruct (Hn Q q r HQ Hq' Ha) as [_ H]. apply H. by left.
Qed.

Definition zero_page : page := replicate (Z.to_nat PGSIZE) 0.
Lemma zero_page_ok : length zero_page = Z.to_nat PGSIZE ∧ Forall is_byte zero_page.
Proof. split; [apply length_replicate|]. apply Forall_replicate. unfold is_byte. lia. Qed.

Lemma entry_zero m t i : t mod PGSIZE = 0 → 0 ≤ i < 512 → km_page m t = zero_page → entry m t i = 0.
Proof.
  intros Ht Hi E. rewrite entry_field, E by done. unfold field, slice, zero_page.
  assert (H : ∀ n k, le_get (take n (replicate k 0)) = 0).
  { intros n. induction n as [|n IH]; intros [|k]; try done. cbn. by rewrite IH. }
  by rewrite drop_replicate, H.
Qed.

(** *** A node at an empty entry *)
Section map_entry.
Context (m : kmem) (l R : list Z) (P : Z) (p : list Z) (i t v e : Z).
Hypothesis Hvr : vm_rep m l R.
Hypothesis HP : P ∈ R.
Hypothesis Hp : upath (p ++ [i]).
Hypothesis Ht : node m P p = Some t.
Hypothesis Hnone : child m t i = None.
Hypothesis Hv : fresh m l R v.
Hypothesis He : 0 ≤ e < 2 ^ 64.
Hypothesis Hpe : present e = Some v.

Local Abbreviation m' := (put_entry t i e m).

Lemma map_valid : valid_page t ∧ t ∉ l ∧ 0 ≤ i < 512.
Proof.
  destruct (vr_nodes _ _ _ _ Hvr P p t) as [H1 H2]; [done|by eapply upath_app|done|].
  split; [done|]. split; [done|]. by eapply upath_last.
Qed.

Lemma map_entries j : 0 ≤ j < 512 → entry m' t j = if j =? i then e else entry m t j.
Proof.
  intros Hj. destruct map_valid as (Ht1 & Ht2 & Hi). apply entry_put; try done; [|apply Ht1].
  apply (fr_len _ _ _ (vr_free _ _ _ _ Hvr)).
Qed.

Lemma map_page x : x ≠ t → km_page m' x = km_page m x.
Proof. intros Hx. cbn. by apply fn_lookup_insert_ne. Qed.

Lemma map_child_zero : (length p < 3)%nat → km_page m v = zero_page →
  ∀ j, 0 ≤ j < 512 → child m' v j = None.
Proof.
  intros _ Hz j Hj. assert (Hvt : v ≠ t).
  { intros ->. destruct Hv as (_ & _ & H). apply (H P p); [done| |done]. by eapply upath_app. }
  unfold child. rewrite (entry_zero _ v); [done|apply Hv|done|]. by rewrite map_page.
Qed.

Lemma map_node_rep :
  ((length p < 3)%nat → km_page m v = zero_page) →
  vm_rep m' l R ∧
  ∀ Q q a, Q ∈ R → upath q → node m' Q q = Some a ↔ node m Q q = Some a ∨ (Q = P ∧ q = p ++ [i] ∧ a = v).
Proof.
  intros Hz. destruct map_valid as (Ht1 & Ht2 & Hi).
  assert (H1 : ∀ j, 0 ≤ j < 512 → j ≠ i → entry m' t j = entry m t j).
  { intros j Hj Hne. rewrite map_entries by done. by rewrite (proj2 (Z.eqb_neq j i)). }
  assert (H2 : ∀ Q q a, Q ∈ R → upath q → (length q < 4)%nat → node m Q q = Some a → a ≠ t → km_page m' a = km_page m a).
  { intros. by apply map_page. }
  assert (H3 : free_rep m' l) by (apply free_rep_put_entry; [apply Hvr|done|done]).
  assert (H4 : child m' t i = Some v).
  { unfold child. rewrite map_entries by done. by rewrite Z.eqb_refl. }
  split.
  - eapply (add_node kend Hend m m' l R P p i t); try done. intros. apply map_child_zero; auto.
  - intros Q q a HQ Hq. eapply (add_node_at kend Hend m m' l R P p i t); try done.
    intros. apply map_child_zero; auto.
Qed.
End map_entry.

(** *** One new table *)
Definition table_flags : Z := Z.lor (Z.lor PTE_P PTE_W) PTE_U.

Lemma table_pte t : Z.lor (Z.lor (Z.lor (V2P t) PTE_P) PTE_W) PTE_U = mkpte t table_flags.
Proof. unfold mkpte, table_flags. by rewrite !Z.lor_assoc. Qed.

(** The memory with the fresh page [r] zeroed and linked at entry [i] of [t]. *)
Definition linked (m : kmem) (t i r e : Z) : kmem := put_entry t i e (put_page r zero_page m).

Lemma fresh_put_page m l R r d v :
  fresh m l R r → vm_rep m l R → length d = Z.to_nat PGSIZE → Forall is_byte d →
  vm_rep (put_page r d m) l R ∧
  (∀ Q q, Q ∈ R → upath q → node (put_page r d m) Q q = node m Q q) ∧
  (fresh m l R v → fresh (put_page r d m) l R v).
Proof.
  intros (Hr & Hrl & Hrn) Hvr Hd Hdb.
  assert (Hnode : ∀ Q q, Q ∈ R → upath q → node (put_page r d m) Q q = node m Q q).
  { intros Q q HQ. induction q as [|j q IH] using rev_ind; intros Hq; [done|].
    pose proof (upath_app _ _ Hq) as Hq'. rewrite !node_snoc, IH by done.
    destruct (node m Q q) as [a|] eqn:Ea; [|done]. cbn. unfold child. f_equal.
    apply entry_same; [by eapply vr_nodes|by eapply upath_last|].
    cbn. apply fn_lookup_insert_ne. intros <-. by eapply Hrn. }
  split; [|split; [done|]].
  - destruct Hvr as [Hf Hn Hi]. split.
    + by apply free_rep_put.
    + intros P p a HP Hp. rewrite Hnode by done. by apply Hn.
    + intros P Q p q a HP HQ Hp Hq. rewrite !Hnode by done. by apply Hi.
  - intros (Hv & Hvl & Hvn). split; [done|]. split; [done|]. intros Q q HQ Hq. rewrite Hnode by done. by apply Hvn.
Qed.

Lemma leaf_same m m' Q q i :
  node m' Q q = node m Q q → (∀ t, node m Q q = Some t → entry m' t i = entry m t i) →
  leaf m' Q q i = leaf m Q q i.
Proof. intros En Ee. unfold leaf. rewrite En. destruct (node m Q q); [by apply Ee|done]. Qed.

Section link_table.
Context (m : kmem) (l R : list Z) (P : Z) (p : list Z) (i t r : Z).
Hypothesis Hvr : vm_rep m l R.
Hypothesis HP : P ∈ R.
Hypothesis Hp : upath (p ++ [i]).
Hypothesis Ht : node m P p = Some t.
Hypothesis Hlen : (length p < 3)%nat.
Hypothesis Hnone : child m t i = None.
Hypothesis Hr : fresh m l R r.

Local Abbreviation m1 := (put_page r zero_page m).
Local Abbreviation m' := (linked m t i r (mkpte r table_flags)).

Lemma link_distinct : valid_page t ∧ t ∉ l ∧ t ≠ r ∧ 0 ≤ i < 512.
Proof.
  destruct (map_valid m l R P p i t Hvr HP Hp Ht) as (H1 & H2 & H3). split; [done|]. split; [done|].
  split; [|done]. intros ->. destruct Hr as (_ & _ & H). apply (H P p); [done| |done]. by eapply upath_app.
Qed.

Lemma link_page v : v ≠ t → v ≠ r → km_page m' v = km_page m v.
Proof. intros Hvt Hv. cbn. by rewrite !fn_lookup_insert_ne. Qed.

Lemma link_rep :
  vm_rep m' l R ∧
  ∀ Q q a, Q ∈ R → upath q → node m' Q q = Some a ↔ node m Q q = Some a ∨ (Q = P ∧ q = p ++ [i] ∧ a = r).
Proof.
  destruct link_distinct as (Htv & Htl & Htr & Hi).
  destruct (fresh_put_page m l R r zero_page r Hr Hvr (proj1 zero_page_ok) (proj2 zero_page_ok)) as (Hvr1 & Hn1 & Hr1).
  assert (Ht1 : node m1 P p = Some t) by (rewrite Hn1; [done|done|by eapply upath_app]).
  assert (Hti : child m1 t i = None).
  { unfold child. rewrite (entry_same m); [done|apply Htv|done|cbn; by apply fn_lookup_insert_ne]. }
  destruct (map_node_rep m1 l R P p i t r (mkpte r table_flags) Hvr1 HP Hp Ht1 Hti (Hr1 Hr)) as [H1 H2].
  - apply (mkpte_bound kend Hend); [apply Hr|done].
  - apply (present_mkpte kend Hend); [apply Hr|done|done].
  - intros _. cbn. apply fn_lookup_insert.
  - split; [done|]. intros Q q a HQ Hq. rewrite <- (Hn1 Q q) by done. by apply H2.
Qed.

Lemma link_leaf Q q j :
  Q ∈ R → upath (q ++ [j]) → length q = 3%nat → leaf m' Q q j = leaf m Q q j.
Proof.
  intros HQ Hq Hl. destruct link_rep as [Hvr' Hn]. pose proof (upath_app _ _ Hq) as Hq'.
  pose proof (upath_last _ _ Hq) as Hj. destruct link_distinct as (Htv & Htl & Htr & Hi).
  destruct (decide (Q = P ∧ q = p ++ [i])) as [[-> ->]|Hne].
  - unfold leaf. rewrite (proj2 (Hn P (p ++ [i]) r HP Hp)) by (right; done).
    rewrite node_snoc, Ht. cbn [mbind option_bind]. rewrite Hnone.
    apply entry_zero; [apply Hr|done|]. cbn. rewrite fn_lookup_insert_ne by done. apply fn_lookup_insert.
  - apply leaf_same.
    + apply option_eq. intros a. rewrite Hn by done. naive_solver.
    + intros a Ha. apply entry_same; [by eapply (vr_nodes _ _ _ _ Hvr)|done|]. apply link_page.
      * intros ->. destruct (vr_inj _ _ _ _ Hvr Q P q p t) as [_ ->]; try done; [by eapply upath_app|lia].
      * intros ->. destruct Hr as (_ & _ & H). by apply (H Q q).
Qed.
End link_table.

(** walkpgdir at one level, with a page at hand for a new table. *)
Lemma walk_level_alloc m c l R P p i t :
  kquiet c → vm_rep m l R → P ∈ R → upath (p ++ [i]) → (length p < 3)%nat → node m P p = Some t → l ≠ [] →
  ∃ t' m' l', walk_level t i true (m, c) = Done (Some t') (m', c) ∧ vm_rep m' l' R ∧
    tables 1 R m l m' l' ∧ node m' P (p ++ [i]) = Some t'.
Proof.
  intros Hq Hvr HP Hp Hlen Ht Hl. destruct (child m t i) as [t'|] eqn:Ec.
  { exists t', m, l. rewrite (walk_level_present _ _ _ _ _ _ Ec). repeat (split; [done|]).
    split; [apply (tables_mono 0); [lia|apply tables_refl]|]. rewrite node_snoc, Ht. done. }
  destruct l as [|r l]; [done|]. destruct (vm_kalloc m c r l R Hq Hvr) as (E & Hr0 & Hvr1 & Hr).
  set (m1 := popped m r) in *.
  assert (Hnp : ∀ Q q, node m1 Q q = node m Q q) by (intros; by apply node_pages).
  assert (Ht1 : node m1 P p = Some t) by (by rewrite Hnp).
  destruct (link_rep m1 l R P p i t r Hvr1 HP Hp Ht1 Ec Hr) as [Hvr' Hn].
  destruct (link_distinct m1 l R P p i t r Hvr1 HP Hp Ht1 Ec Hr) as (Htv & Htl & Htr & Hi).
  exists r, (linked m1 t i r (mkpte r table_flags)), l. split; [|split; [done|split]].
  - unfold walk_level, bind at 1, gets. cbn [fst]. unfold child, present in Ec.
    destruct (tst (entry m t i) PTE_P); [done|]. cbn [negb].
    rewrite (bind_done _ _ _ _ _ E). rewrite (proj2 (Z.eqb_neq _ _)) by done.
    unfold bind, modify, ret. rewrite table_pte. unfold memset_page, set_page. cbn [fst snd].
    rewrite store64_entry by (done || apply Htv). done.
  - split.
    + by exists [r].
    + intros Q q a HQ Hq' Ha. apply Hn; [done|done|]. left. by rewrite Hnp.
    + intros Q q a HQ Hq' Ha. apply Hn in Ha as [Ha|(_ & _ & ->)]; [left; by rewrite <- Hnp|right; by left|done|done].
    + intros Q q j HQ Hq' Hl3. rewrite (link_leaf m1 l R P p i t r) by done.
      apply leaf_same; [done|]. intros a _. done.
    + intros v Hv Hnt. rewrite link_page; [done| |].
      * intros ->. apply (Hnt P p); [done|by eapply upath_app|lia|by rewrite <- Hnp].
      * intros ->. apply Hv. by left.
  - apply Hn; [done|done|]. by right.
Qed.

Lemma tables_length k R m l m' l' : tables k R m l m' l' → (length l ≤ k + length l')%nat.
Proof. intros [(u & -> & Hu) _ _ _ _]. rewrite length_app. lia. Qed.

(** walkpgdir with three pages at hand. *)
Lemma walkpgdir_alloc m c l R P va :
  kquiet c → vm_rep m l R → P ∈ R → 0 ≤ va < MAXVA → (3 ≤ length l)%nat →
  ∃ t m' l', walkpgdir P va true (m, c) = Done (Some (entry_addr t (PTX va))) (m', c) ∧
    vm_rep m' l' R ∧ tables 3 R m l m' l' ∧ node m' P (path3 va) = Some t.
Proof.
  intros Hq Hvr HP Hva Hl. pose proof (path3_upath va Hva) as Hup.
  pose proof (upath_app [PMX va] [PDPX va; PDX va; PTX va] Hup) as Hup1.
  pose proof (upath_app [PMX va; PDPX va] [PDX va; PTX va] Hup) as Hup2.
  pose proof (upath_app (path3 va) [PTX va] Hup) as Hup3.
  destruct (walk_level_alloc m c l R P [] (PMX va) P Hq Hvr HP Hup1) as (t1 & m1 & l1 & E1 & Hvr1 & T1 & N1);
    [cbn; lia|done|intros ->; cbn in Hl; lia|].
  pose proof (tables_length _ _ _ _ _ _ T1) as L1.
  destruct (walk_level_alloc m1 c l1 R P [PMX va] (PDPX va) t1 Hq Hvr1 HP Hup2) as (t2 & m2 & l2 & E2 & Hvr2 & T2 & N2);
    [cbn; lia|done|intros ->; cbn in L1; lia|].
  pose proof (tables_length _ _ _ _ _ _ T2) as L2.
  destruct (walk_level_alloc m2 c l2 R P [PMX va; PDPX va] (PDX va) t2 Hq Hvr2 HP Hup3) as (t3 & m3 & l3 & E3 & Hvr3 & T3 & N3);
    [cbn; lia|done|intros ->; cbn in L2; lia|].
  exists t3, m3, l3. split; [|split; [done|split; [|done]]].
  - unfold walkpgdir. rewrite (bind_done _ _ _ _ _ E1), (bind_done _ _ _ _ _ E2), (bind_done _ _ _ _ _ E3). done.
  - apply (tables_trans 1 2 _ _ _ _ _ _ _ T1). by apply (tables_trans 1 1 _ _ _ _ _ _ _ T2).
Qed.
End spec.
