(* ===== verification/VmUser.v ===== *)
(** * User address spaces: mapping, growing, shrinking and copying *)

From stdpp Require Import functions.
From S2P Require Import Prelude Params Devices Core Kalloc Vm VmTree VmSpec.

Section user.
Variable kend : Z.
Hypothesis Hend : KERNBASE < kend ≤ KERNBASE + PHYSTOP.

Local Abbreviation valid_page := (valid_page kend).
Local Abbreviation free_rep := (free_rep kend).
Local Abbreviation vm_rep := (vm_rep kend).
Local Abbreviation fresh := (fresh kend).

(** The pages that belong to others stay theirs and keep their contents. *)
Definition others (R : list Z) (m : kmem) (l : list Z) (m' : kmem) (l' : list Z) : Prop :=
  ∀ x, fresh m l R x → fresh m' l' R x ∧ km_page m' x = km_page m x.

Lemma others_trans R m l m1 l1 m2 l2 :
  others R m l m1 l1 → others R m1 l1 m2 l2 → others R m l m2 l2.
Proof.
  intros H1 H2 x Hx. destruct (H1 x Hx) as [Hx1 E1]. destruct (H2 x Hx1) as [Hx2 E2].
  split; [done|]. by rewrite E2.
Qed.

Lemma tables_others k R m l m' l' : tables k R m l m' l' → others R m l m' l'.
Proof.
  intros T x Hx. split; [by eapply tables_fresh|]. apply (tb_page _ _ _ _ _ _ T); [apply Hx|].
  intros Q q HQ Hq _. by apply Hx.
Qed.

(** ** The entry of a user page *)
Section leaf.
Context (m : kmem) (l R : list Z) (P va t : Z).
Hypothesis Hvr : vm_rep m l R.
Hypothesis HP : P ∈ R.
Hypothesis Hva : 0 ≤ va < MAXVA.
Hypothesis Ht : node m P (path3 va) = Some t.

Lemma pte_entry : pte m P va = entry m t (PTX va).
Proof. unfold pte, leaf. by rewrite Ht. Qed.

Lemma leaf_table : valid_page t ∧ t ∉ l ∧ 0 ≤ PTX va < 512.
Proof. apply (map_valid kend m l R P (path3 va)); try done. by apply path3_upath. Qed.

(** A page of another address, or of another page table, is not the table. *)
Lemma leaf_not_table Q q a : Q ∈ R → upath q → length q = 4%nat → node m Q q = Some a → a ≠ t.
Proof.
  intros HQ Hq Hl Ha ->. destruct (vr_inj _ _ _ _ Hvr Q P q (path3 va) t) as [_ ->]; try done.
  apply (upath_app _ [PTX va]), path3_upath; done.
Qed.

(** The entries after a change of the one for [va]. *)
Lemma pte_changed m' e Q wa :
  (∀ Q, Q ∈ R → ∀ wa, 0 ≤ wa < MAXVA → node m' Q (path3 wa) = node m Q (path3 wa)) →
  (∀ j, 0 ≤ j < 512 → entry m' t j = if j =? PTX va then e else entry m t j) →
  (∀ Q q a, Q ∈ R → upath q → length q = 3%nat → node m Q q = Some a → a ≠ t → km_page m' a = km_page m a) →
  Q ∈ R → 0 ≤ wa < MAXVA →
  pte m' Q wa = if decide (Q = P ∧ wa / PGSIZE = va / PGSIZE) then e else pte m Q wa.
Proof.
  intros Hn He Hpg HQ Hwa. pose proof (path3_upath wa Hwa) as Hup. pose proof (upath_app _ _ Hup) as Hup3.
  destruct (decide (Q = P ∧ wa / PGSIZE = va / PGSIZE)) as [[-> Hpage]|Hne].
  - unfold pte, leaf. destruct (path3_page wa va Hpage) as [Ep Ex]. rewrite Hn, Ep, Ht by done.
    rewrite He by (rewrite Ex; apply leaf_table). by rewrite Ex, Z.eqb_refl.
  - unfold pte. apply leaf_same; [by apply Hn|]. intros a Ha.
    destruct (decide (a = t)) as [->|Hat].
    + destruct (vr_inj _ _ _ _ Hvr Q P (path3 wa) (path3 va) t) as [-> Ep]; try done.
      { apply (upath_app _ [PTX va]), path3_upath; done. }
      rewrite He by (by eapply upath_last). destruct (Z.eqb_spec (PTX wa) (PTX va)) as [Ex|]; [|done].
      exfalso. apply Hne. split; [done|]. apply path3_inj; [done|done|]. by rewrite Ep, Ex.
    + apply entry_same; [by eapply (vr_nodes _ _ _ _ Hvr)|by eapply upath_last|]. by eapply Hpg.
Qed.

(** ** Mapping *)
Lemma map_leaf v e :
  present (pte m P va) = None → fresh m l R v → 0 ≤ e < 2 ^ 64 → present e = Some v →
  let m' := put_entry t (PTX va) e m in
  vm_rep m' l R ∧
  (∀ Q wa, Q ∈ R → 0 ≤ wa < MAXVA → upage m' Q wa =
     if decide (Q = P ∧ wa / PGSIZE = va / PGSIZE) then Some (km_page m v, PTE_FLAGS e) else upage m Q wa) ∧
  (∀ x, fresh m l R x → x ≠ v → fresh m' l R x ∧ km_page m' x = km_page m x) ∧
  node m' P (path3 va ++ [PTX va]) = Some v.
Proof.
  intros Hnone Hv He Hpe m'. destruct leaf_table as (Htv & Htl & Hi).
  pose proof (path3_upath va Hva) as Hup. rewrite pte_entry in Hnone.
  destruct (map_node_rep kend Hend m l R P (path3 va) (PTX va) t v e Hvr HP Hup Ht Hnone Hv He Hpe) as [Hvr' Hn];
    [cbn; lia|]. fold m' in Hvr', Hn.
  assert (Hent : ∀ j, 0 ≤ j < 512 → entry m' t j = if j =? PTX va then e else entry m t j).
  { intros j Hj. by apply (map_entries kend m l R P (path3 va)). }
  assert (Hpg : ∀ x, x ≠ t → km_page m' x = km_page m x) by (intros x Hx; by apply map_page).
  assert (Hn3 : ∀ Q, Q ∈ R → ∀ wa, 0 ≤ wa < MAXVA → node m' Q (path3 wa) = node m Q (path3 wa)).
  { intros Q HQ wa Hwa. apply option_eq. intros a.
    rewrite Hn by (done || (apply (upath_app _ [PTX wa]), path3_upath; done)). naive_solver. }
  split; [done|]. split; [|split; [|by apply Hn; [..|right]]].
  - intros Q wa HQ Hwa. unfold upage. rewrite (pte_changed m' e) by (try done; intros; by apply Hpg).
    destruct (decide _) as [_|Hne].
    + rewrite Hpe. cbn. f_equal. f_equal. apply Hpg. intros ->. destruct Hv as (_ & _ & H).
      by apply (H P (path3 va)); [|eapply upath_app|].
    + rewrite pte_node. destruct (node m Q _) as [a|] eqn:Ea; [|done]. cbn. f_equal. f_equal.
      apply Hpg. apply (leaf_not_table Q (path3 wa ++ [PTX wa])); try done. by apply path3_upath.
  - intros x (Hx & Hxl & Hxn) Hxv. split.
    + split; [done|]. split; [done|]. intros Q q HQ Hq Ha. apply Hn in Ha as [Ha|(_ & _ & ->)]; [by eapply Hxn|done..].
    + apply Hpg. intros ->. by eapply (Hxn P (path3 va)); [|eapply upath_app|].
Qed.
End leaf.

Lemma lor_perm perm : 0 ≤ perm < PGSIZE → 0 ≤ Z.lor perm PTE_P < PGSIZE.
Proof.
  intros Hperm. split; [apply Z.lor_nonneg; unfold PTE_P; lia|]. change PGSIZE with (2 ^ 12) in *.
  apply Z.log2_lt_cancel. rewrite Z.log2_lor, Z.log2_pow2 by (unfold PTE_P; lia).
  apply Z.max_lub_lt; [|done]. destruct (decide (perm = 0)) as [->|]; [done|]. apply Z.log2_lt_pow2; lia.
Qed.

(** mappages of one page, with three pages at hand for tables. *)
Lemma mappages_page m c l R P va v perm :
  kquiet c → vm_rep m l R → P ∈ R → 0 ≤ va < MAXVA → va mod PGSIZE = 0 → (3 ≤ length l)%nat →
  present (pte m P va) = None → fresh m l R v → 0 ≤ perm < PGSIZE →
  ∃ m' l', mappages P va PGSIZE (V2P v) perm (m, c) = Done 0 (m', c) ∧ vm_rep m' l' R ∧
    (∃ u, l = u ++ l' ∧ (length u ≤ 3)%nat) ∧
    (∀ Q wa, Q ∈ R → 0 ≤ wa < MAXVA → upage m' Q wa =
       if decide (Q = P ∧ wa / PGSIZE = va / PGSIZE) then Some (km_page m v, Z.lor perm PTE_P) else upage m Q wa) ∧
    (∀ x, fresh m l R x → x ≠ v → fresh m' l' R x ∧ km_page m' x = km_page m x) ∧
    node m' P (path3 va ++ [PTX va]) = Some v ∧ km_page m' v = km_page m v.
Proof.
  intros Hq Hvr HP Hva Hal Hl Hnone Hv Hperm.
  pose proof (lor_perm perm Hperm) as Hf.
  destruct (walkpgdir_alloc kend Hend m c l R P va Hq Hvr HP Hva Hl) as (t & m1 & l1 & E & Hvr1 & T & Ht).
  assert (Hpte : pte m1 P va = pte m P va).
  { apply (tb_leaf _ _ _ _ _ _ T); [done|by apply path3_upath|done]. }
  destruct (map_leaf m1 l1 R P va t Hvr1 HP Hva Ht v (mkpte v (Z.lor perm PTE_P))) as (Hvr2 & Hup & Hoth & Hnew).
  { by rewrite Hpte. }
  { by eapply tables_fresh. }
  { apply (mkpte_bound kend Hend); [apply Hv|done]. }
  { apply (present_mkpte kend Hend); [apply Hv|done|]. rewrite <- Z.bit0_odd, Z.lor_spec. apply orb_true_r. }
  destruct (leaf_table m1 l1 R P va t Hvr1 HP Hva Ht) as (Htv & _ & Hi).
  eexists _, l1. split; [|split; [exact Hvr2|split; [apply T|split; [|split; [|split; [exact Hnew|]]]]]].
  - unfold mappages. rewrite !pground_down; [|unfold MAXVA in *; lia|unfold u64; apply Z.mod_pos_bound; lia].
    assert (Elast : u64 (va + PGSIZE - 1) - u64 (va + PGSIZE - 1) mod PGSIZE = va).
    { unfold u64. rewrite (Z.mod_small (va + _ - _)) by (unfold MAXVA, PGSIZE in *; lia).
      unfold PGSIZE in *. Z.to_euclidean_division_equations; lia. }
    rewrite Elast, Hal, Z.sub_0_r, Z.sub_diag. change (Z.to_nat (u64 0 / PGSIZE)) with 0%nat. cbn [mappages_loop].
    rewrite (bind_done _ _ _ _ _ E). unfold bind, gets, modify. cbn [fst snd].
    change (load64 m1 (entry_addr t (PTX va))) with (entry m1 t (PTX va)).
    rewrite <- (pte_entry m1 P va t Ht), Hpte. unfold present in Hnone.
    destruct (tst (pte m P va) PTE_P); [done|]. rewrite Z.eqb_refl, <- Z.lor_assoc.
    by rewrite store64_entry by (done || apply Htv).
  - intros Q wa HQ Hwa. rewrite Hup by done. rewrite (tables_upage kend 3 R m l m1 l1) by done.
    rewrite (proj2 (tables_others _ _ _ _ _ _ T v Hv)).
    rewrite (mkpte_flags kend Hend) by (done || apply Hv). done.
  - intros x Hx Hxv. destruct (tables_others _ _ _ _ _ _ T x Hx) as [Hx1 E1].
    destruct (Hoth x Hx1 Hxv) as [Hx2 E2]. split; [done|]. by rewrite E2.
  - rewrite map_page; [by apply (tables_others _ _ _ _ _ _ T v Hv)|]. intros ->.
    destruct (tables_others _ _ _ _ _ _ T t Hv) as [(_ & _ & H) _]. by apply (H P (path3 va)); [|apply (upath_app _ [PTX va]), path3_upath|].
Qed.

(** ** Taking a page *)
Lemma upage_fresh m l R r d Q wa :
  vm_rep m l R → fresh m l R r → length d = Z.to_nat PGSIZE → Forall is_byte d →
  Q ∈ R → 0 ≤ wa < MAXVA → upage (put_page r d m) Q wa = upage m Q wa.
Proof.
  intros Hvr Hr Hd Hdb HQ Hwa. pose proof (path3_upath wa Hwa) as Hup.
  destruct (fresh_put_page kend m l R r d r Hr Hvr Hd Hdb) as (_ & Hn & _).
  assert (Ep : pte (put_page r d m) Q wa = pte m Q wa).
  { apply leaf_same; [apply Hn; [done|by eapply upath_app]|]. intros t Ht.
    apply entry_same; [eapply (vr_nodes _ _ _ _ Hvr); [exact HQ|by eapply upath_app|done]|by eapply upath_last|].
    cbn. apply fn_lookup_insert_ne. intros <-. destruct Hr as (_ & _ & H). by apply (H Q (path3 wa)); [|eapply upath_app|]. }
  unfold upage. rewrite Ep, pte_node. destruct (node m Q _) as [a|] eqn:Ea; [|done]. cbn.
  rewrite fn_lookup_insert_ne; [done|]. intros <-. destruct Hr as (_ & _ & H). by eapply H.
Qed.

(** kalloc, followed by filling the page with [d]. *)
Lemma take_page m c r l R d :
  kquiet c → vm_rep m (r :: l) R → length d = Z.to_nat PGSIZE → Forall is_byte d →
  let m' := put_page r d (popped m r) in
  kalloc (m, c) = Done r (popped m r, c) ∧ r ≠ 0 ∧ vm_rep m' l R ∧ fresh m' l R r ∧ km_page m' r = d ∧
  (∀ Q wa, Q ∈ R → 0 ≤ wa < MAXVA → upage m' Q wa = upage m Q wa) ∧
  (∀ x, fresh m (r :: l) R x → x ≠ r ∧ fresh m' l R x ∧ km_page m' x = km_page m x).
Proof.
  intros Hq Hvr Hd Hdb m'. destruct (vm_kalloc kend Hend m c r l R Hq Hvr) as (E & Hr0 & Hvr1 & Hr).
  destruct (fresh_put_page kend (popped m r) l R r d r Hr Hvr1 Hd Hdb) as (Hvr2 & Hn & Hr2).
  split; [done|]. split; [done|]. split; [done|]. split; [by apply Hr2|]. split; [cbn; apply fn_lookup_insert|].
  split.
  - intros Q wa HQ Hwa. unfold m'. rewrite (upage_fresh _ l R) by done.
    unfold upage, pte, leaf. rewrite (node_pages m) by done. done.
  - intros x (Hx & Hxl & Hxn). apply not_elem_of_cons in Hxl as [Hxr Hxl]. split; [done|].
    assert (Hx1 : fresh (popped m r) l R x).
    { split; [done|]. split; [done|]. intros Q q. rewrite (node_pages m) by done. apply Hxn. }
    destruct (fresh_put_page kend (popped m r) l R r d x Hr Hvr1 Hd Hdb) as (_ & _ & Hx2).
    split; [by apply Hx2|]. cbn. by apply fn_lookup_insert_ne.
Qed.

(** ** Growing *)

(** Address [wa] is in a page from [a] (aligned) on that starts before [b]. *)
Definition in_pages (a b wa : Z) : Prop := a ≤ wa ∧ wa / PGSIZE * PGSIZE < b.
#[local] Instance in_pages_dec a b wa : Decision (in_pages a b wa).
Proof. apply _. Defined.

Lemma in_pages_step a b wa :
  a mod PGSIZE = 0 → a < b → in_pages a b wa ↔ wa / PGSIZE = a / PGSIZE ∨ in_pages (a + PGSIZE) b wa.
Proof. unfold in_pages, PGSIZE. intros. split; intros; Z.to_euclidean_division_equations; lia. Qed.

Lemma in_pages_first a b wa : a mod PGSIZE = 0 → wa / PGSIZE = a / PGSIZE → ¬ in_pages (a + PGSIZE) b wa.
Proof. unfold in_pages, PGSIZE. intros. Z.to_euclidean_division_equations; lia. Qed.

Lemma upage_present m P wa : upage m P wa = None ↔ present (pte m P wa) = None.
Proof. unfold upage. by destruct (present _). Qed.

Definition user_flags : Z := Z.lor (Z.lor PTE_W PTE_U) PTE_P.

Lemma allocuvm_loop_spec n fuel m c l R P a oldsz newsz :
  kquiet c → vm_rep m l R → P ∈ R → 0 ≤ a → a mod PGSIZE = 0 → newsz ≤ MAXVA →
  newsz - a ≤ PGSIZE * Z.of_nat n → (n ≤ fuel)%nat → (4 * n ≤ length l)%nat →
  (∀ wa, 0 ≤ wa < MAXVA → in_pages a newsz wa → upage m P wa = None) →
  ∃ m' l', allocuvm_loop kend fuel P a oldsz newsz (m, c) = Done newsz (m', c) ∧ vm_rep m' l' R ∧
    (length l ≤ 4 * n + length l')%nat ∧
    (∀ Q wa, Q ∈ R → 0 ≤ wa < MAXVA → upage m' Q wa =
       if decide (Q = P ∧ in_pages a newsz wa) then Some (zero_page, user_flags) else upage m Q wa) ∧
    others R m l m' l'.
Proof.
  intros Hq. revert fuel m l a. induction n as [|n IH]; intros fuel m l a Hvr HP Ha Hal Hmax Hn Hfuel Hl Hun.
  - exists m, l. split; [|split; [done|split; [lia|split]]].
    + destruct fuel; cbn [allocuvm_loop]; by rewrite (proj2 (Z.ltb_ge _ _)) by lia.
    + intros Q wa HQ Hwa. rewrite decide_False; [done|]. intros [_ [H1 H2]].
      unfold PGSIZE in *. Z.to_euclidean_division_equations; lia.
    + intros x Hx. done.
  - destruct (decide (a < newsz)) as [Hlt|Hge].
    2: { destruct (IH fuel m l a) as (m' & l' & E & ? & ? & ? & ?); try done; try (unfold PGSIZE; lia).
         exists m', l'. split; [done|]. split; [done|]. split; [lia|]. done. }
    destruct fuel as [|fuel]; [lia|]. cbn [allocuvm_loop]. rewrite (proj2 (Z.ltb_lt _ _)) by lia.
    destruct l as [|r l]; [cbn in Hl; lia|]. cbn [length] in Hl.
    destruct (take_page m c r l R zero_page Hq Hvr (proj1 zero_page_ok) (proj2 zero_page_ok))
      as (E & Hr0 & Hvr1 & Hr & Hrz & Hup1 & Hoth1). set (m1 := put_page r zero_page (popped m r)) in *.
    assert (Hva : 0 ≤ a < MAXVA) by lia.
    destruct (mappages_page m1 c l R P a r (Z.lor PTE_W PTE_U) Hq Hvr1 HP Hva Hal) as
      (m2 & l2 & E2 & Hvr2 & (u & -> & Hu) & Hup2 & Hoth2 & _); [lia| |done|done|].
    { apply upage_present. rewrite Hup1 by done. apply Hun; [done|]. apply in_pages_step; [done|done|by left]. }
    rewrite length_app in Hl.
    destruct (IH fuel m2 l2 (a + PGSIZE)) as (m' & l' & E3 & Hvr3 & Hl3 & Hup3 & Hoth3); try done; try (unfold PGSIZE in *; lia).
    { unfold PGSIZE in *. Z.to_euclidean_division_equations; lia. }
    { intros wa Hwa Hin. rewrite Hup2 by done. rewrite decide_False.
      - rewrite Hup1 by done. apply Hun; [done|]. apply in_pages_step; [done|done|by right].
      - intros [_ Heq]. by eapply in_pages_first. }
    exists m', l'. split; [|split; [done|split; [cbn [length]; rewrite length_app; lia|split]]].
    + rewrite (bind_done _ _ _ _ _ E). rewrite (proj2 (Z.eqb_neq _ _)) by done.
      unfold bind at 1, modify, memset_page, set_page. cbn [fst snd]. fold m1.
      rewrite (bind_done _ _ _ _ _ E2). cbn [Z.ltb Z.compare].
      replace (u64 (a + PGSIZE)) with (a + PGSIZE); [done|]. unfold u64. rewrite Z.mod_small; [done|].
      unfold MAXVA, PGSIZE in *. lia.
    + intros Q wa HQ Hwa. rewrite Hup3, Hup2, Hup1 by done. rewrite Hrz.
      destruct (decide (Q = P ∧ in_pages (a + PGSIZE) newsz wa)) as [[-> Hin]|Hnin].
      * rewrite decide_True; [done|]. split; [done|]. apply in_pages_step; [done|done|by right].
      * destruct (decide (Q = P ∧ wa / PGSIZE = a / PGSIZE)) as [[-> Heq]|Hne].
        -- rewrite decide_True; [done|]. split; [done|]. apply in_pages_step; [done|done|by left].
        -- rewrite decide_False; [done|]. intros [-> Hin]. apply in_pages_step in Hin as [?|?]; [| |done|done]; tauto.
    + intros x Hx. destruct (Hoth1 x Hx) as (Hxr & Hx1 & E1). destruct (Hoth2 x Hx1 Hxr) as (Hx2 & E2').
      destruct (Hoth3 x Hx2) as (Hx3 & E3'). split; [done|]. by rewrite E3', E2'.
Qed.

(** ** Shrinking *)
Section unmap.
Context (m : kmem) (l R : list Z) (P va t v : Z).
Hypothesis Hvr : vm_rep m l R.
Hypothesis HP : P ∈ R.
Hypothesis Hva : 0 ≤ va < MAXVA.
Hypothesis Ht : node m P (path3 va) = Some t.
Hypothesis Hv : node m P (path3 va ++ [PTX va]) = Some v.

Local Abbreviation m' := (put_entry t (PTX va) 0 (freed v m)).

Lemma unmap_valid : valid_page v ∧ v ∉ l ∧ v ≠ t.
Proof.
  destruct (vr_nodes _ _ _ _ Hvr P _ v HP (path3_upath va Hva) Hv) as [H1 H2].
  split; [done|]. split; [done|]. by apply (leaf_not_table m l R P va t Hvr HP Hva Ht P _ v HP (path3_upath va Hva) eq_refl).
Qed.

Lemma unmap_page x : x ≠ t → x ≠ v → km_page m' x = km_page m x.
Proof. intros Hx Hxv. cbn. by rewrite !fn_lookup_insert_ne. Qed.

Lemma unmap_entry j : 0 ≤ j < 512 → entry m' t j = if j =? PTX va then 0 else entry m t j.
Proof.
  intros Hj. destruct (leaf_table m l R P va t Hvr HP Hva Ht) as (Htv & _ & Hi).
  destruct unmap_valid as (Hvv & _ & Hvt).
  assert (E : km_page (freed v m) t = km_page m t) by (cbn; by rewrite !fn_lookup_insert_ne).
  rewrite entry_put; try done; [|rewrite E; apply (fr_len _ _ _ (vr_free _ _ _ _ Hvr))|apply Htv].
  destruct (j =? PTX va); [done|]. apply entry_same; [apply Htv|done|done].
Qed.

Lemma unmap_node Q q a :
  Q ∈ R → upath q →
  node m' Q q = Some a ↔ node m Q q = Some a ∧ ¬ (Q = P ∧ q = path3 va ++ [PTX va]).
Proof.
  intros HQ Hq. pose proof (path3_upath va Hva) as Hup. destruct unmap_valid as (Hvv & Hvl & Hvt).
  assert (Hoth : ∀ Q q, Q ∈ R → upath q → ¬ (Q = P ∧ path3 va ++ [PTX va] `prefix_of` q) → node m' Q q = node m Q q).
  { intros Q0 q0 HQ0 Hq0 Hn. eapply (node_other kend m m' l R P (path3 va) (PTX va) t); try done.
    - intros j Hj Hne. rewrite unmap_entry by done. by rewrite (proj2 (Z.eqb_neq _ _)).
    - intros Q1 q1 b HQ1 Hq1 Hl1 Hb Hbt. apply unmap_page; [done|]. intros ->.
      destruct (vr_inj _ _ _ _ Hvr Q1 P q1 _ v HQ1 HP Hq1 Hup Hb Hv) as [_ ->]. cbn in Hl1. lia. }
  destruct (decide (Q = P ∧ path3 va ++ [PTX va] `prefix_of` q)) as [[-> [r Er]]|Hn].
  - assert (r = []) as ->.
    { destruct Hq as (Hl & _). apply (f_equal length) in Er. rewrite !length_app in Er. cbn in Er.
      destruct r; [done|]. cbn in Er. lia. }
    rewrite app_nil_r in Er. subst q. split; [|tauto]. intros Ha. exfalso. revert Ha.
    rewrite node_snoc, Hoth; [|done|by eapply upath_app|].
    + rewrite Ht. cbn [mbind option_bind]. unfold child. rewrite unmap_entry by (by eapply upath_last).
      by rewrite Z.eqb_refl.
    + intros [_ Hpre%prefix_length]. cbn in Hpre. lia.
  - rewrite Hoth by done. split; [|tauto]. intros Ha. split; [done|]. intros [-> ->]. apply Hn. by split.
Qed.

Lemma unmap_free : free_rep (freed v m) (v :: l).
Proof.
  destruct unmap_valid as (Hvv & Hvl & _). apply (kfree_spec kend Hend m (Core [] [] None devices0) v l); try done.
  - intros H. by apply elem_of_nil in H.
  - apply Hvr.
Qed.

Lemma unmap_rep : vm_rep m' (v :: l) R.
Proof.
  destruct (leaf_table m l R P va t Hvr HP Hva Ht) as (Htv & Htl & Hi).
  destruct unmap_valid as (Hvv & Hvl & Hvt). pose proof (path3_upath va Hva) as Hup. split.
  - apply (free_rep_put_entry kend); [apply unmap_free| |done]. apply not_elem_of_cons. done.
  - intros Q q a HQ Hq Ha. apply unmap_node in Ha as [Ha Hne]; [|done|done].
    destruct (vr_nodes _ _ _ _ Hvr Q q a HQ Hq Ha) as [??]. split; [done|].
    apply not_elem_of_cons. split; [|done]. intros ->. apply Hne.
    by apply (vr_inj _ _ _ _ Hvr Q P q _ v HQ HP Hq Hup Ha Hv).
  - intros Q1 Q2 q1 q2 a H1 H2 Hq1 Hq2. rewrite !unmap_node by done. intros [Ha _] [Hb _].
    by eapply (vr_inj _ _ _ _ Hvr).
Qed.

Lemma unmap_upage Q wa :
  Q ∈ R → 0 ≤ wa < MAXVA →
  upage m' Q wa = if decide (Q = P ∧ wa / PGSIZE = va / PGSIZE) then None else upage m Q wa.
Proof.
  intros HQ Hwa. pose proof (path3_upath va Hva) as Hup. pose proof (path3_upath wa Hwa) as Hupw.
  destruct unmap_valid as (Hvv & Hvl & Hvt).
  assert (Hpte : pte m' Q wa = if decide (Q = P ∧ wa / PGSIZE = va / PGSIZE) then 0 else pte m Q wa).
  { apply (pte_changed m l R P va t); try done.
    - intros Q0 HQ0 wb Hwb. apply option_eq. intros a.
      rewrite unmap_node by (done || (apply (upath_app _ [PTX wb]), path3_upath; done)).
      split; [tauto|]. intros Ha. split; [done|]. by intros [_ [=]].
    - intros j Hj. by apply unmap_entry.
    - intros Q0 q a HQ0 Hq Hl Ha Hat. apply unmap_page; [done|]. intros ->.
      destruct (vr_inj _ _ _ _ Hvr Q0 P q _ v HQ0 HP Hq Hup Ha Hv) as [_ ->]. cbn in Hl. lia. }
  unfold upage. rewrite Hpte. destruct (decide _) as [_|Hne]; [done|].
  rewrite pte_node. destruct (node m Q _) as [a|] eqn:Ea; [|done]. cbn -[freed]. f_equal. f_equal.
  apply unmap_page.
  - by apply (leaf_not_table m l R P va t Hvr HP Hva Ht Q _ a HQ Hupw eq_refl).
  - intros ->. apply Hne. destruct (vr_inj _ _ _ _ Hvr Q P _ _ v HQ HP Hupw Hup Ea Hv) as [-> E].
    split; [done|]. by apply path3_inj.
Qed.

Lemma unmap_others : others R m l m' (v :: l).
Proof.
  intros x (Hx & Hxl & Hxn). pose proof (path3_upath va Hva) as Hup.
  assert (Hxt : x ≠ t) by (intros ->; by apply (Hxn P (path3 va)); [|eapply upath_app|]).
  assert (Hxv : x ≠ v) by (intros ->; by eapply Hxn).
  split; [|by apply unmap_page]. split; [done|]. split; [by apply not_elem_of_cons|].
  intros Q q HQ Hq Ha. apply unmap_node in Ha as [Ha _]; [|done|done]. by eapply Hxn.
Qed.
End unmap.

Lemma dealloc_page_spec m c l R P a :
  kquiet c → vm_rep m l R → P ∈ R → 0 ≤ a < MAXVA →
  ∃ m' l', dealloc_page kend P a (m, c) = Done tt (m', c) ∧ vm_rep m' l' R ∧
    (∃ u, l' = u ++ l) ∧
    (∀ Q wa, Q ∈ R → 0 ≤ wa < MAXVA → upage m' Q wa =
       if decide (Q = P ∧ wa / PGSIZE = a / PGSIZE) then None else upage m Q wa) ∧
    others R m l m' l'.
Proof.
  intros Hq Hvr HP Ha. unfold dealloc_page. rewrite (bind_done _ _ _ _ _ (walkpgdir_lookup _ _ _ _)).
  assert (Hsame : present (pte m P a) = None → ∀ Q wa, Q ∈ R → 0 ≤ wa < MAXVA →
    upage m Q wa = if decide (Q = P ∧ wa / PGSIZE = a / PGSIZE) then None else upage m Q wa).
  { intros Hn Q wa HQ Hwa. destruct (decide _) as [[-> Hpg]|]; [|done]. apply upage_present.
    unfold pte in *. by destruct (path3_page wa a Hpg) as [-> ->]. }
  destruct (node m P (path3 a)) as [t|] eqn:Et; cbn [fmap option_fmap option_map].
  2: { exists m, l. split; [done|]. split; [done|]. split; [by exists []|]. split; [|by intros x Hx].
       apply Hsame. unfold pte, leaf. by rewrite Et. }
  unfold bind at 1, gets. cbn [fst]. change (load64 m (entry_addr t (PTX a))) with (entry m t (PTX a)).
  rewrite <- (pte_entry m P a t Et). destruct (tst (pte m P a) PTE_P) eqn:Ep.
  2: { exists m, l. split; [done|]. split; [done|]. split; [by exists []|]. split; [|by intros x Hx].
       apply Hsame. unfold present. by rewrite Ep. }
  set (v := P2V (PTE_ADDR (pte m P a))).
  assert (Hv : node m P (path3 a ++ [PTX a]) = Some v) by (rewrite <- pte_node; unfold present; by rewrite Ep).
  destruct (unmap_valid m l R P a t v Hvr HP Ha Et Hv) as (Hvv & Hvl & _).
  destruct (leaf_table m l R P a t Hvr HP Ha Et) as (Htv & _ & Hi).
  destruct (Z.eqb_spec (PTE_ADDR (pte m P a)) 0) as [E0|_].
  { exfalso. unfold v in Hvv. rewrite E0 in Hvv. destruct Hvv as (_ & Hk & _).
    change (P2V 0) with KERNBASE in Hk. lia. }
  destruct (kfree_spec kend Hend m c v l Hq (vr_free _ _ _ _ Hvr) Hvv Hvl) as [Ek _].
  rewrite (bind_done _ _ _ _ _ Ek). unfold modify. rewrite store64_entry by (done || apply Htv).
  eexists _, (v :: l). split; [done|]. split; [by eapply unmap_rep|]. split; [by exists [v]|].
  split; [intros Q wa HQ Hwa; by eapply unmap_upage|by eapply unmap_others].
Qed.

Lemma deallocuvm_loop_spec n fuel m c l R P a oldsz :
  kquiet c → vm_rep m l R → P ∈ R → 0 ≤ a → a mod PGSIZE = 0 → oldsz ≤ MAXVA →
  oldsz - a ≤ PGSIZE * Z.of_nat n → (n ≤ fuel)%nat →
  ∃ m' l', deallocuvm_loop kend fuel P a oldsz (m, c) = Done tt (m', c) ∧ vm_rep m' l' R ∧
    (∃ u, l' = u ++ l) ∧
    (∀ Q wa, Q ∈ R → 0 ≤ wa < MAXVA → upage m' Q wa =
       if decide (Q = P ∧ in_pages a oldsz wa) then None else upage m Q wa) ∧
    others R m l m' l'.
Proof.
  intros Hq. revert fuel m l a. induction n as [|n IH]; intros fuel m l a Hvr HP Ha Hal Hmax Hn Hfuel.
  - exists m, l. split; [|split; [done|split; [by exists []|split]]].
    + destruct fuel; cbn [deallocuvm_loop]; by rewrite (proj2 (Z.ltb_ge _ _)) by lia.
    + intros Q wa HQ Hwa. rewrite decide_False; [done|]. intros [_ [H1 H2]].
      unfold PGSIZE in *. Z.to_euclidean_division_equations; lia.
    + intros x Hx. done.
  - destruct (decide (a < oldsz)) as [Hlt|Hge].
    2: { destruct (IH fuel m l a) as (m' & l' & E & ? & ? & ? & ?); try done; try (unfold PGSIZE; lia).
         by exists m', l'. }
    destruct fuel as [|fuel]; [lia|]. cbn [deallocuvm_loop]. rewrite (proj2 (Z.ltb_lt _ _)) by lia.
    destruct (dealloc_page_spec m c l R P a Hq Hvr HP) as (m1 & l1 & E1 & Hvr1 & [u1 ->] & Hup1 & Hoth1); [lia|].
    rewrite (bind_done _ _ _ _ _ E1).
    replace (u64 (a + PGSIZE)) with (a + PGSIZE) by (unfold u64; rewrite Z.mod_small; unfold MAXVA, PGSIZE in *; lia).
    destruct (IH fuel m1 (u1 ++ l) (a + PGSIZE)) as (m' & l' & E & Hvr2 & [u2 ->] & Hup2 & Hoth2);
      try done; try (unfold PGSIZE in *; lia).
    { unfold PGSIZE in *. Z.to_euclidean_division_equations; lia. }
    exists m', (u2 ++ u1 ++ l). split; [done|]. split; [done|]. split; [exists (u2 ++ u1); by rewrite app_assoc|].
    split; [|by eapply others_trans]. intros Q wa HQ Hwa. rewrite Hup2, Hup1 by done.
    destruct (decide (Q = P ∧ in_pages a oldsz wa)) as [[-> Hin]|Hnin].
    + apply in_pages_step in Hin as [Hin|Hin]; [| |done|done].
      * rewrite (decide_True (P := P = P ∧ wa / PGSIZE = a / PGSIZE)) by done. by destruct (decide _).
      * by rewrite decide_True by done.
    + rewrite !decide_False; [done|..]; intros [-> H]; apply Hnin; (split; [done|]); apply in_pages_step; auto.
Qed.
End user.
