(* ===== verification/VmTheorems.v ===== *)
(** * The theorems on address spaces: allocuvm, deallocuvm, copyuvm *)

From stdpp Require Import functions.
From S2P Require Import Prelude Params Devices Core Kalloc Vm VmTree VmSpec VmUser.

Section theorems.
Variable kend : Z.
Hypothesis Hend : KERNBASE < kend ≤ KERNBASE + PHYSTOP.

Local Abbreviation valid_page := (valid_page kend).
Local Abbreviation free_rep := (free_rep kend).
Local Abbreviation vm_rep := (vm_rep kend).
Local Abbreviation fresh := (fresh kend).
Local Abbreviation others := (others kend).

(** ** A new page table *)
Section new_root.
Context (m : kmem) (l R : list Z) (d e : Z).
Hypothesis Hvr : vm_rep m l R.
Hypothesis Hd : fresh m l R d.
Hypothesis Hz : km_page m d = zero_page.
Hypothesis He : 0 ≤ e < 2 ^ 64.

Local Abbreviation m' := (put_entry d 256 e m).

Lemma root_page : length (set_field (Z.to_nat (8 * 256)) 8 e (km_page m d)) = Z.to_nat PGSIZE ∧
  Forall is_byte (set_field (Z.to_nat (8 * 256)) 8 e (km_page m d)).
Proof.
  rewrite Hz. split.
  - rewrite length_set_field; rewrite (proj1 zero_page_ok); [done|]. unfold PGSIZE. lia.
  - apply set_field_bytes, zero_page_ok.
Qed.

Lemma root_child i : 0 ≤ i < 256 → child m' d i = None.
Proof.
  intros Hi. unfold child. rewrite entry_put; try done; try lia.
  - rewrite (proj2 (Z.eqb_neq i 256)) by lia. rewrite entry_zero; [done|apply Hd|lia|done].
  - rewrite Hz. apply zero_page_ok.
  - apply Hd.
Qed.

Lemma root_node Q q :
  Q ∈ d :: R → upath q → node m' Q q = if decide (Q = d) then (if decide (q = []) then Some d else None) else node m Q q.
Proof.
  intros HQ Hq. destruct (decide (Q = d)) as [->|Hne].
  - destruct q as [|i q]; [done|]. cbn [node]. rewrite root_child; [done|].
    destruct Hq as (_ & Hf & Hh). apply Forall_cons in Hf as [? _]. specialize (Hh i eq_refl). lia.
  - apply elem_of_cons in HQ as [?|HQ]; [done|].
    by apply (fresh_put_page kend m l R d _ d Hd Hvr (proj1 root_page) (proj2 root_page)).
Qed.

Lemma root_rep : vm_rep m' l (d :: R).
Proof.
  destruct Hd as (Hdv & Hdl & Hdn). split.
  - apply (free_rep_put_entry kend); [apply Hvr|done|lia].
  - intros Q q a HQ Hq. rewrite root_node by done. destruct (decide (Q = d)) as [->|Hne].
    + destruct (decide _); [|done]. by intros [= <-].
    + apply elem_of_cons in HQ as [?|HQ]; [done|]. by apply (vr_nodes _ _ _ _ Hvr).
  - intros Q1 Q2 q1 q2 a H1 H2 Hq1 Hq2. rewrite !root_node by done.
    apply elem_of_cons in H1, H2.
    destruct (decide (Q1 = d)) as [->|N1], (decide (Q2 = d)) as [->|N2].
    + destruct (decide (q1 = [])), (decide (q2 = [])); naive_solver.
    + destruct H2 as [?|H2]; [done|]. destruct (decide (q1 = [])); [|done]. intros [= <-] Hb. by apply Hdn in Hb.
    + destruct H1 as [?|H1]; [done|]. destruct (decide (q2 = [])); [|done]. intros Hb [= <-]. by apply Hdn in Hb.
    + destruct H1 as [?|H1]; [done|]. destruct H2 as [?|H2]; [done|]. by apply (vr_inj _ _ _ _ Hvr).
Qed.

Lemma root_upage Q wa :
  Q ∈ d :: R → 0 ≤ wa < MAXVA → upage m' Q wa = if decide (Q = d) then None else upage m Q wa.
Proof.
  intros HQ Hwa. destruct (decide (Q = d)) as [->|Hne].
  - apply upage_present. rewrite pte_node, root_node by (done || by apply path3_upath).
    rewrite decide_True by done. by rewrite decide_False by done.
  - apply elem_of_cons in HQ as [?|HQ]; [done|].
    by apply (upage_fresh kend m l R d _ Q wa Hvr Hd (proj1 root_page) (proj2 root_page)).
Qed.
End new_root.

Lemma setupkvm_spec m c r l R kpdpt :
  kquiet c → vm_rep m (r :: l) R → valid_page kpdpt →
  ∃ m', setupkvm kpdpt (m, c) = Done r (m', c) ∧ r ≠ 0 ∧ r ∉ R ∧ vm_rep m' l (r :: R) ∧
    (∀ Q wa, Q ∈ r :: R → 0 ≤ wa < MAXVA → upage m' Q wa = if decide (Q = r) then None else upage m Q wa) ∧
    (∀ x, fresh m (r :: l) R x → fresh m' l (r :: R) x ∧ km_page m' x = km_page m x).
Proof.
  intros Hq Hvr Hk.
  destruct (take_page kend Hend m c r l R zero_page Hq Hvr (proj1 zero_page_ok) (proj2 zero_page_ok))
    as (E & Hr0 & Hvr1 & Hr & Hz & Hup & Hoth). set (m1 := put_page r zero_page (popped m r)) in *.
  set (e := mkpte kpdpt (Z.lor PTE_P PTE_W)).
  assert (He : 0 ≤ e < 2 ^ 64) by (by apply (mkpte_bound kend Hend)).
  exists (put_entry r 256 e m1). split; [|split; [done|split; [|split; [|split]]]].
  - unfold setupkvm. rewrite (bind_done _ _ _ _ _ E). unfold bind, modify, ret, memset_page, set_page. cbn [fst snd].
    rewrite <- Z.lor_assoc. rewrite store64_entry by (done || apply Hr). done.
  - intros HR. destruct Hr as (_ & _ & H). apply (H r []); [done| |done]. split; [cbn; lia|]. split; [constructor|done].
  - by apply root_rep.
  - intros Q wa HQ Hwa. rewrite (root_upage m1 l R) by done. destruct (decide (Q = r)) as [|Hne]; [done|].
    apply elem_of_cons in HQ as [?|HQ]; [done|]. by apply Hup.
  - intros x Hx. destruct (Hoth x Hx) as (Hxr & Hx1 & Ex). split.
    + destruct Hx1 as (H1 & H2 & H3). split; [done|]. split; [done|]. intros Q q HQ Hq'.
      rewrite (root_node m1 l R) by done. destruct (decide (Q = r)) as [->|].
      * destruct (decide (q = [])); [|done]. by intros [= ->].
      * apply elem_of_cons in HQ as [?|HQ]; [done|]. by apply H3.
    + cbn. rewrite fn_lookup_insert_ne by done. exact Ex.
Qed.

(** ** The first page of the first process *)
Lemma leaf_write m l R P va v d :
  vm_rep m l R → P ∈ R → 0 ≤ va < MAXVA → node m P (path3 va ++ [PTX va]) = Some v → length d = Z.to_nat PGSIZE → Forall is_byte d →
  let m' := put_page v d m in
  vm_rep m' l R ∧
  (∀ Q wa, Q ∈ R → 0 ≤ wa < MAXVA → upage m' Q wa =
     if decide (Q = P ∧ wa / PGSIZE = va / PGSIZE) then Some (d, PTE_FLAGS (pte m P va)) else upage m Q wa) ∧
  others R m l m' l.
Proof.
  intros Hvr HP Hva Hv Hd Hdb m'. pose proof (path3_upath va Hva) as Hup.
  assert (Hpg : ∀ Q q a, Q ∈ R → upath q → node m Q q = Some a → ¬ (Q = P ∧ q = path3 va ++ [PTX va]) → km_page m' a = km_page m a).
  { intros Q q a HQ Hq Ha Hne. cbn. apply fn_lookup_insert_ne. intros <-. apply Hne. by eapply (vr_inj _ _ _ _ Hvr). }
  assert (Hnode : ∀ Q q, Q ∈ R → upath q → node m' Q q = node m Q q).
  { intros Q q HQ. induction q as [|j q IH] using rev_ind; intros Hq; [done|].
    pose proof (upath_app _ _ Hq) as Hq'. rewrite !node_snoc, IH by done.
    destruct (node m Q q) as [a|] eqn:Ea; [|done]. cbn. unfold child. f_equal.
    apply entry_same; [by eapply (vr_nodes _ _ _ _ Hvr)|by eapply upath_last|]. apply (Hpg Q q); try done.
    intros [_ ->]. destruct Hq as [Hl _]. rewrite !length_app in Hl. cbn in Hl. lia. }
  assert (Hpte : ∀ Q wa, Q ∈ R → 0 ≤ wa < MAXVA → pte m' Q wa = pte m Q wa).
  { intros Q wa HQ Hwa. pose proof (path3_upath wa Hwa) as Hupw. pose proof (upath_app _ _ Hupw) as Hup3. apply leaf_same; [by apply Hnode|].
    intros t Ht. apply entry_same; [by eapply (vr_nodes _ _ _ _ Hvr)|by eapply upath_last|]. apply (Hpg Q (path3 wa)); try done. by intros [_ E]. }
  assert (Hvalid : valid_page v ∧ v ∉ l) by (by eapply (vr_nodes _ _ _ _ Hvr)).
  split; [|split].
  - destruct Hvr as [Hf Hn Hi]. split.
    + apply (free_rep_put kend); [done|apply Hvalid|done|done].
    + intros Q q a HQ Hq. rewrite Hnode by done. by apply Hn.
    + intros Q1 Q2 q1 q2 a H1 H2 Hq1 Hq2. rewrite !Hnode by done. by apply Hi.
  - intros Q wa HQ Hwa. unfold upage. rewrite Hpte by done. destruct (decide _) as [[-> Hpage]|Hne].
    + destruct (path3_page wa va Hpage) as [Ep Ex]. unfold pte. rewrite Ep, Ex. fold (pte m P va). rewrite pte_node, Hv. cbn.
      by rewrite fn_lookup_insert.
    + rewrite pte_node. destruct (node m Q _) as [a|] eqn:Ea; [|done]. cbn. f_equal. f_equal.
      apply (Hpg Q (path3 wa ++ [PTX wa])); try done; [by apply path3_upath|]. intros [-> E]. apply Hne. split; [done|]. by apply path3_inj.
  - intros x (H1 & H2 & H3). split.
    + split; [done|]. split; [done|]. intros Q q HQ Hq. rewrite Hnode by done. by apply H3.
    + cbn. apply fn_lookup_insert_ne. intros <-. by eapply H3.
Qed.

(** inituvm maps one page at PGSIZE that holds the code, and zeroes behind it. *)
Definition init_page (init : list Z) : page := splice 0 init zero_page.
Lemma init_page_ok init :
  Z.of_nat (length init) < PGSIZE → Forall is_byte init → length (init_page init) = Z.to_nat PGSIZE ∧ Forall is_byte (init_page init).
Proof.
  intros Hl Hb. split; [|apply Forall_splice; [apply zero_page_ok|done]].
  unfold init_page. rewrite length_splice; [apply zero_page_ok|]. rewrite (proj1 zero_page_ok). unfold PGSIZE in *. lia.
Qed.

Lemma inituvm_spec m c l R P init :
  kquiet c → vm_rep m l R → P ∈ R → (4 ≤ length l)%nat → Z.of_nat (length init) < PGSIZE → Forall is_byte init → upage m P PGSIZE = None →
  ∃ m' l', inituvm P init (Z.of_nat (length init)) (m, c) = Done tt (m', c) ∧ vm_rep m' l' R ∧ (length l ≤ 4 + length l')%nat ∧
    (∀ Q wa, Q ∈ R → 0 ≤ wa < MAXVA → upage m' Q wa =
       if decide (Q = P ∧ wa / PGSIZE = 1) then Some (init_page init, user_flags) else upage m Q wa) ∧
    others R m l m' l'.
Proof.
  intros Hq Hvr HP Hl Hinit Hb Hnone. destruct l as [|v l]; [cbn in Hl; lia|]. cbn [length] in Hl.
  destruct (take_page kend Hend m c v l R zero_page Hq Hvr (proj1 zero_page_ok) (proj2 zero_page_ok))
    as (E & Hr0 & Hvr1 & Hr & Hz & Hup1 & Hoth1). set (m1 := put_page v zero_page (popped m v)) in *.
  destruct (mappages_page kend Hend m1 c l R P PGSIZE v (Z.lor PTE_W PTE_U) Hq Hvr1 HP) as (m2 & l2 & E2 & Hvr2 & (u & -> & Hu) & Hup2 & Hoth2 & Hnode & Hz2); try done.
  { lia. }
  { apply upage_present. by rewrite Hup1 by done. }
  destruct (init_page_ok init Hinit Hb) as [Hd Hdb].
  destruct (leaf_write m2 l2 R P PGSIZE v (init_page init) Hvr2 HP ltac:(done) Hnode Hd Hdb) as (Hvr3 & Hup3 & Hoth3).
  exists (put_page v (init_page init) m2), l2. split; [|split; [done|split; [cbn [length]; rewrite length_app; lia|split]]].
  - unfold inituvm. rewrite (proj2 (Z.leb_gt _ _)) by done. rewrite (bind_done _ _ _ _ _ E). unfold bind at 1, modify at 1.
    change (memset_page v 0 (popped m v, c)) with (m1, c). rewrite (bind_done _ _ _ _ _ E2). unfold modify, set_page. cbn [fst snd].
    rewrite Hz2, Hz, Nat2Z.id, firstn_all. done.
  - intros Q wa HQ Hwa. rewrite Hup3 by done. change (PGSIZE / PGSIZE) with 1. destruct (decide _) as [Hin|Hne].
    + f_equal. f_equal. pose proof (Hup2 P PGSIZE HP ltac:(done)) as H. rewrite decide_True in H by done. unfold upage in H.
      destruct (present _); [|done]. cbn in H. by injection H as _ ->.
    + rewrite Hup2 by done. change (PGSIZE / PGSIZE) with 1. rewrite decide_False by done. by apply Hup1.
  - intros x Hx. destruct (Hoth1 x Hx) as (Hxv & Hx1 & Ex1). destruct (Hoth2 x Hx1 Hxv) as [Hx2 Ex2]. destruct (Hoth3 x Hx2) as [Hx3 Ex3].
    split; [done|]. by rewrite Ex3, Ex2.
Qed.

(** ** Copying *)
Lemma flags_present e : tst e PTE_P = true → Z.lor (PTE_FLAGS e) PTE_P = PTE_FLAGS e.
Proof.
  intros Hp. apply Z.bits_inj'. intros i Hi. rewrite Z.lor_spec. unfold PTE_FLAGS. rewrite !Z.land_spec.
  destruct (decide (i = 0)) as [->|Hne].
  - unfold tst, PTE_P in Hp. apply negb_true_iff, Z.eqb_neq in Hp.
    assert (Hb : Z.testbit e 0 = true); [|by rewrite Hb].
    destruct (Z.testbit e 0) eqn:Eb; [done|]. exfalso. apply Hp. apply Z.bits_inj'. intros j Hj.
    rewrite Z.land_spec, Z.bits_0. destruct (decide (j = 0)) as [->|]; [by rewrite Eb|].
    rewrite (Z.bits_above_log2 1), andb_false_r by (cbn; lia). done.
  - unfold PTE_P. rewrite (Z.bits_above_log2 1), orb_false_r by (cbn; lia). done.
Qed.

Lemma flags_bound e : 0 ≤ PTE_FLAGS e < PGSIZE.
Proof.
  unfold PTE_FLAGS. change 0xFFF with (Z.ones 12). rewrite Z.land_ones by lia.
  change (2 ^ 12) with PGSIZE. apply Z.mod_pos_bound. unfold PGSIZE. lia.
Qed.

Lemma copy_page_spec m c l R P d i :
  kquiet c → vm_rep m l R → P ∈ R → d ∈ R → 0 ≤ i < MAXVA → i mod PGSIZE = 0 → (4 ≤ length l)%nat →
  upage m d i = None → upage m P i ≠ None →
  ∃ m' l', copy_page P d i (m, c) = Done 0 (m', c) ∧ vm_rep m' l' R ∧ (length l ≤ 4 + length l')%nat ∧
    (∀ Q wa, Q ∈ R → 0 ≤ wa < MAXVA → upage m' Q wa =
       if decide (Q = d ∧ wa / PGSIZE = i / PGSIZE) then upage m P i else upage m Q wa) ∧
    others R m l m' l'.
Proof.
  intros Hq Hvr HP Hd Hva Hal Hl Hdn HPn. unfold copy_page.
  rewrite (bind_done _ _ _ _ _ (walkpgdir_lookup _ _ _ _)).
  unfold upage in HPn. destruct (present (pte m P i)) as [v|] eqn:Epr; [clear HPn|done].
  destruct (node m P (path3 i)) as [t|] eqn:Et.
  2: { unfold pte, leaf in Epr. by rewrite Et in Epr. }
  cbn [fmap option_fmap option_map]. unfold bind at 1, gets. cbn [fst].
  change (load64 m (entry_addr t (PTX i))) with (entry m t (PTX i)). rewrite <- (pte_entry m P i t Et).
  unfold present in Epr. destruct (tst (pte m P i) PTE_P) eqn:Etst; [|done]. injection Epr as Ev. cbn [negb].
  destruct l as [|r l]; [cbn in Hl; lia|]. cbn [length] in Hl.
  pose proof (vr_free _ _ _ _ Hvr) as Hf.
  destruct (take_page kend Hend m c r l R (km_page m v) Hq Hvr (fr_len _ _ _ Hf v) (fr_byte _ _ _ Hf v))
    as (E & Hr0 & Hvr1 & Hr & Hrz & Hup1 & Hoth1). set (m1 := put_page r (km_page m v) (popped m r)) in *.
  destruct (mappages_page kend Hend m1 c l R d i r (PTE_FLAGS (pte m P i)) Hq Hvr1 Hd Hva Hal) as
    (m2 & l2 & E2 & Hvr2 & (u & -> & Hu) & Hup2 & Hoth2 & _); [lia| |done|apply flags_bound|].
  { apply upage_present. by rewrite Hup1 by done. }
  rewrite flags_present in Hup2 by done.
  assert (HupP : upage m P i = Some (km_page m1 r, PTE_FLAGS (pte m P i))).
  { unfold upage, present. rewrite Etst, Ev, Hrz. done. }
  exists m2, l2. split; [|split; [done|split; [cbn [length]; rewrite length_app; lia|split]]].
  - rewrite (bind_done _ _ _ _ _ E). rewrite (proj2 (Z.eqb_neq _ _)) by done.
    unfold bind at 1, modify, set_page. cbn [fst snd popped km_uselock km_freelist km_page]. rewrite Ev. exact E2.
  - intros Q wa HQ Hwa. rewrite Hup2, HupP by done. destruct (decide _); [done|]. by apply Hup1.
  - intros x Hx. destruct (Hoth1 x Hx) as (Hxr & Hx1 & Ex1). destruct (Hoth2 x Hx1 Hxr) as (Hx2 & Ex2).
    split; [done|]. by rewrite Ex2.
Qed.

Lemma upage_page m P va wa : va / PGSIZE = wa / PGSIZE → upage m P va = upage m P wa.
Proof. intros E. unfold upage, pte. by destruct (path3_page va wa E) as [-> ->]. Qed.

Lemma copyuvm_loop_spec n fuel m c l R P d i sz :
  kquiet c → vm_rep m l R → P ∈ R → d ∈ R → P ≠ d → 0 ≤ i → i mod PGSIZE = 0 → sz ≤ MAXVA →
  sz - i ≤ PGSIZE * Z.of_nat n → (n ≤ fuel)%nat → (4 * n ≤ length l)%nat →
  (∀ wa, 0 ≤ wa < MAXVA → in_pages i sz wa → upage m d wa = None ∧ upage m P wa ≠ None) →
  ∃ m' l', copyuvm_loop kend fuel P d i sz (m, c) = Done d (m', c) ∧ vm_rep m' l' R ∧
    (length l ≤ 4 * n + length l')%nat ∧
    (∀ Q wa, Q ∈ R → 0 ≤ wa < MAXVA → upage m' Q wa =
       if decide (Q = d ∧ in_pages i sz wa) then upage m P wa else upage m Q wa) ∧
    others R m l m' l'.
Proof.
  intros Hq. revert fuel m l i. induction n as [|n IH]; intros fuel m l i Hvr HP Hd HPd Hi Hal Hmax Hn Hfuel Hl Hun.
  - exists m, l. split; [|split; [done|split; [lia|split]]].
    + destruct fuel; cbn [copyuvm_loop]; by rewrite (proj2 (Z.ltb_ge _ _)) by lia.
    + intros Q wa HQ Hwa. rewrite decide_False; [done|]. intros [_ [H1 H2]].
      unfold PGSIZE in *. Z.to_euclidean_division_equations; lia.
    + intros x Hx. done.
  - destruct (decide (i < sz)) as [Hlt|Hge].
    2: { destruct (IH fuel m l i) as (m' & l' & E & ? & ? & ? & ?); try done; try (unfold PGSIZE; lia).
         exists m', l'. split; [done|]. split; [done|]. split; [lia|]. done. }
    destruct fuel as [|fuel]; [lia|]. cbn [copyuvm_loop]. rewrite (proj2 (Z.ltb_lt _ _)) by lia.
    assert (Hva : 0 ≤ i < MAXVA) by lia.
    destruct (Hun i Hva) as [Hdn HPn]; [apply in_pages_step; [done|done|by left]|].
    destruct (copy_page_spec m c l R P d i Hq Hvr HP Hd Hva Hal ltac:(lia) Hdn HPn)
      as (m1 & l1 & E1 & Hvr1 & Hl1 & Hup1 & Hoth1).
    rewrite (bind_done _ _ _ _ _ E1). cbn [Z.ltb Z.compare].
    replace (u64 (i + PGSIZE)) with (i + PGSIZE) by (unfold u64; rewrite Z.mod_small; unfold MAXVA, PGSIZE in *; lia).
    destruct (IH fuel m1 l1 (i + PGSIZE)) as (m' & l' & E & Hvr2 & Hl2 & Hup2 & Hoth2);
      try done; try (unfold PGSIZE in *; lia).
    { unfold PGSIZE in *. Z.to_euclidean_division_equations; lia. }
    { intros wa Hwa Hin. rewrite !Hup1 by done. rewrite !decide_False.
      - apply Hun; [done|]. apply in_pages_step; [done|done|by right].
      - by intros [? _].
      - intros [_ Heq]. by eapply in_pages_first. }
    exists m', l'. split; [done|]. split; [done|]. split; [lia|]. split; [|by eapply others_trans].
    intros Q wa HQ Hwa. rewrite Hup2, !Hup1 by done. rewrite (decide_False (P := P = d ∧ _)) by (by intros [? _]).
    destruct (decide (Q = d ∧ in_pages (i + PGSIZE) sz wa)) as [[-> Hin]|Hnin].
    + rewrite decide_True; [done|]. split; [done|]. apply in_pages_step; [done|done|by right].
    + destruct (decide (Q = d ∧ wa / PGSIZE = i / PGSIZE)) as [[-> Heq]|Hne].
      * rewrite decide_True; [by apply upage_page|]. split; [done|]. apply in_pages_step; [done|done|by left].
      * rewrite decide_False; [done|]. intros [-> Hin]. apply in_pages_step in Hin as [?|?]; [| |done|done]; tauto.
Qed.

(** ** Properties *)
Lemma maxva_kern : MAXVA < KERNBASE.
Proof. done. Qed.

Lemma allocuvm_spec m c l R P oldsz newsz n :
  kquiet c → vm_rep m l R → P ∈ R → 0 ≤ oldsz ≤ newsz → newsz ≤ MAXVA →
  newsz - PGROUNDUP oldsz ≤ PGSIZE * Z.of_nat n → (4 * n ≤ length l)%nat →
  (∀ wa, 0 ≤ wa < MAXVA → in_pages (PGROUNDUP oldsz) newsz wa → upage m P wa = None) →
  ∃ m' l', allocuvm kend P oldsz newsz (m, c) = Done newsz (m', c) ∧ vm_rep m' l' R ∧
    (length l ≤ 4 * n + length l')%nat ∧
    (∀ Q wa, Q ∈ R → 0 ≤ wa < MAXVA → upage m' Q wa =
       if decide (Q = P ∧ in_pages (PGROUNDUP oldsz) newsz wa) then Some (zero_page, user_flags)
       else upage m Q wa) ∧
    others R m l m' l'.
Proof.
  intros Hq Hvr HP Hsz Hmax Hn Hl Hun. pose proof maxva_kern as Hk.
  destruct (pground_up oldsz) as [Hal Hup]; [unfold MAXVA, PGSIZE in *; lia|].
  unfold allocuvm. rewrite (proj2 (Z.leb_gt _ _)) by lia. rewrite (proj2 (Z.ltb_ge _ _)) by lia.
  set (k := Z.to_nat ((newsz - PGROUNDUP oldsz + (PGSIZE - 1)) / PGSIZE)).
  assert (Hkn : (k ≤ n)%nat).
  { unfold k, PGSIZE in *. Z.to_euclidean_division_equations; lia. }
  destruct (allocuvm_loop_spec kend Hend k (Z.to_nat (newsz / PGSIZE + 1)) m c l R P (PGROUNDUP oldsz) oldsz newsz)
    as (m' & l' & E & H1 & H2 & H3); try done; try lia.
  - unfold k, PGSIZE in *. Z.to_euclidean_division_equations; lia.
  - unfold k, PGSIZE in *. Z.to_euclidean_division_equations; lia.
  - exists m', l'. split; [done|]. split; [done|]. split; [lia|]. done.
Qed.

Lemma deallocuvm_spec m c l R P oldsz newsz :
  kquiet c → vm_rep m l R → P ∈ R → 0 ≤ newsz < oldsz → oldsz ≤ MAXVA →
  ∃ m' l', deallocuvm kend P oldsz newsz (m, c) = Done newsz (m', c) ∧ vm_rep m' l' R ∧
    (∃ u, l' = u ++ l) ∧
    (∀ Q wa, Q ∈ R → 0 ≤ wa < MAXVA → upage m' Q wa =
       if decide (Q = P ∧ in_pages (PGROUNDUP newsz) oldsz wa) then None else upage m Q wa) ∧
    others R m l m' l'.
Proof.
  intros Hq Hvr HP Hsz Hmax. destruct (pground_up newsz) as [Hal Hup]; [unfold MAXVA, PGSIZE in *; lia|].
  unfold deallocuvm. rewrite (proj2 (Z.leb_gt _ _)) by lia.
  destruct (deallocuvm_loop_spec kend Hend (Z.to_nat (oldsz / PGSIZE + 1)) (Z.to_nat (oldsz / PGSIZE + 1))
    m c l R P (PGROUNDUP newsz) oldsz) as (m' & l' & E & H1 & H2 & H3); try done; try lia.
  - unfold PGSIZE in *. Z.to_euclidean_division_equations; lia.
  - exists m', l'. split; [|done]. by rewrite (bind_done _ _ _ _ _ E).
Qed.

Lemma copyuvm_spec m c l R P kpdpt sz n :
  kquiet c → vm_rep m l R → P ∈ R → valid_page kpdpt → 0 ≤ sz < 2 ^ 32 →
  sz - PGSIZE ≤ PGSIZE * Z.of_nat n → (4 * n < length l)%nat →
  (∀ wa, 0 ≤ wa < MAXVA → in_pages PGSIZE sz wa → upage m P wa ≠ None) →
  ∃ d m' l', copyuvm kend kpdpt P sz (m, c) = Done d (m', c) ∧ d ≠ 0 ∧ d ∉ R ∧ vm_rep m' l' (d :: R) ∧
    (∀ wa, 0 ≤ wa < MAXVA → upage m' d wa = if decide (in_pages PGSIZE sz wa) then upage m P wa else None) ∧
    (∀ Q wa, Q ∈ R → 0 ≤ wa < MAXVA → upage m' Q wa = upage m Q wa) ∧
    (∀ x, fresh m l R x → fresh m' l' (d :: R) x ∧ km_page m' x = km_page m x).
Proof.
  intros Hq Hvr HP Hk Hsz Hn Hl Hpres. destruct l as [|d l]; [cbn in Hl; lia|]. cbn [length] in Hl.
  destruct (setupkvm_spec m c d l R kpdpt Hq Hvr Hk) as (m1 & E & Hd0 & HdR & Hvr1 & Hup1 & Hoth1).
  assert (HPd : P ≠ d) by (intros ->; done).
  set (k := Z.to_nat ((sz - PGSIZE + (PGSIZE - 1)) / PGSIZE)).
  assert (Hkn : (k ≤ n)%nat) by (unfold k, PGSIZE in *; Z.to_euclidean_division_equations; lia).
  destruct (copyuvm_loop_spec k (Z.to_nat (sz / PGSIZE + 1)) m1 c l (d :: R) P d PGSIZE sz)
    as (m' & l' & E' & Hvr2 & _ & Hup2 & Hoth2); try done; try lia.
  - by right.
  - by left.
  - unfold MAXVA. lia.
  - unfold k, PGSIZE in *. Z.to_euclidean_division_equations; lia.
  - unfold k, PGSIZE in *. Z.to_euclidean_division_equations; lia.
  - intros wa Hwa Hin. rewrite !Hup1 by (done || by left || by right).
    rewrite decide_True, decide_False by done. split; [done|]. by apply Hpres.
  - exists d, m', l'. split; [|split; [done|split; [done|split; [done|split; [|split]]]]].
    + unfold copyuvm. unfold u32. rewrite Z.mod_small by lia. rewrite (bind_done _ _ _ _ _ E).
      by rewrite (proj2 (Z.eqb_neq _ _)) by done.
    + intros wa Hwa. rewrite Hup2 by (done || by left). rewrite !Hup1 by (done || by left || by right).
      rewrite (decide_True (P := d = d)), (decide_False (P := P = d)) by done.
      destruct (decide (in_pages PGSIZE sz wa)); [by rewrite decide_True|]. by rewrite decide_False by (by intros [_ ?]).
    + intros Q wa HQ Hwa. assert (Q ≠ d) by (intros ->; done).
      rewrite Hup2 by (done || by right). rewrite decide_False by (by intros [? _]).
      rewrite Hup1 by (done || by right). by rewrite decide_False.
    + intros x Hx. destruct (Hoth1 x Hx) as [Hx1 Ex1]. destruct (Hoth2 x Hx1) as [Hx2 Ex2].
      split; [done|]. by rewrite Ex2.
Qed.

(** allocuvm grows an address space.  With enough free pages and nothing mapped
    above the old size, it returns the new size; the pages between the two sizes
    are then mapped, zeroed, writable and accessible to the user; no other page of
    this or of any other address space changes. *)
Theorem allocuvm_zeroed m c l R P oldsz newsz n :
  kquiet c → vm_rep m l R → P ∈ R → 0 ≤ oldsz ≤ newsz → newsz ≤ MAXVA →
  newsz - PGROUNDUP oldsz ≤ PGSIZE * Z.of_nat n → (4 * n ≤ length l)%nat →
  (∀ wa, 0 ≤ wa < MAXVA → in_pages (PGROUNDUP oldsz) newsz wa → upage m P wa = None) →
  ∃ m' l', allocuvm kend P oldsz newsz (m, c) = Done newsz (m', c) ∧ vm_rep m' l' R ∧
    ∀ Q wa, Q ∈ R → 0 ≤ wa < MAXVA → upage m' Q wa =
      if decide (Q = P ∧ in_pages (PGROUNDUP oldsz) newsz wa) then Some (zero_page, user_flags)
      else upage m Q wa.
Proof.
  intros Hq Hvr HP Hsz Hmax Hn Hl Hun.
  destruct (allocuvm_spec m c l R P oldsz newsz n Hq Hvr HP Hsz Hmax Hn Hl Hun) as (m' & l' & E & H1 & _ & H2 & _).
  by exists m', l'.
Qed.

(** deallocuvm undoes allocuvm.  Growing an address space and shrinking it back
    to its old size leaves every page of every address space as it was. *)
Theorem allocuvm_deallocuvm m c l R P oldsz newsz n :
  kquiet c → vm_rep m l R → P ∈ R → 0 ≤ oldsz < newsz → newsz ≤ MAXVA →
  newsz - PGROUNDUP oldsz ≤ PGSIZE * Z.of_nat n → (4 * n ≤ length l)%nat →
  (∀ wa, 0 ≤ wa < MAXVA → in_pages (PGROUNDUP oldsz) newsz wa → upage m P wa = None) →
  ∃ m' l', (sz <- allocuvm kend P oldsz newsz;; deallocuvm kend P sz oldsz) (m, c) = Done oldsz (m', c) ∧
    vm_rep m' l' R ∧ ∀ Q wa, Q ∈ R → 0 ≤ wa < MAXVA → upage m' Q wa = upage m Q wa.
Proof.
  intros Hq Hvr HP Hsz Hmax Hn Hl Hun.
  destruct (allocuvm_spec m c l R P oldsz newsz n Hq Hvr HP ltac:(lia) Hmax Hn Hl Hun) as (m1 & l1 & E1 & Hvr1 & _ & Hup1 & _).
  destruct (deallocuvm_spec m1 c l1 R P newsz oldsz Hq Hvr1 HP Hsz Hmax) as (m2 & l2 & E2 & Hvr2 & _ & Hup2 & _).
  exists m2, l2. split; [by rewrite (bind_done _ _ _ _ _ E1)|]. split; [done|].
  intros Q wa HQ Hwa. rewrite Hup2, Hup1 by done.
  destruct (decide (Q = P ∧ in_pages (PGROUNDUP oldsz) newsz wa)) as [[-> Hin]|]; [|done].
  symmetry. by apply Hun.
Qed.

(** C4: copyuvm gives the child a copy of the parent's memory.  With every page of
    the parent from PGSIZE to its size mapped and enough free pages, the new
    address space has exactly these pages, with the same contents and flags, and
    no page of an existing address space changes. *)
Theorem copyuvm_copies m c l R P kpdpt sz n :
  kquiet c → vm_rep m l R → P ∈ R → valid_page kpdpt → 0 ≤ sz < 2 ^ 32 →
  sz - PGSIZE ≤ PGSIZE * Z.of_nat n → (4 * n < length l)%nat →
  (∀ wa, 0 ≤ wa < MAXVA → in_pages PGSIZE sz wa → upage m P wa ≠ None) →
  ∃ d m' l', copyuvm kend kpdpt P sz (m, c) = Done d (m', c) ∧ d ≠ 0 ∧ d ∉ R ∧ vm_rep m' l' (d :: R) ∧
    (∀ wa, 0 ≤ wa < MAXVA → upage m' d wa = if decide (in_pages PGSIZE sz wa) then upage m P wa else None) ∧
    (∀ Q wa, Q ∈ R → 0 ≤ wa < MAXVA → upage m' Q wa = upage m Q wa).
Proof.
  intros Hq Hvr HP Hk Hsz Hn Hl Hpres.
  destruct (copyuvm_spec m c l R P kpdpt sz n Hq Hvr HP Hk Hsz Hn Hl Hpres)
    as (d & m' & l' & E & H0 & HR & Hvr' & Hd & HQ & _).
  by exists d, m', l'.
Qed.
End theorems.

(** ** An example: the memory after boot with one empty address space *)
Lemma sample_end_ok : KERNBASE < sample_end ≤ KERNBASE + PHYSTOP.
Proof. vm_compute. intuition congruence. Qed.

Definition sample_pdpt : Z := KERNBASE + 0x102000.
Lemma sample_pdpt_valid : valid_page sample_end sample_pdpt.
Proof. vm_compute. intuition congruence. Qed.

Definition idle_core : core := Core [] [] None devices0.
Lemma idle_kquiet : kquiet idle_core.
Proof. intros H. by apply elem_of_nil in H. Qed.

Lemma sample_space :
  ∃ m l d, vm_rep sample_end m l [d] ∧ (100 ≤ length l)%nat ∧
    ∀ wa, 0 ≤ wa < MAXVA → upage m d wa = None.
Proof.
  destruct (kinit1_spec sample_end sample_end_ok sample_memory idle_core (KERNBASE + 0x166000) 101) as (m & _ & Hf).
  - exact idle_kquiet.
  - split; intros v; cbn; [apply length_replicate|]. apply Forall_replicate. unfold is_byte. lia.
  - vm_compute. intuition congruence.
  - vm_compute. congruence.
  - assert (Hvr : vm_rep sample_end m (reverse (pages (PGROUNDUP sample_end) 101)) []).
    { split; [exact Hf|..]; intros; by match goal with H : _ ∈ [] |- _ => apply elem_of_nil in H end. }
    pose proof (length_reverse (pages (PGROUNDUP sample_end) 101)) as Hl.
    unfold pages in Hl at 2. rewrite length_fmap, length_seq in Hl.
    destruct (reverse (pages (PGROUNDUP sample_end) 101)) as [|r l]; [done|].
    destruct (setupkvm_spec sample_end sample_end_ok m idle_core r l [] sample_pdpt idle_kquiet Hvr sample_pdpt_valid)
      as (m' & _ & _ & _ & Hvr' & Hup & _).
    exists m', l, r. split; [exact Hvr'|]. cbn in Hl. split; [lia|].
    intros wa Hwa. rewrite Hup by (done || left). by rewrite decide_True.
Qed.

Lemma allocuvm_zeroed_witness :
  ∃ m l d m' l', vm_rep sample_end m l [d] ∧
    allocuvm sample_end d 4096 10000 (m, idle_core) = Done 10000 (m', idle_core) ∧
    vm_rep sample_end m' l' [d] ∧ upage m' d 9999 = Some (zero_page, user_flags) ∧ upage m' d 4095 = None.
Proof.
  destruct sample_space as (m & l & d & Hvr & Hl & Hempty).
  destruct (allocuvm_zeroed sample_end sample_end_ok m idle_core l [d] d 4096 10000 2 idle_kquiet Hvr)
    as (m' & l' & E & Hvr' & Hup).
  - left.
  - lia.
  - unfold MAXVA. lia.
  - vm_compute. congruence.
  - lia.
  - intros wa Hwa _. by apply Hempty.
  - exists m, l, d, m', l'. split; [exact Hvr|]. split; [exact E|]. split; [exact Hvr'|]. split.
    + rewrite Hup by (left || (unfold MAXVA; lia)). rewrite decide_True; [reflexivity|].
      split; [reflexivity|]. vm_compute. intuition congruence.
    + rewrite Hup by (left || (unfold MAXVA; lia)). rewrite decide_False; [apply Hempty; unfold MAXVA; lia|].
      intros [_ [H _]]. vm_compute in H. congruence.
Defined.

Lemma allocuvm_deallocuvm_witness :
  ∃ m l d m' l', vm_rep sample_end m l [d] ∧
    (sz <- allocuvm sample_end d 4096 10000;; deallocuvm sample_end d sz 4096) (m, idle_core) = Done 4096 (m', idle_core) ∧
    vm_rep sample_end m' l' [d].
Proof.
  destruct sample_space as (m & l & d & Hvr & Hl & Hempty).
  destruct (allocuvm_deallocuvm sample_end sample_end_ok m idle_core l [d] d 4096 10000 2 idle_kquiet Hvr)
    as (m' & l' & E & Hvr' & _).
  - left.
  - lia.
  - unfold MAXVA. lia.
  - vm_compute. congruence.
  - lia.
  - intros wa Hwa _. by apply Hempty.
  - exists m, l, d, m', l'. split; [exact Hvr|]. split; [exact E|exact Hvr'].
Defined.

Lemma copyuvm_copies_witness :
  ∃ m l d m' l' d', vm_rep sample_end m l [d] ∧
    copyuvm sample_end sample_pdpt d 10000 (m, idle_core) = Done d' (m', idle_core) ∧
    vm_rep sample_end m' l' [d'; d] ∧ upage m' d' 9999 = Some (zero_page, user_flags).
Proof.
  destruct sample_space as (m0 & l0 & d & Hvr0 & Hl0 & Hempty).
  destruct (allocuvm_spec sample_end sample_end_ok m0 idle_core l0 [d] d 4096 10000 2 idle_kquiet Hvr0)
    as (m & l & _ & Hvr & Hl & Hup & _); [left|lia|unfold MAXVA; lia|vm_compute; congruence|lia|auto|].
  assert (Hin : ∀ wa, 0 ≤ wa < MAXVA → in_pages PGSIZE 10000 wa → upage m d wa = Some (zero_page, user_flags)).
  { intros wa Hwa Hin. rewrite Hup by (done || left). by rewrite decide_True. }
  destruct (copyuvm_copies sample_end sample_end_ok m idle_core l [d] d sample_pdpt 10000 2 idle_kquiet Hvr)
    as (d' & m' & l' & E & _ & _ & Hvr' & Hd & _).
  - left.
  - exact sample_pdpt_valid.
  - lia.
  - vm_compute. congruence.
  - lia.
  - intros wa Hwa Hi. by rewrite Hin.
  - exists m, l, d, m', l', d'. split; [exact Hvr|]. split; [exact E|]. split; [exact Hvr'|].
    rewrite Hd by (unfold MAXVA; lia). rewrite decide_True by (vm_compute; intuition congruence).
    apply Hin; [unfold MAXVA; lia|]. vm_compute. intuition congruence.
Defined.
