(* ===== verification/Bio.v ===== *)
(** * The buffer cache (bio.c) over the memory disk (memide.c)

    The [NBUF] buffers and the list head are the elements [0 .. NBUF] of one
    array; a [struct buf *] is an index of it and [&bcache.head] is [NBUF].
    The list is kept in the [prev] and [next] fields, as in the code. *)

From S2P Require Import Prelude Params Core.

Abbreviation block := (list Z).

(** buf.h; [qnext] is a field of the IDE driver's queue only. *)
Record buf := Buf {
  b_flags : Z;
  b_dev : Z;
  b_blockno : Z;
  b_lock : sleeplock;
  b_refcnt : Z;
  b_prev : nat;
  b_next : nat;
  b_data : block
}.

Definition buf0 : buf := Buf 0 0 0 (Sleeplock false 0) 0 0 0 (replicate 512 0).
#[global] Instance buf_inhabited : Inhabited buf := populate buf0.

Definition set_flags (f : Z) (b : buf) : buf :=
  Buf f (b_dev b) (b_blockno b) (b_lock b) (b_refcnt b) (b_prev b) (b_next b) (b_data b).
Definition set_lock (l : sleeplock) (b : buf) : buf :=
  Buf (b_flags b) (b_dev b) (b_blockno b) l (b_refcnt b) (b_prev b) (b_next b) (b_data b).
Definition set_refcnt (r : Z) (b : buf) : buf :=
  Buf (b_flags b) (b_dev b) (b_blockno b) (b_lock b) r (b_prev b) (b_next b) (b_data b).
Definition set_prev (p : nat) (b : buf) : buf :=
  Buf (b_flags b) (b_dev b) (b_blockno b) (b_lock b) (b_refcnt b) p (b_next b) (b_data b).
Definition set_next (n : nat) (b : buf) : buf :=
  Buf (b_flags b) (b_dev b) (b_blockno b) (b_lock b) (b_refcnt b) (b_prev b) n (b_data b).
Definition set_data (d : block) (b : buf) : buf :=
  Buf (b_flags b) (b_dev b) (b_blockno b) (b_lock b) (b_refcnt b) (b_prev b) (b_next b) d.

(** The disk: the image it had at boot and the block writes since, newest
    first.  The contents at an earlier moment are those of a suffix. *)
Record disk := Disk {
  d_size : Z;                     (* disksize *)
  d_image : Z → block;            (* _binary_fs_img_start *)
  d_writes : list (Z * block)
}.

Fixpoint written (ws : list (Z * block)) (img : Z → block) (b : Z) : block :=
  match ws with
  | [] => img b
  | w :: ws => if b =? fst w then snd w else written ws img b
  end.
Definition dblock (d : disk) (b : Z) : block := written (d_writes d) (d_image d) b.
Definition dwrite (b : Z) (x : block) (d : disk) : disk :=
  Disk (d_size d) (d_image d) ((b, x) :: d_writes d).

Record bstate := BState {
  bs_core : core;
  bs_buf : list buf;
  bs_disk : disk
}.

Definition HEAD : nat := NBUF.
Definition bufp (s : bstate) (i : nat) : buf := bs_buf s !!! i.
Definition upd_buf (i : nat) (f : buf → buf) (s : bstate) : bstate :=
  BState (bs_core s) (alter f i (bs_buf s)) (bs_disk s).
Definition set_core (c : core) (s : bstate) : bstate := BState c (bs_buf s) (bs_disk s).
Definition set_disk (d : disk) (s : bstate) : bstate := BState (bs_core s) (bs_buf s) d.

Definition in_core {A} (m : K core A) : K bstate A := zoom bs_core set_core m.
Definition with_lock {A} (i : nat) (m : K (sleeplock * core) A) : K bstate A :=
  zoom (λ s, (b_lock (bufp s i), bs_core s))
       (λ t s, set_core (snd t) (upd_buf i (set_lock (fst t)) s)) m.

(** ** memide.c *)
Definition iderw (i : nat) : K bstate unit :=
  h <- with_lock i (holdingsleep (SL_buf i));;
  if negb h then panic "iderw: buf not locked" else
  b <- gets (λ s, bufp s i);;
  if Z.land (b_flags b) (Z.lor B_VALID B_DIRTY) =? B_VALID
  then panic "iderw: nothing to do"
  else if negb (b_dev b =? 1) then panic "iderw: request not for disk 1" else
  sz <- gets (λ s, d_size (bs_disk s));;
  if sz <=? b_blockno b then panic "iderw: block out of range" else
  (if tst (b_flags b) B_DIRTY then
     modify (upd_buf i (λ b, set_flags (Z.land (b_flags b) (Z.lnot B_DIRTY)) b)) ;;;
     modify (λ s, set_disk (dwrite (b_blockno b) (b_data b) (bs_disk s)) s)
   else
     modify (λ s, upd_buf i (set_data (dblock (bs_disk s) (b_blockno b))) s)) ;;;
  modify (upd_buf i (λ b, set_flags (Z.lor (b_flags b) B_VALID) b)).

(** ** bio.c *)

(** One turn of the loop of binit: link [b] after the head. *)
Definition link_front (b : nat) (bs : list buf) : list buf :=
  let bs := alter (set_next (b_next (bs !!! HEAD))) b bs in
  let bs := alter (set_prev HEAD) b bs in
  let bs := alter (set_prev b) (b_next (bs !!! HEAD)) bs in
  alter (set_next b) HEAD bs.

Definition binit_step (b : nat) (bs : list buf) : list buf :=
  link_front b (alter (set_lock initsleeplock) b bs).

Fixpoint binit_loop (n b : nat) (bs : list buf) : list buf :=
  match n with
  | O => bs
  | S n => binit_loop n (S b) (binit_step b bs)
  end.

Definition binit (s : bstate) : bstate :=
  let bs := alter (set_prev HEAD) HEAD (bs_buf s) in
  let bs := alter (set_next HEAD) HEAD bs in
  BState (bs_core s) (binit_loop NBUF 0 bs) (bs_disk s).

(** The two searches of bget, along [next] and along [prev].  [None] means the
    fuel ran out; [Some None] that the head was reached. *)
Fixpoint scan (fuel : nat) (link : buf → nat) (P : buf → bool) (bs : list buf)
    (b : nat) : option (option nat) :=
  match fuel with
  | O => None
  | S fuel =>
      if (b =? HEAD)%nat then Some None
      else if P (bs !!! b) then Some (Some b)
      else scan fuel link P bs (link (bs !!! b))
  end.

Definition is_block (dev blockno : Z) (b : buf) : bool :=
  (b_dev b =? dev) && (b_blockno b =? blockno).
Definition is_unused (b : buf) : bool :=
  (b_refcnt b =? 0) && (Z.land (b_flags b) B_DIRTY =? 0).

Definition bget (dev blockno : Z) : K bstate nat :=
  in_core (acquire Lk_bcache) ;;;
  r <- gets (λ s, scan (S NBUF) b_next (is_block dev blockno) (bs_buf s)
                    (b_next (bufp s HEAD)));;
  match r with
  | None => panic "bget: out of fuel"
  | Some (Some b) =>
      modify (upd_buf b (λ x, set_refcnt (u32 (b_refcnt x + 1)) x)) ;;;
      in_core (release Lk_bcache) ;;;
      with_lock b (acquiresleep (SL_buf b)) ;;;
      ret b
  | Some None =>
      r <- gets (λ s, scan (S NBUF) b_prev is_unused (bs_buf s)
                        (b_prev (bufp s HEAD)));;
      match r with
      | None => panic "bget: out of fuel"
      | Some None => panic "bget: no buffers"
      | Some (Some b) =>
          modify (upd_buf b (λ x,
            Buf 0 dev blockno (b_lock x) 1 (b_prev x) (b_next x) (b_data x))) ;;;
          in_core (release Lk_bcache) ;;;
          with_lock b (acquiresleep (SL_buf b)) ;;;
          ret b
      end
  end.

Definition bread (dev blockno : Z) : K bstate nat :=
  b <- bget dev blockno;;
  x <- gets (λ s, bufp s b);;
  (if negb (tst (b_flags x) B_VALID) then iderw b else ret tt) ;;;
  ret b.

Definition bwrite (b : nat) : K bstate unit :=
  h <- with_lock b (holdingsleep (SL_buf b));;
  if negb h then panic "bwrite" else
  modify (upd_buf b (λ x, set_flags (Z.lor (b_flags x) B_DIRTY) x)) ;;;
  iderw b.

(** The pointer updates of brelse: unlink [b], then link it after the head. *)
Definition unlink (b : nat) (bs : list buf) : list buf :=
  let bs := alter (set_prev (b_prev (bs !!! b))) (b_next (bs !!! b)) bs in
  alter (set_next (b_next (bs !!! b))) (b_prev (bs !!! b)) bs.

Definition move_front (b : nat) (s : bstate) : bstate :=
  BState (bs_core s) (link_front b (unlink b (bs_buf s))) (bs_disk s).

Definition brelse (b : nat) : K bstate unit :=
  h <- with_lock b (holdingsleep (SL_buf b));;
  if negb h then panic "brelse" else
  with_lock b (releasesleep (SL_buf b)) ;;;
  in_core (acquire Lk_bcache) ;;;
  modify (upd_buf b (λ x, set_refcnt (u32 (b_refcnt x - 1)) x)) ;;;
  x <- gets (λ s, bufp s b);;
  (if b_refcnt x =? 0 then modify (move_front b) else ret tt) ;;;
  in_core (release Lk_bcache).

(** What callers do with a buffer they hold: read and store its data, and set
    [B_DIRTY] so that it is not evicted (log_write). *)
Definition get_data (i : nat) : K bstate block := gets (λ s, b_data (bufp s i)).
Definition put_data (i : nat) (d : block) : K bstate unit := modify (upd_buf i (set_data d)).
Definition pin (i : nat) : K bstate unit :=
  modify (upd_buf i (λ x, set_flags (Z.lor (b_flags x) B_DIRTY) x)).
