(* ===== verification/BioSpec.v ===== *)
(** * The recency list of the buffer cache

    The [prev]/[next] fields of bio.c form a ring through the head; this file
    relates them to the list of buffers in recency order, and shows that the
    pointer updates of binit and brelse are cons and move-to-front on it. *)

From S2P Require Import Prelude Params Core Bio.

Section ring.
Implicit Types (bs : list buf) (l : list nat) (a b x z : nat).

(** Following [next] from [a] visits [l] and then [z], and [prev] goes back. *)
Fixpoint chain bs a l z : Prop :=
  match l with
  | [] => b_next (bs !!! a) = z ∧ b_prev (bs !!! z) = a
  | x :: l => b_next (bs !!! a) = x ∧ b_prev (bs !!! x) = a ∧ chain bs x l z
  end.

(** The recency list of the cache: most recently used first. *)
Definition lru bs l : Prop :=
  chain bs HEAD l HEAD ∧ NoDup l ∧ (∀ x, x ∈ l ↔ (x < NBUF)%nat).

Lemma chain_app bs a l1 x l2 z :
  chain bs a (l1 ++ x :: l2) z ↔ chain bs a l1 x ∧ chain bs x l2 z.
Proof.
  revert a. induction l1 as [|y l1 IH]; intros a; simpl; [tauto|].
  rewrite IH. tauto.
Qed.

Lemma lru_length bs l : lru bs l → length l = NBUF.
Proof.
  intros (_ & Hnd & Hin). transitivity (length (seq 0 NBUF)); [|apply length_seq].
  apply Permutation_length, NoDup_Permutation; [done|apply NoDup_seq|].
  intros x. rewrite Hin, elem_of_seq. lia.
Qed.

(** A chain only depends on the links of its elements. *)
Lemma chain_ext bs bs' a l z :
  (∀ x, x ∈ a :: l → b_next (bs' !!! x) = b_next (bs !!! x)) →
  (∀ x, x ∈ l ++ [z] → b_prev (bs' !!! x) = b_prev (bs !!! x)) →
  chain bs a l z → chain bs' a l z.
Proof.
  revert a. induction l as [|y l IH]; intros a Hn Hp; simpl.
  - by rewrite Hn, Hp by (by left).
  - rewrite Hn, Hp by (by left). intros (? & ? & ?).
    repeat split; try done. apply IH; [| |done].
    + intros x Hx. apply Hn. by right.
    + intros x Hx. apply Hp. by right.
Qed.

Definition same_links bs bs' : Prop :=
  ∀ x, b_next (bs' !!! x) = b_next (bs !!! x) ∧ b_prev (bs' !!! x) = b_prev (bs !!! x).

Lemma lru_ext bs bs' l : same_links bs bs' → lru bs l → lru bs' l.
Proof.
  intros H (Hc & ? & ?). split; [|done].
  eapply chain_ext; [| |done]; intros x _; apply H.
Qed.

(** An update of one buffer that keeps its links. *)
Lemma same_links_alter bs (f : buf → buf) i :
  (∀ b : buf, b_next (f b) = b_next b ∧ b_prev (f b) = b_prev b) →
  same_links bs (alter f i bs).
Proof.
  intros Hf x. destruct (decide (x = i)) as [->|].
  - destruct (decide (i < length bs)%nat).
    + rewrite list_lookup_total_alter_eq by done. apply Hf.
    + rewrite list_alter_ge by lia. done.
  - by rewrite list_lookup_total_alter_ne.
Qed.

(** ** Reading a pointer after an update *)
Lemma next_set_next bs b n x :
  (b < length bs)%nat →
  b_next (alter (set_next n) b bs !!! x) = if decide (x = b) then n else b_next (bs !!! x).
Proof.
  intros H. case_decide as Hx; [subst x|].
  - by rewrite list_lookup_total_alter_eq.
  - by rewrite list_lookup_total_alter_ne.
Qed.

Lemma prev_set_prev bs b n x :
  (b < length bs)%nat →
  b_prev (alter (set_prev n) b bs !!! x) = if decide (x = b) then n else b_prev (bs !!! x).
Proof.
  intros H. case_decide as Hx; [subst x|].
  - by rewrite list_lookup_total_alter_eq.
  - by rewrite list_lookup_total_alter_ne.
Qed.

Lemma next_set_prev bs b n x : b_next (alter (set_prev n) b bs !!! x) = b_next (bs !!! x).
Proof.
  destruct (decide (x = b)) as [->|]; [|by rewrite list_lookup_total_alter_ne].
  destruct (decide (b < length bs)%nat); [by rewrite list_lookup_total_alter_eq|].
  by rewrite list_alter_ge by lia.
Qed.

Lemma prev_set_next bs b n x : b_prev (alter (set_next n) b bs !!! x) = b_prev (bs !!! x).
Proof.
  destruct (decide (x = b)) as [->|]; [|by rewrite list_lookup_total_alter_ne].
  destruct (decide (b < length bs)%nat); [by rewrite list_lookup_total_alter_eq|].
  by rewrite list_alter_ge by lia.
Qed.

(** ** The searches *)
Lemma scan_next_chain fuel P bs a l :
  chain bs a l HEAD → HEAD ∉ l → (length l < fuel)%nat →
  scan fuel b_next P bs (b_next (bs !!! a))
    = Some (find (λ x, P (bs !!! x)) l).
Proof.
  revert fuel a. induction l as [|y l IH]; intros fuel a Hc Hh Hf; simpl in *.
  - destruct Hc as [-> _]. destruct fuel; [lia|]. cbn [scan].
    by rewrite Nat.eqb_refl.
  - destruct Hc as (-> & _ & Hc). destruct fuel; [lia|]. cbn [scan].
    apply not_elem_of_cons in Hh as [Hy Hh].
    rewrite (proj2 (Nat.eqb_neq y HEAD)) by done.
    destruct (P (bs !!! y)); [done|]. apply IH; [done|done|lia].
Qed.

Lemma chain_last bs a l z : chain bs a l z → b_prev (bs !!! z) = default a (last l).
Proof.
  revert a. induction l as [|y l IH]; intros a; cbn [chain]; [by intros [? ?]|].
  intros (? & ? & Hc). apply IH in Hc. rewrite Hc, last_cons. by destruct (last l).
Qed.

Lemma scan_prev_chain fuel P bs l z :
  chain bs HEAD l z → HEAD ∉ l → (length l < fuel)%nat →
  scan fuel b_prev P bs (b_prev (bs !!! z))
    = Some (find (λ x, P (bs !!! x)) (reverse l)).
Proof.
  revert fuel z. induction l as [|y l IH] using rev_ind; intros fuel z Hc Hh Hf; simpl in *.
  - destruct Hc as [_ ->]. destruct fuel; [lia|]. cbn [scan]. by rewrite Nat.eqb_refl.
  - apply chain_app in Hc as (Hc & Hyz). simpl in Hyz. destruct Hyz as [_ ->].
    rewrite reverse_app. cbn [reverse rev_append app]. rewrite length_app in Hf. simpl in Hf.
    apply not_elem_of_app in Hh as [Hh Hy]. apply not_elem_of_cons in Hy as [Hy _].
    destruct fuel; [lia|]. cbn [scan]. rewrite (proj2 (Nat.eqb_neq y HEAD)) by done.
    change (reverse [y] ++ reverse l) with (y :: reverse l). simpl.
    destruct (P (bs !!! y)); [done|]. apply IH; [done|done|lia].
Qed.

(** ** Unlinking and linking *)
Lemma chain_unlink bs bs' a l1 b l2 z :
  chain bs a l1 b → chain bs b l2 z →
  (∀ x, b_next (bs' !!! x) =
        if decide (x = b_prev (bs !!! b)) then b_next (bs !!! b) else b_next (bs !!! x)) →
  (∀ x, b_prev (bs' !!! x) =
        if decide (x = b_next (bs !!! b)) then b_prev (bs !!! b) else b_prev (bs !!! x)) →
  NoDup (a :: l1) → NoDup (l2 ++ [z]) →
  (∀ x, x ∈ a :: l1 → x ∉ l2) → (∀ x, x ∈ l1 → x ≠ z) →
  chain bs' a (l1 ++ l2) z.
Proof.
  intros H1 H2 Hn Hp. revert a H1. induction l1 as [|y l1 IH]; intros a H1 Hnd Hnd2 Hd Hz; simpl in *.
  - destruct H1 as [Ha Hb]. destruct l2 as [|n l2]; simpl in *.
    + destruct H2 as [Hz' _]. rewrite Hn, Hp, Hb, Hz'. by rewrite !decide_True by done.
    + destruct H2 as (Hn' & _ & H2). rewrite Hn, Hp, Hb, Hn'. rewrite !decide_True by done.
      split; [done|]. split; [done|]. apply NoDup_cons in Hnd2 as [Hn2 Hnd2].
      eapply chain_ext; [| |done].
      * intros x Hx. rewrite Hn, decide_False; [done|]. rewrite Hb. intros ->.
        apply (Hd a); [by left|done].
      * intros x Hx. rewrite Hp, decide_False; [done|]. rewrite Hn'. by intros ->.
  - destruct H1 as (Ha & Hy & H1). pose proof (chain_last _ _ _ _ H1) as Hl.
    assert (Hpb : b_prev (bs !!! b) ∈ y :: l1).
    { rewrite Hl. destruct (last l1) eqn:E; simpl; [|by left].
      right. by apply last_Some_elem_of. }
    assert (Hnb : b_next (bs !!! b) ∈ l2 ++ [z]).
    { destruct l2; simpl in H2; [destruct H2 as [-> _]|destruct H2 as (-> & _)]; by left. }
    apply NoDup_cons in Hnd as [Hna Hnd].
    split; [|split].
    + rewrite Hn, decide_False; [done|]. intros ->. done.
    + rewrite Hp, decide_False; [done|]. intros ->. apply elem_of_app in Hnb as [Hnb|Hnb].
      * apply (Hd (b_next (bs !!! b))); [right; by left|done].
      * apply list_elem_of_singleton in Hnb. apply (Hz (b_next (bs !!! b))); [by left|done].
    + apply IH; [done|done|done| |].
      * intros x Hx. apply Hd. by right.
      * intros x Hx. apply Hz. by right.
Qed.

Lemma next_unlink bs b x :
  b ≠ b_next (bs !!! b) → (b_prev (bs !!! b) < length bs)%nat →
  b_next (unlink b bs !!! x) =
    if decide (x = b_prev (bs !!! b)) then b_next (bs !!! b) else b_next (bs !!! x).
Proof.
  intros Hb Hl. unfold unlink. rewrite next_set_prev.
  rewrite (list_lookup_total_alter_ne _ _ _ b) by done.
  rewrite next_set_next by (by rewrite length_alter).
  by rewrite next_set_prev.
Qed.

Lemma prev_unlink bs b x :
  (b_next (bs !!! b) < length bs)%nat →
  b_prev (unlink b bs !!! x) =
    if decide (x = b_next (bs !!! b)) then b_prev (bs !!! b) else b_prev (bs !!! x).
Proof.
  intros Hl. unfold unlink. rewrite prev_set_next. by rewrite prev_set_prev.
Qed.

Lemma length_link_front b bs : length (link_front b bs) = length bs.
Proof. unfold link_front. by rewrite !length_alter. Qed.
Lemma length_unlink b bs : length (unlink b bs) = length bs.
Proof. unfold unlink. by rewrite !length_alter. Qed.

Lemma chain_link_front bs b l :
  chain bs HEAD l HEAD → NoDup l → HEAD ∉ l → b ∉ l → b ≠ HEAD →
  (b < length bs)%nat → (HEAD < length bs)%nat →
  (∀ x, x ∈ l → (x < length bs)%nat) →
  chain (link_front b bs) HEAD (b :: l) HEAD.
Proof.
  intros Hc Hnd Hh Hb HbH Hlb HlH Hl.
  assert (Hfirst : b_next (bs !!! HEAD) ∈ l ++ [HEAD]).
  { destruct l; simpl in Hc; [destruct Hc as [-> _]|destruct Hc as (-> & _)]; by left. }
  assert (Hne : b_next (bs !!! HEAD) ≠ b).
  { intros E. rewrite E in Hfirst. apply elem_of_app in Hfirst as [?|Hx]; [done|].
    by apply list_elem_of_singleton in Hx. }
  assert (Hlt : (b_next (bs !!! HEAD) < length bs)%nat).
  { apply elem_of_app in Hfirst as [?|Hx]; [by apply Hl|].
    apply list_elem_of_singleton in Hx. by rewrite Hx. }
  assert (HN : ∀ x, b_next (link_front b bs !!! x) =
    if decide (x = HEAD) then b
    else if decide (x = b) then b_next (bs !!! HEAD) else b_next (bs !!! x)).
  { intros x. unfold link_front. rewrite next_set_next by (by rewrite !length_alter).
    case_decide; [done|]. rewrite !next_set_prev. by rewrite next_set_next. }
  assert (HP : ∀ x, b_prev (link_front b bs !!! x) =
    if decide (x = b_next (bs !!! HEAD)) then b
    else if decide (x = b) then HEAD else b_prev (bs !!! x)).
  { intros x. unfold link_front. rewrite prev_set_next, next_set_prev.
    rewrite next_set_next, (decide_False (P := HEAD = b)) by done.
    rewrite prev_set_prev by (by rewrite !length_alter). case_decide; [done|].
    rewrite prev_set_prev by (by rewrite !length_alter). by rewrite prev_set_next. }
  simpl. rewrite HN, HP. rewrite decide_True, decide_False, decide_True by done.
  split; [done|]. split; [done|].
  destruct l as [|y l]; simpl in *.
  - destruct Hc as [Hc _]. rewrite HN, HP, decide_False, decide_True by done.
    rewrite Hc, decide_True by done. done.
  - destruct Hc as (Hy & _ & Hc). rewrite HN, HP, decide_False, decide_True by done.
    rewrite Hy, decide_True by done. split; [done|]. split; [done|].
    apply NoDup_cons in Hnd as [Hny Hnd].
    eapply chain_ext; [| |done].
    + intros x Hx. rewrite HN, !decide_False; [done| |]; by intros ->.
    + intros x Hx. rewrite HP, Hy, !decide_False; [done| |].
      * intros ->. apply elem_of_app in Hx as [Hx|Hx]; [by apply Hb; right|].
        by apply list_elem_of_singleton in Hx.
      * intros ->. apply elem_of_app in Hx as [Hx|Hx]; [done|].
        apply list_elem_of_singleton in Hx. apply Hh. rewrite Hx. by left.
Qed.

Lemma filter_delete_mid (l1 l2 : list nat) b :
  NoDup (l1 ++ b :: l2) → filter (λ x, x ≠ b) (l1 ++ b :: l2) = l1 ++ l2.
Proof.
  intros Hnd. apply NoDup_app in Hnd as (Hnd1 & Hd & Hnd2).
  apply NoDup_cons in Hnd2 as [Hb _].
  rewrite filter_app, filter_cons_False by tauto.
  assert (Hid : ∀ k : list nat, b ∉ k → filter (λ x, x ≠ b) k = k).
  { intros k. induction k as [|y k IH]; intros Hk; [done|].
    apply not_elem_of_cons in Hk as [? ?]. rewrite filter_cons_True by congruence.
    by rewrite IH. }
  rewrite !Hid; [done|done|]. intros Hx. apply (Hd b Hx). by left.
Qed.

Lemma lru_move_front bs l b :
  lru bs l → length bs = S NBUF → (b < NBUF)%nat →
  lru (link_front b (unlink b bs)) (b :: filter (λ x, x ≠ b) l).
Proof.
  intros (Hc & Hnd & Hin) Hlen Hb.
  assert (Hbl : b ∈ l) by (by apply Hin).
  apply list_elem_of_split in Hbl as (l1 & l2 & ->).
  assert (Hh : HEAD ∉ l1 ++ b :: l2) by (rewrite Hin; unfold HEAD; lia).
  rewrite filter_delete_mid by done.
  apply chain_app in Hc as [H1 H2].
  apply NoDup_app in Hnd as (Hnd1 & Hd & Hnd2).
  apply NoDup_cons in Hnd2 as [Hb2 Hnd2].
  apply not_elem_of_app in Hh as [Hh1 Hh2]. apply not_elem_of_cons in Hh2 as [HbH Hh2].
  assert (Hnb : b_next (bs !!! b) ∈ l2 ++ [HEAD]).
  { destruct l2; simpl in H2; [destruct H2 as [-> _]|destruct H2 as (-> & _)]; by left. }
  assert (Hpb : b_prev (bs !!! b) ∈ HEAD :: l1).
  { rewrite (chain_last _ _ _ _ H1). destruct (last l1) eqn:E; simpl; [|by left].
    right. by apply last_Some_elem_of. }
  assert (Hlt : ∀ x, x ∈ l1 ++ b :: l2 → (x < length bs)%nat).
  { intros x Hx. apply Hin in Hx. lia. }
  assert (Hc' : chain (unlink b bs) HEAD (l1 ++ l2) HEAD).
  { eapply (chain_unlink bs); [done|done| | | | | |].
    - intros x. apply next_unlink.
      + intros E. rewrite <- E in Hnb. apply elem_of_app in Hnb as [?|Hx]; [done|].
        by apply list_elem_of_singleton in Hx.
      + apply elem_of_cons in Hpb as [->|Hx]; [unfold HEAD; lia|].
        apply Hlt, elem_of_app. by left.
    - intros x. apply prev_unlink. apply elem_of_app in Hnb as [Hx|Hx].
      + apply Hlt, elem_of_app. right. by right.
      + apply list_elem_of_singleton in Hx. rewrite Hx. unfold HEAD. lia.
    - by apply NoDup_cons.
    - apply NoDup_app. split; [done|]. split; [|apply NoDup_singleton].
      intros x Hx Hx'. apply list_elem_of_singleton in Hx'. by subst.
    - intros x Hx Hx2. apply elem_of_cons in Hx as [->|Hx]; [done|].
      apply (Hd x Hx). by right.
    - intros x Hx ->. done. }
  assert (Hnd12 : NoDup (l1 ++ l2)).
  { apply NoDup_app. split; [done|]. split; [|done]. intros x Hx Hx2.
    apply (Hd x Hx). by right. }
  assert (Hb12 : b ∉ l1 ++ l2).
  { apply not_elem_of_app. split; [|done]. intros Hx. apply (Hd b Hx). by left. }
  split; [|split].
  - apply chain_link_front; rewrite ?length_unlink; try done.
    + by apply not_elem_of_app.
    + lia.
    + unfold HEAD. lia.
    + intros x Hx. apply Hlt. apply elem_of_app in Hx as [?|?]; apply elem_of_app; [by left|].
      right. by right.
  - by apply NoDup_cons.
  - intros x. rewrite <- Hin, elem_of_cons, !elem_of_app, elem_of_cons. tauto.
Qed.

(** ** binit *)
Lemma binit_loop_chain n b bs :
  (b + n ≤ NBUF)%nat → length bs = S NBUF →
  chain bs HEAD (reverse (seq 0 b)) HEAD →
  chain (binit_loop n b bs) HEAD (reverse (seq 0 (b + n))) HEAD.
Proof.
  revert b bs. induction n as [|n IH]; intros b bs Hn Hl Hc; cbn [binit_loop].
  - by rewrite Nat.add_0_r.
  - replace (b + S n)%nat with (S b + n)%nat by lia. apply IH; [lia| |].
    + unfold binit_step. by rewrite length_link_front, length_alter.
    + rewrite seq_S, reverse_app. cbn [reverse rev_append app].
      unfold binit_step. apply chain_link_front; rewrite ?length_alter.
      * eapply chain_ext; [| |done]; intros x _; by apply same_links_alter.
      * rewrite reverse_Permutation; apply NoDup_seq.
      * rewrite elem_of_reverse, elem_of_seq. unfold HEAD. lia.
      * rewrite elem_of_reverse, elem_of_seq. lia.
      * unfold HEAD. lia.
      * lia.
      * unfold HEAD. lia.
      * intros x. rewrite elem_of_reverse, elem_of_seq. lia.
Qed.

Lemma binit_lru s :
  length (bs_buf s) = S NBUF → lru (bs_buf (binit s)) (reverse (seq 0 NBUF)).
Proof.
  intros Hl. split; [|split].
  - unfold binit. cbn [bs_buf]. apply (binit_loop_chain NBUF 0); [lia|by rewrite !length_alter|].
    cbn [reverse rev_append seq chain]. unfold HEAD.
    rewrite list_lookup_total_alter_eq by (rewrite length_alter; lia).
    by rewrite list_lookup_total_alter_eq by lia.
  - rewrite reverse_Permutation; apply NoDup_seq.
  - intros x. rewrite elem_of_reverse, elem_of_seq. lia.
Qed.
End ring.

(** * What the buffer cache promises

    [brep s V H W] relates a state of the cache and the disk to what a caller
    needs to know of it: [V] is the content of every block, [H] the buffers the
    caller holds and their block numbers, [W] the blocks whose buffers are dirty
    (pinned by the log).  A block that is neither held nor pinned has the same
    content on the disk. *)

Definition bview : Type := Z → block.
Definition bupd (b : Z) (d : block) (V : bview) : bview :=
  λ x, if x =? b then d else V x.

Section rep.
Implicit Types (s : bstate) (V : bview) (H : gmap nat Z) (W : gset Z).
Implicit Types (i j : nat) (b : Z).

Definition free_buf H i (x : buf) : Prop :=
  H !! i = None ∧ b_refcnt x = 0 ∧ sl_locked (b_lock x) = false.
Definition held_buf H i (x : buf) : Prop :=
  H !! i = Some (b_blockno x) ∧ b_refcnt x = 1 ∧ sl_locked (b_lock x) = true.

Definition flags_of W b : Z := if bool_decide (b ∈ W) then 6 else 2.

Definition buf_rep V H W (sz : Z) i (x : buf) : Prop :=
  (b_dev x = 0 ∧ b_flags x = 0 ∧ free_buf H i x) ∨
  (b_dev x = 1 ∧ 0 ≤ b_blockno x < sz ∧ b_data x = V (b_blockno x) ∧
   b_flags x = flags_of W (b_blockno x) ∧ (free_buf H i x ∨ held_buf H i x)).

Definition caches s i b : Prop :=
  (i < NBUF)%nat ∧ b_dev (bufp s i) = 1 ∧ b_blockno (bufp s i) = b.

Record brep s V H W : Prop := {
  br_quiet : quiet (bs_core s);
  br_len : length (bs_buf s) = S NBUF;
  br_lru : ∃ l, lru (bs_buf s) l;
  br_uniq : ∀ i j b, caches s i b → caches s j b → i = j;
  br_buf : ∀ i, (i < NBUF)%nat → buf_rep V H W (d_size (bs_disk s)) i (bufp s i);
  br_H : ∀ i b, H !! i = Some b → (i < NBUF)%nat;
  br_W : ∀ b, b ∈ W → ∃ i, caches s i b;
  br_disk : ∀ b, 0 ≤ b < d_size (bs_disk s) → b ∉ W → (∀ i, H !! i ≠ Some b) →
            V b = dblock (bs_disk s) b
}.

(** The parts of a state that computations outside the buffers change. *)
Lemma lookup_alter_buf s i f j :
  (i < length (bs_buf s))%nat →
  bufp (upd_buf i f s) j = if decide (j = i) then f (bufp s i) else bufp s j.
Proof.
  intros Hl. unfold bufp, upd_buf; simpl. case_decide; subst.
  - by rewrite list_lookup_total_alter_eq.
  - by rewrite list_lookup_total_alter_ne.
Qed.

Definition keeps_links (f : buf → buf) : Prop :=
  ∀ x, b_next (f x) = b_next x ∧ b_prev (f x) = b_prev x.

(** One buffer changes, and with it the caller's view. *)
Lemma brep_alter s V H W i f c d V' H' W' :
  brep s V H W → (i < NBUF)%nat → quiet c → keeps_links f →
  d_size d = d_size (bs_disk s) →
  buf_rep V' H' W' (d_size d) i (f (bufp s i)) →
  (∀ j, (j < NBUF)%nat → j ≠ i → buf_rep V H W (d_size d) j (bufp s j) →
        buf_rep V' H' W' (d_size d) j (bufp s j)) →
  (∀ j, b_dev (f (bufp s i)) = 1 → caches s j (b_blockno (f (bufp s i))) → j = i) →
  (∀ j b, H' !! j = Some b → j = i ∨ H !! j = Some b) →
  (∀ b, b ∈ W' → (b_dev (f (bufp s i)) = 1 ∧ b_blockno (f (bufp s i)) = b) ∨
                 ∃ j, j ≠ i ∧ caches s j b) →
  (∀ b, 0 ≤ b < d_size d → b ∉ W' → (∀ j, H' !! j ≠ Some b) → V' b = dblock d b) →
  brep (BState c (alter f i (bs_buf s)) d) V' H' W'.
Proof.
  intros [Hq Hl [l Hlru] Hu Hb HH HW Hd] Hi Hc Hf Hsz Hnew Hold Huniq HH' HW' Hd'.
  assert (Hlook : ∀ j, bufp (BState c (alter f i (bs_buf s)) d) j
                  = if decide (j = i) then f (bufp s i) else bufp s j).
  { intros j. rewrite <- lookup_alter_buf by lia. done. }
  split; simpl; try done.
  - by rewrite length_alter.
  - exists l. eapply lru_ext; [|done]. by apply same_links_alter.
  - intros j k b (Hj & Hj1 & Hj2) (Hk & Hk1 & Hk2). rewrite Hlook in Hj1, Hj2, Hk1, Hk2.
    destruct (decide (j = i)) as [->|], (decide (k = i)) as [->|]; try done.
    + symmetry. apply Huniq; [done|]. repeat split; congruence.
    + apply Huniq; [done|]. repeat split; congruence.
    + apply (Hu j k b); by repeat split.
  - intros j Hj. rewrite Hlook. case_decide; subst; [done|].
    apply Hold; [done|done|]. rewrite Hsz. by apply Hb.
  - intros j b Hj. destruct (HH' j b Hj) as [->|?]; [done|]. by eapply HH.
  - intros b Hb'. destruct (HW' b Hb') as [[? ?]|(j & ? & Hj & ? & ?)].
    + exists i. unfold caches. rewrite Hlook, decide_True by done. done.
    + exists j. unfold caches. rewrite Hlook, decide_False by done. done.
Qed.

Lemma buf_rep_ext V V' H H' W W' sz i x :
  buf_rep V H W sz i x →
  H' !! i = H !! i →
  (b_dev x = 1 → V' (b_blockno x) = V (b_blockno x) ∧
                 (b_blockno x ∈ W' ↔ b_blockno x ∈ W)) →
  buf_rep V' H' W' sz i x.
Proof.
  intros Hr HH HV. unfold buf_rep, free_buf, held_buf, flags_of in *. rewrite HH.
  destruct Hr as [Hr|(Hd & Hr)]; [by left|right]. destruct (HV Hd) as [-> HW].
  by rewrite (bool_decide_ext _ _ HW).
Qed.

(** ** The primitive steps *)
Lemma in_core_acquire l s :
  quiet (bs_core s) →
  in_core (acquire l) s = Done tt (set_core (set_held [l] (bs_core s)) s).
Proof.
  intros Hq. unfold in_core, zoom. rewrite acquire_ok by auto with kernel.
  destruct Hq as [-> _]. done.
Qed.

Lemma in_core_release l s :
  c_held (bs_core s) = [l] →
  in_core (release l) s = Done tt (set_core (set_held [] (bs_core s)) s).
Proof.
  intros Hh. unfold in_core, zoom.
  by rewrite (release_head _ []) by (done || apply not_elem_of_nil).
Qed.

Lemma with_lock_acquire s i :
  quiet (bs_core s) → sl_locked (b_lock (bufp s i)) = false →
  with_lock i (acquiresleep (SL_buf i)) s =
    Done tt (upd_buf i (set_lock (Sleeplock true (cur_pid (bs_core s)))) s).
Proof.
  intros Hq Hl. unfold with_lock, zoom. rewrite acquiresleep_ok by done. done.
Qed.

Lemma alter_lock_same s i : alter (set_lock (b_lock (bufp s i))) i (bs_buf s) = bs_buf s.
Proof.
  apply list_eq. intros j. destruct (decide (i = j)) as [<-|].
  - rewrite list_lookup_alter_eq. unfold bufp.
    destruct (bs_buf s !! i) as [x|] eqn:E; simpl; [|done].
    rewrite (list_lookup_total_correct _ _ _ E). by destruct x.
  - by rewrite list_lookup_alter_ne.
Qed.

Lemma with_lock_holding s i :
  quiet (bs_core s) →
  with_lock i (holdingsleep (SL_buf i)) s = Done (sl_locked (b_lock (bufp s i))) s.
Proof.
  intros Hq. unfold with_lock, zoom. rewrite holdingsleep_ok by done. simpl.
  unfold upd_buf, set_core; simpl. rewrite alter_lock_same. by destruct s.
Qed.

Lemma with_lock_release s i :
  quiet (bs_core s) →
  with_lock i (releasesleep (SL_buf i)) s =
    Done tt (set_core (woken (Ch_sleeplock (SL_buf i)) (bs_core s))
               (upd_buf i (set_lock (Sleeplock false 0)) s)).
Proof. intros Hq. unfold with_lock, zoom. by rewrite releasesleep_ok. Qed.
Lemma quiet_reset c l : quiet c → set_held [] (set_held [l] c) = c.
Proof. intros [Hh _]. destruct c; simpl in *. by subst. Qed.

(** The search along [next]: the buffer of the block, if it is cached. *)
Lemma scan_block s V H W b :
  brep s V H W →
  scan (S NBUF) b_next (is_block 1 b) (bs_buf s) (b_next (bufp s HEAD)) = Some None ∧
    (∀ i, ¬ caches s i b) ∨
  ∃ i, scan (S NBUF) b_next (is_block 1 b) (bs_buf s) (b_next (bufp s HEAD))
         = Some (Some i) ∧ caches s i b.
Proof.
  intros Hr. destruct (br_lru _ _ _ _ Hr) as (l & Hlru). pose proof (lru_length _ _ Hlru).
  destruct Hlru as (Hc & Hnd & Hin).
  change (bufp s HEAD) with (bs_buf s !!! HEAD). rewrite (scan_next_chain _ _ _ _ l);
    [|done|rewrite Hin; unfold HEAD; lia|lia].
  destruct (find _ l) as [i|] eqn:E.
  - right. exists i. split; [done|]. apply find_some in E as [Hi Hb].
    apply list_elem_of_In, Hin in Hi. unfold is_block in Hb.
    apply andb_true_iff in Hb as [H1%Z.eqb_eq H2%Z.eqb_eq]. done.
  - left. split; [done|]. intros i (Hi & Hd & Hb).
    apply Hin, list_elem_of_In in Hi. pose proof (find_none _ _ E i Hi) as Hn.
    unfold is_block in Hn. unfold bufp in Hd, Hb.
    by rewrite Hd, Hb, !Z.eqb_refl in Hn.
Qed.

Lemma bget_hit s V H W i b :
  brep s V H W → caches s i b → (∀ j, H !! j ≠ Some b) →
  bget 1 b s = Done i (upd_buf i (λ x, set_lock (Sleeplock true (cur_pid (bs_core s)))
                                         (set_refcnt 1 x)) s) ∧ H !! i = None.
Proof.
  intros Hr Hc Hn. pose proof (br_quiet _ _ _ _ Hr) as Hq.
  destruct (scan_block s V H W b Hr) as [[_ Hno]|(j & Hs & Hj)]; [by destruct (Hno i)|].
  assert (j = i) as -> by (by eapply br_uniq).
  destruct Hc as (Hi & Hd & Hb).
  destruct (br_buf _ _ _ _ Hr i Hi) as [(? & _)|(_ & _ & _ & _ & Hh)]; [lia|].
  destruct Hh as [(HH & Hrc & Hlk)|(HH & _)].
  2: { rewrite Hb in HH. by destruct (Hn i). }
  split; [|done]. unfold bget, bind. rewrite in_core_acquire by done. unfold gets, bufp. cbn [bs_buf set_core].
  unfold bufp in Hs. rewrite Hs. unfold modify.
  rewrite in_core_release by done. rewrite with_lock_acquire.
  - unfold ret, upd_buf, set_core; simpl. rewrite quiet_reset by done. f_equal. f_equal.
    rewrite list_alter_alter_eq. apply list_alter_ext; [|done].
    intros x Hx. apply (list_lookup_total_correct) in Hx. unfold bufp in Hrc.
    rewrite Hx in Hrc. simpl. by rewrite Hrc.
  - simpl. by rewrite quiet_reset.
  - unfold bufp, upd_buf, set_core; simpl.
    rewrite list_lookup_total_alter_eq by (rewrite (br_len _ _ _ _ Hr); lia). done.
Qed.

(** ** Finding an unused buffer *)
Definition unused s i : Prop :=
  (i < NBUF)%nat ∧ is_unused (bufp s i) = true.

Lemma scan_unused s V H W :
  brep s V H W → (∃ i, unused s i) →
  ∃ i, scan (S NBUF) b_prev is_unused (bs_buf s) (b_prev (bufp s HEAD))
         = Some (Some i) ∧ unused s i.
Proof.
  intros Hr [k [Hk Huk]]. destruct (br_lru _ _ _ _ Hr) as (l & Hlru).
  pose proof (lru_length _ _ Hlru). destruct Hlru as (Hc & Hnd & Hin).
  change (bufp s HEAD) with (bs_buf s !!! HEAD). rewrite (scan_prev_chain _ _ _ l);
    [|done|rewrite Hin; unfold HEAD; lia|lia].
  destruct (find _ (reverse l)) as [i|] eqn:E.
  - exists i. split; [done|]. apply find_some in E as [Hi Hb].
    apply list_elem_of_In in Hi. rewrite elem_of_reverse in Hi. split; [by apply Hin|done].
  - exfalso. apply Hin in Hk. rewrite <- elem_of_reverse in Hk. apply list_elem_of_In in Hk.
    pose proof (find_none _ _ E k Hk) as Hn. unfold bufp in Huk. simpl in Hn. congruence.
Qed.

Lemma flags_dirty W b : Z.land (flags_of W b) B_DIRTY = if bool_decide (b ∈ W) then 4 else 0.
Proof. unfold flags_of. by case_bool_decide. Qed.

(** With fewer held and pinned blocks than buffers, some buffer is unused. *)
Lemma unused_exists s V H W :
  brep s V H W → (size H + size W < NBUF)%nat → ∃ i, unused s i.
Proof.
  intros Hr Hsz.
  destruct (decide (Exists (λ i, is_unused (bufp s i) = true) (seq 0 NBUF))) as [He|He].
  { apply Exists_exists in He as (i & Hi & Hu). apply elem_of_seq in Hi.
    exists i. split; [lia|done]. }
  exfalso. apply not_Exists_Forall in He; [|intros; apply _].
  rewrite Forall_forall in He.
  assert (Hcase : ∀ i, (i < NBUF)%nat → is_Some (H !! i) ∨
            (b_dev (bufp s i) = 1 ∧ b_blockno (bufp s i) ∈ W)).
  { intros i Hi. pose proof (He i ltac:(apply elem_of_seq; lia)) as Hu. simpl in Hu.
    unfold is_unused in Hu.
    destruct (br_buf _ _ _ _ Hr i Hi) as [(_ & Hf & _ & Hrc & _)|(Hd & _ & _ & Hf & Hh)].
    { rewrite Hf, Hrc in Hu. done. }
    destruct Hh as [(_ & Hrc & _)|(HH & _)]; [|left; by rewrite HH].
    right. split; [done|]. rewrite Hf, Hrc, flags_dirty in Hu.
    case_bool_decide; [done|]. by destruct Hu. }
  pose (X := filter (λ i, H !! i = None) (seq 0 NBUF)).
  assert (HX : (length X ≤ size W)%nat).
  { rewrite <- (length_fmap (λ i, b_blockno (bufp s i)) X).
    change (size W) with (length (elements W)).
    apply submseteq_length, NoDup_submseteq.
    - apply NoDup_fmap_2_strong; [|apply NoDup_filter, NoDup_seq].
      intros i j Hi Hj Hij. apply list_elem_of_filter in Hi as [Hi1 Hi2].
      apply list_elem_of_filter in Hj as [Hj1 Hj2]. apply elem_of_seq in Hi2, Hj2.
      destruct (Hcase i ltac:(lia)) as [[? ?]|[Hdi _]]; [congruence|].
      destruct (Hcase j ltac:(lia)) as [[? ?]|[Hdj _]]; [congruence|].
      eapply (br_uniq _ _ _ _ Hr); repeat split; [lia|done|lia|done|done].
    - intros b Hb. apply list_elem_of_fmap in Hb as (i & -> & Hi).
      apply list_elem_of_filter in Hi as [Hi1 Hi2]. apply elem_of_seq in Hi2.
      destruct (Hcase i ltac:(lia)) as [[? ?]|[_ HW]]; [congruence|].
      by apply elem_of_elements. }
  pose (Y := filter (λ i, H !! i ≠ None) (seq 0 NBUF)).
  assert (HY : (length Y ≤ size H)%nat).
  { rewrite <- (size_dom H). change (size (dom H)) with (length (elements (dom H))).
    apply submseteq_length, NoDup_submseteq; [apply NoDup_filter, NoDup_seq|].
    intros i Hi. apply list_elem_of_filter in Hi as [Hi _].
    apply elem_of_elements, elem_of_dom. by destruct (H !! i). }
  assert (HXY : (length X + length Y = NBUF)%nat).
  { transitivity (length (seq 0 NBUF)); [|apply length_seq]. unfold X, Y.
    generalize (seq 0 NBUF). intros k. induction k as [|a k IH]; [done|].
    destruct (H !! a) eqn:E.
    - rewrite (filter_cons_False (λ i, H !! i = None)) by congruence.
      rewrite (filter_cons_True (λ i, H !! i ≠ None)) by congruence. simpl. lia.
    - rewrite (filter_cons_True (λ i, H !! i = None)) by congruence.
      rewrite (filter_cons_False (λ i, H !! i ≠ None)) by tauto. simpl. lia. }
  lia.
Qed.

(** An unused buffer is neither held nor pinned. *)
Lemma unused_spec s V H W i :
  brep s V H W → unused s i →
  H !! i = None ∧ sl_locked (b_lock (bufp s i)) = false ∧
  (b_dev (bufp s i) = 0 ∨ (b_dev (bufp s i) = 1 ∧ b_blockno (bufp s i) ∉ W)).
Proof.
  intros Hr [Hi Hu]. unfold is_unused in Hu.
  apply andb_true_iff in Hu as [Hrc%Z.eqb_eq Hf%Z.eqb_eq].
  destruct (br_buf _ _ _ _ Hr i Hi) as [(Hd & _ & ? & _ & ?)|(Hd & _ & _ & Hfl & Hh)].
  - auto.
  - destruct Hh as [(? & _ & ?)|(_ & ? & _)]; [|lia].
    split; [done|]. split; [done|]. right. split; [done|].
    rewrite Hfl, flags_dirty in Hf. by case_bool_decide.
Qed.

Definition recycled (c : core) b (x : buf) : buf :=
  Buf 0 1 b (Sleeplock true (cur_pid c)) 1 (b_prev x) (b_next x) (b_data x).

Lemma bget_recycle s V H W b i :
  brep s V H W → (∀ i, ¬ caches s i b) → unused s i →
  scan (S NBUF) b_prev is_unused (bs_buf s) (b_prev (bufp s HEAD)) = Some (Some i) →
  bget 1 b s = Done i (upd_buf i (recycled (bs_core s) b) s).
Proof.
  intros Hr Hno Hu Hs2. pose proof (br_quiet _ _ _ _ Hr) as Hq.
  destruct (scan_block s V H W b Hr) as [[Hs _]|(j & _ & Hj)]; [|by destruct (Hno j)].
  destruct (unused_spec _ _ _ _ _ Hr Hu) as (_ & Hlk & _). destruct Hu as [Hi _].
  unfold bget, bind. rewrite in_core_acquire by done.
  unfold gets, bufp. cbn [bs_buf set_core]. unfold bufp in Hs, Hs2. rewrite Hs.
  cbn [bs_buf set_core]. rewrite Hs2.
  unfold modify. rewrite in_core_release by done. rewrite with_lock_acquire.
  - unfold ret, upd_buf, set_core; simpl. rewrite quiet_reset by done. f_equal. f_equal.
    by rewrite list_alter_alter_eq.
  - simpl. by rewrite quiet_reset.
  - unfold bufp, upd_buf, set_core; simpl.
    rewrite list_lookup_total_alter_eq by (rewrite (br_len _ _ _ _ Hr); lia). done.
Qed.

Lemma bget_miss s V H W b :
  brep s V H W → (∀ i, ¬ caches s i b) → (size H + size W < NBUF)%nat →
  ∃ i, unused s i ∧ bget 1 b s = Done i (upd_buf i (recycled (bs_core s) b) s).
Proof.
  intros Hr Hno Hsz.
  destruct (scan_unused s V H W Hr) as (i & Hs2 & Hu); [by eapply unused_exists|].
  exists i. split; [done|]. by eapply bget_recycle.
Qed.

Lemma iderw_read s i :
  quiet (bs_core s) → sl_locked (b_lock (bufp s i)) = true →
  b_flags (bufp s i) = 0 → b_dev (bufp s i) = 1 →
  b_blockno (bufp s i) < d_size (bs_disk s) →
  iderw i s = Done tt (upd_buf i (λ x, set_flags 2 (set_data
                 (dblock (bs_disk s) (b_blockno (bufp s i))) x)) s).
Proof.
  intros Hq Hl Hf Hd Hb. unfold iderw, bind. rewrite with_lock_holding, Hl by done.
  unfold gets. cbn [negb]. rewrite Hf, Hd.
  change (Z.land 0 (Z.lor B_VALID B_DIRTY) =? B_VALID) with false.
  change (negb (1 =? 1)) with false. cbv iota beta.
  rewrite (proj2 (Z.leb_gt _ _)) by done.
  unfold tst, modify, upd_buf; simpl. f_equal. f_equal.
  rewrite list_alter_alter_eq. apply list_alter_ext; [|done].
  intros x Hx. apply list_lookup_total_correct in Hx. unfold bufp in Hf, Hd.
  rewrite Hx in Hf. simpl. by rewrite Hf.
Qed.

Lemma iderw_write s i :
  quiet (bs_core s) → sl_locked (b_lock (bufp s i)) = true →
  b_flags (bufp s i) = 6 → b_dev (bufp s i) = 1 →
  b_blockno (bufp s i) < d_size (bs_disk s) →
  iderw i s = Done tt (set_disk (dwrite (b_blockno (bufp s i)) (b_data (bufp s i)) (bs_disk s))
                (upd_buf i (set_flags 2) s)).
Proof.
  intros Hq Hl Hf Hd Hb. unfold iderw, bind. rewrite with_lock_holding, Hl by done.
  unfold gets. cbn [negb]. rewrite Hf, Hd.
  change (Z.land 6 (Z.lor B_VALID B_DIRTY) =? B_VALID) with false.
  change (negb (1 =? 1)) with false. cbv iota beta.
  rewrite (proj2 (Z.leb_gt _ _)) by done.
  unfold modify, upd_buf, set_disk; simpl. f_equal. f_equal.
  rewrite list_alter_alter_eq. apply list_alter_ext; [|done].
  intros x Hx. apply list_lookup_total_correct in Hx. unfold bufp in Hf.
  rewrite Hx in Hf. simpl. by rewrite Hf.
Qed.

(** ** The interface *)

Lemma held_facts s V H W i b :
  brep s V H W → H !! i = Some b →
  caches s i b ∧ 0 ≤ b < d_size (bs_disk s) ∧ b_data (bufp s i) = V b ∧
  b_flags (bufp s i) = flags_of W b ∧ b_refcnt (bufp s i) = 1 ∧
  sl_locked (b_lock (bufp s i)) = true.
Proof.
  intros Hr HH. pose proof (br_H _ _ _ _ Hr i b HH) as Hi.
  destruct (br_buf _ _ _ _ Hr i Hi) as [(_ & _ & ? & _)|(Hd & Hb & Hv & Hf & Hh)];
    [congruence|].
  destruct Hh as [(? & _)|(HH' & Hrc & Hl)]; [congruence|].
  assert (b_blockno (bufp s i) = b) as E by congruence. subst b.
  repeat split; done || lia.
Qed.

(** Two held buffers hold distinct blocks. *)
Lemma held_inj s V H W i j b :
  brep s V H W → H !! i = Some b → H !! j = Some b → i = j.
Proof.
  intros Hr Hi Hj. destruct (held_facts _ _ _ _ _ _ Hr Hi) as [Hci _].
  destruct (held_facts _ _ _ _ _ _ Hr Hj) as [Hcj _]. by eapply br_uniq.
Qed.

Lemma bread_hit s V H W i b :
  brep s V H W → caches s i b → (∀ j, H !! j ≠ Some b) →
  ∃ s', bread 1 b s = Done i s' ∧ H !! i = None ∧ brep s' V (<[i:=b]> H) W ∧
        bs_disk s' = bs_disk s.
Proof.
  intros Hr Hc Hn. destruct (bget_hit s V H W i b Hr Hc Hn) as [Hg HH].
  pose proof Hc as (Hi & Hd & Hb).
  destruct (br_buf _ _ _ _ Hr i Hi) as [(? & _)|(_ & Hbs & Hv & Hf & _)]; [lia|].
  unfold bread, bind. rewrite Hg. unfold gets. rewrite lookup_alter_buf, decide_True
    by (done || (rewrite (br_len _ _ _ _ Hr); lia)).
  cbn [b_flags set_lock set_refcnt]. rewrite Hf.
  assert (Ht : tst (flags_of W (b_blockno (bufp s i))) B_VALID = true)
    by (unfold flags_of; by case_bool_decide).
  rewrite Ht. simpl. eexists. split; [done|]. split; [done|]. split; [|done].
  apply (brep_alter s V H W); try done.
  - apply Hr.
  - right. cbn. repeat split; try done; try lia. right. split; [|done].
    cbn. by rewrite lookup_insert_eq, Hb.
  - intros j Hj Hne Hbr. eapply buf_rep_ext; [done| |done]. by rewrite lookup_insert_ne.
  - cbn. intros j _ Hj. by eapply (br_uniq _ _ _ _ Hr).
  - intros j b' Hj. destruct (decide (j = i)) as [->|]; [by left|right].
    by rewrite lookup_insert_ne in Hj.
  - intros b' Hb'. destruct (br_W _ _ _ _ Hr b' Hb') as (j & Hj).
    destruct (decide (j = i)) as [->|]; [left; cbn; by destruct Hj as (_ & ? & ?)|].
    right. by exists j.
  - intros b' Hb' HW HH'. apply (br_disk _ _ _ _ Hr); [done|done|].
    intros j Hj. apply (HH' j). destruct (decide (j = i)) as [->|]; [congruence|].
    by rewrite lookup_insert_ne.
Qed.

Lemma bread_miss s V H W b :
  brep s V H W → 0 ≤ b < d_size (bs_disk s) → (∀ i, ¬ caches s i b) →
  (size H + size W < NBUF)%nat →
  ∃ i s', bread 1 b s = Done i s' ∧ H !! i = None ∧ brep s' V (<[i:=b]> H) W ∧
          bs_disk s' = bs_disk s.
Proof.
  intros Hr Hbs Hno Hsz. destruct (bget_miss s V H W b Hr Hno Hsz) as (i & Hu & Hg).
  destruct (unused_spec _ _ _ _ _ Hr Hu) as (HH & _ & Hdev). pose proof Hu as [Hi _].
  pose proof (br_quiet _ _ _ _ Hr) as Hq. pose proof (br_len _ _ _ _ Hr) as Hlen.
  assert (HnW : b ∉ W) by (intros Hb; destruct (br_W _ _ _ _ Hr b Hb) as (j & ?); by destruct (Hno j)).
  assert (HnH : ∀ j, H !! j ≠ Some b).
  { intros j Hj. destruct (held_facts _ _ _ _ _ _ Hr Hj) as [Hc _]. by destruct (Hno j). }
  unfold bread, bind. rewrite Hg. unfold gets.
  rewrite lookup_alter_buf, decide_True by (done || lia). cbn [b_flags recycled].
  change (negb (tst 0 B_VALID)) with true. cbv iota.
  rewrite iderw_read;
    rewrite ?lookup_alter_buf, ?decide_True by (done || lia); try done; [|cbn; lia].
  cbn [b_blockno recycled]. eexists i, _. split; [done|]. split; [done|]. split; [|done].
  unfold upd_buf; simpl. rewrite list_alter_alter_eq.
  apply (brep_alter s V H W); try done.
  - right. cbn. repeat split; try done; try lia.
    + symmetry. by apply (br_disk _ _ _ _ Hr).
    + unfold flags_of. by rewrite bool_decide_eq_false_2.
    + right. split; [|done]. cbn. by rewrite lookup_insert_eq.
  - intros j Hj Hne Hbr. eapply buf_rep_ext; [done| |done]. by rewrite lookup_insert_ne.
  - cbn. intros j _ Hj. by destruct (Hno j).
  - intros j b' Hj. destruct (decide (j = i)) as [->|]; [by left|right].
    by rewrite lookup_insert_ne in Hj.
  - intros b' Hb'. destruct (br_W _ _ _ _ Hr b' Hb') as (j & Hj).
    destruct (decide (j = i)) as [->|]; [|right; by exists j].
    exfalso. destruct Hj as (_ & ? & ?). destruct Hdev as [?|[_ ?]]; [lia|congruence].
  - intros b' Hb' HW HH'. apply (br_disk _ _ _ _ Hr); [done|done|].
    intros j Hj. apply (HH' j). destruct (decide (j = i)) as [->|]; [congruence|].
    by rewrite lookup_insert_ne.
Qed.

Lemma bread_spec s V H W b :
  brep s V H W → 0 ≤ b < d_size (bs_disk s) → (∀ j, H !! j ≠ Some b) →
  (size H + size W < NBUF)%nat →
  ∃ i s', bread 1 b s = Done i s' ∧ H !! i = None ∧ brep s' V (<[i:=b]> H) W ∧
          bs_disk s' = bs_disk s.
Proof.
  intros Hr Hb Hn Hsz. destruct (scan_block s V H W b Hr) as [[_ Hno]|(i & _ & Hi)].
  - by apply bread_miss.
  - exists i. by apply bread_hit.
Qed.

(** A pinned block is cached: reading it needs no unused buffer. *)
Lemma bread_pinned s V H W b :
  brep s V H W → b ∈ W → (∀ j, H !! j ≠ Some b) →
  ∃ i s', bread 1 b s = Done i s' ∧ H !! i = None ∧ brep s' V (<[i:=b]> H) W ∧
          bs_disk s' = bs_disk s.
Proof.
  intros Hr Hb Hn. destruct (br_W _ _ _ _ Hr b Hb) as (i & Hi). exists i. by apply bread_hit.
Qed.

(** The relation only depends on the contents of the blocks. *)
Lemma brep_ext s V V' H W : (∀ b, V b = V' b) → brep s V H W → brep s V' H W.
Proof.
  intros HV [Hq Hl Hlru Hu Hb HH HW Hd]. split; try done.
  - intros i Hi. eapply buf_rep_ext; [by apply Hb|done|]. intros _. by rewrite HV.
  - intros b Hb' HnW HnH. rewrite <- HV. by apply Hd.
Qed.

Lemma get_data_spec s V H W i b :
  brep s V H W → H !! i = Some b → get_data i s = Done (V b) s.
Proof.
  intros Hr HH. unfold get_data, gets.
  by destruct (held_facts _ _ _ _ _ _ Hr HH) as (_ & _ & -> & _).
Qed.

Lemma put_data_spec s V H W i b d :
  brep s V H W → H !! i = Some b →
  ∃ s', put_data i d s = Done tt s' ∧ brep s' (bupd b d V) H W ∧ bs_disk s' = bs_disk s.
Proof.
  intros Hr HH. destruct (held_facts _ _ _ _ _ _ Hr HH) as ((Hi & Hd & Hb) & Hbs & Hv & Hf & Hrc & Hl).
  eexists. split; [done|]. split; [|done].
  apply (brep_alter s V H W); try done.
  - apply Hr.
  - right. cbn. rewrite Hb. repeat split; try done; try lia.
    + unfold bupd. by rewrite Z.eqb_refl.
    + right. unfold held_buf. cbn. by rewrite Hb.
  - intros j Hj Hne Hbr. eapply buf_rep_ext; [done|done|]. intros Hdj. split; [|done].
    unfold bupd. destruct (Z.eqb_spec (b_blockno (bufp s j)) b) as [E|]; [|done].
    exfalso. apply Hne. by eapply (br_uniq _ _ _ _ Hr).
  - cbn. intros j _ Hj. by eapply (br_uniq _ _ _ _ Hr).
  - intros j b' Hj. by right.
  - intros b' Hb'. destruct (br_W _ _ _ _ Hr b' Hb') as (j & Hj).
    destruct (decide (j = i)) as [->|]; [left; cbn; by destruct Hj as (_ & ? & ?)|].
    right. by exists j.
  - intros b' Hb' HW HH'. unfold bupd. destruct (Z.eqb_spec b' b) as [->|].
    { by destruct (HH' i). }
    by apply (br_disk _ _ _ _ Hr).
Qed.

(** ** Writing, pinning, releasing *)

Lemma flags_of_dirty W b : Z.lor (flags_of W b) B_DIRTY = 6.
Proof. unfold flags_of. by case_bool_decide. Qed.

(** The flags of a held buffer change, and with them its membership in [W]. *)
Lemma brep_set_flags s V H W W' i b fl d :
  brep s V H W → H !! i = Some b →
  (∀ x, x ≠ b → (x ∈ W' ↔ x ∈ W)) → fl = flags_of W' b →
  d_size d = d_size (bs_disk s) → (∀ x, x ≠ b → dblock d x = dblock (bs_disk s) x) →
  brep (BState (bs_core s) (alter (set_flags fl) i (bs_buf s)) d) V H W'.
Proof.
  intros Hr HH HW -> Hsz Hds.
  destruct (held_facts _ _ _ _ _ _ Hr HH) as ((Hi & Hd & Hb) & Hbs & Hv & Hf & Hrc & Hl).
  apply (brep_alter s V H W); try done.
  - apply Hr.
  - right. cbn. rewrite Hb, Hsz. repeat split; try done; try lia.
    right. unfold held_buf. cbn. by rewrite Hb.
  - intros j Hj Hne Hbr. eapply buf_rep_ext; [done|done|]. intros Hdj. split; [done|].
    apply HW. intros E. apply Hne. by eapply (br_uniq _ _ _ _ Hr).
  - cbn. intros j _ Hj. by eapply (br_uniq _ _ _ _ Hr).
  - intros j b' Hj. by right.
  - intros b' Hb'. cbn. destruct (decide (b' = b)) as [->|Hne]; [by left|].
    apply HW in Hb'; [|done]. destruct (br_W _ _ _ _ Hr b' Hb') as (j & Hj).
    destruct (decide (j = i)) as [->|]; [left; by destruct Hj as (_ & ? & ?)|].
    right. by exists j.
  - intros b' Hb' HW' HH'. rewrite Hsz in Hb'.
    destruct (decide (b' = b)) as [->|Hne]; [by destruct (HH' i)|].
    rewrite Hds by done. apply (br_disk _ _ _ _ Hr); [done|by rewrite <- HW|done].
Qed.

Lemma alter_flags_eq s V H W i b g :
  brep s V H W → H !! i = Some b →
  alter (λ x, set_flags (g (b_flags x)) x) i (bs_buf s)
  = alter (set_flags (g (flags_of W b))) i (bs_buf s).
Proof.
  intros Hr HH. destruct (held_facts _ _ _ _ _ _ Hr HH) as (_ & _ & _ & Hf & _).
  apply list_alter_ext; [|done]. intros x Hx. apply list_lookup_total_correct in Hx.
  unfold bufp in Hf. rewrite Hx in Hf. by rewrite Hf.
Qed.

Lemma pin_spec s V H W i b :
  brep s V H W → H !! i = Some b →
  ∃ s', pin i s = Done tt s' ∧ brep s' V H ({[b]} ∪ W) ∧ bs_disk s' = bs_disk s.
Proof.
  intros Hr HH. eexists. split; [done|]. split; [|done]. unfold upd_buf.
  rewrite (alter_flags_eq _ _ _ _ _ _ (λ f, Z.lor f B_DIRTY) Hr HH), flags_of_dirty.
  eapply brep_set_flags; [done|done| | |done|done].
  - intros x Hx. set_solver.
  - unfold flags_of. rewrite bool_decide_eq_true_2; [done|set_solver].
Qed.

Lemma dblock_dwrite b x d y :
  dblock (dwrite b x d) y = if y =? b then x else dblock d y.
Proof. done. Qed.

Lemma bwrite_spec s V H W i b :
  brep s V H W → H !! i = Some b →
  ∃ s', bwrite i s = Done tt s' ∧ brep s' V H (W ∖ {[b]}) ∧
        bs_disk s' = dwrite b (V b) (bs_disk s).
Proof.
  intros Hr HH.
  destruct (held_facts _ _ _ _ _ _ Hr HH) as ((Hi & Hd & Hb) & Hbs & Hv & Hf & Hrc & Hl).
  pose proof (br_quiet _ _ _ _ Hr) as Hq. pose proof (br_len _ _ _ _ Hr) as Hlen.
  unfold bwrite, bind. rewrite with_lock_holding, Hl by done. cbn [negb]. unfold modify.
  rewrite iderw_write; rewrite ?lookup_alter_buf, ?decide_True by (done || lia);
    try done; [|cbn; rewrite Hf; apply flags_of_dirty|cbn; rewrite Hb; lia].
  cbn [b_blockno b_data set_flags]. rewrite Hb, Hv.
  eexists. split; [done|]. split; [|done].
  unfold set_disk, upd_buf; simpl. rewrite list_alter_alter_eq.
  eapply brep_set_flags; [done|done| | |done|].
  - intros x Hx. set_solver.
  - unfold flags_of. rewrite bool_decide_eq_false_2; [done|set_solver].
  - intros x Hx. rewrite dblock_dwrite. by rewrite (proj2 (Z.eqb_neq _ _)).
Qed.

(** Moving a buffer in the recency list changes links only. *)
Definition same_content (x y : buf) : Prop :=
  b_flags x = b_flags y ∧ b_dev x = b_dev y ∧ b_blockno x = b_blockno y ∧
  b_lock x = b_lock y ∧ b_refcnt x = b_refcnt y ∧ b_data x = b_data y.

Lemma same_content_alter f i (bs : list buf) j :
  (∀ x, same_content (f x) x) → same_content (alter f i bs !!! j) (bs !!! j).
Proof.
  intros Hf. destruct (decide (j = i)) as [->|].
  - destruct (decide (i < length bs)%nat).
    + by rewrite list_lookup_total_alter_eq.
    + by rewrite list_alter_ge by lia.
  - by rewrite list_lookup_total_alter_ne.
Qed.

Lemma same_content_trans x y z : same_content x y → same_content y z → same_content x z.
Proof.
  intros (?&?&?&?&?&?) (?&?&?&?&?&?). repeat split; congruence.
Qed.

Lemma move_front_content i s j : same_content (bufp (move_front i s) j) (bufp s j).
Proof.
  unfold bufp, move_front, link_front, unlink; simpl.
  repeat (eapply same_content_trans; [by apply same_content_alter|]). done.
Qed.

Lemma brep_move_front s V H W i :
  brep s V H W → (i < NBUF)%nat → brep (move_front i s) V H W.
Proof.
  intros [Hq Hl [l Hlru] Hu Hb HH HW Hd] Hi.
  assert (Hc : ∀ j b, caches (move_front i s) j b ↔ caches s j b).
  { intros j b. unfold caches.
    by destruct (move_front_content i s j) as (_ & -> & -> & _). }
  split; try done.
  - cbn [bs_buf move_front]. by rewrite length_link_front, length_unlink.
  - eexists. by apply lru_move_front.
  - intros j k b. rewrite !Hc. apply Hu.
  - intros j Hj. specialize (Hb j Hj). unfold buf_rep, free_buf, held_buf in *.
    by destruct (move_front_content i s j) as (-> & -> & -> & -> & -> & ->).
  - intros b Hb'. destruct (HW b Hb') as [j Hj]. exists j. by apply Hc.
Qed.

Definition released (x : buf) : buf := set_refcnt 0 (set_lock (Sleeplock false 0) x).

Lemma brelse_eq s V H W i b :
  brep s V H W → H !! i = Some b →
  brelse i s = Done tt (move_front i
    (BState (woken (Ch_sleeplock (SL_buf i)) (bs_core s)) (alter released i (bs_buf s)) (bs_disk s))).
Proof.
  intros Hr HH.
  destruct (held_facts _ _ _ _ _ _ Hr HH) as ((Hi & Hd & Hb) & Hbs & Hv & Hf & Hrc & Hl).
  pose proof (br_quiet _ _ _ _ Hr) as Hq. pose proof (br_len _ _ _ _ Hr) as Hlen.
  pose (c := woken (Ch_sleeplock (SL_buf i)) (bs_core s)). fold c.
  assert (Hqc : quiet c) by (unfold c; auto with kernel).
  unfold brelse, bind. rewrite with_lock_holding, Hl by done. cbn [negb].
  rewrite with_lock_release by done. fold c.
  rewrite in_core_acquire by done. unfold modify, gets.
  rewrite lookup_alter_buf, decide_True by (done || (cbn; rewrite length_alter; lia)).
  assert (E : b_refcnt (bufp (set_core (set_held [Lk_bcache] c)
                 (set_core c (upd_buf i (set_lock (Sleeplock false 0)) s))) i) = 1).
  { unfold bufp. cbn. rewrite list_lookup_total_alter_eq by lia. done. }
  cbn [b_refcnt set_refcnt bs_core set_core]. cbn [bs_core set_core] in E. rewrite E.
  change (u32 (1 - 1) =? 0) with true. cbv iota beta.
  rewrite in_core_release by done. f_equal.
  unfold set_core, move_front, upd_buf; simpl. rewrite quiet_reset by done.
  f_equal. f_equal. f_equal. rewrite list_alter_alter_eq.
  apply list_alter_ext; [|done]. intros x Hx. apply list_lookup_total_correct in Hx.
  unfold released. simpl. unfold bufp in Hrc. rewrite Hx in Hrc. simpl. by rewrite Hrc.
Qed.

Lemma brelse_spec s V H W i b :
  brep s V H W → H !! i = Some b → b ∈ W ∨ V b = dblock (bs_disk s) b →
  ∃ s', brelse i s = Done tt s' ∧ brep s' V (delete i H) W ∧ bs_disk s' = bs_disk s.
Proof.
  intros Hr HH Hcl. rewrite (brelse_eq _ _ _ _ _ _ Hr HH).
  destruct (held_facts _ _ _ _ _ _ Hr HH) as ((Hi & Hd & Hb) & Hbs & Hv & Hf & Hrc & Hl).
  pose proof (br_quiet _ _ _ _ Hr) as Hq. pose proof (br_len _ _ _ _ Hr) as Hlen.
  eexists. split; [done|]. split; [|done]. apply brep_move_front; [|done].
  apply (brep_alter s V H W); try done.
  - by apply quiet_woken.
  - right. cbn. rewrite Hb. repeat split; try done; try lia.
    left. unfold free_buf. cbn. by rewrite lookup_delete_eq.
  - intros j Hj Hne Hbr. eapply buf_rep_ext; [done| |done]. by rewrite lookup_delete_ne.
  - cbn. intros j _ Hj. by eapply (br_uniq _ _ _ _ Hr).
  - intros j b' Hj. apply lookup_delete_Some in Hj as [_ Hj]. by right.
  - intros b' Hb'. destruct (br_W _ _ _ _ Hr b' Hb') as (j & Hj).
    destruct (decide (j = i)) as [->|]; [left; cbn; by destruct Hj as (_ & ? & ?)|].
    right. by exists j.
  - intros b' Hb' HW HH'. destruct (decide (b' = b)) as [->|Hne]; [by destruct Hcl|].
    apply (br_disk _ _ _ _ Hr); [done|done|]. intros j Hj. apply (HH' j).
    rewrite lookup_delete_ne; [done|]. intros ->. congruence.
Qed.
End rep.
