(* ===== verification/BioTheorems.v ===== *)
(** * The theorems on the buffer cache: replacement order and contents *)

From S2P Require Import Prelude Params Core Bio BioSpec.

(** ** Boot *)
Definition boot_cache (c : core) (d : disk) : bstate :=
  binit (BState c (replicate (S NBUF) buf0) d).

Lemma boot_bufs c d :
  forallb (λ i, let x := bs_buf (boot_cache c d) !!! i in
     (b_dev x =? 0) && (b_flags x =? 0) && (b_refcnt x =? 0) && negb (sl_locked (b_lock x)))
     (seq 0 NBUF) = true.
Proof. vm_compute. reflexivity. Qed.

Lemma boot_not_cached c d b i : ¬ caches (boot_cache c d) i b.
Proof.
  pose proof (boot_bufs c d) as Hall. rewrite forallb_forall in Hall.
  generalize dependent (boot_cache c d). intros s Hall (Hi & Hd & _).
  specialize (Hall i). rewrite in_seq in Hall. specialize (Hall ltac:(lia)).
  rewrite !andb_true_iff, !Z.eqb_eq in Hall. unfold bufp in Hd. lia.
Qed.

Lemma boot_cache_rep c d : quiet c → brep (boot_cache c d) (dblock d) ∅ ∅.
Proof.
  intros Hq. pose proof (boot_bufs c d) as Hall. rewrite forallb_forall in Hall.
  pose proof (binit_lru (BState c (replicate (S NBUF) buf0) d) (length_replicate _ _)) as Hlru.
  assert (Hlen : length (bs_buf (boot_cache c d)) = S NBUF) by (vm_compute; reflexivity).
  assert (Hc : bs_core (boot_cache c d) = c) by reflexivity.
  assert (Hd : bs_disk (boot_cache c d) = d) by reflexivity.
  change (binit _) with (boot_cache c d) in Hlru.
  generalize dependent (boot_cache c d). intros s Hall Hlru Hlen Hc Hd.
  assert (H0 : ∀ i, (i < NBUF)%nat → b_dev (bufp s i) = 0 ∧ b_flags (bufp s i) = 0 ∧
     b_refcnt (bufp s i) = 0 ∧ sl_locked (b_lock (bufp s i)) = false).
  { intros i Hi. specialize (Hall i). rewrite in_seq in Hall. specialize (Hall ltac:(lia)).
    rewrite !andb_true_iff, !Z.eqb_eq, negb_true_iff in Hall. unfold bufp. tauto. }
  split; try done.
  - by rewrite Hc.
  - eauto.
  - intros i j b (Hi & Hdi & _) _. destruct (H0 i Hi) as [? _]. lia.
  - intros i Hi. left. destruct (H0 i Hi) as (? & ? & ? & ?). done.
  - intros b _ _ _. by rewrite Hd.
Qed.

(** ** A concrete machine *)
(** A small file system as mkfs lays it out: superblock, log in blocks 2 to 31,
    inodes from block 32, bitmap in block 58, a root directory in block 59 with
    the entries ., .. and a, and in block 60 the content of the file a. *)
Definition zero_block : block := replicate 512 0.
Definition sample_superblock : block :=
  set_field 0 4 1000 (set_field 4 4 941 (set_field 8 4 200 (set_field 12 4 30
    (set_field 16 4 2 (set_field 20 4 32 (set_field 24 4 58 zero_block)))))).
Definition sample_inodes : block :=
  splice 64 ([1; 0; 0; 0; 0; 0; 1; 0; 0; 2; 0; 0] ++ [59; 0; 0; 0]) (
  splice 128 ([2; 0; 0; 0; 0; 0; 1; 0; 5; 0; 0; 0] ++ [60; 0; 0; 0]) zero_block).
Definition sample_bitmap : block := splice 0 (replicate 7 255 ++ [31]) zero_block.
Definition sample_dir : block :=
  splice 0 [1; 0; 46] (splice 16 [1; 0; 46; 46] (splice 32 [2; 0; 97] zero_block)).
Definition sample_image (b : Z) : block :=
  if b =? 1 then sample_superblock
  else if b =? 32 then sample_inodes
  else if b =? 58 then sample_bitmap
  else if b =? 59 then sample_dir
  else if b =? 60 then splice 0 [104; 101; 108; 108; 111] zero_block
  else zero_block.
Definition sample_disk : disk := Disk 1000 sample_image [].

(** ** Properties *)
Lemma head_not_in bs l : lru bs l → HEAD ∉ l.
Proof. intros (_ & _ & Hin) Hh. apply Hin in Hh. unfold HEAD in Hh. lia. Qed.

Lemma scan_unused_lru s V H W l :
  brep s V H W → lru (bs_buf s) l →
  scan (S NBUF) b_prev is_unused (bs_buf s) (b_prev (bufp s HEAD))
    = Some (find (λ i, is_unused (bufp s i)) (reverse l)).
Proof.
  intros Hr Hl. unfold bufp. apply scan_prev_chain.
  - by destruct Hl.
  - by eapply head_not_in.
  - rewrite (lru_length _ _ Hl). lia.
Qed.

(** replacement is least recently used.  When no buffer holds the block, bget
    takes the buffer nearest to the end of the recency order [l] among those
    that nobody references and that are not dirty, and makes it a locked buffer
    of the block, not yet valid; if there is none it panics. *)
Theorem bget_recycles_lru s V H W l b :
  brep s V H W → lru (bs_buf s) l → (∀ i, ¬ caches s i b) →
  bget 1 b s =
    match find (λ i, is_unused (bufp s i)) (reverse l) with
    | Some i => Done i (upd_buf i (recycled (bs_core s) b) s)
    | None => Panic "bget: no buffers"
    end.
Proof.
  intros Hr Hl Hno. pose proof (scan_unused_lru _ _ _ _ _ Hr Hl) as Hs2.
  destruct (find _ (reverse l)) as [i|] eqn:Hf.
  - apply find_some in Hf as [Hi Hu]. eapply bget_recycle; [done|done| |done].
    split; [|done]. apply Hl. apply elem_of_reverse. by apply list_elem_of_In.
  - pose proof (br_quiet _ _ _ _ Hr) as Hq.
    destruct (scan_block s V H W b Hr) as [[Hs _]|(j & _ & Hj)]; [|by destruct (Hno j)].
    unfold bget, bind. rewrite in_core_acquire by done.
    unfold gets, bufp. cbn [bs_buf set_core]. unfold bufp in Hs, Hs2. rewrite Hs.
    cbn [bs_buf set_core]. by rewrite Hs2.
Qed.

Lemma bget_recycles_lru_witness :
  bget 1 500 (boot_cache sample_core sample_disk) =
  Done 0%nat (upd_buf 0 (recycled sample_core 500) (boot_cache sample_core sample_disk)).
Proof.
  rewrite (bget_recycles_lru _ _ _ _ (reverse (seq 0 NBUF)) 500
    (boot_cache_rep sample_core sample_disk sample_quiet)).
  - assert (E : find (λ i, is_unused (bufp (boot_cache sample_core sample_disk) i))
                  (reverse (reverse (seq 0 NBUF))) = Some 0%nat) by (vm_compute; reflexivity).
    rewrite E. reflexivity.
  - apply binit_lru. reflexivity.
  - apply boot_not_cached.
Defined.

(** A buffer of block 500, held after boot. *)
Lemma sample_held :
  ∃ i s, bread 1 500 (boot_cache sample_core sample_disk) = Done i s ∧
         brep s (dblock sample_disk) (<[i := 500]> ∅) ∅.
Proof.
  destruct (bread_spec _ _ _ _ 500 (boot_cache_rep sample_core sample_disk sample_quiet))
    as (i & s & E & _ & Hr & _);
    [vm_compute; split; congruence|by intros j; rewrite lookup_empty
    |rewrite map_size_empty, size_empty; unfold NBUF; lia|].
  exists i, s. split; [exact E|exact Hr].
Qed.

(** releasing a held buffer makes it the most recently used one: it is moved
    to the front of the recency order, the order of the others and every
    buffer's content stay, and its lock and reference are given back. *)
Theorem brelse_most_recent s V H W l i b :
  brep s V H W → lru (bs_buf s) l → H !! i = Some b →
  ∃ s', brelse i s = Done tt s' ∧ lru (bs_buf s') (i :: filter (λ x, x ≠ i) l) ∧
    same_content (bufp s' i) (released (bufp s i)) ∧
    ∀ j, j ≠ i → same_content (bufp s' j) (bufp s j).
Proof.
  intros Hr Hl HH. rewrite (brelse_eq _ _ _ _ _ _ Hr HH).
  destruct (held_facts _ _ _ _ _ _ Hr HH) as ((Hi & _) & _).
  pose proof (br_len _ _ _ _ Hr) as Hlen. eexists. split; [done|].
  assert (Hl' : lru (alter released i (bs_buf s)) l)
    by (eapply lru_ext; [|exact Hl]; by apply same_links_alter).
  split; [|split].
  - unfold move_front. cbn [bs_buf]. apply lru_move_front; [done|by rewrite length_alter|done].
  - eapply same_content_trans; [apply move_front_content|]. unfold bufp; cbn [bs_buf].
    by rewrite list_lookup_total_alter_eq by lia.
  - intros j Hj. eapply same_content_trans; [apply move_front_content|]. unfold bufp; cbn [bs_buf].
    by rewrite list_lookup_total_alter_ne by done.
Qed.

Lemma brelse_most_recent_witness :
  ∃ i s l s', lru (bs_buf s) l ∧ brelse i s = Done tt s' ∧
    lru (bs_buf s') (i :: filter (λ x, x ≠ i) l).
Proof.
  destruct sample_held as (i & s & _ & Hr). destruct (br_lru _ _ _ _ Hr) as (l & Hl).
  destruct (brelse_most_recent s _ _ _ l i 500 Hr Hl (lookup_insert_eq _ _ _)) as (s' & E & Hl' & _).
  exists i, s, l, s'. split; [exact Hl|]. split; [exact E|exact Hl'].
Defined.

(** What a caller that replaces the content of a block does. *)
Definition write_block (b : Z) (d : block) : K bstate unit :=
  bp <- bread 1 b;;
  put_data bp d ;;;
  bwrite bp ;;;
  brelse bp.

Lemma write_block_spec s V H W b d :
  brep s V H W → 0 ≤ b < d_size (bs_disk s) → (∀ j, H !! j ≠ Some b) →
  (size H + size W < NBUF)%nat →
  ∃ s', write_block b d s = Done tt s' ∧ brep s' (bupd b d V) H (W ∖ {[b]}) ∧
        bs_disk s' = dwrite b d (bs_disk s).
Proof.
  intros Hr Hb Hn Hsz. unfold write_block, bind.
  destruct (bread_spec _ _ _ _ b Hr Hb Hn Hsz) as (i & s1 & E1 & Hi & Hr1 & D1). rewrite E1.
  assert (HH : <[i:=b]> H !! i = Some b) by apply lookup_insert_eq.
  destruct (put_data_spec _ _ _ _ i b d Hr1 HH) as (s2 & E2 & Hr2 & D2). rewrite E2.
  destruct (bwrite_spec _ _ _ _ i b Hr2 HH) as (s3 & E3 & Hr3 & D3). rewrite E3.
  assert (Hv : bupd b d V b = d) by (unfold bupd; by rewrite Z.eqb_refl).
  rewrite Hv, D2, D1 in D3.
  destruct (brelse_spec _ _ _ _ i b Hr3 HH) as (s4 & E4 & Hr4 & D4).
  { right. by rewrite Hv, D3, dblock_dwrite, Z.eqb_refl. }
  rewrite E4. exists s4. rewrite delete_insert_id in Hr4 by done.
  split; [done|]. split; [done|congruence].
Qed.

(** C21: the cache reads what was written.  Replacing the content of a block
    through bread, bwrite and brelse puts the new content on the disk and leaves
    every other block alone; and a later bread of any block, whatever has been
    evicted meanwhile, gives a buffer with the block's current content. *)
Theorem cache_reads_writes s V W b d b' :
  brep s V ∅ W → (size W < NBUF)%nat →
  0 ≤ b < d_size (bs_disk s) → 0 ≤ b' < d_size (bs_disk s) →
  ∃ s', write_block b d s = Done tt s' ∧ dblock (bs_disk s') b = d ∧
    (∀ x, x ≠ b → dblock (bs_disk s') x = dblock (bs_disk s) x) ∧
    ∃ i s'', bread 1 b' s' = Done i s'' ∧
      b_data (bufp s'' i) = (if b' =? b then d else V b').
Proof.
  intros Hr Hsz Hb Hb'.
  destruct (write_block_spec _ _ _ _ b d Hr Hb) as (s' & E & Hr' & D');
    [by intros j; rewrite lookup_empty|by rewrite map_size_empty|].
  exists s'. split; [done|]. rewrite D'. split; [by rewrite dblock_dwrite, Z.eqb_refl|].
  split. { intros x Hx. by rewrite dblock_dwrite, (proj2 (Z.eqb_neq _ _)). }
  assert (Hle : (size (W ∖ {[b]}) ≤ size W)%nat) by (apply subseteq_size; set_solver).
  destruct (bread_spec _ _ _ _ b' Hr') as (i & s'' & E'' & _ & Hr'' & _);
    [by rewrite D'|by intros j; rewrite lookup_empty|rewrite map_size_empty; lia|].
  exists i, s''. split; [done|].
  by destruct (held_facts _ _ _ _ i b' Hr'') as (_ & _ & -> & _); [apply lookup_insert_eq|].
Qed.

Lemma cache_reads_writes_witness :
  ∃ s', write_block 500 [7] (boot_cache sample_core sample_disk) = Done tt s' ∧
    ∃ i s'', bread 1 500 s' = Done i s'' ∧ b_data (bufp s'' i) = [7].
Proof.
  destruct (cache_reads_writes _ _ _ 500 [7] 500
    (boot_cache_rep sample_core sample_disk sample_quiet)) as (s' & E & _ & _ & i & s'' & E' & Hd).
  - rewrite size_empty. unfold NBUF. lia.
  - vm_compute. split; congruence.
  - vm_compute. split; congruence.
  - exists s'. split; [exact E|]. exists i, s''. split; [exact E'|exact Hd].
Defined.
