(* ===== verification/Log.v ===== *)
(** * The write-ahead log (log.c)

    The state of the log is the in-memory [struct log]; the log itself is on
    the disk below the buffer cache.  readsb of fs.c, which initlog calls, is
    here too. *)

From S2P Require Import Prelude Params Core Bio BioSpec.

(** ** The superblock (fs.h, readsb) *)
Record superblock := Superblock {
  sb_size : Z; sb_nblocks : Z; sb_ninodes : Z; sb_nlog : Z;
  sb_logstart : Z; sb_inodestart : Z; sb_bmapstart : Z
}.

Definition read_superblock (d : block) : superblock :=
  Superblock (field 0 4 d) (field 4 4 d) (field 8 4 d) (field 12 4 d)
    (field 16 4 d) (field 20 4 d) (field 24 4 d).

Definition readsb (dev : Z) : K bstate superblock :=
  bp <- bread dev 1;;
  d <- get_data bp;;
  brelse bp ;;;
  ret (read_superblock d).

(** ** struct log *)
Record log := MkLog {
  lg_start : Z;
  lg_size : Z;
  lg_outstanding : Z;
  lg_committing : bool;
  lg_dev : Z;
  lg_n : Z;                (* lh.n *)
  lg_block : list Z        (* lh.block, LOGSIZE entries *)
}.

Record lstate := LState { ls_bs : bstate; ls_log : log }.

Definition in_bio {A} (m : K bstate A) : K lstate A :=
  zoom ls_bs (λ b s, LState b (ls_log s)) m.
Definition log_core {A} (m : K core A) : K lstate A := in_bio (in_core m).
Definition upd_log (f : log → log) : K lstate unit :=
  modify (λ s, LState (ls_bs s) (f (ls_log s))).

Definition set_n (n : Z) (l : log) : log :=
  MkLog (lg_start l) (lg_size l) (lg_outstanding l) (lg_committing l) (lg_dev l) n (lg_block l).
Definition set_block (bl : list Z) (l : log) : log :=
  MkLog (lg_start l) (lg_size l) (lg_outstanding l) (lg_committing l) (lg_dev l) (lg_n l) bl.
Definition set_outstanding (o : Z) (l : log) : log :=
  MkLog (lg_start l) (lg_size l) o (lg_committing l) (lg_dev l) (lg_n l) (lg_block l).
Definition set_committing (c : bool) (l : log) : log :=
  MkLog (lg_start l) (lg_size l) (lg_outstanding l) c (lg_dev l) (lg_n l) (lg_block l).

(** ** Copying committed blocks to their home location *)
Definition install_one (tail : nat) : K lstate unit :=
  l <- gets ls_log;;
  lbuf <- in_bio (bread (lg_dev l) (lg_start l + Z.of_nat tail + 1));;
  dbuf <- in_bio (bread (lg_dev l) (lg_block l !!! tail));;
  d <- in_bio (get_data lbuf);;
  in_bio (put_data dbuf d) ;;;
  in_bio (bwrite dbuf) ;;;
  in_bio (brelse lbuf) ;;;
  in_bio (brelse dbuf).

Fixpoint install_from (k tail : nat) : K lstate unit :=
  match k with
  | O => ret tt
  | S k => install_one tail ;;; install_from k (S tail)
  end.

Definition install_trans : K lstate unit :=
  n <- gets (λ s, lg_n (ls_log s));;
  install_from (Z.to_nat n) 0.

(** ** The header block *)
Fixpoint get_blocks (k i : nat) (d : block) (bl : list Z) : list Z :=
  match k with
  | O => bl
  | S k => get_blocks k (S i) d (<[i := s32 (field (4 + 4 * i) 4 d)]> bl)
  end.

Fixpoint put_blocks (k i : nat) (bl : list Z) (d : block) : block :=
  match k with
  | O => d
  | S k => put_blocks k (S i) bl (set_field (4 + 4 * i) 4 (bl !!! i) d)
  end.

Definition read_head : K lstate unit :=
  l <- gets ls_log;;
  buf <- in_bio (bread (lg_dev l) (lg_start l));;
  d <- in_bio (get_data buf);;
  upd_log (set_n (s32 (field 0 4 d))) ;;;
  upd_log (λ l, set_block (get_blocks (Z.to_nat (lg_n l)) 0 d (lg_block l)) l) ;;;
  in_bio (brelse buf).

Definition write_head : K lstate unit :=
  l <- gets ls_log;;
  buf <- in_bio (bread (lg_dev l) (lg_start l));;
  d <- in_bio (get_data buf);;
  in_bio (put_data buf
    (put_blocks (Z.to_nat (lg_n l)) 0 (lg_block l) (set_field 0 4 (lg_n l) d))) ;;;
  in_bio (bwrite buf) ;;;
  in_bio (brelse buf).

Definition recover_from_log : K lstate unit :=
  read_head ;;;
  install_trans ;;;
  upd_log (set_n 0) ;;;
  write_head.

Definition LOGHEADER_SIZE : Z := 4 + 4 * LOGSIZE.   (* sizeof(struct logheader) *)

Definition initlog (dev : Z) : K lstate unit :=
  if BSIZE <=? LOGHEADER_SIZE then panic "initlog: too big logheader" else
  sb <- in_bio (readsb dev);;
  upd_log (λ l, MkLog (sb_logstart sb) (sb_nlog sb) (lg_outstanding l) (lg_committing l)
                      dev (lg_n l) (lg_block l)) ;;;
  recover_from_log.

(** ** Transactions *)

(** From the [while] of begin_op on: a process woken up comes back here. *)
Definition begin_op_loop : K lstate unit :=
  l <- gets ls_log;;
  if lg_committing l then log_core (sleep Ch_log Lk_log)
  else if LOGSIZE <? lg_n l + (lg_outstanding l + 1) * MAXOPBLOCKS
  then log_core (sleep Ch_log Lk_log)
  else
    upd_log (λ l, set_outstanding (lg_outstanding l + 1) l) ;;;
    log_core (release Lk_log).

Definition begin_op : K lstate unit :=
  log_core (acquire Lk_log) ;;; begin_op_loop.

Definition write_log_one (tail : nat) : K lstate unit :=
  l <- gets ls_log;;
  to <- in_bio (bread (lg_dev l) (lg_start l + Z.of_nat tail + 1));;
  from <- in_bio (bread (lg_dev l) (lg_block l !!! tail));;
  d <- in_bio (get_data from);;
  in_bio (put_data to d) ;;;
  in_bio (bwrite to) ;;;
  in_bio (brelse from) ;;;
  in_bio (brelse to).

Fixpoint write_log_from (k tail : nat) : K lstate unit :=
  match k with
  | O => ret tt
  | S k => write_log_one tail ;;; write_log_from k (S tail)
  end.

Definition write_log : K lstate unit :=
  n <- gets (λ s, lg_n (ls_log s));;
  write_log_from (Z.to_nat n) 0.

Definition commit : K lstate unit :=
  n <- gets (λ s, lg_n (ls_log s));;
  if 0 <? n then
    write_log ;;;
    write_head ;;;
    install_trans ;;;
    upd_log (set_n 0) ;;;
    write_head
  else ret tt.

Definition end_op : K lstate unit :=
  log_core (acquire Lk_log) ;;;
  upd_log (λ l, set_outstanding (lg_outstanding l - 1) l) ;;;
  l <- gets ls_log;;
  if lg_committing l then panic "log.committing" else
  let do_commit := lg_outstanding l =? 0 in
  (if do_commit then upd_log (set_committing true) else log_core (wakeup Ch_log)) ;;;
  log_core (release Lk_log) ;;;
  if do_commit then
    commit ;;;
    log_core (acquire Lk_log) ;;;
    upd_log (set_committing false) ;;;
    log_core (wakeup Ch_log) ;;;
    log_core (release Lk_log)
  else ret tt.

(** The index at which log_write records block [b]: its entry if it has one,
    the first free entry otherwise. *)
Fixpoint find_block (k i : nat) (bl : list Z) (b : Z) : nat :=
  match k with
  | O => i
  | S k => if bl !!! i =? b then i else find_block k (S i) bl b
  end.

Definition log_write (b : nat) : K lstate unit :=
  l <- gets ls_log;;
  if (LOGSIZE <=? lg_n l) || (lg_size l - 1 <=? lg_n l) then panic "too big a transaction"
  else if lg_outstanding l <? 1 then panic "log_write outside of trans" else
  log_core (acquire Lk_log) ;;;
  bno <- gets (λ s, b_blockno (bufp (ls_bs s) b));;
  let i := find_block (Z.to_nat (lg_n l)) 0 (lg_block l) bno in
  upd_log (λ l, set_block (<[i := bno]> (lg_block l)) l) ;;;
  (if Z.of_nat i =? lg_n l then upd_log (λ l, set_n (lg_n l + 1) l) else ret tt) ;;;
  in_bio (pin b) ;;;
  log_core (release Lk_log).
