(* ===== verification/LogSpec.v ===== *)
(** * What the log promises: transactions survive a crash as a whole *)

From S2P Require Import Prelude Params Core Bio BioSpec Log.

(** ** Sequences of block writes *)
Definition dwrites (ws : list (Z * block)) (d : disk) : disk :=
  foldl (λ d w, dwrite (fst w) (snd w) d) d ws.
Definition vwrites (ws : list (Z * block)) (V : bview) : bview :=
  foldl (λ V w, bupd (fst w) (snd w) V) V ws.

Lemma dwrites_app ws1 ws2 d : dwrites (ws1 ++ ws2) d = dwrites ws2 (dwrites ws1 d).
Proof. apply foldl_app. Qed.
Lemma vwrites_app ws1 ws2 V : vwrites (ws1 ++ ws2) V = vwrites ws2 (vwrites ws1 V).
Proof. apply foldl_app. Qed.

Lemma vwrites_snoc ws b x V y :
  vwrites (ws ++ [(b, x)]) V y = if y =? b then x else vwrites ws V y.
Proof. by rewrite vwrites_app. Qed.

Lemma d_size_dwrites ws d : d_size (dwrites ws d) = d_size d.
Proof. revert d. induction ws as [|w ws IH]; intros d; [done|]. simpl. by rewrite IH. Qed.

Lemma dblock_dwrites ws d b : dblock (dwrites ws d) b = vwrites ws (dblock d) b.
Proof.
  revert d. induction ws as [|w ws IH]; intros d; [done|]. simpl. rewrite IH.
  assert (Hext : ∀ ws (V V' : bview), (∀ b, V b = V' b) → ∀ b, vwrites ws V b = vwrites ws V' b).
  { clear. intros ws. induction ws as [|w ws IH]; intros V V' H b; simpl; [done|].
    apply IH. intros x. unfold bupd. by rewrite H. }
  apply Hext. intros x. rewrite dblock_dwrite. done.
Qed.

Lemma vwrites_ext ws V V' : (∀ b, V b = V' b) → ∀ b, vwrites ws V b = vwrites ws V' b.
Proof.
  revert V V'. induction ws as [|w ws IH]; intros V V' H b; simpl; [done|].
  apply IH. intros x. unfold bupd. by rewrite H.
Qed.

(** Blocks that are not written keep their content. *)
Lemma vwrites_other ws V b : b ∉ ws.*1 → vwrites ws V b = V b.
Proof.
  revert V. induction ws as [|w ws IH]; intros V Hb; [done|].
  rewrite fmap_cons in Hb. apply not_elem_of_cons in Hb as [Hb1 Hb2].
  simpl. rewrite IH by done. unfold bupd. by rewrite (proj2 (Z.eqb_neq _ _)).
Qed.

(** A block that is written once gets that content. *)
Lemma vwrites_at ws V t w : NoDup (ws.*1) → ws !! t = Some w → vwrites ws V (fst w) = snd w.
Proof.
  revert V t. induction ws as [|w' ws IH]; intros V t Hnd Ht; [done|].
  rewrite fmap_cons in Hnd. apply NoDup_cons in Hnd as [Hn Hnd]. simpl.
  destruct t as [|t]; simpl in Ht.
  - injection Ht as ->. rewrite vwrites_other by done. unfold bupd. by rewrite Z.eqb_refl.
  - by apply (IH _ t).
Qed.

(** ** Steps of the log on the cache *)
Section steps.
Implicit Types (s : lstate) (V : bview) (W : gset Z).

Lemma in_bio_done {A} (m : K bstate A) s a b' :
  m (ls_bs s) = Done a b' → in_bio m s = Done a (LState b' (ls_log s)).
Proof. intros H. unfold in_bio, zoom. by rewrite H. Qed.

(** Reading two blocks one after the other, as both loops of the log do. *)
Lemma read_two (b : bstate) V W b1 b2 :
  brep b V ∅ W → 0 ≤ b1 < d_size (bs_disk b) → 0 ≤ b2 < d_size (bs_disk b) → b1 ≠ b2 →
  (size W < NBUF)%nat → b2 ∈ W ∨ (S (size W) < NBUF)%nat →
  ∃ (i j : nat) (s1 s2 : bstate), bread 1 b1 b = Done i s1 ∧ bread 1 b2 s1 = Done j s2 ∧ i ≠ j ∧
    brep s2 V (<[j:=b2]> (<[i:=b1]> ∅)) W ∧ bs_disk s2 = bs_disk b.
Proof.
  intros Hr H1 H2 Hne Hsz Hsz2.
  destruct (bread_spec _ _ _ _ b1 Hr) as (i & s1 & E1 & _ & Hr1 & D1);
    [done|by intros j; rewrite lookup_empty|rewrite map_size_empty; lia|].
  assert (Hn2 : ∀ j, <[i:=b1]> (∅ : gmap nat Z) !! j ≠ Some b2).
  { intros j. rewrite lookup_insert. case_decide; [congruence|]. by rewrite lookup_empty. }
  assert (∃ j (s2 : bstate), bread 1 b2 s1 = Done j s2 ∧ <[i:=b1]> (∅ : gmap nat Z) !! j = None ∧
            brep s2 V (<[j:=b2]> (<[i:=b1]> ∅)) W ∧ bs_disk s2 = bs_disk s1)
    as (j & s2 & E2 & Hj & Hr2 & D2).
  { destruct Hsz2 as [HW|Hs2].
    - by apply bread_pinned.
    - apply bread_spec; [done|by rewrite D1|done|].
      rewrite map_size_insert_None, map_size_empty by (by rewrite lookup_empty). lia. }
  exists i, j, s1, s2. split; [done|]. split; [done|].
  split; [intros ->; by rewrite lookup_insert_eq in Hj|]. split; [done|congruence].
Qed.

(** Copying the block of held buffer [i] into held buffer [j], writing it out
    and releasing both. *)
Definition copy_out (i j : nat) : K lstate unit :=
  d <- in_bio (get_data i);;
  in_bio (put_data j d) ;;;
  in_bio (bwrite j) ;;;
  in_bio (brelse i) ;;;
  in_bio (brelse j).

Lemma copy_out_spec s V W H i j src dst :
  brep (ls_bs s) V H W → i ≠ j → H !! i = Some src → H !! j = Some dst → src ≠ dst →
  src ∈ W ∨ V src = dblock (bs_disk (ls_bs s)) src →
  ∃ b', copy_out i j s = Done tt (LState b' (ls_log s)) ∧
        brep b' (bupd dst (V src) V) (delete j (delete i H)) (W ∖ {[dst]}) ∧
        bs_disk b' = dwrite dst (V src) (bs_disk (ls_bs s)).
Proof.
  intros Hr Hij Hi Hj Hne Hcl. unfold copy_out, bind.
  rewrite (in_bio_done _ _ _ _ (get_data_spec _ _ _ _ _ _ Hr Hi)).
  destruct (put_data_spec _ _ _ _ j dst (V src) Hr Hj) as (s3 & E3 & Hr3 & D3).
  rewrite (in_bio_done _ (LState _ _) _ _ E3).
  destruct (bwrite_spec _ _ _ _ j dst Hr3 Hj) as (s4 & E4 & Hr4 & D4).
  rewrite (in_bio_done _ (LState _ _) _ _ E4).
  assert (Hv : bupd dst (V src) V dst = V src) by (unfold bupd; by rewrite Z.eqb_refl).
  assert (Hv2 : bupd dst (V src) V src = V src)
    by (unfold bupd; by rewrite (proj2 (Z.eqb_neq src dst))).
  rewrite Hv, D3 in D4.
  destruct (brelse_spec _ _ _ _ i src Hr4 Hi) as (s5 & E5 & Hr5 & D5).
  { destruct Hcl as [?|Hcl]; [left; set_solver|right].
    rewrite D4, dblock_dwrite, (proj2 (Z.eqb_neq src dst)) by done. by rewrite Hv2. }
  rewrite (in_bio_done _ (LState _ _) _ _ E5).
  destruct (brelse_spec _ _ _ _ j dst Hr5) as (s6 & E6 & Hr6 & D6).
  { by rewrite lookup_delete_ne. }
  { right. by rewrite D5, D4, dblock_dwrite, Z.eqb_refl. }
  rewrite (in_bio_done _ (LState _ _) _ _ E6).
  eexists. split; [done|]. split; [done|congruence].
Qed.

Lemma two_deletes (i j : nat) (b1 b2 : Z) :
  delete j (delete i (<[j:=b2]> (<[i:=b1]> (∅ : gmap nat Z)))) = ∅ ∧
  delete i (delete j (<[j:=b2]> (<[i:=b1]> (∅ : gmap nat Z)))) = ∅.
Proof.
  split; apply map_eq; intros k; rewrite !lookup_delete, !lookup_insert, lookup_empty;
    repeat case_decide; done.
Qed.

(** The log block and the home block of entry [tail]. *)
Definition log_block (l : log) (tail : nat) : Z := lg_start l + Z.of_nat tail + 1.
Definition home_block (l : log) (tail : nat) : Z := lg_block l !!! tail.

Lemma install_one_spec s V W tail :
  let l := ls_log s in let N := d_size (bs_disk (ls_bs s)) in
  let lb := log_block l tail in let hb := home_block l tail in
  brep (ls_bs s) V ∅ W → lg_dev l = 1 → 0 ≤ lb < N → 0 ≤ hb < N → lb ≠ hb → lb ∉ W →
  (size W < NBUF)%nat → hb ∈ W ∨ (S (size W) < NBUF)%nat →
  ∃ b', install_one tail s = Done tt (LState b' l) ∧
        brep b' (bupd hb (V lb) V) ∅ (W ∖ {[hb]}) ∧
        bs_disk b' = dwrite hb (V lb) (bs_disk (ls_bs s)).
Proof.
  intros l N lb hb Hr Hdev Hlb Hhb Hne HlW Hsz Hsz2.
  destruct (read_two _ _ _ lb hb Hr) as (i & j & s1 & s2 & E1 & E2 & Hij & Hr2 & D2); try done.
  unfold install_one, bind at 1 2 3, gets. fold l. rewrite Hdev.
  change (lg_start l + Z.of_nat tail + 1) with lb. change (lg_block l !!! tail) with hb.
  rewrite (in_bio_done _ _ _ _ E1), (in_bio_done _ (LState s1 _) _ _ E2).
  destruct (copy_out_spec (LState s2 l) _ _ _ i j lb hb Hr2) as (b' & E & Hr' & D'); try done.
  { rewrite lookup_insert_ne by done. apply lookup_insert_eq. }
  { apply lookup_insert_eq. }
  { right. simpl. rewrite D2. apply (br_disk _ _ _ _ Hr); [done|done|].
    intros k. by rewrite lookup_empty. }
  exists b'. split; [exact E|]. rewrite (proj1 (two_deletes _ _ _ _)) in Hr'.
  split; [done|]. by rewrite <- D2.
Qed.

Lemma write_log_one_spec s V W tail :
  let l := ls_log s in let N := d_size (bs_disk (ls_bs s)) in
  let lb := log_block l tail in let hb := home_block l tail in
  brep (ls_bs s) V ∅ W → lg_dev l = 1 → 0 ≤ lb < N → 0 ≤ hb < N → lb ≠ hb →
  (size W < NBUF)%nat → hb ∈ W →
  ∃ b', write_log_one tail s = Done tt (LState b' l) ∧
        brep b' (bupd lb (V hb) V) ∅ (W ∖ {[lb]}) ∧
        bs_disk b' = dwrite lb (V hb) (bs_disk (ls_bs s)).
Proof.
  intros l N lb hb Hr Hdev Hlb Hhb Hne Hsz HW.
  destruct (read_two _ _ _ lb hb Hr) as (j & i & s1 & s2 & E1 & E2 & Hij & Hr2 & D2);
    try done; [by left|].
  unfold write_log_one, bind at 1 2 3, gets. fold l. rewrite Hdev.
  change (lg_start l + Z.of_nat tail + 1) with lb. change (lg_block l !!! tail) with hb.
  rewrite (in_bio_done _ _ _ _ E1), (in_bio_done _ (LState s1 _) _ _ E2).
  destruct (copy_out_spec (LState s2 l) _ _ _ i j hb lb Hr2) as (b' & E & Hr' & D');
    try done; [by apply lookup_insert_eq|by rewrite lookup_insert_ne, lookup_insert_eq|by left|].
  exists b'. split; [exact E|]. rewrite (proj2 (two_deletes _ _ _ _)) in Hr'.
  split; [done|]. by rewrite <- D2.
Qed.

(** The writes of the two loops, in the order they are made. *)
Definition installs (l : log) (V : bview) (tail k : nat) : list (Z * block) :=
  (λ t, (home_block l t, V (log_block l t))) <$> seq tail k.
Definition log_copies (l : log) (V : bview) (tail k : nat) : list (Z * block) :=
  (λ t, (log_block l t, V (home_block l t))) <$> seq tail k.

(** The entries [tail .. tail + k - 1] name blocks of the disk outside the log. *)
Definition entries_ok (l : log) (N : Z) (tail k : nat) : Prop :=
  ∀ t, (tail ≤ t < tail + k)%nat →
    0 ≤ log_block l t < N ∧ 0 ≤ home_block l t < N ∧
    ∀ t', (tail ≤ t' < tail + k)%nat → home_block l t' ≠ log_block l t.

Lemma entries_ok_S l N tail k : entries_ok l N tail (S k) → entries_ok l N (S tail) k.
Proof.
  intros H t Ht. destruct (H t) as (? & ? & Hd); [lia|].
  split; [done|]. split; [done|]. intros t' Ht'. apply Hd. lia.
Qed.

Lemma install_from_spec k tail s V W :
  let l := ls_log s in let N := d_size (bs_disk (ls_bs s)) in
  brep (ls_bs s) V ∅ W → lg_dev l = 1 → entries_ok l N tail k →
  (∀ t, (tail ≤ t < tail + k)%nat → log_block l t ∉ W) →
  (size W < NBUF)%nat →
  (NoDup (home_block l <$> seq tail k) ∧
   (∀ t, (tail ≤ t < tail + k)%nat → home_block l t ∈ W)) ∨
    (S (size W) < NBUF)%nat →
  ∃ b', install_from k tail s = Done tt (LState b' l) ∧
        brep b' (vwrites (installs l V tail k) V) ∅
             (W ∖ list_to_set (home_block l <$> seq tail k)) ∧
        bs_disk b' = dwrites (installs l V tail k) (bs_disk (ls_bs s)).
Proof.
  revert tail s V W. induction k as [|k IH]; intros tail s V W l N Hr Hdev Hok HlW Hsz Hcap.
  { exists (ls_bs s). split; [by destruct s|]. cbn. split; [|done].
    by rewrite difference_empty_L. }
  destruct (Hok tail) as (Hlb & Hhb & Hne); [lia|].
  destruct (install_one_spec s V W tail Hr Hdev Hlb Hhb) as (b1 & E1 & Hr1 & D1).
  { intros E. apply (Hne tail); [lia|done]. }
  { apply HlW. lia. }
  { done. }
  { destruct Hcap as [[_ H]|H]; [left; apply H; lia|by right]. }
  fold l in E1, Hr1, D1.
  set (hb := home_block l tail) in *. set (lb := log_block l tail) in *.
  set (V1 := bupd hb (V lb) V) in *.
  assert (Hsz1 : (size (W ∖ {[hb]}) ≤ size W)%nat) by (apply subseteq_size; set_solver).
  destruct (IH (S tail) (LState b1 l) V1 (W ∖ {[hb]})) as (b' & E & Hr' & D').
  - done.
  - done.
  - simpl. rewrite D1. by apply entries_ok_S.
  - intros t Ht. simpl. intros Hin. apply (HlW t); [lia|set_solver].
  - lia.
  - destruct Hcap as [[Hnd H]|H]; [left|right; lia]. simpl in *.
    apply NoDup_cons in Hnd as [Hn Hnd]. split; [done|]. intros t Ht.
    apply elem_of_difference. split; [apply H; lia|]. rewrite elem_of_singleton.
    intros E. apply Hn. apply list_elem_of_fmap. exists t. split; [done|].
    apply elem_of_seq. lia.
  - assert (Hins : installs l V1 (S tail) k = installs l V (S tail) k).
    { apply list_fmap_ext. intros i t Ht. apply list_elem_of_lookup_2, elem_of_seq in Ht.
      f_equal. unfold V1, bupd. rewrite (proj2 (Z.eqb_neq _ _)); [done|].
      destruct (Hok t) as (_ & _ & Hd); [lia|]. intros E'. apply (Hd tail); [lia|done]. }
    exists b'. simpl in *. rewrite Hins in Hr', D'. split; [|split].
    + unfold bind. by rewrite E1.
    + rewrite difference_difference_l_L in Hr'. done.
    + rewrite D', D1. done.
Qed.

Lemma write_log_from_spec k tail s V W :
  let l := ls_log s in let N := d_size (bs_disk (ls_bs s)) in
  brep (ls_bs s) V ∅ W → lg_dev l = 1 → entries_ok l N tail k →
  (∀ t, (tail ≤ t < tail + k)%nat → log_block l t ∉ W ∧ home_block l t ∈ W) →
  (size W < NBUF)%nat →
  ∃ b', write_log_from k tail s = Done tt (LState b' l) ∧
        brep b' (vwrites (log_copies l V tail k) V) ∅ W ∧
        bs_disk b' = dwrites (log_copies l V tail k) (bs_disk (ls_bs s)).
Proof.
  revert tail s V. induction k as [|k IH]; intros tail s V l N Hr Hdev Hok HW Hsz.
  { exists (ls_bs s). split; [by destruct s|]. done. }
  destruct (Hok tail) as (Hlb & Hhb & Hne); [lia|].
  destruct (HW tail) as [HlW HhW]; [lia|].
  destruct (write_log_one_spec s V W tail Hr Hdev Hlb Hhb) as (b1 & E1 & Hr1 & D1); try done.
  { intros E. apply (Hne tail); [lia|done]. }
  fold l in E1, Hr1, D1, HlW, HhW.
  set (hb := home_block l tail) in *. set (lb := log_block l tail) in *.
  set (V1 := bupd lb (V hb) V) in *.
  rewrite (difference_disjoint_L W {[lb]}) in Hr1 by set_solver.
  destruct (IH (S tail) (LState b1 l) V1) as (b' & E & Hr' & D').
  - done.
  - done.
  - simpl. rewrite D1. by apply entries_ok_S.
  - intros t Ht. apply HW. lia.
  - done.
  - assert (Hins : log_copies l V1 (S tail) k = log_copies l V (S tail) k).
    { apply list_fmap_ext. intros i t Ht. apply list_elem_of_lookup_2, elem_of_seq in Ht.
      f_equal. unfold V1, bupd. rewrite (proj2 (Z.eqb_neq _ _)); [done|].
      apply Hne. lia. }
    exists b'. simpl in *. rewrite Hins in Hr', D'. split; [|split].
    + unfold bind. by rewrite E1.
    + done.
    + rewrite D', D1. done.
Qed.

(** The header block that write_head writes over content [d]. *)
Definition header (l : log) (d : block) : block :=
  put_blocks (Z.to_nat (lg_n l)) 0 (lg_block l) (set_field 0 4 (lg_n l) d).

Lemma write_head_spec s V W :
  let l := ls_log s in let hd := lg_start l in let x := header l (V hd) in
  brep (ls_bs s) V ∅ W → lg_dev l = 1 → 0 ≤ hd < d_size (bs_disk (ls_bs s)) →
  hd ∉ W → (size W < NBUF)%nat →
  ∃ b', write_head s = Done tt (LState b' l) ∧ brep b' (bupd hd x V) ∅ W ∧
        bs_disk b' = dwrite hd x (bs_disk (ls_bs s)).
Proof.
  intros l hd x Hr Hdev Hhd HW Hsz. unfold write_head, bind, gets. fold l. rewrite Hdev. fold hd.
  destruct (bread_spec _ _ _ _ hd Hr) as (i & s1 & E1 & _ & Hr1 & D1);
    [done|by intros j; rewrite lookup_empty|rewrite map_size_empty; lia|].
  rewrite (in_bio_done _ _ _ _ E1). fold l.
  assert (Hi : <[i:=hd]> (∅ : gmap nat Z) !! i = Some hd) by apply lookup_insert_eq.
  rewrite (in_bio_done _ (LState s1 l) _ _ (get_data_spec _ _ _ _ _ _ Hr1 Hi)).
  cbv beta. fold (header l (V hd)). fold x.
  destruct (put_data_spec _ _ _ _ i hd x Hr1 Hi) as (s2 & E2 & Hr2 & D2).
  rewrite (in_bio_done _ (LState _ _) _ _ E2).
  destruct (bwrite_spec _ _ _ _ i hd Hr2 Hi) as (s3 & E3 & Hr3 & D3).
  rewrite (in_bio_done _ (LState _ _) _ _ E3).
  assert (Hv : bupd hd x V hd = x) by (unfold bupd; by rewrite Z.eqb_refl).
  rewrite Hv, D2, D1 in D3.
  destruct (brelse_spec _ _ _ _ i hd Hr3 Hi) as (s4 & E4 & Hr4 & D4).
  { right. by rewrite D3, dblock_dwrite, Z.eqb_refl. }
  rewrite (in_bio_done _ (LState _ _) _ _ E4).
  exists s4. split; [done|]. rewrite delete_insert_eq, delete_empty in Hr4.
  rewrite (difference_disjoint_L W {[hd]}) in Hr4 by set_solver. split; [done|congruence].
Qed.

Lemma read_head_spec s V W :
  let l := ls_log s in let hd := lg_start l in
  brep (ls_bs s) V ∅ W → lg_dev l = 1 → 0 ≤ hd < d_size (bs_disk (ls_bs s)) →
  hd ∉ W → (size W < NBUF)%nat →
  let n := s32 (field 0 4 (V hd)) in
  ∃ b', read_head s =
          Done tt (LState b' (set_block (get_blocks (Z.to_nat n) 0 (V hd) (lg_block l))
                                        (set_n n l))) ∧
        brep b' V ∅ W ∧ bs_disk b' = bs_disk (ls_bs s).
Proof.
  intros l hd Hr Hdev Hhd HW Hsz n. unfold read_head, bind, gets. fold l. rewrite Hdev. fold hd.
  destruct (bread_spec _ _ _ _ hd Hr) as (i & s1 & E1 & _ & Hr1 & D1);
    [done|by intros j; rewrite lookup_empty|rewrite map_size_empty; lia|].
  rewrite (in_bio_done _ _ _ _ E1). fold l.
  assert (Hi : <[i:=hd]> (∅ : gmap nat Z) !! i = Some hd) by apply lookup_insert_eq.
  rewrite (in_bio_done _ (LState s1 l) _ _ (get_data_spec _ _ _ _ _ _ Hr1 Hi)).
  unfold upd_log, modify; simpl.
  destruct (brelse_spec _ _ _ _ i hd Hr1 Hi) as (s4 & E4 & Hr4 & D4).
  { right. rewrite D1. apply (br_disk _ _ _ _ Hr); [done|done|].
    intros j. by rewrite lookup_empty. }
  erewrite (in_bio_done _ (LState s1 _)) by exact E4.
  exists s4. split; [done|]. rewrite delete_insert_eq, delete_empty in Hr4.
  split; [done|congruence].
Qed.
End steps.
