(* ===== verification/LogCrash.v ===== *)
(** * Crash safety of the log

    A crash leaves the disk as it was after some prefix of its block writes and
    loses everything else.  This file shows what the recovery of initlog makes
    of such a disk. *)

From S2P Require Import Prelude Params Core Bio BioSpec BioTheorems Log LogSpec.

(** ** The header block *)
Lemma s32_small z : 0 ≤ z < 2 ^ 31 → s32 (z mod 256 ^ Z.of_nat 4) = z.
Proof.
  intros H. unfold s32, signed. change (256 ^ Z.of_nat 4) with (2 ^ 32).
  rewrite Z.mod_mod by lia. rewrite Z.mod_small by lia.
  by rewrite (proj2 (Z.ltb_lt _ _)) by (simpl; lia).
Qed.

Lemma length_put_blocks k i bl d :
  (4 + 4 * (i + k) ≤ length d)%nat → length (put_blocks k i bl d) = length d.
Proof.
  revert i d. induction k as [|k IH]; intros i d H; cbn [put_blocks]; [done|].
  rewrite IH; rewrite length_set_field; lia.
Qed.

Lemma field_put_blocks_low k i bl d :
  (4 + 4 * (i + k) ≤ length d)%nat → field 0 4 (put_blocks k i bl d) = field 0 4 d.
Proof.
  revert i d. induction k as [|k IH]; intros i d H; cbn [put_blocks]; [done|].
  rewrite IH by (rewrite length_set_field; lia).
  apply field_set_other; lia.
Qed.

Lemma field_put_blocks k i bl d t :
  (4 + 4 * (i + k) ≤ length d)%nat →
  field (4 + 4 * t) 4 (put_blocks k i bl d) =
    if decide (i ≤ t < i + k)%nat then (bl !!! t) mod 256 ^ Z.of_nat 4
    else field (4 + 4 * t) 4 d.
Proof.
  revert i d. induction k as [|k IH]; intros i d H; cbn [put_blocks].
  { case_decide; [lia|done]. }
  rewrite IH by (rewrite length_set_field; lia).
  destruct (decide (t = i)) as [->|Hne].
  - rewrite decide_False, decide_True by lia. apply field_set_same. lia.
  - rewrite field_set_other by lia. repeat case_decide; lia || done.
Qed.

Lemma length_get_blocks k i d bl : length (get_blocks k i d bl) = length bl.
Proof.
  revert i bl. induction k as [|k IH]; intros i bl; cbn [get_blocks]; [done|].
  by rewrite IH, length_insert.
Qed.

Lemma lookup_get_blocks k i d bl t :
  (i + k ≤ length bl)%nat →
  get_blocks k i d bl !!! t =
    if decide (i ≤ t < i + k)%nat then s32 (field (4 + 4 * t) 4 d) else bl !!! t.
Proof.
  revert i bl. induction k as [|k IH]; intros i bl H; cbn [get_blocks].
  { case_decide; [lia|done]. }
  rewrite IH by (rewrite length_insert; lia).
  destruct (decide (t = i)) as [->|Hne].
  - rewrite decide_False, decide_True by lia. apply list_lookup_total_insert_eq. lia.
  - rewrite list_lookup_total_insert_ne by done. repeat case_decide; lia || done.
Qed.

(** ** Boot *)
Definition boot_log : log := MkLog 0 0 0 false 0 0 (replicate 30 0).
Definition boot (c : core) (d : disk) : lstate := LState (boot_cache c d) boot_log.

(** Contents read only where they are looked up. *)
Lemma vwrites_base ws V V' b : b ∈ ws.*1 → vwrites ws V b = vwrites ws V' b.
Proof.
  revert V V'. induction ws as [|w ws IH]; intros V V' Hb; [by apply elem_of_nil in Hb|].
  rewrite fmap_cons in Hb. simpl. destruct (decide (b ∈ ws.*1)) as [Hin|Hout].
  - by apply IH.
  - apply elem_of_cons in Hb as [->|?]; [|done].
    rewrite !vwrites_other by done. unfold bupd. by rewrite Z.eqb_refl.
Qed.

Lemma vwrites_again ws ws' V b :
  (∀ x, x ∈ ws'.*1 → x ∈ ws.*1) → vwrites ws (vwrites ws' V) b = vwrites ws V b.
Proof.
  intros Hsub. destruct (decide (b ∈ ws.*1)) as [Hb|Hb].
  - by apply vwrites_base.
  - rewrite !vwrites_other; [done|done| |done]. intros Hx. by apply Hb, Hsub.
Qed.

(** ** Recoverable disks *)
Section crash.
Variables (start nlog N : Z).

Definition in_log (b : Z) : Prop := start ≤ b < start + nlog.
Definition home (b : Z) : Prop := 0 ≤ b < N ∧ ¬ in_log b.

Definition hdr_n (D : bview) : Z := s32 (field 0 4 (D start)).
Definition hdr_block (D : bview) (t : nat) : Z := s32 (field (4 + 4 * t) 4 (D start)).

(** The block writes that recovery makes from the header and the log. *)
Definition recovery (D : bview) (n : nat) : list (Z * block) :=
  (λ t, (hdr_block D t, D (start + Z.of_nat t + 1))) <$> seq 0 n.

(** Disk contents [D] whose recovery gives every home block content [h]. *)
Record recoverable (D h : bview) (n : nat) : Prop := {
  rc_n : hdr_n D = Z.of_nat n;
  rc_max : Z.of_nat n ≤ LOGSIZE ∧ Z.of_nat n < nlog;
  rc_home : ∀ t, (t < n)%nat → home (hdr_block D t) ∧ hdr_block D t ≠ 1;
  rc_len : length (D start) = 512%nat;
  rc_sb : sb_logstart (read_superblock (D 1)) = start ∧
          sb_nlog (read_superblock (D 1)) = nlog;
  rc_result : ∀ b, home b → h b = vwrites (recovery D n) D b
}.

Hypothesis Hstart : 2 ≤ start.
Hypothesis Hnlog : 1 ≤ nlog.
Hypothesis HN : start + nlog ≤ N.

Lemma recovery_home D h n b : recoverable D h n → b ∈ (recovery D n).*1 → home b ∧ b ≠ 1.
Proof.
  intros Hrc Hb. unfold recovery in Hb. rewrite <- list_fmap_compose in Hb.
  apply list_elem_of_fmap in Hb as (t & -> & Ht). apply elem_of_seq in Ht.
  apply (rc_home _ _ _ Hrc). lia.
Qed.

(** Recovery does not touch the log or the superblock. *)
Lemma recovery_keeps D h n ws b :
  recoverable D h n → (∀ x, x ∈ ws.*1 → x ∈ (recovery D n).*1) →
  in_log b ∨ b = 1 → vwrites ws D b = D b.
Proof.
  intros Hrc Hsub Hb. apply vwrites_other. intros Hin.
  destruct (recovery_home _ _ _ _ Hrc (Hsub _ Hin)) as [[_ Hh] H1].
  destruct Hb as [Hb|Hb]; [by apply Hh|done].
Qed.

(** A crash in the middle of the installation changes nothing for recovery. *)
Lemma recoverable_partial D h n k :
  recoverable D h n →
  recoverable (vwrites (take k (recovery D n)) D) h n.
Proof.
  intros Hrc. pose (ws := take k (recovery D n)). fold ws.
  assert (Hsub : ∀ x, x ∈ ws.*1 → x ∈ (recovery D n).*1).
  { intros x Hx. rewrite <- (take_drop k (recovery D n)), fmap_app. apply elem_of_app. by left. }
  assert (Hst : vwrites ws D start = D start).
  { eapply recovery_keeps; [done|done|]. left. unfold in_log. lia. }
  destruct (rc_max _ _ _ Hrc) as [Hm1 Hm2].
  assert (Hlogs : ∀ t, (t < n)%nat →
     vwrites ws D (start + Z.of_nat t + 1) = D (start + Z.of_nat t + 1)).
  { intros t Ht. eapply recovery_keeps; [done|done|]. left. unfold in_log. lia. }
  assert (Hrec : recovery (vwrites ws D) n = recovery D n).
  { apply list_fmap_ext. intros i t Ht. apply list_elem_of_lookup_2, elem_of_seq in Ht.
    unfold hdr_block. rewrite Hst, Hlogs by lia. done. }
  split.
  - unfold hdr_n. rewrite Hst. apply Hrc.
  - done.
  - intros t Ht. unfold hdr_block. rewrite Hst. by apply Hrc.
  - rewrite Hst. apply Hrc.
  - rewrite (recovery_keeps D h n ws 1) by auto. apply Hrc.
  - intros b Hb. rewrite Hrec, vwrites_again by done. by apply Hrc.
Qed.

(** ** The recovery that initlog runs *)

(** The log state after initlog has read the superblock and the header. *)
Definition recovered_log (D : bview) (n : nat) : log :=
  MkLog start nlog 0 false 1 0
    (get_blocks n 0 (D start) (replicate 30 0)).

Definition clear_header (D : bview) : Z * block := (start, set_field 0 4 0 (D start)).

Lemma readsb_spec b V W :
  brep b V ∅ W → 1 < d_size (bs_disk b) → 1 ∉ W → (size W < NBUF)%nat →
  ∃ b', readsb 1 b = Done (read_superblock (V 1)) b' ∧ brep b' V ∅ W ∧
        bs_disk b' = bs_disk b.
Proof.
  intros Hr HN1 HW Hsz. unfold readsb, bind.
  destruct (bread_spec _ _ _ _ 1 Hr) as (i & s1 & E1 & _ & Hr1 & D1);
    [lia|by intros j; rewrite lookup_empty|rewrite map_size_empty; lia|].
  rewrite E1. assert (Hi : <[i:=1]> (∅ : gmap nat Z) !! i = Some 1) by apply lookup_insert_eq.
  rewrite (get_data_spec _ _ _ _ _ _ Hr1 Hi).
  destruct (brelse_spec _ _ _ _ i 1 Hr1 Hi) as (s2 & E2 & Hr2 & D2).
  { right. rewrite D1. apply (br_disk _ _ _ _ Hr); [lia|done|].
    intros j. by rewrite lookup_empty. }
  rewrite E2. exists s2. split; [done|]. rewrite delete_insert_eq, delete_empty in Hr2.
  split; [done|congruence].
Qed.

(** The log as read_head leaves it, and what the installation makes of it. *)
Definition read_log (D : bview) (n : nat) (l : log) : log :=
  set_block (get_blocks n 0 (D start) (lg_block l)) (set_n (Z.of_nat n) l).

Lemma read_log_entries D h n l :
  recoverable D h n → lg_start l = start → length (lg_block l) = 30%nat →
  entries_ok (read_log D n l) N 0 n ∧ installs (read_log D n l) D 0 n = recovery D n.
Proof.
  intros Hrc Hst Hlen. destruct (rc_max _ _ _ Hrc) as [Hm1 Hm2].
  assert (Hhome : ∀ t, (t < n)%nat → home_block (read_log D n l) t = hdr_block D t).
  { intros t Ht. unfold home_block. cbn [lg_block set_block read_log].
    rewrite lookup_get_blocks by (rewrite Hlen; unfold LOGSIZE, MAXOPBLOCKS in *; lia).
    by rewrite decide_True by lia. }
  assert (Hlogb : ∀ t, log_block (read_log D n l) t = start + Z.of_nat t + 1)
    by (intros t; by rewrite <- Hst).
  split.
  - intros t Ht. rewrite Hlogb, Hhome by lia.
    destruct (rc_home _ _ _ Hrc t) as [[Ht1 Ht2] _]; [lia|].
    split; [lia|]. split; [done|]. intros t' Ht'. rewrite Hhome by lia.
    destruct (rc_home _ _ _ Hrc t') as [[_ Ht3] _]; [lia|].
    intros E. apply Ht3. rewrite E. unfold in_log. lia.
  - apply list_fmap_ext. intros i t Ht. apply list_elem_of_lookup_2, elem_of_seq in Ht.
    by rewrite Hhome, Hlogb by lia.
Qed.

Lemma recover_from_log_spec b l d h n :
  let D := dblock d in let ws := recovery D n ++ [clear_header D] in
  brep b D ∅ ∅ → bs_disk b = d → d_size d = N → recoverable D h n →
  lg_start l = start → lg_dev l = 1 → length (lg_block l) = 30%nat →
  ∃ b', recover_from_log (LState b l) = Done tt (LState b' (set_n 0 (read_log D n l))) ∧
        brep b' (vwrites ws D) ∅ ∅ ∧ bs_disk b' = dwrites ws d.
Proof.
  intros D ws Hr Hd Hsz Hrc Hst Hdev Hlen. unfold recover_from_log, bind at 1.
  destruct (read_log_entries D h n l Hrc Hst Hlen) as [Hok Hins].
  destruct (read_head_spec (LState b l) D ∅) as (b2 & E2 & Hr2 & D2);
    [done|done|cbn; rewrite Hst, Hd; lia|done|rewrite size_empty; unfold NBUF; lia|].
  rewrite E2. cbn [ls_log ls_bs] in D2 |- *. rewrite Hst.
  change (s32 (field 0 4 (D start))) with (hdr_n D). rewrite (rc_n _ _ _ Hrc), Nat2Z.id.
  fold (read_log D n l). rewrite Hd in D2.
  unfold install_trans, bind at 1 2, gets. change (lg_n _) with (Z.of_nat n).
  rewrite Nat2Z.id.
  destruct (install_from_spec n 0 (LState b2 (read_log D n l)) D ∅) as (b3 & E3 & Hr3 & D3);
    [done|done|cbn [ls_bs ls_log]; by rewrite D2, Hsz|intros; apply not_elem_of_empty
    |rewrite size_empty; unfold NBUF; lia|right; rewrite size_empty; unfold NBUF; lia|].
  rewrite E3. cbn [ls_log ls_bs] in Hr3, D3. rewrite Hins, D2 in D3. rewrite Hins in Hr3.
  rewrite difference_disjoint_L in Hr3 by set_solver.
  unfold bind at 1, upd_log, modify. cbn [ls_bs ls_log].
  set (l1 := set_n 0 (read_log D n l)).
  assert (Hst1 : lg_start l1 = start) by done.
  destruct (write_head_spec (LState b3 l1) (vwrites (recovery D n) D) ∅)
    as (b4 & E4 & Hr4 & D4);
    [done|done|cbn [ls_bs ls_log]; rewrite D3, d_size_dwrites; lia|done
    |rewrite size_empty; unfold NBUF; lia|].
  cbn [ls_bs ls_log] in Hr4, D4, E4. rewrite E4. exists b4. split; [done|].
  assert (Hhd : header l1 (vwrites (recovery D n) D start) = set_field 0 4 0 (D start)).
  { unfold header. change (lg_n l1) with 0.
    rewrite (recovery_keeps D h n _ start Hrc); [done|done|]. left. unfold in_log. lia. }
  rewrite Hst1, Hhd in Hr4, D4. unfold ws. rewrite vwrites_app, dwrites_app.
  split; [exact Hr4|]. rewrite D4, D3. done.
Qed.

Lemma initlog_recovers c d h n :
  quiet c → d_size d = N → recoverable (dblock d) h n →
  let D := dblock d in let ws := recovery D n ++ [clear_header D] in
  ∃ b', initlog 1 (boot c d) = Done tt (LState b' (recovered_log D n)) ∧
        brep b' (vwrites ws D) ∅ ∅ ∧ bs_disk b' = dwrites ws d.
Proof.
  intros Hq Hsz Hrc D ws. fold D in Hrc. destruct (rc_sb _ _ _ Hrc) as [Hs1 Hs2].
  unfold initlog. change (BSIZE <=? LOGHEADER_SIZE) with false. cbv iota. unfold bind at 1.
  destruct (readsb_spec _ _ _ (boot_cache_rep c d Hq)) as (b1 & E1 & Hr1 & D1);
    [change (1 < d_size d); lia|done|rewrite size_empty; unfold NBUF; lia|].
  rewrite (in_bio_done _ (boot c d) _ _ E1). change (bs_disk (boot_cache c d)) with d in D1.
  unfold bind at 1, upd_log, modify. cbn [ls_bs ls_log]. fold D. rewrite Hs1, Hs2.
  by destruct (recover_from_log_spec b1 (MkLog start nlog 0 false 1 0 (replicate 30 0)) d h n)
    as (b' & E' & Hr' & D'); [..|exists b'].
Qed.

(** ** Crashes *)

(** [d'] is a disk that the machine had, or could have had, on the way from
    [d1] to [d2]: a block is written as a whole or not at all. *)
Definition passes_through (d1 d d2 : disk) : Prop :=
  ∃ ws1 ws2, d = dwrites ws1 d1 ∧ d2 = dwrites ws2 d.

Lemma d_writes_dwrites ws d : d_writes (dwrites ws d) = reverse ws ++ d_writes d.
Proof.
  revert d. induction ws as [|[b x] ws IH]; intros d; [done|]. simpl.
  rewrite IH, reverse_cons. by rewrite <- (assoc_L (++)).
Qed.

Lemma passes_through_prefix d1 d ws :
  passes_through d1 d (dwrites ws d1) → ∃ k, d = dwrites (take k ws) d1.
Proof.
  intros (ws1 & ws2 & -> & E). rewrite <- dwrites_app in E.
  apply (f_equal d_writes) in E. rewrite !d_writes_dwrites in E.
  apply (inj (.++ d_writes d1)) in E. apply (inj reverse) in E. subst ws.
  exists (length ws1). by rewrite take_app_length.
Qed.

Lemma recoverable_ext D D' h n :
  (∀ b, D b = D' b) → recoverable D h n → recoverable D' h n.
Proof.
  intros HD Hrc.
  assert (Hrec : recovery D' n = recovery D n).
  { apply list_fmap_ext. intros i t _. unfold hdr_block. by rewrite !HD. }
  split; unfold hdr_n, hdr_block; rewrite <- ?HD; try apply Hrc.
  intros b Hb. rewrite Hrec. rewrite <- (vwrites_ext _ D D') by done. by apply Hrc.
Qed.

Lemma recoverable_empty D h :
  hdr_n D = 0 → length (D start) = 512%nat →
  sb_logstart (read_superblock (D 1)) = start ∧ sb_nlog (read_superblock (D 1)) = nlog →
  (∀ b, home b → h b = D b) → recoverable D h 0.
Proof.
  intros H0 Hlen Hsb Hh. split; try done.
  - unfold LOGSIZE, MAXOPBLOCKS. lia.
  - intros t Ht. lia.
Qed.

(** The disk at the end of recovery, header cleared. *)
Lemma recoverable_cleared D h n :
  recoverable D h n → recoverable (vwrites (recovery D n ++ [clear_header D]) D) h 0.
Proof.
  intros Hrc. rewrite vwrites_app. set (D1 := vwrites (recovery D n) D).
  assert (Hst : vwrites [clear_header D] D1 start = set_field 0 4 0 (D start))
    by (cbn; unfold bupd; by rewrite Z.eqb_refl).
  assert (Hoth : ∀ b, b ≠ start → vwrites [clear_header D] D1 b = D1 b)
    by (intros b Hb; cbn; unfold bupd; by rewrite (proj2 (Z.eqb_neq _ _))).
  pose proof (rc_len _ _ _ Hrc) as Hlen.
  apply recoverable_empty.
  - unfold hdr_n. rewrite Hst, field_set_same by lia. done.
  - rewrite Hst, length_set_field; lia.
  - rewrite Hoth by lia. unfold D1. rewrite (recovery_keeps D h n) by auto. apply Hrc.
  - intros b Hb. rewrite Hoth; [by apply Hrc|]. intros ->. apply Hb. unfold in_log. lia.
Qed.

Lemma recoverable_prefix D h n k :
  recoverable D h n →
  ∃ n', recoverable (vwrites (take k (recovery D n ++ [clear_header D])) D) h n'.
Proof.
  intros Hrc. rewrite take_app. destruct (decide (k ≤ length (recovery D n))%nat) as [Hk|Hk].
  - exists n. rewrite (proj2 (Nat.sub_0_le _ _) Hk), take_0, app_nil_r.
    by apply recoverable_partial.
  - exists 0%nat. rewrite (take_ge (recovery D n)) by lia.
    rewrite (take_ge [_]) by (cbn; lia). by apply recoverable_cleared.
Qed.

(** The disks that a sequence of boots can leave, each cut short by a crash
    during the recovery. *)
Inductive crash_run : disk → disk → Prop :=
| crash_none d : crash_run d d
| crash_boot c d s' d1 d2 :
    quiet c → initlog 1 (boot c d) = Done tt s' →
    passes_through d d1 (bs_disk (ls_bs s')) → crash_run d1 d2 → crash_run d d2.

Lemma crash_run_recoverable d d' h n :
  crash_run d d' → d_size d = N → recoverable (dblock d) h n →
  d_size d' = N ∧ ∃ n', recoverable (dblock d') h n'.
Proof.
  intros Hrun. revert n. induction Hrun as [d|c d s' d1 d2 Hq E Hp _ IH]; intros n Hsz Hrc.
  { eauto. }
  destruct (initlog_recovers c d h n Hq Hsz Hrc) as (b' & E' & _ & D').
  rewrite E in E'. injection E' as ->. cbn [ls_bs] in Hp. rewrite D' in Hp.
  apply passes_through_prefix in Hp as (k & ->).
  destruct (recoverable_prefix _ _ _ k Hrc) as [n' Hn'].
  apply (IH n'); [by rewrite d_size_dwrites|].
  eapply recoverable_ext; [|exact Hn']. intros b. by rewrite dblock_dwrites.
Qed.

(** Every boot from such a disk finds the same content of the home blocks. *)
Lemma crash_run_result d d' h n c :
  crash_run d d' → d_size d = N → recoverable (dblock d) h n → quiet c →
  ∃ s' V', initlog 1 (boot c d') = Done tt s' ∧ brep (ls_bs s') V' ∅ ∅ ∧
           ∀ b, home b → V' b = h b.
Proof.
  intros Hrun Hsz Hrc Hq.
  destruct (crash_run_recoverable _ _ _ _ Hrun Hsz Hrc) as (Hsz' & n' & Hrc').
  destruct (initlog_recovers c d' h n' Hq Hsz' Hrc') as (b' & E' & Hr' & _).
  eexists _, _. split; [exact E'|]. split; [exact Hr'|]. intros b Hb.
  pose proof (recoverable_cleared _ _ _ Hrc') as Hcl.
  pose proof (rc_result _ _ _ Hcl b Hb) as ->. done.
Qed.
End crash.
