(* ===== verification/LogCommit.v ===== *)
(** * Transactions: log_write, begin_op, end_op and the atomicity of commit

    The invariant of the log between two steps of a transaction, the block
    writes of a commit, and what a crash at any of them leaves. *)

From S2P Require Import Prelude Params Core Bio BioSpec Log LogSpec LogCrash.

Section commit.
Variables (start nlog N : Z).

Local Abbreviation in_log := (in_log start nlog).
Local Abbreviation home := (home start nlog N).
Local Abbreviation recoverable := (recoverable start nlog N).

(** The blocks recorded in the log header in memory. *)
Definition logged (l : log) : list Z := take (Z.to_nat (lg_n l)) (lg_block l).

(** The log invariant: [V] is the content of the blocks as the file system sees
    it, [H] the buffers it holds, [W] the blocks of the current transaction.  On
    the disk the log is empty and the home blocks have their committed content. *)
Record log_rep (s : lstate) (V : bview) (H : gmap nat Z) (W : gset Z) : Prop := {
  lr_rep : brep (ls_bs s) V H W;
  lr_size : d_size (bs_disk (ls_bs s)) = N;
  lr_geo : lg_dev (ls_log s) = 1 ∧ lg_start (ls_log s) = start ∧ lg_size (ls_log s) = nlog;
  lr_n : 0 ≤ lg_n (ls_log s) < nlog;
  lr_len : length (lg_block (ls_log s)) = 30%nat;
  lr_nodup : NoDup (logged (ls_log s));
  lr_W : ∀ b, b ∈ W ↔ b ∈ logged (ls_log s);
  lr_home : ∀ b, b ∈ W → home b ∧ b ≠ 1;
  lr_hdr : recoverable (dblock (bs_disk (ls_bs s))) (dblock (bs_disk (ls_bs s))) 0
}.

Hypothesis Hstart : 2 ≤ start.
Hypothesis Hnlog : 2 ≤ nlog ≤ 30.
Hypothesis HN : start + nlog ≤ N < 2 ^ 31.

Lemma length_logged l :
  0 ≤ lg_n l < nlog → length (lg_block l) = 30%nat → length (logged l) = Z.to_nat (lg_n l).
Proof. intros. unfold logged. rewrite length_take. lia. Qed.

Lemma logged_size s V H W : log_rep s V H W → (size W = Z.to_nat (lg_n (ls_log s)))%nat.
Proof.
  intros Hl. rewrite <- (length_logged (ls_log s)) by apply Hl.
  rewrite <- (size_list_to_set (C := gset Z)) by apply Hl.
  apply set_size_proper. intros b. rewrite elem_of_list_to_set. apply Hl.
Qed.

Lemma home_block_logged s V H W t :
  log_rep s V H W → (t < Z.to_nat (lg_n (ls_log s)))%nat →
  logged (ls_log s) !! t = Some (home_block (ls_log s) t) ∧ home_block (ls_log s) t ∈ W.
Proof.
  intros Hl Ht. assert (E : logged (ls_log s) !! t = Some (home_block (ls_log s) t)).
  { unfold logged, home_block. rewrite lookup_take_lt by done.
    apply list_lookup_lookup_total_lt. pose proof (lr_n _ _ _ _ Hl). rewrite (lr_len _ _ _ _ Hl). lia. }
  split; [done|]. apply (lr_W _ _ _ _ Hl). by eapply list_elem_of_lookup_2.
Qed.

Lemma logged_seq s V H W :
  log_rep s V H W →
  home_block (ls_log s) <$> seq 0 (Z.to_nat (lg_n (ls_log s))) = logged (ls_log s).
Proof.
  intros Hl. apply list_eq. intros t. rewrite list_lookup_fmap.
  destruct (decide (t < Z.to_nat (lg_n (ls_log s)))%nat) as [Ht|Ht].
  - rewrite lookup_seq_lt by lia. by destruct (home_block_logged _ _ _ _ _ Hl Ht) as [-> _].
  - rewrite lookup_seq_ge by lia. symmetry. apply lookup_ge_None_2.
    rewrite length_logged by apply Hl. lia.
Qed.

Lemma log_entries_ok s V H W :
  log_rep s V H W → entries_ok (ls_log s) N 0 (Z.to_nat (lg_n (ls_log s))).
Proof.
  intros Hl t Ht. destruct (lr_geo _ _ _ _ Hl) as (_ & Hs & _). pose proof (lr_n _ _ _ _ Hl).
  assert (Hb : in_log (log_block (ls_log s) t))
    by (unfold log_block, LogCrash.in_log; rewrite Hs; lia).
  split; [unfold LogCrash.in_log in Hb; lia|].
  destruct (home_block_logged _ _ _ _ t Hl) as [_ Ht1]; [lia|].
  destruct (lr_home _ _ _ _ Hl _ Ht1) as [[Hr _] _]. split; [done|].
  intros t' Ht'. destruct (home_block_logged _ _ _ _ t' Hl) as [_ Ht2]; [lia|].
  destruct (lr_home _ _ _ _ Hl _ Ht2) as [[_ Hn] _].
  intros E. apply Hn. by rewrite E.
Qed.

Lemma log_block_not_W s V H W t :
  log_rep s V H W → (t < Z.to_nat (lg_n (ls_log s)))%nat → log_block (ls_log s) t ∉ W.
Proof.
  intros Hl Ht Hin. destruct (lr_home _ _ _ _ Hl _ Hin) as [[_ Hn] _]. apply Hn.
  destruct (lr_geo _ _ _ _ Hl) as (_ & Hs & _). pose proof (lr_n _ _ _ _ Hl).
  unfold log_block, LogCrash.in_log. rewrite Hs. lia.
Qed.

Lemma start_not_W s V H W : log_rep s V H W → start ∉ W.
Proof.
  intros Hl Hin. destruct (lr_home _ _ _ _ Hl _ Hin) as [[_ Hn] _].
  apply Hn. unfold LogCrash.in_log. lia.
Qed.

(** ** The writes of a commit, in order *)
Definition home_copies (l : log) (V : bview) (k : nat) : list (Z * block) :=
  (λ t, (home_block l t, V (home_block l t))) <$> seq 0 k.

Definition commit_writes (l : log) (V : bview) : list (Z * block) :=
  let n := Z.to_nat (lg_n l) in
  (log_copies l V 0 n ++ [(start, header l (V start))]) ++
  home_copies l V n ++ [(start, set_field 0 4 0 (header l (V start)))].

(** After the copies, log block [t] has the content of home block [t]. *)
Lemma log_copies_keep l V D k b :
  lg_start l = start → Z.of_nat k < nlog → (¬ in_log b ∨ b = start) →
  vwrites (log_copies l V 0 k) D b = D b.
Proof.
  intros Hs Hk Hb. apply vwrites_other. unfold log_copies. rewrite <- list_fmap_compose.
  intros (t & -> & Ht)%list_elem_of_fmap. apply elem_of_seq in Ht. cbn in Hb.
  unfold log_block, LogCrash.in_log in Hb. rewrite Hs in Hb. lia.
Qed.

Lemma log_copies_at l V D k t :
  (t < k)%nat → vwrites (log_copies l V 0 k) D (log_block l t) = V (home_block l t).
Proof.
  intros Ht. apply (vwrites_at _ D t (log_block l t, V (home_block l t))).
  - unfold log_copies. rewrite <- list_fmap_compose. apply NoDup_fmap_2, NoDup_seq.
    intros x y E. cbn in E. unfold log_block in E. lia.
  - unfold log_copies. rewrite list_lookup_fmap, lookup_seq_lt by done. done.
Qed.

Lemma home_copies_at s V H W D b :
  log_rep s V H W →
  vwrites (home_copies (ls_log s) V (Z.to_nat (lg_n (ls_log s)))) D b =
    if decide (b ∈ W) then V b else D b.
Proof.
  intros Hl. set (ws := home_copies _ _ _).
  assert (Hk : ws.*1 = logged (ls_log s)).
  { rewrite <- (logged_seq _ _ _ _ Hl). unfold ws, home_copies. by rewrite <- list_fmap_compose. }
  case_decide as Hb.
  - apply (lr_W _ _ _ _ Hl) in Hb. pose proof Hb as Hb'. rewrite <- Hk in Hb'.
    apply list_elem_of_fmap in Hb' as ([b' x] & -> & Hx).
    apply list_elem_of_lookup_1 in Hx as [t Ht]. cbn.
    assert (Hx' : x = V b').
    { unfold ws, home_copies in Ht. rewrite list_lookup_fmap in Ht.
      destruct (seq 0 _ !! t); simplify_eq/=. done. }
    subst x. apply (vwrites_at ws D t (b', V b')); [|done]. rewrite Hk. apply Hl.
  - apply vwrites_other. rewrite Hk. by rewrite <- (lr_W _ _ _ _ Hl).
Qed.

(** The installation writes the logged content to the home blocks. *)
Lemma installs_home l V V2 k :
  (∀ t, (t < k)%nat → V2 (log_block l t) = V (home_block l t)) →
  installs l V2 0 k = home_copies l V k.
Proof.
  intros HV. apply list_fmap_ext. intros i t Ht.
  apply list_elem_of_lookup_2, elem_of_seq in Ht. by rewrite HV by lia.
Qed.

Lemma commit_empty s : lg_n (ls_log s) = 0 → commit s = Done tt s.
Proof. intros H. unfold commit, bind, gets. by rewrite H. Qed.

(** First half of a commit: copy the blocks to the log and write the header. *)
Lemma commit_log_half s V W :
  log_rep s V ∅ W →
  let l := ls_log s in
  let ws := log_copies l V 0 (Z.to_nat (lg_n l)) ++ [(start, header l (V start))] in
  ∃ b', (write_log ;;; write_head) s = Done tt (LState b' l) ∧
        brep b' (vwrites ws V) ∅ W ∧ bs_disk b' = dwrites ws (bs_disk (ls_bs s)).
Proof.
  intros Hl l ws. pose proof (lr_rep _ _ _ _ Hl) as Hr. pose proof (lr_n _ _ _ _ Hl) as Hn1.
  pose proof (logged_size _ _ _ _ Hl) as HsW. destruct (lr_geo _ _ _ _ Hl) as (Hdev & Hs & _).
  fold l in Hn1, HsW, Hdev, Hs. set (n := Z.to_nat (lg_n l)) in *.
  assert (HNB : (size W < NBUF)%nat) by (unfold NBUF; lia).
  destruct (write_log_from_spec n 0 s V W Hr Hdev) as (b1 & E1 & Hr1 & D1).
  { rewrite (lr_size _ _ _ _ Hl). by eapply log_entries_ok. }
  { intros t Ht. split; [apply (log_block_not_W _ _ _ _ _ Hl); fold l n; lia|].
    apply (home_block_logged _ _ _ _ t Hl). fold l n. lia. }
  { done. }
  fold l in E1, Hr1, D1. change (write_log s = Done tt (LState b1 l)) in E1.
  rewrite (bind_done _ _ _ _ _ E1).
  set (V1 := vwrites (log_copies l V 0 n) V) in *.
  destruct (write_head_spec (LState b1 l) V1 W Hr1 Hdev) as (b2 & E2 & Hr2 & D2).
  { cbn [ls_bs ls_log]. rewrite D1, d_size_dwrites, Hs, (lr_size _ _ _ _ Hl). lia. }
  { cbn [ls_log]. rewrite Hs. by eapply start_not_W. }
  { done. }
  cbn [ls_bs ls_log] in Hr2, D2. rewrite Hs in Hr2, D2.
  assert (HV1 : V1 start = V start) by (apply log_copies_keep; [done|lia|by right]).
  rewrite HV1 in Hr2, D2. exists b2. split; [exact E2|].
  unfold ws. rewrite vwrites_app, dwrites_app. split; [exact Hr2|]. rewrite D2, D1. done.
Qed.

(** Second half: install the blocks and clear the header.  [V2] is the content
    after the first half. *)
Lemma commit_install_half s V W b2 V2 :
  log_rep s V ∅ W →
  let l := ls_log s in let n := Z.to_nat (lg_n l) in
  let ws := home_copies l V n ++ [(start, set_field 0 4 0 (V2 start))] in
  brep b2 V2 ∅ W → d_size (bs_disk b2) = N →
  (∀ t, (t < n)%nat → V2 (log_block l t) = V (home_block l t)) →
  ∃ b', (install_trans ;;; upd_log (set_n 0) ;;; write_head) (LState b2 l)
          = Done tt (LState b' (set_n 0 l)) ∧
        brep b' (vwrites ws V2) ∅ ∅ ∧ bs_disk b' = dwrites ws (bs_disk b2).
Proof.
  intros Hl l n ws Hr2 Hsz HV2. pose proof (lr_n _ _ _ _ Hl) as Hn1.
  pose proof (logged_size _ _ _ _ Hl) as HsW. pose proof (logged_seq _ _ _ _ Hl) as Hseq.
  destruct (lr_geo _ _ _ _ Hl) as (Hdev & Hs & _). fold l in Hn1, HsW, Hdev, Hs, Hseq.
  fold n in HsW, Hseq.
  destruct (install_from_spec n 0 (LState b2 l) V2 W Hr2 Hdev) as (b3 & E3 & Hr3 & D3).
  { cbn [ls_bs ls_log]. rewrite Hsz. by eapply log_entries_ok. }
  { intros t Ht. apply (log_block_not_W _ _ _ _ _ Hl). fold l n. lia. }
  { unfold NBUF. lia. }
  { left. cbn [ls_log]. rewrite Hseq. split; [apply Hl|]. intros t Ht.
    apply (home_block_logged _ _ _ _ t Hl). fold l n. lia. }
  change (install_trans (LState b2 l) = Done tt (LState b3 l)) in E3.
  rewrite (bind_done _ _ _ _ _ E3). cbn [ls_bs ls_log] in Hr3, D3 |- *.
  rewrite (installs_home _ _ _ _ HV2), Hseq in Hr3. rewrite (installs_home _ _ _ _ HV2) in D3.
  replace (W ∖ list_to_set (logged l)) with (∅ : gset Z) in Hr3
    by (apply set_eq; intros x; rewrite elem_of_difference, elem_of_list_to_set;
        pose proof (lr_W _ _ _ _ Hl x); set_solver).
  set (V3 := vwrites (home_copies l V n) V2) in *.
  unfold bind, upd_log, modify. cbn [ls_bs ls_log].
  destruct (write_head_spec (LState b3 (set_n 0 l)) V3 ∅ Hr3 Hdev) as (b4 & E4 & Hr4 & D4).
  { cbn [ls_bs ls_log lg_start set_n]. rewrite D3, d_size_dwrites. lia. }
  { done. }
  { rewrite size_empty. unfold NBUF. lia. }
  cbn [ls_bs ls_log lg_start set_n] in E4, Hr4, D4. rewrite Hs in Hr4, D4.
  assert (HV3 : V3 start = V2 start).
  { unfold V3, l, n. rewrite (home_copies_at _ _ _ _ _ _ Hl).
    by rewrite decide_False by (by eapply start_not_W). }
  rewrite HV3 in Hr4, D4. exists b4. split; [done|]. unfold ws. rewrite vwrites_app, dwrites_app.
  split; [exact Hr4|]. rewrite D4, D3. done.
Qed.

Lemma commit_spec s V W :
  log_rep s V ∅ W → 0 < lg_n (ls_log s) →
  ∃ b', commit s = Done tt (LState b' (set_n 0 (ls_log s))) ∧
        brep b' (vwrites (commit_writes (ls_log s) V) V) ∅ ∅ ∧
        bs_disk b' = dwrites (commit_writes (ls_log s) V) (bs_disk (ls_bs s)).
Proof.
  intros Hl Hn. destruct (commit_log_half _ _ _ Hl) as (b2 & E2 & Hr2 & D2).
  unfold commit, bind at 1, gets. rewrite (proj2 (Z.ltb_lt _ _) Hn).
  rewrite <- bind_assoc, (bind_done _ _ _ _ _ E2).
  rewrite vwrites_app in Hr2. set (V1 := vwrites (log_copies _ _ _ _) V) in Hr2.
  destruct (commit_install_half _ V W _ _ Hl Hr2) as (b4 & E4 & Hr4 & D4).
  { rewrite D2, d_size_dwrites. apply Hl. }
  { intros t Ht. cbn. unfold bupd. rewrite (proj2 (Z.eqb_neq _ _)).
    - by apply log_copies_at.
    - unfold log_block. destruct (lr_geo _ _ _ _ Hl) as (_ & -> & _). lia. }
  rewrite E4. exists b4. split; [done|].
  assert (E : vwrites [(start, header (ls_log s) (V start))] V1 start = header (ls_log s) (V start))
    by (cbn; unfold bupd; by rewrite Z.eqb_refl).
  rewrite E in Hr4, D4. unfold commit_writes. rewrite !vwrites_app, dwrites_app, <- D2.
  split; [|done]. rewrite vwrites_app in Hr4. exact Hr4.
Qed.

(** ** A crash during the commit *)
Section crash_commit.
Variables (s : lstate) (V : bview) (W : gset Z).
Hypothesis Hl : log_rep s V ∅ W.

Let l := ls_log s.
Let n := Z.to_nat (lg_n l).
Let D := dblock (bs_disk (ls_bs s)).
Let logging := log_copies l V 0 n ++ [(start, header l (V start))].

Lemma n_small : (Z.of_nat n < nlog)%Z ∧ (n < 30)%nat.
Proof. pose proof (lr_n _ _ _ _ Hl) as H. fold l in H. unfold n. lia. Qed.

Lemma disk_header_length : length (D start) = 512%nat.
Proof. apply (rc_len _ _ _ _ _ _ (lr_hdr _ _ _ _ Hl)). Qed.

Lemma clean_content b : 0 ≤ b < N → b ∉ W → V b = D b.
Proof.
  intros Hb HW. apply (br_disk _ _ _ _ (lr_rep _ _ _ _ Hl)); [|done|].
  - by rewrite (lr_size _ _ _ _ Hl).
  - intros i. by rewrite lookup_empty.
Qed.

Lemma start_content : V start = D start.
Proof. apply clean_content; [lia|]. by eapply start_not_W. Qed.

(** Before the header is written the log on the disk is still empty. *)
Lemma crash_before_header k :
  recoverable (vwrites (take k (log_copies l V 0 n)) D) D 0.
Proof.
  destruct (lr_geo _ _ _ _ Hl) as (_ & Hs & _). pose proof (lr_n _ _ _ _ Hl) as Hn. fold l in Hn.
  assert (Hk : ∀ b, ¬ in_log b ∨ b = start → vwrites (take k (log_copies l V 0 n)) D b = D b).
  { intros b Hb. apply vwrites_other. intros Hin.
    assert (Hin' : b ∈ (log_copies l V 0 n).*1).
    { rewrite <- (take_drop k (log_copies l V 0 n)), fmap_app. apply elem_of_app. by left. }
    unfold log_copies in Hin'. rewrite <- list_fmap_compose in Hin'.
    apply list_elem_of_fmap in Hin' as (t & -> & Ht). apply elem_of_seq in Ht. cbn in Hb.
    unfold log_block, LogCrash.in_log in Hb. fold l in Hs. rewrite Hs in Hb. unfold n in Ht. lia. }
  pose proof (lr_hdr _ _ _ _ Hl) as Hrc. fold D in Hrc.
  apply recoverable_empty.
  - lia.
  - unfold hdr_n. rewrite Hk by auto. apply (rc_n _ _ _ _ _ _ Hrc).
  - rewrite Hk by auto. apply (rc_len _ _ _ _ _ _ Hrc).
  - rewrite Hk by (left; unfold LogCrash.in_log; lia). apply (rc_sb _ _ _ _ _ _ Hrc).
  - intros b [_ Hb]. rewrite Hk by auto. done.
Qed.

Lemma header_block t :
  (t < n)%nat → hdr_block start (vwrites logging D) t = home_block l t.
Proof.
  intros Ht. pose proof (lr_n _ _ _ _ Hl) as Hn. fold l in Hn.
  destruct (home_block_logged _ _ _ _ t Hl Ht) as [_ HtW].
  destruct (lr_home _ _ _ _ Hl _ HtW) as [[Hrange _] _]. fold l in Hrange.
  pose proof disk_header_length as Hlen. pose proof n_small as Hns.
  unfold hdr_block, logging. rewrite vwrites_snoc, Z.eqb_refl.
  unfold header. fold n. rewrite start_content.
  rewrite field_put_blocks by (rewrite length_set_field; rewrite Hlen; lia).
  rewrite decide_True by lia. apply s32_small.
  change (0 ≤ home_block l t < 2 ^ 31). lia.
Qed.

(** Once it is written, recovery gives the content of the transaction. *)
Lemma crash_after_header : recoverable (vwrites logging D) V n.
Proof.
  destruct (lr_geo _ _ _ _ Hl) as (_ & Hs & _). pose proof (lr_n _ _ _ _ Hl) as Hn. fold l in Hs, Hn.
  pose proof (lr_hdr _ _ _ _ Hl) as Hrc. fold D in Hrc.
  pose proof disk_header_length as Hlen. pose proof n_small as Hns.
  assert (Hst : vwrites logging D start = header l (D start)).
  { unfold logging. by rewrite vwrites_snoc, Z.eqb_refl, start_content. }
  assert (Hk : ∀ b, ¬ in_log b → vwrites logging D b = D b).
  { intros b Hb. unfold logging. rewrite vwrites_snoc.
    rewrite (proj2 (Z.eqb_neq _ _)) by (intros ->; apply Hb; unfold LogCrash.in_log; lia).
    apply log_copies_keep; [done|unfold n; lia|by left]. }
  assert (Hrec : recovery start (vwrites logging D) n = home_copies l V n).
  { apply list_fmap_ext. intros i t Ht. apply list_elem_of_lookup_2, elem_of_seq in Ht.
    rewrite header_block by lia. f_equal. unfold logging. rewrite vwrites_snoc.
    rewrite (proj2 (Z.eqb_neq _ _)) by lia.
    rewrite <- (log_copies_at l V D n t) by lia. unfold log_block. by rewrite Hs. }
  split.
  - unfold hdr_n. rewrite Hst. unfold header. rewrite field_put_blocks_low, field_set_same
      by (rewrite ?length_set_field; rewrite Hlen; lia).
    rewrite s32_small; unfold n; lia.
  - unfold LOGSIZE, MAXOPBLOCKS, n. lia.
  - intros t Ht. rewrite header_block by done. apply (lr_home _ _ _ _ Hl).
    by apply (home_block_logged _ _ _ _ t Hl).
  - rewrite Hst. unfold header.
    rewrite length_put_blocks; rewrite length_set_field; rewrite ?Hlen; lia.
  - rewrite Hk by (unfold LogCrash.in_log; lia). apply (rc_sb _ _ _ _ _ _ Hrc).
  - intros b [Hb Hb']. rewrite Hrec. unfold l, n. rewrite (home_copies_at _ _ _ _ _ _ Hl).
    case_decide; [done|]. rewrite Hk by done. by apply clean_content.
Qed.

Lemma commit_writes_split :
  commit_writes l V =
    logging ++ recovery start (vwrites logging D) n ++ [clear_header start (vwrites logging D)].
Proof.
  unfold commit_writes. fold n. fold logging. f_equal. f_equal.
  - symmetry. apply list_fmap_ext. intros i t Ht. apply list_elem_of_lookup_2, elem_of_seq in Ht.
    rewrite header_block by lia. f_equal. unfold logging. rewrite vwrites_snoc.
    rewrite (proj2 (Z.eqb_neq _ _)) by lia. rewrite <- (log_copies_at l V D n t) by lia.
    destruct (lr_geo _ _ _ _ Hl) as (_ & Hs & _). fold l in Hs. unfold log_block. by rewrite Hs.
  - unfold clear_header, logging. by rewrite vwrites_snoc, Z.eqb_refl.
Qed.

(** Whatever the number of writes made, recovery gives the old or the new
    content of every home block, never a mixture. *)
Lemma commit_crash k :
  ∃ h n', (h = D ∨ h = V) ∧ recoverable (vwrites (take k (commit_writes l V)) D) h n'.
Proof.
  rewrite commit_writes_split, take_app.
  destruct (decide (k < length logging)%nat) as [Hk|Hk].
  - exists D, 0%nat. split; [by left|].
    rewrite (proj2 (Nat.sub_0_le _ _)), take_0, app_nil_r by lia.
    unfold logging in *. rewrite length_app in Hk. cbn in Hk. rewrite take_app_le by lia.
    apply crash_before_header.
  - rewrite (take_ge logging) by lia. rewrite vwrites_app.
    destruct (recoverable_prefix start nlog N ltac:(lia) ltac:(lia) _ V n (k - length logging)
                crash_after_header) as [n' Hn'].
    exists V, n'. split; [by right|exact Hn'].
Qed.

(** The disk after the whole commit: the log is empty, the home blocks hold the
    content of the transaction. *)
Lemma commit_result :
  recoverable (vwrites (commit_writes l V) D) V 0 ∧
  ∀ b, home b → vwrites (commit_writes l V) V b = V b.
Proof.
  split.
  - rewrite commit_writes_split, vwrites_app.
    apply (recoverable_cleared start nlog N); [lia..|]. apply crash_after_header.
  - intros b [Hb Hb']. unfold commit_writes. fold n. rewrite !vwrites_app. cbn.
    assert (Hne : b ≠ start) by (intros ->; apply Hb'; unfold LogCrash.in_log; lia).
    unfold bupd at 1. rewrite (proj2 (Z.eqb_neq _ _)) by done.
    unfold l, n. rewrite (home_copies_at _ _ _ _ _ _ Hl). case_decide; [done|].
    unfold bupd. rewrite (proj2 (Z.eqb_neq _ _)) by done.
    destruct (lr_geo _ _ _ _ Hl) as (_ & Hs & _).
    apply log_copies_keep; [done|apply n_small|by left].
Qed.
End crash_commit.

(** ** Taking and dropping the lock of the log *)
Lemma log_acquire lk s :
  quiet (bs_core (ls_bs s)) →
  log_core (acquire lk) s
  = Done tt (LState (set_core (set_held [lk] (bs_core (ls_bs s))) (ls_bs s)) (ls_log s)).
Proof. intros Hq. apply (in_bio_done (in_core (acquire lk))). by apply in_core_acquire. Qed.

Lemma log_release lk s :
  c_held (bs_core (ls_bs s)) = [lk] →
  log_core (release lk) s
  = Done tt (LState (set_core (set_held [] (bs_core (ls_bs s))) (ls_bs s)) (ls_log s)).
Proof. intros Hq. apply (in_bio_done (in_core (release lk))). by apply in_core_release. Qed.

Lemma log_wakeup ch s :
  Lk_ptable ∉ c_held (bs_core (ls_bs s)) →
  log_core (wakeup ch) s
  = Done tt (LState (set_core (woken ch (bs_core (ls_bs s))) (ls_bs s)) (ls_log s)).
Proof.
  intros Hq. apply (in_bio_done (in_core (wakeup ch))). unfold in_core, zoom.
  by rewrite wakeup_ok.
Qed.

Lemma brep_core b V H W c : brep b V H W → quiet c → brep (set_core c b) V H W.
Proof. intros [] Hc. by split. Qed.

Lemma set_core_same b c : bs_core b = c → set_core c b = b.
Proof. destruct b; cbn. by intros ->. Qed.

(** ** end_op *)
Definition finished (l : log) : log := set_committing false (set_outstanding 0 (set_n 0 l)).

Lemma end_op_last s :
  quiet (bs_core (ls_bs s)) → lg_outstanding (ls_log s) = 1 → lg_committing (ls_log s) = false →
  let l := set_committing true (set_outstanding 0 (ls_log s)) in
  ∀ b' l', commit (LState (ls_bs s) l) = Done tt (LState b' l') → quiet (bs_core b') →
  end_op s = Done tt (LState (set_core (woken Ch_log (bs_core b')) b') (set_committing false l')).
Proof.
  intros Hq Ho Hc l b' l' E Hq'. destruct s as [b l0]. cbn [ls_bs ls_log] in *.
  unfold end_op. rewrite (bind_done _ _ _ _ _ (log_acquire _ (LState b l0) Hq)).
  cbn [ls_bs ls_log]. unfold upd_log. unfold bind at 1, modify at 1. unfold bind at 1, gets.
  cbn [ls_bs ls_log lg_committing lg_outstanding set_outstanding]. rewrite Hc, Ho.
  change (1 - 1 =? 0) with true. cbv iota zeta. unfold bind at 1, modify at 1.
  cbn [ls_bs ls_log]. erewrite (bind_done (log_core (release Lk_log))) by (by apply log_release).
  cbn [ls_bs ls_log]. change (1 - 1) with 0. fold l.
  assert (Hb : set_core (set_held [] (bs_core (set_core (set_held [Lk_log] (bs_core b)) b)))
            (set_core (set_held [Lk_log] (bs_core b)) b) = b).
  { unfold set_core. cbn [bs_core bs_buf bs_disk]. rewrite quiet_reset by done. by destruct b. }
  rewrite Hb, (bind_done _ _ _ _ _ E).
  rewrite (bind_done _ _ _ _ _ (log_acquire _ (LState b' l') Hq')).
  unfold bind at 1, modify at 1. cbn [ls_bs ls_log].
  erewrite (bind_done (log_core (wakeup Ch_log))) by (apply log_wakeup; cbn; set_solver).
  rewrite (log_release _ (LState _ _)) by done. cbn [ls_bs ls_log].
  unfold set_core. cbn [bs_core bs_buf bs_disk]. destruct Hq' as [Hh _].
  by destruct b' as [[]]; cbn in *; subst.
Qed.

(** The writes of end_op: those of a commit if the transaction wrote anything. *)
Definition end_writes (l : log) (V : bview) : list (Z * block) :=
  if 0 <? lg_n l then commit_writes l V else [].

Lemma log_rep_flags s V H W c o :
  log_rep s V H W →
  log_rep (LState (ls_bs s) (set_committing c (set_outstanding o (ls_log s)))) V H W.
Proof. by intros []. Qed.

Lemma end_op_spec s V W :
  log_rep s V ∅ W → lg_outstanding (ls_log s) = 1 → lg_committing (ls_log s) = false →
  ∃ b', end_op s = Done tt (LState b' (finished (ls_log s))) ∧
        brep b' (vwrites (end_writes (ls_log s) V) V) ∅ ∅ ∧
        bs_disk b' = dwrites (end_writes (ls_log s) V) (bs_disk (ls_bs s)).
Proof.
  intros Hl Ho Hc. pose proof (br_quiet _ _ _ _ (lr_rep _ _ _ _ Hl)) as Hq.
  pose proof (log_rep_flags _ _ _ _ true 0 Hl) as Hl1. unfold end_writes.
  destruct (0 <? lg_n (ls_log s)) eqn:E; [apply Z.ltb_lt in E|apply Z.ltb_ge in E].
  - destruct (commit_spec _ _ _ Hl1 E) as (b' & E' & Hr' & D').
    pose proof (br_quiet _ _ _ _ Hr') as Hq'.
    eexists. split; [exact (end_op_last s Hq Ho Hc _ _ E' Hq')|].
    split; [|exact D']. apply brep_core; [exact Hr'|]. by apply quiet_woken.
  - assert (E0 : lg_n (ls_log s) = 0) by (pose proof (lr_n _ _ _ _ Hl); lia).
    assert (HW : W = ∅).
    { apply set_eq. intros b. rewrite (lr_W _ _ _ _ Hl). unfold logged. rewrite E0. set_solver. }
    pose proof (commit_empty (LState (ls_bs s) (set_committing true (set_outstanding 0 (ls_log s)))) E0)
      as E'.
    eexists. split.
    + rewrite (end_op_last s Hq Ho Hc _ _ E' Hq). unfold finished, set_n. cbn. rewrite <- E0. done.
    + split; [|done]. subst W. apply brep_core; [apply Hl|]. by apply quiet_woken.
Qed.

(** The log invariant holds again, with the content of the transaction on the
    disk. *)
Lemma end_op_rep s V W :
  log_rep s V ∅ W → lg_outstanding (ls_log s) = 1 → lg_committing (ls_log s) = false →
  ∃ s' V', end_op s = Done tt s' ∧ log_rep s' V' ∅ ∅ ∧ ls_log s' = finished (ls_log s) ∧
    (∀ b, home b → V' b = V b ∧ dblock (bs_disk (ls_bs s')) b = V b) ∧
    bs_disk (ls_bs s') = dwrites (end_writes (ls_log s) V) (bs_disk (ls_bs s)).
Proof.
  intros Hl Ho Hc. destruct (end_op_spec _ _ _ Hl Ho Hc) as (b' & E & Hr & D').
  assert (Hres : recoverable (dblock (bs_disk b')) V 0 ∧
                 ∀ b, home b → vwrites (end_writes (ls_log s) V) V b = V b).
  { rewrite D'. unfold end_writes. destruct (0 <? lg_n (ls_log s)) eqn:En.
    - destruct (commit_result _ _ _ Hl) as [H1 H2]. split; [|done].
      eapply recoverable_ext; [|exact H1]. intros b. by rewrite dblock_dwrites.
    - split; [|done]. cbn. destruct (lr_hdr _ _ _ _ Hl) as [H1 H2 H3 H4 H5 _].
      split; try done. intros b [Hb _]. apply (clean_content _ _ _ Hl); [done|].
      rewrite (lr_W _ _ _ _ Hl). unfold logged. apply Z.ltb_ge in En.
      replace (Z.to_nat _) with 0%nat by lia. apply not_elem_of_nil. }
  destruct Hres as [Hrc Hkeep].
  assert (Hres : ∀ b, home b → dblock (bs_disk b') b = V b).
  { intros b Hb. rewrite (rc_result _ _ _ _ _ _ Hrc b Hb). done. }
  eexists _, _. split; [exact E|]. split; [|split; [done|split; [|exact D']]].
  - split; cbn [ls_bs ls_log finished set_committing set_outstanding set_n lg_n lg_dev lg_start
      lg_size lg_block]; try apply Hl.
    + exact Hr.
    + rewrite D', d_size_dwrites. apply Hl.
    + lia.
    + apply NoDup_nil_2.
    + set_solver.
    + set_solver.
    + destruct Hrc as [H1 H2 H3 H4 H5 _]. by split.
  - intros b Hb. split; [by apply Hkeep|by apply Hres].
Qed.

(** ** log_write *)
Lemma find_block_spec k i bl b :
  let r := find_block k i bl b in
  (r = (i + k)%nat ∧ ∀ t, (i ≤ t < i + k)%nat → bl !!! t ≠ b) ∨
  ((i ≤ r < i + k)%nat ∧ bl !!! r = b).
Proof.
  revert i. induction k as [|k IH]; intros i; cbn [find_block].
  { left. split; [lia|]. intros t Ht. lia. }
  destruct (bl !!! i =? b) eqn:E; [apply Z.eqb_eq in E|apply Z.eqb_neq in E].
  { right. split; [lia|done]. }
  destruct (IH (S i)) as [[Hr Hno]|[Hr Hb]].
  - left. split; [lia|]. intros t Ht. destruct (decide (t = i)) as [->|]; [done|].
    apply Hno. lia.
  - right. split; [lia|done].
Qed.

(** Recording block [b] in the header: absorbed if it is there already. *)
Lemma logged_insert l b :
  0 ≤ lg_n l < nlog → length (lg_block l) = 30%nat → NoDup (logged l) →
  let i := find_block (Z.to_nat (lg_n l)) 0 (lg_block l) b in
  let l1 := set_block (<[i := b]> (lg_block l)) l in
  let l2 := if Z.of_nat i =? lg_n l then set_n (lg_n l + 1) l1 else l1 in
  NoDup (logged l2) ∧ (∀ x, x ∈ logged l2 ↔ x = b ∨ x ∈ logged l) ∧
  (lg_n l2 = lg_n l ∨ lg_n l2 = lg_n l + 1).
Proof.
  intros Hn Hlen Hnd i l1 l2.
  destruct (find_block_spec (Z.to_nat (lg_n l)) 0 (lg_block l) b) as [[Hi Hno]|[Hi Hb]];
    fold i in Hi.
  - assert (Ei : Z.of_nat i =? lg_n l = true) by (apply Z.eqb_eq; lia).
    assert (E : logged l2 = logged l ++ [b]).
    { unfold l2. rewrite Ei. unfold logged. cbn [lg_n lg_block set_n set_block l1].
      replace (Z.to_nat (lg_n l + 1)) with (S i) by lia. rewrite Hi. cbn [Nat.add].
      rewrite (take_S_r _ _ b) by (apply list_lookup_insert_eq; lia).
      by rewrite take_insert_ge by lia. }
    rewrite E. assert (Hbn : b ∉ logged l).
    { intros Hin. apply list_elem_of_lookup_1 in Hin as [t Ht]. unfold logged in Ht.
      apply lookup_take_Some in Ht as [Ht Hlt]. apply list_lookup_total_correct in Ht.
      by apply (Hno t); [lia|]. }
    split; [apply NoDup_app; split; [done|]; split; [set_solver|apply NoDup_singleton]|].
    split; [intros x; rewrite elem_of_app, list_elem_of_singleton; tauto|].
    right. unfold l2. by rewrite Ei.
  - assert (Ei : Z.of_nat i =? lg_n l = false) by (apply Z.eqb_neq; lia).
    assert (Hlk : lg_block l !! i = Some b) by (rewrite <- Hb; apply list_lookup_lookup_total_lt; lia).
    assert (E : logged l2 = logged l).
    { unfold l2. rewrite Ei. unfold logged, l1. cbn [lg_n lg_block set_block].
      by rewrite list_insert_id. }
    rewrite E. split; [done|]. split; [|left; unfold l2; by rewrite Ei].
    intros x. split; [by right|]. intros [-> | ?]; [|done].
    unfold logged. apply (list_elem_of_lookup_2 _ i). rewrite lookup_take_lt by lia. done.
Qed.

Lemma log_write_spec s V H W i b :
  log_rep s V H W → H !! i = Some b → home b → b ≠ 1 →
  lg_n (ls_log s) + 1 < nlog → 1 ≤ lg_outstanding (ls_log s) →
  ∃ s', log_write i s = Done tt s' ∧ log_rep s' V H ({[b]} ∪ W) ∧
        lg_outstanding (ls_log s') = lg_outstanding (ls_log s) ∧
        lg_committing (ls_log s') = lg_committing (ls_log s) ∧
        lg_n (ls_log s) ≤ lg_n (ls_log s') ≤ lg_n (ls_log s) + 1 ∧
        bs_disk (ls_bs s') = bs_disk (ls_bs s).
Proof.
  intros Hl HH Hb Hb1 Hroom Ho. pose proof (lr_rep _ _ _ _ Hl) as Hr.
  pose proof (br_quiet _ _ _ _ Hr) as Hq. pose proof (lr_n _ _ _ _ Hl) as Hn.
  destruct (lr_geo _ _ _ _ Hl) as (_ & _ & Hsize).
  destruct (held_facts _ _ _ _ _ _ Hr HH) as ((_ & _ & Hbno) & _).
  destruct (logged_insert (ls_log s) b Hn (lr_len _ _ _ _ Hl) (lr_nodup _ _ _ _ Hl))
    as (Hnd & Hin & Hcount).
  unfold log_write. unfold bind at 1, gets at 1. rewrite Hsize.
  rewrite (proj2 (Z.leb_gt LOGSIZE _)) by (unfold LOGSIZE, MAXOPBLOCKS; lia).
  rewrite (proj2 (Z.leb_gt (nlog - 1) _)) by lia.
  rewrite (proj2 (Z.ltb_ge (lg_outstanding _) 1)) by lia. cbn [orb].
  erewrite (bind_done (log_core (acquire Lk_log))) by (by apply log_acquire).
  unfold bind at 1, gets at 1. cbn [ls_bs ls_log].
  change (bufp (set_core _ _) i) with (bufp (ls_bs s) i). rewrite Hbno.
  set (j := find_block _ 0 _ b) in *. cbv zeta.
  unfold bind at 1, upd_log at 1, modify at 1. cbn [ls_bs ls_log].
  set (l1 := set_block (<[j := b]> (lg_block (ls_log s))) (ls_log s)) in *.
  set (l2 := if Z.of_nat j =? lg_n (ls_log s) then set_n (lg_n (ls_log s) + 1) l1 else l1) in *.
  set (b1 := set_core _ (ls_bs s)).
  assert (E1 : (if Z.of_nat j =? lg_n (ls_log s) then upd_log (λ l, set_n (lg_n l + 1) l)
                else ret tt) (LState b1 l1) = Done tt (LState b1 l2))
    by (unfold l2; by destruct (Z.of_nat j =? lg_n (ls_log s))).
  rewrite (bind_done _ _ _ _ _ E1).
  destruct (pin_spec _ _ _ _ i b Hr HH) as (b2 & E2 & Hr2 & D2).
  injection E2 as E2.
  unfold bind, in_bio, pin, zoom, modify. cbn [ls_bs ls_log].
  rewrite log_release by done. cbn [ls_bs ls_log]. eexists. split; [done|].
  assert (Hb2 : set_core (set_held [] (bs_core (upd_buf i (λ x, set_flags (Z.lor (b_flags x) B_DIRTY) x) b1)))
    (upd_buf i (λ x, set_flags (Z.lor (b_flags x) B_DIRTY) x) b1) = b2).
  { rewrite <- E2. unfold set_core, upd_buf, b1. cbn [bs_core bs_buf bs_disk set_core].
    by rewrite quiet_reset. }
  rewrite Hb2.
  assert (Hf : lg_outstanding l2 = lg_outstanding (ls_log s) ∧
               lg_committing l2 = lg_committing (ls_log s)) by (unfold l2; by case_match).
  split; [|cbn [ls_log ls_bs]; destruct Hf as [-> ->]; repeat split; (done || lia)].
  split; cbn [ls_bs ls_log].
  - done.
  - rewrite D2. apply Hl.
  - unfold l2. case_match; apply Hl.
  - lia.
  - unfold l2. case_match; cbn; rewrite length_insert; apply Hl.
  - done.
  - intros x. rewrite Hin, elem_of_union, elem_of_singleton, (lr_W _ _ _ _ Hl). done.
  - intros x. rewrite elem_of_union, elem_of_singleton.
    intros [-> | Hx]; [done|]. by apply (lr_home _ _ _ _ Hl).
  - rewrite D2. apply Hl.
Qed.
End commit.
