(* ===== verification/Transactions.v ===== *)
(** * The theorems on the log: atomicity of transactions, admission, recovery *)

From S2P Require Import Prelude Params Core Bio BioSpec BioTheorems Log LogSpec LogCrash LogCommit.

(** ** From boot to a transaction *)
Section transactions.
Variables (start nlog N : Z).
Hypothesis Hstart : 2 ≤ start.
Hypothesis Hnlog : 2 ≤ nlog ≤ 30.
Hypothesis HN : start + nlog ≤ N < 2 ^ 31.

Local Abbreviation home := (home start nlog N).
Local Abbreviation recoverable := (recoverable start nlog N).
Local Abbreviation log_rep := (log_rep start nlog N).

Lemma initlog_rep c d h n :
  quiet c → d_size d = N → recoverable (dblock d) h n →
  ∃ s' V', initlog 1 (boot c d) = Done tt s' ∧ log_rep s' V' ∅ ∅ ∧
    (∀ b, home b → V' b = h b) ∧
    lg_outstanding (ls_log s') = 0 ∧ lg_committing (ls_log s') = false ∧ lg_n (ls_log s') = 0.
Proof.
  intros Hq Hsz Hrc.
  destruct (initlog_recovers start nlog N ltac:(lia) ltac:(lia) ltac:(lia) c d h n Hq Hsz Hrc)
    as (b' & E & Hr & D').
  pose proof (recoverable_cleared start nlog N ltac:(lia) ltac:(lia) _ _ _ Hrc) as Hcl.
  eexists _, _. split; [exact E|]. split; [|split; [|done]].
  - split; cbn [ls_bs ls_log recovered_log lg_dev lg_start lg_size lg_n lg_block];
      try done; try (intros b; set_solver).
    + rewrite D', d_size_dwrites. done.
    + lia.
    + by rewrite length_get_blocks.
    + apply NoDup_nil_2.
    + rewrite D'. eapply recoverable_ext; [intros b; symmetry; apply dblock_dwrites|].
      destruct Hcl as [H1 H2 H3 H4 H5 _]. split; try done.
      intros b Hb. cbn. apply dblock_dwrites.
  - intros b Hb. by rewrite (rc_result _ _ _ _ _ _ Hcl b Hb).
Qed.

Lemma begin_op_admits s V H W :
  log_rep s V H W → lg_committing (ls_log s) = false →
  lg_n (ls_log s) + (lg_outstanding (ls_log s) + 1) * MAXOPBLOCKS ≤ LOGSIZE →
  begin_op s = Done tt (LState (ls_bs s)
    (set_outstanding (lg_outstanding (ls_log s) + 1) (ls_log s))).
Proof.
  intros Hl Hc Hroom. pose proof (br_quiet _ _ _ _ (lr_rep _ _ _ _ _ _ _ Hl)) as Hq.
  unfold begin_op. erewrite (bind_done (log_core _)) by (by apply log_acquire).
  unfold begin_op_loop, bind at 1, gets. cbn [ls_bs ls_log]. rewrite Hc.
  rewrite (proj2 (Z.ltb_ge _ _)) by done. unfold bind, upd_log, modify. cbn [ls_bs ls_log].
  rewrite log_release by done. cbn [ls_bs ls_log]. unfold set_core. cbn [bs_core bs_buf bs_disk].
  rewrite quiet_reset by done. by destruct s as [[]].
Qed.

Lemma log_rep_bs s V H W b' V' H' :
  log_rep s V H W → brep b' V' H' W → bs_disk b' = bs_disk (ls_bs s) →
  log_rep (LState b' (ls_log s)) V' H' W.
Proof. intros [] Hr HD. split; cbn [ls_bs ls_log]; rewrite ?HD; done. Qed.

Lemma log_bread s V H W b :
  log_rep s V H W → 0 ≤ b < N → (∀ j, H !! j ≠ Some b) → (size H + size W < NBUF)%nat →
  ∃ i b', in_bio (bread 1 b) s = Done i (LState b' (ls_log s)) ∧ H !! i = None ∧
          log_rep (LState b' (ls_log s)) V (<[i:=b]> H) W ∧ bs_disk b' = bs_disk (ls_bs s).
Proof.
  intros Hl Hb Hn Hsz.
  destruct (bread_spec _ _ _ _ b (lr_rep _ _ _ _ _ _ _ Hl)) as (i & b' & E & Hi & Hr & D');
    [by rewrite (lr_size _ _ _ _ _ _ _ Hl)|done|done|].
  exists i, b'. split; [by apply in_bio_done|]. split; [done|].
  split; [by eapply log_rep_bs|done].
Qed.

Lemma log_put s V H W i b d :
  log_rep s V H W → H !! i = Some b →
  ∃ b', in_bio (put_data i d) s = Done tt (LState b' (ls_log s)) ∧
        log_rep (LState b' (ls_log s)) (bupd b d V) H W ∧ bs_disk b' = bs_disk (ls_bs s).
Proof.
  intros Hl HH. destruct (put_data_spec _ _ _ _ i b d (lr_rep _ _ _ _ _ _ _ Hl) HH) as (b' & E & Hr & D').
  exists b'. split; [by apply in_bio_done|]. split; [by eapply log_rep_bs|done].
Qed.

Lemma log_brelse s V H W i b :
  log_rep s V H W → H !! i = Some b → b ∈ W ∨ V b = dblock (bs_disk (ls_bs s)) b →
  ∃ b', in_bio (brelse i) s = Done tt (LState b' (ls_log s)) ∧
        log_rep (LState b' (ls_log s)) V (delete i H) W ∧ bs_disk b' = bs_disk (ls_bs s).
Proof.
  intros Hl HH Hc. destruct (brelse_spec _ _ _ _ i b (lr_rep _ _ _ _ _ _ _ Hl) HH Hc) as (b' & E & Hr & D').
  exists b'. split; [by apply in_bio_done|]. split; [by eapply log_rep_bs|done].
Qed.
End transactions.

(** One block updated in a transaction of its own, as the file system does it. *)
Definition update_block (b : Z) (d : block) : K lstate unit :=
  bp <- in_bio (bread 1 b);;
  in_bio (put_data bp d) ;;;
  log_write bp ;;;
  in_bio (brelse bp).

Lemma update_block_rep start nlog N s V W b d :
  2 ≤ start → 2 ≤ nlog ≤ 30 → start + nlog ≤ N < 2 ^ 31 →
  log_rep start nlog N s V ∅ W → home start nlog N b → b ≠ 1 →
  lg_n (ls_log s) + 1 < nlog → 1 ≤ lg_outstanding (ls_log s) →
  ∃ s', update_block b d s = Done tt s' ∧
        log_rep start nlog N s' (bupd b d V) ∅ ({[b]} ∪ W) ∧
        lg_outstanding (ls_log s') = lg_outstanding (ls_log s) ∧
        lg_committing (ls_log s') = lg_committing (ls_log s) ∧
        bs_disk (ls_bs s') = bs_disk (ls_bs s).
Proof.
  intros H1 H2 H3 Hl Hb Hb1 Hroom Ho. unfold update_block, bind.
  pose proof (logged_size _ _ _ H2 _ _ _ _ Hl) as Hsz.
  pose proof (lr_n _ _ _ _ _ _ _ Hl) as Hn.
  destruct (log_bread _ _ _ _ _ _ _ b Hl) as (i & b1 & E1 & _ & Hl1 & D1);
    [apply Hb|by intros j; rewrite lookup_empty|rewrite map_size_empty; unfold NBUF; lia|].
  rewrite E1. assert (Hi : <[i:=b]> (∅ : gmap nat Z) !! i = Some b) by apply lookup_insert_eq.
  destruct (log_put _ _ _ _ _ _ _ i b d Hl1 Hi) as (b2 & E2 & Hl2 & D2). rewrite E2.
  cbn [ls_bs ls_log] in *.
  destruct (log_write_spec _ _ _ H1 H2 H3 _ _ _ _ i b Hl2 Hi Hb Hb1) as (s3 & E3 & Hl3 & Ho3 & Hc3 & _ & D3);
    [done|done|]. rewrite E3. cbn [ls_bs ls_log] in *.
  destruct (log_brelse _ _ _ _ _ _ _ i b Hl3 Hi) as (b4 & E4 & Hl4 & D4); [set_solver|].
  rewrite E4. rewrite delete_insert_eq, delete_empty in Hl4.
  eexists. split; [done|]. split; [done|]. cbn [ls_bs ls_log]. split; [done|].
  split; [done|congruence].
Qed.

Lemma sample_recoverable : recoverable 2 30 1000 (dblock sample_disk) (dblock sample_disk) 0.
Proof.
  apply recoverable_empty; [lia|by vm_compute|by vm_compute|by vm_compute|done].
Qed.

(** After boot, begin_op and an update of block 500. *)
Lemma sample_transaction d :
  ∃ s V, log_rep 2 30 1000 s V ∅ {[500]} ∧ lg_outstanding (ls_log s) = 1 ∧
         lg_committing (ls_log s) = false ∧ V 500 = d.
Proof.
  destruct (initlog_rep 2 30 1000 ltac:(lia) ltac:(lia) ltac:(lia) sample_core sample_disk _ 0
              sample_quiet eq_refl sample_recoverable) as (s1 & V1 & _ & Hl1 & _ & Ho1 & Hc1 & Hn1).
  pose proof (log_rep_flags _ _ _ _ _ _ _ false 1 Hl1) as Hl2.
  set (s2 := LState _ _) in Hl2.
  destruct (update_block_rep 2 30 1000 s2 V1 ∅ 500 d) as (s3 & _ & Hl3 & Ho3 & Hc3 & _);
    [lia|lia|lia|done| |lia|cbn; lia|cbn; lia|].
  { split; [lia|]. unfold LogCrash.in_log. lia. }
  exists s3, (bupd 500 d V1). rewrite union_empty_r_L in Hl3.
  split; [done|]. split; [by rewrite Ho3|]. split; [by rewrite Hc3|]. done.
Qed.

(** ** Properties *)

(** C1: transactions are atomic across crashes.  end_op of the last system call
    of a transaction returns; and if the machine stops after any number of the
    block writes it makes, and then again at any points of any number of
    recoveries, the next boot finds every block outside the log with the content
    it had before the transaction, or every one with the content the transaction
    gave it. *)
Theorem end_op_crash_atomic start nlog N s V W :
  2 ≤ start → 2 ≤ nlog ≤ 30 → start + nlog ≤ N < 2 ^ 31 →
  log_rep start nlog N s V ∅ W →
  lg_outstanding (ls_log s) = 1 → lg_committing (ls_log s) = false →
  ∃ s', end_op s = Done tt s' ∧
    ∀ dc d' c, passes_through (bs_disk (ls_bs s)) dc (bs_disk (ls_bs s')) →
      crash_run dc d' → quiet c →
      ∃ h s'' V'', (h = dblock (bs_disk (ls_bs s)) ∨ h = V) ∧
        initlog 1 (boot c d') = Done tt s'' ∧ brep (ls_bs s'') V'' ∅ ∅ ∧
        ∀ b, home start nlog N b → V'' b = h b.
Proof.
  intros H1 H2 H3 Hl Ho Hc.
  destruct (end_op_rep _ _ _ H1 H2 H3 _ _ _ Hl Ho Hc) as (s' & V' & E & Hl' & _ & _ & D').
  exists s'. split; [done|]. intros dc d' c Hp Hrun Hq. rewrite D' in Hp.
  apply passes_through_prefix in Hp as (k & ->).
  assert (Hcr : ∃ h n, (h = dblock (bs_disk (ls_bs s)) ∨ h = V) ∧
    recoverable start nlog N (dblock (dwrites (take k (end_writes start (ls_log s) V))
                                        (bs_disk (ls_bs s)))) h n).
  { unfold end_writes. destruct (0 <? lg_n (ls_log s)).
    - destruct (commit_crash _ _ _ H1 H2 H3 _ _ _ Hl k) as (h & n & Hh & Hrc).
      exists h, n. split; [done|]. eapply recoverable_ext; [|exact Hrc].
      intros b. symmetry. apply dblock_dwrites.
    - rewrite take_nil. exists (dblock (bs_disk (ls_bs s))), 0%nat. split; [by left|]. apply Hl. }
  destruct Hcr as (h & n & Hh & Hrc).
  destruct (crash_run_result start nlog N H1 ltac:(lia) ltac:(lia) _ d' h n c Hrun)
    as (s'' & V'' & E'' & Hr'' & Hres); [by rewrite d_size_dwrites; apply Hl|done|done|].
  by exists h, s'', V''.
Qed.

Lemma end_op_crash_atomic_witness :
  ∃ s V, lg_outstanding (ls_log s) = 1 ∧ V 500 = replicate 512 7 ∧
    ∃ s', end_op s = Done tt s' ∧
    ∀ dc d' c, passes_through (bs_disk (ls_bs s)) dc (bs_disk (ls_bs s')) →
      crash_run dc d' → quiet c →
      ∃ h s'' V'', (h = dblock (bs_disk (ls_bs s)) ∨ h = V) ∧
        initlog 1 (boot c d') = Done tt s'' ∧ brep (ls_bs s'') V'' ∅ ∅ ∧
        ∀ b, home 2 30 1000 b → V'' b = h b.
Proof.
  destruct (sample_transaction (replicate 512 7)) as (s & V & Hl & Ho & Hc & HV).
  exists s, V. split; [exact Ho|]. split; [exact HV|].
  apply (end_op_crash_atomic 2 30 1000 s V {[500]}); [lia|lia|lia|exact Hl|exact Ho|exact Hc].
Defined.

(** C16: a transaction that end_op has committed is durable.  end_op returns with
    the log empty, every block outside the log on the disk with the content the
    transaction gave it, and the invariant of the log restored, so that the next
    transaction starts from there. *)
Theorem end_op_durable start nlog N s V W :
  2 ≤ start → 2 ≤ nlog ≤ 30 → start + nlog ≤ N < 2 ^ 31 →
  log_rep start nlog N s V ∅ W →
  lg_outstanding (ls_log s) = 1 → lg_committing (ls_log s) = false →
  ∃ s' V', end_op s = Done tt s' ∧ log_rep start nlog N s' V' ∅ ∅ ∧
    ls_log s' = finished (ls_log s) ∧
    ∀ b, home start nlog N b → V' b = V b ∧ dblock (bs_disk (ls_bs s')) b = V b.
Proof.
  intros H1 H2 H3 Hl Ho Hc.
  destruct (end_op_rep _ _ _ H1 H2 H3 _ _ _ Hl Ho Hc) as (s' & V' & E & Hl' & Hf & Hres & _).
  by exists s', V'.
Qed.

Lemma end_op_durable_witness :
  ∃ s V, lg_outstanding (ls_log s) = 1 ∧ V 500 = replicate 512 7 ∧
    ∃ s' V', end_op s = Done tt s' ∧ log_rep 2 30 1000 s' V' ∅ ∅ ∧
      ls_log s' = finished (ls_log s) ∧
      ∀ b, home 2 30 1000 b → V' b = V b ∧ dblock (bs_disk (ls_bs s')) b = V b.
Proof.
  destruct (sample_transaction (replicate 512 7)) as (s & V & Hl & Ho & Hc & HV).
  exists s, V. split; [exact Ho|]. split; [exact HV|].
  apply (end_op_durable 2 30 1000 s V {[500]}); [lia|lia|lia|exact Hl|exact Ho|exact Hc].
Defined.

(** log_write in a transaction with room records the block of a held buffer
    once: the logged blocks become those of before and this one, the header
    count grows by one only if the block was not there (absorption), the buffer
    stays pinned in the cache, and nothing is written to the disk. *)
Theorem log_write_records start nlog N s V H W i b :
  2 ≤ start → 2 ≤ nlog ≤ 30 → start + nlog ≤ N < 2 ^ 31 →
  log_rep start nlog N s V H W → H !! i = Some b → home start nlog N b → b ≠ 1 →
  lg_n (ls_log s) + 1 < nlog → 1 ≤ lg_outstanding (ls_log s) →
  ∃ s', log_write i s = Done tt s' ∧ log_rep start nlog N s' V H ({[b]} ∪ W) ∧
    lg_n (ls_log s') = lg_n (ls_log s) + (if decide (b ∈ W) then 0 else 1) ∧
    lg_outstanding (ls_log s') = lg_outstanding (ls_log s) ∧
    bs_disk (ls_bs s') = bs_disk (ls_bs s).
Proof.
  intros H1 H2 H3 Hl HH Hb Hb1 Hroom Ho.
  destruct (log_write_spec _ _ _ H1 H2 H3 _ _ _ _ i b Hl HH Hb Hb1 Hroom Ho)
    as (s' & E & Hl' & Ho' & _ & _ & D').
  exists s'. split; [done|]. split; [done|]. split; [|done].
  pose proof (logged_size _ _ _ H2 _ _ _ _ Hl) as Hs.
  pose proof (logged_size _ _ _ H2 _ _ _ _ Hl') as Hs'.
  pose proof (lr_n _ _ _ _ _ _ _ Hl). pose proof (lr_n _ _ _ _ _ _ _ Hl').
  case_decide as Hin.
  - replace ({[b]} ∪ W) with W in Hs' by set_solver. lia.
  - rewrite size_union, size_singleton in Hs' by set_solver. lia.
Qed.

Lemma log_write_records_witness :
  ∃ s i, lg_n (ls_log s) = 1 ∧
    ∃ s', log_write i s = Done tt s' ∧ lg_n (ls_log s') = 2.
Proof.
  destruct (sample_transaction (replicate 512 7)) as (s & V & Hl & Ho & Hc & HV).
  pose proof (logged_size 2 30 1000 ltac:(lia) _ _ _ _ Hl) as Hsz.
  rewrite size_singleton in Hsz. pose proof (lr_n _ _ _ _ _ _ _ Hl) as Hn.
  destruct (log_bread 2 30 1000 _ _ _ _ 501 Hl) as (i & b1 & E1 & _ & Hl1 & _);
    [lia|intros j; rewrite lookup_empty; done
    |rewrite map_size_empty, size_singleton; unfold NBUF; lia|].
  exists (LState b1 (ls_log s)), i. split; [cbn; lia|].
  destruct (log_write_records 2 30 1000 _ _ _ _ i 501 ltac:(lia) ltac:(lia) ltac:(lia) Hl1)
    as (s' & E & _ & Hn' & _).
  - apply lookup_insert_eq.
  - split; [lia|]. unfold LogCrash.in_log. lia.
  - lia.
  - cbn. lia.
  - cbn. lia.
  - exists s'. split; [exact E|]. rewrite Hn'. rewrite decide_False by set_solver. cbn. lia.
Defined.

(** begin_op lets a system call in exactly when no commit is running and the
    log has room for it: with the [MAXOPBLOCKS] blocks reserved for it and for
    every other call in progress the transaction still fits in [LOGSIZE].  Then
    it counts the call; otherwise the calling process sleeps on the log, with
    the log unchanged and its lock released. *)
Theorem begin_op_decides s i p :
  c_held (bs_core (ls_bs s)) = [] → c_cur (bs_core (ls_bs s)) = Some i →
  c_procs (bs_core (ls_bs s)) !! i = Some p →
  let l := ls_log s in
  if lg_committing l || (LOGSIZE <? lg_n l + (lg_outstanding l + 1) * MAXOPBLOCKS) then
    ∃ s', begin_op s = Sleep Ch_log s' ∧ ls_log s' = l ∧
      c_held (bs_core (ls_bs s')) = [Lk_ptable] ∧
      c_procs (bs_core (ls_bs s')) !! i = Some (set_state SLEEPING (set_chan Ch_log p))
  else begin_op s = Done tt (LState (ls_bs s) (set_outstanding (lg_outstanding l + 1) l)).
Proof.
  destruct s as [b l]. cbn [ls_bs ls_log]. intros Hh Hc Hp. assert (Hq : quiet (bs_core b)) by (split; [done|by rewrite Hc; cbn; rewrite Hp]).
  assert (Hacq : begin_op (LState b l) = begin_op_loop
     (LState (set_core (set_held [Lk_log] (bs_core b)) b) l)).
  { unfold begin_op. by erewrite (bind_done (log_core _)) by (by apply log_acquire). }
  assert (Hsleep : ∃ s', log_core (sleep Ch_log Lk_log)
      (LState (set_core (set_held [Lk_log] (bs_core b)) b) l) = Sleep Ch_log s' ∧
      ls_log s' = l ∧ c_held (bs_core (ls_bs s')) = [Lk_ptable] ∧
      c_procs (bs_core (ls_bs s')) !! i = Some (set_state SLEEPING (set_chan Ch_log p))).
  { unfold log_core, in_bio, in_core, zoom. cbn [ls_bs bs_core set_core].
    rewrite (sleep_ok _ _ _ i p) by done. eexists. split; [done|]. split; [done|].
    split; [done|]. cbn [ls_bs set_core bs_core upd_proc set_procs c_procs set_held].
    by rewrite list_lookup_alter_eq, Hp. }
  rewrite Hacq. unfold begin_op_loop.
  destruct (lg_committing l) eqn:E1; cbn [orb]; [|destruct (LOGSIZE <? _) eqn:E2];
    unfold bind at 1, gets; cbn [ls_log]; rewrite E1, ?E2; [done|done|].
  unfold bind, upd_log, modify. cbn [ls_bs ls_log].
  rewrite log_release by done. cbn [ls_bs ls_log]. unfold set_core. cbn [bs_core bs_buf bs_disk].
  rewrite quiet_reset by done. by destruct b.
Qed.

Lemma begin_op_decides_witness :
  let st o n := LState (BState sample_core [] sample_disk) (MkLog 2 30 o false 1 n []) in
  begin_op (st 1 10) = Done tt (st 2 10) ∧ ∃ s', begin_op (st 2 10) = Sleep Ch_log s'.
Proof.
  split.
  - apply (begin_op_decides
      (LState (BState sample_core [] sample_disk) (MkLog 2 30 1 false 1 10 [])) 0 _
      eq_refl eq_refl eq_refl).
  - destruct (begin_op_decides
      (LState (BState sample_core [] sample_disk) (MkLog 2 30 2 false 1 10 [])) 0 _
      eq_refl eq_refl eq_refl) as (s' & E & _).
    exists s'. exact E.
Defined.

(** The blocks that operations write, in the order in which they come to the log. *)
Fixpoint update_blocks (ws : list (Z * block)) : K lstate unit :=
  match ws with
  | [] => ret tt
  | (b, d) :: ws => update_block b d ;;; update_blocks ws
  end.

(** A log without room stops the next block. *)
Lemma update_block_full start nlog N s V W b d :
  2 ≤ nlog ≤ 30 → log_rep start nlog N s V ∅ W → 0 ≤ b < N → nlog ≤ lg_n (ls_log s) + 1 →
  update_block b d s = Panic "too big a transaction".
Proof.
  intros H2 Hl Hb Hfull. unfold update_block, bind.
  pose proof (logged_size _ _ _ H2 _ _ _ _ Hl) as Hsz. pose proof (lr_n _ _ _ _ _ _ _ Hl) as Hn.
  destruct (log_bread _ _ _ _ _ _ _ b Hl) as (i & b1 & E1 & _ & Hl1 & _);
    [done|by intros j; rewrite lookup_empty|rewrite map_size_empty; unfold NBUF; lia|].
  rewrite E1. destruct (log_put _ _ _ _ _ _ _ i b d Hl1) as (b2 & E2 & _ & _); [apply lookup_insert_eq|]. rewrite E2.
  cbn [ls_log]. unfold log_write, bind at 1, gets. cbn [ls_log]. destruct (lr_geo _ _ _ _ _ _ _ Hl) as (_ & _ & ->).
  by rewrite (proj2 (Z.leb_le (nlog - 1) _)), orb_true_r by lia.
Qed.

(** Blocks go to the log until one is left for the header alone. *)
Lemma update_blocks_fill start nlog N ws s V W :
  2 ≤ start → 2 ≤ nlog ≤ 30 → start + nlog ≤ N < 2 ^ 31 →
  log_rep start nlog N s V ∅ W → 1 ≤ lg_outstanding (ls_log s) →
  NoDup (ws.*1) → Forall (λ b, home start nlog N b ∧ b ≠ 1 ∧ b ∉ W) (ws.*1) →
  if decide (lg_n (ls_log s) + Z.of_nat (length ws) < nlog) then ∃ s', update_blocks ws s = Done tt s'
  else update_blocks ws s = Panic "too big a transaction".
Proof.
  intros H1 H2 H3. revert s V W. induction ws as [|[b d] ws IH]; intros s V W Hl Ho Hnd Hb.
  - pose proof (lr_n _ _ _ _ _ _ _ Hl). cbn [length]. rewrite decide_True by lia. by exists s.
  - cbn [fmap list_fmap fst] in Hnd, Hb. apply NoDup_cons in Hnd as [Hbn Hnd]. apply Forall_cons in Hb as [(Hh & Hb1 & HbW) Hb].
    cbn [update_blocks length]. destruct (decide (lg_n (ls_log s) + 1 < nlog)) as [Hroom|Hfull].
    + destruct (update_block_rep _ _ _ _ _ _ b d H1 H2 H3 Hl Hh Hb1 Hroom Ho) as (s1 & E & Hl1 & Ho1 & _).
      rewrite (bind_done _ _ _ _ _ E).
      assert (Hn1 : lg_n (ls_log s1) = lg_n (ls_log s) + 1).
      { pose proof (logged_size _ _ _ H2 _ _ _ _ Hl). pose proof (logged_size _ _ _ H2 _ _ _ _ Hl1) as Hsz.
        pose proof (lr_n _ _ _ _ _ _ _ Hl). pose proof (lr_n _ _ _ _ _ _ _ Hl1).
        rewrite size_union, size_singleton in Hsz by set_solver. lia. }
      replace (lg_n (ls_log s) + Z.of_nat (S (length ws))) with (lg_n (ls_log s1) + Z.of_nat (length ws)) by lia.
      apply (IH s1 _ _ Hl1); [lia|done|]. rewrite Forall_forall in Hb |- *. intros x Hx.
      destruct (Hb x Hx) as (? & ? & ?). split; [done|]. split; [done|]. set_solver.
    + rewrite decide_False by lia. unfold bind at 1. by rewrite (update_block_full _ _ _ _ _ _ b d H2 Hl ltac:(apply Hh) ltac:(lia)).
Qed.

(** C37: begin_op admits three operations of MAXOPBLOCKS = 10 blocks each into an empty log, but
    a log of the LOGSIZE = 30 blocks that mkfs sets aside has room for 29, since one block is the header.
    Start from any disk with such a log, recovered by initlog: three operations begin, one
    after the other.  Whatever home blocks they then write, with whatever contents and however
    interleaved, 29 distinct blocks pass, and at the thirtieth, which the operations may
    write as they have three times ten blocks reserved, log_write panics. *)
Theorem admitted_ops_overflow start N c d h n :
  2 ≤ start → start + LOGSIZE ≤ N < 2 ^ 31 → quiet c → d_size d = N → recoverable start LOGSIZE N (dblock d) h n →
  ∃ s, (initlog 1 ;;; begin_op ;;; begin_op ;;; begin_op) (boot c d) = Done tt s ∧
    ∀ ws, NoDup (ws.*1) → Forall (λ b, home start LOGSIZE N b ∧ b ≠ 1) (ws.*1) →
      (Z.of_nat (length ws) < 3 * MAXOPBLOCKS → ∃ s', update_blocks ws s = Done tt s') ∧
      (3 * MAXOPBLOCKS ≤ Z.of_nat (length ws) → update_blocks ws s = Panic "too big a transaction").
Proof.
  intros H1 H3 Hq Hd Hrc. assert (H2 : 2 ≤ LOGSIZE ≤ 30) by done.
  destruct (initlog_rep start LOGSIZE N H1 H2 H3 c d h n Hq Hd Hrc) as (s0 & V & E0 & Hl & _ & Ho & Hc & Hn).
  pose proof (begin_op_admits start LOGSIZE N) as Hbegin.
  assert (Hk : ∀ k, 0 ≤ k ≤ 2 → begin_op (LState (ls_bs s0) (set_outstanding k (ls_log s0))) =
                                Done tt (LState (ls_bs s0) (set_outstanding (k + 1) (ls_log s0)))).
  { intros k Hk. pose proof (log_rep_flags start LOGSIZE N _ _ _ _ false k Hl) as Hl'.
    rewrite <- Hc in Hl'. change (set_committing _ _) with (set_outstanding k (ls_log s0)) in Hl'.
    apply (Hbegin _ _ _ _ Hl'); cbn [ls_log lg_committing lg_n lg_outstanding set_outstanding]; [done|].
    rewrite Hn. change MAXOPBLOCKS with 10. change LOGSIZE with 30. lia. }
  exists (LState (ls_bs s0) (set_outstanding 3 (ls_log s0))). split.
  - rewrite (bind_done _ _ _ _ _ E0). replace s0 with (LState (ls_bs s0) (set_outstanding 0 (ls_log s0))) at 1.
    2: { destruct s0 as [bs []]. cbn in *. by rewrite Ho. }
    rewrite (bind_done _ _ _ _ _ (Hk 0 ltac:(lia))). change (0 + 1) with 1.
    rewrite (bind_done _ _ _ _ _ (Hk 1 ltac:(lia))). exact (Hk 2 ltac:(lia)).
  - intros ws Hnd Hb. change (3 * MAXOPBLOCKS) with LOGSIZE.
    pose proof (log_rep_flags start LOGSIZE N _ _ _ _ false 3 Hl) as Hl'. rewrite <- Hc in Hl'.
    change (set_committing _ _) with (set_outstanding 3 (ls_log s0)) in Hl'.
    pose proof (update_blocks_fill start LOGSIZE N ws _ _ _ H1 H2 H3 Hl' ltac:(cbn; lia) Hnd) as H. cbn [ls_log lg_n set_outstanding] in H.
    rewrite Hn in H. case_decide; (split; intros; [|try lia]); try lia; apply H;
      (rewrite Forall_forall in Hb |- *; intros x Hx; destruct (Hb x Hx); split; [done|]; split; [done|set_solver]).
Qed.

Lemma admitted_ops_overflow_witness :
  ∃ s, (initlog 1 ;;; begin_op ;;; begin_op ;;; begin_op) (boot sample_core sample_disk) = Done tt s ∧
    update_blocks ((λ b, (b, replicate 512 7)) <$> seqZ 100 30) s = Panic "too big a transaction".
Proof.
  destruct (admitted_ops_overflow 2 1000 sample_core sample_disk (dblock sample_disk) 0 ltac:(lia) ltac:(unfold LOGSIZE, MAXOPBLOCKS; lia)
    sample_quiet eq_refl sample_recoverable) as (s & E & H).
  exists s. split; [exact E|]. apply (H ((λ b, (b, replicate 512 7)) <$> seqZ 100 30)); [| |done].
  - by apply (bool_decide_unpack _).
  - rewrite <- list_fmap_compose. apply Forall_fmap, Forall_forall. intros b Hb%elem_of_seqZ. cbn. unfold home, in_log, LOGSIZE, MAXOPBLOCKS. lia.
Defined.
