(* ===== verification/BlockStore.v ===== *)
(** * What the file system needs of the layers below it

    fs.c calls bread, log_write and brelse, and reads and stores the data of
    the buffers it holds.  [BlockStore] is that list of operations,
    [BlockLaws] what they promise: [st_rep s V H W] says that in state [s] the
    blocks have contents [V], the buffers [H] are held and the blocks [W] are
    part of the current transaction.  The log over the buffer cache is an
    instance of both. *)

From S2P Require Import Prelude Params Core Bio BioSpec BioTheorems Log LogSpec LogCrash LogCommit Transactions.

Class BlockStore (St : Type) := {
  st_core : St → core;
  st_set_core : core → St → St;
  st_bread : Z → Z → K St nat;
  st_data : nat → K St block;
  st_put : nat → block → K St unit;
  st_log_write : nat → K St unit;
  st_brelse : nat → K St unit
}.

Class BlockLaws (St : Type) {B : BlockStore St} := {
  st_rep : St → bview → gmap nat Z → gset Z → Prop;
  st_size : Z;                  (* blocks of the disk *)
  st_cap : nat;                 (* blocks of a transaction *)
  st_home : Z → Prop;           (* blocks that transactions may write *)
  st_home_range b : st_home b → 0 ≤ b < st_size;
  st_rep_quiet s V H W : st_rep s V H W → quiet (st_core s);
  st_rep_core s V H W c : st_rep s V H W → quiet c → st_rep (st_set_core c s) V H W;
  st_core_set c s : st_core (st_set_core c s) = c;
  st_set_set c c' s : st_set_core c (st_set_core c' s) = st_set_core c s;
  st_set_same s : st_set_core (st_core s) s = s;
  st_bread_ok s V H W b :
    st_rep s V H W → 0 ≤ b < st_size → (∀ j, H !! j ≠ Some b) →
    (size H + size W ≤ st_cap)%nat →
    ∃ i s', st_bread 1 b s = Done i s' ∧ H !! i = None ∧ st_rep s' V (<[i:=b]> H) W;
  st_data_ok s V H W i b :
    st_rep s V H W → H !! i = Some b → st_data i s = Done (V b) s;
  st_update_ok s V H W i b d :
    st_rep s V H W → H !! i = Some b → st_home b → (size W < st_cap)%nat →
    ∃ s', (st_put i d ;;; st_log_write i) s = Done tt s' ∧
          st_rep s' (bupd b d V) H ({[b]} ∪ W);
  st_brelse_ok s V H W i b :
    st_rep s V H W → H !! i = Some b →
    ∃ s', st_brelse i s = Done tt s' ∧ st_rep s' V (delete i H) W;
  st_rep_ext s V V' H W : (∀ b, V b = V' b) → st_rep s V H W → st_rep s V' H W
}.

(** ** The log implements it *)
#[global] Instance log_store : BlockStore lstate := {
  st_core s := bs_core (ls_bs s);
  st_set_core c s := LState (set_core c (ls_bs s)) (ls_log s);
  st_bread dev b := in_bio (bread dev b);
  st_data i := in_bio (get_data i);
  st_put i d := in_bio (put_data i d);
  st_log_write := log_write;
  st_brelse i := in_bio (brelse i)
}.

Section log_laws.
Variables (start nlog N : Z).
Hypothesis Hstart : 2 ≤ start.
Hypothesis Hnlog : 2 ≤ nlog ≤ 30.
Hypothesis HN : start + nlog ≤ N < 2 ^ 31.

(** In a transaction, every held buffer is part of it or as on the disk. *)
Definition tx_rep (s : lstate) (V : bview) (H : gmap nat Z) (W : gset Z) : Prop :=
  log_rep start nlog N s V H W ∧ 1 ≤ lg_outstanding (ls_log s) ∧
  ∀ i b, H !! i = Some b → b ∈ W ∨ V b = dblock (bs_disk (ls_bs s)) b.

Lemma tx_size s V H W : tx_rep s V H W → lg_n (ls_log s) = Z.of_nat (size W).
Proof.
  intros (Hl & _). rewrite (logged_size _ _ _ Hnlog _ _ _ _ Hl).
  pose proof (lr_n _ _ _ _ _ _ _ Hl). lia.
Qed.

Lemma tx_core s V H W c :
  tx_rep s V H W → quiet c → tx_rep (LState (set_core c (ls_bs s)) (ls_log s)) V H W.
Proof.
  intros (Hl & Ho & Hh) Hc. split; [|done].
  eapply log_rep_bs; [exact Hl| |done]. apply brep_core; [apply Hl|done].
Qed.

Lemma tx_bread s V H W b :
  tx_rep s V H W → 0 ≤ b < N → (∀ j, H !! j ≠ Some b) →
  (size H + size W ≤ Z.to_nat (nlog - 1))%nat →
  ∃ i s', in_bio (bread 1 b) s = Done i s' ∧ H !! i = None ∧ tx_rep s' V (<[i:=b]> H) W.
Proof.
  intros (Hl & Ho & Hh) Hb Hn Hsz.
  destruct (log_bread _ _ _ _ _ _ _ b Hl Hb Hn) as (i & b' & E & Hi & Hl' & D');
    [unfold NBUF; lia|].
  exists i, (LState b' (ls_log s)). split; [done|]. split; [done|]. split; [done|].
  split; [done|]. cbn [ls_bs]. rewrite D'. intros j x [[<- <-]|[_ Hj]]%lookup_insert_Some.
  - destruct (decide (b ∈ W)) as [?|HW]; [by left|right].
    apply (br_disk _ _ _ _ (lr_rep _ _ _ _ _ _ _ Hl)); [|done|done].
    by rewrite (lr_size _ _ _ _ _ _ _ Hl).
  - by eapply Hh.
Qed.

Lemma tx_update s V H W i b d :
  tx_rep s V H W → H !! i = Some b → home start nlog N b ∧ b ≠ 1 →
  (size W < Z.to_nat (nlog - 1))%nat →
  ∃ s', (in_bio (put_data i d) ;;; log_write i) s = Done tt s' ∧
        tx_rep s' (bupd b d V) H ({[b]} ∪ W).
Proof.
  intros Ht HH [Hb Hb1] Hsz. pose proof (tx_size _ _ _ _ Ht) as Hn. destruct Ht as (Hl & Ho & Hh).
  destruct (log_put _ _ _ _ _ _ _ i b d Hl HH) as (b2 & E2 & Hl2 & D2).
  rewrite (bind_done _ _ _ _ _ E2).
  destruct (log_write_spec _ _ _ Hstart Hnlog HN _ _ _ _ i b Hl2 HH Hb Hb1)
    as (s3 & E3 & Hl3 & Ho3 & _ & _ & D3); [cbn [ls_log]; lia|done|].
  exists s3. split; [done|]. split; [done|]. split; [by rewrite Ho3|].
  intros j x Hj. destruct (decide (x = b)) as [->|Hx]; [left; set_solver|].
  destruct (Hh j x Hj) as [?|Hd]; [left; set_solver|right].
  unfold bupd. rewrite (proj2 (Z.eqb_neq _ _)) by done. rewrite Hd, D3. cbn [ls_bs]. by rewrite D2.
Qed.

Lemma tx_brelse s V H W i b :
  tx_rep s V H W → H !! i = Some b →
  ∃ s', in_bio (brelse i) s = Done tt s' ∧ tx_rep s' V (delete i H) W.
Proof.
  intros (Hl & Ho & Hh) HH.
  destruct (log_brelse _ _ _ _ _ _ _ i b Hl HH (Hh _ _ HH)) as (b' & E & Hl' & D').
  eexists. split; [exact E|]. split; [done|]. split; [done|]. cbn [ls_bs]. rewrite D'.
  intros j x Hj. apply lookup_delete_Some in Hj as [_ Hj]. by eapply Hh.
Qed.

Lemma log_rep_ext s V V' H W :
  (∀ b, V b = V' b) → log_rep start nlog N s V H W → log_rep start nlog N s V' H W.
Proof. intros HV []. split; try done. by eapply brep_ext. Qed.

Definition log_laws : BlockLaws lstate.
Proof.
  refine {| st_rep := tx_rep; st_size := N; st_cap := Z.to_nat (nlog - 1);
            st_home b := home start nlog N b ∧ b ≠ 1 |}.
  - intros b [[Hb _] _]. exact Hb.
  - intros s V H W (Hl & _). apply (br_quiet _ _ _ _ (lr_rep _ _ _ _ _ _ _ Hl)).
  - apply tx_core.
  - done.
  - done.
  - intros [[] ?]. done.
  - apply tx_bread.
  - intros s V H W i b (Hl & _) HH.
    pose proof (get_data_spec _ _ _ _ i b (lr_rep _ _ _ _ _ _ _ Hl) HH) as E.
    apply (in_bio_done _ s) in E. destruct s. exact E.
  - apply tx_update.
  - apply tx_brelse.
  - intros s V V' H W HV (Hl & Ho & Hh). split; [by eapply log_rep_ext|]. split; [done|].
    intros i b Hb. rewrite <- HV. by eapply Hh.
Defined.
End log_laws.

(** ** The sample machine after boot, in a transaction *)
Definition sample_laws : BlockLaws lstate :=
  log_laws 2 30 1000 ltac:(done) ltac:(done) ltac:(done).

Lemma sample_store :
  ∃ (t : lstate) (V : bview), st_rep (BlockLaws := sample_laws) t V ∅ ∅ ∧
    ∀ b, home 2 30 1000 b → V b = sample_image b.
Proof.
  destruct (initlog_rep 2 30 1000 ltac:(lia) ltac:(lia) ltac:(lia) sample_core sample_disk _ 0
              sample_quiet eq_refl sample_recoverable) as (s1 & V1 & _ & Hl1 & HV & _).
  pose proof (log_rep_flags _ _ _ _ _ _ _ false 1 Hl1) as Hl2.
  eexists _, V1. split; [|exact HV]. split; [exact Hl2|]. split; [cbn; lia|].
  intros i b Hb. by rewrite lookup_empty in Hb.
Qed.
