(* ===== verification/Fs.v ===== *)
(** * The file system (fs.c): blocks, inodes, directories, paths

    Written over any [BlockStore].  The state adds the superblock copy [sb] and
    the inode cache to the state of the store; an inode pointer is an index of
    the cache, 0 is [None].  Buffers of user or kernel memory that the code
    fills through a pointer are results, those it reads are arguments. *)

From S2P Require Import Prelude Params CString Core Bio Log BlockStore.

(** file.h: in-memory inode. *)
Record inode := Inode {
  i_dev : Z;
  i_inum : Z;
  i_ref : Z;
  i_lock : sleeplock;
  i_flags : Z;
  i_type : Z;
  i_major : Z;
  i_minor : Z;
  i_nlink : Z;
  i_size : Z;
  i_addrs : list Z         (* addrs[NDIRECT+1] *)
}.

Definition inode0 : inode := Inode 0 0 0 (Sleeplock false 0) 0 0 0 0 0 0 (replicate 13 0).
#[global] Instance inode_inhabited : Inhabited inode := populate inode0.

Definition set_i_ref (r : Z) (i : inode) : inode :=
  Inode (i_dev i) (i_inum i) r (i_lock i) (i_flags i) (i_type i) (i_major i) (i_minor i)
    (i_nlink i) (i_size i) (i_addrs i).
Definition set_i_lock (l : sleeplock) (i : inode) : inode :=
  Inode (i_dev i) (i_inum i) (i_ref i) l (i_flags i) (i_type i) (i_major i) (i_minor i)
    (i_nlink i) (i_size i) (i_addrs i).
Definition set_i_flags (f : Z) (i : inode) : inode :=
  Inode (i_dev i) (i_inum i) (i_ref i) (i_lock i) f (i_type i) (i_major i) (i_minor i)
    (i_nlink i) (i_size i) (i_addrs i).
Definition set_i_type (t : Z) (i : inode) : inode :=
  Inode (i_dev i) (i_inum i) (i_ref i) (i_lock i) (i_flags i) t (i_major i) (i_minor i)
    (i_nlink i) (i_size i) (i_addrs i).
Definition set_i_size (z : Z) (i : inode) : inode :=
  Inode (i_dev i) (i_inum i) (i_ref i) (i_lock i) (i_flags i) (i_type i) (i_major i) (i_minor i)
    (i_nlink i) z (i_addrs i).
Definition set_i_nlink (n : Z) (i : inode) : inode :=
  Inode (i_dev i) (i_inum i) (i_ref i) (i_lock i) (i_flags i) (i_type i) (i_major i) (i_minor i)
    n (i_size i) (i_addrs i).
Definition set_i_dev_no (ma mi : Z) (i : inode) : inode :=
  Inode (i_dev i) (i_inum i) (i_ref i) (i_lock i) (i_flags i) (i_type i) ma mi
    (i_nlink i) (i_size i) (i_addrs i).
Definition set_i_addr (k : nat) (a : Z) (i : inode) : inode :=
  Inode (i_dev i) (i_inum i) (i_ref i) (i_lock i) (i_flags i) (i_type i) (i_major i) (i_minor i)
    (i_nlink i) (i_size i) (<[k := a]> (i_addrs i)).

(** fs.h: disk inode, kept in 64 bytes of a block. *)
Record dinode := Dinode {
  di_type : Z; di_major : Z; di_minor : Z; di_nlink : Z; di_size : Z; di_addrs : list Z
}.

Definition get_addrs (o : nat) (d : block) : list Z :=
  (λ k, field (o + 4 * k) 4 d) <$> seq 0 13.
Fixpoint put_addrs (o : nat) (a : list Z) (d : block) : block :=
  match a with
  | [] => d
  | x :: a => put_addrs (o + 4) a (set_field o 4 x d)
  end.

Definition get_dinode (k : nat) (d : block) : dinode :=
  let o := (64 * k)%nat in
  Dinode (s16 (field o 2 d)) (s16 (field (o + 2) 2 d)) (s16 (field (o + 4) 2 d))
    (s16 (field (o + 6) 2 d)) (field (o + 8) 4 d) (get_addrs (o + 12) d).
Definition put_dinode (k : nat) (di : dinode) (d : block) : block :=
  let o := (64 * k)%nat in
  let d := set_field o 2 (di_type di) d in
  let d := set_field (o + 2) 2 (di_major di) d in
  let d := set_field (o + 4) 2 (di_minor di) d in
  let d := set_field (o + 6) 2 (di_nlink di) d in
  let d := set_field (o + 8) 4 (di_size di) d in
  put_addrs (o + 12) (di_addrs di) d.

(** The macros of fs.h. *)
Definition IBLOCK (i : Z) (sb : superblock) : Z := i / IPB + sb_inodestart sb.
Definition BBLOCK (b : Z) (sb : superblock) : Z := b / BPB + sb_bmapstart sb.

(** Bit [bi] of a bitmap block. *)
Definition bit_set (d : block) (bi : Z) : bool :=
  negb (Z.land (d !!! Z.to_nat (bi / 8)) (Z.shiftl 1 (bi mod 8)) =? 0).
Definition mark_bit (d : block) (bi : Z) : block :=
  alter (λ x, u8 (Z.lor x (Z.shiftl 1 (bi mod 8)))) (Z.to_nat (bi / 8)) d.
Definition clear_bit (d : block) (bi : Z) : block :=
  alter (λ x, u8 (Z.land x (Z.lnot (Z.shiftl 1 (bi mod 8))))) (Z.to_nat (bi / 8)) d.

(** stat.h *)
Record stat := Stat { stat_type : Z; stat_dev : Z; stat_ino : Z; stat_nlink : Z; stat_size : Z }.

Section fs.
Context {St : Type} {B : BlockStore St}.

Record fstate := FState {
  fs_st : St;
  fs_sb : superblock;
  fs_icache : list inode    (* icache.inode, NINODE entries *)
}.

Definition in_st {A} (m : K St A) : K fstate A :=
  zoom fs_st (λ t s, FState t (fs_sb s) (fs_icache s)) m.
Definition fs_core {A} (m : K core A) : K fstate A :=
  in_st (zoom st_core st_set_core m).
Definition set_sb (sb : superblock) (s : fstate) : fstate := FState (fs_st s) sb (fs_icache s).
Definition inodep (s : fstate) (ip : nat) : inode := fs_icache s !!! ip.
Definition upd_inode (ip : nat) (f : inode → inode) (s : fstate) : fstate :=
  FState (fs_st s) (fs_sb s) (alter f ip (fs_icache s)).
Definition with_ilock {A} (ip : nat) (m : K (sleeplock * core) A) : K fstate A :=
  zoom (λ s, (i_lock (inodep s ip), st_core (fs_st s)))
       (λ t s, upd_inode ip (set_i_lock (fst t))
                 (FState (st_set_core (snd t) (fs_st s)) (fs_sb s) (fs_icache s))) m.

(** ** Blocks *)
Definition readsb (dev : Z) : K fstate superblock :=
  bp <- in_st (st_bread dev 1);;
  d <- in_st (st_data bp);;
  in_st (st_brelse bp) ;;;
  ret (read_superblock d).

Definition bzero (dev bno : Z) : K fstate unit :=
  bp <- in_st (st_bread dev bno);;
  in_st (st_put bp (replicate 512 0) ;;; st_log_write bp) ;;;
  in_st (st_brelse bp).

(** The inner loop of balloc over a bitmap block: the first clear bit [bi] with
    [b + bi < size]. *)
Fixpoint free_bit (k : nat) (bi b size : Z) (d : block) : option Z :=
  match k with
  | O => None
  | S k =>
      if (bi <? BPB) && (b + bi <? size) then
        if negb (bit_set d bi) then Some bi else free_bit k (bi + 1) b size d
      else None
  end.

Fixpoint balloc_loop (fuel : nat) (dev b : Z) : K fstate Z :=
  sb <- gets fs_sb;;
  if b <? sb_size sb then
    match fuel with
    | O => panic "balloc: out of fuel"
    | S fuel =>
        bp <- in_st (st_bread dev (BBLOCK b sb));;
        d <- in_st (st_data bp);;
        match free_bit (Z.to_nat BPB) 0 b (sb_size sb) d with
        | Some bi =>
            in_st (st_put bp (mark_bit d bi) ;;; st_log_write bp) ;;;
            in_st (st_brelse bp) ;;;
            bzero dev (b + bi) ;;;
            ret (b + bi)
        | None =>
            in_st (st_brelse bp) ;;;
            balloc_loop fuel dev (b + BPB)
        end
    end
  else panic "balloc: out of blocks".

Definition balloc (dev : Z) : K fstate Z :=
  sb <- gets fs_sb;;
  balloc_loop (S (Z.to_nat (sb_size sb / BPB))) dev 0.

Definition bfree (dev b : Z) : K fstate unit :=
  sb <- readsb dev;;
  modify (set_sb sb) ;;;
  bp <- in_st (st_bread dev (BBLOCK b sb));;
  d <- in_st (st_data bp);;
  let bi := b mod BPB in
  if negb (bit_set d bi) then panic "freeing free block" else
  in_st (st_put bp (clear_bit d bi) ;;; st_log_write bp) ;;;
  in_st (st_brelse bp).

(** ** Inodes *)
Definition iinit (dev : Z) : K fstate unit :=
  modify (λ s, FState (fs_st s) (fs_sb s)
                 (set_i_lock initsleeplock <$> fs_icache s)) ;;;
  sb <- readsb dev;;
  modify (set_sb sb).

(** The search of iget: the entry of the inode, or the first empty one. *)
Fixpoint icache_find (dev inum : Z) (l : list inode) (i : nat) (empty : option nat)
  : bool * option nat :=
  match l with
  | [] => (false, empty)
  | x :: l =>
      if (0 <? i_ref x) && (i_dev x =? dev) && (i_inum x =? inum) then (true, Some i)
      else icache_find dev inum l (S i)
             (match empty with
              | Some _ => empty
              | None => if i_ref x =? 0 then Some i else None
              end)
  end.

Definition iget (dev inum : Z) : K fstate nat :=
  fs_core (acquire Lk_icache) ;;;
  r <- gets (λ s, icache_find dev inum (fs_icache s) 0 None);;
  match r with
  | (true, Some ip) =>
      modify (upd_inode ip (λ x, set_i_ref (i_ref x + 1) x)) ;;;
      fs_core (release Lk_icache) ;;;
      ret ip
  | (_, None) => panic "iget: no inodes"
  | (false, Some ip) =>
      modify (upd_inode ip (λ x, Inode dev inum 1 (i_lock x) 0 (i_type x) (i_major x)
                (i_minor x) (i_nlink x) (i_size x) (i_addrs x))) ;;;
      fs_core (release Lk_icache) ;;;
      ret ip
  end.

Fixpoint ialloc_loop (fuel : nat) (dev type inum : Z) : K fstate nat :=
  sb <- gets fs_sb;;
  if inum <? sb_ninodes sb then
    match fuel with
    | O => panic "ialloc: out of fuel"
    | S fuel =>
        bp <- in_st (st_bread dev (IBLOCK inum sb));;
        d <- in_st (st_data bp);;
        let k := Z.to_nat (inum mod IPB) in
        if di_type (get_dinode k d) =? 0 then
          in_st (st_put bp (set_field (64 * k) 2 type (splice (64 * k) (replicate 64 0) d)) ;;;
                 st_log_write bp) ;;;
          in_st (st_brelse bp) ;;;
          iget dev inum
        else
          in_st (st_brelse bp) ;;;
          ialloc_loop fuel dev type (inum + 1)
    end
  else panic "ialloc: no inodes".

Definition ialloc (dev type : Z) : K fstate nat :=
  sb <- gets fs_sb;;
  ialloc_loop (Z.to_nat (sb_ninodes sb)) dev type 1.

Definition inode_dinode (x : inode) : dinode :=
  Dinode (i_type x) (i_major x) (i_minor x) (i_nlink x) (i_size x) (i_addrs x).

Definition iupdate (ip : nat) : K fstate unit :=
  sb <- gets fs_sb;;
  x <- gets (λ s, inodep s ip);;
  bp <- in_st (st_bread (i_dev x) (IBLOCK (i_inum x) sb));;
  d <- in_st (st_data bp);;
  in_st (st_put bp (put_dinode (Z.to_nat (i_inum x mod IPB)) (inode_dinode x) d) ;;;
         st_log_write bp) ;;;
  in_st (st_brelse bp).

Definition idup (ip : nat) : K fstate nat :=
  fs_core (acquire Lk_icache) ;;;
  modify (upd_inode ip (λ x, set_i_ref (i_ref x + 1) x)) ;;;
  fs_core (release Lk_icache) ;;;
  ret ip.

Definition load_dinode (di : dinode) (x : inode) : inode :=
  Inode (i_dev x) (i_inum x) (i_ref x) (i_lock x) (i_flags x) (di_type di) (di_major di)
    (di_minor di) (di_nlink di) (di_size di) (di_addrs di).

Definition ilock (p : option nat) : K fstate unit :=
  match p with
  | None => panic "ilock"
  | Some ip =>
      x <- gets (λ s, inodep s ip);;
      if i_ref x <? 1 then panic "ilock" else
      with_ilock ip (acquiresleep (SL_inode ip)) ;;;
      x <- gets (λ s, inodep s ip);;
      if negb (tst (i_flags x) I_VALID) then
        sb <- gets fs_sb;;
        bp <- in_st (st_bread (i_dev x) (IBLOCK (i_inum x) sb));;
        d <- in_st (st_data bp);;
        let di := get_dinode (Z.to_nat (i_inum x mod IPB)) d in
        modify (upd_inode ip (load_dinode di)) ;;;
        in_st (st_brelse bp) ;;;
        modify (upd_inode ip (λ x, set_i_flags (Z.lor (i_flags x) I_VALID) x)) ;;;
        if di_type di =? 0 then panic "ilock: no type" else ret tt
      else ret tt
  end.

Definition iunlock (p : option nat) : K fstate unit :=
  match p with
  | None => panic "iunlock"
  | Some ip =>
      h <- with_ilock ip (holdingsleep (SL_inode ip));;
      x <- gets (λ s, inodep s ip);;
      if negb h || (i_ref x <? 1) then panic "iunlock" else
      with_ilock ip (releasesleep (SL_inode ip))
  end.

(** ** Inode content *)
Definition bmap (ip : nat) (bn : Z) : K fstate Z :=
  x <- gets (λ s, inodep s ip);;
  if bn <? NDIRECT then
    let addr := i_addrs x !!! Z.to_nat bn in
    if addr =? 0 then
      addr <- balloc (i_dev x);;
      modify (upd_inode ip (set_i_addr (Z.to_nat bn) addr)) ;;;
      ret addr
    else ret addr
  else
  let bn := bn - NDIRECT in
  if bn <? NINDIRECT then
    let addr := i_addrs x !!! Z.to_nat NDIRECT in
    addr <- (if addr =? 0 then
               addr <- balloc (i_dev x);;
               modify (upd_inode ip (set_i_addr (Z.to_nat NDIRECT) addr)) ;;;
               ret addr
             else ret addr);;
    bp <- in_st (st_bread (i_dev x) addr);;
    a <- in_st (st_data bp);;
    let addr := field (4 * Z.to_nat bn) 4 a in
    addr <- (if addr =? 0 then
               addr <- balloc (i_dev x);;
               in_st (st_put bp (set_field (4 * Z.to_nat bn) 4 addr a) ;;;
                      st_log_write bp) ;;;
               ret addr
             else ret addr);;
    in_st (st_brelse bp) ;;;
    ret addr
  else panic "bmap: out of range".

(** The direct blocks [i .. i + k - 1] of itrunc. *)
Fixpoint itrunc_direct (k : nat) (ip i : nat) : K fstate unit :=
  match k with
  | O => ret tt
  | S k =>
      x <- gets (λ s, inodep s ip);;
      (if negb (i_addrs x !!! i =? 0) then
         bfree (i_dev x) (i_addrs x !!! i) ;;;
         modify (upd_inode ip (set_i_addr i 0))
       else ret tt) ;;;
      itrunc_direct k ip (S i)
  end.

(** Its loop over the entries [j .. j + k - 1] of the indirect block [a]. *)
Fixpoint itrunc_indirect (k : nat) (dev : Z) (a : block) (j : nat) : K fstate unit :=
  match k with
  | O => ret tt
  | S k =>
      let b := field (4 * j) 4 a in
      (if negb (b =? 0) then bfree dev b else ret tt) ;;;
      itrunc_indirect k dev a (S j)
  end.

Definition itrunc (ip : nat) : K fstate unit :=
  itrunc_direct (Z.to_nat NDIRECT) ip 0 ;;;
  x <- gets (λ s, inodep s ip);;
  let ind := i_addrs x !!! Z.to_nat NDIRECT in
  (if negb (ind =? 0) then
     bp <- in_st (st_bread (i_dev x) ind);;
     a <- in_st (st_data bp);;
     itrunc_indirect (Z.to_nat NINDIRECT) (i_dev x) a 0 ;;;
     in_st (st_brelse bp) ;;;
     bfree (i_dev x) ind ;;;
     modify (upd_inode ip (set_i_addr (Z.to_nat NDIRECT) 0))
   else ret tt) ;;;
  modify (upd_inode ip (set_i_size 0)) ;;;
  iupdate ip.

Definition iput (ip : nat) : K fstate unit :=
  fs_core (acquire Lk_icache) ;;;
  x <- gets (λ s, inodep s ip);;
  (if (i_ref x =? 1) && tst (i_flags x) I_VALID && (i_nlink x =? 0) then
     fs_core (release Lk_icache) ;;;
     itrunc ip ;;;
     modify (upd_inode ip (set_i_type 0)) ;;;
     iupdate ip ;;;
     fs_core (acquire Lk_icache) ;;;
     modify (upd_inode ip (set_i_flags 0))
   else ret tt) ;;;
  modify (upd_inode ip (λ x, set_i_ref (i_ref x - 1) x)) ;;;
  fs_core (release Lk_icache).

Definition iunlockput (ip : nat) : K fstate unit :=
  iunlock (Some ip) ;;; iput ip.

Definition stati (ip : nat) : K fstate stat :=
  x <- gets (λ s, inodep s ip);;
  ret (Stat (i_type x) (i_dev x) (i_inum x) (i_nlink x) (i_size x)).

(** devsw: the functions that devices register, by major number. *)
Variable devread : Z → option (nat → Z → Z → K fstate (Z * list Z)).
Variable devwrite : Z → option (nat → Z → list Z → Z → K fstate Z).

(** The loop of readi; the bytes read are [out]. *)
Fixpoint readi_loop (fuel : nat) (ip : nat) (off tot n : Z) (out : list Z)
  : K fstate (list Z) :=
  if tot <? n then
    match fuel with
    | O => panic "readi: out of fuel"
    | S fuel =>
        x <- gets (λ s, inodep s ip);;
        addr <- bmap ip (off / BSIZE);;
        bp <- in_st (st_bread (i_dev x) addr);;
        let m := Z.min (n - tot) (BSIZE - off mod BSIZE) in
        d <- in_st (st_data bp);;
        in_st (st_brelse bp) ;;;
        readi_loop fuel ip (u32 (off + m)) (tot + m) n
          (out ++ slice (Z.to_nat (off mod BSIZE)) (Z.to_nat m) d)
    end
  else ret out.

Definition readi (ip : nat) (off n : Z) : K fstate (Z * list Z) :=
  x <- gets (λ s, inodep s ip);;
  if i_type x =? T_DEV then
    if (i_major x <? 0) || (NDEV <=? i_major x) then ret (-1, []) else
    match devread (i_major x) with
    | None => ret (-1, [])
    | Some read => read ip off n
    end
  else
  if (i_size x <? off) || (u32 (off + n) <? off) then ret (-1, []) else
  let n := if i_size x <? u32 (off + n) then i_size x - off else n in
  out <- readi_loop (Z.to_nat (n / BSIZE + 2)) ip off 0 n [];;
  ret (n, out).

Fixpoint writei_loop (fuel : nat) (ip : nat) (src : list Z) (off tot n : Z) : K fstate Z :=
  if tot <? n then
    match fuel with
    | O => panic "writei: out of fuel"
    | S fuel =>
        x <- gets (λ s, inodep s ip);;
        addr <- bmap ip (off / BSIZE);;
        bp <- in_st (st_bread (i_dev x) addr);;
        let m := Z.min (n - tot) (BSIZE - off mod BSIZE) in
        d <- in_st (st_data bp);;
        in_st (st_put bp (splice (Z.to_nat (off mod BSIZE))
                            (slice (Z.to_nat tot) (Z.to_nat m) src) d) ;;;
               st_log_write bp) ;;;
        in_st (st_brelse bp) ;;;
        writei_loop fuel ip src (u32 (off + m)) (tot + m) n
    end
  else ret off.

Definition writei (ip : nat) (src : list Z) (off n : Z) : K fstate Z :=
  x <- gets (λ s, inodep s ip);;
  if i_type x =? T_DEV then
    if (i_major x <? 0) || (NDEV <=? i_major x) then ret (-1) else
    match devwrite (i_major x) with
    | None => ret (-1)
    | Some write => write ip off src n
    end
  else
  if (i_size x <? off) || (u32 (off + n) <? off) then ret (-1) else
  if MAXFILE * BSIZE <? u32 (off + n) then ret (-1) else
  off <- writei_loop (Z.to_nat (n / BSIZE + 2)) ip src off 0 n;;
  x <- gets (λ s, inodep s ip);;
  (if (0 <? n) && (i_size x <? off) then
     modify (upd_inode ip (set_i_size off)) ;;; iupdate ip
   else ret tt) ;;;
  ret n.

(** ** Directories *)
Definition de_inum (de : list Z) : Z := field 0 2 de.
Definition de_name (de : list Z) : list Z := slice 2 14 de.

Definition bytes_ptr (l : list Z) : cptr := λ i, default 0 (l !! i).

Definition namecmp (s t : list Z) : Z := strncmp (bytes_ptr s) (bytes_ptr t) (Z.to_nat DIRSIZ).

Fixpoint dirlookup_loop (fuel : nat) (dp : nat) (name : list Z) (off : Z)
  : K fstate (option (nat * Z)) :=
  x <- gets (λ s, inodep s dp);;
  if off <? i_size x then
    match fuel with
    | O => panic "dirlookup: out of fuel"
    | S fuel =>
        r <- readi dp off DIRENT_SIZE;;
        if negb (fst r =? DIRENT_SIZE) then panic "dirlookup read" else
        let de := snd r in
        if de_inum de =? 0 then dirlookup_loop fuel dp name (u32 (off + DIRENT_SIZE))
        else if namecmp name (de_name de) =? 0 then
          ip <- iget (i_dev x) (de_inum de);;
          ret (Some (ip, off))
        else dirlookup_loop fuel dp name (u32 (off + DIRENT_SIZE))
    end
  else ret None.

(** The inode and the offset of its entry ([*poff]). *)
Definition dirlookup (dp : nat) (name : list Z) : K fstate (option (nat * Z)) :=
  x <- gets (λ s, inodep s dp);;
  if negb (i_type x =? T_DIR) then panic "dirlookup not DIR" else
  dirlookup_loop (Z.to_nat (i_size x / DIRENT_SIZE + 1)) dp name 0.

(** The search of dirlink for an empty entry; the offset it stops at and the
    entry read last. *)
Fixpoint dirlink_loop (fuel : nat) (dp : nat) (off : Z) (de : list Z)
  : K fstate (Z * list Z) :=
  x <- gets (λ s, inodep s dp);;
  if off <? i_size x then
    match fuel with
    | O => panic "dirlink: out of fuel"
    | S fuel =>
        r <- readi dp off DIRENT_SIZE;;
        if negb (fst r =? DIRENT_SIZE) then panic "dirlink read" else
        if de_inum (snd r) =? 0 then ret (off, snd r)
        else dirlink_loop fuel dp (off + DIRENT_SIZE) (snd r)
    end
  else ret (off, de).

(** A directory entry with name [name], as strncpy stores it, and number [inum]. *)
Definition make_dirent (name : list Z) (inum : Z) (de : list Z) : list Z :=
  le_put 2 inum ++ strncpy (de_name de) (bytes_ptr name) DIRSIZ.

Definition dirlink (dp : nat) (name : list Z) (inum : Z) : K fstate Z :=
  r <- dirlookup dp name;;
  match r with
  | Some (ip, _) => iput ip ;;; ret (-1)
  | None =>
      x <- gets (λ s, inodep s dp);;
      r <- dirlink_loop (Z.to_nat (i_size x / DIRENT_SIZE + 1)) dp 0 (replicate 16 0);;
      w <- writei dp (make_dirent name inum (snd r)) (fst r) DIRENT_SIZE;;
      if negb (w =? DIRENT_SIZE) then panic "dirlink" else ret 0
  end.

(** ** Paths

    A path is the bytes of a C string without its NUL; [name] is the array the
    caller passes. *)
Definition slash : Z := 47.

Fixpoint skip_slashes (path : list Z) : list Z :=
  match path with
  | c :: p => if c =? slash then skip_slashes p else path
  | [] => []
  end.

(** The bytes up to the next slash, and the rest. *)
Fixpoint take_elem (path : list Z) : list Z * list Z :=
  match path with
  | c :: p => if c =? slash then ([], path)
              else let (e, r) := take_elem p in (c :: e, r)
  | [] => ([], [])
  end.

Definition skipelem (path name : list Z) : option (list Z * list Z) :=
  let path := skip_slashes path in
  match path with
  | [] => None
  | _ =>
      let (s, rest) := take_elem path in
      let len := length s in
      let name :=
        if (Z.to_nat DIRSIZ <=? len)%nat then splice 0 (take (Z.to_nat DIRSIZ) s) name
        else splice 0 (s ++ [0]) name in
      Some (skip_slashes rest, name)
  end.

Fixpoint namex_loop (fuel : nat) (ip : nat) (path : list Z) (nameiparent : bool) (name : list Z)
  : K fstate (option nat * list Z) :=
  match skipelem path name with
  | None =>
      if nameiparent then iput ip ;;; ret (None, name) else ret (Some ip, name)
  | Some (path, name) =>
      match fuel with
      | O => panic "namex: out of fuel"
      | S fuel =>
          ilock (Some ip) ;;;
          x <- gets (λ s, inodep s ip);;
          if negb (i_type x =? T_DIR) then iunlockput ip ;;; ret (None, name) else
          if nameiparent && bool_decide (path = []) then
            iunlock (Some ip) ;;; ret (Some ip, name)
          else
            next <- dirlookup ip name;;
            match next with
            | None => iunlockput ip ;;; ret (None, name)
            | Some (next, _) =>
                iunlockput ip ;;; namex_loop fuel next path nameiparent name
            end
      end
  end.

Definition proc_cwd : K fstate nat :=
  c <- gets (λ s, st_core (fs_st s));;
  match c_cur c ≫= λ i, c_procs c !! i ≫= p_cwd with
  | Some ip => ret ip
  | None => panic "no cwd"
  end.

Definition namex (path : list Z) (nameiparent : bool) (name : list Z)
  : K fstate (option nat * list Z) :=
  ip <- (if match path with c :: _ => c =? slash | [] => false end
         then iget ROOTDEV ROOTINO
         else cwd <- proc_cwd;; idup cwd);;
  namex_loop (length path) ip path nameiparent name.

Definition namei (path : list Z) : K fstate (option nat) :=
  r <- namex path false (replicate 14 0);;
  ret (fst r).

Definition nameiparent (path name : list Z) : K fstate (option nat * list Z) :=
  namex path true name.
End fs.

Arguments fstate St : clear implicits.
