(* ===== verification/FsBlocks.v ===== *)
(** * The block allocator of fs.c: bzero, balloc, bfree

    Proved against the interface of the block store. *)

From S2P Require Import Prelude Params CString Core Bio BioSpec BioTheorems Log LogCrash BlockStore Fs.

(** ** Bits of a bitmap block *)
Lemma land_bit x k : 0 ≤ k → negb (Z.land x (Z.shiftl 1 k) =? 0) = Z.testbit x k.
Proof.
  intros Hk. rewrite Z.shiftl_1_l. destruct (Z.testbit x k) eqn:E.
  - apply negb_true_iff, Z.eqb_neq. intros H0.
    apply (f_equal (λ z, Z.testbit z k)) in H0.
    rewrite Z.land_spec, Z.pow2_bits_true, E, Z.bits_0 in H0 by done. done.
  - apply negb_false_iff, Z.eqb_eq. apply Z.bits_inj'. intros n Hn.
    rewrite Z.land_spec, Z.bits_0, Z.pow2_bits_eqb by done.
    destruct (Z.eqb_spec k n) as [<-|]; [by rewrite E|by rewrite andb_false_r].
Qed.

Lemma bit_set_testbit d bi :
  bit_set d bi = Z.testbit (d !!! Z.to_nat (bi / 8)) (bi mod 8).
Proof. unfold bit_set. apply land_bit. pose proof (Z.mod_pos_bound bi 8). lia. Qed.

Lemma u8_testbit x k : 0 ≤ k < 8 → Z.testbit (u8 x) k = Z.testbit x k.
Proof. intros Hk. unfold u8. apply Z.mod_pow2_bits_low. lia. Qed.

Lemma bit_index i j :
  0 ≤ i → 0 ≤ j → i / 8 = j / 8 → i mod 8 = j mod 8 → i = j.
Proof. intros. rewrite (Z.div_mod i 8), (Z.div_mod j 8) by lia. lia. Qed.

Section bits.
Variables (d : block) (i j : Z).
Hypothesis Hd : length d = 512%nat.
Hypothesis Hi : 0 ≤ i < BPB.
Hypothesis Hj : 0 ≤ j < BPB.

Lemma bit_byte k : 0 ≤ k < BPB → (Z.to_nat (k / 8) < length d)%nat ∧ 0 ≤ k mod 8 < 8.
Proof.
  intros Hk. unfold BPB, BSIZE in Hk. rewrite Hd.
  assert (0 ≤ k / 8 < 512) by (split; [apply Z.div_pos; lia|apply Z.div_lt_upper_bound; lia]).
  pose proof (Z.mod_pos_bound k 8). lia.
Qed.

Lemma bit_mark : bit_set (mark_bit d i) j = bit_set d j || (i =? j).
Proof.
  destruct (bit_byte i Hi) as [Hbi Hmi]. destruct (bit_byte j Hj) as [Hbj Hmj].
  rewrite !bit_set_testbit. unfold mark_bit.
  destruct (decide (Z.to_nat (j / 8) = Z.to_nat (i / 8))) as [E|E].
  - rewrite E, list_lookup_total_alter_eq by done.
    rewrite u8_testbit, Z.lor_spec by lia. f_equal.
    rewrite Z.shiftl_1_l, Z.pow2_bits_eqb by lia.
    destruct (Z.eqb_spec i j) as [->|Hne]; [apply Z.eqb_refl|].
    apply Z.eqb_neq. intros Hm. apply Hne, bit_index; [lia|lia| |done].
    assert (0 ≤ i / 8) by (apply Z.div_pos; lia). assert (0 ≤ j / 8) by (apply Z.div_pos; lia). lia.
  - rewrite list_lookup_total_alter_ne by done.
    rewrite (proj2 (Z.eqb_neq i j)) by (by intros ->). by rewrite orb_false_r.
Qed.

Lemma bit_clear : bit_set (clear_bit d i) j = bit_set d j && negb (i =? j).
Proof.
  destruct (bit_byte i Hi) as [Hbi Hmi]. destruct (bit_byte j Hj) as [Hbj Hmj].
  rewrite !bit_set_testbit. unfold clear_bit.
  destruct (decide (Z.to_nat (j / 8) = Z.to_nat (i / 8))) as [E|E].
  - rewrite E, list_lookup_total_alter_eq by done.
    rewrite u8_testbit, Z.land_spec, Z.lnot_spec by lia. f_equal. f_equal.
    rewrite Z.shiftl_1_l, Z.pow2_bits_eqb by lia.
    destruct (Z.eqb_spec i j) as [->|Hne]; [apply Z.eqb_refl|].
    apply Z.eqb_neq. intros Hm. apply Hne, bit_index; [lia|lia| |done].
    assert (0 ≤ i / 8) by (apply Z.div_pos; lia). assert (0 ≤ j / 8) by (apply Z.div_pos; lia). lia.
  - rewrite list_lookup_total_alter_ne by done.
    rewrite (proj2 (Z.eqb_neq i j)) by (by intros ->). by rewrite andb_true_r.
Qed.
End bits.

Lemma length_mark_bit d i : length (mark_bit d i) = length d.
Proof. apply length_alter. Qed.
Lemma length_clear_bit d i : length (clear_bit d i) = length d.
Proof. apply length_alter. Qed.

(** The inner loop of balloc: the first clear bit of the block, if any. *)
Lemma free_bit_spec k bi b size d :
  0 ≤ bi → BPB ≤ bi + Z.of_nat k →
  match free_bit k bi b size d with
  | Some r => bi ≤ r < BPB ∧ b + r < size ∧ bit_set d r = false ∧
              (∀ x, bi ≤ x < r → bit_set d x = true)
  | None => ∀ x, bi ≤ x < BPB → b + x < size → bit_set d x = true
  end.
Proof.
  revert bi. induction k as [|k IH]; intros bi H0 Hk; cbn [free_bit].
  { intros x Hx. lia. }
  destruct (bi <? BPB) eqn:E1, (b + bi <? size) eqn:E2; cbn [andb];
    rewrite ?Z.ltb_lt, ?Z.ltb_ge in *; try (intros x Hx1 Hx2; lia).
  destruct (bit_set d bi) eqn:E3; cbn [negb].
  - specialize (IH (bi + 1) ltac:(lia) ltac:(lia)).
    destruct (free_bit k (bi + 1) b size d) as [r|].
    + destruct IH as (? & ? & ? & Hall). repeat split; try lia; try done.
      intros x Hx. destruct (decide (x = bi)) as [->|]; [done|]. apply Hall. lia.
    + intros x Hx Hs. destruct (decide (x = bi)) as [->|]; [done|]. apply IH; lia.
  - split; [lia|]. split; [lia|]. split; [done|]. intros x Hx. lia.
Qed.

(** ** Steps of the file system on the store *)
Section store.
Context {St : Type} {B : BlockStore St} {L : BlockLaws St}.
Implicit Types (s : fstate St) (V : bview) (H : gmap nat Z) (W : gset Z).

Definition with_st (t : St) s : fstate St := FState t (fs_sb s) (fs_icache s).

Lemma in_st_done {A} (m : K St A) s a t :
  m (fs_st s) = Done a t → in_st m s = Done a (with_st t s).
Proof. intros E. unfold in_st, zoom. by rewrite E. Qed.

(** bread and the content of the buffer it gives. *)
Lemma block_read s V H W b :
  st_rep (fs_st s) V H W → 0 ≤ b < st_size → (∀ j, H !! j ≠ Some b) →
  (size H + size W ≤ st_cap)%nat →
  ∃ i t1, in_st (st_bread 1 b) s = Done i (with_st t1 s) ∧
    in_st (st_data i) (with_st t1 s) = Done (V b) (with_st t1 s) ∧
    H !! i = None ∧ st_rep t1 V (<[i:=b]> H) W.
Proof.
  intros Hr Hb Hn Hsz. destruct (st_bread_ok _ _ _ _ _ Hr Hb Hn Hsz) as (i & t1 & E1 & Hi & Hr1).
  exists i, t1. split; [by apply in_st_done|]. split; [|done].
  rewrite (in_st_done (st_data i) (with_st t1 s) (V b) t1); [done|].
  eapply st_data_ok; [exact Hr1|apply lookup_insert_eq].
Qed.

Lemma block_release s V H W i b :
  st_rep (fs_st s) V (<[i:=b]> H) W → H !! i = None →
  ∃ t', in_st (st_brelse i) s = Done tt (with_st t' s) ∧ st_rep t' V H W.
Proof.
  intros Hr Hi. destruct (st_brelse_ok _ _ _ _ i b Hr (lookup_insert_eq _ _ _)) as (t' & E & Hr').
  rewrite delete_insert_id in Hr' by done. exists t'. split; [by apply in_st_done|done].
Qed.

Lemma block_update s V H W i b d :
  st_rep (fs_st s) V H W → H !! i = Some b → st_home b → (size W < st_cap)%nat →
  ∃ t', in_st (st_put i d ;;; st_log_write i) s = Done tt (with_st t' s) ∧
        st_rep t' (bupd b d V) H ({[b]} ∪ W).
Proof.
  intros Hr HH Hb Hsz. destruct (st_update_ok _ _ _ _ i b d Hr HH Hb Hsz) as (t' & E & Hr').
  exists t'. split; [by apply in_st_done|done].
Qed.

Lemma bzero_spec s V H W b :
  st_rep (fs_st s) V H W → st_home b → (∀ j, H !! j ≠ Some b) →
  (size H + size W < st_cap)%nat →
  ∃ t', bzero 1 b s = Done tt (with_st t' s) ∧
        st_rep t' (bupd b (replicate 512 0) V) H ({[b]} ∪ W).
Proof.
  intros Hr Hb Hn Hsz. pose proof (st_home_range b Hb) as Hrange.
  destruct (st_bread_ok _ _ _ _ _ Hr Hrange Hn ltac:(lia)) as (i & t1 & E1 & Hi & Hr1).
  unfold bzero. rewrite (bind_done _ _ _ _ _ (in_st_done _ _ _ _ E1)).
  destruct (block_update (with_st t1 s) _ _ _ i b (replicate 512 0) Hr1
              (lookup_insert_eq _ _ _) Hb) as (t2 & E2 & Hr2); [lia|].
  rewrite (bind_done _ _ _ _ _ E2).
  destruct (block_release (with_st t2 s) _ _ _ i b Hr2 Hi) as (t3 & E3 & Hr3).
  exists t3. split; [exact E3|done].
Qed.

(** ** The bitmap *)

(** The bit of block [b], in the bitmap that superblock [sb] describes. *)
Definition in_use (sb : superblock) V (b : Z) : bool :=
  bit_set (V (BBLOCK b sb)) (b mod BPB).

(** The blocks and the bitmap are as mkfs lays them out: the bitmap is in
    writable blocks of 512 bytes, and a block that is free according to it is
    writable and not itself a block of the bitmap. *)
Record bitmap_ok (sb : superblock) V : Prop := {
  bm_size : 0 ≤ sb_size sb;
  bm_home b : 0 ≤ b < sb_size sb → st_home (BBLOCK b sb);
  bm_len b : 0 ≤ b < sb_size sb → length (V (BBLOCK b sb)) = 512%nat;
  bm_free b : 0 ≤ b < sb_size sb → in_use sb V b = false →
              st_home b ∧ ∀ b', 0 ≤ b' < sb_size sb → b ≠ BBLOCK b' sb
}.

Lemma in_use_mark sb V b b' :
  bitmap_ok sb V → 0 ≤ b < sb_size sb → 0 ≤ b' < sb_size sb →
  in_use sb (bupd (BBLOCK b sb) (mark_bit (V (BBLOCK b sb)) (b mod BPB)) V) b'
  = in_use sb V b' || (b =? b').
Proof.
  intros Hok Hb Hb'. unfold in_use, bupd.
  assert (Hm : ∀ x, 0 ≤ x mod BPB < BPB) by (intros x; apply Z.mod_pos_bound; done).
  destruct (Z.eqb_spec (BBLOCK b' sb) (BBLOCK b sb)) as [E|E].
  - rewrite bit_mark, E by (done || by apply Hok). f_equal.
    destruct (Z.eqb_spec b b') as [->|Hne]; [apply Z.eqb_refl|]. apply Z.eqb_neq. intros Hmod.
    apply Hne. unfold BBLOCK in E. rewrite (Z.div_mod b BPB), (Z.div_mod b' BPB) by done. lia.
  - rewrite (proj2 (Z.eqb_neq b b')) by (by intros ->). by rewrite orb_false_r.
Qed.

Lemma in_use_clear sb V b b' :
  bitmap_ok sb V → 0 ≤ b < sb_size sb → 0 ≤ b' < sb_size sb →
  in_use sb (bupd (BBLOCK b sb) (clear_bit (V (BBLOCK b sb)) (b mod BPB)) V) b'
  = in_use sb V b' && negb (b =? b').
Proof.
  intros Hok Hb Hb'. unfold in_use, bupd.
  assert (Hm : ∀ x, 0 ≤ x mod BPB < BPB) by (intros x; apply Z.mod_pos_bound; done).
  destruct (Z.eqb_spec (BBLOCK b' sb) (BBLOCK b sb)) as [E|E].
  - rewrite bit_clear, E by (done || by apply Hok). f_equal. f_equal.
    destruct (Z.eqb_spec b b') as [->|Hne]; [apply Z.eqb_refl|]. apply Z.eqb_neq. intros Hmod.
    apply Hne. unfold BBLOCK in E. rewrite (Z.div_mod b BPB), (Z.div_mod b' BPB) by done. lia.
  - rewrite (proj2 (Z.eqb_neq b b')) by (by intros ->). by rewrite andb_true_r.
Qed.

(** A block outside the bitmap does not matter to it. *)
Lemma in_use_other sb V x d b :
  (∀ b', 0 ≤ b' < sb_size sb → x ≠ BBLOCK b' sb) → 0 ≤ b < sb_size sb →
  in_use sb (bupd x d V) b = in_use sb V b.
Proof.
  intros Hx Hb. unfold in_use, bupd.
  by rewrite (proj2 (Z.eqb_neq _ _)) by (intros E; by apply (Hx b)).
Qed.

(** The content after [balloc] has returned [b]. *)
Definition allocated (sb : superblock) V (b : Z) : bview :=
  bupd b (replicate 512 0) (bupd (BBLOCK b sb) (mark_bit (V (BBLOCK b sb)) (b mod BPB)) V).
Definition freed (sb : superblock) V (b : Z) : bview :=
  bupd (BBLOCK b sb) (clear_bit (V (BBLOCK b sb)) (b mod BPB)) V.

Lemma allocated_in_use sb V b b' :
  bitmap_ok sb V → 0 ≤ b < sb_size sb → 0 ≤ b' < sb_size sb → in_use sb V b = false →
  in_use sb (allocated sb V b) b' = in_use sb V b' || (b =? b').
Proof.
  intros Hok Hb Hb' Hfree. destruct (bm_free _ _ Hok b Hb Hfree) as [_ Hne].
  unfold allocated. rewrite in_use_other by done. by apply in_use_mark.
Qed.

Lemma BBLOCK_block k bi sb : 0 ≤ bi < BPB →
  BBLOCK (k * BPB + bi) sb = BBLOCK (k * BPB) sb ∧ (k * BPB + bi) mod BPB = bi.
Proof.
  intros Hbi. unfold BBLOCK.
  rewrite Z.div_add_l, Z.div_mul, (Z.div_small bi), Z.add_0_r by (done || lia).
  split; [done|]. rewrite Z.add_comm, Z.mod_add by done. by apply Z.mod_small.
Qed.

(** The loop of balloc from block [k * BPB] on finds the first free block. *)
Lemma balloc_loop_spec fuel k s V H W :
  let sb := fs_sb s in
  st_rep (fs_st s) V H W → bitmap_ok sb V →
  (∀ j b, H !! j = Some b → ∀ b', 0 ≤ b' < sb_size sb →
     b ≠ BBLOCK b' sb ∧ (in_use sb V b' = false → b ≠ b')) →
  (size H + size W + 1 < st_cap)%nat →
  0 ≤ k → sb_size sb < (k + Z.of_nat fuel) * BPB →
  (∀ b, 0 ≤ b < k * BPB → b < sb_size sb → in_use sb V b = true) →
  (balloc_loop fuel 1 (k * BPB) s = Panic "balloc: out of blocks" ∧
     ∀ b, 0 ≤ b < sb_size sb → in_use sb V b = true) ∨
  ∃ b t', balloc_loop fuel 1 (k * BPB) s = Done b (with_st t' s) ∧
    0 ≤ b < sb_size sb ∧ in_use sb V b = false ∧
    (∀ b', 0 ≤ b' < b → in_use sb V b' = true) ∧
    st_rep t' (allocated sb V b) H ({[b]} ∪ ({[BBLOCK b sb]} ∪ W)).
Proof.
  revert k s. induction fuel as [|fuel IH]; intros k s sb Hr Hok HH Hsz Hk Hfuel Hused.
  { left. cbn [balloc_loop]. unfold bind, gets. fold sb.
    rewrite (proj2 (Z.ltb_ge _ _)) by lia. split; [done|]. intros b Hb. apply Hused; lia. }
  remember (balloc_loop (S fuel) 1 (k * BPB) s) as r eqn:Er. cbn [balloc_loop] in Er.
  unfold bind at 1, gets in Er. fold sb in Er.
  destruct (k * BPB <? sb_size sb) eqn:Elt; [apply Z.ltb_lt in Elt|apply Z.ltb_ge in Elt].
  2: { left. split; [done|]. intros b Hb. apply Hused; lia. }
  assert (Hkb : 0 ≤ k * BPB < sb_size sb) by (unfold BPB, BSIZE in *; lia).
  set (bb := BBLOCK (k * BPB) sb).
  assert (Hbb : st_home bb) by (by apply (bm_home _ _ Hok)).
  destruct (block_read s V H W bb Hr) as (i & t1 & E1 & E1' & Hi & Hr1);
    [by apply st_home_range|intros j Hj; by destruct (HH j bb Hj (k * BPB) Hkb)|lia|].
  rewrite (bind_done _ _ _ _ _ E1), (bind_done _ _ _ _ _ E1') in Er.
  pose proof (free_bit_spec (Z.to_nat BPB) 0 (k * BPB) (sb_size sb) (V bb)
                            ltac:(lia) ltac:(lia)) as Hfb.
  destruct (free_bit _ _ _ _ _) as [bi|] in Hfb, Er.
  - right. destruct Hfb as (Hbi & Hlt & Hclr & Hprev).
    destruct (BBLOCK_block k bi sb Hbi) as [Eb Em].
    assert (Hb : 0 ≤ k * BPB + bi < sb_size sb) by lia.
    assert (Hfree : in_use sb V (k * BPB + bi) = false) by (unfold in_use; by rewrite Eb, Em).
    destruct (bm_free _ _ Hok _ Hb Hfree) as [Hhome Hnb].
    destruct (block_update (with_st t1 s) _ _ _ i bb (mark_bit (V bb) bi) Hr1
                (lookup_insert_eq _ _ _) Hbb) as (t2 & E2 & Hr2); [lia|].
    rewrite (bind_done _ _ _ _ _ E2) in Er.
    destruct (block_release (with_st t2 s) _ _ _ i bb Hr2 Hi) as (t3 & E3 & Hr3).
    rewrite (bind_done _ _ _ _ _ E3) in Er.
    destruct (bzero_spec (with_st t3 s) _ _ _ (k * BPB + bi) Hr3 Hhome) as (t4 & E4 & Hr4).
    { intros j Hj. destruct (HH j _ Hj _ Hb) as [_ Hx]. by apply Hx. }
    { assert (Hsu := size_union_alt ({[bb]} : gset Z) W).
      assert ((size (W ∖ {[bb]}) ≤ size W)%nat) by (apply subseteq_size; set_solver).
      rewrite size_singleton in Hsu. lia. }
    rewrite (bind_done _ _ _ _ _ E4) in Er.
    exists (k * BPB + bi), t4. split; [done|]. split; [done|]. split; [done|]. split.
    + intros b' Hb'. destruct (decide (b' < k * BPB)) as [?|Hge]; [apply Hused; lia|].
      destruct (BBLOCK_block k (b' - k * BPB) sb) as [Eb' Em']; [lia|].
      replace (k * BPB + (b' - k * BPB)) with b' in Eb', Em' by lia.
      unfold in_use. rewrite Eb', Em'. apply Hprev. lia.
    + unfold allocated. rewrite Eb, Em. exact Hr4.
  - destruct (block_release (with_st t1 s) _ _ _ i bb Hr1 Hi) as (t2 & E2 & Hr2).
    rewrite (bind_done _ _ _ _ _ E2) in Er.
    replace (k * BPB + BPB) with ((k + 1) * BPB) in Er by lia. rewrite Er.
    apply (IH (k + 1) (with_st t2 s)); try done; [lia|cbn; fold sb; lia|].
    intros b Hb Hbs. destruct (decide (b < k * BPB)) as [?|Hge]; [apply Hused; lia|].
    destruct (BBLOCK_block k (b - k * BPB) sb) as [Eb' Em']; [lia|].
    replace (k * BPB + (b - k * BPB)) with b in Eb', Em' by lia.
    unfold in_use. cbn [fs_sb with_st]. fold sb. rewrite Eb', Em'. apply Hfb; [lia|].
    cbn [fs_sb with_st] in Hbs. fold sb in Hbs. lia.
Qed.

Lemma balloc_spec s V H W :
  let sb := fs_sb s in
  st_rep (fs_st s) V H W → bitmap_ok sb V →
  (∀ j b, H !! j = Some b → ∀ b', 0 ≤ b' < sb_size sb →
     b ≠ BBLOCK b' sb ∧ (in_use sb V b' = false → b ≠ b')) →
  (size H + size W + 1 < st_cap)%nat →
  (balloc 1 s = Panic "balloc: out of blocks" ∧
     ∀ b, 0 ≤ b < sb_size sb → in_use sb V b = true) ∨
  ∃ b t', balloc 1 s = Done b (with_st t' s) ∧
    0 ≤ b < sb_size sb ∧ in_use sb V b = false ∧
    (∀ b', 0 ≤ b' < b → in_use sb V b' = true) ∧
    st_rep t' (allocated sb V b) H ({[b]} ∪ ({[BBLOCK b sb]} ∪ W)).
Proof.
  intros sb Hr Hok HH Hsz. unfold balloc, bind, gets. fold sb.
  apply (balloc_loop_spec _ 0 s V H W Hr Hok HH Hsz); [lia| |intros b Hb; lia].
  fold sb. pose proof (bm_size _ _ Hok). rewrite Nat2Z.inj_succ, Z2Nat.id.
  - pose proof (Z.div_mod (sb_size sb) BPB ltac:(done)).
    pose proof (Z.mod_pos_bound (sb_size sb) BPB ltac:(done)). lia.
  - by apply Z.div_pos.
Qed.

Lemma readsb_ok s V H W :
  st_rep (fs_st s) V H W → 1 < st_size → (∀ j, H !! j ≠ Some 1) →
  (size H + size W ≤ st_cap)%nat →
  ∃ t', readsb 1 s = Done (read_superblock (V 1)) (with_st t' s) ∧ st_rep t' V H W.
Proof.
  intros Hr H1 Hn Hsz. destruct (block_read s V H W 1 Hr) as (i & t1 & E1 & E1' & Hi & Hr1); [lia|done|lia|].
  unfold readsb. rewrite (bind_done _ _ _ _ _ E1), (bind_done _ _ _ _ _ E1').
  destruct (block_release (with_st t1 s) _ _ _ i 1 Hr1 Hi) as (t2 & E2 & Hr2).
  rewrite (bind_done _ _ _ _ _ E2). by exists t2.
Qed.

Lemma bfree_spec s V H W b :
  let sb := fs_sb s in
  st_rep (fs_st s) V H W → bitmap_ok sb V → read_superblock (V 1) = sb → 1 < st_size →
  0 ≤ b < sb_size sb →
  (∀ j x, H !! j = Some x → x ≠ 1 ∧ x ≠ BBLOCK b sb) →
  (size H + size W < st_cap)%nat →
  if in_use sb V b then
    ∃ t', bfree 1 b s = Done tt (with_st t' s) ∧
          st_rep t' (freed sb V b) H ({[BBLOCK b sb]} ∪ W)
  else bfree 1 b s = Panic "freeing free block".
Proof.
  intros sb Hr Hok Hsb H1 Hb HH Hsz.
  destruct (readsb_ok s V H W Hr H1) as (t0 & E0 & Hr0); [intros j Hj; by destruct (HH j 1 Hj)|lia|].
  assert (Hbb : st_home (BBLOCK b sb)) by (by apply (bm_home _ _ Hok)).
  remember (bfree 1 b s) as r eqn:Er. unfold bfree in Er.
  rewrite (bind_done _ _ _ _ _ E0), Hsb in Er.
  unfold bind at 1, modify in Er. unfold set_sb in Er. cbn [with_st fs_st fs_icache] in Er.
  fold (with_st t0 s) in Er. change (FState t0 sb (fs_icache s)) with (with_st t0 s) in Er.
  destruct (block_read (with_st t0 s) V H W (BBLOCK b sb) Hr0) as (i & t1 & E1 & E1' & Hi & Hr1);
    [by apply st_home_range|intros j Hj; by destruct (HH j _ Hj)|lia|].
  rewrite (bind_done _ _ _ _ _ E1), (bind_done _ _ _ _ _ E1') in Er.
  change (bit_set (V (BBLOCK b sb)) (b mod BPB)) with (in_use sb V b) in Er.
  destruct (in_use sb V b); cbn [negb] in Er; [|done].
  destruct (block_update (with_st t1 (with_st t0 s)) _ _ _ i _ (clear_bit (V (BBLOCK b sb)) (b mod BPB))
              Hr1 (lookup_insert_eq _ _ _) Hbb) as (t2 & E2 & Hr2); [lia|].
  rewrite (bind_done _ _ _ _ _ E2) in Er.
  destruct (block_release (with_st t2 s) _ _ _ i _ Hr2 Hi) as (t3 & E3 & Hr3).
  exists t3. split; [|exact Hr3]. rewrite Er. exact E3.
Qed.

Lemma bitmap_ok_allocated sb V b :
  bitmap_ok sb V → 0 ≤ b < sb_size sb → in_use sb V b = false →
  bitmap_ok sb (allocated sb V b).
Proof.
  intros Hok Hb Hfree. destruct (bm_free _ _ Hok b Hb Hfree) as [Hh Hne].
  split; try apply Hok.
  - intros b' Hb'. unfold allocated, bupd.
    rewrite (proj2 (Z.eqb_neq _ _)) by (intros E; by apply (Hne b')).
    destruct (Z.eqb_spec (BBLOCK b' sb) (BBLOCK b sb)); [|by apply Hok].
    rewrite length_mark_bit. by apply Hok.
  - intros b' Hb' Hf. rewrite allocated_in_use in Hf by done.
    apply orb_false_iff in Hf as [Hf _]. by apply Hok.
Qed.

(** Freeing a writable block outside the bitmap keeps it well formed. *)
Lemma bitmap_ok_freed sb V b :
  bitmap_ok sb V → 0 ≤ b < sb_size sb → st_home b →
  (∀ b', 0 ≤ b' < sb_size sb → b ≠ BBLOCK b' sb) → bitmap_ok sb (freed sb V b).
Proof.
  intros Hok Hb Hh Hne. split; try apply Hok.
  - intros b' Hb'. unfold freed, bupd.
    destruct (Z.eqb_spec (BBLOCK b' sb) (BBLOCK b sb)); [|by apply Hok].
    rewrite length_clear_bit. by apply Hok.
  - intros b' Hb' Hf. unfold freed in Hf. rewrite in_use_clear in Hf by done.
    apply andb_false_iff in Hf as [Hf|Hf]; [by apply Hok|].
    apply negb_false_iff, Z.eqb_eq in Hf. by subst b'.
Qed.
End store.

(** ** The sample file system *)
Definition sample_sb : superblock := read_superblock sample_superblock.

Lemma sample_is_home b : b = 1 ∨ 32 ≤ b < 1000 → home 2 30 1000 b.
Proof. intros Hb. split; [lia|unfold LogCrash.in_log; lia]. Qed.

Lemma sample_home b : 32 ≤ b < 1000 → st_home (BlockLaws := sample_laws) b.
Proof. intros Hb. split; [by apply sample_is_home; right|lia]. Qed.

Lemma sample_BBLOCK b : 0 ≤ b < 1000 → BBLOCK b sample_sb = 58.
Proof.
  intros Hb. unfold BBLOCK. rewrite Z.div_small by (unfold BPB, BSIZE; lia).
  by vm_compute.
Qed.

Lemma sample_used b : 0 ≤ b ≤ 60 → bit_set sample_bitmap b = true.
Proof.
  intros Hb. assert (H : forallb (bit_set sample_bitmap) (seqZ 0 61) = true) by (by vm_compute).
  rewrite forallb_forall in H. apply H, list_elem_of_In, elem_of_seqZ. lia.
Qed.

Lemma sample_bitmap_ok V :
  (∀ b, home 2 30 1000 b → V b = sample_image b) →
  bitmap_ok (L := sample_laws) sample_sb V.
Proof.
  intros HV. assert (Hsz : sb_size sample_sb = 1000) by (by vm_compute).
  assert (H58 : V 58 = sample_bitmap) by (rewrite HV; [done|apply sample_is_home; lia]).
  split; rewrite ?Hsz.
  - lia.
  - intros b Hb. rewrite sample_BBLOCK by done. apply sample_home. lia.
  - intros b Hb. rewrite sample_BBLOCK, H58 by done. by vm_compute.
  - intros b Hb Hf. unfold in_use in Hf. rewrite sample_BBLOCK, H58 in Hf by done.
    rewrite Z.mod_small in Hf by (unfold BPB, BSIZE; lia).
    assert (60 < b) by (destruct (decide (60 < b)); [done|]; rewrite sample_used in Hf by lia; done).
    split; [apply sample_home; lia|]. intros b' Hb'. rewrite sample_BBLOCK by done. lia.
Qed.

(** ** Properties *)

(** balloc allocates the first free block.  If the bitmap has a clear bit,
    balloc returns the first block [b] whose bit is clear; afterwards its bit is
    set and every other bit is as before, the block is zeroed, no other block
    but the one of the bitmap has changed, and the bitmap is well formed.  If
    there is none, balloc panics; it never runs out of loop turns. *)
Theorem balloc_first_free {St} {B : BlockStore St} {L : BlockLaws St} (s : fstate St) V W :
  let sb := fs_sb s in
  st_rep (fs_st s) V ∅ W → bitmap_ok sb V → (size W + 1 < st_cap)%nat →
  if decide (Exists (λ b, in_use sb V b = false) (seqZ 0 (sb_size sb))) then
    ∃ b t' V', balloc 1 s = Done b (with_st t' s) ∧
      st_rep t' V' ∅ ({[b]} ∪ ({[BBLOCK b sb]} ∪ W)) ∧
      0 ≤ b < sb_size sb ∧ in_use sb V b = false ∧
      (∀ b', 0 ≤ b' < b → in_use sb V b' = true) ∧
      (∀ b', 0 ≤ b' < sb_size sb → in_use sb V' b' = in_use sb V b' || (b =? b')) ∧
      V' b = replicate 512 0 ∧ (∀ x, x ≠ b → x ≠ BBLOCK b sb → V' x = V x) ∧
      bitmap_ok sb V'
  else balloc 1 s = Panic "balloc: out of blocks".
Proof.
  intros sb Hr Hok Hsz.
  destruct (balloc_spec s V ∅ W Hr Hok) as [[E Hall]|(b & t' & E & Hb & Hfree & Hfirst & Hr')];
    [intros j b; by rewrite lookup_empty|rewrite map_size_empty; lia| |].
  - fold sb in Hall. rewrite decide_False; [done|]. intros (b & Hb & Hf)%Exists_exists.
    apply elem_of_seqZ in Hb. rewrite Hall in Hf by lia. done.
  - fold sb in Hb, Hfree, Hfirst, Hr'.
    rewrite decide_True by (apply Exists_exists; exists b; split; [apply elem_of_seqZ; lia|done]).
    exists b, t', (allocated sb V b). split; [done|]. split; [done|]. split; [done|].
    split; [done|]. split; [done|]. split; [intros; by apply allocated_in_use|].
    split; [unfold allocated, bupd; by rewrite Z.eqb_refl|].
    split; [|by apply bitmap_ok_allocated].
    intros x Hx1 Hx2. unfold allocated, bupd. by rewrite !(proj2 (Z.eqb_neq _ _)) by done.
Qed.

Lemma balloc_first_free_witness :
  ∃ (s : fstate lstate) t', balloc 1 s = Done 61 (with_st t' s).
Proof.
  destruct sample_store as (t & V & Hr & HV).
  pose proof (sample_bitmap_ok V HV) as Hok.
  pose proof (balloc_first_free (L := sample_laws) (FState t sample_sb []) V ∅ Hr Hok
    ltac:(vm_compute; lia)) as Hb.
  assert (H58 : V 58 = sample_bitmap) by (rewrite HV; [done|apply sample_is_home; lia]).
  assert (Huse : ∀ b, 0 ≤ b < 1000 → in_use sample_sb V b = bit_set sample_bitmap b).
  { intros b Hlt. unfold in_use. rewrite sample_BBLOCK, H58 by done.
    by rewrite Z.mod_small by (unfold BPB, BSIZE; lia). }
  rewrite decide_True in Hb.
  2: { apply Exists_exists. exists 61. split; [apply elem_of_seqZ; vm_compute; split; congruence|].
       cbn [fs_sb]. rewrite Huse by lia. by vm_compute. }
  destruct Hb as (b & t' & V' & E & _ & Hlt & Hfree & Hfirst & _).
  cbn [fs_sb] in Hlt, Hfree, Hfirst. change (sb_size sample_sb) with 1000 in Hlt.
  assert (b = 61) as ->.
  { destruct (decide (b < 61)) as [?|?].
    - rewrite Huse, sample_used in Hfree by lia. done.
    - destruct (decide (b = 61)) as [?|?]; [done|].
      specialize (Hfirst 61 ltac:(lia)). rewrite Huse in Hfirst by lia.
      vm_compute in Hfirst. done. }
  exists (FState t sample_sb []), t'. exact E.
Defined.

(** bfree undoes balloc.  Freeing a block that is in use clears its bit and
    only that; freeing a block that is free already panics. *)
Theorem bfree_releases {St} {B : BlockStore St} {L : BlockLaws St} (s : fstate St) V W b :
  let sb := fs_sb s in
  st_rep (fs_st s) V ∅ W → bitmap_ok sb V → read_superblock (V 1) = sb → 1 < st_size →
  0 ≤ b < sb_size sb → (size W < st_cap)%nat →
  if in_use sb V b then
    ∃ t' V', bfree 1 b s = Done tt (with_st t' s) ∧ st_rep t' V' ∅ ({[BBLOCK b sb]} ∪ W) ∧
      (∀ b', 0 ≤ b' < sb_size sb → in_use sb V' b' = in_use sb V b' && negb (b =? b')) ∧
      ∀ x, x ≠ BBLOCK b sb → V' x = V x
  else bfree 1 b s = Panic "freeing free block".
Proof.
  intros sb Hr Hok Hsb H1 Hb Hsz.
  pose proof (bfree_spec s V ∅ W b Hr Hok Hsb H1 Hb) as Hs.
  specialize (Hs ltac:(intros j x; by rewrite lookup_empty)).
  specialize (Hs ltac:(rewrite map_size_empty; lia)). fold sb in Hs.
  destruct (in_use sb V b); [|done]. destruct Hs as (t' & E & Hr').
  exists t', (freed sb V b). split; [done|]. split; [done|].
  split; [intros; by apply in_use_clear|].
  intros x Hx. unfold freed, bupd. by rewrite (proj2 (Z.eqb_neq _ _)) by done.
Qed.

Lemma bfree_releases_witness :
  ∃ (s : fstate lstate) t', bfree 1 60 s = Done tt (with_st t' s) ∧
    bfree 1 61 s = Panic "freeing free block".
Proof.
  destruct sample_store as (t & V & Hr & HV).
  pose proof (sample_bitmap_ok V HV) as Hok.
  assert (Hsz : sb_size sample_sb = 1000) by (by vm_compute).
  assert (H58 : V 58 = sample_bitmap) by (rewrite HV; [done|apply sample_is_home; lia]).
  assert (H1 : V 1 = sample_superblock).
  { rewrite HV; [done|]. apply sample_is_home. lia. }
  assert (Huse : ∀ b, 0 ≤ b < 1000 → in_use sample_sb V b = bit_set sample_bitmap b).
  { intros b Hlt. unfold in_use. rewrite sample_BBLOCK, H58 by done.
    by rewrite Z.mod_small by (unfold BPB, BSIZE; lia). }
  pose proof (λ b, bfree_releases (L := sample_laws) (FState t sample_sb []) V ∅ b Hr Hok
    ltac:(by rewrite H1) ltac:(by vm_compute)) as Hb.
  cbn [fs_sb] in Hb. rewrite Hsz in Hb.
  pose proof (Hb 60 ltac:(lia) ltac:(vm_compute; lia)) as H60.
  pose proof (Hb 61 ltac:(lia) ltac:(vm_compute; lia)) as H61.
  rewrite Huse in H60, H61 by lia.
  destruct H60 as (t' & V' & E & _). exists (FState t sample_sb []), t'.
  split; [exact E|exact H61].
Defined.
