(* ===== verification/FsInodes.v ===== *)
(** * Inodes of fs.c: the disk format, the inode cache, ilock and iupdate *)

From S2P Require Import Prelude Params CString Core Bio BioSpec BioTheorems Log LogCrash BlockStore Fs FsBlocks.

(** ** The disk format *)

(** Goals on the length of blocks under field updates. *)
Ltac solve_len :=
  match goal with
  | |- context [length (set_field ?o ?n ?z ?l)] =>
      rewrite (length_set_field o n z l); [solve_len|solve_len]
  | _ => lia
  end.

Lemma length_put_addrs o a d :
  (o + 4 * length a ≤ length d)%nat → length (put_addrs o a d) = length d.
Proof.
  revert o d. induction a as [|x a IH]; intros o d H; cbn [put_addrs length] in *; [done|].
  rewrite IH; solve_len.
Qed.

(** Fields outside the addresses written are kept. *)
Lemma field_put_addrs_other o a d q n :
  (o + 4 * length a ≤ length d)%nat → (q + n ≤ o ∨ o + 4 * length a ≤ q)%nat →
  (q + n ≤ length d)%nat → field q n (put_addrs o a d) = field q n d.
Proof.
  revert o d. induction a as [|x a IH]; intros o d H Hq Hn; cbn [put_addrs length] in *; [done|].
  rewrite IH by solve_len. apply field_set_other; lia.
Qed.

Lemma field_put_addrs o a d k x :
  (o + 4 * length a ≤ length d)%nat → a !! k = Some x →
  field (o + 4 * k) 4 (put_addrs o a d) = x mod 2 ^ 32.
Proof.
  revert o d k. induction a as [|y a IH]; intros o d k H Hk; cbn [put_addrs length] in *; [done|].
  destruct k as [|k]; cbn in Hk.
  - injection Hk as ->. rewrite Nat.mul_0_r, Nat.add_0_r.
    rewrite field_put_addrs_other by solve_len.
    rewrite field_set_same by lia. done.
  - replace (o + 4 * S k)%nat with (o + 4 + 4 * k)%nat by lia.
    apply IH; [solve_len|done].
Qed.

(** A disk inode whose fields are in the range of their C types. *)
Record dinode_ok (di : dinode) : Prop := {
  do_type : -32768 ≤ di_type di < 32768;
  do_major : -32768 ≤ di_major di < 32768;
  do_minor : -32768 ≤ di_minor di < 32768;
  do_nlink : -32768 ≤ di_nlink di < 32768;
  do_size : 0 ≤ di_size di < 2 ^ 32;
  do_len : length (di_addrs di) = 13%nat;
  do_addrs : Forall (λ a, 0 ≤ a < 2 ^ 32) (di_addrs di)
}.

Lemma s16_wrap z : -32768 ≤ z < 32768 → s16 (z mod 256 ^ Z.of_nat 2) = z.
Proof.
  intros H. unfold s16, signed. change (256 ^ Z.of_nat 2) with (2 ^ 16).
  rewrite Z.mod_mod by lia. destruct (Z.ltb_spec (z mod 2 ^ 16) (2 ^ (16 - 1))) as [Hlt|Hge].
  - destruct (decide (0 ≤ z)); [by rewrite Z.mod_small by lia|].
    replace z with (z + 2 ^ 16 + (-1) * 2 ^ 16) in Hlt by lia.
    rewrite Z.mod_add, Z.mod_small in Hlt by lia. lia.
  - destruct (decide (0 ≤ z)); [rewrite Z.mod_small in Hge by lia; lia|].
    replace z with (z + 2 ^ 16 + (-1) * 2 ^ 16) at 1 by lia.
    rewrite Z.mod_add, Z.mod_small by lia. lia.
Qed.

(** Where the fields of slot [k] are. *)
Lemma length_put_dinode k di d :
  (64 * S k ≤ length d)%nat → length (di_addrs di) = 13%nat →
  length (put_dinode k di d) = length d.
Proof.
  intros H Hl. unfold put_dinode. rewrite length_put_addrs; rewrite ?Hl; solve_len.
Qed.

Lemma field_put_dinode_other k di d q n :
  (64 * S k ≤ length d)%nat → length (di_addrs di) = 13%nat →
  (q + n ≤ 64 * k ∨ 64 * S k ≤ q)%nat → (q + n ≤ length d)%nat →
  field q n (put_dinode k di d) = field q n d.
Proof.
  intros H Hl Hq Hn. unfold put_dinode.
  rewrite field_put_addrs_other by (rewrite ?Hl; solve_len).
  by rewrite !field_set_other by solve_len.
Qed.

Lemma get_addrs_ext o d d' :
  (∀ k, (k < 13)%nat → field (o + 4 * k) 4 d = field (o + 4 * k) 4 d') →
  get_addrs o d = get_addrs o d'.
Proof.
  intros H. apply list_fmap_ext. intros i k Hk.
  apply list_elem_of_lookup_2, elem_of_seq in Hk. apply H. lia.
Qed.

Lemma get_put_dinode_other k k' di d :
  length d = 512%nat → (k < 8)%nat → (k' < 8)%nat → k ≠ k' → length (di_addrs di) = 13%nat →
  get_dinode k' (put_dinode k di d) = get_dinode k' d.
Proof.
  intros Hd Hk Hk' Hne Hl. unfold get_dinode.
  rewrite !(field_put_dinode_other k) by lia. f_equal.
  apply get_addrs_ext. intros j Hj. apply field_put_dinode_other; lia.
Qed.

Lemma get_put_dinode k di d :
  length d = 512%nat → (k < 8)%nat → dinode_ok di → get_dinode k (put_dinode k di d) = di.
Proof.
  intros Hd Hk [H1 H2 H3 H4 H5 Hl Ha]. unfold get_dinode.
  assert (Hold : ∀ q n, (64 * k ≤ q ∧ q + n ≤ 64 * k + 12)%nat →
    field q n (put_dinode k di d) = field q n
      (set_field (64 * k + 8) 4 (di_size di) (set_field (64 * k + 6) 2 (di_nlink di)
      (set_field (64 * k + 4) 2 (di_minor di) (set_field (64 * k + 2) 2 (di_major di)
      (set_field (64 * k) 2 (di_type di) d)))))).
  { intros q n Hq. unfold put_dinode.
    rewrite field_put_addrs_other; [done|..]; rewrite ?Hl; solve_len. }
  rewrite !Hold by lia.
  rewrite !(field_set_other (64 * k + 8)) by solve_len.
  rewrite !(field_set_other (64 * k + 6)) by solve_len.
  rewrite !(field_set_other (64 * k + 4)) by solve_len.
  rewrite !(field_set_other (64 * k + 2)) by solve_len.
  rewrite !field_set_same by solve_len.
  rewrite !s16_wrap by done. change (256 ^ Z.of_nat 4) with (2 ^ 32).
  rewrite (Z.mod_small (di_size di)) by done.
  replace (get_addrs _ _) with (di_addrs di); [by destruct di|].
  apply list_eq. intros j. unfold get_addrs. rewrite list_lookup_fmap.
  destruct (decide (j < 13)%nat) as [Hj|Hj].
  - rewrite lookup_seq_lt by done. cbn [fmap option_fmap option_map].
    destruct (di_addrs di !! j) as [x|] eqn:Ex; [|apply lookup_ge_None in Ex; lia].
    f_equal. unfold put_dinode. rewrite (field_put_addrs _ _ _ _ x); [..|done].
    + rewrite Z.mod_small; [done|]. by eapply Forall_lookup_1 in Ha.
    + rewrite Hl. solve_len.
  - rewrite lookup_seq_ge by lia. cbn. apply lookup_ge_None. lia.
Qed.

(** ** The inode cache *)
Definition refers (dev inum : Z) (x : inode) : Prop :=
  0 < i_ref x ∧ i_dev x = dev ∧ i_inum x = inum.
#[global] Instance refers_dec dev inum x : Decision (refers dev inum x).
Proof. unfold refers. apply _. Defined.

(** Reference counts are not negative and no inode is cached twice. *)
Record icache_ok (l : list inode) : Prop := {
  ic_len : length l = NINODE;
  ic_ref : Forall (λ x, 0 ≤ i_ref x) l;
  ic_uniq : ∀ dev inum i j x y, l !! i = Some x → l !! j = Some y →
              refers dev inum x → refers dev inum y → i = j
}.

Lemma icache_find_spec dev inum l i e :
  match icache_find dev inum l i e with
  | (true, r) => ∃ k x, r = Some (i + k)%nat ∧ l !! k = Some x ∧ refers dev inum x
  | (false, r) =>
      Forall (λ x, ¬ refers dev inum x) l ∧
      match e with
      | Some _ => r = e
      | None => match r with
                | None => Forall (λ x, i_ref x ≠ 0) l
                | Some j => ∃ k x, j = (i + k)%nat ∧ l !! k = Some x ∧ i_ref x = 0 ∧
                              ∀ k', (k' < k)%nat → ∀ y, l !! k' = Some y → i_ref y ≠ 0
                end
      end
  end.
Proof.
  revert i e. induction l as [|x l IH]; intros i e; cbn [icache_find].
  { split; [done|]. by destruct e. }
  destruct ((0 <? i_ref x) && (i_dev x =? dev) && (i_inum x =? inum)) eqn:E.
  - exists 0%nat, x. rewrite !andb_true_iff, Z.ltb_lt, !Z.eqb_eq in E. unfold refers.
    split; [f_equal; lia|]. split; [done|tauto].
  - assert (Hx : ¬ refers dev inum x).
    { intros (? & ? & ?). rewrite (proj2 (Z.ltb_lt _ _)), !(proj2 (Z.eqb_eq _ _)) in E by done. done. }
    set (e' := match e with Some _ => e | None => if i_ref x =? 0 then Some i else None end).
    specialize (IH (S i) e'). destruct (icache_find dev inum l (S i) e') as [[] r].
    + destruct IH as (k & y & -> & Hk & Hy). exists (S k), y. split; [f_equal; lia|done].
    + destruct IH as [Hall Hr]. split; [by constructor|].
      destruct e as [j|]; [done|]. subst e'.
      destruct (Z.eqb_spec (i_ref x) 0) as [E0|E0].
      * subst r. exists 0%nat, x. split; [lia|]. split; [done|]. split; [done|]. lia.
      * destruct r as [j|]; [|by constructor].
        destruct Hr as (k & y & -> & Hk & Hy & Hb). exists (S k), y. split; [lia|].
        split; [done|]. split; [done|]. intros [|k'] Hk' z Hz; cbn in Hz; [congruence|].
        apply (Hb k'); [lia|done].
Qed.

Lemma icache_ok_incr l ip x :
  icache_ok l → l !! ip = Some x → 0 < i_ref x →
  icache_ok (alter (λ x, set_i_ref (i_ref x + 1) x) ip l).
Proof.
  intros [Hl Hr Hu] Hx Hp. split.
  - by rewrite length_alter.
  - apply Forall_alter; [done|]. intros y _ Hy. cbn in *. lia.
  - intros dev inum i j y z Hi Hj Hy Hz.
    assert (Hback : ∀ k w, alter (λ x, set_i_ref (i_ref x + 1) x) ip l !! k = Some w →
      refers dev inum w → ∃ w', l !! k = Some w' ∧ refers dev inum w').
    { intros k w Hk Hw. destruct (decide (k = ip)) as [->|Hne].
      - rewrite list_lookup_alter_eq, Hx in Hk. injection Hk as <-. exists x. split; [done|].
        unfold refers in *. cbn in Hw. lia.
      - rewrite list_lookup_alter_ne in Hk by done. by exists w. }
    destruct (Hback i y Hi Hy) as (y' & Hi' & Hy'). destruct (Hback j z Hj Hz) as (z' & Hj' & Hz').
    by eapply Hu.
Qed.

(** The entry that iget makes of an unused one. *)
Definition fresh_inode (dev inum : Z) (x : inode) : inode :=
  Inode dev inum 1 (i_lock x) 0 (i_type x) (i_major x) (i_minor x) (i_nlink x) (i_size x) (i_addrs x).

Lemma icache_ok_fresh l ip dev inum :
  icache_ok l → Forall (λ x, ¬ refers dev inum x) l →
  icache_ok (alter (fresh_inode dev inum) ip l).
Proof.
  intros [Hl Hr Hu] Hno. split.
  - by rewrite length_alter.
  - apply Forall_alter; [done|]. intros y _ Hy. cbn. lia.
  - intros dev' inum' i j y z Hi Hj Hy Hz.
    assert (Hcase : ∀ k w, alter (fresh_inode dev inum) ip l !! k = Some w →
      refers dev' inum' w → k = ip ∧ dev' = dev ∧ inum' = inum ∨ k ≠ ip ∧ l !! k = Some w).
    { intros k w Hk Hw. destruct (decide (k = ip)) as [->|Hne].
      - left. rewrite list_lookup_alter_eq in Hk. destruct (l !! ip); [|done].
        injection Hk as <-. destruct Hw as (_ & Hd & Hn). cbn in Hd, Hn. done.
      - right. by rewrite list_lookup_alter_ne in Hk by done. }
    rewrite Forall_lookup in Hno.
    destruct (Hcase i y Hi Hy) as [(-> & -> & ->)|[Hne Hi']],
      (Hcase j z Hj Hz) as [(-> & Hd & Hn)|[Hne' Hj']].
    + done.
    + by destruct (Hno _ _ Hj').
    + subst. by destruct (Hno _ _ Hi').
    + by eapply Hu.
Qed.

Section icache.
Context {St : Type} {B : BlockStore St} {L : BlockLaws St}.
Implicit Types (s : fstate St).

Definition lock_st (l : lockid) s : fstate St :=
  with_st (st_set_core (set_held [l] (st_core (fs_st s))) (fs_st s)) s.

Lemma fs_acquire l s :
  quiet (st_core (fs_st s)) → fs_core (acquire l) s = Done tt (lock_st l s).
Proof.
  intros Hq. unfold fs_core. apply in_st_done. unfold zoom.
  rewrite acquire_ok by auto with kernel. destruct Hq as [Hh _]. by rewrite Hh.
Qed.

(** Releasing after a change of the cache only. *)
Lemma fs_release l s s' :
  quiet (st_core (fs_st s)) → fs_st s' = fs_st (lock_st l s) →
  fs_core (release l) s' = Done tt (FState (fs_st s) (fs_sb s') (fs_icache s')).
Proof.
  intros Hq E. unfold fs_core. erewrite in_st_done; [reflexivity|]. unfold zoom.
  rewrite E. cbn [fs_st lock_st with_st].
  rewrite st_core_set. rewrite (release_head _ []) by (done || apply not_elem_of_nil).
  rewrite st_set_set. rewrite set_held_twice. destruct Hq as [Hh _].
  rewrite <- Hh, set_held_id, st_set_same. done.
Qed.

Lemma iget_cases dev inum s :
  quiet (st_core (fs_st s)) →
  let l := fs_icache s in
  (∃ ip x, l !! ip = Some x ∧ refers dev inum x ∧
     iget dev inum s = Done ip (upd_inode ip (λ x, set_i_ref (i_ref x + 1) x) s)) ∨
  (Forall (λ x, ¬ refers dev inum x) l ∧
     ((∃ ip x, l !! ip = Some x ∧ i_ref x = 0 ∧
         iget dev inum s = Done ip (upd_inode ip (fresh_inode dev inum) s)) ∨
      Forall (λ x, i_ref x ≠ 0) l ∧ iget dev inum s = Panic "iget: no inodes")).
Proof.
  intros Hq l. remember (iget dev inum s) as r eqn:Er. unfold iget in Er.
  rewrite (bind_done _ _ _ _ _ (fs_acquire _ s Hq)) in Er. unfold bind at 1, gets in Er.
  change (fs_icache (lock_st Lk_icache s)) with l in Er.
  pose proof (icache_find_spec dev inum l 0 None) as Hf.
  destruct (icache_find dev inum l 0 None) as [[] o].
  - destruct Hf as (k & x & -> & Hk & Hx). left. exists k, x. split; [done|]. split; [done|].
    unfold bind, modify, upd_inode in Er. cbn [fs_st fs_sb fs_icache lock_st with_st] in Er.
    rewrite (fs_release _ s) in Er by done. exact Er.
  - destruct Hf as [Hno Hf]. right. split; [done|]. destruct o as [j|]; [left|right; done].
    destruct Hf as (k & x & -> & Hk & Hx & _). exists k, x. split; [done|]. split; [done|].
    unfold bind, modify, upd_inode in Er. cbn [fs_st fs_sb fs_icache lock_st with_st] in Er.
    rewrite (fs_release _ s) in Er by done. exact Er.
Qed.

Lemma iput_ref ip s :
  quiet (st_core (fs_st s)) →
  let x := inodep s ip in
  (i_ref x =? 1) && tst (i_flags x) I_VALID && (i_nlink x =? 0) = false →
  iput ip s = Done tt (upd_inode ip (λ x, set_i_ref (i_ref x - 1) x) s).
Proof.
  intros Hq x Hx. unfold iput. rewrite (bind_done _ _ _ _ _ (fs_acquire _ s Hq)).
  unfold bind at 1, gets. change (inodep (lock_st Lk_icache s) ip) with x. rewrite Hx.
  unfold bind, ret, modify, upd_inode. cbn [fs_st fs_sb fs_icache lock_st with_st].
  by rewrite (fs_release _ s).
Qed.

Lemma idup_ref ip s :
  quiet (st_core (fs_st s)) →
  idup ip s = Done ip (upd_inode ip (λ x, set_i_ref (i_ref x + 1) x) s).
Proof.
  intros Hq. unfold idup. rewrite (bind_done _ _ _ _ _ (fs_acquire _ s Hq)).
  unfold bind, ret, modify, upd_inode. cbn [fs_st fs_sb fs_icache lock_st with_st].
  by rewrite (fs_release _ s).
Qed.

(** ** ilock, iunlock, iupdate *)
Definition owned (s : fstate St) : sleeplock := Sleeplock true (cur_pid (st_core (fs_st s))).

Lemma with_ilock_acquire ip s :
  quiet (st_core (fs_st s)) → sl_locked (i_lock (inodep s ip)) = false →
  with_ilock ip (acquiresleep (SL_inode ip)) s = Done tt (upd_inode ip (set_i_lock (owned s)) s).
Proof.
  intros Hq Hl. unfold with_ilock, zoom. rewrite acquiresleep_ok by done. cbn [fst snd].
  by rewrite st_set_same.
Qed.

(** The entry after ilock: locked, and with the content of the disk inode if it
    was not valid before. *)
Definition loaded (sb : superblock) (V : bview) (x : inode) : inode :=
  if tst (i_flags x) I_VALID then x
  else let di := get_dinode (Z.to_nat (i_inum x mod IPB)) (V (IBLOCK (i_inum x) sb)) in
       set_i_flags (Z.lor (i_flags x) I_VALID) (load_dinode di x).

Lemma inodep_upd ip f s :
  (ip < length (fs_icache s))%nat → inodep (upd_inode ip f s) ip = f (inodep s ip).
Proof. intros H. unfold inodep, upd_inode. cbn. by rewrite list_lookup_total_alter_eq. Qed.

Lemma upd_upd ip f g s :
  upd_inode ip f (upd_inode ip g s) = upd_inode ip (λ x, f (g x)) s.
Proof. unfold upd_inode. cbn. by rewrite list_alter_alter_eq. Qed.

Lemma upd_ext ip f g s :
  (f (inodep s ip) = g (inodep s ip)) → upd_inode ip f s = upd_inode ip g s.
Proof.
  intros H. unfold upd_inode. f_equal. apply list_alter_ext; [|done].
  intros x Hx. apply list_lookup_total_correct in Hx. unfold inodep in H. by rewrite Hx in H.
Qed.

Lemma ilock_spec ip s V H W :
  st_rep (fs_st s) V H W → (ip < length (fs_icache s))%nat →
  let x := inodep s ip in let sb := fs_sb s in
  1 ≤ i_ref x → sl_locked (i_lock x) = false →
  i_dev x = 1 → 0 ≤ IBLOCK (i_inum x) sb < st_size → (∀ j, H !! j ≠ Some (IBLOCK (i_inum x) sb)) →
  (size H + size W ≤ st_cap)%nat → i_type (loaded sb V x) ≠ 0 →
  ∃ t', ilock (Some ip) s =
          Done tt (upd_inode ip (λ x, loaded sb V (set_i_lock (owned s) x)) (with_st t' s)) ∧
        st_rep t' V H W.
Proof.
  intros Hr Hip x sb Href Hlk Hdev Hib Hn Hsz Hty. pose proof (st_rep_quiet _ _ _ _ Hr) as Hq.
  set (s1 := upd_inode ip (set_i_lock (owned s)) s).
  assert (Hx1 : inodep s1 ip = set_i_lock (owned s) x) by (by apply inodep_upd).
  unfold ilock. unfold bind at 1, gets at 1. fold x. rewrite (proj2 (Z.ltb_ge (i_ref x) 1)) by lia.
  rewrite (bind_done _ _ _ _ _ (with_ilock_acquire ip s Hq Hlk)). fold s1.
  unfold bind at 1, gets at 1. rewrite Hx1. cbn [i_flags set_i_lock].
  unfold loaded in Hty |- *. cbn [i_flags i_inum set_i_lock].
  destruct (tst (i_flags x) I_VALID) eqn:Ev; cbn [negb].
  - exists (fs_st s). split; [|done]. unfold ret, s1. f_equal. unfold with_st. destruct s.
    apply upd_ext. cbn. fold x. by rewrite Ev.
  - unfold bind at 1, gets at 1. cbn [i_dev i_inum set_i_lock fs_sb s1 upd_inode]. fold sb.
    rewrite Hdev.
    destruct (block_read s1 V H W _ Hr Hib Hn Hsz) as (i & t1 & E1 & E1' & Hi & Hr1).
    rewrite (bind_done _ _ _ _ _ E1), (bind_done _ _ _ _ _ E1').
    set (di := get_dinode _ _) in *. cbn [i_type set_i_flags load_dinode] in Hty.
    unfold bind at 1, modify at 1.
    destruct (block_release (upd_inode ip (load_dinode di) (with_st t1 s1)) V H W i _ Hr1 Hi)
      as (t2 & E2 & Hr2).
    rewrite (bind_done _ _ _ _ _ E2). unfold bind, modify.
    rewrite (proj2 (Z.eqb_neq _ _)) by done. exists t2. split; [|done]. unfold ret. f_equal.
    change (with_st t2 (upd_inode ip (load_dinode di) (with_st t1 s1)))
      with (upd_inode ip (load_dinode di) (upd_inode ip (set_i_lock (owned s)) (with_st t2 s))).
    rewrite !upd_upd. apply upd_ext. change (inodep (with_st t2 s) ip) with x.
    cbn [i_flags set_i_lock]. by rewrite Ev.
Qed.

Lemma iupdate_spec ip s V H W :
  st_rep (fs_st s) V H W →
  let x := inodep s ip in let ib := IBLOCK (i_inum x) (fs_sb s) in
  i_dev x = 1 → st_home ib → (∀ j, H !! j ≠ Some ib) → (size H + size W < st_cap)%nat →
  ∃ t', iupdate ip s = Done tt (with_st t' s) ∧
    st_rep t' (bupd ib (put_dinode (Z.to_nat (i_inum x mod IPB)) (inode_dinode x) (V ib)) V)
      H ({[ib]} ∪ W).
Proof.
  intros Hr x ib Hdev Hib Hn Hsz. unfold iupdate. unfold bind at 1 2, gets. fold x. fold ib.
  rewrite Hdev.
  destruct (block_read s V H W ib Hr) as (i & t1 & E1 & E1' & Hi & Hr1);
    [by apply st_home_range|done|lia|].
  rewrite (bind_done _ _ _ _ _ E1), (bind_done _ _ _ _ _ E1').
  destruct (block_update (with_st t1 s) _ _ _ i ib
      (put_dinode (Z.to_nat (i_inum x mod IPB)) (inode_dinode x) (V ib)) Hr1 (lookup_insert_eq _ _ _) Hib)
    as (t2 & E2 & Hr2); [lia|].
  rewrite (bind_done _ _ _ _ _ E2).
  destruct (block_release (with_st t2 s) _ _ _ i ib Hr2 Hi) as (t3 & E3 & Hr3).
  exists t3. split; [exact E3|done].
Qed.

(** iunlock gives the lock back and wakes its waiters. *)
Lemma iunlock_spec ip s V H W :
  st_rep (fs_st s) V H W → 1 ≤ i_ref (inodep s ip) → sl_locked (i_lock (inodep s ip)) = true →
  ∃ t', iunlock (Some ip) s = Done tt (upd_inode ip (set_i_lock (Sleeplock false 0)) (with_st t' s)) ∧
        st_rep t' V H W.
Proof.
  intros Hr Href Hlk. pose proof (st_rep_quiet _ _ _ _ Hr) as Hq. unfold iunlock.
  assert (E : with_ilock ip (holdingsleep (SL_inode ip)) s = Done true s).
  { unfold with_ilock, zoom. rewrite holdingsleep_ok by done. rewrite Hlk. cbn [fst snd].
    rewrite st_set_same. f_equal. destruct s as [t sb ic]. unfold upd_inode, inodep. cbn. f_equal.
    apply list_eq. intros j. destruct (decide (j = ip)) as [->|Hj].
    - rewrite list_lookup_alter_eq. destruct (ic !! ip) as [y|] eqn:Ey; [|done]. cbn.
      rewrite (list_lookup_total_correct _ _ _ Ey). by destruct y.
    - by rewrite list_lookup_alter_ne. }
  rewrite (bind_done _ _ _ _ _ E). unfold bind, gets.
  rewrite (proj2 (Z.ltb_ge _ _)) by lia. cbn [negb orb].
  unfold with_ilock, zoom. rewrite releasesleep_ok by done. cbn [fst snd].
  eexists. split; [done|]. apply st_rep_core; [done|]. by apply quiet_woken.
Qed.
End icache.

(** ** Properties *)

(** iget keeps the inode cache consistent.  If the inode is cached it
    returns that entry with one reference more; otherwise it takes an entry
    without references and gives it the inode's number, one reference and no
    valid content; it panics only when every entry is referenced.  In every case
    no inode is cached twice and no reference count is negative. *)
Theorem iget_unique {St} {B : BlockStore St} {L : BlockLaws St} (s : fstate St) dev inum :
  quiet (st_core (fs_st s)) → icache_ok (fs_icache s) →
  (∃ ip s', iget dev inum s = Done ip s' ∧ icache_ok (fs_icache s') ∧
     fs_st s' = fs_st s ∧ (ip < NINODE)%nat ∧ refers dev inum (inodep s' ip) ∧
     i_ref (inodep s' ip) = i_ref (inodep s ip) + 1 ∧
     (¬ refers dev inum (inodep s ip) → i_flags (inodep s' ip) = 0) ∧
     (∀ j, j ≠ ip → inodep s' j = inodep s j)) ∨
  (iget dev inum s = Panic "iget: no inodes" ∧
     Forall (λ x, 0 < i_ref x ∧ ¬ refers dev inum x) (fs_icache s)).
Proof.
  intros Hq Hok. pose proof (ic_len _ Hok) as Hlen.
  destruct (iget_cases dev inum s Hq) as [(ip & x & Hx & Href & E)|[Hno [(ip & x & Hx & Href & E)|[Hall E]]]].
  - left. assert (Hip : (ip < length (fs_icache s))%nat) by (by eapply lookup_lt_Some).
    assert (Ex : inodep s ip = x) by (by apply list_lookup_total_correct).
    eexists ip, _. split; [exact E|]. rewrite inodep_upd, Ex by done.
    split; [eapply icache_ok_incr; [done|done|apply Href]|]. split; [done|]. split; [lia|].
    unfold refers in *. cbn. split; [lia|]. split; [done|]. split; [tauto|].
    intros j Hj. unfold inodep, upd_inode. cbn. by rewrite list_lookup_total_alter_ne.
  - left. assert (Hip : (ip < length (fs_icache s))%nat) by (by eapply lookup_lt_Some).
    assert (Ex : inodep s ip = x) by (by apply list_lookup_total_correct).
    eexists ip, _. split; [exact E|]. rewrite inodep_upd, Ex by done.
    split; [by apply icache_ok_fresh|]. split; [done|]. split; [lia|].
    unfold refers, fresh_inode. cbn. split; [lia|]. split; [lia|]. split; [done|].
    intros j Hj. unfold inodep, upd_inode. cbn. by rewrite list_lookup_total_alter_ne.
  - right. split; [done|]. pose proof (ic_ref _ Hok) as Hr. rewrite Forall_lookup in Hr, Hall, Hno |- *.
    intros i x Hx. specialize (Hr i x Hx). specialize (Hall i x Hx). cbn in *.
    split; [lia|]. by apply (Hno i).
Qed.

Lemma icache_ok_empty : icache_ok (replicate NINODE inode0).
Proof.
  split; [done| |].
  - apply Forall_replicate. done.
  - intros dev inum i j x y Hi _ (Hp & _) _. apply lookup_replicate in Hi as [-> _]. done.
Qed.

Lemma iget_unique_witness :
  ∃ (s s' : fstate lstate) ip, iget 1 7 s = Done ip s' ∧ icache_ok (fs_icache s') ∧
    refers 1 7 (inodep s' ip) ∧ i_ref (inodep s' ip) = 1.
Proof.
  destruct sample_store as (t & V & Hr & _).
  pose proof (st_rep_quiet (BlockLaws := sample_laws) _ _ _ _ Hr) as Hq.
  destruct (iget_unique (L := sample_laws) (FState t sample_sb (replicate NINODE inode0)) 1 7
              Hq icache_ok_empty) as [(ip & s' & E & Hok & _ & Hip & Hrf & Href & _)|[_ Hall]].
  - eexists _, s', ip. split; [exact E|]. split; [exact Hok|]. split; [exact Hrf|].
    rewrite Href. unfold inodep. cbn [fs_icache]. by rewrite lookup_total_replicate_2.
  - exfalso. apply (Forall_lookup_1 _ _ 0%nat inode0) in Hall; [|done]. destruct Hall. done.
Defined.

(** an inode written by iupdate is the inode that a later ilock reads.  The
    disk slot of another inode number keeps its content, so that it does not
    matter what else is in the block. *)
Theorem iupdate_ilock {St} {B : BlockStore St} {L : BlockLaws St} (s : fstate St) V W ip :
  let x := inodep s ip in let sb := fs_sb s in let ib := IBLOCK (i_inum x) sb in
  st_rep (fs_st s) V ∅ W → (size W < st_cap)%nat →
  i_dev x = 1 → st_home ib → length (V ib) = 512%nat →
  dinode_ok (inode_dinode x) → i_type x ≠ 0 →
  ∃ t1 V1, iupdate ip s = Done tt (with_st t1 s) ∧ st_rep t1 V1 ∅ ({[ib]} ∪ W) ∧
    (∀ k, (k < 8)%nat → k ≠ Z.to_nat (i_inum x mod IPB) →
          get_dinode k (V1 ib) = get_dinode k (V ib)) ∧
    ∀ ic jp, (jp < length ic)%nat → refers 1 (i_inum x) (ic !!! jp) →
      sl_locked (i_lock (ic !!! jp)) = false → i_flags (ic !!! jp) = 0 →
      ∃ s3, ilock (Some jp) (FState t1 sb ic) = Done tt s3 ∧
        inode_dinode (inodep s3 jp) = inode_dinode x ∧
        sl_locked (i_lock (inodep s3 jp)) = true ∧ i_flags (inodep s3 jp) = I_VALID.
Proof.
  intros x sb ib Hr Hsz Hdev Hib Hlen Hdi Hty.
  destruct (iupdate_spec ip s V ∅ W Hr Hdev Hib) as (t1 & E1 & Hr1);
    [intros j; by rewrite lookup_empty|rewrite map_size_empty; lia|].
  fold x sb ib in Hr1. set (k0 := Z.to_nat (i_inum x mod IPB)) in *.
  set (V1 := bupd ib (put_dinode k0 (inode_dinode x) (V ib)) V) in *.
  assert (HV1 : V1 ib = put_dinode k0 (inode_dinode x) (V ib)) by (unfold V1, bupd; by rewrite Z.eqb_refl).
  assert (Hk0 : (k0 < 8)%nat) by (unfold k0; change IPB with 8; pose proof (Z.mod_pos_bound (i_inum x) 8); lia).
  exists t1, V1. split; [done|]. split; [done|]. split.
  { intros k Hk Hne. rewrite HV1. apply get_put_dinode_other; try done. apply Hdi. }
  intros ic jp Hjp (Hrf & Hd2 & Hi2) Hlk Hfl.
  assert (Hget : get_dinode k0 (V1 ib) = inode_dinode x) by (rewrite HV1; by apply get_put_dinode).
  set (y := ic !!! jp) in *.
  assert (Hld : ∀ l, loaded sb V1 (set_i_lock l y) =
    set_i_flags I_VALID (load_dinode (inode_dinode x) (set_i_lock l y))).
  { intros l. unfold loaded. cbn [i_flags i_inum set_i_lock]. rewrite Hfl, Hi2.
    fold ib. fold k0. rewrite Hget. done. }
  set (s2 := FState t1 sb ic). assert (Hy : inodep s2 jp = y) by done.
  destruct (ilock_spec jp s2 V1 ∅ ({[ib]} ∪ W) Hr1 Hjp) as (t' & E & _);
    rewrite ?Hy, ?Hi2; try done.
  - lia.
  - by apply st_home_range.
  - assert (Hsu := size_union_alt ({[ib]} : gset Z) W). rewrite size_singleton in Hsu.
    assert ((size (W ∖ {[ib]}) ≤ size W)%nat) by (apply subseteq_size; set_solver).
    rewrite map_size_empty. lia.
  - specialize (Hld (i_lock y)).
    replace (set_i_lock (i_lock y) y) with y in Hld by (by destruct y). cbn [fs_sb s2]. by rewrite Hld.
  - eexists. split; [exact E|]. rewrite inodep_upd by done.
    change (inodep (with_st t' s2) jp) with y. cbn [fs_sb s2]. rewrite Hld.
    split; [by destruct x|]. done.
Qed.

Definition sample_inode : inode :=
  Inode 1 2 1 (Sleeplock true 1) 2 T_FILE 0 0 1 100 (60 :: replicate 12 0).

Lemma sample_inode_ok : dinode_ok (inode_dinode sample_inode).
Proof. split; cbn; unfold T_FILE; try lia. repeat (constructor; [lia|]). constructor. Qed.

Lemma iupdate_ilock_witness :
  ∃ (t t1 : lstate) s3, iupdate 0 (FState t sample_sb [sample_inode]) =
      Done tt (FState t1 sample_sb [sample_inode]) ∧
    ilock (Some 0%nat) (FState t1 sample_sb [Inode 1 2 1 (Sleeplock false 0) 0 0 0 0 0 0 []])
      = Done tt s3 ∧
    i_size (inodep s3 0) = 100.
Proof.
  destruct sample_store as (t & V & Hr & HV).
  destruct (iupdate_ilock (L := sample_laws) (FState t sample_sb [sample_inode]) V ∅ 0 Hr)
    as (t1 & V1 & E1 & _ & _ & Hlock).
  - vm_compute. lia.
  - done.
  - apply sample_home. vm_compute. split; congruence.
  - change (IBLOCK _ _) with 32. rewrite HV by (apply sample_is_home; lia). by vm_compute.
  - exact sample_inode_ok.
  - done.
  - destruct (Hlock [Inode 1 2 1 (Sleeplock false 0) 0 0 0 0 0 0 []] 0%nat) as (s3 & E3 & Hd & _);
      [cbn; lia|done|done|done|].
    exists t, t1, s3. split; [exact E1|]. split; [exact E3|].
    change (i_size (inodep s3 0)) with (di_size (inode_dinode (inodep s3 0))). rewrite Hd. done.
Defined.
