(* ===== verification/FsFiles.v ===== *)
(** * File contents: bmap, readi and writei of fs.c

    The content of a file is what its block map gives: [addr V x bn] is the disk
    block of file block [bn], through the direct or the indirect part of the
    inode.  bmap extends the map, writei the content, readi returns it. *)

From S2P Require Import Prelude Params CString Core Bio BioSpec BioTheorems Log LogCrash BlockStore Fs FsBlocks FsInodes.

(** ** The block map of an inode *)
Definition indirect (x : inode) : Z := i_addrs x !!! 12%nat.

Definition addr (V : bview) (x : inode) (bn : Z) : Z :=
  if bn <? 12 then i_addrs x !!! Z.to_nat bn
  else if indirect x =? 0 then 0
  else field (4 * Z.to_nat (bn - 12)) 4 (V (indirect x)).

(** Byte [o] of the file. *)
Definition fbyte (V : bview) (x : inode) (o : Z) : Z :=
  V (addr V x (o / BSIZE)) !!! Z.to_nat (o mod BSIZE).

Definition content (V : bview) (x : inode) : list Z := fbyte V x <$> seqZ 0 (i_size x).

(** The blocks of the bitmap. *)
Definition bitmap_blocks (sb : superblock) : gset Z :=
  list_to_set ((λ b, BBLOCK b sb) <$> seqZ 0 (sb_size sb)).

Lemma elem_of_bitmap_blocks sb y :
  y ∈ bitmap_blocks sb ↔ ∃ b, 0 ≤ b < sb_size sb ∧ y = BBLOCK b sb.
Proof.
  unfold bitmap_blocks. rewrite elem_of_list_to_set, list_elem_of_fmap. split.
  - intros (b & -> & Hb). apply elem_of_seqZ in Hb. exists b. split; [lia|done].
  - intros (b & Hb & ->). exists b. split; [done|]. apply elem_of_seqZ. lia.
Qed.

(** Free blocks of the disk. *)
Definition nfree (sb : superblock) (V : bview) : nat :=
  length (filter (λ b, in_use sb V b = false) (seqZ 0 (sb_size sb))).

Lemma nfree_ext sb V V' :
  (∀ b, 0 ≤ b < sb_size sb → in_use sb V b = in_use sb V' b) → nfree sb V = nfree sb V'.
Proof.
  intros H. unfold nfree. f_equal.
  assert (Hgen : ∀ l : list Z, (∀ y, y ∈ l → 0 ≤ y < sb_size sb) →
    filter (λ b, in_use sb V b = false) l = filter (λ b, in_use sb V' b = false) l).
  { intros l. induction l as [|y l IH]; intros Hin; [done|].
    rewrite !filter_cons, (H y) by (apply Hin, list_elem_of_here).
    rewrite IH by (intros z Hz; by apply Hin, list_elem_of_further). done. }
  apply Hgen. intros y Hy. apply elem_of_seqZ in Hy. lia.
Qed.

Lemma nfree_allocated sb V V' b :
  0 ≤ b < sb_size sb → in_use sb V b = false →
  (∀ b', 0 ≤ b' < sb_size sb → in_use sb V' b' = in_use sb V b' || (b =? b')) →
  nfree sb V = S (nfree sb V').
Proof.
  intros Hb Hf Huse. unfold nfree.
  assert (Hgen : ∀ l : list Z, NoDup l → (∀ y, y ∈ l → 0 ≤ y < sb_size sb) →
    length (filter (λ y, in_use sb V y = false) l) =
    (length (filter (λ y, in_use sb V' y = false) l) + (if decide (b ∈ l) then 1 else 0))%nat).
  { intros l. induction l as [|y l IH]; intros Hnd Hin.
    { rewrite decide_False; [done|apply not_elem_of_nil]. }
    apply NoDup_cons in Hnd as [Hy Hnd].
    assert (Hyr : 0 ≤ y < sb_size sb) by (apply Hin; by left).
    rewrite !filter_cons, (Huse y Hyr). specialize (IH Hnd (λ z Hz, Hin z (list_elem_of_further _ _ _ Hz))).
    destruct (decide (y = b)) as [->|Hne].
    - rewrite Hf, Z.eqb_refl. cbn [orb]. rewrite decide_True by done. rewrite decide_False by done.
      cbn [length]. rewrite IH, decide_False, decide_True by (done || apply list_elem_of_here). lia.
    - rewrite (proj2 (Z.eqb_neq b y)) by done. rewrite orb_false_r.
      assert (Hiff : b ∈ y :: l ↔ b ∈ l) by (rewrite elem_of_cons; naive_solver).
      rewrite (decide_ext _ _ _ _ Hiff). destruct (decide (in_use sb V y = false)); cbn [length]; lia. }
  rewrite (Hgen (seqZ 0 (sb_size sb))).
  - rewrite decide_True; [lia|]. apply elem_of_seqZ. lia.
  - apply NoDup_seqZ.
  - intros y Hy. apply elem_of_seqZ in Hy. lia.
Qed.

Lemma nfree_exists sb V : (0 < nfree sb V)%nat → ∃ b, 0 ≤ b < sb_size sb ∧ in_use sb V b = false.
Proof.
  unfold nfree. intros H. destruct (filter _ _) as [|b l] eqn:E; [cbn in H; lia|].
  assert (Hb : b ∈ filter (λ b, in_use sb V b = false) (seqZ 0 (sb_size sb)))
    by (rewrite E; apply list_elem_of_here).
  apply list_elem_of_filter in Hb as [Hf Hb]. apply elem_of_seqZ in Hb. exists b. split; [lia|done].
Qed.

Section files.
Context {St : Type} {B : BlockStore St} {L : BlockLaws St}.
Variable sb : superblock.
Implicit Types (s : fstate St) (V : bview) (W : gset Z) (x : inode).

(** A block that holds data or block numbers of a file. *)
Record file_block V (ib a : Z) : Prop := {
  fb_range : 0 ≤ a < sb_size sb;
  fb_home : st_home a;
  fb_used : in_use sb V a = true;
  fb_bitmap : a ∉ bitmap_blocks sb;
  fb_ib : a ≠ ib;
  fb_len : length (V a) = 512%nat
}.

(** The invariant of an inode in use: its map leads to distinct blocks of its
    own. [ib] is the block the inode itself is in. *)
Record file_inv V (ib : Z) x : Prop := {
  fi_bitmap : bitmap_ok sb V;
  fi_sb : 0 < sb_size sb ≤ 2 ^ 32;
  fi_zero : in_use sb V 0 = true;
  fi_dev : i_dev x = 1;
  fi_len : length (i_addrs x) = 13%nat;
  fi_ib : 0 ≤ ib < sb_size sb → in_use sb V ib = true;
  fi_ib_bm : ib ∉ bitmap_blocks sb;
  fi_ib_nonzero : ib ≠ 0;
  fi_ind : indirect x ≠ 0 → file_block V ib (indirect x);
  fi_addr bn : 0 ≤ bn < 140 → addr V x bn ≠ 0 → file_block V ib (addr V x bn) ∧
                 addr V x bn ≠ indirect x;
  fi_inj bn bn' : 0 ≤ bn < 140 → 0 ≤ bn' < 140 → addr V x bn ≠ 0 →
                    addr V x bn = addr V x bn' → bn = bn'
}.

Lemma not_bitmap y : y ∉ bitmap_blocks sb → ∀ b, 0 ≤ b < sb_size sb → y ≠ BBLOCK b sb.
Proof. intros Hy b Hb ->. apply Hy, elem_of_bitmap_blocks. eauto. Qed.

(** What a newly allocated block is, and what allocation keeps. *)
Section alloc.
Variables (V : bview) (ib : Z) (x : inode) (b : Z).
Hypothesis Hinv : file_inv V ib x.
Hypothesis Hb : 0 ≤ b < sb_size sb.
Hypothesis Hfree : in_use sb V b = false.

Lemma new_home : st_home b ∧ b ∉ bitmap_blocks sb.
Proof.
  destruct (bm_free _ _ (fi_bitmap _ _ _ Hinv) b Hb Hfree) as [Hh Hne]. split; [done|].
  rewrite elem_of_bitmap_blocks. intros (b' & Hb' & ->). by apply (Hne b').
Qed.

Lemma new_not_zero : b ≠ 0.
Proof. intros ->. pose proof (fi_zero _ _ _ Hinv). congruence. Qed.

Lemma new_not_used a : (0 ≤ a < sb_size sb → in_use sb V a = true) → a ≠ b.
Proof. intros Ha ->. rewrite Ha in Hfree by done. done. Qed.

Lemma allocated_new : allocated sb V b b = replicate 512 0.
Proof. unfold allocated, bupd. by rewrite Z.eqb_refl. Qed.

Lemma allocated_same y : y ∉ bitmap_blocks sb → y ≠ b → allocated sb V b y = V y.
Proof.
  intros Hy Hne. unfold allocated, bupd. rewrite (proj2 (Z.eqb_neq y b)) by done.
  rewrite (proj2 (Z.eqb_neq _ _)); [done|]. by apply not_bitmap.
Qed.

Lemma allocated_use y :
  0 ≤ y < sb_size sb → in_use sb (allocated sb V b) y = in_use sb V y || (b =? y).
Proof. intros Hy. apply allocated_in_use; try done. apply Hinv. Qed.

Lemma allocated_file_block a :
  file_block V ib a → file_block (allocated sb V b) ib a ∧ allocated sb V b a = V a.
Proof.
  intros [H1 H2 H3 H4 H5 H6].
  assert (E : allocated sb V b a = V a) by (apply allocated_same; [done|]; by apply new_not_used).
  split; [|done]. split; try done.
  - by rewrite allocated_use, H3.
  - by rewrite E.
Qed.

Lemma new_file_block : file_block (allocated sb V b) ib b.
Proof.
  destruct new_home as [Hh Hnb]. split; try done.
  - by rewrite allocated_use, Z.eqb_refl, orb_true_r.
  - apply not_eq_sym. apply new_not_used. apply Hinv.
  - by rewrite allocated_new.
Qed.

Lemma allocated_indirect : indirect x ≠ 0 → allocated sb V b (indirect x) = V (indirect x).
Proof. intros Hi. apply allocated_file_block. by apply (fi_ind _ _ _ Hinv). Qed.

(** The map does not change when a block is allocated. *)
Lemma allocated_addr bn : addr (allocated sb V b) x bn = addr V x bn.
Proof.
  unfold addr. destruct (bn <? 12); [done|].
  destruct (Z.eqb_spec (indirect x) 0) as [|Hne]; [done|]. by rewrite allocated_indirect.
Qed.

Lemma allocated_inv : file_inv (allocated sb V b) ib x.
Proof.
  pose proof (fi_bitmap _ _ _ Hinv) as Hbm. split; try apply Hinv.
  - by apply bitmap_ok_allocated.
  - rewrite allocated_use by (pose proof (fi_sb _ _ _ Hinv); lia). by rewrite (fi_zero _ _ _ Hinv).
  - intros Hib. rewrite allocated_use by done. by rewrite (fi_ib _ _ _ Hinv).
  - intros Hi. apply allocated_file_block. by apply Hinv.
  - intros bn Hbn. rewrite allocated_addr. intros Ha.
    destruct (fi_addr _ _ _ Hinv bn Hbn Ha) as [Hf Hne]. split; [|done].
    by apply allocated_file_block.
  - intros bn bn'. rewrite !allocated_addr. apply Hinv.
Qed.

Lemma new_not_addr k : 0 ≤ k < 140 → addr V x k ≠ b.
Proof.
  intros Hk. destruct (decide (addr V x k = 0)) as [->|Ha]; [apply not_eq_sym, new_not_zero|].
  apply new_not_used. intros _. by apply (fi_addr _ _ _ Hinv k Hk).
Qed.

Lemma new_not_indirect : indirect x ≠ b.
Proof.
  destruct (decide (indirect x = 0)) as [->|Ha]; [apply not_eq_sym, new_not_zero|].
  apply new_not_used. intros _. by apply (fi_ind _ _ _ Hinv).
Qed.

(** *** The three ways bmap extends the map *)

(** Any state in which exactly file block [bn] has become [b]. *)
Lemma map_inv V' x' bn :
  file_inv V ib x → file_inv (allocated sb V b) ib x →
  (∀ y, 0 ≤ y < sb_size sb → in_use sb V' y = in_use sb (allocated sb V b) y) →
  bitmap_ok sb V' → i_dev x' = 1 → length (i_addrs x') = 13%nat → indirect x' = indirect x →
  (∀ k, 0 ≤ k < 140 → addr V' x' k = if k =? bn then b else addr V x k) →
  (∀ y, length (V' y) = length (allocated sb V b y)) →
  file_inv V' ib x'.
Proof.
  intros _ Hinv' Huse Hbm Hdev Hlen Hind Haddr Hlens.
  assert (Hfb : ∀ a, file_block (allocated sb V b) ib a → file_block V' ib a).
  { intros a [H1 H2 H3 H4 H5 H6]. split; try done; [by rewrite Huse|by rewrite Hlens]. }
  assert (H0 := fi_sb _ _ _ Hinv). split; try done; try apply Hinv.
  - rewrite Huse by lia. apply Hinv'.
  - intros Hib. rewrite Huse by done. by apply Hinv'.
  - rewrite Hind. intros Hi. by apply Hfb, Hinv'.
  - intros k Hk. rewrite Haddr, Hind by done. destruct (Z.eqb_spec k bn) as [->|Hne].
    + intros _. split; [by apply Hfb, new_file_block|]. apply not_eq_sym, new_not_indirect.
    + intros Ha. destruct (fi_addr _ _ _ Hinv k Hk Ha) as [Hf Hi]. split; [|done].
      by apply Hfb, allocated_file_block.
  - intros k k' Hk Hk'. rewrite !Haddr by done.
    destruct (Z.eqb_spec k bn) as [->|Hne], (Z.eqb_spec k' bn) as [->|Hne']; [done|..].
    + intros _ E. by destruct (new_not_addr k' Hk').
    + intros _ E. by destruct (new_not_addr k Hk).
    + by apply Hinv.
Qed.

Lemma map_direct bn :
  0 ≤ bn < 12 → addr V x bn = 0 →
  let x' := set_i_addr (Z.to_nat bn) b x in let V' := allocated sb V b in
  file_inv V' ib x' ∧ indirect x' = indirect x ∧
  ∀ k, 0 ≤ k < 140 → addr V' x' k = if k =? bn then b else addr V x k.
Proof.
  intros Hbn H0 x' V'. pose proof (fi_len _ _ _ Hinv) as Hl.
  assert (Hind : indirect x' = indirect x).
  { unfold indirect, x'. cbn. apply list_lookup_total_insert_ne. lia. }
  assert (Haddr : ∀ k, 0 ≤ k < 140 → addr V' x' k = if k =? bn then b else addr V x k).
  { intros k Hk. rewrite <- (allocated_addr k). unfold addr. rewrite Hind.
    destruct (Z.eqb_spec k bn) as [->|Hne].
    - rewrite (proj2 (Z.ltb_lt bn 12)) by lia. unfold x'. cbn.
      apply list_lookup_total_insert_eq. lia.
    - destruct (Z.ltb_spec k 12); [|done]. unfold x'. cbn.
      apply list_lookup_total_insert_ne. lia. }
  split; [|done]. apply (map_inv V' x' bn); try done.
  - apply allocated_inv.
  - apply bitmap_ok_allocated; [apply Hinv|done|done].
  - apply Hinv.
  - unfold x'. cbn. by rewrite length_insert.
Qed.

Lemma field_zero_block o n : field o n (replicate 512 0) = 0.
Proof.
  unfold field, slice. rewrite drop_replicate, take_replicate.
  generalize (n `min` (512 - o))%nat. intros m. induction m as [|m IH]; [done|]. cbn. lia.
Qed.

(** A new indirect block: no file block changes. *)
Lemma map_indirect :
  indirect x = 0 →
  let x' := set_i_addr 12 b x in let V' := allocated sb V b in
  file_inv V' ib x' ∧ indirect x' = b ∧ ∀ k, 0 ≤ k < 140 → addr V' x' k = addr V x k.
Proof.
  intros H0 x' V'. pose proof (fi_len _ _ _ Hinv) as Hl. pose proof allocated_inv as Hinv'.
  assert (Hind : indirect x' = b).
  { unfold indirect, x'. cbn. apply list_lookup_total_insert_eq. lia. }
  assert (Haddr : ∀ k, 0 ≤ k < 140 → addr V' x' k = addr V x k).
  { intros k Hk. unfold addr. rewrite Hind, H0, Z.eqb_refl.
    destruct (Z.ltb_spec k 12).
    - unfold x'. cbn. apply list_lookup_total_insert_ne. lia.
    - rewrite (proj2 (Z.eqb_neq b 0)) by apply new_not_zero. unfold V'.
      rewrite allocated_new. apply field_zero_block. }
  split; [|done]. split; try apply Hinv'.
  - unfold x'. cbn. by rewrite length_insert.
  - rewrite Hind. intros _. apply new_file_block.
  - intros k Hk. rewrite Haddr, Hind by done. intros Ha. split; [|by apply new_not_addr].
    apply allocated_file_block. by apply Hinv.
  - intros k k' Hk Hk'. rewrite !Haddr by done. by apply Hinv.
Qed.

Lemma bitmap_ok_other V0 y d :
  bitmap_ok sb V0 → y ∉ bitmap_blocks sb → bitmap_ok sb (bupd y d V0).
Proof.
  intros Hok Hy. split; try apply Hok.
  - intros k Hk. unfold bupd. rewrite (proj2 (Z.eqb_neq _ _)); [by apply Hok|].
    apply not_eq_sym. by apply not_bitmap.
  - intros k Hk. rewrite in_use_other; [by apply Hok| |done]. by apply not_bitmap.
Qed.

(** An entry of the indirect block. *)
Lemma map_entry bn :
  12 ≤ bn < 140 → indirect x ≠ 0 → addr V x bn = 0 →
  let V' := bupd (indirect x) (set_field (4 * Z.to_nat (bn - 12)) 4 b (V (indirect x)))
                 (allocated sb V b) in
  file_inv V' ib x ∧ ∀ k, 0 ≤ k < 140 → addr V' x k = if k =? bn then b else addr V x k.
Proof.
  intros Hbn Hi H0 V'. pose proof allocated_inv as Hinv'.
  destruct (fi_ind _ _ _ Hinv Hi) as [Hr Hh Hu Hnb Hib Hlen].
  assert (HVi : V' (indirect x) = set_field (4 * Z.to_nat (bn - 12)) 4 b (V (indirect x)))
    by (unfold V', bupd; by rewrite Z.eqb_refl).
  assert (Haddr : ∀ k, 0 ≤ k < 140 → addr V' x k = if k =? bn then b else addr V x k).
  { intros k Hk. unfold addr. destruct (Z.ltb_spec k 12) as [Hlt|Hge].
    { rewrite (proj2 (Z.eqb_neq k bn)) by lia. done. }
    rewrite (proj2 (Z.eqb_neq (indirect x) 0)) by done. rewrite HVi.
    destruct (Z.eqb_spec k bn) as [->|Hne].
    - rewrite field_set_same by lia. change (256 ^ Z.of_nat 4) with (2 ^ 32).
      apply Z.mod_small. pose proof (fi_sb _ _ _ Hinv). lia.
    - apply field_set_other; lia. }
  split; [|done]. apply (map_inv V' x bn); try done; try apply Hinv.
  - intros y Hy. unfold V'. apply in_use_other; [|done]. by apply not_bitmap.
  - apply bitmap_ok_other; [apply Hinv'|done].
  - intros y. unfold V', bupd. destruct (Z.eqb_spec y (indirect x)) as [->|]; [|done].
    rewrite allocated_indirect by done. apply length_set_field. lia.
Qed.
End alloc.

(** ** bmap *)

(** Free blocks, but for one kept for the indirect block. *)
Definition room V x : Z := Z.of_nat (nfree sb V) - (if indirect x =? 0 then 1 else 0).

(** Blocks of the transaction, with the bitmap and an indirect block in it. *)
Definition map_blocks x : gset Z :=
  bitmap_blocks sb ∪ (if indirect x =? 0 then ∅ else {[indirect x]}).
Definition cost W x : nat :=
  (size (map_blocks x ∪ W) + (if (indirect x =? 0)%Z then 1 else 0))%nat.

Definition set_inode (ip : nat) (x : inode) s : fstate St := upd_inode ip (λ _, x) s.

Lemma set_inode_same ip s : (ip < length (fs_icache s))%nat → set_inode ip (inodep s ip) s = s.
Proof.
  intros Hip. unfold set_inode, upd_inode, inodep. destruct s as [t sb0 ic]. cbn in *. f_equal.
  apply list_eq. intros j. destruct (decide (j = ip)) as [->|Hj].
  - rewrite list_lookup_alter_eq. destruct (ic !! ip) as [y|] eqn:Ey; [|done]. cbn.
    by rewrite (list_lookup_total_correct _ _ _ Ey).
  - by rewrite list_lookup_alter_ne.
Qed.

Lemma size_add (X : gset Z) a : (size ({[a]} ∪ X) ≤ size X + 1)%nat.
Proof.
  rewrite size_union_alt, size_singleton.
  assert ((size (X ∖ {[a]}) ≤ size X)%nat) by (apply subseteq_size; set_solver). lia.
Qed.

Lemma cost_W W x : (size W ≤ cost W x)%nat.
Proof.
  unfold cost. assert ((size W ≤ size (map_blocks x ∪ W))%nat) by (apply subseteq_size; set_solver). lia.
Qed.

(** What bmap [bn] makes of contents [V], transaction [W] and inode [x]. *)
Record bmap_post (ib bn : Z) V W x (a : Z) V' W' x' : Prop := {
  bp_inv : file_inv V' ib x';
  bp_addr : addr V' x' bn = a;
  bp_nonzero : a ≠ 0;
  bp_other k : 0 ≤ k < 140 → k ≠ bn → addr V' x' k = addr V x k;
  bp_old : addr V x bn ≠ 0 → a = addr V x bn ∧ V' = V ∧ W' = W ∧ x' = x;
  bp_new : addr V x bn = 0 → V' a = replicate 512 0;
  bp_fresh : addr V x bn = 0 → 0 ≤ a < sb_size sb ∧ in_use sb V a = false;
  bp_ind : indirect x' = indirect x ∨
           0 ≤ indirect x' < sb_size sb ∧ in_use sb V (indirect x') = false;
  bp_frame y : y ∉ bitmap_blocks sb → y ≠ indirect x →
                 (0 ≤ y < sb_size sb → in_use sb V y = true) → V' y = V y;
  bp_use y : 0 ≤ y < sb_size sb → in_use sb V y = true → in_use sb V' y = true;
  bp_cost : (cost ({[a]} ∪ W') x' ≤ cost W x + 1)%nat;
  bp_W : W ⊆ W';
  bp_room : room V x ≤ room V' x' + 1;
  bp_meta : x' = Inode (i_dev x) (i_inum x) (i_ref x) (i_lock x) (i_flags x) (i_type x)
                   (i_major x) (i_minor x) (i_nlink x) (i_size x) (i_addrs x')
}.

Lemma alloc_ok s V H W ib x :
  st_rep (fs_st s) V H W → fs_sb s = sb → file_inv V ib x → (0 < nfree sb V)%nat →
  (∀ j b, H !! j = Some b → file_block V ib b) → (size H + size W + 1 < st_cap)%nat →
  ∃ b t', balloc 1 s = Done b (with_st t' s) ∧ 0 ≤ b < sb_size sb ∧ in_use sb V b = false ∧
    st_rep t' (allocated sb V b) H ({[b]} ∪ ({[BBLOCK b sb]} ∪ W)).
Proof.
  intros Hr Hsb Hinv Hnf HH Hsz.
  destruct (balloc_spec s V H W Hr) as [[_ Hall]|(b & t' & E & Hb & Hf & _ & Hr')]; rewrite ?Hsb in *.
  - apply Hinv.
  - intros j b Hj b' Hb'. destruct (HH j b Hj) as [? ? Hu Hnb ? ?].
    split; [by apply not_bitmap|]. intros Hf ->. congruence.
  - done.
  - destruct (nfree_exists _ _ Hnf) as (b & Hb & Hf). rewrite Hall in Hf by done. done.
  - by exists b, t'.
Qed.

Lemma BBLOCK_bitmap b : 0 ≤ b < sb_size sb → BBLOCK b sb ∈ bitmap_blocks sb.
Proof. intros Hb. apply elem_of_bitmap_blocks. eauto. Qed.

Lemma nfree_alloc V ib x b :
  file_inv V ib x → 0 ≤ b < sb_size sb → in_use sb V b = false →
  nfree sb V = S (nfree sb (allocated sb V b)).
Proof. intros Hinv Hb Hf. apply (nfree_allocated sb V _ b); [done|done|]. intros. by eapply allocated_use. Qed.

Lemma bmap_post_same ib bn V W x :
  file_inv V ib x → addr V x bn ≠ 0 → bmap_post ib bn V W x (addr V x bn) V W x.
Proof.
  intros Hinv Ha. split; try done.
  - by left.
  - unfold cost. replace (map_blocks x ∪ ({[addr V x bn]} ∪ W))
      with ({[addr V x bn]} ∪ (map_blocks x ∪ W)) by set_solver.
    pose proof (size_add (map_blocks x ∪ W) (addr V x bn)). lia.
  - lia.
  - by destruct x.
Qed.

(** Blocks that allocation leaves alone. *)
Lemma allocated_frame V ib x b y :
  file_inv V ib x → 0 ≤ b < sb_size sb → in_use sb V b = false →
  y ∉ bitmap_blocks sb → (0 ≤ y < sb_size sb → in_use sb V y = true) → allocated sb V b y = V y.
Proof.
  intros Hinv Hb Hf Hy Hu. apply allocated_same; [done|done|]. by eapply new_not_used.
Qed.

(** The cost of allocating one block. *)
Lemma cost_alloc W x x' b :
  0 ≤ b < sb_size sb → indirect x' = indirect x →
  (cost ({[b]} ∪ ({[b]} ∪ ({[BBLOCK b sb]} ∪ W))) x' ≤ cost W x + 1)%nat.
Proof.
  intros Hb Hind. unfold cost, map_blocks. rewrite Hind. pose proof (BBLOCK_bitmap b Hb).
  set (I := if indirect x =? 0 then ∅ else {[indirect x]}).
  replace (bitmap_blocks sb ∪ I ∪ ({[b]} ∪ ({[b]} ∪ ({[BBLOCK b sb]} ∪ W))))
    with ({[b]} ∪ (bitmap_blocks sb ∪ I ∪ W)) by set_solver.
  pose proof (size_add (bitmap_blocks sb ∪ I ∪ W) b). lia.
Qed.

Lemma bmap_direct_spec ip bn s V W ib :
  let x := inodep s ip in
  st_rep (fs_st s) V ∅ W → fs_sb s = sb → (ip < length (fs_icache s))%nat →
  file_inv V ib x → 0 ≤ bn < 12 → 1 ≤ room V x → (cost W x + 1 < st_cap)%nat →
  ∃ a t' V' W' x', bmap ip bn s = Done a (set_inode ip x' (with_st t' s)) ∧
    st_rep t' V' ∅ W' ∧ bmap_post ib bn V W x a V' W' x'.
Proof.
  intros x Hr Hsb Hip Hinv Hbn Hroom Hcost. unfold bmap. unfold bind at 1, gets at 1. fold x.
  rewrite (proj2 (Z.ltb_lt bn NDIRECT)) by (unfold NDIRECT; lia).
  assert (Ea : i_addrs x !!! Z.to_nat bn = addr V x bn)
    by (unfold addr; by rewrite (proj2 (Z.ltb_lt bn 12)) by lia).
  rewrite Ea. destruct (Z.eqb_spec (addr V x bn) 0) as [E0|E0].
  - rewrite (fi_dev _ _ _ Hinv). pose proof (cost_W W x).
    destruct (alloc_ok s V ∅ W ib x Hr Hsb Hinv) as (b & t' & E & Hb & Hf & Hr').
    { unfold room in Hroom. destruct (indirect x =? 0); lia. }
    { intros j b. by rewrite lookup_empty. }
    { rewrite map_size_empty. lia. }
    rewrite (bind_done _ _ _ _ _ E). unfold bind, modify, ret.
    set (x' := set_i_addr (Z.to_nat bn) b x).
    destruct (map_direct V ib x b Hinv Hb Hf bn Hbn E0) as (Hinv' & Hind & Haddr). fold x' in Hinv', Hind, Haddr.
    exists b, t', (allocated sb V b), ({[b]} ∪ ({[BBLOCK b sb]} ∪ W)), x'.
    split. { f_equal. unfold set_inode. by apply upd_ext. }
    split; [done|]. split; try done.
    + rewrite Haddr, Z.eqb_refl by lia. done.
    + exact (new_not_zero V ib x b Hinv Hb Hf).
    + intros k Hk Hne. rewrite Haddr by done. by rewrite (proj2 (Z.eqb_neq k bn)).
    + intros _. apply allocated_new.
    + by left.
    + intros y Hy _ Hu. exact (allocated_frame V ib x b y Hinv Hb Hf Hy Hu).
    + intros y Hy Hu. rewrite (allocated_use V ib x b Hinv Hb Hf) by done. by rewrite Hu.
    + by apply cost_alloc.
    + set_solver.
    + unfold room. rewrite Hind. pose proof (nfree_alloc _ _ _ _ Hinv Hb Hf). lia.
  - exists (addr V x bn), (fs_st s), V, W, x. split; [|split; [done|by apply bmap_post_same]].
    unfold ret. f_equal. rewrite <- (set_inode_same ip s) at 1 by done. fold x.
    by destruct s.
Qed.

(** The indirect block of the inode, allocated if there was none. *)
Record ind_post (ib : Z) V W x V' W' x' : Prop := {
  ip_inv : file_inv V' ib x';
  ip_ind : indirect x' ≠ 0;
  ip_addr k : 0 ≤ k < 140 → addr V' x' k = addr V x k;
  ip_old : indirect x ≠ 0 → V' = V ∧ W' = W ∧ x' = x;
  ip_frame y : y ∉ bitmap_blocks sb → (0 ≤ y < sb_size sb → in_use sb V y = true) → V' y = V y;
  ip_use y : 0 ≤ y < sb_size sb → in_use sb V y = true → in_use sb V' y = true;
  ip_new : indirect x = 0 → 0 ≤ indirect x' < sb_size sb ∧ in_use sb V (indirect x') = false;
  ip_cost : (cost W' x' ≤ cost W x)%nat;
  ip_W : W ⊆ W';
  ip_room : room V x ≤ room V' x';
  ip_meta : x' = Inode (i_dev x) (i_inum x) (i_ref x) (i_lock x) (i_flags x) (i_type x)
                   (i_major x) (i_minor x) (i_nlink x) (i_size x) (i_addrs x')
}.

Definition get_indirect (ip : nat) (x : inode) : K (fstate St) Z :=
  if indirect x =? 0 then
    addr <- balloc (i_dev x);;
    modify (upd_inode ip (set_i_addr (Z.to_nat NDIRECT) addr)) ;;;
    ret addr
  else ret (indirect x).

Lemma get_indirect_spec ip s V W ib :
  let x := inodep s ip in
  st_rep (fs_st s) V ∅ W → fs_sb s = sb → (ip < length (fs_icache s))%nat →
  file_inv V ib x → 1 ≤ room V x → (cost W x + 1 < st_cap)%nat →
  ∃ t' V' W' x', get_indirect ip x s = Done (indirect x') (set_inode ip x' (with_st t' s)) ∧
    st_rep t' V' ∅ W' ∧ ind_post ib V W x V' W' x'.
Proof.
  intros x Hr Hsb Hip Hinv Hroom Hcost. unfold get_indirect.
  destruct (Z.eqb_spec (indirect x) 0) as [E0|E0].
  - rewrite (fi_dev _ _ _ Hinv). pose proof (cost_W W x).
    destruct (alloc_ok s V ∅ W ib x Hr Hsb Hinv) as (b & t' & E & Hb & Hf & Hr').
    { unfold room in Hroom. rewrite E0 in Hroom. cbn in Hroom. lia. }
    { intros j b. by rewrite lookup_empty. }
    { rewrite map_size_empty. lia. }
    rewrite (bind_done _ _ _ _ _ E). unfold bind, modify, ret.
    set (x' := set_i_addr (Z.to_nat NDIRECT) b x).
    destruct (map_indirect V ib x b Hinv Hb Hf E0) as (Hinv' & Hind & Haddr).
    change (set_i_addr 12 b x) with x' in Hinv', Hind, Haddr.
    assert (Hb0 : b ≠ 0) by (exact (new_not_zero V ib x b Hinv Hb Hf)).
    exists t', (allocated sb V b), ({[b]} ∪ ({[BBLOCK b sb]} ∪ W)), x'. rewrite Hind.
    split. { f_equal. unfold set_inode. by apply upd_ext. }
    split; [done|]. split; try done; rewrite ?Hind; try done.
    + intros y Hy Hu. exact (allocated_frame V ib x b y Hinv Hb Hf Hy Hu).
    + intros y Hy Hu. rewrite (allocated_use V ib x b Hinv Hb Hf) by done. by rewrite Hu.
    + unfold cost, map_blocks. rewrite Hind, E0. rewrite (proj2 (Z.eqb_neq b 0)) by done.
      rewrite Z.eqb_refl. pose proof (BBLOCK_bitmap b Hb).
      replace (bitmap_blocks sb ∪ {[b]} ∪ ({[b]} ∪ ({[BBLOCK b sb]} ∪ W)))
        with ({[b]} ∪ (bitmap_blocks sb ∪ ∅ ∪ W)) by set_solver.
      pose proof (size_add (bitmap_blocks sb ∪ ∅ ∪ W) b). lia.
    + set_solver.
    + unfold room. rewrite Hind, E0. rewrite (proj2 (Z.eqb_neq b 0)) by done. cbn.
      pose proof (nfree_alloc _ _ _ _ Hinv Hb Hf). lia.
  - exists (fs_st s), V, W, x. split; [|split; [done|]].
    + unfold ret. f_equal. rewrite <- (set_inode_same ip s) at 1 by done. fold x. by destruct s.
    + split; try done. by destruct x.
Qed.

(** The entry of the indirect block, allocated if there was none. *)
Definition get_entry (bn ind : Z) : K (fstate St) Z :=
  bp <- in_st (st_bread 1 ind);;
  a <- in_st (st_data bp);;
  let addr := field (4 * Z.to_nat bn) 4 a in
  addr <- (if addr =? 0 then
             addr <- balloc 1;;
             in_st (st_put bp (set_field (4 * Z.to_nat bn) 4 addr a) ;;; st_log_write bp) ;;;
             ret addr
           else ret addr);;
  in_st (st_brelse bp) ;;;
  ret addr.

Lemma get_entry_new i bn s V W ib x t1 :
  st_rep t1 V (<[i:=indirect x]> ∅) W → fs_sb s = sb → file_inv V ib x → indirect x ≠ 0 →
  12 ≤ bn < 140 → addr V x bn = 0 → (0 < nfree sb V)%nat → (cost W x + 2 < st_cap)%nat →
  ∃ b t', 0 ≤ b < sb_size sb ∧ in_use sb V b = false ∧
    let V' := bupd (indirect x) (set_field (4 * Z.to_nat (bn - 12)) 4 b (V (indirect x)))
                (allocated sb V b) in
    (addr <- balloc 1;;
     in_st (st_put i (set_field (4 * Z.to_nat (bn - 12)) 4 addr (V (indirect x))) ;;;
            st_log_write i) ;;;
     ret addr) (with_st t1 s) = Done b (with_st t' s) ∧
    st_rep t' V' (<[i:=indirect x]> ∅) ({[indirect x]} ∪ ({[b]} ∪ ({[BBLOCK b sb]} ∪ W))).
Proof.
  intros Hr Hsb Hinv Hi Hbn H0 Hnf Hcost. pose proof (fi_ind _ _ _ Hinv Hi) as Hfb.
  assert (Hone : size (<[i:=indirect x]> (∅ : gmap nat Z)) = 1%nat)
    by (rewrite map_size_insert_None, map_size_empty by (by rewrite lookup_empty); done).
  pose proof (cost_W W x) as HcW.
  destruct (alloc_ok (with_st t1 s) V (<[i:=indirect x]> ∅) W ib x Hr Hsb Hinv Hnf)
    as (b & t2 & E & Hb & Hf & Hr2).
  { intros j b [[_ <-]|[_ Hj]]%lookup_insert_Some; [done|]. by rewrite lookup_empty in Hj. }
  { rewrite Hone. lia. }
  rewrite (bind_done _ _ _ _ _ E). change (with_st t2 (with_st t1 s)) with (with_st t2 s).
  destruct (block_update (with_st t2 s) _ _ _ i (indirect x)
     (set_field (4 * Z.to_nat (bn - 12)) 4 b (V (indirect x))) Hr2 (lookup_insert_eq _ _ _))
    as (t3 & E3 & Hr3).
  { apply Hfb. }
  { assert (Hx : indirect x ∉ bitmap_blocks sb) by apply Hfb.
    unfold cost, map_blocks in Hcost. rewrite (proj2 (Z.eqb_neq (indirect x) 0)) in Hcost by done.
    pose proof (BBLOCK_bitmap b Hb).
    assert ((size ({[b]} ∪ ({[BBLOCK b sb]} ∪ W)) ≤
             size ({[b]} ∪ (bitmap_blocks sb ∪ {[indirect x]} ∪ W)))%nat)
      by (apply subseteq_size; set_solver).
    pose proof (size_add (bitmap_blocks sb ∪ {[indirect x]} ∪ W) b). lia. }
  rewrite (bind_done _ _ _ _ _ E3). exists b, t3. split; [done|]. split; [done|].
  split; [done|]. exact Hr3.
Qed.

Lemma get_entry_spec bn s V W ib x :
  st_rep (fs_st s) V ∅ W → fs_sb s = sb → file_inv V ib x → indirect x ≠ 0 →
  12 ≤ bn < 140 → 1 ≤ room V x → (cost W x + 2 < st_cap)%nat →
  ∃ a t' V' W', get_entry (bn - 12) (indirect x) s = Done a (with_st t' s) ∧
    st_rep t' V' ∅ W' ∧ bmap_post ib bn V W x a V' W' x.
Proof.
  intros Hr Hsb Hinv Hi Hbn Hroom Hcost. pose proof (fi_ind _ _ _ Hinv Hi) as Hfb.
  pose proof (cost_W W x) as HcW. unfold get_entry.
  destruct (block_read s V ∅ W (indirect x) Hr) as (i & t1 & E1 & E1' & Hi1 & Hr1).
  { apply st_home_range, Hfb. }
  { intros j. by rewrite lookup_empty. }
  { rewrite map_size_empty. lia. }
  rewrite (bind_done _ _ _ _ _ E1), (bind_done _ _ _ _ _ E1'). cbv zeta.
  assert (Ea : field (4 * Z.to_nat (bn - 12)) 4 (V (indirect x)) = addr V x bn).
  { unfold addr. rewrite (proj2 (Z.ltb_ge bn 12)) by lia.
    by rewrite (proj2 (Z.eqb_neq (indirect x) 0)). }
  rewrite Ea. destruct (Z.eqb_spec (addr V x bn) 0) as [E0|E0].
  - destruct (get_entry_new i bn s V W ib x t1) as (b & t2 & Hb & Hf & E2 & Hr2); try done.
    { unfold room in Hroom. destruct (indirect x =? 0); lia. }
    rewrite (bind_done _ _ _ _ _ E2).
    destruct (block_release (with_st t2 s) _ _ _ i _ Hr2 Hi1) as (t3 & E3 & Hr3).
    rewrite (bind_done _ _ _ _ _ E3). unfold ret.
    destruct (map_entry V ib x b Hinv Hb Hf bn Hbn Hi E0) as (Hinv' & Haddr).
    eexists b, t3, _, _. split; [done|]. split; [exact Hr3|]. split; try done.
    + rewrite Haddr, Z.eqb_refl by lia. done.
    + exact (new_not_zero V ib x b Hinv Hb Hf).
    + intros k Hk Hne. rewrite Haddr by done. by rewrite (proj2 (Z.eqb_neq k bn)).
    + intros _. unfold bupd. rewrite (proj2 (Z.eqb_neq b (indirect x))); [apply allocated_new|].
      apply not_eq_sym. exact (new_not_indirect V ib x b Hinv Hb Hf).
    + by left.
    + intros y Hy Hne Hu. unfold bupd. rewrite (proj2 (Z.eqb_neq y (indirect x))) by done.
      exact (allocated_frame V ib x b y Hinv Hb Hf Hy Hu).
    + intros y Hy Hu. rewrite in_use_other; [|by apply not_bitmap, Hfb|done].
      rewrite (allocated_use V ib x b Hinv Hb Hf) by done. by rewrite Hu.
    + etransitivity; [|apply (cost_alloc W x x b Hb eq_refl)].
      unfold cost. apply Nat.add_le_mono_r, subseteq_size. unfold map_blocks.
      rewrite (proj2 (Z.eqb_neq (indirect x) 0)) by done. set_solver.
    + set_solver.
    + unfold room. pose proof (nfree_alloc _ _ _ _ Hinv Hb Hf) as Hn.
      assert (Hn2 : nfree sb (bupd (indirect x) (set_field (4 * Z.to_nat (bn - 12)) 4 b (V (indirect x)))
                (allocated sb V b)) = nfree sb (allocated sb V b)).
      { apply nfree_ext. intros y Hy. apply in_use_other; [by apply not_bitmap, Hfb|done]. }
      lia.
    + by destruct x.
  - unfold bind at 1, ret at 1.
    destruct (block_release (with_st t1 s) _ _ _ i _ Hr1 Hi1) as (t2 & E2 & Hr2).
    rewrite (bind_done _ _ _ _ _ E2). unfold ret. exists (addr V x bn), t2, V, W.
    split; [done|]. split; [done|]. by apply bmap_post_same.
Qed.

Lemma bmap_post_trans ib bn V W x V1 W1 x1 a V2 W2 :
  12 ≤ bn < 140 →
  file_inv V ib x → ind_post ib V W x V1 W1 x1 → bmap_post ib bn V1 W1 x1 a V2 W2 x1 →
  bmap_post ib bn V W x a V2 W2 x1.
Proof.
  intros Hbn Hinv [Q1 Q2 Q3 Q4 Q5 Q6 Q7 Q8 Q9 Q10 Q11] [P1 P2 P3 P4 P5 P6 PF PI P7 P8 P9 P10 P11 P12].
  assert (Ha : addr V1 x1 bn = addr V x bn) by (apply Q3; lia).
  split; try done.
  - intros k Hk Hne. rewrite P4, Q3 by done. done.
  - intros Hne. assert (Hi : indirect x ≠ 0).
    { intros E. apply Hne. unfold addr. rewrite E. by rewrite (proj2 (Z.ltb_ge bn 12)) by lia. }
    destruct (Q4 Hi) as (-> & -> & ->). by apply P5.
  - rewrite <- Ha. done.
  - intros Hz. destruct PF as [Hr Hf]; [by rewrite Ha|]. split; [done|].
    destruct (in_use sb V a) eqn:Eu; [|done]. rewrite Q6 in Hf by done. done.
  - destruct (decide (indirect x = 0)) as [E|E]; [right; by apply Q7|].
    left. by destruct (Q4 E) as (_ & _ & ->).
  - intros y Hy Hne Hu. rewrite P7; [by apply Q5|done| |].
    + destruct (decide (indirect x = 0)) as [E|E].
      * destruct (Q7 E) as [Hr Hf]. intros ->. rewrite Hu in Hf by done. done.
      * by destruct (Q4 E) as (_ & _ & ->).
    + intros Hyr. apply Q6; [done|]. by apply Hu.
  - intros y Hy Hu. apply P8; [done|]. by apply Q6.
  - lia.
  - set_solver.
  - lia.
Qed.

Lemma bmap_spec ip bn s V W ib :
  let x := inodep s ip in
  st_rep (fs_st s) V ∅ W → fs_sb s = sb → (ip < length (fs_icache s))%nat →
  file_inv V ib x → 0 ≤ bn < 140 → 1 ≤ room V x → (cost W x + 2 < st_cap)%nat →
  ∃ a t' V' W' x', bmap ip bn s = Done a (set_inode ip x' (with_st t' s)) ∧
    st_rep t' V' ∅ W' ∧ bmap_post ib bn V W x a V' W' x'.
Proof.
  intros x Hr Hsb Hip Hinv Hbn Hroom Hcost.
  destruct (decide (bn < 12)) as [Hlt|Hge]; [apply (bmap_direct_spec ip bn s V W ib Hr Hsb Hip Hinv); fold x; lia|].
  destruct (get_indirect_spec ip s V W ib Hr Hsb Hip Hinv) as (t1 & V1 & W1 & x1 & E1 & Hr1 & Hp1);
    [fold x; lia|fold x; lia|]. fold x in E1, Hp1.
  set (s1 := set_inode ip x1 (with_st t1 s)) in *.
  destruct (get_entry_spec bn s1 V1 W1 ib x1) as (a & t2 & V2 & W2 & E2 & Hr2 & Hp2).
  { exact Hr1. }
  { done. }
  { apply (ip_inv _ _ _ _ _ _ _ Hp1). }
  { apply (ip_ind _ _ _ _ _ _ _ Hp1). }
  { lia. }
  { pose proof (ip_room _ _ _ _ _ _ _ Hp1). lia. }
  { pose proof (ip_cost _ _ _ _ _ _ _ Hp1). lia. }
  exists a, t2, V2, W2, x1. split; [|split; [done|]].
  - unfold bmap. unfold bind at 1, gets at 1. fold x.
    rewrite (proj2 (Z.ltb_ge bn NDIRECT)) by (unfold NDIRECT; lia). cbv zeta.
    rewrite (proj2 (Z.ltb_lt _ NINDIRECT)) by (unfold NDIRECT; change NINDIRECT with 128; lia).
    change (i_addrs x !!! Z.to_nat NDIRECT) with (indirect x).
    rewrite (bind_done _ _ _ _ _ E1). rewrite (fi_dev _ _ _ Hinv). exact E2.
  - eapply bmap_post_trans; [lia|done|exact Hp1|exact Hp2].
Qed.

(** bmap of a block that is mapped already changes nothing. *)
Lemma bmap_mapped ip bn s V W ib :
  let x := inodep s ip in
  st_rep (fs_st s) V ∅ W → fs_sb s = sb → file_inv V ib x → 0 ≤ bn < 140 →
  addr V x bn ≠ 0 → (size W ≤ st_cap)%nat →
  ∃ t', bmap ip bn s = Done (addr V x bn) (with_st t' s) ∧ st_rep t' V ∅ W.
Proof.
  intros x Hr Hsb Hinv Hbn Ha Hsz. unfold bmap. unfold bind at 1, gets at 1. fold x.
  unfold addr in Ha |- *. destruct (Z.ltb_spec bn 12) as [Hlt|Hge].
  - rewrite (proj2 (Z.ltb_lt bn NDIRECT)) by (unfold NDIRECT; lia).
    rewrite (proj2 (Z.eqb_neq _ _)) by done. exists (fs_st s). split; [by destruct s|done].
  - rewrite (proj2 (Z.ltb_ge bn NDIRECT)) by (unfold NDIRECT; lia). cbv zeta.
    rewrite (proj2 (Z.ltb_lt _ NINDIRECT)) by (unfold NDIRECT; change NINDIRECT with 128; lia).
    change (i_addrs x !!! Z.to_nat NDIRECT) with (indirect x).
    destruct (Z.eqb_spec (indirect x) 0) as [|Hi]; [done|]. unfold bind at 1, ret at 1.
    rewrite (fi_dev _ _ _ Hinv). pose proof (fi_ind _ _ _ Hinv Hi) as Hfb.
    destruct (block_read s V ∅ W (indirect x) Hr) as (i & t1 & E1 & E1' & Hi1 & Hr1).
    { apply st_home_range, Hfb. }
    { intros j. by rewrite lookup_empty. }
    { rewrite map_size_empty. lia. }
    rewrite (bind_done _ _ _ _ _ E1), (bind_done _ _ _ _ _ E1').
    change (bn - NDIRECT) with (bn - 12). rewrite (proj2 (Z.eqb_neq _ _)) by done.
    unfold bind at 1, ret at 1.
    destruct (block_release (with_st t1 s) _ _ _ i _ Hr1 Hi1) as (t2 & E2 & Hr2).
    rewrite (bind_done _ _ _ _ _ E2). by exists t2.
Qed.

(** ** readi *)

(** Every block within the size of the file is mapped. *)
Definition dense V x : Prop :=
  0 ≤ i_size x ≤ MAXFILE * BSIZE ∧ ∀ bn, 0 ≤ bn → bn * BSIZE < i_size x → addr V x bn ≠ 0.

Lemma bn_range o : 0 ≤ o < MAXFILE * BSIZE → 0 ≤ o / BSIZE < 140.
Proof.
  change (MAXFILE * BSIZE) with (140 * 512). unfold BSIZE. intros H.
  split; [apply Z.div_pos; lia|]. apply Z.div_lt_upper_bound; lia.
Qed.

Lemma dense_at V x o : dense V x → 0 ≤ o < i_size x → 0 ≤ o / BSIZE < 140 ∧ addr V x (o / BSIZE) ≠ 0.
Proof.
  intros [Hs Hd] Ho. split; [apply bn_range; lia|]. apply Hd; [apply Z.div_pos; unfold BSIZE; lia|].
  pose proof (Z.mul_div_le o BSIZE). unfold BSIZE in *. lia.
Qed.

(** The same for the first [e] bytes only. *)
Definition mapped V x (e : Z) : Prop :=
  0 ≤ e ≤ i_size x ∧ i_size x ≤ MAXFILE * BSIZE ∧ ∀ bn, 0 ≤ bn → bn * BSIZE < e → addr V x bn ≠ 0.

Lemma dense_mapped V x : dense V x → mapped V x (i_size x).
Proof. intros [Hs Hd]. split; [lia|]. split; [lia|exact Hd]. Qed.

Lemma mapped_at V x e o : mapped V x e → 0 ≤ o < e → 0 ≤ o / BSIZE < 140 ∧ addr V x (o / BSIZE) ≠ 0.
Proof.
  intros (He & Hs & Hm) Ho. split; [apply bn_range; lia|]. apply Hm; [apply Z.div_pos; unfold BSIZE; lia|].
  pose proof (Z.mul_div_le o BSIZE). unfold BSIZE in *. lia.
Qed.

(** Bytes [off .. off + m - 1] within one block. *)
Lemma fbyte_block V x off m d :
  0 ≤ off → 0 ≤ m → m ≤ BSIZE - off mod BSIZE → d = V (addr V x (off / BSIZE)) →
  length d = 512%nat →
  fbyte V x <$> seqZ off m = slice (Z.to_nat (off mod BSIZE)) (Z.to_nat m) d.
Proof.
  intros Hoff Hm Hmm -> Hlen. pose proof (Z.mod_pos_bound off BSIZE ltac:(done)) as Hmod.
  apply list_eq. intros i. rewrite list_lookup_fmap.
  destruct (decide (i < Z.to_nat m)%nat) as [Hi|Hi].
  - rewrite lookup_seqZ_lt by lia. cbn [fmap option_fmap option_map].
    rewrite lookup_slice by done.
    assert (E : (off + Z.of_nat i) / BSIZE = off / BSIZE ∧
                (off + Z.of_nat i) mod BSIZE = off mod BSIZE + Z.of_nat i).
    { pose proof (Z.div_mod off BSIZE ltac:(done)) as Hdm. unfold BSIZE in *.
      assert (Hd : (off + Z.of_nat i) / 512 = off / 512).
      { symmetry. apply (Z.div_unique_pos _ _ _ (off mod 512 + Z.of_nat i)); lia. }
      split; [done|]. rewrite Z.mod_eq, Hd by lia. lia. }
    destruct E as [E1 E2]. unfold fbyte. rewrite E1, E2.
    symmetry. rewrite list_lookup_lookup_total_lt.
    + f_equal. f_equal. unfold BSIZE in *. lia.
    + rewrite Hlen. unfold BSIZE in *. lia.
  - rewrite lookup_seqZ_ge by lia. symmetry. apply lookup_slice_ge. lia.
Qed.

Lemma readi_loop_spec fuel ip off tot n out s V W ib e :
  let x := inodep s ip in
  st_rep (fs_st s) V ∅ W → fs_sb s = sb → file_inv V ib x → mapped V x e → (size W ≤ st_cap)%nat →
  0 ≤ off → 0 ≤ tot ≤ n → off + (n - tot) ≤ e →
  (tot < n → n - tot + off mod BSIZE ≤ BSIZE * Z.of_nat fuel) →
  ∃ t', readi_loop fuel ip off tot n out s =
          Done (out ++ (fbyte V x <$> seqZ off (n - tot))) (with_st t' s) ∧
        st_rep t' V ∅ W.
Proof.
  revert off tot out s. induction fuel as [|fuel IH];
    intros off tot out s x Hr Hsb Hinv Hd Hsz Hoff Htot Hsize Hfuel; cbn [readi_loop].
  { pose proof (Z.mod_pos_bound off BSIZE ltac:(done)).
    assert (n - tot = 0) by (destruct (decide (tot < n)); [|lia]; specialize (Hfuel ltac:(lia)); lia).
    rewrite (proj2 (Z.ltb_ge tot n)) by lia. replace (n - tot) with 0 by lia.
    exists (fs_st s). rewrite app_nil_r. split; [by destruct s|done]. }
  destruct (Z.ltb_spec tot n) as [Hlt|Hge].
  2: { replace (n - tot) with 0 by lia. exists (fs_st s). rewrite app_nil_r.
       split; [by destruct s|done]. }
  unfold bind at 1, gets at 1. fold x.
  destruct (mapped_at V x e off Hd) as [Hbn Ha]; [lia|].
  destruct (bmap_mapped ip (off / BSIZE) s V W ib Hr Hsb Hinv Hbn Ha Hsz) as (t1 & E1 & Hr1).
  rewrite (bind_done _ _ _ _ _ E1). fold x. rewrite (fi_dev _ _ _ Hinv).
  destruct (fi_addr _ _ _ Hinv _ Hbn Ha) as [Hfb _].
  destruct (block_read (with_st t1 s) V ∅ W (addr V x (off / BSIZE)) Hr1) as (i & t2 & E2 & E2' & Hi2 & Hr2).
  { apply st_home_range, Hfb. }
  { intros j. by rewrite lookup_empty. }
  { rewrite map_size_empty. lia. }
  rewrite (bind_done _ _ _ _ _ E2). cbv zeta. rewrite (bind_done _ _ _ _ _ E2').
  destruct (block_release (with_st t2 (with_st t1 s)) _ _ _ i _ Hr2 Hi2) as (t3 & E3 & Hr3).
  rewrite (bind_done _ _ _ _ _ E3).
  change (with_st t3 (with_st t2 (with_st t1 s))) with (with_st t3 s).
  pose proof (Z.mod_pos_bound off BSIZE ltac:(done)) as Hmod.
  set (m := Z.min (n - tot) (BSIZE - off mod BSIZE)).
  assert (Hm : 0 < m) by (unfold m; lia).
  assert (Hu : u32 (off + m) = off + m).
  { unfold u32. apply Z.mod_small. destruct Hd as (Hs & Hs' & _). change (MAXFILE * BSIZE) with 71680 in Hs'. lia. }
  rewrite Hu.
  destruct (IH (off + m) (tot + m) (out ++ slice (Z.to_nat (off mod BSIZE)) (Z.to_nat m)
              (V (addr V x (off / BSIZE)))) (with_st t3 s)) as (t4 & E4 & Hr4); try done; try lia.
  { intros Hlt'. assert (Em : m = BSIZE - off mod BSIZE) by lia.
    assert (E0 : (off + m) mod BSIZE = 0).
    { rewrite Em. pose proof (Z.div_mod off BSIZE ltac:(done)).
      replace (off + (BSIZE - off mod BSIZE)) with ((off / BSIZE + 1) * BSIZE) by lia.
      apply Z.mod_mul. done. }
    specialize (Hfuel Hlt). rewrite E0. lia. }
  exists t4. change (inodep (with_st t3 s) ip) with x in E4. split; [|done].
  etransitivity; [exact E4|]. f_equal. rewrite <- (assoc_L (++)). f_equal.
  rewrite <- (fbyte_block V x off m); [|lia|lia|unfold m; lia|done|apply Hfb].
  rewrite <- fmap_app. f_equal. replace (n - tot) with (m + (n - (tot + m))) by lia.
  rewrite <- seqZ_app by (unfold m; lia). done.
Qed.

Variable devread : Z → option (nat → Z → Z → K (fstate St) (Z * list Z)).
Variable devwrite : Z → option (nat → Z → list Z → Z → K (fstate St) Z).

Lemma content_slice V x off n :
  0 ≤ off → 0 ≤ n → off + n ≤ i_size x →
  fbyte V x <$> seqZ off n = slice (Z.to_nat off) (Z.to_nat n) (content V x).
Proof.
  intros Hoff Hn Hs. apply list_eq. intros i. unfold content.
  destruct (decide (i < Z.to_nat n)%nat) as [Hi|Hi].
  - rewrite lookup_slice, !list_lookup_fmap, !lookup_seqZ_lt by lia. cbn. do 2 f_equal. lia.
  - rewrite lookup_slice_ge, list_lookup_fmap, lookup_seqZ_ge by lia. done.
Qed.

(** Reading from the mapped part of a file. *)
Lemma readi_mapped ip off n s V W ib e :
  let x := inodep s ip in
  st_rep (fs_st s) V ∅ W → fs_sb s = sb → file_inv V ib x → mapped V x e → (size W ≤ st_cap)%nat →
  i_type x ≠ T_DEV → 0 ≤ off ≤ i_size x → 0 ≤ n → off + n < 2 ^ 32 →
  let m := Z.min n (i_size x - off) in
  off + m ≤ e →
  ∃ t', readi devread ip off n s =
          Done (m, slice (Z.to_nat off) (Z.to_nat m) (content V x)) (with_st t' s) ∧
        st_rep t' V ∅ W.
Proof.
  intros x Hr Hsb Hinv Hd Hsz Hty Hoff Hn Hov m He. unfold readi. unfold bind at 1, gets at 1. fold x.
  rewrite (proj2 (Z.eqb_neq _ _)) by done.
  assert (Hu : u32 (off + n) = off + n) by (apply Z.mod_small; lia). rewrite Hu.
  rewrite (proj2 (Z.ltb_ge (i_size x) off)), (proj2 (Z.ltb_ge (off + n) off)) by lia. cbn [orb].
  replace (if i_size x <? off + n then i_size x - off else n) with m
    by (unfold m; destruct (Z.ltb_spec (i_size x) (off + n)); lia).
  destruct (readi_loop_spec (Z.to_nat (m / BSIZE + 2)) ip off 0 m [] s V W ib e) as (t' & E & Hr');
    try done; fold x; try lia.
  { intros _. rewrite Z2Nat.id by (pose proof (Z.div_pos m BSIZE); unfold BSIZE in *; lia).
    pose proof (Z.div_mod m BSIZE ltac:(done)). pose proof (Z.mod_pos_bound m BSIZE ltac:(done)).
    pose proof (Z.mod_pos_bound off BSIZE ltac:(done)). lia. }
  rewrite (bind_done _ _ _ _ _ E). unfold ret. exists t'. split; [|done]. f_equal. f_equal.
  cbn [app]. rewrite Z.sub_0_r. apply content_slice; lia.
Qed.

Lemma readi_spec ip off n s V W ib :
  let x := inodep s ip in
  st_rep (fs_st s) V ∅ W → fs_sb s = sb → file_inv V ib x → dense V x → (size W ≤ st_cap)%nat →
  i_type x ≠ T_DEV → 0 ≤ off ≤ i_size x → 0 ≤ n → off + n < 2 ^ 32 →
  let m := Z.min n (i_size x - off) in
  ∃ t', readi devread ip off n s =
          Done (m, slice (Z.to_nat off) (Z.to_nat m) (content V x)) (with_st t' s) ∧
        st_rep t' V ∅ W.
Proof.
  intros x Hr Hsb Hinv Hd Hsz Hty Hoff Hn Hov m. apply (readi_mapped ip off n s V W ib (i_size x)); try done; fold x; [by apply dense_mapped|lia].
Qed.

(** ** writei *)

(** Storing into a data block of the file. *)
Lemma file_inv_data V ib x bn d :
  file_inv V ib x → 0 ≤ bn < 140 → addr V x bn ≠ 0 → length d = 512%nat →
  let V' := bupd (addr V x bn) d V in
  file_inv V' ib x ∧ ∀ k, addr V' x k = addr V x k.
Proof.
  intros Hinv Hbn Ha Hd V'. destruct (fi_addr _ _ _ Hinv bn Hbn Ha) as [Hfb Hni].
  assert (Haddr : ∀ k, addr V' x k = addr V x k).
  { intros k. unfold addr at 1 2. destruct (k <? 12); [done|].
    destruct (Z.eqb_spec (indirect x) 0); [done|]. unfold V', bupd.
    by rewrite (proj2 (Z.eqb_neq (indirect x) _)) by (by apply not_eq_sym). }
  assert (Hus : ∀ y, 0 ≤ y < sb_size sb → in_use sb V' y = in_use sb V y).
  { intros y Hy. apply in_use_other; [by apply not_bitmap, Hfb|done]. }
  assert (Hblk : ∀ y, file_block V ib y → file_block V' ib y).
  { intros y [H1 H2 H3 H4 H5 H6]. split; try done; [by rewrite Hus|].
    unfold V', bupd. by destruct (y =? addr V x bn). }
  split; [|done]. split; try apply Hinv.
  - apply bitmap_ok_other; [apply Hinv|apply Hfb].
  - rewrite Hus by (pose proof (fi_sb _ _ _ Hinv); lia). apply Hinv.
  - intros Hib. rewrite Hus by done. by apply Hinv.
  - intros Hi. by apply Hblk, Hinv.
  - intros k Hk. rewrite Haddr. intros Hka. destruct (fi_addr _ _ _ Hinv k Hk Hka). auto.
  - intros k k'. rewrite !Haddr. apply Hinv.
Qed.

Lemma div_block off o : 0 ≤ off → o / BSIZE = off / BSIZE → o mod BSIZE = o - off + off mod BSIZE.
Proof.
  intros H E. pose proof (Z.div_mod off BSIZE ltac:(done)). pose proof (Z.div_mod o BSIZE ltac:(done)).
  rewrite E in *. lia.
Qed.

(** The bytes of the file after such a store. *)
Lemma fbyte_store V ib x off l o :
  file_inv V ib x → 0 ≤ off < MAXFILE * BSIZE → addr V x (off / BSIZE) ≠ 0 →
  Z.of_nat (length l) ≤ BSIZE - off mod BSIZE → 0 ≤ o < MAXFILE * BSIZE →
  let a := addr V x (off / BSIZE) in
  let V' := bupd a (splice (Z.to_nat (off mod BSIZE)) l (V a)) V in
  fbyte V' x o = if decide (off ≤ o < off + Z.of_nat (length l))
                 then l !!! Z.to_nat (o - off) else fbyte V x o.
Proof.
  intros Hinv Hoff Ha Hl Ho a V'. pose proof (bn_range _ Hoff) as Hbn. pose proof (bn_range _ Ho) as Hbo.
  destruct (fi_addr _ _ _ Hinv _ Hbn Ha) as [Hfb _]. pose proof (fb_len _ _ _ Hfb) as Hlen.
  fold a in Hlen. pose proof (Z.mod_pos_bound off BSIZE ltac:(done)) as Hmo.
  pose proof (Z.mod_pos_bound o BSIZE ltac:(done)) as Hmoo.
  assert (Hsl : length (splice (Z.to_nat (off mod BSIZE)) l (V a)) = 512%nat)
    by (rewrite length_splice; [done|]; rewrite Hlen; unfold BSIZE in *; lia).
  destruct (file_inv_data V ib x _ _ Hinv Hbn Ha Hsl) as [_ Haddr].
  unfold fbyte at 1. rewrite Haddr. unfold V', bupd. fold a.
  destruct (Z.eqb_spec (addr V x (o / BSIZE)) a) as [E|E].
  - assert (Eb : o / BSIZE = off / BSIZE) by (apply (fi_inj _ _ _ Hinv); [done|done|by rewrite E|done]).
    pose proof (div_block off o ltac:(lia) Eb) as Em.
    case_decide as Hin.
    + rewrite !list_lookup_total_alt. rewrite lookup_splice_new.
      * do 2 f_equal. lia.
      * rewrite Hlen. unfold BSIZE in *. lia.
      * lia.
    + rewrite !list_lookup_total_alt. rewrite lookup_splice_old.
      * unfold fbyte. rewrite E. by rewrite list_lookup_total_alt.
      * rewrite Hlen. unfold BSIZE in *. lia.
      * lia.
  - rewrite decide_False; [done|]. intros Hin. apply E. unfold a. f_equal.
    pose proof (Z.div_mod off BSIZE ltac:(done)).
    symmetry. apply (Z.div_unique_pos _ _ _ (off mod BSIZE + (o - off))); unfold BSIZE in *; lia.
Qed.
End files.
