(* ===== verification/FsWrite.v ===== *)
(** * writei of fs.c, and reading what was written *)

From S2P Require Import Prelude Params CString Core Bio BioSpec BioTheorems Log LogCrash BlockStore Fs FsBlocks FsInodes FsFiles.

Section write.
Context {St : Type} {B : BlockStore St} {L : BlockLaws St}.
Variable sb : superblock.
Variables (ib : Z) (src : list Z).
Implicit Types (s : fstate St) (V : bview) (W : gset Z) (x : inode).

(** Bytes [tot .. tot + len - 1] of [src] stored at offset [off] of file [x],
    with at most [k] new blocks. *)
Record write_post (off tot len : Z) (k : nat) V W x V' W' x' : Prop := {
  wp_inv : file_inv sb V' ib x';
  wp_addr bn : 0 ≤ bn < 140 → addr V x bn ≠ 0 → addr V' x' bn = addr V x bn;
  wp_fresh bn : 0 ≤ bn < 140 → addr V' x' bn = addr V x bn ∨
      0 ≤ addr V' x' bn < sb_size sb ∧ in_use sb V (addr V' x' bn) = false;
  wp_ind : indirect x' = indirect x ∨
      0 ≤ indirect x' < sb_size sb ∧ in_use sb V (indirect x') = false;
  wp_mapped o : off ≤ o < off + len → addr V' x' (o / BSIZE) ≠ 0;
  wp_bytes o : 0 ≤ o < MAXFILE * BSIZE →
      off ≤ o < off + len ∨ addr V x (o / BSIZE) ≠ 0 →
      fbyte V' x' o = if decide (off ≤ o < off + len) then src !!! Z.to_nat (tot + (o - off))
                      else fbyte V x o;
  wp_frame y : y ∉ bitmap_blocks sb → y ≠ indirect x →
      (0 ≤ y < sb_size sb → in_use sb V y = true) →
      (∀ bn, 0 ≤ bn < 140 → addr V x bn ≠ 0 → y ≠ addr V x bn) → V' y = V y;
  wp_use y : 0 ≤ y < sb_size sb → in_use sb V y = true → in_use sb V' y = true;
  wp_cost : (cost sb W' x' ≤ cost sb W x + k)%nat;
  wp_W : W ⊆ W';
  wp_room : room sb V x ≤ room sb V' x' + Z.of_nat k;
  wp_old : (∀ o, off ≤ o < off + len → addr V x (o / BSIZE) ≠ 0) → x' = x;
  wp_meta : x' = Inode (i_dev x) (i_inum x) (i_ref x) (i_lock x) (i_flags x) (i_type x)
                   (i_major x) (i_minor x) (i_nlink x) (i_size x) (i_addrs x')
}.

Lemma write_post_nil off tot V W x :
  file_inv sb V ib x → write_post off tot 0 0 V W x V W x.
Proof.
  intros Hinv. split; try done.
  - by left.
  - by left.
  - intros o Ho. lia.
  - intros o _ _. by rewrite decide_False by lia.
  - lia.
  - lia.
  - by destruct x.
Qed.

Lemma write_post_trans off tot m len k1 k2 V W x V1 W1 x1 V2 W2 x2 :
  0 ≤ off → 0 ≤ m → 0 ≤ len → 0 ≤ tot → off + m + len ≤ MAXFILE * BSIZE →
  write_post off tot m k1 V W x V1 W1 x1 →
  write_post (off + m) (tot + m) len k2 V1 W1 x1 V2 W2 x2 →
  write_post off tot (m + len) (k1 + k2) V W x V2 W2 x2.
Proof.
  intros Hoff Hm Hlen Htot Hmax [P1 P2 P3 P4 P5 P6 P7 P8 P9 P10 P11 P12 P13]
    [Q1 Q2 Q3 Q4 Q5 Q6 Q7 Q8 Q9 Q10 Q11 Q12 Q13].
  assert (Hback : ∀ y, 0 ≤ y < sb_size sb → in_use sb V1 y = false → in_use sb V y = false).
  { intros y Hy Hf. destruct (in_use sb V y) eqn:E; [|done]. rewrite P8 in Hf by done. done. }
  split; try done.
  - intros bn Hbn Ha. rewrite Q2, P2; [done|done|done|done|]. by rewrite P2.
  - intros bn Hbn. destruct (Q3 bn Hbn) as [E|[Hr Hf]]; [rewrite E; by apply P3|right; auto].
  - destruct Q4 as [E|[Hr Hf]]; [rewrite E; by apply P4|right; auto].
  - intros o Ho. destruct (decide (o < off + m)); [|apply Q5; lia].
    assert (Ha : addr V1 x1 (o / BSIZE) ≠ 0) by (apply P5; lia).
    rewrite Q2; [done|apply bn_range; lia|done].
  - intros o Ho Hmap.
    assert (Hbn : 0 ≤ o / BSIZE < 140) by (by apply bn_range).
    assert (H1 : off ≤ o < off + m ∨ addr V x (o / BSIZE) ≠ 0 → addr V1 x1 (o / BSIZE) ≠ 0).
    { intros [?|Hz]; [by apply P5|]. by rewrite P2. }
    destruct (decide (off + m ≤ o < off + m + len)) as [Hin|Hout].
    + rewrite Q6, decide_True, decide_True by (done || lia || (left; lia)). f_equal. f_equal. lia.
    + destruct (decide (off ≤ o < off + m)) as [Hin1|Hout1].
      * rewrite Q6, decide_False, P6, decide_True, decide_True by (auto || lia). done.
      * assert (Hz : addr V x (o / BSIZE) ≠ 0) by (destruct Hmap; [lia|done]).
        rewrite Q6, decide_False, P6, decide_False, decide_False by (auto || lia). done.
  - intros y Hy Hne Hu Hna. rewrite Q7, P7; try done.
    + destruct P4 as [->|[Hr Hf]]; [done|]. intros ->. rewrite Hu in Hf by done. done.
    + intros Hr. apply P8; auto.
    + intros bn Hbn Ha. destruct (P3 bn Hbn) as [E|[Hr Hf]].
      * rewrite E in *. by apply Hna.
      * intros ->. rewrite Hu in Hf by done. done.
  - auto.
  - lia.
  - set_solver.
  - lia.
  - intros Hall. assert (E : x1 = x) by (apply P12; intros; apply Hall; lia).
    rewrite <- E. apply Q12. intros o Ho.
    rewrite P2; [apply Hall; lia|apply bn_range; lia|apply Hall; lia].
  - rewrite Q13. rewrite P13. done.
Qed.

(** One turn of the loop: [m] bytes within one block. *)
Lemma write_step_post off tot m V W x a V1 W1 x1 :
  bmap_post sb ib (off / BSIZE) V W x a V1 W1 x1 → file_inv sb V ib x →
  0 ≤ off → 0 ≤ tot → 0 < m ≤ BSIZE - off mod BSIZE → off + m ≤ MAXFILE * BSIZE →
  (Z.to_nat tot + Z.to_nat m ≤ length src)%nat →
  write_post off tot m 1 V W x
    (bupd a (splice (Z.to_nat (off mod BSIZE)) (slice (Z.to_nat tot) (Z.to_nat m) src) (V1 a)) V1)
    ({[a]} ∪ W1) x1.
Proof.
  intros [P1 P2 P3 P4 P5 P6 PF PI P7 P8 P9 P10 P11 P12] Hinv Hoff Htot Hm Hmax Hsrc.
  set (bn := off / BSIZE) in *. set (l := slice (Z.to_nat tot) (Z.to_nat m) src).
  assert (Hll : length l = Z.to_nat m) by (unfold l; rewrite length_slice by lia; done).
  assert (Hbn : 0 ≤ bn < 140) by (apply bn_range; lia).
  assert (Ha1 : addr V1 x1 bn ≠ 0) by (by rewrite P2).
  destruct (fi_addr _ _ _ _ P1 bn Hbn Ha1) as [Hfb Hni]. rewrite P2 in Hfb, Hni.
  pose proof (Z.mod_pos_bound off BSIZE ltac:(done)) as Hmo.
  assert (Hsl : length (splice (Z.to_nat (off mod BSIZE)) l (V1 a)) = 512%nat).
  { rewrite length_splice; rewrite (fb_len _ _ _ _ Hfb); [done|]. rewrite Hll. unfold BSIZE in *. lia. }
  destruct (file_inv_data sb V1 ib x1 bn _ P1 Hbn Ha1 Hsl) as [Hinv2 Haddr2]. rewrite P2 in Hinv2, Haddr2.
  assert (Hkeep : ∀ k, 0 ≤ k < 140 → addr V x k ≠ 0 → addr V1 x1 k = addr V x k).
  { intros k Hk Hz. destruct (decide (k = bn)) as [->|]; [|by apply P4].
    destruct (P5 Hz) as (-> & -> & _ & ->). done. }
  assert (Hbyte1 : ∀ o, 0 ≤ o < MAXFILE * BSIZE → addr V x (o / BSIZE) ≠ 0 →
            fbyte V1 x1 o = fbyte V x o).
  { intros o Ho Hz. pose proof (bn_range o Ho) as Hbo. unfold fbyte. rewrite Hkeep by done.
    destruct (fi_addr _ _ _ _ Hinv _ Hbo Hz) as [Hf Hi]. f_equal. apply P7; [apply Hf|done|].
    intros _. apply Hf. }
  split; try done.
  - intros k Hk Hz. rewrite Haddr2. by apply Hkeep.
  - intros k Hk. rewrite Haddr2. destruct (decide (k = bn)) as [->|]; [|left; by apply P4].
    rewrite P2. destruct (decide (addr V x bn = 0)) as [E|E]; [right; by apply PF|left; by apply P5].
  - intros o Ho. rewrite Haddr2.
    replace (o / BSIZE) with bn; [done|]. pose proof (Z.div_mod off BSIZE ltac:(done)).
    apply (Z.div_unique_pos _ _ _ (off mod BSIZE + (o - off))); unfold bn, BSIZE in *; lia.
  - intros o Ho Hmap. pose proof (fbyte_store sb V1 ib x1 off l o P1) as Hst.
    fold bn in Hst. rewrite P2 in Hst. rewrite Hst by (done || lia || (rewrite Hll; lia)).
    rewrite Hll, Z2Nat.id by lia. clear Hst. case_decide as Hin.
    + replace (Z.to_nat (tot + (o - off))) with (Z.to_nat tot + Z.to_nat (o - off))%nat by lia.
      unfold l. rewrite !list_lookup_total_alt. by rewrite lookup_slice by lia.
    + apply Hbyte1; [done|]. by destruct Hmap.
  - intros y Hy Hne Hu Hna. unfold bupd. rewrite (proj2 (Z.eqb_neq y a)); [by apply P7|].
    destruct (decide (addr V x bn = 0)) as [E|E].
    + destruct (PF E) as [Hr Hf]. intros ->. rewrite Hu in Hf by done. done.
    + destruct (P5 E) as (-> & _). by apply Hna.
  - intros y Hy Hu. rewrite in_use_other; [by apply P8|by apply not_bitmap, Hfb|done].
  - set_solver.
  - assert (Hn : nfree sb (bupd a (splice (Z.to_nat (off mod BSIZE)) l (V1 a)) V1) = nfree sb V1).
    { apply nfree_ext. intros y Hy. apply in_use_other; [by apply not_bitmap, Hfb|done]. }
    unfold room in *. rewrite Hn. lia.
  - intros Hall. apply P5. apply Hall. lia.
Qed.

Definition write_step (ip : nat) (off tot m : Z) : K (fstate St) unit :=
  addr <- bmap ip (off / BSIZE);;
  bp <- in_st (st_bread 1 addr);;
  d <- in_st (st_data bp);;
  in_st (st_put bp (splice (Z.to_nat (off mod BSIZE))
                      (slice (Z.to_nat tot) (Z.to_nat m) src) d) ;;;
         st_log_write bp) ;;;
  in_st (st_brelse bp).

Lemma write_step_spec ip off tot m s V W :
  let x := inodep s ip in
  st_rep (fs_st s) V ∅ W → fs_sb s = sb → (ip < length (fs_icache s))%nat →
  file_inv sb V ib x → 0 ≤ off → 0 ≤ tot → 0 < m ≤ BSIZE - off mod BSIZE →
  off + m ≤ MAXFILE * BSIZE → (Z.to_nat tot + Z.to_nat m ≤ length src)%nat →
  1 ≤ room sb V x → (cost sb W x + 2 < st_cap)%nat →
  ∃ t' V' W' x', write_step ip off tot m s = Done tt (set_inode ip x' (with_st t' s)) ∧
    st_rep t' V' ∅ W' ∧ write_post off tot m 1 V W x V' W' x'.
Proof.
  intros x Hr Hsb Hip Hinv Hoff Htot Hm Hmax Hsrc Hroom Hcost. unfold write_step.
  assert (Hbn : 0 ≤ off / BSIZE < 140) by (apply bn_range; lia).
  destruct (bmap_spec sb ip (off / BSIZE) s V W ib Hr Hsb Hip Hinv Hbn) as (a & t1 & V1 & W1 & x1 & E1 & Hr1 & Hp1);
    [done|done|]. fold x in Hp1.
  rewrite (bind_done _ _ _ _ _ E1). set (s1 := set_inode ip x1 (with_st t1 s)) in *.
  assert (Ha1 : addr V1 x1 (off / BSIZE) ≠ 0)
    by (rewrite (bp_addr _ _ _ _ _ _ _ _ _ _ Hp1); apply (bp_nonzero _ _ _ _ _ _ _ _ _ _ Hp1)).
  destruct (fi_addr _ _ _ _ (bp_inv _ _ _ _ _ _ _ _ _ _ Hp1) _ Hbn Ha1) as [Hfb _].
  rewrite (bp_addr _ _ _ _ _ _ _ _ _ _ Hp1) in Hfb.
  pose proof (bp_cost _ _ _ _ _ _ _ _ _ _ Hp1) as Hc1.
  pose proof (cost_W sb ({[a]} ∪ W1) x1) as HcW.
  assert (HW1 : (size W1 ≤ size ({[a]} ∪ W1))%nat) by (apply subseteq_size; set_solver).
  destruct (block_read s1 V1 ∅ W1 a Hr1) as (i & t2 & E2 & E2' & Hi2 & Hr2).
  { apply st_home_range, Hfb. }
  { intros j. by rewrite lookup_empty. }
  { rewrite map_size_empty. lia. }
  rewrite (bind_done _ _ _ _ _ E2), (bind_done _ _ _ _ _ E2').
  destruct (block_update (with_st t2 s1) _ _ _ i a
     (splice (Z.to_nat (off mod BSIZE)) (slice (Z.to_nat tot) (Z.to_nat m) src) (V1 a))
     Hr2 (lookup_insert_eq _ _ _)) as (t3 & E3 & Hr3); [apply Hfb|lia|].
  rewrite (bind_done _ _ _ _ _ E3).
  destruct (block_release (with_st t3 s1) _ _ _ i a Hr3 Hi2) as (t4 & E4 & Hr4).
  eexists t4, _, _, x1. split; [exact E4|]. split; [exact Hr4|].
  by apply write_step_post.
Qed.

Lemma writei_loop_S fuel ip off tot n s :
  i_dev (inodep s ip) = 1 → tot < n →
  writei_loop (S fuel) ip src off tot n s =
    (let m := Z.min (n - tot) (BSIZE - off mod BSIZE) in
     write_step ip off tot m ;;; writei_loop fuel ip src (u32 (off + m)) (tot + m) n) s.
Proof.
  intros Hdev Hlt. cbn [writei_loop]. rewrite (proj2 (Z.ltb_lt tot n)) by done.
  unfold bind at 1, gets at 1. rewrite Hdev. cbv zeta. unfold write_step.
  rewrite !bind_assoc. unfold bind. repeat case_match; simplify_eq; done.
Qed.

Lemma writei_loop_spec k fuel ip off tot n s V W :
  let x := inodep s ip in
  st_rep (fs_st s) V ∅ W → fs_sb s = sb → (ip < length (fs_icache s))%nat →
  file_inv sb V ib x → 0 ≤ off → 0 ≤ tot ≤ n → off + (n - tot) ≤ MAXFILE * BSIZE →
  (Z.to_nat n ≤ length src)%nat → (tot < n → n - tot + off mod BSIZE ≤ BSIZE * Z.of_nat k) →
  (k ≤ fuel)%nat → Z.of_nat k ≤ room sb V x → (cost sb W x + k + 1 < st_cap)%nat →
  ∃ t' V' W' x', writei_loop fuel ip src off tot n s
                   = Done (off + (n - tot)) (set_inode ip x' (with_st t' s)) ∧
    st_rep t' V' ∅ W' ∧ write_post off tot (n - tot) k V W x V' W' x'.
Proof.
  revert fuel off tot s V W. induction k as [|k IH];
    intros fuel off tot s V W x Hr Hsb Hip Hinv Hoff Htot Hmax Hsrc Hk Hfuel Hroom Hcost.
  { pose proof (Z.mod_pos_bound off BSIZE ltac:(done)).
    assert (n - tot = 0) by (destruct (decide (tot < n)); [specialize (Hk ltac:(done))|]; lia).
    replace (n - tot) with 0 by lia. rewrite Z.add_0_r. exists (fs_st s), V, W, x.
    split; [|split; [done|by apply write_post_nil]].
    assert (E : set_inode ip x (with_st (fs_st s) s) = s).
    { destruct s. by apply set_inode_same. }
    rewrite E. destruct fuel; cbn [writei_loop]; by rewrite (proj2 (Z.ltb_ge tot n)) by lia. }
  destruct fuel as [|fuel]; [lia|]. destruct (decide (tot < n)) as [Hlt|Hge].
  2: { replace (n - tot) with 0 by lia. rewrite Z.add_0_r. exists (fs_st s), V, W, x.
       split; [|split; [done|]].
       - assert (E : set_inode ip x (with_st (fs_st s) s) = s) by (destruct s; by apply set_inode_same).
         rewrite E. cbn [writei_loop]. by rewrite (proj2 (Z.ltb_ge tot n)) by lia.
       - destruct (write_post_nil off tot V W x Hinv) as [P1 P2 P3 P4 P5 P6 P7 P8 P9 P10 P11 P12 P13].
         split; try done; lia. }
  rewrite writei_loop_S by (done || apply Hinv). cbv zeta.
  pose proof (Z.mod_pos_bound off BSIZE ltac:(done)) as Hmo.
  set (m := Z.min (n - tot) (BSIZE - off mod BSIZE)).
  assert (Hm : 0 < m ≤ n - tot) by (unfold m; lia).
  destruct (write_step_spec ip off tot m s V W Hr Hsb Hip Hinv) as (t1 & V1 & W1 & x1 & E1 & Hr1 & Hp1);
    [lia|lia|unfold m; lia|lia|lia|fold x; lia|fold x; lia|]. fold x in Hp1.
  rewrite (bind_done _ _ _ _ _ E1). set (s1 := set_inode ip x1 (with_st t1 s)).
  assert (Hx1 : inodep s1 ip = x1) by (by apply inodep_upd).
  assert (Hu : u32 (off + m) = off + m)
    by (apply Z.mod_small; change (MAXFILE * BSIZE) with 71680 in Hmax; lia). rewrite Hu.
  pose proof (wp_room _ _ _ _ _ _ _ _ _ _ Hp1). pose proof (wp_cost _ _ _ _ _ _ _ _ _ _ Hp1).
  destruct (IH fuel (off + m) (tot + m) s1 V1 W1) as (t2 & V2 & W2 & x2 & E2 & Hr2 & Hp2);
    rewrite ?Hx1; try done; try lia.
  { unfold s1, set_inode, upd_inode. cbn. by rewrite length_alter. }
  { apply (wp_inv _ _ _ _ _ _ _ _ _ _ Hp1). }
  { intros Hlt'. assert (Em : m = BSIZE - off mod BSIZE) by lia.
    assert (E0 : (off + m) mod BSIZE = 0).
    { rewrite Em. pose proof (Z.div_mod off BSIZE ltac:(done)).
      replace (off + (BSIZE - off mod BSIZE)) with ((off / BSIZE + 1) * BSIZE) by lia.
      apply Z.mod_mul. done. }
    specialize (Hk Hlt). rewrite E0. lia. }
  rewrite Hx1 in Hp2. exists t2, V2, W2, x2. split; [|split; [done|]].
  - rewrite E2. f_equal; [lia|]. unfold s1, set_inode, with_st.
    unfold upd_inode. cbn. by rewrite list_alter_alter_eq.
  - replace (n - tot) with (m + (n - (tot + m))) by lia. change (S k) with (1 + k)%nat.
    eapply write_post_trans; [lia|lia|lia|lia|lia|exact Hp1|exact Hp2].
Qed.

(** Storing the inode does not touch the file. *)
Lemma file_inv_ib V x d :
  file_inv sb V ib x →
  file_inv sb (bupd ib d V) ib x ∧ (∀ k, addr (bupd ib d V) x k = addr V x k) ∧
  ∀ o, 0 ≤ o < MAXFILE * BSIZE → addr V x (o / BSIZE) ≠ 0 → fbyte (bupd ib d V) x o = fbyte V x o.
Proof.
  intros Hinv.
  assert (Hsame : ∀ y, y ≠ ib → bupd ib d V y = V y)
    by (intros y Hy; unfold bupd; by rewrite (proj2 (Z.eqb_neq _ _))).
  assert (Haddr : ∀ k, addr (bupd ib d V) x k = addr V x k).
  { intros k. unfold addr. destruct (k <? 12); [done|].
    destruct (Z.eqb_spec (indirect x) 0) as [|Hi]; [done|]. rewrite Hsame; [done|].
    by apply (fi_ind _ _ _ _ Hinv). }
  assert (Hus : ∀ y, 0 ≤ y < sb_size sb → in_use sb (bupd ib d V) y = in_use sb V y).
  { intros y Hy. apply in_use_other; [apply not_bitmap, Hinv|done]. }
  assert (Hblk : ∀ y, file_block sb V ib y → file_block sb (bupd ib d V) ib y).
  { intros y [H1 H2 H3 H4 H5 H6]. split; try done; [by rewrite Hus|by rewrite Hsame]. }
  split; [|split; [done|]].
  - split; try apply Hinv.
    + apply bitmap_ok_other; apply Hinv.
    + rewrite Hus by (pose proof (fi_sb _ _ _ _ Hinv); lia). apply Hinv.
    + intros Hib. rewrite Hus by done. by apply Hinv.
    + intros Hi. by apply Hblk, Hinv.
    + intros k Hk. rewrite Haddr. intros Hka. destruct (fi_addr _ _ _ _ Hinv k Hk Hka). auto.
    + intros k k'. rewrite !Haddr. apply Hinv.
  - intros o Ho Ha. unfold fbyte. rewrite Haddr, Hsame; [done|].
    by apply (fi_addr _ _ _ _ Hinv _ (bn_range o Ho)).
Qed.

(** The number of blocks that [n] bytes at offset [off] touch. *)
Definition nblocks (off n : Z) : nat := Z.to_nat ((off mod BSIZE + n + (BSIZE - 1)) / BSIZE).

Lemma nblocks_ok off n : 0 ≤ n → n + off mod BSIZE ≤ BSIZE * Z.of_nat (nblocks off n).
Proof.
  intros Hn. unfold nblocks. pose proof (Z.mod_pos_bound off BSIZE ltac:(done)).
  rewrite Z2Nat.id by (apply Z.div_pos; unfold BSIZE in *; lia).
  pose proof (Z.div_mod (off mod BSIZE + n + (BSIZE - 1)) BSIZE ltac:(done)).
  pose proof (Z.mod_pos_bound (off mod BSIZE + n + (BSIZE - 1)) BSIZE ltac:(done)). lia.
Qed.

Lemma nblocks_fuel off n : 0 ≤ n → (nblocks off n ≤ Z.to_nat (n / BSIZE + 2))%nat.
Proof.
  intros Hn. unfold nblocks. pose proof (Z.mod_pos_bound off BSIZE ltac:(done)).
  apply Z2Nat.inj_le; [apply Z.div_pos; unfold BSIZE in *; lia| |].
  - pose proof (Z.div_pos n BSIZE). unfold BSIZE in *. lia.
  - replace (n / BSIZE + 2) with ((n + 2 * BSIZE) / BSIZE) by (by rewrite Z.div_add).
    apply Z.div_le_mono; unfold BSIZE in *; lia.
Qed.

(** The content with [n] bytes of [src] at [off]. *)
Definition overwrite (off n : Z) (c : list Z) : list Z :=
  take (Z.to_nat off) c ++ take (Z.to_nat n) src ++ drop (Z.to_nat (off + n)) c.

Lemma content_overwrite V x V' x' off n :
  0 ≤ off ≤ i_size x → 0 ≤ n → (Z.to_nat n ≤ length src)%nat →
  i_size x' = Z.max (i_size x) (off + n) →
  (∀ o, 0 ≤ o < i_size x' →
     fbyte V' x' o = if decide (off ≤ o < off + n) then src !!! Z.to_nat (o - off) else fbyte V x o) →
  content V' x' = overwrite off n (content V x).
Proof.
  intros Hoff Hn Hsrc Hsize Hbyte. unfold content, overwrite.
  apply list_eq. intros i. rewrite list_lookup_fmap.
  assert (Hlc : length (fbyte V x <$> seqZ 0 (i_size x)) = Z.to_nat (i_size x))
    by (by rewrite length_fmap, length_seqZ).
  destruct (decide (i < Z.to_nat (i_size x'))%nat) as [Hi|Hi].
  - rewrite lookup_seqZ_lt by lia. cbn [fmap option_fmap option_map]. rewrite Hbyte by lia.
    destruct (decide (i < Z.to_nat off)%nat) as [H1|H1].
    { rewrite lookup_app_l by (rewrite length_take, Hlc; lia).
      rewrite lookup_take_lt, list_lookup_fmap, lookup_seqZ_lt by lia. cbn.
      by rewrite decide_False by lia. }
    rewrite lookup_app_r by (rewrite length_take, Hlc; lia). rewrite length_take, Hlc.
    rewrite Nat.min_l by lia.
    destruct (decide (i < Z.to_nat off + Z.to_nat n)%nat) as [H2|H2].
    + rewrite lookup_app_l by (rewrite length_take; lia). rewrite lookup_take_lt by lia.
      rewrite decide_True by lia. symmetry. rewrite list_lookup_lookup_total_lt by lia.
      do 2 f_equal. lia.
    + rewrite lookup_app_r by (rewrite length_take; lia). rewrite length_take, Nat.min_l by lia.
      rewrite lookup_drop, list_lookup_fmap, lookup_seqZ_lt by lia. cbn.
      rewrite decide_False by lia. do 2 f_equal. lia.
  - rewrite lookup_seqZ_ge by lia. cbn. symmetry. apply lookup_ge_None.
    rewrite !length_app, !length_take, length_drop, Hlc. lia.
Qed.

Variable devread : Z → option (nat → Z → Z → K (fstate St) (Z * list Z)).
Variable devwrite : Z → option (nat → Z → list Z → Z → K (fstate St) Z).

(** A file ready to be written: regular content, in range, its inode block
    writable, and room on the disk and in the transaction. *)
Record writable (s : fstate St) (ip : nat) V W (off n : Z) : Prop := {
  wr_rep : st_rep (fs_st s) V ∅ W;
  wr_sb : fs_sb s = sb;
  wr_ip : (ip < length (fs_icache s))%nat;
  wr_inv : file_inv sb V ib (inodep s ip);
  wr_dense : dense V (inodep s ip);
  wr_type : i_type (inodep s ip) ≠ T_DEV;
  wr_ib : ib = IBLOCK (i_inum (inodep s ip)) sb;
  wr_home : st_home ib;
  wr_room : Z.of_nat (nblocks off n) ≤ room sb V (inodep s ip);
  wr_cost : (cost sb W (inodep s ip) + nblocks off n + 1 < st_cap)%nat
}.

Lemma write_post_dense off n k V W x V' W' x' z :
  write_post off 0 n k V W x V' W' x' → dense V x → 0 ≤ off ≤ i_size x → 0 ≤ n →
  off + n ≤ MAXFILE * BSIZE → z = Z.max (i_size x) (off + n) → dense V' (set_i_size z x').
Proof.
  intros Hp [Hs Hd] Hoff Hn Hmax ->. split; [cbn; lia|]. intros bn Hbn Hlt. cbn in Hlt.
  change (addr V' (set_i_size _ x') bn) with (addr V' x' bn).
  destruct (decide (bn * BSIZE < i_size x)) as [H1|H1].
  - rewrite (wp_addr _ _ _ _ _ _ _ _ _ _ Hp); [by apply Hd| |by apply Hd].
    change (MAXFILE * BSIZE) with (140 * 512) in Hs. unfold BSIZE in *. lia.
  - replace bn with ((bn * BSIZE) / BSIZE) by (by rewrite Z.div_mul).
    apply (wp_mapped _ _ _ _ _ _ _ _ _ _ Hp). lia.
Qed.

Lemma writei_spec s ip V W off n :
  writable s ip V W off n → let x := inodep s ip in
  0 ≤ off ≤ i_size x → 0 ≤ n → off + n ≤ MAXFILE * BSIZE → (Z.to_nat n ≤ length src)%nat →
  ∃ t' V' W' x', writei devwrite ip src off n s = Done n (set_inode ip x' (with_st t' s)) ∧
    st_rep t' V' ∅ W' ∧ file_inv sb V' ib x' ∧ dense V' x' ∧
    i_size x' = Z.max (i_size x) (off + n) ∧
    content V' x' = overwrite off n (content V x) ∧
    (size W' < st_cap)%nat ∧ i_type x' = i_type x ∧
    (if decide (i_size x < off + n)
     then V' ib = put_dinode (Z.to_nat (i_inum x mod IPB)) (inode_dinode x') (V ib)
     else V' ib = V ib ∧ x' = x).
Proof.
  intros [Hr Hsb Hip Hinv Hd Hty Hib Hhome Hroom Hcost] x Hoff Hn Hmax Hsrc. fold x in Hinv, Hd, Hty, Hib, Hroom, Hcost.
  unfold writei. unfold bind at 1, gets at 1. fold x.
  rewrite (proj2 (Z.eqb_neq _ _)) by done.
  assert (Hu : u32 (off + n) = off + n)
    by (apply Z.mod_small; change (MAXFILE * BSIZE) with 71680 in Hmax; lia). rewrite Hu.
  rewrite (proj2 (Z.ltb_ge (i_size x) off)), (proj2 (Z.ltb_ge (off + n) off)) by lia. cbn [orb].
  rewrite (proj2 (Z.ltb_ge (MAXFILE * BSIZE) _)) by lia.
  destruct (writei_loop_spec (nblocks off n) (Z.to_nat (n / BSIZE + 2)) ip off 0 n s V W Hr Hsb Hip Hinv)
    as (t1 & V1 & W1 & x1 & E1 & Hr1 & Hp1); fold x; try lia.
  { intros _. rewrite Z.sub_0_r. by apply nblocks_ok. }
  { by apply nblocks_fuel. }
  rewrite Z.sub_0_r in E1, Hp1. fold x in Hp1. rewrite (bind_done _ _ _ _ _ E1).
  set (s1 := set_inode ip x1 (with_st t1 s)).
  assert (Hx1 : inodep s1 ip = x1) by (by apply inodep_upd).
  assert (Hsz1 : i_size x1 = i_size x) by (rewrite (wp_meta _ _ _ _ _ _ _ _ _ _ Hp1); done).
  assert (Hin1 : i_inum x1 = i_inum x) by (rewrite (wp_meta _ _ _ _ _ _ _ _ _ _ Hp1); done).
  assert (Hty1 : i_type x1 = i_type x) by (rewrite (wp_meta _ _ _ _ _ _ _ _ _ _ Hp1); done).
  pose proof (wp_inv _ _ _ _ _ _ _ _ _ _ Hp1) as Hinv1.
  pose proof (wp_cost _ _ _ _ _ _ _ _ _ _ Hp1) as Hc1. pose proof (cost_W sb W1 x1) as HcW.
  assert (Hframe : V1 ib = V ib).
  { apply (wp_frame _ _ _ _ _ _ _ _ _ _ Hp1); [apply Hinv| |apply Hinv|].
    - destruct (decide (indirect x = 0)) as [E|E].
      + rewrite E. apply Hinv.
      + apply not_eq_sym. by apply (fi_ind _ _ _ _ Hinv).
    - intros bn Hbn Ha. apply not_eq_sym. by apply (fi_addr _ _ _ _ Hinv bn Hbn Ha). }
  assert (Hbyte : ∀ o, 0 ≤ o < Z.max (i_size x) (off + n) →
    addr V1 x1 (o / BSIZE) ≠ 0 ∧
    fbyte V1 x1 o = if decide (off ≤ o < off + n) then src !!! Z.to_nat (o - off) else fbyte V x o).
  { intros o Ho. assert (Hor : 0 ≤ o < MAXFILE * BSIZE) by (destruct Hd; lia). split.
    - destruct (decide (off ≤ o < off + n)); [by apply (wp_mapped _ _ _ _ _ _ _ _ _ _ Hp1)|].
      destruct (dense_at V x o Hd) as [Hbn Ha]; [lia|].
      by rewrite (wp_addr _ _ _ _ _ _ _ _ _ _ Hp1).
    - rewrite (wp_bytes _ _ _ _ _ _ _ _ _ _ Hp1 o Hor); [done|].
      destruct (decide (off ≤ o < off + n)); [by left|right; apply (dense_at V x o Hd); lia]. }
  unfold bind at 1, gets at 1. rewrite Hx1, Hsz1.
  destruct (decide (i_size x < off + n)) as [Hgrow|Hfit].
  - rewrite (proj2 (Z.ltb_lt 0 n)), (proj2 (Z.ltb_lt (i_size x) _)) by lia. cbn [andb].
    unfold bind at 1. unfold bind at 1, modify at 1.
    set (x2 := set_i_size (off + n) x1). set (s2 := upd_inode ip (set_i_size (off + n)) s1).
    assert (Hip1 : (ip < length (fs_icache s1))%nat)
      by (unfold s1, set_inode, upd_inode; cbn; by rewrite length_alter).
    assert (Hx2 : inodep s2 ip = x2) by (unfold s2; rewrite inodep_upd by done; by rewrite Hx1).
    destruct (iupdate_spec ip s2 V1 ∅ W1 Hr1) as (t2 & E2 & Hr2); rewrite ?Hx2.
    { apply Hinv1. }
    { change (fs_sb s2) with (fs_sb s). rewrite Hsb. cbn. by rewrite Hin1, <- Hib. }
    { intros j. by rewrite lookup_empty. }
    { rewrite map_size_empty. lia. }
    rewrite E2. unfold ret.
    change (fs_sb s2) with (fs_sb s) in Hr2. rewrite Hx2, Hsb in Hr2.
    change (i_inum x2) with (i_inum x1) in Hr2. rewrite Hin1, <- Hib, Hframe in Hr2.
    set (d := put_dinode _ _ _) in Hr2.
    destruct (file_inv_ib V1 x2 d) as (Hinv2 & Haddr2 & Hbyte2).
    { destruct Hinv1. by split. }
    eexists t2, _, _, x2. split.
    { f_equal. unfold s2, s1, set_inode, upd_inode, with_st. cbn. rewrite !list_alter_alter_eq. done. }
    split; [exact Hr2|]. split; [exact Hinv2|].
    assert (Hd2 : dense V1 x2) by (eapply write_post_dense; [exact Hp1|done|done|done|done|lia]).
    split. { destruct Hd2 as [H1 H2]. split; [exact H1|]. intros bn. rewrite Haddr2. apply H2. }
    split; [cbn; lia|]. split.
    + eapply content_overwrite; try done; [cbn; lia|]. intros o Ho.
      cbn [i_size set_i_size x2] in Ho. destruct (Hbyte o) as [Ha Hb]; [lia|].
      rewrite Hbyte2; [exact Hb|lia|exact Ha].
    + pose proof (size_add W1 ib). split; [lia|]. split; [exact Hty1|].
      unfold bupd. by rewrite Z.eqb_refl.
  - assert (Hold : x1 = x).
    { apply (wp_old _ _ _ _ _ _ _ _ _ _ Hp1). intros o Ho. apply (dense_at V x o Hd). lia. }
    rewrite (proj2 (Z.ltb_ge (i_size x) _)) by lia. rewrite andb_false_r. unfold bind, ret.
    exists t1, V1, W1, x1. split; [done|]. split; [done|]. split; [done|]. split.
    { replace x1 with (set_i_size (Z.max (i_size x) (off + n)) x1).
      - by eapply write_post_dense.
      - rewrite Z.max_l, <- Hsz1 by lia. by destruct x1. }
    split; [lia|]. split; [|split; [lia|split; [done|split; [done|done]]]].
    eapply content_overwrite; try done; [lia|]. intros o Ho. apply Hbyte. lia.
Qed.
End write.

(** ** Inodes of the sample file system *)

(** An open inode whose content is in block [a]. *)
Definition sample_open (inum type size a : Z) : inode :=
  Inode 1 inum 1 (Sleeplock true 1) 2 type 0 0 1 size (a :: replicate 12 0).
Definition sample_file : inode := sample_open 2 T_FILE 5 60.
Definition sample_root : inode := sample_open 1 T_DIR 512 59.

Lemma sample_addr V inum ty sz a bn :
  0 ≤ bn < 140 → addr V (sample_open inum ty sz a) bn = if bn =? 0 then a else 0.
Proof.
  intros Hbn. unfold addr. change (indirect _) with 0. cbn [Z.eqb].
  destruct (Z.ltb_spec bn 12) as [Hlt|Hge]; [|by rewrite (proj2 (Z.eqb_neq bn 0)) by lia].
  assert (H : Forall (λ k, (i_addrs (sample_open inum ty sz a) !!! Z.to_nat k) = if k =? 0 then a else 0) (seqZ 0 12))
    by (vm_compute; repeat constructor).
  rewrite Forall_forall in H. apply H, elem_of_seqZ. lia.
Qed.

Lemma sample_bitmap_blocks : bitmap_blocks sample_sb = {[58]}.
Proof. by vm_compute. Qed.

Section sample.
Variable V : bview.
Hypothesis HV : ∀ b, home 2 30 1000 b → V b = sample_image b.
Variables (inum ty sz a : Z).
Hypothesis Ha : 59 ≤ a ≤ 60.
Hypothesis Hsz : 0 < sz ≤ 512.

Lemma sample_V b : 32 ≤ b < 1000 → V b = sample_image b.
Proof. intros Hb. apply HV, sample_is_home. lia. Qed.

Lemma sample_in_use b : 0 ≤ b < 1000 → in_use sample_sb V b = bit_set sample_bitmap b.
Proof.
  intros Hb. unfold in_use. rewrite sample_BBLOCK, sample_V by lia.
  by rewrite Z.mod_small by (unfold BPB, BSIZE; lia).
Qed.

Lemma sample_file_inv : file_inv (L := sample_laws) sample_sb V 32 (sample_open inum ty sz a).
Proof.
  split; change (sb_size sample_sb) with 1000; rewrite ?sample_bitmap_blocks.
  - by apply sample_bitmap_ok.
  - lia.
  - rewrite sample_in_use by lia. by vm_compute.
  - done.
  - done.
  - intros _. rewrite sample_in_use by lia. by vm_compute.
  - set_solver.
  - lia.
  - done.
  - intros bn Hbn. rewrite sample_addr by done. destruct (Z.eqb_spec bn 0); [|done]. intros _.
    split; [|change (a ≠ 0); lia]. split; rewrite ?sample_bitmap_blocks.
    + change (sb_size sample_sb) with 1000. lia.
    + apply sample_home. lia.
    + rewrite sample_in_use by lia. apply sample_used. lia.
    + rewrite elem_of_singleton. lia.
    + lia.
    + rewrite sample_V by lia. assert (a = 59 ∨ a = 60) as [-> | ->] by lia; by vm_compute.
  - intros bn bn' Hbn Hbn'. rewrite !sample_addr by done.
    destruct (Z.eqb_spec bn 0), (Z.eqb_spec bn' 0); lia.
Qed.

Lemma sample_dense : dense V (sample_open inum ty sz a).
Proof.
  split; [change (MAXFILE * BSIZE) with 71680; cbn; lia|]. intros bn H0 Hlt.
  assert (bn = 0) as -> by (cbn in Hlt; unfold BSIZE in Hlt; lia). rewrite sample_addr by lia. cbn. lia.
Qed.

(** The content of the file is that of the image. *)
Lemma sample_content :
  content V (sample_open inum ty sz a) = content sample_image (sample_open inum ty sz a).
Proof.
  apply list_fmap_ext. intros i o Ho. apply list_elem_of_lookup_2, elem_of_seqZ in Ho. cbn in Ho.
  unfold fbyte. rewrite Z.div_small by (unfold BSIZE; lia).
  rewrite !sample_addr by lia. cbn. by rewrite sample_V by lia.
Qed.

Lemma sample_nfree : nfree sample_sb V = 939%nat.
Proof.
  rewrite (nfree_ext _ V sample_image); [by vm_compute|].
  intros b Hb. change (sb_size sample_sb) with 1000 in Hb. rewrite sample_in_use by done.
  unfold in_use. rewrite sample_BBLOCK by done. by rewrite Z.mod_small by (unfold BPB, BSIZE; lia).
Qed.

Lemma sample_writable t off n :
  st_rep (BlockLaws := sample_laws) t V ∅ ∅ → (nblocks off n ≤ 20)%nat →
  0 ≤ inum < 8 → ty ≠ T_DEV →
  writable (L := sample_laws) sample_sb 32 (FState t sample_sb [sample_open inum ty sz a]) 0 V ∅ off n.
Proof.
  intros Hr Hn Hi Hty. split.
  - exact Hr.
  - reflexivity.
  - cbn. lia.
  - apply sample_file_inv.
  - apply sample_dense.
  - exact Hty.
  - unfold IBLOCK. change (i_inum _) with inum. change IPB with 8.
    rewrite Z.div_small by lia. reflexivity.
  - apply sample_home. lia.
  - unfold room. rewrite sample_nfree. change (indirect _) with 0. cbn. lia.
  - unfold cost, map_blocks. rewrite sample_bitmap_blocks.
    change (indirect (inodep _ 0)) with 0. cbn [Z.eqb].
    replace (size ({[58]} ∪ ∅ ∪ ∅ : gset Z)) with 1%nat by (by vm_compute).
    change (@st_cap lstate log_store sample_laws) with 29%nat. lia.
Qed.
End sample.

(** ** Properties *)

(** C19: writei stores the bytes.  Within the size limits, writei of [n] bytes at
    an offset [off] not beyond the end of the file returns [n]; the content of
    the file is then the old one with these bytes in place, and its size the old
    one or the end of the new bytes, whichever is greater.  Blocks are allocated
    as needed, the invariant of the block map holds again, and if the file has
    grown its inode is on the disk.  Beyond the limits it returns -1 and changes
    nothing. *)
Theorem writei_content {St} {B : BlockStore St} {L : BlockLaws St}
    devwrite sb ib src (s : fstate St) ip V W off n :
  writable sb ib s ip V W off n → let x := inodep s ip in
  0 ≤ off → 0 ≤ n → off + n < 2 ^ 32 → (Z.to_nat n ≤ length src)%nat →
  if decide (off ≤ i_size x ∧ off + n ≤ MAXFILE * BSIZE) then
    ∃ t' V' W' x', writei devwrite ip src off n s = Done n (set_inode ip x' (with_st t' s)) ∧
      st_rep t' V' ∅ W' ∧ file_inv sb V' ib x' ∧ dense V' x' ∧
      i_size x' = Z.max (i_size x) (off + n) ∧
      content V' x' = overwrite src off n (content V x) ∧
      (i_size x < off + n →
         V' ib = put_dinode (Z.to_nat (i_inum x mod IPB)) (inode_dinode x') (V ib))
  else writei devwrite ip src off n s = Done (-1) s.
Proof.
  intros Hw x Hoff Hn Hov Hsrc. case_decide as Hd.
  - destruct (writei_spec sb ib src devwrite s ip V W off n Hw) as
      (t' & V' & W' & x' & E & Hr & Hinv & Hde & Hsz & Hc & _ & _ & Hib); [fold x; lia|done|lia|done|].
    exists t', V', W', x'. repeat (split; [done|]). intros Hgrow.
    fold x in Hib. by rewrite decide_True in Hib.
  - pose proof (wr_type _ _ _ _ _ _ _ _ Hw) as Hty. fold x in Hty.
    unfold writei, bind at 1, gets at 1. fold x. rewrite (proj2 (Z.eqb_neq _ _)) by done.
    assert (Hu : u32 (off + n) = off + n) by (apply Z.mod_small; lia). rewrite Hu.
    destruct (Z.ltb_spec (i_size x) off); [done|].
    rewrite (proj2 (Z.ltb_ge (off + n) off)) by lia. cbn [orb].
    by rewrite (proj2 (Z.ltb_lt (MAXFILE * BSIZE) _)) by lia.
Qed.

Lemma writei_content_witness :
  ∃ (s : fstate lstate) t' V' W' x', i_size (inodep s 0) = 5 ∧
    writei (λ _, None) 0 (replicate 700 9) 3 700 s = Done 700 (set_inode 0 x' (with_st t' s)) ∧
    st_rep (BlockLaws := sample_laws) t' V' ∅ W' ∧ i_size x' = 703.
Proof.
  destruct sample_store as (t & V & Hr & HV).
  pose proof (writei_content (L := sample_laws) (λ _, None) sample_sb 32 (replicate 700 9)
    (FState t sample_sb [sample_file]) 0 V ∅ 3 700
    (sample_writable V HV 2 T_FILE 5 60 ltac:(lia) ltac:(lia) t 3 700 Hr ltac:(vm_compute; lia)
       ltac:(lia) ltac:(done))
    ltac:(lia) ltac:(lia) ltac:(lia) ltac:(rewrite length_replicate; lia)) as H.
  rewrite decide_True in H by (vm_compute; split; congruence).
  destruct H as (t' & V' & W' & x' & E & Hr' & _ & _ & Hsz & _).
  exists (FState t sample_sb [sample_file]), t', V', W', x'.
  split; [reflexivity|]. split; [exact E|]. split; [exact Hr'|]. rewrite Hsz. reflexivity.
Defined.

(** readi reads the file.  Of a regular file with its blocks mapped, readi
    at an offset within the file returns the bytes from there on, [n] of them or
    as many as there are before the end; beyond the end, or if the end of the
    range overflows 32 bits, it returns -1.  It changes neither the disk nor the
    inode. *)
Theorem readi_content {St} {B : BlockStore St} {L : BlockLaws St}
    devread sb ib (s : fstate St) ip V W off n :
  let x := inodep s ip in
  st_rep (fs_st s) V ∅ W → fs_sb s = sb → file_inv sb V ib x → dense V x →
  (size W ≤ st_cap)%nat → i_type x ≠ T_DEV → 0 ≤ off < 2 ^ 32 → 0 ≤ n < 2 ^ 32 →
  if decide (off ≤ i_size x ∧ off + n < 2 ^ 32) then
    let m := Z.min n (i_size x - off) in
    ∃ t', readi devread ip off n s =
            Done (m, slice (Z.to_nat off) (Z.to_nat m) (content V x)) (with_st t' s) ∧
          st_rep t' V ∅ W
  else readi devread ip off n s = Done (-1, []) s.
Proof.
  intros x Hr Hsb Hinv Hd Hsz Hty Hoff Hn. case_decide as Hc.
  - apply (readi_spec sb devread ip off n s V W ib); fold x; (done || lia).
  - unfold readi, bind at 1, gets at 1. fold x. rewrite (proj2 (Z.eqb_neq _ _)) by done.
    destruct (Z.ltb_spec (i_size x) off); [done|].
    assert (Hu : u32 (off + n) = off + n - 2 ^ 32).
    { unfold u32. symmetry. apply (Z.mod_unique_pos _ _ 1); lia. }
    rewrite Hu. by rewrite (proj2 (Z.ltb_lt _ off)) by lia.
Qed.

Lemma readi_content_witness :
  ∃ (s : fstate lstate) t', readi (λ _, None) 0 1 100 s =
    Done (4, [101; 108; 108; 111]) (with_st t' s).
Proof.
  destruct sample_store as (t & V & Hr & HV).
  pose proof (readi_content (L := sample_laws) (λ _, None) sample_sb 32
    (FState t sample_sb [sample_file]) 0 V ∅ 1 100 Hr eq_refl
    (sample_file_inv V HV 2 T_FILE 5 60 ltac:(lia) ltac:(lia))
    (sample_dense V 2 T_FILE 5 60 ltac:(lia) ltac:(lia)) ltac:(vm_compute; lia) ltac:(done) ltac:(lia) ltac:(lia)) as H.
  rewrite decide_True in H by (vm_compute; split; congruence).
  destruct H as (t' & E & _). exists (FState t sample_sb [sample_file]), t'.
  rewrite E. f_equal. f_equal.
  change (inodep _ 0) with sample_file. unfold sample_file.
  rewrite (sample_content V HV 2 T_FILE 5 60) by lia. by vm_compute.
Defined.

(** C3: what is written is read back: after a successful writei, readi of the
    same range of the same file returns exactly the bytes written. *)
Theorem writei_readi {St} {B : BlockStore St} {L : BlockLaws St}
    devread devwrite sb ib src (s : fstate St) ip V W off n :
  writable sb ib s ip V W off n → let x := inodep s ip in
  0 ≤ off ≤ i_size x → 0 ≤ n → off + n ≤ MAXFILE * BSIZE → (Z.to_nat n ≤ length src)%nat →
  ∃ s' s'', writei devwrite ip src off n s = Done n s' ∧
    readi devread ip off n s' = Done (n, take (Z.to_nat n) src) s''.
Proof.
  intros Hw x Hoff Hn Hmax Hsrc.
  destruct (writei_spec sb ib src devwrite s ip V W off n Hw) as
    (t' & V' & W' & x' & E & Hr & Hinv & Hde & Hsz & Hc & HW & Hty & _); [done|done|done|done|].
  fold x in Hsz, Hc, Hty. set (s' := set_inode ip x' (with_st t' s)) in *.
  assert (Hx' : inodep s' ip = x') by (apply inodep_upd, Hw).
  destruct (readi_spec sb devread ip off n s' V' W' ib) as (t'' & E'' & _); rewrite ?Hx'; try done.
  - apply Hw.
  - lia.
  - rewrite Hty. apply Hw.
  - lia.
  - change (MAXFILE * BSIZE) with 71680 in Hmax. lia.
  - exists s'. eexists. split; [exact E|]. rewrite Hx' in E''. rewrite E''. f_equal. rewrite Z.min_l by lia.
    f_equal. rewrite Hc. unfold overwrite, slice.
    assert (Hlc : length (content V x) = Z.to_nat (i_size x))
      by (unfold content; by rewrite length_fmap, length_seqZ).
    rewrite drop_app_length' by (rewrite length_take, Hlc; lia).
    rewrite take_app_length' by (rewrite length_take; lia). done.
Qed.

Lemma writei_readi_witness :
  ∃ (s s' s'' : fstate lstate), writei (λ _, None) 0 (replicate 700 9) 3 700 s = Done 700 s' ∧
    readi (λ _, None) 0 3 700 s' = Done (700, take (Z.to_nat 700) (replicate 700 9)) s''.
Proof.
  destruct sample_store as (t & V & Hr & HV).
  destruct (writei_readi (L := sample_laws) (λ _, None) (λ _, None) sample_sb 32 (replicate 700 9)
    (FState t sample_sb [sample_file]) 0 V ∅ 3 700
    (sample_writable V HV 2 T_FILE 5 60 ltac:(lia) ltac:(lia) t 3 700 Hr ltac:(vm_compute; lia)
       ltac:(lia) ltac:(done))) as (s' & s'' & E1 & E2).
  - vm_compute. split; congruence.
  - lia.
  - vm_compute. congruence.
  - rewrite length_replicate. lia.
  - exists (FState t sample_sb [sample_file]), s', s''. split; [exact E1|exact E2].
Defined.
