(* ===== verification/FsDirs.v ===== *)
(** * Directories and path names of fs.c *)

From S2P Require Import Prelude Params CString Core Bio BioSpec BioTheorems Log LogCrash BlockStore Fs FsBlocks FsInodes FsFiles FsWrite.

(** ** Names *)

(** The name that a 14-byte field, or a string, stands for. *)
Definition dname (l : list Z) : list Z := cname (Z.to_nat DIRSIZ) (bytes_ptr l).

Lemma namecmp_zero s t : namecmp s t = 0 ↔ dname s = dname t.
Proof. apply strncmp_at_zero. Qed.

Lemma dirent_inum name inum de :
  0 ≤ inum < 65536 → de_inum (make_dirent name inum de) = inum.
Proof.
  intros H. unfold de_inum, field, slice, make_dirent. rewrite drop_0.
  rewrite take_app_le, take_ge by (rewrite length_le_put; lia). apply le_get_put_small. done.
Qed.

Lemma length_dirent name inum de : length de = 16%nat → length (make_dirent name inum de) = 16%nat.
Proof.
  intros H. unfold make_dirent. rewrite length_app, length_le_put, length_strncpy.
  unfold de_name. rewrite length_slice by lia. done.
Qed.

Lemma dirent_name name inum de :
  length de = 16%nat → dname (de_name (make_dirent name inum de)) = dname name.
Proof.
  intros H. assert (Hn : length (de_name de) = 14%nat) by (apply length_slice; lia).
  unfold dname, cname. rewrite <- (cname_at_padded 0 _ (bytes_ptr name)) by lia.
  apply cname_at_ext. intros k Hk. change (Z.to_nat DIRSIZ) with 14%nat in Hk.
  unfold bytes_ptr at 1, de_name at 1. rewrite lookup_slice by lia. unfold make_dirent.
  rewrite lookup_app_r by (rewrite length_le_put; lia). rewrite length_le_put.
  replace (2 + k - 2)%nat with k by lia.
  rewrite lookup_strncpy by (rewrite Hn; unfold DIRSIZ; lia).
  by rewrite decide_True by (unfold DIRSIZ; lia).
Qed.

(** ** Entries of a directory *)
Definition entry (V : bview) (x : inode) (k : nat) : list Z := slice (16 * k) 16 (content V x).
Definition entries (x : inode) : nat := Z.to_nat (i_size x / DIRENT_SIZE).

Definition matches (name de : list Z) : bool :=
  negb (de_inum de =? 0) && (namecmp name (de_name de) =? 0).

(** The first entry in use with that name. *)
Definition lookup_entry (V : bview) (x : inode) (name : list Z) : option nat :=
  find (λ k, matches name (entry V x k)) (seq 0 (entries x)).

(** The first entry not in use; the number of entries if there is none. *)
Definition free_entry (V : bview) (x : inode) : nat :=
  default (entries x) (find (λ k, de_inum (entry V x k) =? 0) (seq 0 (entries x))).

Lemma length_content V x : length (content V x) = Z.to_nat (i_size x).
Proof. unfold content. by rewrite length_fmap, length_seqZ. Qed.

Lemma free_entry_inum V x :
  (free_entry V x < entries x)%nat → de_inum (entry V x (free_entry V x)) = 0.
Proof.
  intros Hlt. unfold free_entry in *. destruct (find _ _) as [j|] eqn:Ef.
  - cbn. apply find_some in Ef as [_ Ef]. by apply Z.eqb_eq.
  - cbn in Hlt. lia.
Qed.

Section dirs.
Context {St : Type} {B : BlockStore St} {L : BlockLaws St}.
Variable sb : superblock.
Variable ib : Z.
Variable devread : Z → option (nat → Z → Z → K (fstate St) (Z * list Z)).
Variable devwrite : Z → option (nat → Z → list Z → Z → K (fstate St) Z).
Implicit Types (s : fstate St) (V : bview) (W : gset Z) (x : inode).

(** An open directory: its content is a sequence of whole entries. *)
Record directory s (dp : nat) V W : Prop := {
  dr_rep : st_rep (fs_st s) V ∅ W;
  dr_sb : fs_sb s = sb;
  dr_ip : (dp < length (fs_icache s))%nat;
  dr_inv : file_inv sb V ib (inodep s dp);
  dr_dense : dense V (inodep s dp);
  dr_type : i_type (inodep s dp) = T_DIR;
  dr_size : i_size (inodep s dp) mod DIRENT_SIZE = 0;
  dr_cap : (size W ≤ st_cap)%nat
}.

Lemma directory_st s dp V W t :
  directory s dp V W → st_rep t V ∅ W → directory (with_st t s) dp V W.
Proof. intros [] Ht. by split. Qed.

(** An open directory of which the first [e] entries are mapped to blocks. *)
Record open_dir s (dp : nat) V W (e : nat) : Prop := {
  od_rep : st_rep (fs_st s) V ∅ W;
  od_sb : fs_sb s = sb;
  od_inv : file_inv sb V ib (inodep s dp);
  od_mapped : mapped V (inodep s dp) (16 * Z.of_nat e);
  od_type : i_type (inodep s dp) = T_DIR;
  od_size : i_size (inodep s dp) mod DIRENT_SIZE = 0;
  od_cap : (size W ≤ st_cap)%nat
}.

Lemma open_dir_st s dp V W e t : open_dir s dp V W e → st_rep t V ∅ W → open_dir (with_st t s) dp V W e.
Proof. intros [] Ht. by split. Qed.

Lemma open_dir_size s dp V W e :
  open_dir s dp V W e → i_size (inodep s dp) = 16 * Z.of_nat (entries (inodep s dp)) ∧
    Z.of_nat (entries (inodep s dp)) ≤ 4480 ∧ (e ≤ entries (inodep s dp))%nat.
Proof.
  intros Hd. destruct (od_mapped _ _ _ _ _ Hd) as (He & Hs & _). pose proof (od_size _ _ _ _ _ Hd) as Hm.
  change (MAXFILE * BSIZE) with 71680 in Hs. unfold entries, DIRENT_SIZE in *.
  assert (0 ≤ i_size (inodep s dp) / 16) by (apply Z.div_pos; lia).
  pose proof (Z.div_mod (i_size (inodep s dp)) 16 ltac:(lia)). lia.
Qed.

Lemma directory_open s dp V W : directory s dp V W → open_dir s dp V W (entries (inodep s dp)).
Proof.
  intros [H1 H2 H3 H4 H5 H6 H7 H8]. split; try done. replace (16 * Z.of_nat _) with (i_size (inodep s dp)); [by apply dense_mapped|].
  destruct H5 as [Hs _]. unfold entries, DIRENT_SIZE in *. rewrite Z2Nat.id by (apply Z.div_pos; lia).
  pose proof (Z.div_mod (i_size (inodep s dp)) 16 ltac:(lia)). lia.
Qed.

Lemma entries_size s dp V W :
  directory s dp V W → i_size (inodep s dp) = 16 * Z.of_nat (entries (inodep s dp)) ∧
    Z.of_nat (entries (inodep s dp)) ≤ 4480.
Proof. intros Hd. destruct (open_dir_size _ _ _ _ _ (directory_open _ _ _ _ Hd)) as (? & ? & _). done. Qed.

(** Reading entry [k]. *)
Lemma read_open_entry s dp V W e k :
  open_dir s dp V W e → (k < e)%nat →
  ∃ t', readi devread dp (16 * Z.of_nat k) DIRENT_SIZE s =
          Done (DIRENT_SIZE, entry V (inodep s dp) k) (with_st t' s) ∧ st_rep t' V ∅ W.
Proof.
  intros Hd Hk. destruct (open_dir_size _ _ _ _ _ Hd) as (Hsz & Hmax & He).
  destruct (readi_mapped sb devread dp (16 * Z.of_nat k) DIRENT_SIZE s V W ib (16 * Z.of_nat e)) as (t' & E & Hr');
    try apply Hd; unfold DIRENT_SIZE in *; try lia.
  { rewrite (od_type _ _ _ _ _ Hd). done. }
  exists t'. split; [|done]. rewrite E, Z.min_l by lia. unfold entry.
  do 3 f_equal. lia.
Qed.

Lemma read_entry s dp V W k :
  directory s dp V W → (k < entries (inodep s dp))%nat →
  ∃ t', readi devread dp (16 * Z.of_nat k) DIRENT_SIZE s =
          Done (DIRENT_SIZE, entry V (inodep s dp) k) (with_st t' s) ∧
        directory (with_st t' s) dp V W.
Proof.
  intros Hd Hk. destruct (read_open_entry s dp V W _ k (directory_open _ _ _ _ Hd) Hk) as (t' & E & Hr).
  exists t'. split; [exact E|by apply directory_st].
Qed.

(** The loop of dirlookup, when it ends within the entries that are mapped. *)
Lemma dirlookup_loop_spec fuel k dp name s V W e :
  let x := inodep s dp in
  let r := find (λ k, matches name (entry V x k)) (seq k (e - k)) in
  open_dir s dp V W e → (k ≤ e)%nat → (entries x - k ≤ fuel)%nat → e = entries x ∨ r ≠ None →
  ∃ t', st_rep t' V ∅ W ∧
    dirlookup_loop devread fuel dp name (16 * Z.of_nat k) s =
      match r with
      | None => Done None (with_st t' s)
      | Some j => (ip <- iget 1 (de_inum (entry V x j));;
                   ret (Some (ip, 16 * Z.of_nat j))) (with_st t' s)
      end.
Proof.
  revert k s. induction fuel as [|fuel IH]; intros k s x r Hd Hk Hf Hend;
    destruct (open_dir_size _ _ _ _ _ Hd) as (Hsz & Hmax & He); fold x in Hsz, Hmax, He;
    cbn [dirlookup_loop]; unfold bind at 1, gets at 1; fold x.
  { rewrite (proj2 (Z.ltb_ge _ _)) by lia. unfold r. replace (e - k)%nat with 0%nat by lia.
    exists (fs_st s). split; [apply Hd|by destruct s]. }
  destruct (decide (k = e)) as [->|Hne].
  { unfold r in *. rewrite Nat.sub_diag in *. destruct Hend as [->|Hend]; [|done]. rewrite (proj2 (Z.ltb_ge _ _)) by lia.
    exists (fs_st s). split; [apply Hd|by destruct s]. }
  rewrite (proj2 (Z.ltb_lt _ _)) by lia.
  destruct (read_open_entry s dp V W e k Hd) as (t1 & E1 & Hr1); [lia|].
  rewrite (bind_done _ _ _ _ _ E1). cbn [fst snd negb]. rewrite Z.eqb_refl. cbn [negb]. fold x.
  unfold r in *. clear r. replace (e - k)%nat with (S (e - S k)) in * by lia. cbn [seq find] in *.
  unfold matches in Hend at 1. unfold matches at 1.
  assert (Hnext : e = entries x ∨ find (λ k, matches name (entry V x k)) (seq (S k) (e - S k)) ≠ None → ∃ t', st_rep t' V ∅ W ∧
    dirlookup_loop devread fuel dp name (u32 (16 * Z.of_nat k + DIRENT_SIZE)) (with_st t1 s) =
      match find (λ k, matches name (entry V x k)) (seq (S k) (e - S k)) with
      | None => Done None (with_st t' s)
      | Some j => (ip <- iget 1 (de_inum (entry V x j));;
                   ret (Some (ip, 16 * Z.of_nat j))) (with_st t' s)
      end).
  { intros Hend'. assert (Hu : u32 (16 * Z.of_nat k + DIRENT_SIZE) = 16 * Z.of_nat (S k))
      by (unfold u32, DIRENT_SIZE; rewrite Z.mod_small; lia). rewrite Hu.
    apply (IH (S k) (with_st t1 s)); [by apply open_dir_st|lia| |exact Hend'].
    change (inodep (with_st t1 s) dp) with x. lia. }
  destruct (Z.eqb_spec (de_inum (entry V x k)) 0) as [E0|E0]; [by apply Hnext|].
  cbn [negb andb] in *. destruct (namecmp name (de_name (entry V x k)) =? 0); [|by apply Hnext].
  exists t1. split; [done|].
  pose proof (fi_dev _ _ _ _ (od_inv _ _ _ _ _ Hd)) as Hdev. fold x in Hdev. by rewrite Hdev.
Qed.

Lemma dirlookup_open dp name s V W e :
  let x := inodep s dp in
  let r := find (λ k, matches name (entry V x k)) (seq 0 e) in
  open_dir s dp V W e → e = entries x ∨ r ≠ None →
  ∃ t', st_rep t' V ∅ W ∧
    dirlookup devread dp name s =
      match r with
      | None => Done None (with_st t' s)
      | Some j => (ip <- iget 1 (de_inum (entry V x j));;
                   ret (Some (ip, 16 * Z.of_nat j))) (with_st t' s)
      end.
Proof.
  intros x r Hd Hend. destruct (open_dir_size _ _ _ _ _ Hd) as (Hsz & _ & _). fold x in Hsz.
  unfold dirlookup, bind at 1, gets at 1. rewrite (od_type _ _ _ _ _ Hd). fold x.
  change (negb (T_DIR =? T_DIR)) with false. cbv iota.
  pose proof (dirlookup_loop_spec (Z.to_nat (i_size x / DIRENT_SIZE + 1)) 0 dp name s V W e) as H. cbv zeta in H. fold x in H.
  rewrite !Nat.sub_0_r in H. apply H; [done|lia| |done].
  unfold entries. assert (0 ≤ i_size x / DIRENT_SIZE) by (apply Z.div_pos; unfold DIRENT_SIZE; lia). lia.
Qed.

Lemma dirlookup_spec dp name s V W :
  let x := inodep s dp in
  directory s dp V W →
  ∃ t', directory (with_st t' s) dp V W ∧
    dirlookup devread dp name s =
      match lookup_entry V x name with
      | None => Done None (with_st t' s)
      | Some j => (ip <- iget 1 (de_inum (entry V x j));;
                   ret (Some (ip, 16 * Z.of_nat j))) (with_st t' s)
      end.
Proof.
  intros x Hd. destruct (dirlookup_open dp name s V W _ (directory_open _ _ _ _ Hd)) as (t' & Hr & E); [by left|].
  exists t'. split; [by apply directory_st|exact E].
Qed.

Lemma dirlink_loop_spec fuel k dp de s V W :
  let x := inodep s dp in
  directory s dp V W → (k ≤ entries x)%nat → (entries x - k ≤ fuel)%nat → length de = 16%nat →
  let r := find (λ k, de_inum (entry V x k) =? 0) (seq k (entries x - k)) in
  ∃ t' de', directory (with_st t' s) dp V W ∧ length de' = 16%nat ∧
    dirlink_loop devread fuel dp (16 * Z.of_nat k) de s =
      Done (16 * Z.of_nat (default (entries x) r), de') (with_st t' s).
Proof.
  revert k de s. induction fuel as [|fuel IH]; intros k de s x Hd Hk Hf Hlen;
    destruct (entries_size _ _ _ _ Hd) as [Hsz Hmax]; fold x in Hsz, Hmax;
    cbn [dirlink_loop]; unfold bind at 1, gets at 1; fold x.
  { rewrite (proj2 (Z.ltb_ge _ _)) by lia. replace (entries x - k)%nat with 0%nat by lia.
    exists (fs_st s), de. split; [|split; [done|]].
    - apply directory_st; [done|apply Hd].
    - replace (entries x) with k by lia. by destruct s. }
  destruct (decide (k = entries x)) as [->|Hne].
  { rewrite (proj2 (Z.ltb_ge _ _)) by lia. rewrite Nat.sub_diag.
    exists (fs_st s), de. split; [|split; [done|by destruct s]].
    apply directory_st; [done|apply Hd]. }
  rewrite (proj2 (Z.ltb_lt _ _)) by lia.
  destruct (read_entry s dp V W k Hd) as (t1 & E1 & Hd1); [fold x; lia|].
  rewrite (bind_done _ _ _ _ _ E1). cbn [fst snd]. rewrite Z.eqb_refl. cbn [negb]. fold x.
  replace (entries x - k)%nat with (S (entries x - S k)) by lia. cbn [seq find].
  assert (Hel : length (entry V x k) = 16%nat)
    by (apply length_slice; rewrite length_content; lia).
  destruct (Z.eqb_spec (de_inum (entry V x k)) 0) as [E0|E0].
  - by exists t1, (entry V x k).
  - replace (16 * Z.of_nat k + DIRENT_SIZE) with (16 * Z.of_nat (S k)) by (unfold DIRENT_SIZE; lia).
    destruct (IH (S k) (entry V x k) (with_st t1 s)) as (t' & de' & Hd' & Hl' & E');
      [done| | |done|].
    + change (inodep (with_st t1 s) dp) with x. lia.
    + change (inodep (with_st t1 s) dp) with x. lia.
    + exists t', de'. split; [exact Hd'|]. split; [exact Hl'|exact E'].
Qed.

(** ** Adding an entry *)

(** A directory that has become another one by setting entry [k]. *)
Definition linked V x V' x' (k : nat) (de : list Z) : Prop :=
  entries x' = max (entries x) (S k) ∧ (k ≤ entries x)%nat ∧
  ∀ j, (j < entries x')%nat → entry V' x' j = if decide (j = k) then de else entry V x j.

Lemma entry_overwrite V x k de j :
  i_size x = 16 * Z.of_nat (entries x) → (k ≤ entries x)%nat → length de = 16%nat →
  (j < max (entries x) (S k))%nat →
  slice (16 * j) 16 (overwrite de (16 * Z.of_nat k) 16 (content V x)) =
    if decide (j = k) then de else entry V x j.
Proof.
  intros Hsz Hk Hde Hj. unfold entry, overwrite. pose proof (length_content V x) as Hlc.
  replace (Z.to_nat (16 * Z.of_nat k)) with (16 * k)%nat by lia.
  replace (Z.to_nat (16 * Z.of_nat k + 16)) with (16 * k + 16)%nat by lia.
  change (Z.to_nat 16) with 16%nat. rewrite (take_ge de) by lia.
  assert (Hlt : length (take (16 * k) (content V x)) = (16 * k)%nat) by (rewrite length_take, Hlc; lia).
  apply list_eq. intros i. destruct (decide (i < 16)%nat) as [Hi|Hi].
  2: { rewrite lookup_slice_ge by lia. case_decide; symmetry;
       [apply lookup_ge_None; lia|apply lookup_slice_ge; lia]. }
  rewrite lookup_slice by done. case_decide as Hjk; [subst j|].
  - rewrite lookup_app_r, Hlt by lia. rewrite lookup_app_l by lia. f_equal. lia.
  - rewrite lookup_slice by done. destruct (decide (j < k)%nat) as [Hlt'|Hge].
    + rewrite lookup_app_l by lia. by rewrite lookup_take_lt by lia.
    + rewrite lookup_app_r, Hlt by lia. rewrite lookup_app_r by lia. rewrite lookup_drop.
      f_equal. lia.
Qed.

Lemma find_seq_app (P : nat → bool) n m :
  find P (seq 0 (n + m)) = match find P (seq 0 n) with Some j => Some j | None => find P (seq n m) end.
Proof.
  rewrite seq_app. generalize (seq 0 n). intros l. induction l as [|y l IH]; [done|].
  cbn. by destruct (P y).
Qed.

Lemma find_ext_seq (P Q : nat → bool) i n :
  (∀ k, (i ≤ k < i + n)%nat → P k = Q k) → find P (seq i n) = find Q (seq i n).
Proof.
  revert i. induction n as [|n IH]; intros i H; [done|]. cbn [seq find].
  rewrite (H i) by lia. rewrite (IH (S i)) by (intros; apply H; lia). done.
Qed.

Lemma find_seq_None (P : nat → bool) i n :
  find P (seq i n) = None ↔ ∀ k, (i ≤ k < i + n)%nat → P k = false.
Proof.
  revert i. induction n as [|n IH]; intros i; cbn [seq find].
  { split; [intros _ k Hk; lia|done]. }
  destruct (P i) eqn:E.
  - split; [done|]. intros H. rewrite H in E by lia. done.
  - rewrite IH. split; intros H k Hk; [|apply H; lia].
    destruct (decide (k = i)) as [->|]; [done|]. apply H. lia.
Qed.

(** The lookup in the new directory. *)
Lemma lookup_linked V x V' x' name inum de0 name' :
  let k := free_entry V x in
  linked V x V' x' k (make_dirent name inum de0) →
  length de0 = 16%nat → 0 < inum < 65536 → lookup_entry V x name = None →
  lookup_entry V' x' name' =
    if decide (dname name' = dname name) then Some k else lookup_entry V x name'.
Proof.
  intros k (Hn & Hk & Hent) Hde Hinum Hnone. unfold lookup_entry in *.
  assert (Hnew : matches name' (make_dirent name inum de0) = bool_decide (dname name' = dname name)).
  { unfold matches. rewrite dirent_inum by lia. rewrite (proj2 (Z.eqb_neq inum 0)) by lia.
    cbn [negb andb]. apply eq_true_iff_eq.
    by rewrite Z.eqb_eq, bool_decide_eq_true, namecmp_zero, dirent_name. }
  pose proof (free_entry_inum V x) as Hfree. fold k in Hfree.
  assert (Hold : (k < entries x)%nat → ∀ nm, matches nm (entry V x k) = false).
  { intros Hlt nm. unfold matches. by rewrite Hfree. }
  pose proof (proj1 (find_seq_None _ _ _) Hnone) as Hno. cbn beta in Hno.
  destruct (decide (dname name' = dname name)) as [Heq|Heq].
  - replace (entries x') with (k + S (entries x' - S k))%nat by lia. rewrite find_seq_app.
    replace (find (λ j, matches name' (entry V' x' j)) (seq 0 k)) with (@None nat).
    + cbn [seq find]. rewrite Hent, decide_True by (done || lia).
      rewrite Hnew, bool_decide_eq_true_2 by done. done.
    + symmetry. apply find_seq_None. intros j Hj. rewrite Hent, decide_False by lia.
      rewrite <- (Hno j) by lia. unfold matches. f_equal.
      apply eq_true_iff_eq. rewrite !Z.eqb_eq, !namecmp_zero. by rewrite Heq.
  - assert (Hsame : ∀ n, (n ≤ entries x)%nat →
      find (λ j, matches name' (entry V' x' j)) (seq 0 n) =
      find (λ j, matches name' (entry V x j)) (seq 0 n)).
    { intros n Hle. apply find_ext_seq. intros j Hj. rewrite Hent by lia.
      destruct (decide (j = k)) as [->|Hjk]; [|done].
      by rewrite Hnew, bool_decide_eq_false_2, Hold by (done || lia). }
    destruct (decide (k < entries x)%nat) as [Hlt|Hge].
    + replace (entries x') with (entries x) by lia. by apply Hsame.
    + replace (entries x') with (entries x + 1)%nat by lia. rewrite find_seq_app, Hsame by lia.
      destruct (find (λ j, matches name' (entry V x j)) (seq 0 (entries x))); [done|]. cbn [seq find].
      replace (entries x) with k by lia. rewrite Hent, decide_True by (done || lia).
      by rewrite Hnew, bool_decide_eq_false_2.
Qed.

Lemma dirlink_spec dp name inum s V W :
  let x := inodep s dp in let k := free_entry V x in
  directory s dp V W → writable sb ib s dp V W (16 * Z.of_nat k) DIRENT_SIZE →
  lookup_entry V x name = None → (16 * Z.of_nat k + 16 ≤ MAXFILE * BSIZE) →
  ∃ s' V' W' de0, dirlink devread devwrite dp name inum s = Done 0 s' ∧
    directory s' dp V' W' ∧ length de0 = 16%nat ∧
    linked V x V' (inodep s' dp) k (make_dirent name inum de0).
Proof.
  intros x k Hd Hw Hnone Hmax. destruct (entries_size _ _ _ _ Hd) as [Hsz _]. fold x in Hsz.
  destruct (dirlookup_spec dp name s V W Hd) as (t1 & Hd1 & E1). fold x in E1. rewrite Hnone in E1.
  unfold dirlink. rewrite (bind_done _ _ _ _ _ E1). unfold bind at 1, gets at 1.
  change (inodep (with_st t1 s) dp) with x.
  destruct (dirlink_loop_spec (Z.to_nat (i_size x / DIRENT_SIZE + 1)) 0 dp (replicate 16 0)
              (with_st t1 s) V W Hd1) as (t2 & de & Hd2 & Hlen & E2).
  { lia. }
  { change (inodep (with_st t1 s) dp) with x. rewrite Nat.sub_0_r. unfold entries.
    assert (0 ≤ i_size x / DIRENT_SIZE) by (apply Z.div_pos; unfold DIRENT_SIZE; lia). lia. }
  { done. }
  change (inodep (with_st t1 s) dp) with x in E2. rewrite Nat.sub_0_r in E2.
  change (default (entries x) _) with k in E2. rewrite (bind_done _ _ _ _ _ E2). cbn [fst snd].
  change (with_st t2 (with_st t1 s)) with (with_st t2 s) in *.
  assert (Hk : (k ≤ entries x)%nat).
  { unfold k, free_entry. destruct (find _ _) as [j|] eqn:Ef; [|done].
    apply find_some in Ef as [Hj _]. apply in_seq in Hj. cbn. lia. }
  assert (Hw2 : writable sb ib (with_st t2 s) dp V W (16 * Z.of_nat k) DIRENT_SIZE)
    by (destruct Hw; split; try done; apply Hd2).
  pose proof (length_dirent name inum de Hlen) as Hdl.
  destruct (writei_spec sb ib (make_dirent name inum de) devwrite (with_st t2 s) dp V W _ _ Hw2)
    as (t3 & V3 & W3 & x3 & E3 & Hr3 & Hinv3 & Hde3 & Hsz3 & Hc3 & HW3 & Hty3 & _);
    change (inodep (with_st t2 s) dp) with x in *.
  { lia. }
  { done. }
  { unfold DIRENT_SIZE. lia. }
  { rewrite Hdl. done. }
  rewrite (bind_done _ _ _ _ _ E3). rewrite Z.eqb_refl. cbn [negb].
  set (s3 := set_inode dp x3 (with_st t3 (with_st t2 s))).
  assert (Hx3 : inodep s3 dp = x3) by (apply inodep_upd, Hd).
  unfold DIRENT_SIZE in Hsz3.
  assert (Hent3 : entries x3 = max (entries x) (S k)).
  { unfold entries at 1. unfold DIRENT_SIZE. rewrite Hsz3, Hsz.
    replace (Z.max (16 * Z.of_nat (entries x)) (16 * Z.of_nat k + 16))
      with (Z.of_nat (max (entries x) (S k)) * 16) by lia.
    rewrite Z.div_mul by lia. lia. }
  exists s3, V3, W3, de. split; [done|]. split; [|split; [done|]].
  - split; rewrite ?Hx3; try done.
    + apply (dr_sb _ _ _ _ Hd).
    + unfold s3, set_inode, upd_inode. cbn. rewrite length_alter. apply (dr_ip _ _ _ _ Hd).
    + rewrite Hty3. apply (dr_type _ _ _ _ Hd).
    + unfold DIRENT_SIZE. rewrite Hsz3, Hsz.
      replace (Z.max (16 * Z.of_nat (entries x)) (16 * Z.of_nat k + 16))
        with (Z.of_nat (max (entries x) (S k)) * 16) by lia. by apply Z.mod_mul.
    + lia.
  - rewrite Hx3. split; [done|]. split; [done|]. intros j Hj. rewrite Hent3 in Hj.
    unfold entry at 1. rewrite Hc3. by apply entry_overwrite.
Qed.
End dirs.

(** ** Properties of directories *)

(** C20: a name that dirlink has added is the name that dirlookup finds.  With the
    name not in the directory and room for an entry, dirlink returns 0; looking
    the name up afterwards gives the inode number that was linked, and every
    other name gives what it gave before. *)
Theorem dirlink_dirlookup {St} {B : BlockStore St} {L : BlockLaws St}
    devread devwrite sb ib (s : fstate St) dp name inum V W :
  let x := inodep s dp in let k := free_entry V x in
  directory sb ib s dp V W → writable sb ib s dp V W (16 * Z.of_nat k) DIRENT_SIZE →
  lookup_entry V x name = None → 16 * Z.of_nat k + 16 ≤ MAXFILE * BSIZE → 0 < inum < 65536 →
  ∃ s', dirlink devread devwrite dp name inum s = Done 0 s' ∧
    ∀ name', ∃ t', dirlookup devread dp name' s' =
      match (if decide (dname name' = dname name) then Some (k, inum)
             else (λ j, (j, de_inum (entry V x j))) <$> lookup_entry V x name') with
      | Some (j, n) => (ip <- iget 1 n;; ret (Some (ip, 16 * Z.of_nat j))) (with_st t' s')
      | None => Done None (with_st t' s')
      end.
Proof.
  intros x k Hd Hw Hnone Hmax Hinum.
  destruct (dirlink_spec sb ib devread devwrite dp name inum s V W Hd Hw Hnone Hmax)
    as (s' & V' & W' & de0 & E & Hd' & Hde & Hlk). fold x k in Hlk.
  exists s'. split; [done|]. intros name'.
  destruct (dirlookup_spec sb ib devread dp name' s' V' W' Hd') as (t' & _ & E').
  exists t'. rewrite E'. rewrite (lookup_linked V x V' _ name inum de0 name' Hlk Hde Hinum Hnone).
  fold k. destruct Hlk as (Hn & Hk & Hent).
  destruct (decide (dname name' = dname name)) as [Heq|Heq].
  - rewrite Hent, decide_True by (done || lia). by rewrite dirent_inum by lia.
  - destruct (lookup_entry V x name') as [j|] eqn:Ef; [|done]. cbn [fmap option_fmap option_map].
    unfold lookup_entry in Ef. apply find_some in Ef as [Hj Hm]. apply in_seq in Hj.
    assert (Hjk : j ≠ k).
    { intros ->. unfold matches in Hm. unfold k in Hm. by rewrite free_entry_inum in Hm by (fold k; lia). }
    by rewrite Hent, decide_False by (done || lia).
Qed.

Lemma sample_directory V t :
  (∀ b, home 2 30 1000 b → V b = sample_image b) →
  st_rep (BlockLaws := sample_laws) t V ∅ ∅ →
  directory (L := sample_laws) sample_sb 32 (FState t sample_sb [sample_root]) 0 V ∅.
Proof.
  intros HV Hr. split.
  - exact Hr.
  - reflexivity.
  - cbn. lia.
  - apply (sample_file_inv V HV); lia.
  - apply sample_dense; lia.
  - reflexivity.
  - reflexivity.
  - rewrite size_empty. lia.
Qed.

(** Linking b in the root directory: entry 3 is the free one. *)
Lemma dirlink_dirlookup_witness :
  ∃ (s s' : fstate lstate) t', dirlink (λ _, None) (λ _, None) 0 [98] 7 s = Done 0 s' ∧
    dirlookup (λ _, None) 0 [98] s' = (ip <- iget 1 7;; ret (Some (ip, 48))) (with_st t' s').
Proof.
  destruct sample_store as (t & V & Hr & HV).
  pose proof (sample_content V HV 1 T_DIR 512 59 ltac:(lia) ltac:(lia)) as Hc.
  fold sample_root in Hc.
  assert (Hk : free_entry V sample_root = 3%nat)
    by (unfold free_entry, entry; rewrite Hc; by vm_compute).
  destruct (dirlink_dirlookup (L := sample_laws) (λ _, None) (λ _, None) sample_sb 32
    (FState t sample_sb [sample_root]) 0 [98] 7 V ∅ (sample_directory V t HV Hr)) as (s' & E & Hl).
  - change (inodep _ 0) with sample_root. rewrite Hk.
    apply sample_writable; [exact HV|lia|lia|exact Hr|vm_compute; lia|lia|discriminate].
  - change (inodep _ 0) with sample_root. unfold lookup_entry, entry. rewrite Hc. by vm_compute.
  - change (inodep _ 0) with sample_root. rewrite Hk. vm_compute. congruence.
  - lia.
  - destruct (Hl [98]) as (t' & El). rewrite decide_True in El by reflexivity.
    change (inodep (FState t sample_sb [sample_root]) 0) with sample_root in El. rewrite Hk in El.
    exists (FState t sample_sb [sample_root]), s', t'. split; [exact E|exact El].
Defined.
