(* ===== verification/FsPaths.v ===== *)
(** * Path names: skipelem and the loop of namex *)

From S2P Require Import Prelude Params CString Core Bio BioTheorems Log LogCrash BlockStore Fs FsBlocks FsWrite FsDirs.

(** ** The elements of a path *)

(** The pieces between slashes, empty ones included. *)
Fixpoint split_slash (p : list Z) : list (list Z) :=
  match p with
  | [] => [[]]
  | c :: p =>
      if c =? slash then [] :: split_slash p
      else match split_slash p with
           | e :: es => (c :: e) :: es
           | [] => [[c]]
           end
  end.

Definition elements (p : list Z) : list (list Z) := filter (λ e, e ≠ []) (split_slash p).

Lemma split_slash_cons p : ∃ e es, split_slash p = e :: es.
Proof.
  destruct p as [|c p]; [by eexists _, _|]. cbn. destruct (c =? slash); [by eexists _, _|].
  destruct (split_slash p); by eexists _, _.
Qed.

Lemma elements_slash p : elements (slash :: p) = elements p.
Proof.
  unfold elements. change (split_slash (slash :: p)) with ([] :: split_slash p).
  by rewrite filter_cons_False by (intros H; exact (H eq_refl)).
Qed.

Lemma elements_skip p : elements (skip_slashes p) = elements p.
Proof.
  induction p as [|c p IH]; [done|]. cbn [skip_slashes]. destruct (Z.eqb_spec c slash) as [->|]; [|done].
  by rewrite elements_slash.
Qed.

Lemma skip_slashes_head p c q : skip_slashes p = c :: q → c ≠ slash.
Proof.
  induction p as [|d p IH]; cbn; [done|]. destruct (Z.eqb_spec d slash); [done|].
  intros [= -> _]. done.
Qed.

Lemma skip_slashes_length p : (length (skip_slashes p) ≤ length p)%nat.
Proof.
  induction p as [|d p IH]; cbn; [done|]. destruct (d =? slash); cbn; lia.
Qed.

Lemma take_elem_split p :
  ∃ rest, split_slash p = fst (take_elem p) :: rest ∧
    filter (λ e, e ≠ []) rest = elements (snd (take_elem p)).
Proof.
  induction p as [|c p IH]; cbn.
  { exists []. done. }
  destruct (Z.eqb_spec c slash) as [->|Hc].
  - exists (split_slash p). split; [done|]. symmetry. apply elements_slash.
  - destruct IH as (rest & E & Hf). destruct (take_elem p) as [e r]. cbn in *. rewrite E.
    by exists rest.
Qed.

Lemma take_elem_app p : p = fst (take_elem p) ++ snd (take_elem p).
Proof.
  induction p as [|c p IH]; cbn; [done|]. destruct (c =? slash); [done|].
  destruct (take_elem p) as [e r]. cbn in *. by rewrite IH at 1.
Qed.

(** ** skipelem *)

(** What skipelem stores for the element [e]. *)
Definition put_elem (e name : list Z) : list Z :=
  if (Z.to_nat DIRSIZ <=? length e)%nat then splice 0 (take (Z.to_nat DIRSIZ) e) name
  else splice 0 (e ++ [0]) name.

Lemma skipelem_elements p name :
  match elements p with
  | [] => skipelem p name = None
  | e :: es => ∃ rest name', skipelem p name = Some (rest, name') ∧ elements rest = es ∧
      (∀ c q, rest = c :: q → c ≠ slash) ∧ (length rest < length p)%nat ∧ e ≠ [] ∧
      name' = put_elem e name
  end.
Proof.
  rewrite <- elements_skip. unfold skipelem.
  pose proof (skip_slashes_length p) as Hlen.
  destruct (skip_slashes p) as [|c q] eqn:Ep; [done|].
  pose proof (skip_slashes_head _ _ _ Ep) as Hc.
  destruct (take_elem_split (c :: q)) as (rest & E & Hf).
  pose proof (take_elem_app (c :: q)) as Happ.
  assert (He : ∃ e', fst (take_elem (c :: q)) = c :: e').
  { cbn. rewrite (proj2 (Z.eqb_neq c slash)) by done. destruct (take_elem q). by eexists. }
  destruct He as (e' & He). destruct (take_elem (c :: q)) as [e r] eqn:Et. cbn [fst snd] in *. subst e.
  unfold elements at 1. rewrite E. rewrite filter_cons_True by done.
  eexists _, _. split; [done|]. split; [rewrite elements_skip; done|].
  split; [intros d q' Hd; by eapply skip_slashes_head|].
  split; [|done].
  apply (f_equal length) in Happ. rewrite length_app in Happ. cbn in *.
  pose proof (skip_slashes_length r). lia.
Qed.

Lemma elements_length p : (length (elements p) ≤ length p)%nat.
Proof.
  remember (length p) as n eqn:Hn. revert p Hn. induction n as [n IH] using lt_wf_ind. intros p ->.
  pose proof (skipelem_elements p []) as H. destruct (elements p) as [|e es]; [cbn; lia|].
  destruct H as (rest & _ & _ & Hes & _ & Hlt & _).
  specialize (IH (length rest) Hlt rest eq_refl). rewrite Hes in IH. cbn. lia.
Qed.

(** ** Names *)

Lemma Forall_split_slash (P : Z → Prop) p : Forall P p → Forall (Forall P) (split_slash p).
Proof.
  induction 1 as [|c p Hc Hp IH]; cbn; [by repeat constructor|].
  destruct (c =? slash); [by constructor|].
  destruct (split_slash p) as [|e es]; [by repeat constructor|].
  apply Forall_cons in IH as [He Hes]. by repeat constructor.
Qed.

Lemma Forall_elements (P : Z → Prop) p : Forall P p → Forall (Forall P) (elements p).
Proof.
  intros H%Forall_split_slash. rewrite Forall_forall in H. apply Forall_forall.
  intros e [_ He]%list_elem_of_filter. by apply H.
Qed.

(** The name at a pointer where the bytes of [e] stand, ended by a zero when
    there is room for it. *)
Lemma cname_at_list e n i (f : cptr) :
  Forall (λ c, c ≠ 0) e → (i ≤ length e)%nat →
  (∀ k, (i ≤ k < i + n)%nat → (k < length e)%nat → f k = e !!! k) →
  ((length e < i + n)%nat → f (length e) = 0) →
  cname_at i n f = take n (drop i e).
Proof.
  intros Hnz. revert i. induction n as [|n IH]; intros i Hi Hf Hz; [by rewrite take_0|]. cbn [cname_at].
  destruct (decide (i = length e)) as [->|Hne].
  - rewrite Hz by lia. rewrite drop_ge by lia. done.
  - rewrite Hf by lia.
    assert (Hlk : e !! i = Some (e !!! i)) by (apply list_lookup_lookup_total_lt; lia).
    rewrite (proj2 (Z.eqb_neq _ 0)) by (by eapply (Forall_lookup_1 _ _ _ _ Hnz Hlk)).
    rewrite (drop_S _ _ _ Hlk). cbn. f_equal.
    apply IH; [lia|intros; apply Hf; lia|intros; apply Hz; lia].
Qed.

(** The name as the rest of the code reads it from the array: 14 bytes at most. *)
Lemma dname_elem e name :
  Forall (λ c, c ≠ 0) e → (14 ≤ length name)%nat → dname (put_elem e name) = take 14 e.
Proof.
  intros Hnz Hn. unfold put_elem. change (Z.to_nat DIRSIZ) with 14%nat. unfold dname, cname.
  rewrite (cname_at_list e); [by rewrite drop_0|done|lia|..].
  - intros k Hk Hke. change (Z.to_nat DIRSIZ) with 14%nat in Hk.
    unfold bytes_ptr. destruct (Nat.leb_spec 14 (length e)).
    + rewrite lookup_splice_new by (rewrite ?length_take; lia).
      rewrite Nat.sub_0_r, lookup_take_lt by lia. by rewrite (list_lookup_lookup_total_lt e k).
    + rewrite lookup_splice_new by (rewrite ?length_app; cbn; lia).
      rewrite Nat.sub_0_r, lookup_app_l by lia. by rewrite (list_lookup_lookup_total_lt e k).
  - change (Z.to_nat DIRSIZ) with 14%nat. intros Hlt. unfold bytes_ptr.
    rewrite (proj2 (Nat.leb_gt 14 _)) by lia.
    rewrite lookup_splice_new by (rewrite ?length_app; cbn; lia).
    rewrite Nat.sub_0_r, lookup_app_r, Nat.sub_diag by lia. done.
Qed.

(** ** Properties *)

(** skipelem takes the first element of a path.  It returns nothing exactly
    when the path has no element; otherwise the rest of the path has the
    remaining elements, does not start with a slash and is shorter, and the name
    array holds the element, cut to 14 bytes. *)
Theorem skipelem_first p name :
  Forall (λ c, c ≠ 0) p → (14 ≤ length name)%nat →
  match elements p with
  | [] => skipelem p name = None
  | e :: es => ∃ rest name', skipelem p name = Some (rest, name') ∧ elements rest = es ∧
      (∀ c q, rest = c :: q → c ≠ slash) ∧ (length rest < length p)%nat ∧ dname name' = take 14 e
  end.
Proof.
  intros Hnz%Forall_elements Hn. pose proof (skipelem_elements p name) as H.
  destruct (elements p) as [|e es] eqn:Ee; [done|].
  destruct H as (rest & name' & E & Hes & Hsl & Hlt & Hne & ->).
  eexists rest, _. split; [exact E|]. repeat (split; [done|]). apply dname_elem; [|done].
  by apply Forall_cons in Hnz as [??].
Qed.

(** //usr/bin/ *)
Lemma skipelem_first_witness :
  let p := [47; 47; 117; 115; 114; 47; 98; 105; 110; 47] in
  elements p = [[117; 115; 114]; [98; 105; 110]] ∧
  ∃ rest name', skipelem p (replicate 14 0) = Some (rest, name') ∧ elements rest = [[98; 105; 110]] ∧
    dname name' = [117; 115; 114].
Proof.
  split; [reflexivity|].
  destruct (skipelem_first [47; 47; 117; 115; 114; 47; 98; 105; 110; 47] (replicate 14 0))
    as (rest & name' & E & Hes & _ & _ & Hn).
  - repeat constructor; discriminate.
  - cbn. lia.
  - exists rest, name'. split; [exact E|]. split; [exact Hes|exact Hn].
Defined.

(** ** The loop of namex *)
Section namex.
Context {St : Type} `{BlockStore St}.
Variable devread : Z → option (nat → Z → Z → K (fstate St) (Z * list Z)).

(** the loop of namex ends.  One turn uses up one element of the path, so
    any number of turns from the number of its elements on gives the same
    result; the length of the path, which namex takes, is enough. *)
Theorem namex_loop_enough fuel ip path parent name (s : fstate St) :
  (length (elements path) ≤ fuel)%nat →
  namex_loop devread fuel ip path parent name s = namex_loop devread (length path) ip path parent name s.
Proof.
  assert (Hgen : ∀ n m p ip name s, (length (elements p) ≤ n)%nat → (length (elements p) ≤ m)%nat →
    namex_loop devread n ip p parent name s = namex_loop devread m ip p parent name s).
  { intros n. induction n as [|n IH]; intros m p ip' name' s' Hn Hm;
      pose proof (skipelem_elements p name') as Hsk; destruct (elements p) as [|e es] eqn:Ee;
      cbn [length] in Hn, Hm; try lia; destruct m as [|m]; try lia; cbn [namex_loop].
    1-4: by rewrite Hsk.
    destruct Hsk as (rest & nm & -> & Hes & _).
    apply bind_ext; intros [] s1. apply bind_ext; intros x s2.
    destruct (negb _); [done|]. destruct (parent && _); [done|].
    apply bind_ext; intros [[next ?]|] s3; [|done].
    apply bind_ext; intros [] s4. apply IH; rewrite Hes; lia. }
  intros Hf. apply Hgen; [done|apply elements_length].
Qed.
End namex.

(** /a/b *)
Lemma namex_loop_enough_witness :
  ∃ s : fstate lstate,
    namex_loop (λ _, None) 2 0 [47; 97; 47; 98] false (replicate 14 0) s =
    namex_loop (λ _, None) 4 0 [47; 97; 47; 98] false (replicate 14 0) s.
Proof.
  destruct sample_store as (t & V & Hr & HV). exists (FState t sample_sb [sample_root]).
  apply (namex_loop_enough (λ _, None) 2 0 [47; 97; 47; 98] false). apply Nat.leb_le. reflexivity.
Defined.
