(* ===== verification/Console.v ===== *)
(** * The console: console.c, and the interrupt handlers of kbd.c and uart.c *)

From S2P Require Import Prelude Params CString Devices Kbd Core Bio Log BlockStore Fs.

(** Computations on the devices, inside the state of the processor. *)
Definition in_dev {A} (m : K devices A) : K core A := zoom c_dev set_dev m.

(** ** Output *)

(** When another processor has panicked, this one halts here for good. *)
Definition consputc (c : Z) : K devices unit :=
  p <- gets d_panicked;;
  if (p : bool) then panic "halted" else
  modify (λ d, set_serial
    (if c =? BACKSPACE then uartputc 8 (uartputc 32 (uartputc 8 (d_serial d)))
     else uartputc c (d_serial d)) d) ;;;
  modify (λ d, set_screen (cgaputc c (d_screen d)) d).

Fixpoint consputs (l : list Z) : K devices unit :=
  match l with
  | [] => ret tt
  | c :: l => consputc c ;;; consputs l
  end.

Definition digits : list Z := str "0123456789abcdef".

(** The loop of print_x64 and print_x32, for numbers of [w] bits. *)
Fixpoint print_x (w : Z) (k : nat) (x : Z) : K devices unit :=
  match k with
  | O => ret tt
  | S k =>
      consputc (digits !!! Z.to_nat (Z.shiftr x (w - 4))) ;;;
      print_x w k (Z.shiftl x 4 mod 2 ^ w)
  end.
Definition print_x64 (x : Z) : K devices unit := print_x 64 16 x.
Definition print_x32 (x : Z) : K devices unit := print_x 32 8 x.

(** The digits of [x], lowest first; there is room for [room] of them. *)
Fixpoint decimal (room : nat) (x : Z) : list Z :=
  match room with
  | O => []
  | S room => digits !!! Z.to_nat (x mod 10) :: if x / 10 =? 0 then [] else decimal room (x / 10)
  end.

Definition print_d (v : Z) : K devices unit :=
  let x := if v <? 0 then - v else v in
  let buf := decimal 16 x ++ (if v <? 0 then [45] else []) in
  consputs (reverse buf).

(** The characters of %s. *)
Fixpoint print_s (s : list Z) : K devices unit :=
  match s with
  | [] => ret tt
  | c :: s => if c =? 0 then ret tt else consputc c ;;; print_s s
  end.

(** The arguments after the format. *)
Inductive va := Va_num (n : Z) | Va_str (s : option (list Z)).

Fixpoint cprintf_loop (fmt : list Z) (ap : list va) : K devices unit :=
  match fmt with
  | [] => ret tt
  | c :: fmt =>
      if c =? 0 then ret tt
      else if negb (c =? 37) then consputc c ;;; cprintf_loop fmt ap
      else
      match fmt with
      | [] => ret tt
      | c :: fmt =>
          if c =? 0 then ret tt
          else if c =? 100 then
            match ap with
            | Va_num v :: ap => print_d (s32 v) ;;; cprintf_loop fmt ap
            | _ => panic "va_arg"
            end
          else if c =? 120 then
            match ap with
            | Va_num v :: ap => print_x32 (u32 v) ;;; cprintf_loop fmt ap
            | _ => panic "va_arg"
            end
          else if c =? 112 then
            match ap with
            | Va_num v :: ap => print_x64 (u64 v) ;;; cprintf_loop fmt ap
            | _ => panic "va_arg"
            end
          else if c =? 115 then
            match ap with
            | Va_str s :: ap => print_s (default (str "(null)") s) ;;; cprintf_loop fmt ap
            | _ => panic "va_arg"
            end
          else if c =? 37 then consputc 37 ;;; cprintf_loop fmt ap
          else consputc 37 ;;; consputc c ;;; cprintf_loop fmt ap
      end
  end.

Definition cprintf (fmt : option (list Z)) (ap : list va) : K core unit :=
  locking <- gets (λ c, d_locking (c_dev c));;
  (if (locking : bool) then acquire Lk_cons else ret tt) ;;;
  match fmt with
  | None => panic "null fmt"
  | Some fmt => in_dev (cprintf_loop fmt ap)
  end ;;;
  if (locking : bool) then release Lk_cons else ret tt.

Fixpoint print_pcs (pcs : list Z) : K core unit :=
  match pcs with
  | [] => ret tt
  | pc :: pcs => cprintf (Some (str " %p" ++ [10])) [Va_num pc] ;;; print_pcs pcs
  end.

(** panic up to the loop in which it halts; [pcs] are the return addresses that
    getcallerpcs finds on the stack. *)
Definition panic_output (cpu : Z) (s pcs : list Z) : K core unit :=
  in_dev (modify (set_locking false)) ;;;
  cprintf (Some (str "cpu%d: panic: ")) [Va_num cpu] ;;;
  cprintf (Some s) [] ;;;
  cprintf (Some [10]) [] ;;;
  print_pcs (take 10 pcs) ;;;
  in_dev (modify (set_panicked true)).

(** ** proc.c: procdump *)
Definition state_name (st : procstate) : list Z :=
  match st with
  | UNUSED => str "unused"
  | EMBRYO => str "embryo"
  | SLEEPING => str "sleep "
  | RUNNABLE => str "runble"
  | RUNNING => str "run   "
  | ZOMBIE => str "zombie"
  end.

(** [pc[i] != 0] ends the list. *)
Fixpoint dump_pcs (pcs : list Z) : K core unit :=
  match pcs with
  | [] => ret tt
  | pc :: pcs => if pc =? 0 then ret tt else cprintf (Some (str " %p")) [Va_num pc] ;;; dump_pcs pcs
  end.

(** [pcs i] are the return addresses on the kernel stack of process [i]. *)
Fixpoint procdump_loop (pcs : nat → list Z) (i : nat) (ps : list proc) : K core unit :=
  match ps with
  | [] => ret tt
  | p :: ps =>
      (if bool_decide (p_state p = UNUSED) then ret tt
       else
         cprintf (Some (str "%d %s %s")) [Va_num (p_pid p); Va_str (Some (state_name (p_state p))); Va_str (Some (p_name p))] ;;;
         (if bool_decide (p_state p = SLEEPING) then dump_pcs (take 10 (pcs i)) else ret tt) ;;;
         cprintf (Some [10]) []) ;;;
      procdump_loop pcs (S i) ps
  end.

Definition procdump (pcs : nat → list Z) : K core unit :=
  ps <- gets c_procs;; procdump_loop pcs 0 ps.

(** ** Input *)
Definition upd_input (f : input → input) : K core unit :=
  in_dev (modify (λ d, set_input (f (d_input d)) d)).

Definition set_e (e : Z) (i : input) : input := Input (in_buf i) (in_r i) (in_w i) e.
Definition set_w (w : Z) (i : input) : input := Input (in_buf i) (in_r i) w (in_e i).
Definition set_r (r : Z) (i : input) : input := Input (in_buf i) r (in_w i) (in_e i).

(** The character at index [k] of the ring. *)
Definition in_char (i : input) (k : Z) : Z := in_buf i !!! Z.to_nat (k mod INPUT_BUF).

Definition store_char (c : Z) (i : input) : input :=
  Input (<[Z.to_nat (in_e i mod INPUT_BUF) := u8 c]> (in_buf i)) (in_r i) (in_w i) (u32 (in_e i + 1)).

Definition C (x : Z) : Z := x - 64.

(** Control-U.  There are at most [e - w] characters to erase. *)
Fixpoint kill_line (fuel : nat) : K core unit :=
  i <- gets (λ c, d_input (c_dev c));;
  if negb (in_e i =? in_w i) && negb (in_char i (u32 (in_e i - 1)) =? 10) then
    match fuel with
    | O => panic "kill_line: out of fuel"
    | S fuel =>
        upd_input (set_e (u32 (in_e i - 1))) ;;;
        in_dev (consputc BACKSPACE) ;;;
        kill_line fuel
    end
  else ret tt.

Section intr.
Variable pcs : nat → list Z.

(** The cases of the switch. *)
Definition consoleintr_char (c : Z) : K core unit :=
  i <- gets (λ c, d_input (c_dev c));;
  if c =? C 90 then in_dev (modify (set_idt false))
  else if c =? C 80 then procdump pcs
  else if c =? C 85 then kill_line (Z.to_nat (u32 (in_e i - in_w i)))
  else if (c =? C 72) || (c =? 0x7f) then
    if negb (in_e i =? in_w i) then
      upd_input (set_e (u32 (in_e i - 1))) ;;;
      in_dev (consputc BACKSPACE)
    else ret tt
  else if negb (c =? 0) && (u32 (in_e i - in_r i) <? INPUT_BUF) then
    let c := if c =? 13 then 10 else c in
    upd_input (store_char c) ;;;
    in_dev (consputc c) ;;;
    i <- gets (λ c, d_input (c_dev c));;
    if (c =? 10) || (c =? C 68) || (in_e i =? u32 (in_r i + INPUT_BUF)) then
      upd_input (set_w (in_e i)) ;;;
      wakeup Ch_input
    else ret tt
  else ret tt.

Fixpoint consoleintr_loop (fuel : nat) (getc : K devices Z) : K core unit :=
  match fuel with
  | O => panic "consoleintr: out of fuel"
  | S fuel =>
      c <- in_dev getc;;
      if c <? 0 then ret tt else consoleintr_char c ;;; consoleintr_loop fuel getc
  end.

(** [fuel] is one more than the characters that wait. *)
Definition consoleintr (fuel : nat) (getc : K devices Z) : K core unit :=
  acquire Lk_input ;;;
  consoleintr_loop fuel getc ;;;
  release Lk_input.

Definition kbd_char : K devices Z := λ d,
  let '(c, k) := kbdgetc (d_kbd d) in Done c (set_kbd k d).
Definition kbdintr : K core unit :=
  n <- gets (λ c, length (kbd_in (d_kbd (c_dev c))));;
  consoleintr (S n) kbd_char.

Definition uart_char : K devices Z := λ d,
  let '(c, s) := uartgetc (d_serial d) in Done c (set_serial s d).
Definition uartintr : K core unit :=
  n <- gets (λ c, length (com_in (d_serial (c_dev c))));;
  consoleintr (S n) uart_char.
End intr.

(** ** Initialization *)

(** uart.c: reading the port acknowledges the interrupt and takes a byte that waits. *)
Definition uartinit (d : devices) : devices :=
  if uart (d_serial d) then
    set_ioapic (ioapicenable IRQ_COM1 0 (d_ioapic d)) (set_serial (snd (uartgetc (d_serial d))) d)
  else d.

Definition CONSOLE : Z := 1.

(** The entries of devsw are [devsw_read] and [devsw_write] below. *)
Definition consoleinit (d : devices) : devices :=
  set_ioapic (ioapicenable IRQ_KBD 0 (d_ioapic d)) (set_locking true d).

(** ** The device functions *)
(** The loop of consoleread: what is left of [n], or None when the process is killed,
    and the characters stored at dst.  A process woken from the sleep comes back to
    this loop. *)
Fixpoint consoleread_loop (fuel : nat) (target n : Z) (out : list Z) : K core (option Z * list Z) :=
  if 0 <? n then
    match fuel with
    | O => panic "consoleread: out of fuel"
    | S fuel =>
        c <- get;;
        let i := d_input (c_dev c) in
        if in_r i =? in_w i then
          match c_cur c ≫= λ j, c_procs c !! j with
          | None => panic "consoleread: no process"
          | Some p => if p_killed p then ret (None, out) else sleep Ch_input Lk_input ;;; ret (None, out)
          end
        else
          let ch := in_char i (in_r i) in
          upd_input (set_r (u32 (in_r i + 1))) ;;;
          if ch =? C 68 then
            (if n <? target then upd_input (λ i, set_r (u32 (in_r i - 1)) i) else ret tt) ;;;
            ret (Some n, out)
          else if ch =? 10 then ret (Some (n - 1), out ++ [ch])
          else consoleread_loop fuel target (n - 1) (out ++ [ch])
    end
  else ret (Some n, out).

(** consoleread between iunlock and ilock. *)
Definition console_take (n : Z) : K core (Z * list Z) :=
  let target := u32 n in
  acquire Lk_input ;;;
  r <- consoleread_loop (Z.to_nat n) target n [];;
  release Lk_input ;;;
  ret (match fst r with None => -1 | Some n => s32 (target - n) end, snd r).

Section console.
Context {St : Type} {B : BlockStore St}.
Local Abbreviation fstate := (fstate St).

Definition consoleread (ip : nat) (off n : Z) : K fstate (Z * list Z) :=
  iunlock (Some ip) ;;;
  r <- fs_core (console_take n);;
  ilock (Some ip) ;;;
  ret r.

Definition consolewrite (ip : nat) (off : Z) (buf : list Z) (n : Z) : K fstate Z :=
  iunlock (Some ip) ;;;
  fs_core (acquire Lk_cons) ;;;
  fs_core (in_dev (consputs (take (Z.to_nat n) buf))) ;;;
  fs_core (release Lk_cons) ;;;
  ilock (Some ip) ;;;
  ret n.

(** devsw, after consoleinit. *)
Definition devsw_read (major : Z) : option (nat → Z → Z → K fstate (Z * list Z)) :=
  if major =? CONSOLE then Some consoleread else None.
Definition devsw_write (major : Z) : option (nat → Z → list Z → Z → K fstate Z) :=
  if major =? CONSOLE then Some consolewrite else None.
End console.
