(* ===== verification/ConsoleOut.v ===== *)
(** * What the console prints

    The characters of a format with its arguments, the effect of printing characters on
    the serial port and the screen, and that cprintf prints those of its format.
    The screen routine stays on the screen. *)

From stdpp Require Import pretty.
From S2P Require Import Prelude Params CString Devices Kbd Core Bio Log BlockStore Fs Console.

(** ** The screen *)

(** The memory holds at least the 25 lines of 80 characters, and the cursor is on them. *)
Definition screen_ok (s : screen) : Prop := (2000 ≤ length (crt s))%nat ∧ 0 ≤ crt_pos s < 2000.

Lemma drop_splice {A} off (l' l : list A) n :
  (off + length l' ≤ n)%nat → (n ≤ length l)%nat → drop n (splice off l' l) = drop n l.
Proof.
  intros Hn Hl. apply list_eq. intros i. rewrite !lookup_drop.
  apply lookup_splice_old; lia.
Qed.

(** the screen routine stays on the screen.  From any position of the cursor on the
    25 lines, printing a character, a newline or a backspace writes none of the memory
    behind them and leaves the cursor at most at the start of the last line. *)
Theorem cgaputc_stays c s :
  screen_ok s →
  screen_ok (cgaputc c s) ∧ crt_pos (cgaputc c s) ≤ 24 * 80 ∧
  drop 2000 (crt (cgaputc c s)) = drop 2000 (crt s).
Proof.
  intros [Hlen Hpos]. unfold cgaputc.
  set (mp := if c =? 10 then _ else _).
  assert (H : (2000 ≤ length (fst mp))%nat ∧ 0 ≤ snd mp ≤ 2000 ∧ drop 2000 (fst mp) = drop 2000 (crt s)).
  { unfold mp. destruct (c =? 10); [|destruct (c =? BACKSPACE)]; cbn [fst snd].
    - split; [done|]. split; [|done]. pose proof (Z.mod_pos_bound (crt_pos s) 80).
      pose proof (Z.div_mod (crt_pos s) 80). lia.
    - split; [done|]. split; [destruct (Z.ltb_spec 0 (crt_pos s)); lia|done].
    - rewrite length_insert. split; [done|]. split; [lia|]. apply drop_insert_lt. lia. }
  clearbody mp. destruct mp as [m pos]. cbn [fst snd] in H. destruct H as (Hm & Hp & Hd).
  set (mp := if 24 <=? pos / 80 then _ else _).
  assert (H : (2000 ≤ length (fst mp))%nat ∧ 0 ≤ snd mp ≤ 1920 ∧ drop 2000 (fst mp) = drop 2000 (crt s)).
  { pose proof (Z.mod_pos_bound pos 80). pose proof (Z.div_mod pos 80).
    unfold mp. destruct (Z.leb_spec 24 (pos / 80)); cbn [fst snd]; [|split; [done|]; split; [lia|done]].
    assert (Hs : length (splice 0 (slice 80 (23 * 80) m) m) = length m).
    { apply length_splice. rewrite length_slice; lia. }
    rewrite length_splice; rewrite ?length_replicate, ?Hs; [|lia]. split; [done|]. split; [lia|].
    rewrite drop_splice; rewrite ?length_replicate, ?Hs; [|lia|lia].
    rewrite drop_splice; [done| |lia]. rewrite length_slice; lia. }
  clearbody mp. destruct mp as [m' pos']. cbn [fst snd] in H. destruct H as (Hm' & Hp' & Hd').
  unfold screen_ok, u16. cbn [crt crt_pos]. rewrite length_insert, Z.mod_small by lia.
  rewrite drop_insert_lt by lia. split; [split; [done|lia]|]. split; [lia|done].
Qed.

Lemma cgaputc_stays_witness :
  screen_ok (Screen (replicate 2000 0) 1999) ∧
  crt_pos (cgaputc 65 (Screen (replicate 2000 0) 1999)) ≤ 24 * 80.
Proof.
  assert (H : screen_ok (Screen (replicate 2000 0) 1999)) by (split; cbn [crt crt_pos]; [rewrite length_replicate|]; lia).
  split; [exact H|]. apply (cgaputc_stays 65 _ H).
Defined.

(** ** Printing characters *)
Definition putc (c : Z) (d : devices) : devices :=
  set_screen (cgaputc c (d_screen d)) (set_serial
    (if c =? BACKSPACE then uartputc 8 (uartputc 32 (uartputc 8 (d_serial d)))
     else uartputc c (d_serial d)) d).
Definition put_chars (l : list Z) (d : devices) : devices := foldl (λ d c, putc c d) d l.

Lemma consputc_put c d : d_panicked d = false → consputc c d = Done tt (putc c d).
Proof. intros H. unfold consputc, bind, gets. by rewrite H. Qed.

Lemma put_chars_panicked l d : d_panicked (put_chars l d) = d_panicked d.
Proof. revert d. induction l as [|c l IH]; intros d; [done|]. exact (IH (putc c d)). Qed.

Lemma put_chars_app l l' d : put_chars (l ++ l') d = put_chars l' (put_chars l d).
Proof. apply foldl_app. Qed.

Lemma consputs_put l d : d_panicked d = false → consputs l d = Done tt (put_chars l d).
Proof.
  revert d. induction l as [|c l IH]; intros d H; [done|]. cbn [consputs].
  rewrite (bind_done _ _ _ _ _ (consputc_put c d H)). by apply IH.
Qed.

(** Only the output changes. *)
Record same_but_output (d d' : devices) : Prop := {
  so_input : d_input d' = d_input d;
  so_locking : d_locking d' = d_locking d;
  so_panicked : d_panicked d' = d_panicked d;
  so_uart : uart (d_serial d') = uart (d_serial d);
  so_com_in : com_in (d_serial d') = com_in (d_serial d);
  so_kbd : d_kbd d' = d_kbd d;
  so_idt : d_idt d' = d_idt d;
  so_ioapic : d_ioapic d' = d_ioapic d
}.

#[global] Instance same_but_output_refl : Reflexive same_but_output.
Proof. by split. Qed.
#[global] Instance same_but_output_trans : Transitive same_but_output.
Proof. intros d1 d2 d3 [] []. split; congruence. Qed.

Lemma uartputc_uart c s : uart (uartputc c s) = uart s.
Proof. unfold uartputc. destruct (uart s) eqn:E; [|done]. exact E. Qed.
Lemma uartputc_in c s : com_in (uartputc c s) = com_in s.
Proof. unfold uartputc. by destruct (uart s). Qed.

Lemma putc_same c d : same_but_output d (putc c d).
Proof.
  split; try done; cbn; destruct (c =? BACKSPACE); by rewrite ?uartputc_uart, ?uartputc_in.
Qed.

Lemma put_chars_same l d : same_but_output d (put_chars l d).
Proof.
  revert d. induction l as [|c l IH]; intros d; [done|].
  etrans; [apply (putc_same c)|apply (IH (putc c d))].
Qed.

(** The bytes arrive at the serial port as they are. *)
Lemma put_chars_serial l d :
  uart (d_serial d) = true → bytes_ok l →
  com_out (d_serial (put_chars l d)) = com_out (d_serial d) ++ ((λ c, (COM1, c)) <$> l).
Proof.
  intros Hu Hl. revert d Hu. induction Hl as [|c l Hc Hl IH]; intros d Hu; [by rewrite app_nil_r|].
  unfold put_chars in *. cbn [foldl fmap list_fmap]. rewrite IH; [|by rewrite (so_uart _ _ (putc_same c d))].
  unfold putc. cbn. rewrite (proj2 (Z.eqb_neq c BACKSPACE)) by (unfold BACKSPACE; destruct Hc; lia).
  unfold uartputc. rewrite Hu. cbn. unfold u8. rewrite Z.mod_small by done. by rewrite <- app_assoc.
Qed.

(** ** Numbers *)
Lemma digits_at x : 0 ≤ x < 10 → digits !!! Z.to_nat x = Z.of_N (Ascii.N_of_ascii (pretty_N_char (Z.to_N x))).
Proof.
  intros H. assert (Hx : x = 0 ∨ x = 1 ∨ x = 2 ∨ x = 3 ∨ x = 4 ∨ x = 5 ∨ x = 6 ∨ x = 7 ∨ x = 8 ∨ x = 9) by lia.
  by repeat (destruct Hx as [->|Hx]; [done|]); subst.
Qed.

Lemma decimal_pretty room x s :
  0 < x < 10 ^ Z.of_nat room → str (pretty_N_go (Z.to_N x) s) = reverse (decimal room x) ++ str s.
Proof.
  revert x s. induction room as [|room IH]; intros x s Hx; [cbn in Hx; lia|].
  cbn [decimal]. rewrite pretty_N_go_step by lia.
  replace (Z.to_N x `div` 10)%N with (Z.to_N (x / 10)) by (rewrite Z2N.inj_div by lia; done).
  replace (Z.to_N x `mod` 10)%N with (Z.to_N (x mod 10)) by (rewrite Z2N.inj_mod by lia; done).
  pose proof (Z.mod_pos_bound x 10). pose proof (Z.div_mod x 10).
  rewrite reverse_cons, <- app_assoc, digits_at by lia.
  destruct (Z.eqb_spec (x / 10) 0) as [E|E].
  - by rewrite E.
  - rewrite IH; [done|]. split; [lia|]. apply Z.div_lt_upper_bound; [lia|].
    replace (Z.of_nat (S room)) with (Z.succ (Z.of_nat room)) in Hx by lia.
    rewrite Z.pow_succ_r in Hx by lia. lia.
Qed.

(** What print_d prints is the number in decimal notation. *)
Lemma print_d_put v d :
  - 2 ^ 31 ≤ v < 2 ^ 31 → d_panicked d = false → print_d v d = Done tt (put_chars (str (pretty v)) d).
Proof.
  intros Hv Hd. unfold print_d. rewrite consputs_put by done. do 2 f_equal.
  rewrite reverse_app. destruct v as [|v|v].
  - reflexivity.
  - rewrite (proj2 (Z.ltb_ge (Zpos v) 0)) by lia.
    change (str (pretty (Zpos v))) with (str (pretty_N_go (Z.to_N (Zpos v)) "")).
    rewrite (decimal_pretty 16) by lia. by rewrite app_nil_r.
  - rewrite (proj2 (Z.ltb_lt (Zneg v) 0)) by lia. change (- Zneg v) with (Zpos v).
    change (str (pretty (Zneg v))) with (45 :: str (pretty_N_go (Z.to_N (Zpos v)) "")).
    rewrite (decimal_pretty 16) by lia. by rewrite app_nil_r.
Qed.

(** The [k] low hexadecimal digits of a number, highest first. *)
Fixpoint hex (k : nat) (x : Z) : list Z :=
  match k with
  | O => []
  | S k => digits !!! Z.to_nat ((x / 16 ^ Z.of_nat k) mod 16) :: hex k x
  end.

Lemma mod_mul_div a b c : 0 < b → 0 < c → (a mod (b * c)) / b = (a / b) mod c.
Proof.
  intros Hb Hc. rewrite Z.rem_mul_r by lia.
  rewrite Z.add_comm, (Z.mul_comm b), Z.div_add_l by lia.
  rewrite (Z.div_small (a mod b)) by (apply Z.mod_pos_bound; lia). lia.
Qed.

Lemma hex_digit n k y :
  (S k ≤ n)%nat →
  (y * 16 ^ Z.of_nat (n - S k)) mod 16 ^ Z.of_nat n / 16 ^ Z.of_nat (n - 1) = (y / 16 ^ Z.of_nat k) mod 16.
Proof.
  intros Hk. replace (16 ^ Z.of_nat n) with (16 ^ Z.of_nat (n - 1) * 16).
  - rewrite mod_mul_div by lia. f_equal.
    replace (16 ^ Z.of_nat (n - 1)) with (16 ^ Z.of_nat k * 16 ^ Z.of_nat (n - S k)).
    + apply Z.div_mul_cancel_r; lia.
    + rewrite <- Z.pow_add_r by lia. f_equal. lia.
  - change 16 with (16 ^ 1) at 2. rewrite <- Z.pow_add_r by lia. f_equal. lia.
Qed.

Lemma print_x_put n k y d :
  (k ≤ n)%nat → d_panicked d = false →
  print_x (4 * Z.of_nat n) k ((y * 16 ^ Z.of_nat (n - k)) mod 16 ^ Z.of_nat n) d = Done tt (put_chars (hex k y) d).
Proof.
  revert d. induction k as [|k IH]; intros d Hk Hd; [done|]. cbn [print_x hex].
  rewrite Z.shiftr_div_pow2 by lia.
  replace (2 ^ (4 * Z.of_nat n - 4)) with (16 ^ Z.of_nat (n - 1)).
  2: { change 16 with (2 ^ 4). rewrite <- Z.pow_mul_r by lia. f_equal. lia. }
  rewrite hex_digit by done. rewrite (bind_done _ _ _ _ _ (consputc_put _ _ Hd)).
  rewrite Z.shiftl_mul_pow2 by lia.
  replace (2 ^ (4 * Z.of_nat n)) with (16 ^ Z.of_nat n) by (change 16 with (2 ^ 4); by rewrite <- Z.pow_mul_r by lia).
  rewrite Zmult_mod_idemp_l, <- Z.mul_assoc.
  replace (16 ^ Z.of_nat (n - S k) * 2 ^ 4) with (16 ^ Z.of_nat (n - k)).
  2: { change (2 ^ 4) with (16 ^ 1). rewrite <- Z.pow_add_r by lia. f_equal. lia. }
  rewrite IH by (done || lia). done.
Qed.

Lemma print_x32_put x d : d_panicked d = false → print_x32 (u32 x) d = Done tt (put_chars (hex 8 x) d).
Proof. intros Hd. pose proof (print_x_put 8 8 x d (le_n _) Hd) as H. by rewrite Z.mul_1_r in H. Qed.
Lemma print_x64_put x d : d_panicked d = false → print_x64 (u64 x) d = Done tt (put_chars (hex 16 x) d).
Proof. intros Hd. pose proof (print_x_put 16 16 x d (le_n _) Hd) as H. by rewrite Z.mul_1_r in H. Qed.

(** ** Formats *)

(** The characters of a C string. *)
Fixpoint chars (s : list Z) : list Z :=
  match s with
  | [] => []
  | c :: s => if c =? 0 then [] else c :: chars s
  end.

Lemma print_s_put s d : d_panicked d = false → print_s s d = Done tt (put_chars (chars s) d).
Proof.
  revert d. induction s as [|c s IH]; intros d Hd; [done|]. cbn [print_s chars].
  destruct (c =? 0); [done|]. rewrite (bind_done _ _ _ _ _ (consputc_put c d Hd)). by apply IH.
Qed.

(** What one conversion prints: nothing when the argument is not of its kind. *)
Definition convert (c : Z) (a : va) : option (list Z) :=
  match a with
  | Va_num v =>
      if c =? 100 then Some (str (pretty (s32 v)))
      else if c =? 120 then Some (hex 8 v)
      else if c =? 112 then Some (hex 16 v)
      else None
  | Va_str s => if c =? 115 then Some (chars (default (str "(null)") s)) else None
  end.
Definition converts (c : Z) : bool := (c =? 100) || (c =? 120) || (c =? 112) || (c =? 115).

(** The text of a format with its arguments, when they fit. *)
Fixpoint format (fmt : list Z) (ap : list va) : option (list Z) :=
  match fmt with
  | [] => Some []
  | c :: fmt =>
      if c =? 0 then Some []
      else if negb (c =? 37) then cons c <$> format fmt ap
      else
      match fmt with
      | [] => Some []
      | c :: fmt =>
          if c =? 0 then Some []
          else if converts c then
            match ap with
            | [] => None
            | a :: ap => t ← convert c a; app t <$> format fmt ap
            end
          else if c =? 37 then cons 37 <$> format fmt ap
          else app [37; c] <$> format fmt ap
      end
  end.

Lemma s32_range v : - 2 ^ 31 ≤ s32 v < 2 ^ 31.
Proof.
  unfold s32, signed. pose proof (Z.mod_pos_bound v (2 ^ 32)).
  destruct (Z.ltb_spec (v mod 2 ^ 32) (2 ^ (32 - 1))); cbn in *; lia.
Qed.

(** One conversion of the loop. *)
Lemma cprintf_convert c a ap fmt t d :
  converts c = true → convert c a = Some t → d_panicked d = false →
  cprintf_loop (37 :: c :: fmt) (a :: ap) d = cprintf_loop fmt ap (put_chars t d).
Proof.
  intros Hc Ht Hd. cbn [cprintf_loop Z.eqb Pos.eqb negb].
  destruct (Z.eqb_spec c 0) as [->|_]; [done|].
  destruct a as [v|s]; cbn [convert] in Ht.
  - destruct (c =? 100); [|destruct (c =? 120); [|destruct (c =? 112); [|done]]]; injection Ht as <-.
    + by rewrite (bind_done _ _ _ _ _ (print_d_put _ d (s32_range v) Hd)).
    + by rewrite (bind_done _ _ _ _ _ (print_x32_put v d Hd)).
    + by rewrite (bind_done _ _ _ _ _ (print_x64_put v d Hd)).
  - destruct (Z.eqb_spec c 115) as [->|]; [|done]. injection Ht as <-. cbn [Z.eqb Pos.eqb].
    by rewrite (bind_done _ _ _ _ _ (print_s_put _ d Hd)).
Qed.

Lemma cprintf_loop_put fmt ap t d :
  format fmt ap = Some t → d_panicked d = false → cprintf_loop fmt ap d = Done tt (put_chars t d).
Proof.
  remember (length fmt) as n eqn:Hn. revert fmt ap t d Hn.
  induction (Nat.lt_wf_0 n) as [n _ IH]. intros fmt ap t d -> Ht Hd.
  assert (IH' : ∀ fmt' ap t d, (length fmt' < length fmt)%nat → format fmt' ap = Some t → d_panicked d = false →
    cprintf_loop fmt' ap d = Done tt (put_chars t d)) by (intros; by eapply IH). clear IH.
  destruct fmt as [|c fmt]; [by injection Ht as <-|]. cbn [format] in Ht.
  destruct (c =? 0) eqn:E0; [injection Ht as <-; cbn; by rewrite E0|].
  destruct (Z.eqb_spec c 37) as [->|E37].
  2: { cbn [negb] in Ht. apply fmap_Some in Ht as (t' & Ht & ->). cbn [cprintf_loop]. rewrite E0.
       rewrite (proj2 (Z.eqb_neq c 37)) by done. cbn [negb].
       rewrite (bind_done _ _ _ _ _ (consputc_put c d Hd)).
       exact (IH' fmt ap t' (putc c d) ltac:(cbn; lia) Ht Hd). }
  cbn [negb] in Ht. destruct fmt as [|c fmt]; [by injection Ht as <-|].
  destruct (c =? 0) eqn:E1; [injection Ht as <-; cbn; by rewrite E1|].
  destruct (converts c) eqn:Ec.
  - destruct ap as [|a ap]; [done|]. apply bind_Some in Ht as (t1 & H1 & (t2 & H2 & ->)%fmap_Some).
    rewrite (cprintf_convert _ _ _ _ _ _ Ec H1 Hd), put_chars_app.
    apply IH'; [cbn; lia|done|by rewrite put_chars_panicked].
  - unfold converts in Ec. apply orb_false_iff in Ec as [[[Ed Ex]%orb_false_iff Ep]%orb_false_iff Es].
    cbn [cprintf_loop]. change (37 =? 0) with false. change (37 =? 37) with true. cbn [negb].
    rewrite E1, Ed, Ex, Ep, Es. destruct (Z.eqb_spec c 37) as [->|_]; apply fmap_Some in Ht as (t' & Ht & ->).
    + rewrite (bind_done _ _ _ _ _ (consputc_put _ _ Hd)).
      exact (IH' fmt ap t' (putc 37 d) ltac:(cbn; lia) Ht Hd).
    + rewrite (bind_done _ _ _ _ _ (consputc_put _ _ Hd)), (bind_done _ _ _ _ _ (consputc_put c (putc 37 d) Hd)).
      exact (IH' fmt ap t' (putc c (putc 37 d)) ltac:(cbn; lia) Ht Hd).
Qed.

Lemma in_dev_done {A} (m : K devices A) c a d : m (c_dev c) = Done a d → in_dev m c = Done a (set_dev d c).
Proof. intros H. unfold in_dev, zoom. by rewrite H. Qed.

Lemma cprintf_put fmt ap t c :
  format fmt ap = Some t → d_panicked (c_dev c) = false → Lk_cons ∉ c_held c →
  cprintf (Some fmt) ap c = Done tt (set_dev (put_chars t (c_dev c)) c).
Proof.
  intros Ht Hd Hc. unfold cprintf, bind at 1, gets. destruct (d_locking (c_dev c)) eqn:El.
  - rewrite (bind_done _ _ _ _ _ (acquire_ok _ _ Hc)).
    erewrite bind_done by (apply in_dev_done, cprintf_loop_put; [exact Ht|exact Hd]).
    by rewrite (release_head Lk_cons (c_held c)).
  - unfold bind at 1, ret at 1. erewrite bind_done by (apply in_dev_done, cprintf_loop_put; [exact Ht|exact Hd]). done.
Qed.

(** cprintf prints the text of its format.  When the arguments fit the format, cprintf
    returns with the locks as they were and everything but the output as it was, and
    what it prints is the text: numbers in decimal or with 8 or 16 hexadecimal digits,
    strings up to their null, a percent sign for two, unknown conversions as they are.
    The serial port gets exactly the bytes of the text. *)
Theorem cprintf_output fmt ap t c :
  format fmt ap = Some t → d_panicked (c_dev c) = false → Lk_cons ∉ c_held c →
  ∃ d, cprintf (Some fmt) ap c = Done tt (set_dev d c) ∧ same_but_output (c_dev c) d ∧
    (uart (d_serial (c_dev c)) = true → bytes_ok t →
     com_out (d_serial d) = com_out (d_serial (c_dev c)) ++ ((λ b, (COM1, b)) <$> t)).
Proof.
  intros Ht Hd Hc. eexists. split; [by apply cprintf_put|]. split; [apply put_chars_same|apply put_chars_serial].
Qed.

Definition serial_core : core :=
  Core [] [] None (set_serial (Serial true [] []) (consoleinit devices0)).

Lemma cprintf_output_witness :
  ∃ d, cprintf (Some (str "pid %d: %x%%")) [Va_num 4294967254; Va_num 255] serial_core = Done tt (set_dev d serial_core) ∧
    com_out (d_serial d) = (λ b, (COM1, b)) <$> str "pid -42: 000000ff%".
Proof.
  destruct (cprintf_output (str "pid %d: %x%%") [Va_num 4294967254; Va_num 255] (str "pid -42: 000000ff%") serial_core)
    as (d & E & _ & Hout); [vm_compute; reflexivity|reflexivity|apply not_elem_of_nil|].
  exists d. split; [exact E|]. apply Hout; [reflexivity|]. by apply (bool_decide_unpack _).
Defined.

(** ** panic *)

(** After the output of panic, every other processor halts when it prints. *)
Lemma panic_freezes cpu s pcs c c' ch : panic_output cpu s pcs c = Done tt c' → consputc ch (c_dev c') = Panic "halted".
Proof.
  assert (H : ∀ c1 c2, in_dev (modify (set_panicked true)) c1 = Done tt c2 → consputc ch (c_dev c2) = Panic "halted").
  { by intros c1 c2 [= <-]. }
  assert (L : ∀ A (m : K core A) (k : A → K core unit),
    (∀ a c1 c2, k a c1 = Done tt c2 → consputc ch (c_dev c2) = Panic "halted") →
    ∀ c1 c2, bind m k c1 = Done tt c2 → consputc ch (c_dev c2) = Panic "halted").
  { intros A m k Hk c1 c2. unfold bind. destruct (m c1); [apply Hk|done|done]. }
  unfold panic_output. revert c c'. do 5 (apply L; intro). exact H.
Qed.
