(* ===== verification/ConsoleIn.v ===== *)
(** * The line editor of the console

    The ring of console.c, with its three counters that wrap around, implements a queue
    of committed characters and a line that is being edited. *)

From S2P Require Import Prelude Params CString Devices Kbd Core Bio Log BlockStore Fs Console ConsoleOut.

(** ** The editor on lists *)

(** The committed characters that nobody has read, and the line under the cursor. *)
Record editor := Editor { ed_queue : list Z; ed_line : list Z }.

(** A character is typed. *)
Definition typed (c : Z) (x : editor) : editor :=
  let '(Editor Q L) := x in
  if (c =? C 90) || (c =? C 80) then x
  else if c =? C 85 then Editor Q []
  else if (c =? C 72) || (c =? 0x7f) then Editor Q (take (length L - 1) L)
  else if negb (c =? 0) && (length Q + length L <? 128)%nat then
    let c := if c =? 13 then 10 else c in
    if (c =? 10) || (c =? C 68) || (length Q + length L =? 127)%nat then Editor (Q ++ L ++ [c]) []
    else Editor Q (L ++ [c])
  else x.

(** A read of at most [n] characters; None when it has to wait.  A read ends after a
    newline, and before an end of file, which is taken off only by a read that has
    nothing else to return. *)
Fixpoint taken (first : bool) (n : nat) (Q : list Z) : option (list Z * list Z) :=
  match n with
  | O => Some ([], Q)
  | S n =>
      match Q with
      | [] => None
      | c :: Q' =>
          if c =? C 68 then Some ([], if first then Q' else Q)
          else if c =? 10 then Some ([c], Q')
          else x ← taken false n Q'; Some (c :: fst x, snd x)
      end
  end.

(** ** The ring *)
Record ring (i : input) (x : editor) : Prop := {
  rg_len : length (in_buf i) = 128%nat;
  rg_r : 0 ≤ in_r i < 2 ^ 32;
  rg_w : in_w i = u32 (in_r i + Z.of_nat (length (ed_queue x)));
  rg_e : in_e i = u32 (in_r i + Z.of_nat (length (ed_queue x ++ ed_line x)));
  rg_room : (length (ed_queue x ++ ed_line x) ≤ 128)%nat;
  rg_chars : ∀ k c, (ed_queue x ++ ed_line x) !! k = Some c →
    in_buf i !! Z.to_nat ((in_r i + Z.of_nat k) mod 128) = Some c
}.

(** Counters that differ by less than 2^32. *)
Lemma u32_diff r a b : 0 ≤ b ≤ a → a < 2 ^ 32 → u32 (u32 (r + a) - u32 (r + b)) = a - b.
Proof.
  intros H1 H2. unfold u32. rewrite <- Zminus_mod. replace (r + a - (r + b)) with (a - b) by lia.
  apply Z.mod_small. lia.
Qed.
Lemma u32_add r a b : u32 (u32 (r + a) + b) = u32 (r + (a + b)).
Proof. unfold u32. rewrite Zplus_mod_idemp_l. f_equal. lia. Qed.
Lemma u32_mod_128 a : u32 a mod 128 = a mod 128.
Proof.
  unfold u32. symmetry. rewrite (Z.div_mod a (2 ^ 32)) at 1 by lia.
  replace (2 ^ 32 * (a / 2 ^ 32)) with (2 ^ 25 * (a / 2 ^ 32) * 128) by lia.
  rewrite Z.add_comm. by rewrite Z.mod_add by lia.
Qed.
Lemma u32_eqb r a b : 0 ≤ a < 2 ^ 32 → 0 ≤ b < 2 ^ 32 → (u32 (r + a) =? u32 (r + b)) = (a =? b).
Proof.
  intros Ha Hb. destruct (Z.eqb_spec a b) as [->|Hn]; [apply Z.eqb_refl|]. apply Z.eqb_neq. intros E.
  assert (H : u32 (u32 (r + a) - u32 (r + b)) = 0) by (by rewrite E, Z.sub_diag).
  unfold u32 in H. rewrite <- Zminus_mod in H. replace (r + a - (r + b)) with (a - b) in H by lia.
  apply Z.mod_divide in H as [q Hq]; [|lia]. nia.
Qed.
Lemma ring_slot r a b : 0 ≤ a < b → b < a + 128 → Z.to_nat ((r + a) mod 128) ≠ Z.to_nat ((r + b) mod 128).
Proof.
  intros H1 H2 E. apply Z2Nat.inj in E; [|apply Z.mod_pos_bound; lia..].
  assert (H : (r + b - (r + a)) mod 128 = 0) by (by rewrite Zminus_mod, E, Z.sub_diag).
  replace (r + b - (r + a)) with (b - a) in H by lia. rewrite Z.mod_small in H; lia.
Qed.

Section ring.
Context (i : input) (Q L : list Z) (Hr : ring i (Editor Q L)).
Local Abbreviation nQ := (Z.of_nat (length Q)).
Local Abbreviation nL := (Z.of_nat (length L)).

Lemma ring_sizes : (length Q + length L ≤ 128)%nat.
Proof. pose proof (rg_room _ _ Hr) as H. cbn in H. rewrite length_app in H. lia. Qed.
Lemma ring_e : in_e i = u32 (in_r i + (nQ + nL)).
Proof. rewrite (rg_e _ _ Hr). cbn. rewrite length_app. f_equal. lia. Qed.
Lemma ring_r : in_r i = u32 (in_r i + 0).
Proof. unfold u32. rewrite Z.add_0_r, Z.mod_small; [done|apply Hr]. Qed.

Lemma ring_empty : (in_r i =? in_w i) = bool_decide (Q = []).
Proof.
  pose proof ring_sizes. rewrite ring_r at 1. rewrite (rg_w _ _ Hr). cbn [ed_queue]. rewrite u32_eqb by lia.
  destruct Q; [done|]. cbn [length]. rewrite bool_decide_eq_false_2 by done. apply Z.eqb_neq. lia.
Qed.
Lemma ring_line_empty : (in_e i =? in_w i) = bool_decide (L = []).
Proof.
  pose proof ring_sizes. rewrite ring_e, (rg_w _ _ Hr). cbn [ed_queue]. rewrite u32_eqb by lia.
  destruct L; cbn [length].
  - rewrite bool_decide_eq_true_2 by done. apply Z.eqb_eq. lia.
  - rewrite bool_decide_eq_false_2 by done. apply Z.eqb_neq. lia.
Qed.
Lemma ring_used : u32 (in_e i - in_r i) = nQ + nL.
Proof. pose proof ring_sizes. rewrite ring_e. rewrite ring_r at 2. rewrite u32_diff by lia. lia. Qed.
Lemma ring_edited : u32 (in_e i - in_w i) = nL.
Proof. pose proof ring_sizes. rewrite ring_e, (rg_w _ _ Hr). cbn [ed_queue]. rewrite u32_diff by lia. lia. Qed.

(** The last character of the line is not a newline. *)
Lemma ring_last : L ≠ [] → 10 ∉ L → (in_char i (u32 (in_e i - 1)) =? 10) = false.
Proof.
  intros HL Hnl. destruct (exists_last HL) as (L' & c & EL). pose proof ring_sizes as Hs.
  assert (Hlen : length L = S (length L')) by (rewrite EL, length_app; cbn; lia).
  unfold in_char. rewrite ring_e. change (?a - 1) with (a + -1). rewrite u32_add.
  rewrite u32_mod_128. erewrite list_lookup_total_correct.
  2: { replace (nQ + nL + -1) with (Z.of_nat (length Q + length L')) by lia. apply (rg_chars _ _ Hr).
       cbn. rewrite lookup_app_r by lia. rewrite EL, lookup_app_r by lia.
       replace (length Q + length L' - length Q - length L')%nat with 0%nat by lia. done. }
  apply Z.eqb_neq. intros ->. apply Hnl. rewrite EL. apply elem_of_app. right. by left.
Qed.

(** Erasing the last character. *)
Lemma ring_erase : L ≠ [] → ring (set_e (u32 (in_e i - 1)) i) (Editor Q (take (length L - 1) L)).
Proof.
  intros HL. pose proof ring_sizes as Hs. assert (0 < length L)%nat by (destruct L; [done|cbn; lia]).
  destruct Hr as [H1 H2 H3 H4 H5 H6]. cbn [ed_queue ed_line] in *. split; cbn [ed_queue ed_line in_buf in_r in_w in_e set_e]; try done.
  - rewrite ring_e. change (?a - 1) with (a + -1). rewrite u32_add. rewrite length_app, length_take. f_equal. lia.
  - rewrite length_app, length_take. lia.
  - intros k c Hk. apply H6. apply lookup_app_Some in Hk as [Hk|[Hk1 Hk2]]; apply lookup_app_Some; [by left|right].
    split; [done|]. by apply lookup_take_Some in Hk2 as [? _].
Qed.

(** Storing a character. *)
Lemma ring_store c :
  (length Q + length L < 128)%nat → is_byte c → ring (store_char c i) (Editor Q (L ++ [c])).
Proof.
  intros Hs Hc. unfold is_byte in Hc. assert (Hu : u8 c = c) by (unfold u8; apply Z.mod_small; lia).
  pose proof ring_e as He. destruct Hr as [H1 H2 H3 H4 H5 H6]. cbn [ed_queue ed_line] in *.
  split; cbn [ed_queue ed_line in_buf in_r in_w in_e store_char]; try done.
  - by rewrite length_insert.
  - rewrite He, u32_add. f_equal. rewrite !length_app. cbn. lia.
  - rewrite !length_app. cbn. lia.
  - intros k x Hk. rewrite app_assoc in Hk. rewrite He, u32_mod_128, Hu.
    apply lookup_app_Some in Hk as [Hk|[Hk1 Hk2]].
    + pose proof (lookup_lt_Some _ _ _ Hk) as Hlt. rewrite length_app in Hlt.
      rewrite list_lookup_insert_ne; [by apply H6|]. apply not_eq_sym, ring_slot; lia.
    + rewrite length_app in Hk1, Hk2. apply list_lookup_singleton_Some in Hk2 as [Hk2 ->].
      replace k with (length Q + length L)%nat by lia. rewrite Nat2Z.inj_add.
      apply list_lookup_insert_eq. rewrite H1. pose proof (Z.mod_pos_bound (in_r i + (nQ + nL)) 128). lia.
Qed.

(** Committing the line. *)
Lemma ring_commit : ring (set_w (in_e i) i) (Editor (Q ++ L) []).
Proof.
  destruct Hr as [H1 H2 H3 H4 H5 H6]. cbn [ed_queue ed_line] in *.
  split; cbn [ed_queue ed_line in_buf in_r in_w in_e set_w]; by rewrite ?app_nil_r.
Qed.
End ring.

(** Taking the first character. *)
Lemma ring_first i c Q L : ring i (Editor (c :: Q) L) → in_char i (in_r i) = c.
Proof.
  intros Hr. unfold in_char. apply list_lookup_total_correct.
  pose proof (rg_chars _ _ Hr 0 c eq_refl) as H. by rewrite Z.add_0_r in H.
Qed.
Lemma ring_take i c Q L : ring i (Editor (c :: Q) L) → ring (set_r (u32 (in_r i + 1)) i) (Editor Q L).
Proof.
  intros Hr. pose proof (ring_sizes _ _ _ Hr) as Hs. destruct Hr as [H1 H2 H3 H4 H5 H6].
  cbn [ed_queue ed_line length app] in *.
  split; cbn [ed_queue ed_line in_buf in_r in_w in_e set_r]; try done.
  - apply Z.mod_pos_bound. lia.
  - rewrite u32_add, H3. f_equal. lia.
  - rewrite u32_add, H4. f_equal. lia.
  - lia.
  - intros k x Hk. specialize (H6 (S k) x Hk). rewrite <- H6. f_equal.
    rewrite <- u32_mod_128, u32_add, u32_mod_128. do 2 f_equal. lia.
Qed.

(** ** The operations of the console on the ring *)
Record console_ok (c : core) (x : editor) : Prop := {
  co_cons : Lk_cons ∉ c_held c;
  co_ptable : Lk_ptable ∉ c_held c;
  co_panicked : d_panicked (c_dev c) = false;
  co_uart : uart (d_serial (c_dev c)) = true;
  co_ring : ring (d_input (c_dev c)) x
}.

(** What the steps leave alone. *)
Definition kept (c c' : core) : Prop :=
  c_held c' = c_held c ∧ com_in (d_serial (c_dev c')) = com_in (d_serial (c_dev c)).
#[global] Instance kept_refl : Reflexive kept.
Proof. done. Qed.
#[global] Instance kept_trans : Transitive kept.
Proof. intros ??? [] []. split; congruence. Qed.

(** A computation that ends with the ring as the editor [x]. *)
Definition ends (m : K core unit) (c : core) (x : editor) : Prop :=
  ∃ c', m c = Done tt c' ∧ console_ok c' x ∧ kept c c'.

Lemma ends_bind m k c x1 x :
  ends m c x1 → (∀ c1, console_ok c1 x1 → ends k c1 x) → ends (m ;;; k) c x.
Proof.
  intros (c1 & E1 & H1 & K1) Hk. destruct (Hk c1 H1) as (c2 & E2 & H2 & K2).
  exists c2. split; [by rewrite (bind_done _ _ _ _ _ E1)|]. split; [done|]. by etrans.
Qed.

Lemma ends_output d c x : console_ok c x → same_but_output (c_dev c) d → console_ok (set_dev d c) x ∧ kept c (set_dev d c).
Proof.
  intros [] []. split; [|done]. split; cbn; congruence.
Qed.
Lemma ends_putc ch c x : console_ok c x → ends (in_dev (consputc ch)) c x.
Proof.
  intros Hc. eexists. split; [apply in_dev_done, consputc_put, Hc|].
  apply ends_output; [done|apply putc_same].
Qed.
Lemma ends_cprintf fmt ap t c x : format fmt ap = Some t → console_ok c x → ends (cprintf (Some fmt) ap) c x.
Proof.
  intros Ht Hc. eexists. split; [apply (cprintf_put _ _ _ _ Ht); apply Hc|].
  apply ends_output; [done|apply put_chars_same].
Qed.
Lemma ends_ret c x : console_ok c x → ends (ret tt) c x.
Proof. intros Hc. by exists c. Qed.
Lemma ends_input f c x x' :
  console_ok c x → ring (f (d_input (c_dev c))) x' → ends (upd_input f) c x'.
Proof. intros [] Hr. eexists. split; [done|]. split; [|done]. by split. Qed.
Lemma ends_idt c x : console_ok c x → ends (in_dev (modify (set_idt false))) c x.
Proof. intros []. eexists. split; [done|]. split; [|done]. by split. Qed.
Lemma ends_wakeup ch c x : console_ok c x → ends (wakeup ch) c x.
Proof.
  intros Hc. eexists. split; [apply wakeup_ok, Hc|]. destruct Hc. split; [|done]. by split.
Qed.

Lemma ends_procdump pcs c x : console_ok c x → ends (procdump pcs) c x.
Proof.
  intros Hc. unfold procdump, ends, bind at 1, gets. fold (ends (procdump_loop pcs 0 (c_procs c)) c x).
  generalize 0%nat as j. generalize (c_procs c) as ps. intros ps. revert c Hc.
  induction ps as [|p ps IH]; intros c Hc j; [by apply ends_ret|]. cbn [procdump_loop].
  apply (ends_bind _ _ _ x); [|intros c1 Hc1; by apply IH].
  destruct (bool_decide _); [by apply ends_ret|].
  apply (ends_bind _ _ _ x); [by eapply ends_cprintf|intros c1 Hc1].
  apply (ends_bind _ _ _ x); [|intros c2 Hc2; by eapply ends_cprintf].
  destruct (bool_decide _); [|by apply ends_ret]. generalize (take 10 (pcs j)) as l. intros l. clear -Hc1.
  revert c1 Hc1. induction l as [|pc l IH]; intros c Hc; [by apply ends_ret|]. cbn [dump_pcs].
  destruct (pc =? 0); [by apply ends_ret|].
  apply (ends_bind _ _ _ x); [by eapply ends_cprintf|intros c1 Hc1; by apply IH].
Qed.

Lemma ends_erase c Q L :
  console_ok c (Editor Q L) → L ≠ [] →
  ends (upd_input (set_e (u32 (in_e (d_input (c_dev c)) - 1))) ;;; in_dev (consputc BACKSPACE)) c
    (Editor Q (take (length L - 1) L)).
Proof.
  intros Hc HL. eapply ends_bind; [|intros c1 Hc1; by apply ends_putc].
  apply (ends_input _ _ _ _ Hc), ring_erase; [apply Hc|done].
Qed.

Lemma take_nl n L : 10 ∉ L → 10 ∉ take n L.
Proof.
  intros H (k & Hk)%list_elem_of_lookup_1. apply lookup_take_Some in Hk as [Hk _].
  by eapply H, list_elem_of_lookup_2.
Qed.

Lemma ends_kill_line fuel c Q L :
  console_ok c (Editor Q L) → 10 ∉ L → (length L ≤ fuel)%nat → ends (kill_line fuel) c (Editor Q []).
Proof.
  revert c L. induction fuel as [|fuel IH]; intros c L Hc Hnl Hf; cbn [kill_line]; unfold ends, bind at 1, gets;
    rewrite (ring_line_empty _ _ _ (co_ring _ _ Hc)).
  - destruct L; [|cbn in Hf; lia]. by apply ends_ret.
  - case_bool_decide as HL; [subst L; by apply ends_ret|].
    rewrite (ring_last _ _ _ (co_ring _ _ Hc) HL Hnl). cbn [negb andb].
    destruct (ends_erase _ _ _ Hc HL) as (c1 & E1 & Hc1 & K1). rewrite <- bind_assoc, (bind_done _ _ _ _ _ E1).
    destruct (IH c1 _ Hc1 (take_nl _ _ Hnl)) as (c2 & E2 & Hc2 & K2); [rewrite length_take; lia|].
    exists c2. split; [done|]. split; [done|]. by etrans.
Qed.

Lemma ends_store ch c Q L :
  console_ok c (Editor Q L) → is_byte ch → (length Q + length L < 128)%nat →
  ends (upd_input (store_char ch) ;;;
        in_dev (consputc ch) ;;;
        i <- gets (λ c, d_input (c_dev c));;
        if (ch =? 10) || (ch =? C 68) || (in_e i =? u32 (in_r i + INPUT_BUF)) then
          upd_input (set_w (in_e i)) ;;; wakeup Ch_input
        else ret tt) c
    (if (ch =? 10) || (ch =? C 68) || (length Q + length L =? 127)%nat then Editor (Q ++ L ++ [ch]) []
     else Editor Q (L ++ [ch])).
Proof.
  intros Hc Hch Hlt. eapply ends_bind; [by apply (ends_input _ _ _ _ Hc), ring_store; [apply Hc|..]|].
  intros c1 Hc1. eapply ends_bind; [by apply ends_putc|]. intros c2 Hc2. unfold ends, bind at 1, gets.
  replace (in_e (d_input (c_dev c2)) =? u32 (in_r (d_input (c_dev c2)) + INPUT_BUF)) with (length Q + length L =? 127)%nat.
  2: { rewrite (ring_e _ _ _ (co_ring _ _ Hc2)), length_app. cbn [length]. rewrite u32_eqb by (unfold INPUT_BUF; lia).
       unfold INPUT_BUF. destruct (Nat.eqb_spec (length Q + length L) 127); symmetry; [apply Z.eqb_eq|apply Z.eqb_neq]; lia. }
  destruct (_ || _); [|by apply ends_ret].
  eapply ends_bind; [|intros c3 Hc3; by apply ends_wakeup].
  apply (ends_input _ _ _ _ Hc2), ring_commit, Hc2.
Qed.

Lemma ends_char pcs ch c x : console_ok c x → 10 ∉ ed_line x → is_byte ch → ends (consoleintr_char pcs ch) c (typed ch x).
Proof.
  intros Hc Hnl Hch. destruct x as [Q L]. unfold consoleintr_char, ends, bind at 1, gets, typed.
  destruct (ch =? C 90); [by apply ends_idt|].
  destruct (ch =? C 80); cbn [orb]; [by apply ends_procdump|].
  destruct (ch =? C 85).
  { apply (ends_kill_line _ _ _ L Hc Hnl). rewrite (ring_edited _ _ _ (co_ring _ _ Hc)). lia. }
  destruct ((ch =? C 72) || (ch =? 0x7f)).
  { rewrite (ring_line_empty _ _ _ (co_ring _ _ Hc)). case_bool_decide as HL; [subst L; by apply ends_ret|].
    cbn [negb]. by apply ends_erase. }
  rewrite (ring_used _ _ _ (co_ring _ _ Hc)).
  replace (Z.of_nat (length Q) + Z.of_nat (length L) <? INPUT_BUF) with (length Q + length L <? 128)%nat.
  2: { unfold INPUT_BUF. destruct (Nat.ltb_spec (length Q + length L) 128), (Z.ltb_spec (Z.of_nat (length Q) + Z.of_nat (length L)) 128); lia. }
  destruct (negb (ch =? 0) && _) eqn:E; [|by apply ends_ret].
  apply andb_true_iff in E as [_ Hlt%Nat.ltb_lt].
  apply ends_store; [done| |done]. destruct (ch =? 13); [unfold is_byte; lia|done].
Qed.

Lemma typed_line ch x : 10 ∉ ed_line x → 10 ∉ ed_line (typed ch x).
Proof.
  destruct x as [Q L]. unfold typed. intros H. destruct (_ || _); [done|]. destruct (_ =? C 85); [apply not_elem_of_nil|].
  destruct (_ || _); [by apply take_nl|]. destruct (_ && _); [|done]. cbv zeta.
  set (c := if _ =? 13 then _ else _). destruct (Z.eqb_spec c 10) as [Hc|Hc]; cbn [orb]; [apply not_elem_of_nil|].
  destruct (_ || _); [apply not_elem_of_nil|]. cbn. rewrite elem_of_app.
  intros [?|?%list_elem_of_singleton]; [done|]. congruence.
Qed.

(** The loop over the characters that wait at the serial port takes them all. *)
Lemma uart_loop pcs cs c x fuel :
  console_ok c x → 10 ∉ ed_line x → com_in (d_serial (c_dev c)) = cs → bytes_ok cs → (length cs < fuel)%nat →
  ∃ c', consoleintr_loop pcs fuel uart_char c = Done tt c' ∧
    console_ok c' (foldl (λ x ch, typed ch x) x cs) ∧ c_held c' = c_held c ∧ com_in (d_serial (c_dev c')) = [].
Proof.
  intros Hc Hnl Hin Hb. revert c x fuel Hc Hnl Hin. induction Hb as [|ch cs Hch Hb IH]; intros c x fuel Hc Hnl Hin Hf;
    (destruct fuel as [|fuel]; [lia|]); cbn [consoleintr_loop foldl].
  - erewrite bind_done by (apply in_dev_done; unfold uart_char, uartgetc; rewrite (co_uart _ _ Hc), Hin; done).
    eexists. split; [done|]. split; [|done]. destruct Hc. by split.
  - erewrite bind_done by (apply in_dev_done; unfold uart_char, uartgetc; rewrite (co_uart _ _ Hc), Hin; done).
    destruct Hch as [Hch1 Hch2]. rewrite (proj2 (Z.ltb_ge ch 0)) by lia. set (c1 := set_dev _ c).
    assert (Hc1 : console_ok c1 x) by (destruct Hc; by split).
    destruct (ends_char pcs ch c1 x Hc1 Hnl) as (c2 & E2 & Hc2 & K2 & K3); [done|].
    rewrite (bind_done _ _ _ _ _ E2).
    destruct (IH c2 (typed ch x) fuel Hc2 (typed_line _ _ Hnl)) as (c3 & E3 & Hc3 & K4 & K5); [done|cbn in Hf; lia|].
    exists c3. split; [done|]. split; [done|]. split; [|done]. by rewrite K4, K2.
Qed.

Lemma set_r_back i x c : ring i x → set_r (u32 (in_r (set_r (u32 (in_r i + 1)) i) - 1)) (set_r (u32 (in_r i + 1)) c) = set_r (in_r i) c.
Proof.
  intros Hr. unfold set_r. cbn [in_r in_buf in_w in_e]. f_equal. unfold u32.
  rewrite Zminus_mod_idemp_l. replace (in_r i + 1 - 1) with (in_r i) by lia. apply Z.mod_small, Hr.
Qed.

Lemma read_loop fuel target n out c Q L o Q' :
  console_ok c (Editor Q L) → 0 ≤ n ≤ target → (Z.to_nat n ≤ fuel)%nat →
  taken (n =? target) (Z.to_nat n) Q = Some (o, Q') →
  ∃ c', consoleread_loop fuel target n out c = Done (Some (n - Z.of_nat (length o)), out ++ o) c' ∧
    console_ok c' (Editor Q' L) ∧ kept c c'.
Proof.
  revert n out c Q o Q'. induction fuel as [|fuel IH]; intros n out c Q o Q' Hc Hn Hf Ht; cbn [consoleread_loop].
  - assert (n = 0) as -> by lia. injection Ht as <- <-. rewrite app_nil_r. by exists c.
  - destruct (Z.ltb_spec 0 n) as [Hpos|Hpos].
    2: { assert (n = 0) as -> by lia. injection Ht as <- <-. rewrite app_nil_r. by exists c. }
    destruct (Z.to_nat n) as [|k] eqn:Ek; [lia|]. destruct Q as [|ch Q]; [done|]. cbn [taken] in Ht.
    unfold bind at 1, get. rewrite (ring_empty _ _ _ (co_ring _ _ Hc)), bool_decide_eq_false_2 by done.
    rewrite (ring_first _ _ _ _ (co_ring _ _ Hc)).
    destruct (ends_input (set_r (u32 (in_r (d_input (c_dev c)) + 1))) c _ (Editor Q L) Hc) as (c1 & E1 & Hc1 & K1);
      [by eapply ring_take, Hc|].
    rewrite (bind_done _ _ _ _ _ E1). destruct (ch =? C 68).
    + injection Ht as <- <-. rewrite app_nil_r, Z.sub_0_r. destruct (Z.eqb_spec n target) as [->|Hne].
      * rewrite Z.ltb_irrefl. by exists c1.
      * rewrite (proj2 (Z.ltb_lt n target)) by lia. eexists. split; [reflexivity|]. injection E1 as <-.
        cbn [c_dev set_dev d_input set_input]. rewrite (set_r_back _ _ _ (co_ring _ _ Hc)).
        split; [|done]. destruct Hc. split; try done. cbn. by destruct (d_input (c_dev c)).
    + destruct (ch =? 10); [injection Ht as <- <-; by exists c1|].
      apply bind_Some in Ht as ([o1 Q1] & Ht & [= <- <-]). cbn [fst snd].
      destruct (IH (n - 1) (out ++ [ch]) c1 Q o1 Q1 Hc1) as (c2 & E2 & Hc2 & K2); [lia|lia| |].
      { rewrite (proj2 (Z.eqb_neq _ _)) by lia. by replace (Z.to_nat (n - 1)) with k by lia. }
      exists c2. rewrite E2, <- app_assoc. cbn [length app]. split; [do 3 f_equal; lia|]. split; [done|]. by etrans.
Qed.

(** ** Runs *)

(** Characters arrive at the serial port, which interrupts; a process reads. *)
Inductive event := Receives (cs : list Z) | Reads (n : Z).

Definition receive (cs : list Z) (d : devices) : devices :=
  set_serial (Serial (uart (d_serial d)) (com_out (d_serial d)) (com_in (d_serial d) ++ cs)) d.

Fixpoint console_runs (pcs : nat → list Z) (evs : list event) : K core (list (Z * list Z)) :=
  match evs with
  | [] => ret []
  | Receives cs :: evs => in_dev (modify (receive cs)) ;;; uartintr pcs ;;; console_runs pcs evs
  | Reads n :: evs => r <- console_take n;; l <- console_runs pcs evs;; ret (r :: l)
  end.

Fixpoint editor_runs (evs : list event) (x : editor) : option (list (Z * list Z) * editor) :=
  match evs with
  | [] => Some ([], x)
  | Receives cs :: evs => editor_runs evs (foldl (λ x ch, typed ch x) x cs)
  | Reads n :: evs =>
      t ← taken true (Z.to_nat n) (ed_queue x);
      r ← editor_runs evs (Editor (snd t) (ed_line x));
      Some ((Z.of_nat (length (fst t)), fst t) :: fst r, snd r)
  end.

Definition event_ok (e : event) : Prop :=
  match e with Receives cs => bytes_ok cs | Reads n => 0 ≤ n < 2 ^ 31 end.

Lemma taken_length first n Q o Q' : taken first n Q = Some (o, Q') → (length o ≤ n)%nat.
Proof.
  revert first Q o. induction n as [|n IH]; intros first Q o; cbn [taken]; [intros [= <- _]; cbn; lia|].
  destruct Q as [|c Q]; [done|]. destruct (c =? C 68); [intros [= <- _]; cbn; lia|].
  destruct (c =? 10); [intros [= <- _]; cbn; lia|].
  intros ([o1 Q1] & Ht & [= <- <-])%bind_Some. apply IH in Ht. cbn. lia.
Qed.

Lemma take_ok n c Q L o Q' :
  console_ok c (Editor Q L) → Lk_input ∉ c_held c → 0 ≤ n < 2 ^ 31 → taken true (Z.to_nat n) Q = Some (o, Q') →
  ∃ c', console_take n c = Done (Z.of_nat (length o), o) c' ∧ console_ok c' (Editor Q' L) ∧ kept c c'.
Proof.
  intros Hc Hl Hn Ht. unfold console_take. rewrite (bind_done _ _ _ _ _ (acquire_ok _ _ Hl)).
  assert (Hu : u32 n = n) by (unfold u32; apply Z.mod_small; lia). rewrite Hu.
  set (c1 := set_held _ c). assert (Hc1 : console_ok c1 (Editor Q L)).
  { destruct Hc. split; cbn; try done; apply not_elem_of_cons; done. }
  destruct (read_loop (Z.to_nat n) n n [] c1 Q L o Q' Hc1) as (c2 & E2 & Hc2 & K2 & K3); [lia|lia|by rewrite Z.eqb_refl|].
  rewrite (bind_done _ _ _ _ _ E2), (bind_done _ _ _ _ _ (release_head Lk_input (c_held c) c2 K2 Hl)). cbn [fst snd app].
  eexists. split; [unfold ret; f_equal; f_equal|].
  - apply taken_length in Ht. replace (n - (n - Z.of_nat (length o))) with (Z.of_nat (length o)) by lia.
    unfold s32, signed. rewrite Z.mod_small by lia. by rewrite (proj2 (Z.ltb_lt _ _)) by lia.
  - destruct Hc2. split; [|done]. destruct Hc. by split.
Qed.

Lemma receive_ok pcs cs c x :
  console_ok c x → 10 ∉ ed_line x → Lk_input ∉ c_held c → com_in (d_serial (c_dev c)) = [] → bytes_ok cs →
  ∃ c', (in_dev (modify (receive cs)) ;;; uartintr pcs) c = Done tt c' ∧
    console_ok c' (foldl (λ x ch, typed ch x) x cs) ∧ c_held c' = c_held c ∧ com_in (d_serial (c_dev c')) = [].
Proof.
  intros Hc Hnl Hl Hin Hb. erewrite bind_done by reflexivity. unfold uartintr, bind at 1, gets, consoleintr.
  set (c0 := set_dev _ c). rewrite (bind_done _ _ _ _ _ (acquire_ok Lk_input c0 Hl)).
  assert (E : com_in (d_serial (c_dev c0)) = cs) by (cbn; by rewrite Hin). rewrite E.
  set (c1 := set_held _ c0). assert (Hc1 : console_ok c1 x).
  { destruct Hc. split; cbn; try done; apply not_elem_of_cons; done. }
  destruct (uart_loop pcs cs c1 x (S (length cs)) Hc1 Hnl E Hb) as (c2 & E2 & Hc2 & K2 & K3); [lia|].
  rewrite (bind_done _ _ _ _ _ E2), (release_head Lk_input (c_held c) c2 K2 Hl).
  eexists. split; [done|]. split; [|done]. destruct Hc2. destruct Hc. by split.
Qed.

(** C23: the console is a line editor.  Let characters arrive at the serial port and processes
    read, in any order, each read when there is something for it.  Then no step panics,
    the reads return what the reads of a line editor on lists return, and at the end
    the ring, whatever its counters have wrapped around to, holds the characters that
    editor holds.  In particular only committed characters are read, in order, each
    once, and erased ones are not. *)
Theorem console_line_editor pcs evs c x outs x' :
  console_ok c x → 10 ∉ ed_line x → Lk_input ∉ c_held c → com_in (d_serial (c_dev c)) = [] →
  Forall event_ok evs → editor_runs evs x = Some (outs, x') →
  ∃ c', console_runs pcs evs c = Done outs c' ∧ console_ok c' x' ∧ c_held c' = c_held c.
Proof.
  intros Hc Hnl Hl Hin Hevs. revert c x outs Hc Hnl Hl Hin. induction Hevs as [|[cs|n] evs He _ IH];
    intros c x outs Hc Hnl Hl Hin E; cbn [console_runs editor_runs] in *.
  - injection E as <- <-. by exists c.
  - destruct (receive_ok pcs cs c x Hc Hnl Hl Hin He) as (c1 & E1 & Hc1 & K1 & K2).
    rewrite <- bind_assoc, (bind_done _ _ _ _ _ E1).
    destruct (IH c1 _ outs Hc1) as (c2 & E2 & Hc2 & K3); [|by rewrite K1|done|done|].
    { clear -Hnl. revert x Hnl. induction cs; intros x Hnl; [done|]. by apply IHcs, typed_line. }
    exists c2. split; [done|]. split; [done|]. by rewrite K3.
  - apply bind_Some in E as ([o Q'] & Ht & E). apply bind_Some in E as ([os y] & Hr & [= <- <-]). destruct x as [Q L].
    destruct (take_ok n c Q L o Q' Hc Hl He Ht) as (c1 & E1 & Hc1 & K1 & K2). rewrite (bind_done _ _ _ _ _ E1).
    destruct (IH c1 (Editor Q' L) os Hc1) as (c2 & E2 & Hc2 & K3); [done|by rewrite K1|by rewrite K2|done|].
    rewrite (bind_done _ _ _ _ _ E2). exists c2. split; [done|]. split; [done|]. by rewrite K3.
Qed.

(** Someone types "sl", erases it, types "ls" and a return, and a process reads. *)
Lemma serial_core_ok : console_ok serial_core (Editor [] []).
Proof. split; [apply not_elem_of_nil|apply not_elem_of_nil|done|done|]. split; try done. cbn. lia. Qed.
Lemma console_line_editor_witness :
  ∃ c', console_runs (λ _, []) [Receives (str "sl" ++ [21]); Receives (str "ls" ++ [13]); Reads 100] serial_core =
    Done [(3, str "ls" ++ [10])] c'.
Proof.
  destruct (console_line_editor (λ _, []) [Receives (str "sl" ++ [21]); Receives (str "ls" ++ [13]); Reads 100]
    serial_core (Editor [] []) [(3, str "ls" ++ [10])] (Editor [] [])) as (c' & E & _).
  - apply serial_core_ok.
  - apply not_elem_of_nil.
  - apply not_elem_of_nil.
  - reflexivity.
  - repeat (apply Forall_cons_2; [try (by apply (bool_decide_unpack _)); cbn; lia|]). apply Forall_nil_2.
  - vm_compute. reflexivity.
  - by exists c'.
Defined.
