(* ===== verification/Frame.v ===== *)
(** * What every kernel function leaves alone

    The functions of bio.c, log.c and fs.c change the locks and the process table in
    few ways: they take and release spin locks, and they wake sleeping processes up.
    [tri v h m h'] says that a computation [m] that starts with the spin locks [h]
    held and returns does so with the spin locks [h'] held, with the same current
    process, and with a process table in which some sleeping processes have become
    runnable; [v] is the place of the locks and the process table in the state.
    The rules for the monad, with the hints of the database [frame], prove a function
    from the functions that it calls. *)

From S2P Require Import Prelude Params Core Pipe Kalloc Vm Bio Log BlockStore Fs.

(** ** Wakeups *)
Definition stepped (p p' : proc) : Prop :=
  p' = p ∨ p_state p = SLEEPING ∧ p' = set_state RUNNABLE p.

Lemma stepped_trans p1 p2 p3 : stepped p1 p2 → stepped p2 p3 → stepped p1 p3.
Proof.
  intros [->|[H1 ->]] [->|[H2 ->]]; [by left|by right|by right|]. by cbn in H2.
Qed.

#[global] Instance stepped_refl : Reflexive stepped.
Proof. by left. Qed.

Record frame (h : list lockid) (c0 c : core) : Prop := {
  fr_held : c_held c = h;
  fr_nodup : NoDup h;
  fr_cur : c_cur c = c_cur c0;
  fr_procs : Forall2 stepped (c_procs c0) (c_procs c)
}.

(** ** Triples *)
Definition tri {St A} (v : St → core) (h : list lockid) (m : K St A) (h' : list lockid) : Prop :=
  ∀ c0 s a s', frame h c0 (v s) → m s = Done a s' → frame h' c0 (v s').

Create HintDb frame discriminated.

Section rules.
Context {St : Type} (v : St → core).

Lemma tri_ret {A} (a : A) h : tri v h (ret a) h.
Proof. intros c0 s a' s' Hf [= <- <-]. done. Qed.

Lemma tri_gets {A} (f : St → A) h : tri v h (gets f) h.
Proof. intros c0 s a' s' Hf [= <- <-]. done. Qed.

Lemma tri_get h : tri v h get h.
Proof. intros c0 s a' s' Hf [= <- <-]. done. Qed.

Lemma tri_modify f h : (∀ s, v (f s) = v s) → tri v h (modify f) h.
Proof. intros Hv c0 s a s' Hf [= <- <-]. by rewrite Hv. Qed.

Lemma tri_panic {A} e h h' : tri v h (panic e : K St A) h'.
Proof. intros c0 s a s' Hf E. discriminate E. Qed.

Lemma tri_bind {A B} (m : K St A) (k : A → K St B) h h' h'' :
  tri v h m h' → (∀ a, tri v h' (k a) h'') → tri v h (bind m k) h''.
Proof.
  intros Hm Hk c0 s b s'' Hf. unfold bind. destruct (m s) as [a s'| |] eqn:E; [|done|done].
  intros E'. eapply Hk; [|exact E']. by eapply Hm.
Qed.

Lemma tri_zoom {T A} (get : St → T) (upd : T → St → St) (w : T → core) (m : K T A) h h' :
  (∀ s, v s = w (get s)) → (∀ t s, v (upd t s) = w t) → tri w h m h' → tri v h (zoom get upd m) h'.
Proof.
  intros H1 H2 Hm c0 s a s' Hf. unfold zoom. destruct (m (get s)) as [b t| |] eqn:E; [|done|done].
  intros [= <- <-]. rewrite H2. eapply Hm; [|exact E]. by rewrite <- H1.
Qed.
End rules.

(** Cases first, then the rule of the head, then the functions already proved. *)
Ltac tri_step :=
  match goal with
  | |- tri _ _ (match ?x with _ => _ end) _ => destruct x
  | |- tri _ _ (let _ := _ in _) _ => cbv zeta
  | |- tri _ _ (ret _) _ => apply tri_ret
  | |- tri _ _ (gets _) _ => apply tri_gets
  | |- tri _ _ get _ => apply tri_get
  | |- tri _ _ (panic _) _ => apply tri_panic
  | |- tri _ _ (modify _) _ => apply tri_modify; reflexivity
  | |- tri _ _ (bind _ _) _ => eapply tri_bind; [|intro]
  | |- tri _ _ _ _ => solve [eauto with frame nocore]
  end.
Ltac tri_auto := intros; repeat tri_step.

(** ** Locks and sleep *)
Abbreviation core_id := (λ c : core, c).

Lemma tri_acquire l h : tri core_id h (acquire l) (l :: h).
Proof.
  intros c0 c a c' [Hh Hn Hc Hp] E. destruct (decide (l ∈ c_held c)) as [Hl|Hl].
  - by rewrite acquire_held in E.
  - rewrite acquire_ok in E by done. injection E as <- <-.
    split; [by cbn; rewrite Hh|constructor; [by rewrite <- Hh|done]|done|done].
Qed.

Lemma tri_release l h : tri core_id (l :: h) (release l) h.
Proof.
  intros c0 c a c' [Hh [Hl Hn]%NoDup_cons Hc Hp] E.
  rewrite (release_head l h) in E by done. injection E as <- <-. by split.
Qed.
#[export] Hint Resolve tri_acquire tri_release : frame.

Lemma wakeup1_stepped ch p : stepped p (wakeup1_proc ch p).
Proof.
  unfold wakeup1_proc. destruct (bool_decide (p_state p = SLEEPING)) eqn:E; [|by left].
  apply bool_decide_eq_true in E. destruct (bool_decide _); [by right|by left].
Qed.

Lemma tri_wakeup1 ch h : tri core_id h (wakeup1 ch) h.
Proof.
  intros c0 c a c' [Hh Hn Hc Hp] [= <- <-]. split; [done|done|done|]. cbn.
  apply Forall2_fmap_r. eapply Forall2_impl; [exact Hp|].
  intros p p' Hs. eapply stepped_trans; [exact Hs|apply wakeup1_stepped].
Qed.
#[export] Hint Resolve tri_wakeup1 : frame.

Lemma tri_wakeup ch h : tri core_id h (wakeup ch) h.
Proof. unfold wakeup. tri_auto. Qed.

(** A process that sleeps does not return from the sleep. *)
Lemma sched_not_done ch c a c' : sched ch c ≠ Done a c'.
Proof.
  unfold sched. destruct (negb _); [done|]. destruct (negb _); [done|].
  destruct (c_cur c ≫= _) as [p|]; [|done]. by destruct (bool_decide _).
Qed.

Lemma tri_sched ch h h' : tri core_id h (sched ch) h'.
Proof. intros c0 c a c' _ E. by apply sched_not_done in E. Qed.

Lemma sleep_not_done ch lk c a c' : sleep ch lk c ≠ Done a c'.
Proof.
  unfold sleep, bind, gets. destruct (c_cur c) as [i|]; [|done].
  destruct (bool_decide (lk = Lk_ptable)); [apply sched_not_done|].
  destruct (acquire Lk_ptable c) as [u c1| |]; [|done|done].
  destruct (release lk c1); [apply sched_not_done|done|done].
Qed.

Lemma tri_sleep ch lk h h' : tri core_id h (sleep ch lk) h'.
Proof. intros c0 c a c' _ E. by apply sleep_not_done in E. Qed.
#[export] Hint Resolve tri_wakeup tri_sched tri_sleep : frame.

(** ** Sleep locks *)
Lemma tri_on_core {T A} (m : K core A) h h' : tri core_id h m h' → tri snd h (on_core (T := T) m) h'.
Proof. by apply tri_zoom. Qed.
#[export] Hint Resolve tri_on_core : frame.

Lemma tri_acquiresleep id h : tri snd h (acquiresleep id) h.
Proof. unfold acquiresleep, acquiresleep_loop. tri_auto. Qed.
Lemma tri_releasesleep id h : tri snd h (releasesleep id) h.
Proof. unfold releasesleep. tri_auto. Qed.
Lemma tri_holdingsleep id h : tri snd h (holdingsleep id) h.
Proof. unfold holdingsleep. tri_auto. Qed.
#[export] Hint Resolve tri_acquiresleep tri_releasesleep tri_holdingsleep : frame.

(** ** bio.c *)
Lemma tri_in_core {A} (m : K core A) h h' : tri core_id h m h' → tri bs_core h (in_core m) h'.
Proof. by apply tri_zoom. Qed.
Lemma tri_with_lock {A} i (m : K (sleeplock * core) A) h h' : tri snd h m h' → tri bs_core h (with_lock i m) h'.
Proof. by apply tri_zoom. Qed.
#[export] Hint Resolve tri_in_core tri_with_lock : frame.

Lemma tri_iderw i h : tri bs_core h (iderw i) h.
Proof. unfold iderw. tri_auto. Qed.
#[export] Hint Resolve tri_iderw : frame.
Lemma tri_bget dev b h : tri bs_core h (bget dev b) h.
Proof. unfold bget. tri_auto. Qed.
#[export] Hint Resolve tri_bget : frame.
Lemma tri_bread dev b h : tri bs_core h (bread dev b) h.
Proof. unfold bread. tri_auto. Qed.
Lemma tri_bwrite i h : tri bs_core h (bwrite i) h.
Proof. unfold bwrite. tri_auto. Qed.
Lemma tri_brelse i h : tri bs_core h (brelse i) h.
Proof. unfold brelse. tri_auto. Qed.
Lemma tri_get_data i h : tri bs_core h (get_data i) h.
Proof. unfold get_data. tri_auto. Qed.
Lemma tri_put_data i d h : tri bs_core h (put_data i d) h.
Proof. unfold put_data. tri_auto. Qed.
Lemma tri_pin i h : tri bs_core h (pin i) h.
Proof. unfold pin. tri_auto. Qed.
#[export] Hint Resolve tri_bread tri_bwrite tri_brelse tri_get_data tri_put_data tri_pin : frame.

(** ** log.c *)
Definition log_view (s : lstate) : core := bs_core (ls_bs s).

Lemma tri_in_bio {A} (m : K bstate A) h h' : tri bs_core h m h' → tri log_view h (in_bio m) h'.
Proof. by apply tri_zoom. Qed.
Lemma tri_log_core {A} (m : K core A) h h' : tri core_id h m h' → tri log_view h (log_core m) h'.
Proof. intros Hm. by apply tri_in_bio, tri_in_core. Qed.
Lemma tri_upd_log f h : tri log_view h (upd_log f) h.
Proof. unfold upd_log. tri_auto. Qed.
#[export] Hint Resolve tri_in_bio tri_log_core tri_upd_log : frame.

Lemma tri_install_from k tail h : tri log_view h (install_from k tail) h.
Proof. revert tail. induction k; intros tail; cbn [install_from]; [|unfold install_one]; tri_auto. Qed.
#[export] Hint Resolve tri_install_from : frame.
Lemma tri_install_trans h : tri log_view h install_trans h.
Proof. unfold install_trans. tri_auto. Qed.
Lemma tri_read_head h : tri log_view h read_head h.
Proof. unfold read_head. tri_auto. Qed.
Lemma tri_write_head h : tri log_view h write_head h.
Proof. unfold write_head. tri_auto. Qed.
#[export] Hint Resolve tri_install_trans tri_read_head tri_write_head : frame.
Lemma tri_log_readsb dev h : tri bs_core h (Log.readsb dev) h.
Proof. unfold Log.readsb. tri_auto. Qed.
#[export] Hint Resolve tri_log_readsb : frame.
Lemma tri_initlog dev h : tri log_view h (initlog dev) h.
Proof. unfold initlog, recover_from_log. tri_auto. Qed.
Lemma tri_begin_op h : tri log_view h begin_op h.
Proof. unfold begin_op, begin_op_loop. tri_auto. Qed.
Lemma tri_write_log_from k tail h : tri log_view h (write_log_from k tail) h.
Proof. revert tail. induction k; intros tail; cbn [write_log_from]; [|unfold write_log_one]; tri_auto. Qed.
#[export] Hint Resolve tri_initlog tri_begin_op tri_write_log_from : frame.
Lemma tri_commit h : tri log_view h commit h.
Proof. unfold commit, write_log. tri_auto. Qed.
#[export] Hint Resolve tri_commit : frame.
Lemma tri_end_op h : tri log_view h end_op h.
Proof. unfold end_op. tri_auto. Qed.
Lemma tri_log_write i h : tri log_view h (log_write i) h.
Proof. unfold log_write. tri_auto. Qed.
#[export] Hint Resolve tri_end_op tri_log_write : frame.

(** ** fs.c, over the log *)
Definition fs_view (s : fstate lstate) : core := st_core (fs_st s).

Lemma tri_in_st {A} (m : K lstate A) h h' : tri log_view h m h' → tri fs_view h (in_st m) h'.
Proof. by apply tri_zoom. Qed.
Lemma tri_fs_core {A} (m : K core A) h h' : tri core_id h m h' → tri fs_view h (fs_core m) h'.
Proof. intros Hm. apply tri_in_st. by apply (tri_zoom log_view st_core st_set_core core_id). Qed.
Lemma tri_with_ilock {A} ip (m : K (sleeplock * core) A) h h' : tri snd h m h' → tri fs_view h (with_ilock ip m) h'.
Proof. by apply tri_zoom. Qed.
#[export] Hint Resolve tri_in_st tri_fs_core tri_with_ilock : frame.

Lemma tri_st_bread dev b h : tri log_view h (st_bread dev b) h.
Proof. apply tri_in_bio, tri_bread. Qed.
Lemma tri_st_data i h : tri log_view h (st_data i) h.
Proof. apply tri_in_bio, tri_get_data. Qed.
Lemma tri_st_put i d h : tri log_view h (st_put i d ;;; st_log_write i) h.
Proof. eapply tri_bind; [apply tri_in_bio, tri_put_data|intro; apply tri_log_write]. Qed.
Lemma tri_st_brelse i h : tri log_view h (st_brelse i) h.
Proof. apply tri_in_bio, tri_brelse. Qed.
#[export] Hint Resolve tri_st_bread tri_st_data tri_st_put tri_st_brelse : frame.

Lemma tri_readsb dev h : tri fs_view h (readsb dev) h.
Proof. unfold readsb. tri_auto. Qed.
Lemma tri_bzero dev b h : tri fs_view h (bzero dev b) h.
Proof. unfold bzero. tri_auto. Qed.
#[export] Hint Resolve tri_readsb tri_bzero : frame.
Lemma tri_balloc_loop fuel dev b h : tri fs_view h (balloc_loop fuel dev b) h.
Proof. revert b. induction fuel; intros b; cbn [balloc_loop]; tri_auto. Qed.
#[export] Hint Resolve tri_balloc_loop : frame.
Lemma tri_balloc dev h : tri fs_view h (balloc dev) h.
Proof. unfold balloc. tri_auto. Qed.
Lemma tri_bfree dev b h : tri fs_view h (bfree dev b) h.
Proof. unfold bfree. tri_auto. Qed.
Lemma tri_iinit dev h : tri fs_view h (iinit dev) h.
Proof. unfold iinit. tri_auto. Qed.
Lemma tri_iget dev inum h : tri fs_view h (iget dev inum) h.
Proof. unfold iget. tri_auto. Qed.
#[export] Hint Resolve tri_balloc tri_bfree tri_iinit tri_iget : frame.
Lemma tri_ialloc_loop fuel dev ty i h : tri fs_view h (ialloc_loop fuel dev ty i) h.
Proof. revert i. induction fuel; intros i; cbn [ialloc_loop]; tri_auto. Qed.
#[export] Hint Resolve tri_ialloc_loop : frame.
Lemma tri_ialloc dev ty h : tri fs_view h (ialloc dev ty) h.
Proof. unfold ialloc. tri_auto. Qed.
Lemma tri_iupdate ip h : tri fs_view h (iupdate ip) h.
Proof. unfold iupdate. tri_auto. Qed.
Lemma tri_idup ip h : tri fs_view h (idup ip) h.
Proof. unfold idup. tri_auto. Qed.
Lemma tri_ilock p h : tri fs_view h (ilock p) h.
Proof. unfold ilock. tri_auto. Qed.
Lemma tri_iunlock p h : tri fs_view h (iunlock p) h.
Proof. unfold iunlock. tri_auto. Qed.
Lemma tri_bmap ip bn h : tri fs_view h (bmap ip bn) h.
Proof. unfold bmap. tri_auto. Qed.
#[export] Hint Resolve tri_ialloc tri_iupdate tri_idup tri_ilock tri_iunlock tri_bmap : frame.
Lemma tri_itrunc_direct k ip i h : tri fs_view h (itrunc_direct k ip i) h.
Proof. revert i. induction k; intros i; cbn [itrunc_direct]; tri_auto. Qed.
Lemma tri_itrunc_indirect k dev a j h : tri fs_view h (itrunc_indirect k dev a j) h.
Proof. revert j. induction k; intros j; cbn [itrunc_indirect]; tri_auto. Qed.
#[export] Hint Resolve tri_itrunc_direct tri_itrunc_indirect : frame.
Lemma tri_itrunc ip h : tri fs_view h (itrunc ip) h.
Proof. unfold itrunc. tri_auto. Qed.
#[export] Hint Resolve tri_itrunc : frame.
Lemma tri_iput ip h : tri fs_view h (iput ip) h.
Proof. unfold iput. tri_auto. Qed.
#[export] Hint Resolve tri_iput : frame.
Lemma tri_iunlockput ip h : tri fs_view h (iunlockput ip) h.
Proof. unfold iunlockput. tri_auto. Qed.
Lemma tri_stati ip h : tri fs_view h (stati ip) h.
Proof. unfold stati. tri_auto. Qed.
#[export] Hint Resolve tri_iunlockput tri_stati : frame.

(** The devices behave as the other functions do. *)
Section devices.
Variable devread : Z → option (nat → Z → Z → K (fstate lstate) (Z * list Z)).
Variable devwrite : Z → option (nat → Z → list Z → Z → K (fstate lstate) Z).
Hypothesis Hread : ∀ major f ip off n h, devread major = Some f → tri fs_view h (f ip off n) h.
Hypothesis Hwrite : ∀ major f ip off src n h, devwrite major = Some f → tri fs_view h (f ip off src n) h.

Lemma tri_readi_loop fuel ip off tot n out h : tri fs_view h (readi_loop fuel ip off tot n out) h.
Proof. revert off tot out. induction fuel; intros off tot out; cbn [readi_loop]; tri_auto. Qed.
#[local] Hint Resolve tri_readi_loop : frame.
Lemma tri_readi ip off n h : tri fs_view h (readi devread ip off n) h.
Proof.
  unfold readi. eapply tri_bind; [apply tri_gets|intro x].
  destruct (devread (i_major x)) as [f|] eqn:E; tri_auto.
Qed.
Lemma tri_writei_loop fuel ip src off tot n h : tri fs_view h (writei_loop fuel ip src off tot n) h.
Proof. revert off tot. induction fuel; intros off tot; cbn [writei_loop]; tri_auto. Qed.
#[local] Hint Resolve tri_readi tri_writei_loop : frame.
Lemma tri_writei ip src off n h : tri fs_view h (writei devwrite ip src off n) h.
Proof.
  unfold writei. eapply tri_bind; [apply tri_gets|intro x].
  destruct (devwrite (i_major x)) as [f|] eqn:E; tri_auto.
Qed.
#[local] Hint Resolve tri_writei : frame.

Lemma tri_dirlookup_loop fuel dp name off h : tri fs_view h (dirlookup_loop devread fuel dp name off) h.
Proof. revert off. induction fuel; intros off; cbn [dirlookup_loop]; tri_auto. Qed.
#[local] Hint Resolve tri_dirlookup_loop : frame.
Lemma tri_dirlookup dp name h : tri fs_view h (dirlookup devread dp name) h.
Proof. unfold dirlookup. tri_auto. Qed.
Lemma tri_dirlink_loop fuel dp off de h : tri fs_view h (dirlink_loop devread fuel dp off de) h.
Proof. revert off de. induction fuel; intros off de; cbn [dirlink_loop]; tri_auto. Qed.
#[local] Hint Resolve tri_dirlookup tri_dirlink_loop : frame.
Lemma tri_dirlink dp name inum h : tri fs_view h (dirlink devread devwrite dp name inum) h.
Proof. unfold dirlink. tri_auto. Qed.
Lemma tri_namex_loop fuel ip path b name h : tri fs_view h (namex_loop devread fuel ip path b name) h.
Proof. revert ip path name. induction fuel; intros ip path name; cbn [namex_loop]; tri_auto. Qed.
#[local] Hint Resolve tri_namex_loop : frame.
Lemma tri_namex path b name h : tri fs_view h (namex devread path b name) h.
Proof. unfold namex, proc_cwd. tri_auto. Qed.
#[local] Hint Resolve tri_namex : frame.
Lemma tri_namei path h : tri fs_view h (namei devread path) h.
Proof. unfold namei. tri_auto. Qed.
Lemma tri_nameiparent path name h : tri fs_view h (nameiparent devread path name) h.
Proof. unfold nameiparent. tri_auto. Qed.
End devices.
#[export] Hint Resolve tri_readi tri_writei tri_dirlookup tri_dirlink tri_namei tri_nameiparent tri_gets : frame.
#[export] Hint Extern 1 (tri _ _ (modify _) _) => apply tri_modify; reflexivity : frame.

(** * What the memory functions and the pipes leave alone

    The triples of [Frame] for kalloc.c, vm.c and pipe.c. *)

(** ** kalloc.c *)

(** A body that runs between the two conditional uses of the lock and does not
    change whether the lock is in use. *)
Lemma tri_kmem (body : K kst unit) h :
  (∀ h, tri snd h body h) →
  (∀ s a s', body s = Done a s' → km_uselock (fst s') = km_uselock (fst s)) →
  tri snd h (kmem_lock ;;; body ;;; kmem_unlock) h.
Proof.
  intros Hb Hu c0 [m c] a s' Hf. unfold bind at 1, kmem_lock, bind at 1, gets. cbn [fst snd].
  destruct (km_uselock m) eqn:U; unfold ret.
  - unfold on_core, zoom. cbn [fst snd]. destruct (acquire Lk_kmem c) as [u c1| |] eqn:Ea; [|done|done].
    pose proof (tri_acquire Lk_kmem h c0 c u c1 Hf Ea) as Hf1. unfold bind at 1.
    destruct (body (m, c1)) as [u2 [m2 c2]| |] eqn:Eb; [|done|done].
    pose proof (Hb _ c0 (m, c1) u2 (m2, c2) Hf1 Eb) as Hf2. apply Hu in Eb. cbn [fst] in Eb.
    unfold kmem_unlock, bind, gets. cbn [fst snd]. rewrite Eb, U. by apply (tri_on_core _ _ h (tri_release Lk_kmem h)).
  - unfold bind at 1. destruct (body (m, c)) as [u2 [m2 c2]| |] eqn:Eb; [|done|done].
    pose proof (Hb _ c0 (m, c) u2 (m2, c2) Hf Eb) as Hf2. apply Hu in Eb. cbn [fst] in Eb.
    unfold kmem_unlock, bind, gets. cbn [fst snd]. rewrite Eb, U. by intros [= <- <-].
Qed.

Section memory.
Variable kend : Z.

Lemma tri_kfree v h : tri snd h (kfree kend v) h.
Proof.
  unfold kfree. tri_step; [tri_auto|]. eapply tri_bind; [tri_auto|intro].
  assert (E : ∀ s, (kmem_lock ;;; modify (λ s, store64 v (km_freelist (fst s)) s) ;;;
     modify (set_freelist v) ;;; kmem_unlock) s =
    (kmem_lock ;;; (modify (λ s, store64 v (km_freelist (fst s)) s) ;;; modify (set_freelist v)) ;;; kmem_unlock) s).
  { intros s. apply bind_ext. intros _ s1. by rewrite bind_assoc. }
  intros c0 s u s' Hf Es. rewrite E in Es. eapply tri_kmem; [| |exact Hf|exact Es]; [tri_auto|].
  intros s1 u1 s2 [= _ <-]. done.
Qed.

Lemma tri_kalloc h : tri snd h kalloc h.
Proof.
  unfold kalloc. intros c0 s r s' Hf.
  set (body := (r <- gets (λ s, km_freelist (fst s));;
     if r =? 0 then panic "Out of memory!" else modify (λ s, set_freelist (load64 (fst s) r) s)) : K kst unit).
  intros E. assert (E' : ∃ u, (kmem_lock ;;; body ;;; kmem_unlock) s = Done u s').
  { subst body. revert E. unfold bind, gets, ret. destruct (kmem_lock s) as [u1 s1| |]; [|done|done].
    destruct (_ =? 0); [done|]. cbn [modify]. destruct (kmem_unlock _) as [u2 s2| |]; [|done|done].
    intros [= _ <-]. by exists u2. }
  destruct E' as [u E']. eapply tri_kmem; [| |exact Hf|exact E']; [subst body; tri_auto|].
  intros s1 a s2. unfold body, bind, gets. destruct (_ =? 0); [done|]. by intros [= _ <-].
Qed.
#[local] Hint Resolve tri_kfree tri_kalloc : frame.

(** ** vm.c *)
Lemma tri_walk_level tab idx alloc h : tri snd h (walk_level tab idx alloc) h.
Proof. unfold walk_level. tri_auto. Qed.
#[local] Hint Resolve tri_walk_level : frame.
Lemma tri_walkpgdir pml4 va alloc h : tri snd h (walkpgdir pml4 va alloc) h.
Proof. unfold walkpgdir. tri_auto. Qed.
#[local] Hint Resolve tri_walkpgdir : frame.
Lemma tri_mappages_loop fuel pgdir a last pa perm h : tri snd h (mappages_loop fuel pgdir a last pa perm) h.
Proof. revert a pa. induction fuel; intros a pa; cbn [mappages_loop]; tri_auto. Qed.
#[local] Hint Resolve tri_mappages_loop : frame.
Lemma tri_mappages pgdir va size pa perm h : tri snd h (mappages pgdir va size pa perm) h.
Proof. unfold mappages. tri_auto. Qed.
Lemma tri_setupkvm kpdpt h : tri snd h (setupkvm kpdpt) h.
Proof. unfold setupkvm. tri_auto. Qed.
#[local] Hint Resolve tri_mappages tri_setupkvm : frame.
Lemma tri_inituvm pgdir init sz h : tri snd h (inituvm pgdir init sz) h.
Proof. unfold inituvm. tri_auto. Qed.
Lemma tri_deallocuvm_loop fuel pgdir a oldsz h : tri snd h (deallocuvm_loop kend fuel pgdir a oldsz) h.
Proof. revert a. induction fuel; intros a; cbn [deallocuvm_loop]; [|unfold dealloc_page]; tri_auto. Qed.
#[local] Hint Resolve tri_deallocuvm_loop : frame.
Lemma tri_deallocuvm pgdir oldsz newsz h : tri snd h (deallocuvm kend pgdir oldsz newsz) h.
Proof. unfold deallocuvm. tri_auto. Qed.
#[local] Hint Resolve tri_deallocuvm : frame.
Lemma tri_allocuvm_loop fuel pgdir a oldsz newsz h : tri snd h (allocuvm_loop kend fuel pgdir a oldsz newsz) h.
Proof. revert a. induction fuel; intros a; cbn [allocuvm_loop]; tri_auto. Qed.
#[local] Hint Resolve tri_allocuvm_loop : frame.
Lemma tri_allocuvm pgdir oldsz newsz h : tri snd h (allocuvm kend pgdir oldsz newsz) h.
Proof. unfold allocuvm. tri_auto. Qed.
Lemma tri_free_entries f n tab i h : (∀ t, tri snd h (f t) h) → tri snd h (free_entries f n tab i) h.
Proof. intros Hf. revert i. induction n; intros i; cbn [free_entries]; tri_auto. Qed.
#[local] Hint Resolve tri_free_entries : frame.
Lemma tri_free_pt pt h : tri snd h (free_pt kend pt) h.
Proof. unfold free_pt. tri_auto. Qed.
#[local] Hint Resolve tri_free_pt : frame.
Lemma tri_free_pd pt h : tri snd h (free_pd kend pt) h.
Proof. unfold free_pd. tri_auto. Qed.
#[local] Hint Resolve tri_free_pd : frame.
Lemma tri_free_pdp pt h : tri snd h (free_pdp kend pt) h.
Proof. unfold free_pdp. tri_auto. Qed.
#[local] Hint Resolve tri_free_pdp : frame.
Lemma tri_freevm pml4 h : tri snd h (freevm kend pml4) h.
Proof. unfold freevm. tri_auto. Qed.
#[local] Hint Resolve tri_freevm : frame.
Lemma tri_clearpteu pgdir uva h : tri snd h (clearpteu pgdir uva) h.
Proof. unfold clearpteu. tri_auto. Qed.
Lemma tri_copyuvm_loop fuel pgdir d i sz h : tri snd h (copyuvm_loop kend fuel pgdir d i sz) h.
Proof. revert i. induction fuel; intros i; cbn [copyuvm_loop]; [|unfold copy_page]; tri_auto. Qed.
#[local] Hint Resolve tri_copyuvm_loop : frame.
Lemma tri_copyuvm kpdpt pgdir sz h : tri snd h (copyuvm kend kpdpt pgdir sz) h.
Proof. unfold copyuvm. tri_auto. Qed.
Lemma tri_copyout_loop fuel pgdir va buf len h : tri snd h (copyout_loop fuel pgdir va buf len) h.
Proof. revert va buf len. induction fuel; intros va buf len; cbn [copyout_loop]; [|unfold uva2ka]; tri_auto. Qed.
#[local] Hint Resolve tri_copyout_loop : frame.
Lemma tri_copyout pgdir va p len h : tri snd h (copyout pgdir va p len) h.
Proof. unfold copyout. tri_auto. Qed.
End memory.
#[export] Hint Resolve tri_kfree tri_kalloc tri_walkpgdir tri_mappages tri_setupkvm tri_inituvm tri_deallocuvm
  tri_allocuvm tri_freevm tri_clearpteu tri_copyuvm tri_copyout : frame.

(** ** pipe.c *)
Lemma tri_upd_pipe f h : tri snd h (upd_pipe f) h.
Proof. unfold upd_pipe. tri_auto. Qed.
#[export] Hint Resolve tri_upd_pipe : frame.
Lemma tri_pipeclose_pipe p w h : tri snd h (pipeclose_pipe p w) h.
Proof. unfold pipeclose_pipe. tri_auto. Qed.
Lemma tri_pipewrite_loop p k addr n i h : tri snd (Lk_pipe p :: h) (pipewrite_loop p k addr n i) h.
Proof. revert i. induction k; intros i; cbn [pipewrite_loop]; tri_auto. Unshelve. exact []. Qed.
#[export] Hint Resolve tri_pipewrite_loop : frame.
Lemma tri_pipewrite p addr n h : tri snd h (pipewrite p addr n) h.
Proof. unfold pipewrite. tri_auto. Qed.
Lemma tri_piperead_copy k out h : tri snd h (piperead_copy k out) h.
Proof. revert out. induction k; intros out; cbn [piperead_copy]; tri_auto. Qed.
#[export] Hint Resolve tri_piperead_copy : frame.
Lemma tri_piperead p n h : tri snd h (piperead p n) h.
Proof. unfold piperead, piperead_loop. tri_auto. Unshelve. exact []. Qed.
#[export] Hint Resolve tri_pipeclose_pipe tri_pipewrite tri_piperead : frame.
