(* ===== verification/Kernel.v ===== *)
(** * The state of the whole kernel

    The file system over the log, the page allocator, the open files, the pipes and
    the variables of proc.c, vm.c and trap.c.  The locks and the process table
    ([Core.core]) are inside the block store. *)

From stdpp Require Import functions.
From S2P Require Import Prelude Params Core Pipe Kalloc Vm Bio Log BlockStore Fs.

(** ** file.h *)
Inductive ftype := FD_NONE | FD_PIPE | FD_INODE.
#[global] Instance ftype_eq_dec : EqDecision ftype.
Proof. solve_decision. Defined.

Record file := File {
  f_type : ftype;
  f_ref : Z;
  f_readable : bool;
  f_writable : bool;
  f_pipe : Z;
  f_ip : nat;
  f_off : Z
}.

Definition file0 : file := File FD_NONE 0 false false 0 0 0.
#[global] Instance file_inhabited : Inhabited file := populate file0.

Definition set_ref (r : Z) (f : file) : file :=
  File (f_type f) r (f_readable f) (f_writable f) (f_pipe f) (f_ip f) (f_off f).
Definition set_ftype (t : ftype) (f : file) : file :=
  File t (f_ref f) (f_readable f) (f_writable f) (f_pipe f) (f_ip f) (f_off f).
Definition set_off (o : Z) (f : file) : file :=
  File (f_type f) (f_ref f) (f_readable f) (f_writable f) (f_pipe f) (f_ip f) o.

(** ** The state *)
Record kstate := KState {
  k_fs : fstate lstate;
  k_mem : kmem;
  k_file : list file;         (* ftable.file, NFILE entries *)
  k_pipe : Z → pipe;          (* the page at an address, used as a struct pipe *)
  k_nextpid : Z;
  k_initproc : option nat;
  k_ticks : Z;
  k_kpml4 : Z;
  k_kpdpt : Z;
  k_cr3 : Z;                  (* the page table in use *)
  k_rsp0 : Z;                 (* the kernel stack in the task state segment, tss[1] and tss[2] *)
  k_first : bool              (* first, of forkret *)
}.

Definition k_core (s : kstate) : core := st_core (fs_st (k_fs s)).

Definition set_fs (x : fstate lstate) (s : kstate) : kstate :=
  KState x (k_mem s) (k_file s) (k_pipe s) (k_nextpid s) (k_initproc s) (k_ticks s)
    (k_kpml4 s) (k_kpdpt s) (k_cr3 s) (k_rsp0 s) (k_first s).
Definition set_mem (x : kmem) (s : kstate) : kstate :=
  KState (k_fs s) x (k_file s) (k_pipe s) (k_nextpid s) (k_initproc s) (k_ticks s)
    (k_kpml4 s) (k_kpdpt s) (k_cr3 s) (k_rsp0 s) (k_first s).
Definition set_files (x : list file) (s : kstate) : kstate :=
  KState (k_fs s) (k_mem s) x (k_pipe s) (k_nextpid s) (k_initproc s) (k_ticks s)
    (k_kpml4 s) (k_kpdpt s) (k_cr3 s) (k_rsp0 s) (k_first s).
Definition set_pipe (p : Z) (x : pipe) (s : kstate) : kstate :=
  KState (k_fs s) (k_mem s) (k_file s) (<[p := x]> (k_pipe s)) (k_nextpid s) (k_initproc s) (k_ticks s)
    (k_kpml4 s) (k_kpdpt s) (k_cr3 s) (k_rsp0 s) (k_first s).
Definition set_nextpid (x : Z) (s : kstate) : kstate :=
  KState (k_fs s) (k_mem s) (k_file s) (k_pipe s) x (k_initproc s) (k_ticks s)
    (k_kpml4 s) (k_kpdpt s) (k_cr3 s) (k_rsp0 s) (k_first s).
Definition set_initproc (x : option nat) (s : kstate) : kstate :=
  KState (k_fs s) (k_mem s) (k_file s) (k_pipe s) (k_nextpid s) x (k_ticks s)
    (k_kpml4 s) (k_kpdpt s) (k_cr3 s) (k_rsp0 s) (k_first s).
Definition set_ticks (x : Z) (s : kstate) : kstate :=
  KState (k_fs s) (k_mem s) (k_file s) (k_pipe s) (k_nextpid s) (k_initproc s) x
    (k_kpml4 s) (k_kpdpt s) (k_cr3 s) (k_rsp0 s) (k_first s).
Definition set_cr3 (x : Z) (s : kstate) : kstate :=
  KState (k_fs s) (k_mem s) (k_file s) (k_pipe s) (k_nextpid s) (k_initproc s) (k_ticks s)
    (k_kpml4 s) (k_kpdpt s) x (k_rsp0 s) (k_first s).
Definition set_rsp0 (x : Z) (s : kstate) : kstate :=
  KState (k_fs s) (k_mem s) (k_file s) (k_pipe s) (k_nextpid s) (k_initproc s) (k_ticks s)
    (k_kpml4 s) (k_kpdpt s) (k_cr3 s) x (k_first s).
Definition set_first (x : bool) (s : kstate) : kstate :=
  KState (k_fs s) (k_mem s) (k_file s) (k_pipe s) (k_nextpid s) (k_initproc s) (k_ticks s)
    (k_kpml4 s) (k_kpdpt s) (k_cr3 s) (k_rsp0 s) x.
Definition set_kcore (c : core) (s : kstate) : kstate :=
  set_fs (FState (st_set_core c (fs_st (k_fs s))) (fs_sb (k_fs s)) (fs_icache (k_fs s))) s.

(** The parts of the state the components work on. *)
Definition in_fs {A} (m : K (fstate lstate) A) : K kstate A := zoom k_fs set_fs m.
Definition in_log {A} (m : K lstate A) : K kstate A := in_fs (in_st m).
Definition k_locks {A} (m : K core A) : K kstate A := in_fs (fs_core m).
Definition in_mem {A} (m : K kst A) : K kstate A :=
  zoom (λ s, (k_mem s, k_core s)) (λ t s, set_mem (fst t) (set_kcore (snd t) s)) m.
Definition in_pipe {A} (p : Z) (m : K pst A) : K kstate A :=
  zoom (λ s, (k_pipe s p, k_core s)) (λ t s, set_pipe p (fst t) (set_kcore (snd t) s)) m.

Definition filep (s : kstate) (f : nat) : file := k_file s !!! f.
Definition upd_file (f : nat) (g : file → file) : K kstate unit :=
  modify (λ s, set_files (alter g f (k_file s)) s).

(** ** The current process *)
Definition procp (s : kstate) (i : nat) : option proc := c_procs (k_core s) !! i.
Definition upd_kproc (i : nat) (g : proc → proc) : K kstate unit :=
  modify (λ s, set_kcore (upd_proc i g (k_core s)) s).

(** [proc], which code that runs on behalf of a process uses. *)
Definition myproc : K kstate (nat * proc) :=
  c <- gets k_core;;
  match c_cur c with
  | Some i => match c_procs c !! i with Some p => ret (i, p) | None => panic "no process" end
  | None => panic "no process"
  end.

Definition set_ofile (l : list (option nat)) (p : proc) : proc :=
  Proc (p_sz p) (p_pgdir p) (p_kstack p) (p_state p) (p_pid p) (p_parent p) (p_tf p)
    (p_chan p) (p_killed p) l (p_cwd p) (p_name p).
Definition set_cwd (x : option nat) (p : proc) : proc :=
  Proc (p_sz p) (p_pgdir p) (p_kstack p) (p_state p) (p_pid p) (p_parent p) (p_tf p)
    (p_chan p) (p_killed p) (p_ofile p) x (p_name p).
Definition set_sz (x : Z) (p : proc) : proc :=
  Proc x (p_pgdir p) (p_kstack p) (p_state p) (p_pid p) (p_parent p) (p_tf p)
    (p_chan p) (p_killed p) (p_ofile p) (p_cwd p) (p_name p).
Definition set_pgdir (x : Z) (p : proc) : proc :=
  Proc (p_sz p) x (p_kstack p) (p_state p) (p_pid p) (p_parent p) (p_tf p)
    (p_chan p) (p_killed p) (p_ofile p) (p_cwd p) (p_name p).
Definition set_kstack (x : Z) (p : proc) : proc :=
  Proc (p_sz p) (p_pgdir p) x (p_state p) (p_pid p) (p_parent p) (p_tf p)
    (p_chan p) (p_killed p) (p_ofile p) (p_cwd p) (p_name p).
Definition set_pid (x : Z) (p : proc) : proc :=
  Proc (p_sz p) (p_pgdir p) (p_kstack p) (p_state p) x (p_parent p) (p_tf p)
    (p_chan p) (p_killed p) (p_ofile p) (p_cwd p) (p_name p).
Definition set_parent (x : option nat) (p : proc) : proc :=
  Proc (p_sz p) (p_pgdir p) (p_kstack p) (p_state p) (p_pid p) x (p_tf p)
    (p_chan p) (p_killed p) (p_ofile p) (p_cwd p) (p_name p).
Definition set_tf (x : trapframe) (p : proc) : proc :=
  Proc (p_sz p) (p_pgdir p) (p_kstack p) (p_state p) (p_pid p) (p_parent p) x
    (p_chan p) (p_killed p) (p_ofile p) (p_cwd p) (p_name p).
Definition set_killed (x : bool) (p : proc) : proc :=
  Proc (p_sz p) (p_pgdir p) (p_kstack p) (p_state p) (p_pid p) (p_parent p) (p_tf p)
    (p_chan p) x (p_ofile p) (p_cwd p) (p_name p).
Definition set_name (x : list Z) (p : proc) : proc :=
  Proc (p_sz p) (p_pgdir p) (p_kstack p) (p_state p) (p_pid p) (p_parent p) (p_tf p)
    (p_chan p) (p_killed p) (p_ofile p) (p_cwd p) x.

(** ** Registers of the trap frame *)
Definition trapframe0 : trapframe := Trapframe 0 0 0 0 0 0 0 0 0 0 0 0 0 0 0 0 0 0 0 0 0 0.
Definition set_rax (x : Z) (t : trapframe) : trapframe :=
  Trapframe x (rbx t) (rcx t) (rdx t) (rbp t) (rsi t) (rdi t) (r8 t) (r9 t) (r10 t) (r11 t)
    (r12 t) (r13 t) (r14 t) (r15 t) (trapno t) (err t) (rip t) (cs t) (rflags t) (rsp t) (ss t).
Definition set_rcx (x : Z) (t : trapframe) : trapframe :=
  Trapframe (rax t) (rbx t) x (rdx t) (rbp t) (rsi t) (rdi t) (r8 t) (r9 t) (r10 t) (r11 t)
    (r12 t) (r13 t) (r14 t) (r15 t) (trapno t) (err t) (rip t) (cs t) (rflags t) (rsp t) (ss t).
Definition set_rip (x : Z) (t : trapframe) : trapframe :=
  Trapframe (rax t) (rbx t) (rcx t) (rdx t) (rbp t) (rsi t) (rdi t) (r8 t) (r9 t) (r10 t) (r11 t)
    (r12 t) (r13 t) (r14 t) (r15 t) (trapno t) (err t) x (cs t) (rflags t) (rsp t) (ss t).
Definition set_rdi (x : Z) (t : trapframe) : trapframe :=
  Trapframe (rax t) (rbx t) (rcx t) (rdx t) (rbp t) (rsi t) x (r8 t) (r9 t) (r10 t) (r11 t)
    (r12 t) (r13 t) (r14 t) (r15 t) (trapno t) (err t) (rip t) (cs t) (rflags t) (rsp t) (ss t).
Definition set_rsi (x : Z) (t : trapframe) : trapframe :=
  Trapframe (rax t) (rbx t) (rcx t) (rdx t) (rbp t) x (rdi t) (r8 t) (r9 t) (r10 t) (r11 t)
    (r12 t) (r13 t) (r14 t) (r15 t) (trapno t) (err t) (rip t) (cs t) (rflags t) (rsp t) (ss t).
Definition set_rsp (x : Z) (t : trapframe) : trapframe :=
  Trapframe (rax t) (rbx t) (rcx t) (rdx t) (rbp t) (rsi t) (rdi t) (r8 t) (r9 t) (r10 t) (r11 t)
    (r12 t) (r13 t) (r14 t) (r15 t) (trapno t) (err t) (rip t) (cs t) (rflags t) x (ss t).
Definition set_r11 (x : Z) (t : trapframe) : trapframe :=
  Trapframe (rax t) (rbx t) (rcx t) (rdx t) (rbp t) (rsi t) (rdi t) (r8 t) (r9 t) (r10 t) x
    (r12 t) (r13 t) (r14 t) (r15 t) (trapno t) (err t) (rip t) (cs t) (rflags t) (rsp t) (ss t).

(** ** Lemmas on the parts of the state *)
Lemma k_core_set c s : k_core (set_kcore c s) = c.
Proof. done. Qed.
Lemma set_kcore_twice c c' s : set_kcore c (set_kcore c' s) = set_kcore c s.
Proof. done. Qed.
Lemma set_kcore_id s : set_kcore (k_core s) s = s.
Proof. by destruct s as [[[[]]]]. Qed.

Lemma k_locks_done {A} (m : K core A) s a c :
  m (k_core s) = Done a c → k_locks m s = Done a (set_kcore c s).
Proof. intros E. unfold k_core in E. unfold k_locks, in_fs, fs_core, in_st, zoom. by rewrite E. Qed.

Lemma k_acquire l s :
  l ∉ c_held (k_core s) →
  k_locks (acquire l) s = Done tt (set_kcore (set_held (l :: c_held (k_core s)) (k_core s)) s).
Proof. intros H. by apply k_locks_done, acquire_ok. Qed.

Lemma k_release l H s :
  c_held (k_core s) = l :: H → l ∉ H →
  k_locks (release l) s = Done tt (set_kcore (set_held H (k_core s)) s).
Proof. intros Hc Hl. by apply k_locks_done, release_head. Qed.

Lemma bind_gets {A B} (f : kstate → A) (k : A → K kstate B) s : bind (gets f) k s = k (f s) s.
Proof. done. Qed.
Lemma bind_modify {B} (f : kstate → kstate) (k : unit → K kstate B) s : bind (modify f) k s = k tt (f s).
Proof. done. Qed.
Lemma bind_upd_kproc {B} i g (k : unit → K kstate B) s :
  bind (upd_kproc i g) k s = k tt (set_kcore (upd_proc i g (k_core s)) s).
Proof. done. Qed.
Lemma in_mem_done {A} (m : K kst A) s a m' c' :
  m (k_mem s, k_core s) = Done a (m', c') → in_mem m s = Done a (set_mem m' (set_kcore c' s)).
Proof. intros E. unfold in_mem, zoom. by rewrite E. Qed.

(** A kernel for concrete inputs, with the given locks and processes and memory. *)
Definition sample_kernel (c : core) (m : kmem) (files : list file) : kstate :=
  KState (FState (LState (BState c [] (Disk 0 (λ _, []) [])) (MkLog 2 30 0 false 1 0 [])) (Superblock 0 0 0 0 0 0 0) [])
    m files (λ _, pipe0) 1 None 0 0 0 0 0 false.
