(* ===== verification/File.v ===== *)
(** * file.c and the rest of pipe.c: open files *)

From stdpp Require Import functions.
From S2P Require Import Prelude Params Core Pipe Kalloc Vm Bio Log BlockStore Fs Kernel.

Section file.
Variable kend : Z.
Variable devread : Z → option (nat → Z → Z → K (fstate lstate) (Z * list Z)).
Variable devwrite : Z → option (nat → Z → list Z → Z → K (fstate lstate) Z).

(** ** The table *)

(** The first entry from index [i] on that is not in use. *)
Fixpoint find_file (l : list file) (i : nat) : option nat :=
  match l with
  | [] => None
  | f :: l => if f_ref f =? 0 then Some i else find_file l (S i)
  end.

Definition filealloc : K kstate (option nat) :=
  k_locks (acquire Lk_ftable) ;;;
  fs <- gets k_file;;
  match find_file fs 0 with
  | Some f =>
      upd_file f (set_ref 1) ;;;
      k_locks (release Lk_ftable) ;;;
      ret (Some f)
  | None => k_locks (release Lk_ftable) ;;; ret None
  end.

Definition filedup (f : nat) : K kstate nat :=
  k_locks (acquire Lk_ftable) ;;;
  x <- gets (λ s, filep s f);;
  if f_ref x <? 1 then panic "filedup" else
  upd_file f (λ x, set_ref (f_ref x + 1) x) ;;;
  k_locks (release Lk_ftable) ;;;
  ret f.

Definition pipeclose (p : Z) (writable : bool) : K kstate unit :=
  gone <- in_pipe p (pipeclose_pipe p writable);;
  if (gone : bool) then in_mem (kfree kend p) else ret tt.

Definition fileclose (f : nat) : K kstate unit :=
  k_locks (acquire Lk_ftable) ;;;
  x <- gets (λ s, filep s f);;
  if f_ref x <? 1 then panic "fileclose" else
  upd_file f (λ x, set_ref (f_ref x - 1) x) ;;;
  x <- gets (λ s, filep s f);;
  if 0 <? f_ref x then k_locks (release Lk_ftable) else
  let ff := x in
  upd_file f (set_ref 0) ;;;
  upd_file f (set_ftype FD_NONE) ;;;
  k_locks (release Lk_ftable) ;;;
  match f_type ff with
  | FD_PIPE => pipeclose (f_pipe ff) (f_writable ff)
  | FD_INODE =>
      in_log begin_op ;;;
      in_fs (iput (f_ip ff)) ;;;
      in_log end_op
  | FD_NONE => ret tt
  end.

(** ** Reading and writing *)

(** The result and the metadata stored at [st]. *)
Definition filestat (f : nat) : K kstate (Z * option stat) :=
  x <- gets (λ s, filep s f);;
  match f_type x with
  | FD_INODE =>
      in_fs (ilock (Some (f_ip x))) ;;;
      st <- in_fs (stati (f_ip x));;
      in_fs (iunlock (Some (f_ip x))) ;;;
      ret (0, Some st)
  | _ => ret (-1, None)
  end.

(** The result and the bytes stored at [addr]. *)
Definition fileread (f : nat) (n : Z) : K kstate (Z * list Z) :=
  x <- gets (λ s, filep s f);;
  if negb (f_readable x) then ret (-1, []) else
  match f_type x with
  | FD_PIPE => in_pipe (f_pipe x) (piperead (f_pipe x) n)
  | FD_INODE =>
      in_fs (ilock (Some (f_ip x))) ;;;
      ro <- in_fs (readi devread (f_ip x) (f_off x) (u32 n));;
      let r := s32 (fst ro) in
      (if 0 <? r then upd_file f (λ x, set_off (u32 (f_off x + r)) x) else ret tt) ;;;
      in_fs (iunlock (Some (f_ip x))) ;;;
      ret (r, snd ro)
  | FD_NONE => panic "fileread"
  end.

(** The largest piece of one transaction. *)
Definition write_max : Z := ((LOGSIZE - 1 - 1 - 2) / 2) * 512.

(** The loop of filewrite from index [i] on: the index it ends with. *)
Fixpoint filewrite_loop (fuel : nat) (f : nat) (ip : nat) (addr : list Z) (n i : Z) : K kstate Z :=
  if i <? n then
    match fuel with
    | O => panic "filewrite: out of fuel"
    | S fuel =>
        let n1 := n - i in
        let n1 := if write_max <? n1 then write_max else n1 in
        in_log begin_op ;;;
        in_fs (ilock (Some ip)) ;;;
        off <- gets (λ s, f_off (filep s f));;
        r <- in_fs (writei devwrite ip (drop (Z.to_nat i) addr) off n1);;
        (if 0 <? r then upd_file f (λ x, set_off (u32 (f_off x + r)) x) else ret tt) ;;;
        in_fs (iunlock (Some ip)) ;;;
        in_log end_op ;;;
        if r <? 0 then ret i
        else if negb (r =? n1) then panic "short filewrite"
        else filewrite_loop fuel f ip addr n (i + r)
    end
  else ret i.

Definition filewrite (f : nat) (addr : list Z) (n : Z) : K kstate Z :=
  x <- gets (λ s, filep s f);;
  if negb (f_writable x) then ret (-1) else
  match f_type x with
  | FD_PIPE => in_pipe (f_pipe x) (pipewrite (f_pipe x) addr n)
  | FD_INODE =>
      i <- filewrite_loop (Z.to_nat (n / write_max + 1)) f (f_ip x) addr n 0;;
      ret (if i =? n then n else -1)
  | FD_NONE => panic "filewrite"
  end.

(** ** pipealloc *)

(** The code after [bad]. *)
Definition pipealloc_bad (p : Z) (f0 f1 : option nat) : K kstate (option (nat * nat)) :=
  (if p =? 0 then ret tt else in_mem (kfree kend p)) ;;;
  match f0 with Some f => fileclose f | None => ret tt end ;;;
  match f1 with Some f => fileclose f | None => ret tt end ;;;
  ret None.

(** The two files, or nothing for -1. *)
Definition pipealloc : K kstate (option (nat * nat)) :=
  f0 <- filealloc;;
  match f0 with
  | None => pipealloc_bad 0 None None
  | Some f0 =>
      f1 <- filealloc;;
      match f1 with
      | None => pipealloc_bad 0 (Some f0) None
      | Some f1 =>
          p <- in_mem kalloc;;
          if p =? 0 then pipealloc_bad 0 (Some f0) (Some f1) else
          modify (λ s, set_pipe p (Pipe (pi_data (k_pipe s p)) 0 0 true true) s) ;;;
          upd_file f0 (λ x, File FD_PIPE (f_ref x) true false p (f_ip x) (f_off x)) ;;;
          upd_file f1 (λ x, File FD_PIPE (f_ref x) false true p (f_ip x) (f_off x)) ;;;
          ret (Some (f0, f1))
      end
  end.
End file.
