(* ===== verification/Proc.v ===== *)
(** * proc.c: processes

    The process table and the current process are in [Core]; a process is named by
    its index.  Switching to another process ([swtch]) ends the computation of the
    model with [Sleep]; what the process does when it is switched back to is a
    definition of its own. *)

From S2P Require Import Prelude Params CString Devices Core Pipe Kalloc Vm Bio Log BlockStore Fs Kernel File.

Section proc.
Variable kend : Z.
Variable devread : Z → option (nat → Z → Z → K (fstate lstate) (Z * list Z)).
Variable devwrite : Z → option (nat → Z → list Z → Z → K (fstate lstate) Z).

Local Abbreviation fileclose := (fileclose kend).

(** ** Allocation *)
Fixpoint find_state (st : procstate) (l : list proc) (i : nat) : option nat :=
  match l with
  | [] => None
  | p :: l => if bool_decide (p_state p = st) then Some i else find_state st l (S i)
  end.

(** Up to the allocation of the stack page.  What the code then lays out at the top of the
    page is not modelled: the trap frame is [p_tf], which the callers fill, and a process
    that runs for the first time starts in [forkret]. *)
Definition allocproc : K kstate (option nat) :=
  k_locks (acquire Lk_ptable) ;;;
  c <- gets k_core;;
  match find_state UNUSED (c_procs c) 0 with
  | None => k_locks (release Lk_ptable) ;;; ret None
  | Some p =>
      upd_kproc p (set_state EMBRYO) ;;;
      pid <- gets k_nextpid;;
      upd_kproc p (set_pid pid) ;;;
      modify (set_nextpid (s32 (pid + 1))) ;;;
      k_locks (release Lk_ptable) ;;;
      kstack <- in_mem kalloc;;
      upd_kproc p (set_kstack kstack) ;;;
      if kstack =? 0 then upd_kproc p (set_state UNUSED) ;;; ret None
      else ret (Some p)
  end.

(** vm.c: switchuvm sets the stack for traps from user mode and the page table;
    interrupts are off meanwhile. *)
Definition switchuvm (p : proc) : K kstate unit :=
  if p_pgdir p =? 0 then panic "switchuvm: no pgdir" else
  modify (set_rsp0 (u64 (p_kstack p + KSTACKSIZE))) ;;;
  modify (set_cr3 (V2P (p_pgdir p))).

Definition switchkvm : K kstate unit := modify (λ s, set_cr3 (V2P (k_kpml4 s)) s).

Definition FL_IF : Z := 0x200.
Definition initcode_name : list Z := [105; 110; 105; 116; 99; 111; 100; 101; 0].   (* "initcode" *)

(** The first process; [init] is the binary that initcode.S is assembled to. *)
Definition userinit (init : list Z) : K kstate unit :=
  p <- allocproc;;
  match p with
  | None => panic "trap"
  | Some p =>
      modify (set_initproc (Some p)) ;;;
      kpdpt <- gets k_kpdpt;;
      pgdir <- in_mem (setupkvm kpdpt);;
      upd_kproc p (set_pgdir pgdir) ;;;
      if pgdir =? 0 then panic "userinit: out of memory?" else
      in_mem (inituvm pgdir init (Z.of_nat (length init))) ;;;
      upd_kproc p (set_sz (PGSIZE * 2)) ;;;
      upd_kproc p (set_tf (set_rcx PGSIZE (set_rsp (PGSIZE * 2) (set_r11 FL_IF trapframe0)))) ;;;
      upd_kproc p (λ x, set_name (safestrcpy (p_name x) (bytes_ptr initcode_name) 16) x) ;;;
      cwd <- in_fs (namei devread [slash]);;
      upd_kproc p (set_cwd cwd) ;;;
      upd_kproc p (set_state RUNNABLE)
  end.

(** [n] is a 64-bit integer; the size wraps around as the unsigned sum does. *)
Definition growproc (n : Z) : K kstate Z :=
  ip <- myproc;;
  let (i, p) := (ip : nat * proc) in
  let sz := p_sz p in
  r <- (if 0 <? n then in_mem (allocuvm kend (p_pgdir p) sz (u64 (sz + n)))
        else if n <? 0 then in_mem (deallocuvm kend (p_pgdir p) sz (u64 (sz + n)))
        else ret sz);;
  if negb (n =? 0) && (r =? 0) then ret (-1) else
  upd_kproc i (set_sz r) ;;;
  ip <- myproc;;
  switchuvm (snd ip) ;;;
  ret 0.

(** ** fork *)
Fixpoint dup_files (fd : nat) (l : list (option nat)) (np : nat) : K kstate unit :=
  match l with
  | [] => ret tt
  | o :: l =>
      match o with
      | Some f =>
          f' <- filedup f;;
          upd_kproc np (λ x, set_ofile (<[fd := Some f']> (p_ofile x)) x)
      | None => ret tt
      end ;;;
      dup_files (S fd) l np
  end.

Definition fork : K kstate Z :=
  np <- allocproc;;
  match np with
  | None => ret (-1)
  | Some np =>
      ip <- myproc;;
      let (_, cur) := (ip : nat * proc) in
      kpdpt <- gets k_kpdpt;;
      pgdir <- in_mem (copyuvm kend kpdpt (p_pgdir cur) (p_sz cur));;
      upd_kproc np (set_pgdir pgdir) ;;;
      if pgdir =? 0 then
        x <- gets (λ s, procp s np);;
        in_mem (kfree kend (from_option p_kstack 0 x)) ;;;
        upd_kproc np (set_kstack 0) ;;;
        upd_kproc np (set_state UNUSED) ;;;
        ret (-1)
      else
      upd_kproc np (set_sz (p_sz cur)) ;;;
      upd_kproc np (set_parent (Some (fst ip))) ;;;
      upd_kproc np (set_tf (set_rax 0 (p_tf cur))) ;;;
      dup_files 0 (p_ofile cur) np ;;;
      cwd <- match p_cwd cur with Some d => in_fs (idup d) | None => panic "trap" end;;
      upd_kproc np (set_cwd (Some cwd)) ;;;
      upd_kproc np (λ x, set_name (safestrcpy (p_name x) (bytes_ptr (p_name cur)) 16) x) ;;;
      x <- gets (λ s, procp s np);;
      upd_kproc np (set_state RUNNABLE) ;;;
      ret (from_option p_pid 0 x)
  end.

(** ** exit and wait *)
Definition parent_chan (x : option nat) : chan :=
  match x with Some i => Ch_proc i | None => Ch_null end.

(** Closing the descriptors from [fd] on, [k] of them. *)
Fixpoint close_files (k fd : nat) (i : nat) : K kstate unit :=
  match k with
  | O => ret tt
  | S k =>
      x <- gets (λ s, procp s i);;
      match x ≫= λ p, p_ofile p !! fd with
      | Some (Some f) =>
          fileclose f ;;;
          upd_kproc i (λ p, set_ofile (<[fd := None]> (p_ofile p)) p)
      | _ => ret tt
      end ;;;
      close_files k (S fd) i
  end.

(** Passing the children of [i] to init, from index [j] on. *)
Fixpoint reparent (k j : nat) (i : nat) (init : option nat) : K core unit :=
  match k with
  | O => ret tt
  | S k =>
      c <- get;;
      match c_procs c !! j with
      | Some p =>
          if bool_decide (p_parent p = Some i) then
            modify (upd_proc j (set_parent init)) ;;;
            if bool_decide (p_state p = ZOMBIE) then wakeup1 (parent_chan init) else ret tt
          else ret tt
      | None => ret tt
      end ;;;
      reparent k (S j) i init
  end.

(** exit up to the switch to the scheduler, which does not come back. *)
Definition exit_prepare : K kstate unit :=
  ip <- myproc;;
  let (i, p) := (ip : nat * proc) in
  init <- gets k_initproc;;
  if bool_decide (init = Some i) then panic "init exiting" else
  close_files NOFILE 0 i ;;;
  in_log begin_op ;;;
  match p_cwd p with Some d => in_fs (iput d) | None => panic "trap" end ;;;
  in_log end_op ;;;
  upd_kproc i (set_cwd None) ;;;
  k_locks (acquire Lk_ptable) ;;;
  x <- gets (λ s, procp s i);;
  k_locks (wakeup1 (parent_chan (x ≫= p_parent))) ;;;
  c <- gets k_core;;
  k_locks (reparent (length (c_procs c)) 0 i init) ;;;
  upd_kproc i (set_state ZOMBIE).

Definition exit : K kstate unit :=
  exit_prepare ;;;
  k_locks (sched Ch_null) ;;;
  panic "zombie exit".

(** The first zombie among the children of [i], and whether there is a child. *)
Fixpoint find_zombie (l : list proc) (j i : nat) (havekids : bool) : option nat * bool :=
  match l with
  | [] => (None, havekids)
  | p :: l =>
      if bool_decide (p_parent p = Some i) then
        if bool_decide (p_state p = ZOMBIE) then (Some j, true) else find_zombie l (S j) i true
      else find_zombie l (S j) i havekids
  end.

Definition name_clear (n : list Z) : list Z := <[0%nat := 0]> n.

(** wait with ptable.lock held: a process woken up comes back here. *)
Definition wait_loop : K kstate Z :=
  ip <- myproc;;
  let (i, cur) := (ip : nat * proc) in
  c <- gets k_core;;
  match find_zombie (c_procs c) 0 i false with
  | (Some j, _) =>
      x <- gets (λ s, procp s j);;
      let pid := from_option p_pid 0 x in
      in_mem (kfree kend (from_option p_kstack 0 x)) ;;;
      upd_kproc j (set_kstack 0) ;;;
      in_mem (freevm kend (from_option p_pgdir 0 x)) ;;;
      upd_kproc j (set_pid 0) ;;;
      upd_kproc j (set_parent None) ;;;
      upd_kproc j (λ p, set_name (name_clear (p_name p)) p) ;;;
      upd_kproc j (set_killed false) ;;;
      upd_kproc j (set_state UNUSED) ;;;
      k_locks (release Lk_ptable) ;;;
      ret pid
  | (None, havekids) =>
      if negb havekids || p_killed cur then k_locks (release Lk_ptable) ;;; ret (-1)
      else k_locks (sleep (Ch_proc i) Lk_ptable) ;;; panic "sleep returned"
  end.

Definition wait : K kstate Z := k_locks (acquire Lk_ptable) ;;; wait_loop.

(** ** Scheduling *)

(** The search of the scheduler from index [i] on, with ptable.lock held: the
    process it switches to, or nothing at the end of the table, where the lock is
    released.  The count of skipped entries only decides when the processor halts
    until the next interrupt. *)
Fixpoint find_runnable (l : list proc) (j i : nat) : option nat :=
  match l with
  | [] => None
  | p :: l => if (i <=? j)%nat && bool_decide (p_state p = RUNNABLE) then Some j else find_runnable l (S j) i
  end.

Definition set_cur (x : option nat) (c : core) : core := Core (c_held c) (c_procs c) x (c_dev c).

Definition scheduler_from (i : nat) : K kstate (option nat) :=
  c <- gets k_core;;
  match find_runnable (c_procs c) 0 i with
  | Some j =>
      modify (λ s, set_kcore (set_cur (Some j) (k_core s)) s) ;;;
      x <- gets (λ s, procp s j);;
      match x with Some p => switchuvm p | None => ret tt end ;;;
      upd_kproc j (set_state RUNNING) ;;;
      ret (Some j)
  | None => k_locks (release Lk_ptable) ;;; ret None
  end.

(** The process has switched back to the scheduler. *)
Definition scheduler_back : K kstate unit :=
  switchkvm ;;;
  modify (λ s, set_kcore (set_cur None (k_core s)) s).

(** One pass over the table starts with the lock. *)
Definition scheduler_pass : K kstate (option nat) :=
  k_locks (acquire Lk_ptable) ;;; scheduler_from 0.

(** The process that the scheduler switches to next when its search stands at index
    [i]: in the rest of this pass or else in the next one. *)
Definition scheduler_next (i : nat) : K kstate (option nat) :=
  r <- scheduler_from i;;
  match r with
  | Some j => ret (Some j)
  | None => scheduler_pass
  end.

Definition yield : K kstate unit :=
  k_locks (acquire Lk_ptable) ;;;
  ip <- myproc;;
  upd_kproc (fst ip) (set_state RUNNABLE) ;;;
  k_locks (sched Ch_null).

(** What yield does when the process is switched to again. *)
Definition yield_return : K kstate unit := k_locks (release Lk_ptable).

(** What a new process does first. *)
Definition forkret : K kstate unit :=
  k_locks (release Lk_ptable) ;;;
  first <- gets k_first;;
  if (first : bool) then
    modify (set_first false) ;;;
    in_fs (iinit ROOTDEV) ;;;
    in_log (initlog ROOTDEV)
  else ret tt.

(** ** kill *)
Fixpoint find_pid (pid : Z) (l : list proc) (i : nat) : option nat :=
  match l with
  | [] => None
  | p :: l => if p_pid p =? pid then Some i else find_pid pid l (S i)
  end.

Definition kill (pid : Z) : K kstate Z :=
  k_locks (acquire Lk_ptable) ;;;
  c <- gets k_core;;
  match find_pid pid (c_procs c) 0 with
  | Some j =>
      upd_kproc j (set_killed true) ;;;
      upd_kproc j (λ p, if bool_decide (p_state p = SLEEPING) then set_state RUNNABLE p else p) ;;;
      k_locks (release Lk_ptable) ;;;
      ret 0
  | None => k_locks (release Lk_ptable) ;;; ret (-1)
  end.
End proc.
