(* ===== verification/ProcSched.v ===== *)
(** * The scheduler: every runnable process gets its turn *)

From S2P Require Import Prelude Params Devices Core Pipe Kalloc Vm Bio Log BlockStore Fs Kernel File Proc.

(** ** The search *)
Lemma find_runnable_spec l j i :
  match find_runnable l j i with
  | Some k => (i ≤ k)%nat ∧ (j ≤ k)%nat ∧ (∃ p, l !! (k - j)%nat = Some p ∧ p_state p = RUNNABLE) ∧
      ∀ k' p, (i ≤ k')%nat → (j ≤ k' < k)%nat → l !! (k' - j)%nat = Some p → p_state p ≠ RUNNABLE
  | None => ∀ k' p, (i ≤ k')%nat → (j ≤ k')%nat → l !! (k' - j)%nat = Some p → p_state p ≠ RUNNABLE
  end.
Proof.
  revert j. induction l as [|p l IH]; intros j; [done|]. cbn [find_runnable].
  destruct ((i <=? j)%nat && bool_decide (p_state p = RUNNABLE)) eqn:E.
  - apply andb_true_iff in E as [?%Nat.leb_le ?%bool_decide_eq_true].
    split; [done|]. split; [done|]. rewrite Nat.sub_diag. split; [by exists p|]. lia.
  - assert (Hj : ∀ q, (i ≤ j)%nat → (p :: l) !! 0%nat = Some q → p_state q ≠ RUNNABLE).
    { intros q Hi [= <-] Hr. rewrite (proj2 (Nat.leb_le _ _) Hi) in E.
      by rewrite bool_decide_eq_true_2 in E. }
    specialize (IH (S j)). destruct (find_runnable l (S j) i) as [k|].
    + destruct IH as (Hi & Hk & (q & Hq & Hr) & Hmin). split; [done|]. split; [lia|].
      replace (k - j)%nat with (S (k - S j)) by lia. split; [by exists q|].
      intros k' x Hk1 Hk2 Hx. destruct (decide (k' = j)) as [->|]; [rewrite Nat.sub_diag in Hx; by apply Hj|].
      replace (k' - j)%nat with (S (k' - S j)) in Hx by lia. apply (Hmin k'); [done|lia|done].
    + intros k' x Hk1 Hk2 Hx. destruct (decide (k' = j)) as [->|]; [rewrite Nat.sub_diag in Hx; by apply Hj|].
      replace (k' - j)%nat with (S (k' - S j)) in Hx by lia. apply (IH k'); [done|lia|done].
Qed.

(** ** One turn *)

(** The scheduler holds the lock of a table of [N] processes; [t] is runnable, and
    every runnable process has a page table. *)
Record sched_ok (N t : nat) (s : kstate) : Prop := {
  so_held : c_held (k_core s) = [Lk_ptable];
  so_len : length (c_procs (k_core s)) = N;
  so_t : ∃ p, c_procs (k_core s) !! t = Some p ∧ p_state p = RUNNABLE;
  so_pgdir : ∀ i p, c_procs (k_core s) !! i = Some p → p_state p = RUNNABLE → p_pgdir p ≠ 0
}.

(** The entries that the search visits from [i] on before it comes to [t]. *)
Definition distance (N i t : nat) : nat := if (i <=? t)%nat then t - i else N - i + t.

(** Changing the state of a process other than [t]. *)
Lemma sched_ok_procs N t k st s s' :
  sched_ok N t s → k ≠ t → c_held (k_core s') = [Lk_ptable] →
  c_procs (k_core s') = alter (set_state st) k (c_procs (k_core s)) →
  (st = RUNNABLE → ∀ p, c_procs (k_core s) !! k = Some p → p_pgdir p ≠ 0) → sched_ok N t s'.
Proof.
  intros [Hh Hl (q & Hq & Hr) Hp] Hk Hh' Hps Hst. split; [done| |exists q|].
  - by rewrite Hps, length_alter.
  - by rewrite Hps, list_lookup_alter_ne.
  - intros i x. rewrite Hps. destruct (decide (i = k)) as [->|].
    + rewrite list_lookup_alter_eq. destruct (c_procs (k_core s) !! k) as [p|] eqn:E; [|done].
      intros [= <-] Hrun. exact (Hst Hrun p eq_refl).
    + rewrite list_lookup_alter_ne by done. apply Hp.
Qed.

(** Switching to a runnable process. *)
Lemma scheduler_from_found N t i k s :
  sched_ok N t s → find_runnable (c_procs (k_core s)) 0 i = Some k →
  ∃ s1, scheduler_from i s = Done (Some k) s1 ∧ (k ≠ t → sched_ok N t s1).
Proof.
  intros Hs E. pose proof (find_runnable_spec (c_procs (k_core s)) 0 i) as Hf. rewrite E in Hf.
  destruct Hf as (_ & _ & (p & Hp & Hr) & _). rewrite Nat.sub_0_r in Hp.
  pose proof (so_pgdir _ _ _ Hs k p Hp Hr) as Hpg.
  eexists. split.
  - unfold scheduler_from, bind, gets. rewrite E. cbn [modify].
    unfold procp. rewrite k_core_set. cbn [set_cur c_procs]. rewrite Hp.
    unfold switchuvm. rewrite (proj2 (Z.eqb_neq _ _) Hpg). unfold bind, modify, upd_kproc, modify, ret. done.
  - intros Hk. by apply (sched_ok_procs N t k RUNNING s _ Hs Hk); [apply Hs| |].
Qed.

Lemma scheduler_from_none i s :
  c_held (k_core s) = [Lk_ptable] → find_runnable (c_procs (k_core s)) 0 i = None →
  scheduler_from i s = Done None (set_kcore (set_held [] (k_core s)) s).
Proof.
  intros Hh E. unfold scheduler_from, bind, gets. rewrite E.
  rewrite (k_release _ [] s Hh) by apply not_elem_of_nil. done.
Qed.

(** The scheduler always finds a process, and comes closer to [t] each time. *)
Lemma scheduler_next_spec N t i s :
  sched_ok N t s → (i ≤ N)%nat →
  ∃ k s1, scheduler_next i s = Done (Some k) s1 ∧ (k < N)%nat ∧
    (k ≠ t → sched_ok N t s1 ∧ (distance N (S k) t < distance N i t)%nat).
Proof.
  intros Hs Hi. pose proof Hs as [Hh Hl (pt & Ht & Hrt) _].
  pose proof (lookup_lt_Some _ _ _ Ht) as HtN. rewrite Hl in HtN. unfold scheduler_next.
  pose proof (find_runnable_spec (c_procs (k_core s)) 0 i) as Hf.
  destruct (find_runnable (c_procs (k_core s)) 0 i) as [k|] eqn:E.
  - destruct (scheduler_from_found N t i k s Hs E) as (s1 & E1 & Hok).
    destruct Hf as (Hik & _ & (p & Hp & _) & Hmin). rewrite Nat.sub_0_r in Hp.
    pose proof (lookup_lt_Some _ _ _ Hp) as Hk. rewrite Hl in Hk.
    exists k, s1. rewrite (bind_done _ _ _ _ _ E1). split; [done|]. split; [done|].
    intros Hkt. split; [by apply Hok|].
    assert ((i ≤ t)%nat → (k ≤ t)%nat).
    { intros Hit. destruct (decide (k ≤ t)%nat); [done|]. exfalso.
      apply (Hmin t pt Hit); [lia| |done]. by rewrite Nat.sub_0_r. }
    unfold distance. destruct (Nat.leb_spec i t), (Nat.leb_spec (S k) t); lia.
  - assert (Hit : (t < i)%nat).
    { destruct (decide (t < i)%nat); [done|]. exfalso. apply (Hf t pt); [lia|lia| |done].
      by rewrite Nat.sub_0_r. }
    rewrite (bind_done _ _ _ _ _ (scheduler_from_none i s Hh E)). unfold scheduler_pass.
    rewrite (bind_done _ _ _ _ _ (k_acquire Lk_ptable (set_kcore (set_held [] (k_core s)) s) (not_elem_of_nil _))).
    set (s0 := set_kcore _ _). assert (Hs0 : sched_ok N t s0) by (destruct Hs; by split).
    pose proof (find_runnable_spec (c_procs (k_core s0)) 0 0) as Hg.
    destruct (find_runnable (c_procs (k_core s0)) 0 0) as [k|] eqn:E0.
    2: { exfalso. apply (Hg t pt); [lia|lia| |done]. by rewrite Nat.sub_0_r. }
    destruct (scheduler_from_found N t 0 k s0 Hs0 E0) as (s1 & E1 & Hok).
    destruct Hg as (_ & _ & (p & Hp & _) & Hmin). rewrite Nat.sub_0_r in Hp.
    pose proof (lookup_lt_Some _ _ _ Hp) as Hk. rewrite (so_len _ _ _ Hs0) in Hk.
    exists k, s1. split; [done|]. split; [done|]. intros Hkt. split; [by apply Hok|].
    assert (k ≤ t)%nat.
    { destruct (decide (k ≤ t)%nat); [done|]. exfalso.
      apply (Hmin t pt); [lia|lia| |done]. by rewrite Nat.sub_0_r. }
    unfold distance. destruct (Nat.leb_spec i t), (Nat.leb_spec (S k) t); lia.
Qed.

Lemma scheduler_back_ok N t s :
  sched_ok N t s → ∃ s', scheduler_back s = Done tt s' ∧ sched_ok N t s'.
Proof. intros []. eexists. split; [done|]. by split. Qed.

(** ** Runs *)

(** [turns R i s js i' s']: from the search at [i] in state [s] the scheduler
    switches to the processes [js] one after the other; [R k] is what happens while
    process [k] has the processor. *)
Inductive turns (R : nat → kstate → kstate → Prop) : nat → kstate → list nat → nat → kstate → Prop :=
| turns_nil i s : turns R i s [] i s
| turns_cons i s k s1 s2 s3 js i' s' :
    scheduler_next i s = Done (Some k) s1 → R k s1 s2 → scheduler_back s2 = Done tt s3 →
    turns R (S k) s3 js i' s' → turns R i s (k :: js) i' s'.

Lemma turns_closer R N t i s js i' s' :
  turns R i s js i' s' → (i ≤ N)%nat → sched_ok N t s →
  (∀ k s s', k ≠ t → sched_ok N t s → R k s s' → sched_ok N t s') → t ∉ js →
  sched_ok N t s' ∧ (i' ≤ N)%nat ∧ (length js + distance N i' t ≤ distance N i t)%nat.
Proof.
  intros Ht. induction Ht as [i s|i s k s1 s2 s3 js i' s' E HR Eb Ht IH]; intros Hi Hs HRok Hn.
  { split; [done|]. cbn. lia. }
  apply not_elem_of_cons in Hn as [Hk Hn].
  destruct (scheduler_next_spec N t i s Hs Hi) as (k0 & s0 & E0 & HkN & Hok).
  rewrite E in E0. injection E0 as <- <-. destruct (Hok ltac:(done)) as [Hs1 Hd].
  destruct (scheduler_back_ok N t s2) as (s4 & E4 & Hs4); [by eapply HRok|].
  rewrite Eb in E4. injection E4 as <-.
  destruct (IH ltac:(lia) Hs4 HRok Hn) as (H1 & H2 & H3). split; [done|]. split; [done|]. cbn. lia.
Qed.

(** C22: the scheduler starves nobody.  Let process [t] of a table of [N] processes be
    runnable, and let whatever the other processes do when they have the processor
    leave it so.  Then the scheduler, wherever its search stands, always finds a
    process to switch to, and [t] is among the next [N] processes it switches to. *)
Theorem scheduler_fair R N t i s :
  (i ≤ N)%nat → sched_ok N t s →
  (∀ k s s', k ≠ t → sched_ok N t s → R k s s' → sched_ok N t s') →
  ∀ js i' s', turns R i s js i' s' → t ∉ js →
    (length js < N)%nat ∧ ∃ k s1, scheduler_next i' s' = Done (Some k) s1.
Proof.
  intros Hi Hs HR js i' s' Ht Hn.
  destruct (turns_closer R N t i s js i' s' Ht Hi Hs HR Hn) as (Hs' & Hi' & Hd). split.
  - destruct Hs as [_ Hl (p & Hp & _) _]. pose proof (lookup_lt_Some _ _ _ Hp).
    unfold distance in Hd. destruct (Nat.leb_spec i t), (Nat.leb_spec i' t); lia.
  - destruct (scheduler_next_spec N t i' s' Hs' Hi') as (k & s1 & E & _). by exists k, s1.
Qed.

(** Two processes that give the processor away with yield. *)
Definition sample_proc (st : procstate) (pid : Z) : proc :=
  Proc 8192 (KERNBASE + 0x200000) (KERNBASE + 0x300000) st pid (Some 0%nat) trapframe0 Ch_null false
    (replicate NOFILE None) (Some 0%nat) (replicate 16 0).
Definition sample_table : core :=
  Core [Lk_ptable] [sample_proc RUNNABLE 1; sample_proc RUNNABLE 2; sample_proc UNUSED 0] None devices0.
Definition yields (k : nat) (s s' : kstate) : Prop :=
  (∀ p, procp s k = Some p → p_pgdir p ≠ 0) ∧ upd_kproc k (set_state RUNNABLE) s = Done tt s'.

Lemma sample_sched_ok files : sched_ok 3 1 (sample_kernel sample_table sample_memory files).
Proof.
  split; [done|done|by eexists|]. intros i p Hp _. cbn in Hp.
  do 3 (destruct i as [|i]; [by injection Hp as <-|]). done.
Qed.

Lemma sample_turn :
  ∃ s', turns yields 2 (sample_kernel sample_table sample_memory []) [0%nat] 1 s'.
Proof.
  eexists. eapply (turns_cons _ _ _ 0%nat); [reflexivity| |reflexivity|apply turns_nil].
  split; [|reflexivity]. intros p Hp. injection Hp as <-. done.
Qed.

Lemma scheduler_fair_witness :
  ∃ s', turns yields 2 (sample_kernel sample_table sample_memory []) [0%nat] 1 s' ∧
    (length [0%nat] < 3)%nat ∧ ∃ k s1, scheduler_next 1 s' = Done (Some k) s1.
Proof.
  destruct sample_turn as [s' Ht]. exists s'. split; [exact Ht|].
  apply (scheduler_fair yields 3 1 2 _ ltac:(lia) (sample_sched_ok [])) with (2 := Ht).
  - intros k s s2 Hk Hs [Hp [= <-]]. by apply (sched_ok_procs 3 1 k RUNNABLE s _ Hs Hk); [apply Hs| |].
  - apply not_elem_of_cons. split; [done|apply not_elem_of_nil].
Defined.
