(* ===== verification/KernelInv.v ===== *)
(** * The invariant of the kernel: locks, open files and descriptors

    [kernel_ok N h g s]: the processor holds exactly the spin locks [h]; the file
    table has [N] entries, and the reference count of each is the number of
    descriptors of all processes that refer to it plus [g_refs g], the references
    that the running code holds in its variables; a process that is UNUSED or a
    ZOMBIE has no open file, and the current process is neither as long as [g_live g].
    [g_known g] are descriptors whose contents the running code knows, [g_alive g]
    processes that it knows to be neither UNUSED nor ZOMBIE, and [g_other g] processes
    that it knows not to be the current one.  Between system calls [h]
    is empty and [g] is [g0]. *)

From S2P Require Import Prelude Params CString Devices Core Pipe Kalloc Vm Bio Log BlockStore Fs Console Frame Kernel File Proc.

(** ** Counting descriptors *)
Definition fd_count (f : nat) (l : list (option nat)) : nat := length (filter (λ o, o = Some f) l).
Definition nrefs (f : nat) (ps : list proc) : nat := sum_list ((λ p, fd_count f (p_ofile p)) <$> ps).

Definition dead (p : proc) : Prop := p_state p = UNUSED ∨ p_state p = ZOMBIE.

Record ghost := Ghost {
  g_refs : nat → Z;
  g_known : nat → nat → option (option nat);
  g_alive : nat → bool;
  g_other : nat → bool;
  g_live : bool
}.
Definition g0 : ghost := Ghost (λ _, 0) (λ _ _, None) (λ _, false) (λ _, false) true.

Record kernel_ok (N : nat) (h : list lockid) (g : ghost) (s : kstate) : Prop := {
  ko_held : c_held (k_core s) = h;
  ko_nodup : NoDup h;
  ko_len : length (k_file s) = N;
  ko_refs : ∀ f, (f < N)%nat → f_ref (filep s f) = Z.of_nat (nrefs f (c_procs (k_core s))) + g_refs g f;
  ko_nofile : ∀ i p, c_procs (k_core s) !! i = Some p → length (p_ofile p) = NOFILE;
  ko_range : ∀ i p fd f, c_procs (k_core s) !! i = Some p → p_ofile p !! fd = Some (Some f) → (f < N)%nat;
  ko_dead : ∀ i p fd o, c_procs (k_core s) !! i = Some p → dead p → p_ofile p !! fd = Some o → o = None;
  ko_known : ∀ i p fd o, c_procs (k_core s) !! i = Some p → g_known g i fd = Some o → p_ofile p !! fd = Some o;
  ko_alive : ∀ i p, c_procs (k_core s) !! i = Some p →
    g_alive g i = true ∨ g_live g = true ∧ c_cur (k_core s) = Some i → ¬ dead p;
  ko_other : ∀ i, g_other g i = true → c_cur (k_core s) ≠ Some i;
  ko_exists : ∀ i, g_alive g i = true ∨ (∃ fd o, g_known g i fd = Some o) → (i < length (c_procs (k_core s)))%nat;
  ko_grange : ∀ f, g_refs g f ≠ 0 → (f < N)%nat
}.

(** [δ] references to [f] more; a descriptor whose contents are known; the first [k]
    descriptors of a process known to be free; a process known to be alive; one known
    not to be the current one; the end of a process. *)
Definition addref (f : nat) (δ : Z) (g : ghost) : ghost :=
  Ghost (λ x, if decide (x = f) then g_refs g x + δ else g_refs g x) (g_known g) (g_alive g) (g_other g) (g_live g).
Definition addopt (o : option nat) (δ : Z) (g : ghost) : ghost :=
  match o with Some f => addref f δ g | None => g end.
Definition learn (i fd : nat) (o : option nat) (g : ghost) : ghost :=
  Ghost (g_refs g) (λ j k, if decide (j = i ∧ k = fd) then Some o else g_known g j k) (g_alive g) (g_other g) (g_live g).
Definition learn_free (i k : nat) (g : ghost) : ghost :=
  Ghost (g_refs g) (λ j fd, if decide (j = i ∧ (fd < k)%nat) then Some None else g_known g j fd) (g_alive g) (g_other g) (g_live g).
Definition alive (i : nat) (g : ghost) : ghost :=
  Ghost (g_refs g) (g_known g) (λ j, bool_decide (j = i) || g_alive g j) (g_other g) (g_live g).
Definition other (i : nat) (g : ghost) : ghost :=
  Ghost (g_refs g) (g_known g) (g_alive g) (λ j, bool_decide (j = i) || g_other g j) (g_live g).
Definition dies (i : nat) (live : bool) (g : ghost) : ghost :=
  Ghost (g_refs g) (g_known g) (λ j, negb (bool_decide (j = i)) && g_alive g j) (g_other g) live.

(** The knowledge in [g'] is part of that in [g]. *)
Record forgets (g g' : ghost) : Prop := {
  fg_refs : ∀ f, g_refs g f = g_refs g' f;
  fg_known : ∀ i fd o, g_known g' i fd = Some o → g_known g i fd = Some o;
  fg_alive : ∀ i, g_alive g' i = true → g_alive g i = true;
  fg_other : ∀ i, g_other g' i = true → g_other g i = true;
  fg_live : g_live g' = true → g_live g = true
}.

Lemma kernel_ok_forget N h g g' s : forgets g g' → kernel_ok N h g s → kernel_ok N h g' s.
Proof.
  intros [Hr Hk Ha Hot Hv] []. split; try done; [intros f Hf; rewrite <- Hr; auto|eauto| |eauto| |].
  - intros i p Hp [H|[H1 H2]]; eauto.
  - intros i [H|(fd & o & H)]; eauto 6.
  - intros f. rewrite <- Hr. auto.
Qed.

Lemma addref_addref f δ δ' g : δ + δ' = 0 → forgets (addref f δ (addref f δ' g)) g.
Proof. intros H. split; try done. intros x. cbn. destruct (decide (x = f)); lia. Qed.
Lemma learn_forget i fd o g : g_known g i fd = None → forgets (learn i fd o g) g.
Proof. intros H. split; try done. intros j k x Hx. cbn. destruct (decide _) as [[-> ->]|]; [by rewrite H in Hx|done]. Qed.

Lemma fd_count_insert f l fd o o' :
  l !! fd = Some o →
  (fd_count f (<[fd := o']> l) + (if decide (o = Some f) then 1 else 0) =
   fd_count f l + (if decide (o' = Some f) then 1 else 0))%nat.
Proof.
  intros Hl. rewrite (insert_take_drop _ _ _ (lookup_lt_Some _ _ _ Hl)).
  replace (fd_count f l) with (fd_count f (take fd l ++ o :: drop (S fd) l)) by (by rewrite take_drop_middle).
  unfold fd_count.
  rewrite !filter_app, !length_app, !filter_cons.
  destruct (decide (o = Some f)), (decide (o' = Some f)); cbn [length]; lia.
Qed.

Lemma nrefs_alter f ps i p g :
  ps !! i = Some p →
  (nrefs f (alter g i ps) + fd_count f (p_ofile p) = nrefs f ps + fd_count f (p_ofile (g p)))%nat.
Proof.
  revert i. induction ps as [|q ps IH]; intros [|i] Hp; try done.
  - injection Hp as ->. unfold nrefs. cbn. lia.
  - specialize (IH i Hp). unfold nrefs in *. cbn in *. lia.
Qed.

Lemma nrefs_same f ps ps' :
  Forall2 (λ p p', p_ofile p' = p_ofile p) ps ps' → nrefs f ps' = nrefs f ps.
Proof. induction 1 as [|p p' ps ps' Hp _ IH]; [done|]. unfold nrefs in *. cbn. by rewrite Hp, IH. Qed.

(** A process table with the same descriptors, in which no process has died. *)
Definition same_files (p p' : proc) : Prop := p_ofile p' = p_ofile p ∧ (dead p' → dead p).

Lemma kernel_ok_procs N h h' g s s' :
  kernel_ok N h g s → c_held (k_core s') = h' → NoDup h' → k_file s' = k_file s →
  c_cur (k_core s') = c_cur (k_core s) →
  Forall2 same_files (c_procs (k_core s)) (c_procs (k_core s')) → kernel_ok N h' g s'.
Proof.
  intros [_ _ Hl Hr Hnf Hg Hd Hkn Hal Hot Hex Hgr] Hh' Hn' Hf Hcur Hp.
  assert (Hback : ∀ i p', c_procs (k_core s') !! i = Some p' →
    ∃ p, c_procs (k_core s) !! i = Some p ∧ p_ofile p' = p_ofile p ∧ (dead p' → dead p)).
  { intros i p' H. destruct (Forall2_lookup_r _ _ _ _ _ Hp H) as (p & ? & ? & ?). by exists p. }
  split; [done|done|by rewrite Hf|..].
  - intros f Hlt. unfold filep. rewrite Hf. rewrite (nrefs_same f (c_procs (k_core s))); [by apply Hr|].
    eapply Forall2_impl; [exact Hp|]. by intros ? ? [? _].
  - intros i p' (p & Hpi & -> & _)%Hback. by eapply Hnf.
  - intros i p' fd f (p & Hpi & -> & _)%Hback. by eapply Hg.
  - intros i p' fd o (p & Hpi & -> & Hdd)%Hback Hde. eapply Hd; [exact Hpi|auto].
  - intros i p' fd o (p & Hpi & -> & _)%Hback. by eapply Hkn.
  - intros i p' (p & Hpi & _ & Hdd)%Hback Ha Hde. rewrite Hcur in Ha. by apply (Hal i p Hpi Ha), Hdd.
  - by rewrite Hcur.
  - intros i Hi. rewrite <- (Forall2_length _ _ _ Hp). auto.
  - done.
Qed.

Lemma stepped_same_files p p' : stepped p p' → same_files p p'.
Proof. intros [->|[_ ->]]; [done|]. split; [done|]. by intros [H|H]. Qed.

(** ** Triples *)
Definition ktri (N : nat) {A} (h : list lockid) (g : ghost) (m : K kstate A) (h' : list lockid) (g' : A → ghost) : Prop :=
  ∀ s a s', kernel_ok N h g s → m s = Done a s' → kernel_ok N h' (g' a) s'.

Section triples.
Variable N : nat.
Local Abbreviation ktri := (ktri N).

Lemma ktri_ret {A} (a : A) h g : ktri h g (ret a) h (λ _, g).
Proof. intros s a' s' Hk [= <- <-]. done. Qed.
Lemma ktri_ret_to {A} (a : A) h g g' : g' a = g → ktri h g (ret a) h g'.
Proof. intros <- s a' s' Hk [= <- <-]. done. Qed.
Lemma ktri_gets {A} (f : kstate → A) h g : ktri h g (gets f) h (λ _, g).
Proof. intros s a' s' Hk [= <- <-]. done. Qed.
Lemma ktri_panic {A} e h g h' g' : ktri h g (panic e : K kstate A) h' g'.
Proof. intros s a s' Hk E. discriminate E. Qed.
Lemma ktri_bind {A B} (m : K kstate A) (k : A → K kstate B) h g h1 g1 h2 g2 :
  ktri h g m h1 g1 → (∀ a, ktri h1 (g1 a) (k a) h2 g2) → ktri h g (bind m k) h2 g2.
Proof.
  intros Hm Hk s b s' Hok. unfold bind. destruct (m s) as [a s1| |] eqn:E; [|done|done].
  intros E'. eapply Hk; [|exact E']. by eapply Hm.
Qed.
(** With a fact that the invariant implies. *)
Lemma ktri_use {A} (φ : Prop) (m : K kstate A) h g h' g' :
  (∀ s, kernel_ok N h g s → φ) → (φ → ktri h g m h' g') → ktri h g m h' g'.
Proof. intros Hφ Hm s a s' Hok. apply Hm; [by eapply Hφ|done]. Qed.
Lemma ktri_forget {A} (m : K kstate A) h g h' g1 g2 :
  ktri h g m h' g1 → (∀ a, forgets (g1 a) (g2 a)) → ktri h g m h' g2.
Proof. intros Hm Hf s a s' Hok E. eapply kernel_ok_forget; [apply Hf|]. by eapply Hm. Qed.

Lemma ktri_pre {A} (m : K kstate A) h g g1 h' g' :
  forgets g g1 → ktri h g1 m h' g' → ktri h g m h' g'.
Proof. intros Hf Hm s a s' Hok. apply Hm. by eapply kernel_ok_forget. Qed.

(** Changes of other parts of the state. *)
Lemma ktri_modify f h g :
  (∀ s, k_core (f s) = k_core s) → (∀ s, k_file (f s) = k_file s) → ktri h g (modify f) h (λ _, g).
Proof.
  intros Hc Hf s a s' Hok [= <- <-]. pose proof Hok as [Hh Hn _ _ _ _ _ _ _ _ _ _].
  apply (kernel_ok_procs N h h g s); [done|by rewrite Hc|done|done|by rewrite Hc|].
  rewrite Hc. by apply Forall_Forall2_diag, Forall_true.
Qed.

(** The triples of the components. *)
Lemma ktri_tri {A} (m : K kstate A) h g h' :
  tri k_core h m h' → (∀ s a s', m s = Done a s' → k_file s' = k_file s) → ktri h g m h' (λ _, g).
Proof.
  intros Hm Hf s a s' Hok E. pose proof Hok as [Hh Hn _ _ _ _ _ _ _ _ _ _].
  destruct (Hm (k_core s) s a s') as [Hh' Hn' Hc' Hp]; [|done|].
  { split; [done|done|done|]. by apply Forall_Forall2_diag, Forall_true. }
  apply (kernel_ok_procs N h h' g s); [done|done|done|by eapply Hf|done|].
  eapply Forall2_impl; [exact Hp|]. apply stepped_same_files.
Qed.
End triples.

(** A computation from one state. *)
Definition from_state (N : nat) {A} (s : kstate) (m : K kstate A) (h' : list lockid) (g' : A → ghost) : Prop :=
  ∀ a s', m s = Done a s' → kernel_ok N h' (g' a) s'.

Lemma from_ktri N {A} h g s (m : K kstate A) h' g' :
  kernel_ok N h g s → ktri N h g m h' g' → from_state N s m h' g'.
Proof. intros Hok Hm a s' E. by eapply Hm. Qed.

(** The places of the components in the kernel state. *)
Lemma tri_in_fs {A} (m : K (fstate lstate) A) h h' : tri fs_view h m h' → tri k_core h (in_fs m) h'.
Proof. by apply tri_zoom. Qed.
Lemma tri_in_log {A} (m : K lstate A) h h' : tri log_view h m h' → tri k_core h (in_log m) h'.
Proof. intros Hm. by apply tri_in_fs, tri_in_st. Qed.
Lemma tri_k_locks {A} (m : K core A) h h' : tri core_id h m h' → tri k_core h (k_locks m) h'.
Proof. intros Hm. by apply tri_in_fs, tri_fs_core. Qed.
Lemma tri_in_mem {A} (m : K kst A) h h' : tri snd h m h' → tri k_core h (in_mem m) h'.
Proof. by apply tri_zoom. Qed.
Lemma tri_in_pipe {A} p (m : K pst A) h h' : tri snd h m h' → tri k_core h (in_pipe p m) h'.
Proof. by apply tri_zoom. Qed.
#[export] Hint Resolve tri_in_fs tri_in_log tri_k_locks tri_in_mem tri_in_pipe : frame.

(** Printing on the console. *)
Lemma tri_in_dev {A} (m : K devices A) h : tri core_id h (in_dev m) h.
Proof.
  intros c0 c a c' Hf. unfold in_dev, zoom. destruct (m (c_dev c)); [|done|done]. intros [= _ <-].
  by destruct Hf.
Qed.
#[export] Hint Resolve tri_in_dev : frame.

Lemma tri_cprintf fmt ap h : tri core_id h (cprintf fmt ap) h.
Proof.
  unfold cprintf. eapply tri_bind; [apply tri_gets|intros [|]];
    (eapply tri_bind; [tri_auto|intro]); (eapply tri_bind; [tri_auto|intro]); tri_auto.
Qed.
#[export] Hint Resolve tri_cprintf : frame.

Lemma zoom_file {T A} (get : kstate → T) (upd : T → kstate → kstate) (m : K T A) s a s' :
  (∀ t s, k_file (upd t s) = k_file s) → zoom get upd m s = Done a s' → k_file s' = k_file s.
Proof. intros H. unfold zoom. destruct (m (get s)); [|done|done]. intros [= _ <-]. apply H. Qed.

Lemma ktri_in_fs N {A} (m : K (fstate lstate) A) h h' g : tri fs_view h m h' → ktri N h g (in_fs m) h' (λ _, g).
Proof. intros Hm. apply ktri_tri; [by apply tri_in_fs|]. intros s a s'. by apply zoom_file. Qed.
Lemma ktri_in_log N {A} (m : K lstate A) h h' g : tri log_view h m h' → ktri N h g (in_log m) h' (λ _, g).
Proof. intros Hm. by apply ktri_in_fs, tri_in_st. Qed.
Lemma ktri_k_locks N {A} (m : K core A) h h' g : tri core_id h m h' → ktri N h g (k_locks m) h' (λ _, g).
Proof. intros Hm. by apply ktri_in_fs, tri_fs_core. Qed.
Lemma ktri_in_mem N {A} (m : K kst A) h h' g : tri snd h m h' → ktri N h g (in_mem m) h' (λ _, g).
Proof. intros Hm. apply ktri_tri; [by apply tri_in_mem|]. intros s a s'. by apply zoom_file. Qed.
Lemma ktri_in_pipe N {A} p (m : K pst A) h h' g : tri snd h m h' → ktri N h g (in_pipe p m) h' (λ _, g).
Proof. intros Hm. apply ktri_tri; [by apply tri_in_pipe|]. intros s a s'. by apply zoom_file. Qed.
#[export] Hint Resolve ktri_in_fs ktri_in_log ktri_k_locks ktri_in_mem ktri_in_pipe : frame.

Lemma ktri_upd_kproc N i f h g : (∀ p, same_files p (f p)) → ktri N h g (upd_kproc i f) h (λ _, g).
Proof.
  intros Hf s a s' Hok [= <- <-]. pose proof Hok as [Hh Hn _ _ _ _ _ _ _ _ _ _].
  apply (kernel_ok_procs N h h g s); [done|done|done|done|done|]. cbn.
  apply Forall2_same_length_lookup. split; [by rewrite length_alter|].
  intros j p p' Hp Hp'. destruct (decide (j = i)) as [->|].
  - rewrite list_lookup_alter_eq, Hp in Hp'. by injection Hp' as <-.
  - rewrite list_lookup_alter_ne, Hp in Hp' by done. by injection Hp' as <-.
Qed.

Lemma ktri_upd_file N f x h g : (∀ y, f_ref (x y) = f_ref y) → ktri N h g (upd_file f x) h (λ _, g).
Proof.
  intros Hx s a s' [Hh Hn Hl Hr Hnf Hg Hd Hkn Hal Hot Hex Hgr] [= <- <-]. split; try done.
  - cbn. by rewrite length_alter.
  - intros j Hj. specialize (Hr j Hj). unfold filep in *.
    transitivity (f_ref (k_file s !!! j)); [|exact Hr]. cbn [k_file set_files].
    destruct (lookup_lt_is_Some_2 (k_file s) j) as [y Hy]; [lia|]. destruct (decide (j = f)) as [->|].
    + rewrite (list_lookup_total_correct _ _ (x y)) by (by rewrite list_lookup_alter_eq, Hy).
      by rewrite (list_lookup_total_correct _ _ y Hy).
    + rewrite (list_lookup_total_correct _ _ y) by (by rewrite list_lookup_alter_ne).
      by rewrite (list_lookup_total_correct _ _ y Hy).
Qed.

Ltac k_side :=
  first [ done
        | intros ?; split; [reflexivity|]; first [exact id | let H := fresh in intros [H|H]; discriminate H] ].

Ltac k_step :=
  match goal with
  | |- ktri _ _ _ (match ?x with _ => _ end) _ _ => destruct x
  | |- ktri _ _ _ (let _ := _ in _) _ _ => cbv zeta
  | |- ktri _ _ _ (ret _) _ _ => first [apply ktri_ret | apply ktri_ret_to; reflexivity]
  | |- ktri _ _ _ (gets _) _ _ => apply ktri_gets
  | |- ktri _ _ _ (panic _) _ _ => apply ktri_panic
  | |- ktri _ _ _ (modify _) _ _ => apply ktri_modify; reflexivity
  | |- ktri _ _ _ (bind _ _) _ _ => eapply ktri_bind; [|intro; cbv beta]
  | |- ktri _ _ _ (upd_kproc _ _) _ _ => apply ktri_upd_kproc; k_side
  | |- ktri _ _ _ (upd_file _ _) _ _ => apply ktri_upd_file; reflexivity
  | |- ktri _ _ _ _ _ _ => solve [eauto with frame nocore]
  end.
Ltac k_auto := intros; repeat k_step.
