(* ===== verification/Syscall.v ===== *)
(** * syscall.c: arguments of system calls, and user memory

    The kernel runs on the page table of the current process, so it reads and
    writes user memory at the user's addresses.  [vaddr] is the translation of the
    processor; an address that is not mapped is a page fault in the kernel, which
    trap answers with a panic. *)

From S2P Require Import Prelude Params Devices Core Pipe Kalloc Vm Bio Log BlockStore Fs Kernel.

(** ** Memory as the processor sees it *)
Definition table_at (m : kmem) (tab idx : Z) : option Z :=
  let e := entry m tab idx in
  if tst e PTE_P then Some (P2V (PTE_ADDR e)) else None.

(** The kernel address of the byte at [va]: the kernel half maps the first gigabyte
    of physical memory, the user half has the four levels of tables. *)
Definition vaddr (m : kmem) (pgdir va : Z) : option Z :=
  if KERNBASE <=? va then (if va <? KERNBASE + 2 ^ 30 then Some va else None)
  else if 2 ^ 47 <=? va then None
  else
    pdp ← table_at m pgdir (PMX va);
    pd ← table_at m pdp (PDPX va);
    pt ← table_at m pd (PDX va);
    pg ← table_at m pt (PTX va);
    Some (pg + va mod PGSIZE).

Definition vload (m : kmem) (pgdir va : Z) : option Z :=
  a ← vaddr m pgdir va; Some (km_page m (pg_base a) !!! Z.to_nat (a mod PGSIZE)).

Definition vstore (pgdir va b : Z) (m : kmem) : option kmem :=
  a ← vaddr m pgdir va;
  Some (fst (set_page (pg_base a) (<[Z.to_nat (a mod PGSIZE) := b]> (km_page m (pg_base a)))
               (m, Core [] [] None devices0))).

Fixpoint vloads (n : nat) (m : kmem) (pgdir va : Z) : option (list Z) :=
  match n with
  | O => Some []
  | S n => b ← vload m pgdir va; bs ← vloads n m pgdir (u64 (va + 1)); Some (b :: bs)
  end.

Fixpoint vstores (pgdir va : Z) (bs : list Z) (m : kmem) : option kmem :=
  match bs with
  | [] => Some m
  | b :: bs => m ← vstore pgdir va b m; vstores pgdir (u64 (va + 1)) bs m
  end.

(** Loads and stores of the current process. *)
Definition uload (va : Z) (n : nat) : K kstate (list Z) :=
  ip <- myproc;;
  m <- gets k_mem;;
  match vloads n m (p_pgdir (snd ip)) va with
  | Some bs => ret bs
  | None => panic "trap"
  end.

Definition ustore (va : Z) (bs : list Z) : K kstate unit :=
  ip <- myproc;;
  m <- gets k_mem;;
  match vstores (p_pgdir (snd ip)) va bs m with
  | Some m => modify (set_mem m)
  | None => panic "trap"
  end.

(** ** Fetching *)

(** The checks of fetchint and fetchaddr for [len] bytes. *)
Definition fetch_ok (addr len sz : Z) : bool :=
  negb ((addr <? PGSIZE) || (sz <=? addr) || (sz <? u64 (addr + len))).

Definition fetchint (addr : Z) : K kstate (option Z) :=
  ip <- myproc;;
  if negb (fetch_ok addr 4 (p_sz (snd ip))) then ret None else
  bs <- uload addr 4;;
  ret (Some (s32 (le_get bs))).

Definition fetchaddr (addr : Z) : K kstate (option Z) :=
  ip <- myproc;;
  if negb (fetch_ok addr 8 (p_sz (snd ip))) then ret None else
  bs <- uload addr 8;;
  ret (Some (le_get bs)).

(** The loop of fetchstr from [s] on: the bytes before the first zero byte. *)
Fixpoint fetchstr_loop (fuel : nat) (s ep : Z) (acc : list Z) : K kstate (option (list Z)) :=
  if s <? ep then
    match fuel with
    | O => panic "fetchstr: out of fuel"
    | S fuel =>
        bs <- uload s 1;;
        if le_get bs =? 0 then ret (Some acc) else fetchstr_loop fuel (s + 1) ep (acc ++ bs)
    end
  else ret None.

(** The string at [addr]: its bytes stand for the pointer, its length is the result
    of the code. *)
Definition fetchstr (addr : Z) : K kstate (option (list Z)) :=
  ip <- myproc;;
  let sz := p_sz (snd ip) in
  if (addr <? PGSIZE) || (sz <=? addr) then ret None
  else fetchstr_loop (Z.to_nat (sz - addr)) addr sz [].

(** ** Arguments *)
Definition fetcharg (n : Z) : K kstate Z :=
  ip <- myproc;;
  let tf := p_tf (snd ip) in
  if n =? 0 then ret (rdi tf) else
  if n =? 1 then ret (rsi tf) else
  if n =? 2 then ret (rdx tf) else
  if n =? 3 then ret (r10 tf) else
  if n =? 4 then ret (r8 tf) else
  if n =? 5 then ret (r9 tf) else
  panic "failed fetch".

(** argint always succeeds; the register is cut to an int. *)
Definition argint (n : Z) : K kstate Z :=
  v <- fetcharg n;; ret (s32 v).

Definition argaddr (n : Z) : K kstate Z := fetcharg n.

(** The result, an unsigned 64-bit integer, and the pointer if it is set. *)
Definition argptr (n size : Z) : K kstate (Z * option Z) :=
  i <- argaddr n;;
  ip <- myproc;;
  let sz := p_sz (snd ip) in
  if (size <? 0) || (sz <=? u32 i) || (sz <? u32 (u32 i + size)) then ret (u64 (-1), None)
  else ret (0, Some i).

(** The address goes through an int. *)
Definition argstr (n : Z) : K kstate (option (list Z)) :=
  addr <- argint n;;
  fetchstr (u64 addr).

(** ** Dispatch *)
Definition SYS_fork : Z := 1.
Definition SYS_exit : Z := 2.
Definition SYS_wait : Z := 3.
Definition SYS_pipe : Z := 4.
Definition SYS_read : Z := 5.
Definition SYS_kill : Z := 6.
Definition SYS_exec : Z := 7.
Definition SYS_fstat : Z := 8.
Definition SYS_chdir : Z := 9.
Definition SYS_dup : Z := 10.
Definition SYS_getpid : Z := 11.
Definition SYS_sbrk : Z := 12.
Definition SYS_sleep : Z := 13.
Definition SYS_uptime : Z := 14.
Definition SYS_open : Z := 15.
Definition SYS_write : Z := 16.
Definition SYS_mknod : Z := 17.
Definition SYS_unlink : Z := 18.
Definition SYS_link : Z := 19.
Definition SYS_mkdir : Z := 20.
Definition SYS_close : Z := 21.
Definition SYS_triggerpanic : Z := 22.
