(* ===== verification/Exec.v ===== *)
(** * exec.c and elf.h: loading a program *)

From S2P Require Import Prelude Params CString Core Pipe Kalloc Vm Bio Log BlockStore Fs Kernel File Proc.

(** ** elf.h *)
Definition ELF_MAGIC : Z := 0x464C457F.
Definition ELF_PROG_LOAD : Z := 1.

Record elfhdr := Elfhdr { eh_magic : Z; eh_entry : Z; eh_phoff : Z; eh_phnum : Z }.
Definition ELFHDR_SIZE : Z := 64.
Definition get_elfhdr (b : list Z) : elfhdr :=
  Elfhdr (field 0 4 b) (field 24 8 b) (field 32 8 b) (field 56 2 b).

Record proghdr := Proghdr { ph_type : Z; ph_off : Z; ph_vaddr : Z; ph_filesz : Z; ph_memsz : Z }.
Definition PROGHDR_SIZE : Z := 56.
Definition get_proghdr (b : list Z) : proghdr :=
  Proghdr (field 0 4 b) (field 8 8 b) (field 16 8 b) (field 32 8 b) (field 40 8 b).

Section exec.
Variable kend : Z.
Variable devread : Z → option (nat → Z → Z → K (fstate lstate) (Z * list Z)).

Local Abbreviation readi := (readi devread).

(** ** vm.c: loaduvm *)
Fixpoint loaduvm_loop (fuel : nat) (pgdir addr : Z) (ip : nat) (offset sz i : Z) : K kstate Z :=
  if i <? sz then
    match fuel with
    | O => panic "loaduvm: out of fuel"
    | S fuel =>
        pte <- in_mem (walkpgdir pgdir (u64 (addr + i)) false);;
        match pte with
        | None => panic "loaduvm: address should exist"
        | Some pte =>
            e <- gets (λ s, load64 (k_mem s) pte);;
            let pa := PTE_ADDR e in
            let n := if sz - i <? PGSIZE then sz - i else PGSIZE in
            ro <- in_fs (readi ip (u32 (offset + i)) n);;
            in_mem (modify (λ s, set_page (P2V pa)
              (splice 0 (snd ro) (km_page (fst s) (P2V pa))) s)) ;;;
            if negb (fst ro =? n) then ret (-1) else
            loaduvm_loop fuel pgdir addr ip offset sz (u32 (i + PGSIZE))
        end
    end
  else ret 0.

(** [offset] and [sz] are 32-bit unsigned ints. *)
Definition loaduvm (pgdir addr : Z) (ip : nat) (offset sz : Z) : K kstate Z :=
  if negb (addr mod PGSIZE =? 0) then panic "loaduvm: addr must be page aligned"
  else loaduvm_loop (Z.to_nat (u32 sz / PGSIZE + 1)) pgdir addr ip (u32 offset) (u32 sz) 0.

(** ** exec *)

(** One program header at offset [off]: the new size, or nothing for [bad]. *)
Definition exec_segment (pgdir : Z) (ip : nat) (off sz : Z) : K kstate (option Z) :=
  ro <- in_fs (readi ip (u32 off) PROGHDR_SIZE);;
  if negb (fst ro =? PROGHDR_SIZE) then ret None else
  let ph := get_proghdr (snd ro) in
  if negb (ph_type ph =? ELF_PROG_LOAD) then ret (Some sz) else
  if ph_memsz ph <? ph_filesz ph then ret None else
  if u64 (ph_vaddr ph + ph_memsz ph) <? ph_vaddr ph then ret None else
  sz <- in_mem (allocuvm kend pgdir sz (u64 (ph_vaddr ph + ph_memsz ph)));;
  if sz =? 0 then ret None else
  if negb (ph_vaddr ph mod PGSIZE =? 0) then ret None else
  r <- loaduvm pgdir (ph_vaddr ph) ip (ph_off ph) (ph_filesz ph);;
  if r <? 0 then ret None else ret (Some sz).

Fixpoint exec_segments (k : nat) (pgdir : Z) (ip : nat) (off sz : Z) : K kstate (option Z) :=
  match k with
  | O => ret (Some sz)
  | S k =>
      r <- exec_segment pgdir ip off sz;;
      match r with
      | None => ret None
      | Some sz => exec_segments k pgdir ip (s32 (off + PROGHDR_SIZE)) sz
      end
  end.

(** Pushing the argument strings: the stack pointer and the pointers stored in
    ustack, or nothing for [bad]. *)
Fixpoint push_args (argv : list (list Z)) (argc : nat) (pgdir sp : Z) (ustack : list Z)
    : K kstate (option (Z * list Z)) :=
  match argv with
  | [] => ret (Some (sp, ustack))
  | a :: argv =>
      if (MAXARG <=? argc)%nat then ret None else
      let len := Z.of_nat (length a) + 1 in
      let sp := Z.land (u64 (sp - len)) (u64 (Z.lnot 7)) in
      r <- in_mem (copyout pgdir sp (a ++ [0]) len);;
      if r <? 0 then ret None else push_args argv (S argc) pgdir sp (ustack ++ [sp])
  end.

(** The bytes after the last slash of the path. *)
Fixpoint last_elem (s last : list Z) : list Z :=
  match s with
  | [] => last
  | c :: s => last_elem s (if c =? slash then s else last)
  end.

(** [bad]: the page table is freed, and the inode while it is still held. *)
Definition exec_bad (pgdir : Z) (ip : option nat) : K kstate Z :=
  (if pgdir =? 0 then ret tt else in_mem (freevm kend pgdir)) ;;;
  match ip with
  | Some ip => in_fs (iunlockput ip) ;;; in_log end_op
  | None => ret tt
  end ;;;
  ret (-1).

(** The part of exec after the file has been read. *)
Definition exec_commit (path : list Z) (argv : list (list Z)) (elf : elfhdr) (pgdir oldpgdir sz : Z)
    : K kstate Z :=
  let sz := PGROUNDUP sz in
  sz <- in_mem (allocuvm kend pgdir sz (u64 (sz + 2 * PGSIZE)));;
  if sz =? 0 then exec_bad pgdir None else
  in_mem (clearpteu pgdir (u64 (sz - 2 * PGSIZE))) ;;;
  a <- push_args argv 0 pgdir sz [];;
  match a with
  | None => exec_bad pgdir None
  | Some (sp, ustack) =>
      let argc := Z.of_nat (length argv) in
      ip <- myproc;;
      let i := fst (ip : nat * proc) in
      upd_kproc i (λ p, set_tf (set_rdi argc (p_tf p)) p) ;;;
      upd_kproc i (λ p, set_tf (set_rsi (u64 (sp - (argc + 1) * 8)) (p_tf p)) p) ;;;
      let sp := u64 (sp - (1 + argc + 1) * 8) in
      let words := 0xffffffffffffffff :: ustack ++ [0] in
      r <- in_mem (copyout pgdir sp (concat (le_put 8 <$> words)) ((1 + argc + 1) * 8));;
      if r <? 0 then exec_bad pgdir None else
      upd_kproc i (λ p, set_name (safestrcpy (p_name p) (bytes_ptr (last_elem path path)) 16) p) ;;;
      upd_kproc i (set_pgdir pgdir) ;;;
      upd_kproc i (set_sz sz) ;;;
      upd_kproc i (λ p, set_tf (set_rip (eh_entry elf) (p_tf p)) p) ;;;
      upd_kproc i (λ p, set_tf (set_rcx (eh_entry elf) (p_tf p)) p) ;;;
      upd_kproc i (λ p, set_tf (set_rsp sp (p_tf p)) p) ;;;
      ip <- myproc;;
      switchuvm (snd ip) ;;;
      in_mem (freevm kend oldpgdir) ;;;
      ret 0
  end.

Definition exec (path : list Z) (argv : list (list Z)) : K kstate Z :=
  cur <- myproc;;
  let oldpgdir := p_pgdir (snd cur) in
  in_log begin_op ;;;
  ip <- in_fs (namei devread path);;
  match ip with
  | None => in_log end_op ;;; ret (-1)
  | Some ip =>
      in_fs (ilock (Some ip)) ;;;
      ro <- in_fs (readi ip 0 ELFHDR_SIZE);;
      if negb (fst ro =? ELFHDR_SIZE) then exec_bad 0 (Some ip) else
      let elf := get_elfhdr (snd ro) in
      if negb (eh_magic elf =? ELF_MAGIC) then exec_bad 0 (Some ip) else
      kpdpt <- gets k_kpdpt;;
      pgdir <- in_mem (setupkvm kpdpt);;
      if pgdir =? 0 then exec_bad 0 (Some ip) else
      sz <- exec_segments (Z.to_nat (eh_phnum elf)) pgdir ip (s32 (eh_phoff elf)) PGSIZE;;
      match sz with
      | None => exec_bad pgdir (Some ip)
      | Some sz =>
          in_fs (iunlockput ip) ;;;
          in_log end_op ;;;
          exec_commit path argv elf pgdir oldpgdir sz
      end
  end.
End exec.
