(* ===== verification/SysFile.v ===== *)
(** * sysfile.c: the system calls on files

    argptr returns an unsigned integer, so the callers' test of its result for a
    negative number never holds; when it fails they go on with a pointer that was
    never set.  [uninit] is the value of that variable. *)

From S2P Require Import Prelude Params CString Core Pipe Kalloc Vm Bio Log BlockStore Fs Kernel File Proc Syscall Exec.

Section sysfile.
Variable kend : Z.
Variable devread : Z → option (nat → Z → Z → K (fstate lstate) (Z * list Z)).
Variable devwrite : Z → option (nat → Z → list Z → Z → K (fstate lstate) Z).
Variable uninit : Z.

Local Abbreviation fileclose := (fileclose kend).
Local Abbreviation dirlookup := (dirlookup devread).
Local Abbreviation dirlink := (dirlink devread devwrite).
Local Abbreviation nameiparent := (nameiparent devread).
Local Abbreviation namei := (namei devread).

(** ** Descriptors *)
Definition argfd (n : Z) : K kstate (option (nat * nat)) :=
  fd <- argint n;;
  ip <- myproc;;
  if (fd <? 0) || (Z.of_nat NOFILE <=? fd) then ret None else
  match p_ofile (snd ip) !! Z.to_nat fd with
  | Some (Some f) => ret (Some (Z.to_nat fd, f))
  | _ => ret None
  end.

(** The first descriptor that is not in use, from [fd] on. *)
Fixpoint find_fd (l : list (option nat)) (fd : nat) : option nat :=
  match l with
  | [] => None
  | None :: _ => Some fd
  | Some _ :: l => find_fd l (S fd)
  end.

Definition fdalloc (f : nat) : K kstate Z :=
  ip <- myproc;;
  match find_fd (p_ofile (snd ip)) 0 with
  | Some fd =>
      upd_kproc (fst ip) (λ p, set_ofile (<[fd := Some f]> (p_ofile p)) p) ;;;
      ret (Z.of_nat fd)
  | None => ret (-1)
  end.

Definition sys_dup : K kstate Z :=
  a <- argfd 0;;
  match a with
  | None => ret (-1)
  | Some (_, f) =>
      fd <- fdalloc f;;
      if fd <? 0 then ret (-1) else filedup f ;;; ret fd
  end.

(** The test [argptr(...) < 0] on the unsigned result. *)
Definition argptr_failed (r : Z) : bool := r <? 0.

Definition sys_read : K kstate Z :=
  a <- argfd 0;;
  match a with
  | None => ret (-1)
  | Some (_, f) =>
      n <- argint 2;;
      rp <- argptr 1 n;;
      if argptr_failed (fst rp) then ret (-1) else
      ro <- fileread devread f n;;
      ustore (default uninit (snd rp)) (snd ro) ;;;
      ret (fst ro)
  end.

(** The bytes are fetched before the write; a file that is not open for writing
    does not use them. *)
Definition sys_write : K kstate Z :=
  a <- argfd 0;;
  match a with
  | None => ret (-1)
  | Some (_, f) =>
      n <- argint 2;;
      rp <- argptr 1 n;;
      if argptr_failed (fst rp) then ret (-1) else
      x <- gets (λ s, filep s f);;
      bs <- (if f_writable x then uload (default uninit (snd rp)) (Z.to_nat n) else ret []);;
      filewrite devwrite f bs n
  end.

Definition sys_close : K kstate Z :=
  a <- argfd 0;;
  match a with
  | None => ret (-1)
  | Some (fd, f) =>
      ip <- myproc;;
      upd_kproc (fst ip) (λ p, set_ofile (<[fd := None]> (p_ofile p)) p) ;;;
      fileclose f ;;;
      ret 0
  end.

(** stat.h: struct stat has its fields at offsets 0, 4, 8, 12 and 16. *)
Definition STAT_SIZE : Z := 20.
Definition store_stat (st : Z) (x : stat) : K kstate unit :=
  ustore (u64 (st + 4)) (le_put 4 (stat_dev x)) ;;;
  ustore (u64 (st + 8)) (le_put 4 (stat_ino x)) ;;;
  ustore st (le_put 2 (stat_type x)) ;;;
  ustore (u64 (st + 12)) (le_put 2 (stat_nlink x)) ;;;
  ustore (u64 (st + 16)) (le_put 4 (stat_size x)).

Definition sys_fstat : K kstate Z :=
  a <- argfd 0;;
  match a with
  | None => ret (-1)
  | Some (_, f) =>
      rp <- argptr 1 STAT_SIZE;;
      if argptr_failed (fst rp) then ret (-1) else
      r <- filestat f;;
      match snd r with
      | Some st => store_stat (default uninit (snd rp)) st
      | None => ret tt
      end ;;;
      ret (fst r)
  end.

(** ** Directories *)
Definition name0 : list Z := replicate 14 0.
Definition dot : list Z := [46].
Definition dotdot : list Z := [46; 46].

Definition upd_in (ip : nat) (g : inode → inode) : K kstate unit :=
  in_fs (modify (upd_inode ip g)).
Definition inode_at (ip : nat) : K kstate inode := in_fs (gets (λ s, inodep s ip)).
Definition nlink_add (d : Z) (x : inode) : inode := set_i_nlink (s16 (i_nlink x + d)) x.

Fixpoint isdirempty_loop (fuel : nat) (dp : nat) (off : Z) : K kstate bool :=
  x <- inode_at dp;;
  if off <? i_size x then
    match fuel with
    | O => panic "isdirempty: out of fuel"
    | S fuel =>
        ro <- in_fs (readi devread dp off DIRENT_SIZE);;
        if negb (fst ro =? DIRENT_SIZE) then panic "isdirempty: readi" else
        if negb (de_inum (snd ro) =? 0) then ret false
        else isdirempty_loop fuel dp (off + DIRENT_SIZE)
    end
  else ret true.

Definition isdirempty (dp : nat) : K kstate bool :=
  x <- inode_at dp;;
  isdirempty_loop (Z.to_nat (i_size x / DIRENT_SIZE + 1)) dp (2 * DIRENT_SIZE).

(** The code after [bad] in sys_link. *)
Definition link_bad (ip : nat) : K kstate Z :=
  in_fs (ilock (Some ip)) ;;;
  upd_in ip (nlink_add (-1)) ;;;
  in_fs (iupdate ip) ;;;
  in_fs (iunlockput ip) ;;;
  in_log end_op ;;;
  ret (-1).

(** The two numbers compared are of the same disk: dirlink is only called then. *)
Definition link_same_dev (dp ip : nat) (name : list Z) : K kstate bool :=
  xd <- inode_at dp;;
  xi <- inode_at ip;;
  if negb (i_dev xd =? i_dev xi) then ret false else
  r <- in_fs (dirlink dp name (i_inum xi));;
  ret (negb (r <? 0)).

Definition sys_link : K kstate Z :=
  old <- argstr 0;;
  match old with
  | None => ret (-1)
  | Some old =>
      new <- argstr 1;;
      match new with
      | None => ret (-1)
      | Some new =>
          in_log begin_op ;;;
          ip <- in_fs (namei old);;
          match ip with
          | None => in_log end_op ;;; ret (-1)
          | Some ip =>
              in_fs (ilock (Some ip)) ;;;
              x <- inode_at ip;;
              if i_type x =? T_DIR then
                in_fs (iunlockput ip) ;;; in_log end_op ;;; ret (-1)
              else
              upd_in ip (nlink_add 1) ;;;
              in_fs (iupdate ip) ;;;
              in_fs (iunlock (Some ip)) ;;;
              dn <- in_fs (nameiparent new name0);;
              match dn with
              | (None, _) => link_bad ip
              | (Some dp, name) =>
                  in_fs (ilock (Some dp)) ;;;
                  ok <- link_same_dev dp ip name;;
                  in_fs (iunlockput dp) ;;;
                  if (ok : bool) then
                    in_fs (iput ip) ;;; in_log end_op ;;; ret 0
                  else link_bad ip
              end
          end
      end
  end.

(** The code after [bad] in sys_unlink. *)
Definition unlink_bad (dp : nat) : K kstate Z :=
  in_fs (iunlockput dp) ;;; in_log end_op ;;; ret (-1).

(** sys_unlink from the entry of [ip] at [off] in the directory [dp] on. *)
Definition unlink_entry (dp ip : nat) (off : Z) : K kstate Z :=
  in_fs (ilock (Some ip)) ;;;
  x <- inode_at ip;;
  if i_nlink x <? 1 then panic "unlink: nlink < 1" else
  empty <- (if i_type x =? T_DIR then isdirempty ip else ret true);;
  if negb empty then in_fs (iunlockput ip) ;;; unlink_bad dp else
  w <- in_fs (writei devwrite dp (replicate 16 0) off DIRENT_SIZE);;
  if negb (w =? DIRENT_SIZE) then panic "unlink: writei" else
  x <- inode_at ip;;
  (if i_type x =? T_DIR then upd_in dp (nlink_add (-1)) ;;; in_fs (iupdate dp) else ret tt) ;;;
  in_fs (iunlockput dp) ;;;
  upd_in ip (nlink_add (-1)) ;;;
  in_fs (iupdate ip) ;;;
  in_fs (iunlockput ip) ;;;
  in_log end_op ;;;
  ret 0.

Definition sys_unlink : K kstate Z :=
  path <- argstr 0;;
  match path with
  | None => ret (-1)
  | Some path =>
      in_log begin_op ;;;
      dn <- in_fs (nameiparent path name0);;
      match dn with
      | (None, _) => in_log end_op ;;; ret (-1)
      | (Some dp, name) =>
          in_fs (ilock (Some dp)) ;;;
          if (namecmp name dot =? 0) || (namecmp name dotdot =? 0) then unlink_bad dp else
          r <- in_fs (dirlookup dp name);;
          match r with
          | None => unlink_bad dp
          | Some (ip, off) => unlink_entry dp ip off
          end
      end
  end.

(** The entries of a new directory [ip] in [dp]. *)
Definition create_dots (dp ip : nat) : K kstate unit :=
  upd_in dp (nlink_add 1) ;;;
  in_fs (iupdate dp) ;;;
  xi <- inode_at ip;;
  r1 <- in_fs (dirlink ip dot (i_inum xi));;
  if r1 <? 0 then panic "create dots" else
  xd <- inode_at dp;;
  r2 <- in_fs (dirlink ip dotdot (i_inum xd));;
  if r2 <? 0 then panic "create dots" else ret tt.

(** create for a name that the directory does not have yet. *)
Definition create_new (dp : nat) (name : list Z) (type major minor : Z) : K kstate (option nat) :=
  xd <- inode_at dp;;
  ip <- in_fs (ialloc (i_dev xd) type);;
  in_fs (ilock (Some ip)) ;;;
  upd_in ip (set_i_dev_no major minor) ;;;
  upd_in ip (set_i_nlink 1) ;;;
  in_fs (iupdate ip) ;;;
  (if type =? T_DIR then create_dots dp ip else ret tt) ;;;
  xi <- inode_at ip;;
  r <- in_fs (dirlink dp name (i_inum xi));;
  if r <? 0 then panic "create: dirlink" else
  in_fs (iunlockput dp) ;;;
  ret (Some ip).

(** [major] and [minor] are shorts. *)
Definition create (path : list Z) (type major minor : Z) : K kstate (option nat) :=
  dn <- in_fs (nameiparent path name0);;
  match dn with
  | (None, _) => ret None
  | (Some dp, name) =>
      in_fs (ilock (Some dp)) ;;;
      r <- in_fs (dirlookup dp name);;
      match r with
      | Some (ip, _) =>
          in_fs (iunlockput dp) ;;;
          in_fs (ilock (Some ip)) ;;;
          x <- inode_at ip;;
          if (type =? T_FILE) && (i_type x =? T_FILE) then ret (Some ip) else
          in_fs (iunlockput ip) ;;;
          ret None
      | None => create_new dp name type (s16 major) (s16 minor)
      end
  end.

(** ** Opening *)

(** The locked inode that sys_open opens, or nothing. *)
Definition open_inode (path : list Z) (omode : Z) : K kstate (option nat) :=
  if negb (Z.land omode O_CREATE =? 0) then create path T_FILE 0 0 else
  ip <- in_fs (namei path);;
  match ip with
  | None => ret None
  | Some ip =>
      in_fs (ilock (Some ip)) ;;;
      x <- inode_at ip;;
      if (i_type x =? T_DIR) && negb (omode =? O_RDONLY)
      then in_fs (iunlockput ip) ;;; ret None
      else ret (Some ip)
  end.

(** No file or no descriptor for the inode. *)
Definition open_bad (f : option nat) (ip : nat) : K kstate Z :=
  match f with Some f => fileclose f | None => ret tt end ;;;
  in_fs (iunlockput ip) ;;;
  in_log end_op ;;;
  ret (-1).

Definition open_file (omode : Z) (ip : nat) (x : file) : file :=
  File FD_INODE (f_ref x) (Z.land omode O_WRONLY =? 0)
    (negb (Z.land omode O_WRONLY =? 0) || negb (Z.land omode O_RDWR =? 0)) (f_pipe x) ip 0.

Definition sys_open : K kstate Z :=
  path <- argstr 0;;
  match path with
  | None => ret (-1)
  | Some path =>
      omode <- argint 1;;
      in_log begin_op ;;;
      ip <- open_inode path omode;;
      match ip with
      | None => in_log end_op ;;; ret (-1)
      | Some ip =>
          f <- filealloc;;
          match f with
          | None => open_bad None ip
          | Some f =>
              fd <- fdalloc f;;
              if fd <? 0 then open_bad (Some f) ip else
              in_fs (iunlock (Some ip)) ;;;
              in_log end_op ;;;
              upd_file f (open_file omode ip) ;;;
              ret fd
          end
      end
  end.

Definition sys_mkdir : K kstate Z :=
  in_log begin_op ;;;
  path <- argstr 0;;
  ip <- match path with Some path => create path T_DIR 0 0 | None => ret None end;;
  match ip with
  | None => in_log end_op ;;; ret (-1)
  | Some ip => in_fs (iunlockput ip) ;;; in_log end_op ;;; ret 0
  end.

Definition sys_mknod : K kstate Z :=
  in_log begin_op ;;;
  path <- argstr 0;;
  ip <- match path with
        | Some path =>
            major <- argint 1;;
            minor <- argint 2;;
            create path T_DEV major minor
        | None => ret None
        end;;
  match ip with
  | None => in_log end_op ;;; ret (-1)
  | Some ip => in_fs (iunlockput ip) ;;; in_log end_op ;;; ret 0
  end.

Definition sys_chdir : K kstate Z :=
  in_log begin_op ;;;
  path <- argstr 0;;
  ip <- match path with Some path => in_fs (namei path) | None => ret None end;;
  match ip with
  | None => in_log end_op ;;; ret (-1)
  | Some ip =>
      in_fs (ilock (Some ip)) ;;;
      x <- inode_at ip;;
      if negb (i_type x =? T_DIR) then
        in_fs (iunlockput ip) ;;; in_log end_op ;;; ret (-1)
      else
      in_fs (iunlock (Some ip)) ;;;
      cur <- myproc;;
      match p_cwd (snd cur) with Some d => in_fs (iput d) | None => panic "trap" end ;;;
      in_log end_op ;;;
      upd_kproc (fst cur) (set_cwd (Some ip)) ;;;
      ret 0
  end.

(** ** exec and pipe *)

(** The argument strings from index [i] on, [k] being the entries of argv left. *)
Fixpoint fetch_args (k : nat) (uargv i : Z) (argv : list (list Z)) : K kstate (option (list (list Z))) :=
  match k with
  | O => ret None
  | S k =>
      uarg <- fetchaddr (u64 (uargv + 8 * i));;
      match uarg with
      | None => ret None
      | Some uarg =>
          if uarg =? 0 then ret (Some argv) else
          a <- fetchstr uarg;;
          match a with
          | None => ret None
          | Some a => fetch_args k uargv (i + 1) (argv ++ [a])
          end
      end
  end.

Definition sys_exec : K kstate Z :=
  path <- argstr 0;;
  match path with
  | None => ret (-1)
  | Some path =>
      uargv <- argaddr 1;;
      argv <- fetch_args MAXARG uargv 0 [];;
      match argv with
      | None => ret (-1)
      | Some argv => exec kend devread path argv
      end
  end.

(** No descriptors for the ends of the pipe. *)
Definition pipe_bad (fd0 : Z) (rf wf : nat) : K kstate Z :=
  (if 0 <=? fd0 then
     ip <- myproc;;
     upd_kproc (fst ip) (λ p, set_ofile (<[Z.to_nat fd0 := None]> (p_ofile p)) p)
   else ret tt) ;;;
  fileclose rf ;;;
  fileclose wf ;;;
  ret (-1).

Definition sys_pipe : K kstate Z :=
  rp <- argptr 0 8;;
  if argptr_failed (fst rp) then ret (-1) else
  p <- pipealloc kend;;
  match p with
  | None => ret (-1)
  | Some (rf, wf) =>
      fd0 <- fdalloc rf;;
      if fd0 <? 0 then pipe_bad fd0 rf wf else
      fd1 <- fdalloc wf;;
      if fd1 <? 0 then pipe_bad fd0 rf wf else
      let fd := default uninit (snd rp) in
      ustore fd (le_put 4 fd0) ;;;
      ustore (u64 (fd + 4)) (le_put 4 fd1) ;;;
      ret 0
  end.
End sysfile.
