(* ===== verification/FileInv.v ===== *)
(** * Open files keep the invariant of the kernel *)

From S2P Require Import Prelude Params CString Core Pipe Kalloc Vm Bio Log BlockStore Fs Frame Kernel File Proc KernelInv Syscall Exec SysFile.

(** ** Reference counts *)
Lemma kernel_ok_addref N h g s f y δ :
  kernel_ok N h g s → (f < N)%nat → f_ref (y (filep s f)) = f_ref (filep s f) + δ →
  kernel_ok N h (addref f δ g) (set_files (alter y f (k_file s)) s).
Proof.
  intros [Hh Hn Hl Hr Hnf Hg Hd Hkn Hal Hot Hex Hgr] HfN Hy. split; try done.
  - cbn. by rewrite length_alter.
  - intros j Hj. specialize (Hr j Hj). unfold filep in *. cbn [k_file set_files addref g_refs].
    destruct (lookup_lt_is_Some_2 (k_file s) j) as [z Hz]; [lia|].
    rewrite (list_lookup_total_correct _ _ z Hz) in Hr. destruct (decide (j = f)) as [->|].
    + rewrite (list_lookup_total_correct _ _ z Hz) in Hy.
      rewrite (list_lookup_total_correct _ _ (y z)) by (by rewrite list_lookup_alter_eq, Hz).
      rewrite Hy, Hr. change (k_core (set_files _ s)) with (k_core s). lia.
    + rewrite (list_lookup_total_correct _ _ z) by (by rewrite list_lookup_alter_ne). exact Hr.
  - intros x. cbn. destruct (decide (x = f)) as [->|]; [done|apply Hgr].
Qed.

(** An index out of range is the default entry, which nobody refers to. *)
Lemma filep_range N h g s f : kernel_ok N h g s → 1 ≤ f_ref (filep s f) → (f < N)%nat.
Proof.
  intros Hok Hr. destruct (decide (f < N)%nat) as [|Hf]; [done|]. exfalso. unfold filep in Hr.
  rewrite list_lookup_total_alt, lookup_ge_None_2 in Hr; [cbn in Hr; lia|].
  rewrite (ko_len _ _ _ _ Hok). lia.
Qed.

Lemma find_file_spec l i f :
  find_file l i = Some f → (i ≤ f < i + length l)%nat ∧ f_ref (l !!! (f - i)%nat) = 0.
Proof.
  revert i. induction l as [|x l IH]; intros i; [done|]. cbn [find_file].
  destruct (Z.eqb_spec (f_ref x) 0) as [E|E].
  - intros [= <-]. rewrite Nat.sub_diag. cbn. split; [lia|done].
  - intros (H1 & H2)%IH. cbn [length]. split; [lia|]. by replace (f - i)%nat with (S (f - S i)) by lia.
Qed.

(** ** Descriptors *)
Lemma g_refs_addopt o δ g f : g_refs (addopt o δ g) f = g_refs g f + (if decide (o = Some f) then δ else 0).
Proof.
  destruct o as [x|]; cbn [addopt addref g_refs].
  - destruct (decide (f = x)) as [->|]; [by rewrite decide_True|rewrite decide_False by congruence; lia].
  - rewrite decide_False by done. lia.
Qed.

Lemma g_known_addopt o δ g : g_known (addopt o δ g) = g_known g.
Proof. by destruct o. Qed.
Lemma g_alive_addopt o δ g : g_alive (addopt o δ g) = g_alive g.
Proof. by destruct o. Qed.
Lemma g_live_addopt o δ g : g_live (addopt o δ g) = g_live g.
Proof. by destruct o. Qed.

Lemma g_other_addopt o δ g : g_other (addopt o δ g) = g_other g.
Proof. by destruct o. Qed.

Definition set_fd (fd : nat) (o : option nat) (p : proc) : proc := set_ofile (<[fd := o]> (p_ofile p)) p.

(** Storing [o'] in a descriptor that held [o]. *)
Lemma kernel_ok_set_fd N h g s i p fd o o' :
  kernel_ok N h g s → c_procs (k_core s) !! i = Some p → p_ofile p !! fd = Some o →
  (∀ f, o' = Some f → (f < N)%nat) → (o' ≠ None → ¬ dead p) →
  kernel_ok N h (learn i fd o' (addopt o 1 (addopt o' (-1) g)))
    (set_kcore (upd_proc i (set_fd fd o') (k_core s)) s).
Proof.
  intros [Hh Hn Hl Hr Hnf Hg Hd Hkn Hal Hot Hex Hgr] Hp Ho Hf' Hdp.
  set (ps' := alter (set_fd fd o') i (c_procs (k_core s))).
  assert (Hps : ∀ j q, ps' !! j = Some q →
    j = i ∧ q = set_fd fd o' p ∨ j ≠ i ∧ c_procs (k_core s) !! j = Some q).
  { intros j q. unfold ps'. destruct (decide (j = i)) as [->|].
    - rewrite list_lookup_alter_eq, Hp. intros [= <-]. by left.
    - rewrite list_lookup_alter_ne by done. by right. }
  assert (Hfd : ∀ k x, p_ofile (set_fd fd o' p) !! k = Some x → k = fd ∧ x = o' ∨ k ≠ fd ∧ p_ofile p !! k = Some x).
  { intros k x. cbn. destruct (decide (k = fd)) as [->|].
    - rewrite list_lookup_insert_eq by (by eapply lookup_lt_Some). intros [= <-]. by left.
    - rewrite list_lookup_insert_ne by done. by right. }
  split; [done|done|done|..]; change (c_procs (k_core (set_kcore _ s))) with ps'.
  - intros f Hf. change (filep (set_kcore _ s) f) with (filep s f). rewrite (Hr f Hf).
    pose proof (nrefs_alter f _ i p (set_fd fd o') Hp) as E1.
    pose proof (fd_count_insert f _ fd o o' Ho) as E2.
    change (p_ofile (set_fd fd o' p)) with (<[fd := o']> (p_ofile p)) in E1. fold ps' in E1.
    change (g_refs (learn _ _ _ ?x)) with (g_refs x). rewrite !g_refs_addopt.
    destruct (decide (o = Some f)), (decide (o' = Some f)); lia.
  - intros j q [(-> & ->)|(_ & Hq)]%Hps; [|by eapply Hnf]. cbn. rewrite length_insert. by eapply Hnf.
  - intros j q k f [(-> & ->)|(_ & Hq)]%Hps; [|by eapply Hg].
    intros [(-> & E)|(_ & E)]%Hfd; [by apply Hf'|by eapply Hg].
  - intros j q k x [(-> & ->)|(_ & Hq)]%Hps Hdd; [|by eapply Hd].
    intros [(-> & ->)|(_ & E)]%Hfd; [|by eapply Hd].
    destruct o' as [f|]; [|done]. exfalso. by apply Hdp.
  - intros j q k x Hj. cbn [learn g_known]. rewrite !g_known_addopt.
    destruct (Hps j q Hj) as [(-> & ->)|(Hne & Hq)].
    + destruct (decide (i = i ∧ k = fd)) as [[_ ->]|Hk].
      * intros [= <-]. cbn. apply list_lookup_insert_eq. by eapply lookup_lt_Some.
      * intros Hx. cbn. rewrite list_lookup_insert_ne by naive_solver. by eapply Hkn.
    + rewrite decide_False by naive_solver. by eapply Hkn.
  - intros j q Hj Ha. cbn [learn g_alive g_live] in Ha. rewrite !g_alive_addopt, !g_live_addopt in Ha.
    destruct (Hps j q Hj) as [(-> & ->)|(_ & Hq)]; [by apply (Hal i p Hp)|by apply (Hal j q Hq)].
  - intros j. cbn [learn g_other]. rewrite !g_other_addopt. apply Hot.
  - intros j Hj. unfold ps'. rewrite length_alter. destruct (decide (j = i)) as [->|Hne]; [by eapply lookup_lt_Some|].
    apply Hex. cbn [learn g_alive g_known] in Hj. rewrite !g_alive_addopt, !g_known_addopt in Hj.
    destruct Hj as [?|(k & x & Hx)]; [by left|right]. exists k, x. by rewrite decide_False in Hx by naive_solver.
  - intros f. change (g_refs (learn _ _ _ ?x)) with (g_refs x). rewrite !g_refs_addopt.
    destruct (decide (o = Some f)) as [->|]; [intros _; by eapply Hg|].
    destruct (decide (o' = Some f)) as [->|]; [intros _; by apply Hf'|]. rewrite !Z.add_0_r. apply Hgr.
Qed.

(** Reading a descriptor. *)
Lemma kernel_ok_learn N h g s i p fd o :
  kernel_ok N h g s → c_procs (k_core s) !! i = Some p → p_ofile p !! fd = Some o → kernel_ok N h (learn i fd o g) s.
Proof.
  intros Hok Hp Ho. split; try apply Hok.
  - intros j q k x Hq. cbn.
    destruct (decide _) as [[-> ->]|]; [|by eapply ko_known]. intros [= <-]. rewrite Hp in Hq. by injection Hq as <-.
  - intros j Hj. destruct (decide (j = i)) as [->|Hne]; [by eapply lookup_lt_Some|].
    apply (ko_exists _ _ _ _ Hok). destruct Hj as [?|(k & x & Hx)]; [by left|right]. exists k, x. cbn in Hx.
    by rewrite decide_False in Hx by naive_solver.
Qed.

Lemma find_fd_spec l k fd : find_fd l k = Some fd → (k ≤ fd)%nat ∧ l !! (fd - k)%nat = Some None.
Proof.
  revert k. induction l as [|[f|] l IH]; intros k; [done| |].
  - cbn. intros (H1 & H2)%IH. split; [lia|]. by replace (fd - k)%nat with (S (fd - S k)) by lia.
  - cbn. intros [= <-]. by rewrite Nat.sub_diag.
Qed.

Lemma myproc_inv s r s' :
  myproc s = Done r s' → s' = s ∧ c_cur (k_core s) = Some (fst r) ∧ c_procs (k_core s) !! fst r = Some (snd r).
Proof.
  unfold myproc, bind, gets. destruct (c_cur (k_core s)) as [i|] eqn:E; [|done].
  destruct (c_procs (k_core s) !! i) as [p|] eqn:Ep; [|done]. intros [= <- <-]. done.
Qed.

Lemma ktri_myproc N h g : ktri N h g myproc h (λ _, g).
Proof. unfold myproc. k_auto. Qed.
#[export] Hint Resolve ktri_myproc : frame.

(** ** The functions *)
Section file.
Variable N : nat.
Variable kend : Z.
Variable devread : Z → option (nat → Z → Z → K (fstate lstate) (Z * list Z)).
Variable devwrite : Z → option (nat → Z → list Z → Z → K (fstate lstate) Z).
Hypothesis Hread : ∀ major f ip off n h, devread major = Some f → tri fs_view h (f ip off n) h.
Hypothesis Hwrite : ∀ major f ip off src n h, devwrite major = Some f → tri fs_view h (f ip off src n) h.

Lemma ktri_filealloc h g : ktri N h g filealloc h (λ r, addopt r 1 g).
Proof.
  unfold filealloc. eapply ktri_bind; [k_auto|intro u; cbv beta].
  intros s a s' Hok. revert a s'. unfold bind at 1, gets.
  destruct (find_file (k_file s) 0) as [f|] eqn:E; [|eapply from_ktri; [exact Hok|k_auto]].
  apply find_file_spec in E as [Hf E]. rewrite Nat.sub_0_r in E. rewrite (ko_len _ _ _ _ Hok) in Hf.
  unfold bind at 1, upd_file at 1, modify.
  eapply (from_ktri N _ (addref f 1 g)); [apply (kernel_ok_addref _ _ _ _ f (set_ref 1)); [exact Hok|lia|]|k_auto].
  unfold filep. cbn. lia.
Qed.

Lemma ktri_filedup f h g : ktri N h g (filedup f) h (λ _, addref f 1 g).
Proof.
  unfold filedup. eapply ktri_bind; [k_auto|intro u; cbv beta].
  intros s a s' Hok. revert a s'. unfold bind at 1, gets. destruct (Z.ltb_spec (f_ref (filep s f)) 1) as [|Hr]; [done|].
  unfold bind at 1, upd_file at 1, modify.
  eapply (from_ktri N _ (addref f 1 g)); [|k_auto].
  apply (kernel_ok_addref _ _ _ _ f (λ x, set_ref (f_ref x + 1) x)); [exact Hok|by eapply filep_range|done].
Qed.

Lemma filedup_result f s a s' : filedup f s = Done a s' → a = f.
Proof.
  unfold filedup, bind. destruct (k_locks (acquire _) s); [|done|done]. unfold gets. destruct (_ <? 1); [done|].
  unfold upd_file, modify. destruct (k_locks (release _) _); [|done|done]. unfold ret. by intros [= <- _].
Qed.

Lemma ktri_pipeclose p w h g : ktri N h g (pipeclose kend p w) h (λ _, g).
Proof. unfold pipeclose. k_auto. Qed.
#[local] Hint Resolve ktri_pipeclose ktri_filedup ktri_filealloc : frame.

Lemma ktri_fileclose f h g : ktri N h g (fileclose kend f) h (λ _, addref f (-1) g).
Proof.
  unfold fileclose. eapply ktri_bind; [k_auto|intro u; cbv beta].
  intros s a s' Hok. revert a s'. unfold bind at 1, gets. destruct (Z.ltb_spec (f_ref (filep s f)) 1) as [|H1]; [done|].
  unfold bind at 1, upd_file at 1, modify. set (s1 := set_files _ s).
  assert (Hok1 : kernel_ok N (Lk_ftable :: h) (addref f (-1) g) s1).
  { apply (kernel_ok_addref _ _ _ _ f (λ x, set_ref (f_ref x - 1) x)); [done|by eapply filep_range|done]. }
  unfold bind at 1, gets. destruct (Z.ltb_spec 0 (f_ref (filep s1 f))) as [|H2]; [eapply from_ktri; [exact Hok1|k_auto]|].
  unfold bind at 1, upd_file at 1, modify. set (s2 := set_files _ s1).
  assert (Hok2 : kernel_ok N (Lk_ftable :: h) (addref f (-1) g) s2).
  { pose proof (filep_range _ _ _ _ _ Hok H1) as Hf.
    eapply kernel_ok_forget; [|apply (kernel_ok_addref _ _ _ s1 f (set_ref 0) 0 Hok1 Hf)].
    - split; try done. intros x. cbn. destruct (decide (x = f)); lia.
    - assert (f_ref (filep s1 f) = f_ref (filep s f) - 1); [|change (f_ref (set_ref 0 _)) with 0; lia].
      unfold filep, s1. cbn [k_file set_files].
      destruct (lookup_lt_is_Some_2 (k_file s) f) as [z Hz]; [by rewrite (ko_len _ _ _ _ Hok)|].
      rewrite (list_lookup_total_correct _ _ z Hz).
      by rewrite (list_lookup_total_correct _ _ (set_ref (f_ref z - 1) z)) by (by rewrite list_lookup_alter_eq, Hz). }
  eapply from_ktri; [exact Hok2|]. k_auto.
Qed.
#[local] Hint Resolve ktri_fileclose : frame.

(** fdalloc fails and changes nothing, or stores the file in a free descriptor. *)
Lemma fdalloc_inv f s a s' :
  fdalloc f s = Done a s' →
  a = -1 ∧ s' = s ∨
  ∃ i p fd, a = Z.of_nat fd ∧ c_cur (k_core s) = Some i ∧ c_procs (k_core s) !! i = Some p ∧
    p_ofile p !! fd = Some None ∧ s' = set_kcore (upd_proc i (set_fd fd (Some f)) (k_core s)) s.
Proof.
  unfold fdalloc, bind at 1. destruct (myproc s) as [[i p] s1| |] eqn:E; [|done|done].
  apply myproc_inv in E as (-> & Hc & Hp). cbn [fst snd] in *. destruct (find_fd (p_ofile p) 0) as [fd|] eqn:Efd.
  - apply find_fd_spec in Efd as [_ Hfd]. rewrite Nat.sub_0_r in Hfd.
    unfold bind, upd_kproc, modify, ret. intros [= <- <-]. right. by exists i, p, fd.
  - unfold ret. intros [= <- <-]. by left.
Qed.

(** What the running code knows of the descriptors: nothing. *)
Definition plain (g : ghost) : Prop := g_live g = true ∧ ∀ i fd, g_known g i fd = None.

Lemma ktri_fdalloc f h g :
  (f < N)%nat → plain g → ktri N h g (fdalloc f) h (λ fd, if fd <? 0 then g else addref f (-1) g).
Proof.
  intros Hf [Hv Hkn] s a s' Hok [(-> & ->)|(i & p & fd & -> & Hc & Hp & Hfd & ->)]%fdalloc_inv; [done|].
  rewrite (proj2 (Z.ltb_ge _ _)) by lia.
  eapply kernel_ok_forget; [|eapply (kernel_ok_set_fd _ _ _ _ i p fd None (Some f)); [exact Hok|done|done| |]].
  - split; try done. intros j k o. cbn. by rewrite Hkn.
  - by intros x [= <-].
  - intros _. apply (ko_alive _ _ _ _ Hok i p Hp). by right.
Qed.
End file.
#[export] Hint Resolve ktri_pipeclose ktri_filedup ktri_filealloc ktri_fileclose : frame.
