(* ===== verification/Trap.v ===== *)
(** * sysproc.c, the dispatch of syscall.c, and trap.c *)

From S2P Require Import Prelude Params CString Devices Core Pipe Kalloc Vm Bio Log BlockStore Fs Console Kernel File Proc Syscall Exec SysFile.

(** ** mmu.h *)
Definition DPL_USER : Z := 3.
Definition KERNEL_CS : Z := 8.

Section trap.
Variable kend : Z.
Variable devread : Z → option (nat → Z → Z → K (fstate lstate) (Z * list Z)).
Variable devwrite : Z → option (nat → Z → list Z → Z → K (fstate lstate) Z).
Variable uninit : Z.

Local Abbreviation exit := (exit kend).

(** ** sysproc.c *)
Definition sys_fork : K kstate Z := fork kend.

Definition sys_exit : K kstate Z := exit ;;; ret 0.

Definition sys_wait : K kstate Z := wait kend.

Definition sys_kill : K kstate Z := pid <- argint 0;; kill pid.

Definition sys_getpid : K kstate Z := ip <- myproc;; ret (p_pid (snd ip)).

(** [n] is the 64-bit register; growproc takes it as a signed integer. *)
Definition sys_sbrk : K kstate Z :=
  n <- argaddr 0;;
  ip <- myproc;;
  let addr := p_sz (snd ip) in
  r <- growproc kend (s64 n);;
  if r <? 0 then ret (u64 (-1)) else ret addr.

(** The loop of sys_sleep with tickslock held: a process woken up comes back here. *)
Definition sleep_ticks_loop (ticks0 n : Z) : K kstate Z :=
  ticks <- gets k_ticks;;
  if u32 (ticks - ticks0) <? u32 n then
    ip <- myproc;;
    if p_killed (snd ip) then k_locks (release Lk_ticks) ;;; ret (-1)
    else k_locks (sleep Ch_ticks Lk_ticks) ;;; panic "sleep returned"
  else k_locks (release Lk_ticks) ;;; ret 0.

Definition sys_sleep : K kstate Z :=
  n <- argint 0;;
  k_locks (acquire Lk_ticks) ;;;
  ticks0 <- gets k_ticks;;
  sleep_ticks_loop ticks0 n.

Definition sys_uptime : K kstate Z :=
  k_locks (acquire Lk_ticks) ;;;
  xticks <- gets k_ticks;;
  k_locks (release Lk_ticks) ;;;
  ret (s32 xticks).

(** A message on the console. *)
Definition kprintf (fmt : list Z) (ap : list va) : K kstate unit := k_locks (cprintf (Some fmt) ap).

(** The load from address 0 faults unless the process has a page there. *)
Definition sys_triggerpanic : K kstate Z :=
  kprintf (str "Kernel: Attempting to trigger controlled panic by dereferencing NULL..." ++ [10]) [] ;;;
  val <- uload 0 4;;
  kprintf (str "Kernel: Should not reach here. Value: %d" ++ [10]) [Va_num (le_get val)] ;;;
  ret 0.

(** ** syscall.c: syscalls and syscall *)
Definition syscalls : list (option (K kstate Z)) :=
  [ None;
    Some sys_fork; Some sys_exit; Some sys_wait;
    Some (sys_pipe kend uninit);
    Some (sys_read devread uninit);
    Some sys_kill;
    Some (sys_exec kend devread);
    Some (sys_fstat uninit);
    Some (sys_chdir devread);
    Some sys_dup;
    Some sys_getpid; Some sys_sbrk; Some sys_sleep; Some sys_uptime;
    Some (sys_open kend devread devwrite);
    Some (sys_write devwrite uninit);
    Some (sys_mknod devread devwrite);
    Some (sys_unlink devread devwrite);
    Some (sys_link devread devwrite);
    Some (sys_mkdir devread devwrite);
    Some (sys_close kend);
    Some sys_triggerpanic ].

Definition set_cur_tf (g : trapframe → trapframe) : K kstate unit :=
  ip <- myproc;; upd_kproc (fst ip) (λ p, set_tf (g (p_tf p)) p).

(** The functions of the table are declared to return addr_t.  Those that return an int leave
    the upper half of the register to the compiler; here it has the sign of the int. *)
Definition syscall (tf : trapframe) : K kstate unit :=
  ip <- myproc;;
  upd_kproc (fst ip) (set_tf tf) ;;;
  let num := rax tf in
  match (if (0 <? num) && (num <? Z.of_nat (length syscalls))
         then syscalls !!! Z.to_nat num else None) with
  | Some f => r <- f;; set_cur_tf (set_rax (u64 r))
  | None =>
      kprintf (str "%d %s: unknown sys call %d" ++ [10])
        [Va_num (p_pid (snd ip)); Va_str (Some (p_name (snd ip))); Va_num num] ;;;
      set_cur_tf (set_rax (u64 (-1)))
  end ;;;
  ip <- myproc;;
  if p_killed (snd ip) then exit else ret tt.

(** ** trap.c *)

(** The 16 bytes of gate [n], as four 32-bit words. *)
Definition mkgate (idt : list Z) (n : nat) (kva pl : Z) : list Z :=
  let k := (n * 4)%nat in
  let idt := <[(k + 0)%nat := u32 (Z.lor (Z.land kva 0xFFFF) (Z.shiftl KERNEL_CS 16))]> idt in
  let idt := <[(k + 1)%nat := u32 (Z.lor (Z.lor (Z.land kva 0xFFFF0000) 0x8E00)
                                    (Z.shiftl (Z.land pl 3) 13))]> idt in
  let idt := <[(k + 2)%nat := u32 (Z.shiftr kva 32)]> idt in
  <[(k + 3)%nat := 0]> idt.

(** The table that tvinit fills, for the entry points [vectors] of vectors.S. *)
Fixpoint tvinit_loop (k n : nat) (vectors : nat → Z) (idt : list Z) : list Z :=
  match k with
  | O => idt
  | S k => tvinit_loop k (S n) vectors (mkgate idt n (vectors n) 0)
  end.

Definition tvinit (vectors : nat → Z) : K kstate (Z * list Z) :=
  idt <- in_mem kalloc;;
  ret (idt, tvinit_loop 256 0 vectors (replicate 1024 0)).

(** The interrupt handlers of the drivers; [cpu] is the processor's number and [cr2] the
    register with the address of the last page fault.  lapiceoi writes a register. *)
Variables cpu cr2 : Z.
Variables ideintr kbdintr uartintr : K kstate unit.

(** The crash report of a user program. *)
Definition crash_report (p : proc) (tf : trapframe) : K kstate unit :=
  kprintf ([10] ++ str "=== XV6 USER CRASH REPORT ===" ++ [10]) [] ;;;
  kprintf (str "Process: %s (pid %d)" ++ [10]) [Va_str (Some (p_name p)); Va_num (p_pid p)] ;;;
  kprintf (str "Trap: %d (Error: %d)" ++ [10]) [Va_num (trapno tf); Va_num (err tf)] ;;;
  kprintf (str "RIP: %p RSP: %p" ++ [10]) [Va_num (rip tf); Va_num (rsp tf)] ;;;
  kprintf (str "RAX: %p RBX: %p RCX: %p RDX: %p" ++ [10])
    [Va_num (rax tf); Va_num (rbx tf); Va_num (rcx tf); Va_num (rdx tf)] ;;;
  kprintf (str "RDI: %p RSI: %p RBP: %p" ++ [10]) [Va_num (rdi tf); Va_num (rsi tf); Va_num (rbp tf)] ;;;
  kprintf (str "=== END REPORT ===" ++ [10]) [].

(** The default case of the switch. *)
Definition trap_unexpected (tf : trapframe) : K kstate unit :=
  c <- gets k_core;;
  let cur := i ← c_cur c; p ← c_procs c !! i; Some (i, p) in
  match cur with
  | Some (i, p) =>
      if Z.land (cs tf) 3 =? 0 then
        kprintf (str "unexpected trap %d from cpu %d rip %p (cr2=0x%p)" ++ [10])
          [Va_num (trapno tf); Va_num cpu; Va_num (rip tf); Va_num cr2] ;;;
        kprintf (str "proc id: %d" ++ [10]) [Va_num (p_pid p)] ;;;
        panic "trap"
      else
        crash_report p tf ;;;
        kprintf (str "pid %d %s: trap %d err %d on cpu %d rip 0x%p addr 0x%p--kill proc" ++ [10])
          [Va_num (p_pid p); Va_str (Some (p_name p)); Va_num (trapno tf); Va_num (err tf);
           Va_num cpu; Va_num (rip tf); Va_num cr2] ;;;
        upd_kproc i (set_killed true)
  | None =>
      kprintf (str "unexpected trap %d from cpu %d rip %p (cr2=0x%p)" ++ [10])
        [Va_num (trapno tf); Va_num cpu; Va_num (rip tf); Va_num cr2] ;;;
      panic "trap"
  end.

(** The cases of the switch. *)
Definition trap_dispatch (tf : trapframe) : K kstate unit :=
  if trapno tf =? T_IRQ0 + IRQ_TIMER then
    (if cpu =? 0 then
       k_locks (acquire Lk_ticks) ;;;
       modify (λ s, set_ticks (u32 (k_ticks s + 1)) s) ;;;
       k_locks (wakeup Ch_ticks) ;;;
       k_locks (release Lk_ticks)
     else ret tt)
  else if trapno tf =? T_IRQ0 + IRQ_IDE then ideintr
  else if trapno tf =? T_IRQ0 + IRQ_IDE + 1 then ret tt
  else if trapno tf =? T_IRQ0 + IRQ_KBD then kbdintr
  else if trapno tf =? T_IRQ0 + IRQ_COM1 then uartintr
  else if (trapno tf =? T_IRQ0 + 7) || (trapno tf =? T_IRQ0 + IRQ_SPURIOUS) then
    kprintf (str "cpu%d: spurious interrupt at %p:%p" ++ [10]) [Va_num cpu; Va_num (cs tf); Va_num (rip tf)]
  else trap_unexpected tf.

(** The current process, when there is one, with its index. *)
Definition cur_proc : K kstate (option (nat * proc)) :=
  c <- gets k_core;;
  ret (i ← c_cur c; p ← c_procs c !! i; Some (i, p)).

Definition exit_if_killed (tf : trapframe) : K kstate unit :=
  x <- cur_proc;;
  match x with
  | Some (_, p) => if p_killed p && (Z.land (cs tf) 3 =? DPL_USER) then exit else ret tt
  | None => ret tt
  end.

Definition trap (tf : trapframe) : K kstate unit :=
  trap_dispatch tf ;;;
  exit_if_killed tf ;;;
  x <- cur_proc;;
  match x with
  | Some (_, p) =>
      if bool_decide (p_state p = RUNNING) && (trapno tf =? T_IRQ0 + IRQ_TIMER) then yield else ret tt
  | None => ret tt
  end ;;;
  exit_if_killed tf.
End trap.
