(* ===== verification/KernelCalls.v ===== *)
(** * Every system call keeps the invariant of the kernel *)

From S2P Require Import Prelude Params CString Core Pipe Kalloc Vm Bio Log BlockStore Fs Frame Kernel File Proc KernelInv Syscall Exec SysFile FileInv Trap.

Section calls.
Variable N : nat.
Variable kend : Z.
Variable devread : Z → option (nat → Z → Z → K (fstate lstate) (Z * list Z)).
Variable devwrite : Z → option (nat → Z → list Z → Z → K (fstate lstate) Z).
Variable uninit : Z.
Hypothesis Hread : ∀ major f ip off n h, devread major = Some f → tri fs_view h (f ip off n) h.
Hypothesis Hwrite : ∀ major f ip off src n h, devwrite major = Some f → tri fs_view h (f ip off src n) h.
Local Abbreviation ktri := (ktri N).

(** ** file.c *)
Lemma ktri_filestat f h g : ktri h g (filestat f) h (λ _, g).
Proof. unfold filestat. k_auto. Qed.
Lemma ktri_fileread f n h g : ktri h g (fileread devread f n) h (λ _, g).
Proof. unfold fileread. k_auto. Qed.
Lemma ktri_filewrite_loop fuel f ip addr n i h g : ktri h g (filewrite_loop devwrite fuel f ip addr n i) h (λ _, g).
Proof. revert i. induction fuel; intros i; cbn [filewrite_loop]; k_auto. Qed.
#[local] Hint Resolve ktri_filestat ktri_fileread ktri_filewrite_loop : frame.
Lemma ktri_filewrite f addr n h g : ktri h g (filewrite devwrite f addr n) h (λ _, g).
Proof. unfold filewrite. k_auto. Qed.
#[local] Hint Resolve ktri_filewrite : frame.

Lemma ktri_close_opt f h g :
  ktri h g (match f with Some f => fileclose kend f | None => ret tt end) h (λ _, addopt f (-1) g).
Proof. destruct f; k_auto. Qed.
#[local] Hint Resolve ktri_close_opt : frame.

Definition two_refs (r : option (nat * nat)) (g : ghost) : ghost :=
  match r with Some (f0, f1) => addref f1 1 (addref f0 1 g) | None => g end.

Lemma two_refs_forget r g g' : forgets g g' → forgets (two_refs r g) (two_refs r g').
Proof. intros [Hr Hk Ha Ho Hv]. destruct r as [[f0 f1]|]; split; try done. intros x. cbn. by rewrite Hr. Qed.

Lemma ktri_pipealloc_bad p f0 f1 h g :
  ktri h g (pipealloc_bad kend p f0 f1) h (λ r, two_refs r (addopt f1 (-1) (addopt f0 (-1) g))).
Proof.
  unfold pipealloc_bad. eapply ktri_bind; [k_auto|intro; cbv beta].
  eapply ktri_bind; [apply ktri_close_opt|intro; cbv beta].
  eapply ktri_bind; [apply ktri_close_opt|intro; cbv beta]. k_auto.
Qed.

Lemma ktri_pipealloc h g : ktri h g (pipealloc kend) h (λ r, two_refs r g).
Proof.
  unfold pipealloc. eapply ktri_bind; [apply ktri_filealloc|intros [f0|]; cbv beta].
  2: { eapply ktri_forget; [apply ktri_pipealloc_bad|]. intros r. apply two_refs_forget. done. }
  eapply ktri_bind; [apply ktri_filealloc|intros [f1|]; cbv beta].
  2: { eapply ktri_forget; [apply ktri_pipealloc_bad|]. intros r. apply two_refs_forget. by apply addref_addref. }
  eapply ktri_bind; [k_auto|intros p; cbv beta]. destruct (p =? 0).
  { eapply ktri_forget; [apply ktri_pipealloc_bad|]. intros r. apply two_refs_forget.
    split; try done. intros x. cbn. repeat destruct (decide _); lia. }
  k_auto.
Qed.


(** ** syscall.c *)
Lemma ktri_uload va n h g : ktri h g (uload va n) h (λ _, g).
Proof. unfold uload. k_auto. Qed.
Lemma ktri_ustore va bs h g : ktri h g (ustore va bs) h (λ _, g).
Proof. unfold ustore. k_auto. Qed.
#[local] Hint Resolve ktri_uload ktri_ustore : frame.
Lemma ktri_fetchaddr a h g : ktri h g (fetchaddr a) h (λ _, g).
Proof. unfold fetchaddr. k_auto. Qed.
Lemma ktri_fetchstr_loop fuel s ep acc h g : ktri h g (fetchstr_loop fuel s ep acc) h (λ _, g).
Proof. revert s acc. induction fuel; intros s acc; cbn [fetchstr_loop]; k_auto. Qed.
#[local] Hint Resolve ktri_fetchaddr ktri_fetchstr_loop : frame.
Lemma ktri_fetchstr a h g : ktri h g (fetchstr a) h (λ _, g).
Proof. unfold fetchstr. k_auto. Qed.
Lemma ktri_fetcharg n h g : ktri h g (fetcharg n) h (λ _, g).
Proof. unfold fetcharg. k_auto. Qed.
#[local] Hint Resolve ktri_fetchstr ktri_fetcharg : frame.
Lemma ktri_argint n h g : ktri h g (argint n) h (λ _, g).
Proof. unfold argint. k_auto. Qed.
Lemma ktri_argaddr n h g : ktri h g (argaddr n) h (λ _, g).
Proof. unfold argaddr. k_auto. Qed.
#[local] Hint Resolve ktri_argint ktri_argaddr : frame.
Lemma ktri_argptr n sz h g : ktri h g (argptr n sz) h (λ _, g).
Proof. unfold argptr. k_auto. Qed.
Lemma ktri_argstr n h g : ktri h g (argstr n) h (λ _, g).
Proof. unfold argstr. k_auto. Qed.
Lemma ktri_argfd n h g : ktri h g (argfd n) h (λ _, g).
Proof. unfold argfd. k_auto. Qed.
#[local] Hint Resolve ktri_argptr ktri_argstr ktri_argfd : frame.

Lemma fetcharg_inv n s v s' : fetcharg n s = Done v s' → s' = s.
Proof.
  unfold fetcharg, bind. destruct (myproc s) as [r s1| |] eqn:E; [|done|done].
  apply myproc_inv in E as (-> & _). repeat (destruct (_ =? _); [by intros [= _ <-]|]). done.
Qed.

(** argfd only reads, and what it gives is a descriptor of the current process. *)
Lemma argfd_inv n s r s' :
  argfd n s = Done r s' → s' = s ∧ ∀ fd f, r = Some (fd, f) →
    ∃ i p, c_cur (k_core s) = Some i ∧ c_procs (k_core s) !! i = Some p ∧ p_ofile p !! fd = Some (Some f).
Proof.
  unfold argfd, argint, bind. destruct (fetcharg n s) as [v s1| |] eqn:E; [|done|done].
  apply fetcharg_inv in E as ->. unfold ret at 1. destruct (myproc s) as [[i p] s1| |] eqn:E; [|done|done].
  apply myproc_inv in E as (-> & Hc & Hp). cbn [fst snd] in *.
  destruct (_ || _); [by intros [= <- <-]|]. destruct (p_ofile p !! _) as [[f|]|] eqn:Ef; intros [= <- <-]; [|done|done].
  split; [done|]. intros fd x [= <- <-]. by exists i, p.
Qed.

(** ** sysfile.c: descriptors *)
Lemma ktri_sys_dup h g : plain g → ktri h g sys_dup h (λ _, g).
Proof.
  intros Hg s a s' Hok. revert a s'. unfold sys_dup, bind at 1.
  destruct (argfd 0 s) as [r s1| |] eqn:E; [|done|done]. apply argfd_inv in E as (-> & Hr).
  destruct r as [[fd f]|]; [|by intros a s' [= _ <-]].
  destruct (Hr fd f eq_refl) as (i & p & _ & Hp & Hf). pose proof (ko_range _ _ _ _ Hok i p fd f Hp Hf) as HfN.
  eapply from_ktri; [exact Hok|]. eapply ktri_bind; [by apply ktri_fdalloc|intros x; cbv beta].
  destruct (x <? 0); [k_auto|]. eapply ktri_bind; [k_auto|intro; cbv beta].
  eapply ktri_forget; [k_auto|]. intros ?. by apply addref_addref.
Qed.

Lemma ktri_sys_close h g : plain g → ktri h g (sys_close kend) h (λ _, g).
Proof.
  intros [Hv Hkn] s a s' Hok. revert a s'. unfold sys_close, bind at 1.
  destruct (argfd 0 s) as [r s1| |] eqn:E; [|done|done]. apply argfd_inv in E as (-> & Hr).
  destruct r as [[fd f]|]; [|by intros a s' [= _ <-]].
  destruct (Hr fd f eq_refl) as (i & p & Hc & Hp & Hf).
  unfold bind at 1. destruct (myproc s) as [[j q] s1| |] eqn:E; [|done|done].
  apply myproc_inv in E as (-> & Hc' & _). cbn [fst] in *. rewrite Hc in Hc'. injection Hc' as <-.
  unfold bind at 1, upd_kproc at 1, modify.
  eapply from_ktri; [eapply (kernel_ok_set_fd _ _ _ _ i p fd (Some f) None); [exact Hok|done|done|done|done]|].
  eapply ktri_bind; [k_auto|intro; cbv beta]. eapply ktri_forget; [k_auto|]. intros ?.
  split; try done; cbn; [intros x; destruct (decide (x = f)); lia|]. intros j k o. by rewrite Hkn.
Qed.

Lemma ktri_sys_read h g : ktri h g (sys_read devread uninit) h (λ _, g).
Proof. unfold sys_read. k_auto. Qed.
Lemma ktri_sys_write h g : ktri h g (sys_write devwrite uninit) h (λ _, g).
Proof. unfold sys_write. k_auto. Qed.
Lemma ktri_sys_fstat h g : ktri h g (sys_fstat uninit) h (λ _, g).
Proof. unfold sys_fstat, store_stat. k_auto. Qed.

(** ** sysfile.c: directories *)
Lemma ktri_upd_in ip f h g : ktri h g (upd_in ip f) h (λ _, g).
Proof. unfold upd_in. k_auto. Qed.
Lemma ktri_inode_at ip h g : ktri h g (inode_at ip) h (λ _, g).
Proof. unfold inode_at. k_auto. Qed.
#[local] Hint Resolve ktri_upd_in ktri_inode_at : frame.
Lemma ktri_isdirempty_loop fuel dp off h g : ktri h g (isdirempty_loop devread fuel dp off) h (λ _, g).
Proof. revert off. induction fuel; intros off; cbn [isdirempty_loop]; k_auto. Qed.
#[local] Hint Resolve ktri_isdirempty_loop : frame.
Lemma ktri_sys_link h g : ktri h g (sys_link devread devwrite) h (λ _, g).
Proof. unfold sys_link, link_same_dev, link_bad. k_auto. Qed.
Lemma ktri_sys_unlink h g : ktri h g (sys_unlink devread devwrite) h (λ _, g).
Proof. unfold sys_unlink, unlink_entry, unlink_bad, isdirempty. k_auto. Qed.
Lemma ktri_create path ty ma mi h g : ktri h g (create devread devwrite path ty ma mi) h (λ _, g).
Proof. unfold create, create_new, create_dots. k_auto. Qed.
#[local] Hint Resolve ktri_create : frame.
Lemma ktri_sys_mkdir h g : ktri h g (sys_mkdir devread devwrite) h (λ _, g).
Proof. unfold sys_mkdir. k_auto. Qed.
Lemma ktri_sys_mknod h g : ktri h g (sys_mknod devread devwrite) h (λ _, g).
Proof. unfold sys_mknod. k_auto. Qed.
Lemma ktri_sys_chdir h g : ktri h g (sys_chdir devread) h (λ _, g).
Proof. unfold sys_chdir. k_auto. Qed.
Lemma ktri_open_inode path omode h g : ktri h g (open_inode devread devwrite path omode) h (λ _, g).
Proof. unfold open_inode. k_auto. Qed.
#[local] Hint Resolve ktri_open_inode : frame.

Lemma ktri_open_bad f ip h g : ktri h g (open_bad kend f ip) h (λ _, addopt f (-1) g).
Proof. unfold open_bad. eapply ktri_bind; [apply ktri_close_opt|intro; cbv beta]. k_auto. Qed.

Lemma ktri_sys_open h : ktri h g0 (sys_open kend devread devwrite) h (λ _, g0).
Proof.
  unfold sys_open. eapply ktri_bind; [k_auto|intros [path|]; cbv beta]; [|k_auto].
  do 3 (eapply ktri_bind; [k_auto|intro; cbv beta]). k_step; [|k_auto].
  eapply ktri_bind; [k_auto|intros [f|]; cbv beta]; [|k_auto; apply ktri_open_bad].
  apply (ktri_use N (f < N)%nat); [intros s Hok; apply (ko_grange _ _ _ _ Hok); cbn; by rewrite decide_True|].
  intros Hf. eapply ktri_bind; [by apply ktri_fdalloc|intros fd; cbv beta].
  destruct (fd <? 0).
  - eapply ktri_forget; [apply ktri_open_bad|]. intros ?. by apply addref_addref.
  - eapply ktri_forget; [|intros ?; apply (addref_addref f (-1) 1 g0 eq_refl)]. k_auto.
Qed.

(** ** sysfile.c: pipe and exec *)

(** The descriptor of the read end is freed again. *)
Lemma from_pipe_bad h g s i fd rf wf :
  kernel_ok N h g s → c_cur (k_core s) = Some i → g_known g i fd = Some (Some rf) →
  from_state N s (pipe_bad kend (Z.of_nat fd) rf wf) h
    (λ _, addref wf (-1) (addref rf (-1) (learn i fd None (addref rf 1 g)))).
Proof.
  intros Hok Hc Hkn. unfold pipe_bad. rewrite (proj2 (Z.leb_le _ _)) by lia. rewrite Nat2Z.id.
  intros a s'. rewrite bind_assoc. revert a s'. unfold bind at 1.
  destruct (myproc s) as [[j q] s1| |] eqn:E; [|done|done].
  apply myproc_inv in E as (-> & Hc' & Hq). cbn [fst snd] in *. rewrite Hc in Hc'. injection Hc' as <-.
  unfold bind at 1, upd_kproc at 1, modify. eapply from_ktri; [|k_auto].
  eapply (kernel_ok_set_fd _ _ _ _ i q fd (Some rf) None); [exact Hok|done|by eapply ko_known|done|done].
Qed.

Lemma ktri_sys_pipe h : ktri h g0 (sys_pipe kend uninit) h (λ _, g0).
Proof.
  unfold sys_pipe. eapply ktri_bind; [k_auto|intros rp; cbv beta]. k_step; [k_auto|].
  eapply ktri_bind; [apply ktri_pipealloc|intros [[rf wf]|]; cbv beta]; [|k_auto].
  apply (ktri_use N ((rf < N)%nat ∧ (wf < N)%nat)).
  { intros s Hok. split; apply (ko_grange _ _ _ _ Hok); cbn; repeat destruct (decide _); try done; lia. }
  intros [Hrf Hwf] s a s' Hok. revert a s'. unfold bind at 1.
  destruct (fdalloc rf s) as [fd0 s1| |] eqn:E; [|done|done].
  apply fdalloc_inv in E as [(-> & ->)|(i & p & fd & -> & Hc & Hp & Hfd & ->)].
  { rewrite (proj2 (Z.ltb_lt (-1) 0)) by lia. eapply from_ktri; [exact Hok|]. unfold pipe_bad. change (0 <=? -1) with false. cbv iota.
    eapply ktri_forget; [k_auto|]. intros ?. split; try done. intros x. cbn. repeat destruct (decide _); lia. }
  rewrite (proj2 (Z.ltb_ge (Z.of_nat fd) 0)) by lia.
  assert (Hok1 := kernel_ok_set_fd _ _ _ _ i p fd None (Some rf) Hok Hp Hfd).
  specialize (Hok1 ltac:(by intros x [= <-]) (λ _, ko_alive _ _ _ _ Hok i p Hp (or_intror (conj eq_refl Hc)))).
  cbn [addopt] in Hok1. set (s1 := set_kcore _ s) in *. unfold bind at 1.
  destruct (fdalloc wf s1) as [fd1 s2| |] eqn:E; [|done|done].
  pose proof E as [(-> & ->)|(i2 & p2 & fd2 & -> & Hc2 & Hp2 & Hfd2 & ->)]%fdalloc_inv.
  - rewrite (proj2 (Z.ltb_lt (-1) 0)) by lia. intros a s' E'.
    eapply kernel_ok_forget; [|eapply (from_pipe_bad h _ s1 i fd rf wf Hok1 Hc); [|exact E']].
    + split; try done. intros x. cbn. repeat destruct (decide _); lia.
    + cbn. by rewrite decide_True.
  - rewrite (proj2 (Z.ltb_ge (Z.of_nat fd2) 0)) by lia. eapply from_ktri; [|k_auto].
    eapply kernel_ok_forget; [|eapply (kernel_ok_set_fd _ _ _ _ i2 p2 fd2 None (Some wf) Hok1 Hp2 Hfd2)].
    + split; try done. intros x. cbn. repeat destruct (decide _); lia.
    + by intros x [= <-].
    + intros _. apply (ko_alive _ _ _ _ Hok1 i2 p2 Hp2). by right.
Qed.

Lemma ktri_switchuvm p h g : ktri h g (switchuvm p) h (λ _, g).
Proof. unfold switchuvm. k_auto. Qed.
#[local] Hint Resolve ktri_switchuvm : frame.
Lemma ktri_loaduvm_loop fuel pgdir addr ip off sz i h g :
  ktri h g (loaduvm_loop devread fuel pgdir addr ip off sz i) h (λ _, g).
Proof. revert i. induction fuel; intros i; cbn [loaduvm_loop]; k_auto. Qed.
#[local] Hint Resolve ktri_loaduvm_loop : frame.
Lemma ktri_exec_segments k pgdir ip off sz h g :
  ktri h g (exec_segments kend devread k pgdir ip off sz) h (λ _, g).
Proof. revert off sz. induction k; intros off sz; cbn [exec_segments]; unfold exec_segment, loaduvm; k_auto. Qed.
Lemma ktri_push_args argv argc pgdir sp us h g : ktri h g (push_args argv argc pgdir sp us) h (λ _, g).
Proof. revert argc sp us. induction argv; intros argc sp us; cbn [push_args]; k_auto. Qed.
#[local] Hint Resolve ktri_exec_segments ktri_push_args : frame.
Lemma ktri_exec_bad pgdir ip h g : ktri h g (exec_bad kend pgdir ip) h (λ _, g).
Proof. unfold exec_bad. k_auto. Qed.
#[local] Hint Resolve ktri_exec_bad : frame.
Lemma ktri_exec_commit path argv elf pgdir old sz h g :
  ktri h g (exec_commit kend path argv elf pgdir old sz) h (λ _, g).
Proof. unfold exec_commit. k_auto. Qed.
#[local] Hint Resolve ktri_exec_commit : frame.
Lemma ktri_exec path argv h g : ktri h g (exec kend devread path argv) h (λ _, g).
Proof. unfold exec. k_auto. Qed.
#[local] Hint Resolve ktri_exec : frame.
Lemma ktri_fetch_args k uargv i argv h g : ktri h g (fetch_args k uargv i argv) h (λ _, g).
Proof. revert i argv. induction k; intros i argv; cbn [fetch_args]; k_auto. Qed.
#[local] Hint Resolve ktri_fetch_args : frame.
Lemma ktri_sys_exec h g : ktri h g (sys_exec kend devread) h (λ _, g).
Proof. unfold sys_exec. k_auto. Qed.
End calls.
#[export] Hint Resolve ktri_switchuvm ktri_uload ktri_argint ktri_argaddr ktri_sys_dup ktri_sys_close ktri_sys_read
  ktri_sys_write ktri_sys_fstat ktri_sys_link ktri_sys_unlink ktri_sys_mkdir ktri_sys_mknod ktri_sys_chdir
  ktri_sys_open ktri_sys_exec ktri_sys_pipe : frame.
