(* ===== verification/ProcInv.v ===== *)
(** * Processes keep the invariant of the kernel; the invariant over system calls *)

From S2P Require Import Prelude Params CString Core Pipe Kalloc Vm Bio Log BlockStore Fs Frame Kernel File Proc ProcSched KernelInv Syscall Exec SysFile FileInv Trap KernelCalls.

(** ** Learning about processes *)
Lemma kernel_ok_free N h g s i p :
  kernel_ok N h g s → c_procs (k_core s) !! i = Some p → dead p → kernel_ok N h (learn_free i NOFILE g) s.
Proof.
  intros Hok Hp Hd. split; try apply Hok.
  - intros j q fd o Hq. cbn. destruct (decide _) as [[-> Hfd]|]; [|by eapply ko_known]. intros [= <-].
    rewrite Hp in Hq. injection Hq as <-.
    destruct (lookup_lt_is_Some_2 (p_ofile p) fd) as [o Ho]; [by rewrite (ko_nofile _ _ _ _ Hok i p Hp)|].
    rewrite Ho. f_equal. by eapply ko_dead.
  - intros j Hj. destruct (decide (j = i)) as [->|Hne]; [by eapply lookup_lt_Some|].
    apply (ko_exists _ _ _ _ Hok). destruct Hj as [?|(k & x & Hx)]; [by left|right]. exists k, x. cbn in Hx.
    by rewrite decide_False in Hx by naive_solver.
Qed.

Lemma kernel_ok_other N h g s i p :
  kernel_ok N h g s → g_live g = true → c_procs (k_core s) !! i = Some p → dead p → kernel_ok N h (other i g) s.
Proof.
  intros Hok Hv Hp Hd. split; try apply Hok. intros j. cbn.
  destruct (bool_decide_reflect (j = i)) as [->|]; [|apply (ko_other _ _ _ _ Hok)].
  intros _ Hc. by apply (ko_alive _ _ _ _ Hok i p Hp); [right|].
Qed.

(** A process whose descriptors are known to be free dies. *)
Lemma ktri_set_dead N i st h g live :
  (∀ fd, (fd < NOFILE)%nat → g_known g i fd = Some None) →
  (live = true → g_live g = true ∧ g_other g i = true) →
  ktri N h g (upd_kproc i (set_state st)) h (λ _, dies i live g).
Proof.
  intros Hkn Hlv s a s' [Hh Hn Hl Hr Hnf Hg Hd Hk Hal Hot Hex Hgr] [= <- <-].
  set (ps' := alter (set_state st) i (c_procs (k_core s))).
  assert (Hps : ∀ j q, ps' !! j = Some q → ∃ p, c_procs (k_core s) !! j = Some p ∧ p_ofile q = p_ofile p ∧ (j = i ∨ q = p)).
  { intros j q. unfold ps'. destruct (decide (j = i)) as [->|].
    - rewrite list_lookup_alter_eq. destruct (c_procs (k_core s) !! i) as [p|]; [|done]. intros [= <-]. exists p. auto.
    - rewrite list_lookup_alter_ne by done. intros Hq. exists q. auto. }
  assert (Hnr : ∀ f, nrefs f ps' = nrefs f (c_procs (k_core s))).
  { intros f. unfold ps'. destruct (c_procs (k_core s) !! i) as [p|] eqn:E.
    - pose proof (nrefs_alter f _ i p (set_state st) E) as E1.
      change (p_ofile (set_state st p)) with (p_ofile p) in E1. lia.
    - f_equal. apply list_eq. intros j. destruct (decide (j = i)) as [->|].
      + by rewrite list_lookup_alter_eq, E.
      + by rewrite list_lookup_alter_ne. }
  split; [done|done|done|..]; change (c_procs (k_core (set_kcore _ s))) with ps'.
  - intros f Hf. rewrite Hnr. by apply Hr.
  - intros j q (p & Hp & -> & _)%Hps. by eapply Hnf.
  - intros j q fd f (p & Hp & -> & _)%Hps. by eapply Hg.
  - intros j q fd o (p & Hp & -> & [->| ->])%Hps Hdd Ho; [|by eapply Hd].
    assert (Hfd : (fd < NOFILE)%nat) by (rewrite <- (Hnf i p Hp); by eapply lookup_lt_Some).
    pose proof (Hk i p fd None Hp (Hkn fd Hfd)) as E. rewrite Ho in E. by injection E.
  - intros j q fd o (p & Hp & -> & _)%Hps. by eapply Hk.
  - intros j q (p & Hp & _ & Hj)%Hps. cbn. destruct (bool_decide_reflect (j = i)) as [->|Hne]; cbn.
    + intros [?|[Hv Hc]]; [done|]. exfalso. destruct (Hlv Hv) as [_ Ho]. by apply (Hot i Ho).
    + destruct Hj as [?| ->]; [done|]. intros [Ha|[Hv Hc]]; apply (Hal j p Hp); [by left|right]. split; [by apply Hlv|done].
  - done.
  - intros j. cbn. unfold ps'. rewrite length_alter. intros [[_ Ha]%andb_true_iff|Hj]; apply Hex; auto.
  - done.
Qed.

(** ** Computations on the locks and processes that keep the descriptors *)
Definition soft {A} (m : K core A) : Prop :=
  ∀ c a c', m c = Done a c' →
    c_held c' = c_held c ∧ c_cur c' = c_cur c ∧ Forall2 same_files (c_procs c) (c_procs c').

#[local] Instance same_files_trans : Transitive same_files.
Proof. intros p q r [Ha Hb] [Hc Hd]. split; [congruence|auto]. Qed.

Lemma same_files_refl ps : Forall2 same_files ps ps.
Proof. by apply Forall_Forall2_diag, Forall_true. Qed.

Lemma soft_ret {A} (a : A) : soft (ret a).
Proof. intros c a' c' [= <- <-]. split; [done|]. split; [done|]. apply same_files_refl. Qed.
Lemma soft_get : soft get.
Proof. intros c a' c' [= <- <-]. split; [done|]. split; [done|]. apply same_files_refl. Qed.
Lemma soft_bind {A B} (m : K core A) (k : A → K core B) : soft m → (∀ a, soft (k a)) → soft (bind m k).
Proof.
  intros Hm Hk c b c2. unfold bind. destruct (m c) as [a c1| |] eqn:E; [|done|done]. intros E'.
  destruct (Hm c a c1 E) as (H1 & H2 & H3). destruct (Hk a c1 b c2 E') as (H4 & H5 & H6).
  split; [congruence|]. split; [congruence|]. by etrans.
Qed.
Lemma soft_wakeup1 ch : soft (wakeup1 ch).
Proof.
  intros c a c' [= <- <-]. split; [done|]. split; [done|]. cbn. apply Forall2_fmap_r.
  apply Forall_Forall2_diag, Forall_true. intros p. apply stepped_same_files, wakeup1_stepped.
Qed.
Lemma soft_set_parent j x : soft (modify (upd_proc j (set_parent x))).
Proof.
  intros c a c' [= <- <-]. split; [done|]. split; [done|]. cbn.
  apply Forall2_same_length_lookup. split; [by rewrite length_alter|].
  intros k p p' Hp Hp'. destruct (decide (k = j)) as [->|].
  - rewrite list_lookup_alter_eq, Hp in Hp'. by injection Hp' as <-.
  - rewrite list_lookup_alter_ne, Hp in Hp' by done. by injection Hp' as <-.
Qed.

Lemma soft_reparent k j i init : soft (reparent k j i init).
Proof.
  revert j. induction k as [|k IH]; intros j; cbn [reparent]; [apply soft_ret|].
  apply soft_bind; [apply soft_get|]. intros c. apply soft_bind; [|intros _; apply IH].
  destruct (c_procs c !! j) as [p|]; [|apply soft_ret]. destruct (bool_decide _); [|apply soft_ret].
  apply soft_bind; [apply soft_set_parent|]. intros _. destruct (bool_decide _); [apply soft_wakeup1|apply soft_ret].
Qed.

Lemma ktri_soft N {A} (m : K core A) h g : soft m → ktri N h g (k_locks m) h (λ _, g).
Proof.
  intros Hm s a s' Hok. unfold k_locks, in_fs, fs_core, in_st, zoom.
  destruct (m (st_core (fs_st (k_fs s)))) as [b c| |] eqn:E; [|done|done]. intros [= <- <-].
  destruct (Hm _ _ _ E) as (H1 & H2 & H3). pose proof Hok as [Hh Hn _ _ _ _ _ _ _ _ _ _].
  apply (kernel_ok_procs N h h g s); [done| |done|done|exact H2|exact H3].
  rewrite <- Hh. exact H1.
Qed.

(** ** proc.c *)
Lemma find_state_spec st l j i :
  find_state st l j = Some i → (j ≤ i)%nat ∧ ∃ p, l !! (i - j)%nat = Some p ∧ p_state p = st.
Proof.
  revert j. induction l as [|p l IH]; intros j; [done|]. cbn [find_state].
  destruct (bool_decide_reflect (p_state p = st)) as [E|E].
  - intros [= <-]. rewrite Nat.sub_diag. split; [lia|]. by exists p.
  - intros (H1 & q & H2 & H3)%IH. split; [lia|]. exists q.
    by replace (i - j)%nat with (S (i - S j)) by lia.
Qed.

Lemma find_zombie_spec l j i hk k hk' :
  find_zombie l j i hk = (Some k, hk') → (j ≤ k)%nat ∧ ∃ p, l !! (k - j)%nat = Some p ∧ p_state p = ZOMBIE.
Proof.
  revert j hk. induction l as [|p l IH]; intros j hk; [done|]. cbn [find_zombie].
  assert (Hrec : ∀ b, find_zombie l (S j) i b = (Some k, hk') →
    (j ≤ k)%nat ∧ ∃ q, (p :: l) !! (k - j)%nat = Some q ∧ p_state q = ZOMBIE).
  { intros b (H1 & q & H2 & H3)%IH. split; [lia|]. exists q. by replace (k - j)%nat with (S (k - S j)) by lia. }
  destruct (bool_decide _); [|apply Hrec]. destruct (bool_decide_reflect (p_state p = ZOMBIE)); [|apply Hrec].
  intros [= <- _]. rewrite Nat.sub_diag. split; [lia|]. by exists p.
Qed.

(** A new process: alive, not the current one, and without open files. *)
Definition newborn (i : nat) (g : ghost) : ghost := alive i (other i (learn_free i NOFILE g)).

Section proc.
Variable N : nat.
Variable kend : Z.
Variable devread : Z → option (nat → Z → Z → K (fstate lstate) (Z * list Z)).
Variable devwrite : Z → option (nat → Z → list Z → Z → K (fstate lstate) Z).
Variable uninit : Z.
Hypothesis Hread : ∀ major f ip off n h, devread major = Some f → tri fs_view h (f ip off n) h.
Hypothesis Hwrite : ∀ major f ip off src n h, devwrite major = Some f → tri fs_view h (f ip off src n) h.
Local Abbreviation ktri := (ktri N).

Lemma kernel_ok_embryo h g s i p :
  kernel_ok N h g s → g_live g = true → c_procs (k_core s) !! i = Some p → dead p →
  kernel_ok N h (newborn i g) (set_kcore (upd_proc i (set_state EMBRYO) (k_core s)) s).
Proof.
  intros Hok Hv Hp Hd.
  pose proof (kernel_ok_other _ _ _ _ _ _ (kernel_ok_free _ _ _ _ _ _ Hok Hp Hd) Hv Hp Hd) as Hok1.
  pose proof (ktri_upd_kproc N i (set_state EMBRYO) h _ ltac:(k_side) s tt _ Hok1 eq_refl) as Hok2.
  split; try apply Hok2.
  - intros j q Hq. cbn. destruct (bool_decide_reflect (j = i)) as [->|]; cbn; [|apply (ko_alive _ _ _ _ Hok2 j q Hq)].
    change (alter (set_state EMBRYO) i (c_procs (k_core s)) !! i = Some q) in Hq.
    rewrite list_lookup_alter_eq, Hp in Hq. injection Hq as <-. by intros _ [H|H].
  - intros j Hj. destruct (decide (j = i)) as [->|Hne].
    + cbn. rewrite length_alter. by eapply lookup_lt_Some.
    + apply (ko_exists _ _ _ _ Hok2). cbn in Hj. by rewrite bool_decide_false in Hj.
Qed.

Lemma newborn_dies i live g :
  g_live g = true → (∀ j fd, g_known g j fd = None) → (∀ j, g_alive g j = false) → live = true →
  forgets (dies i live (newborn i g)) g.
Proof.
  intros Hv Hk Ha ->. split; try done; cbn.
  - intros j fd o. by rewrite Hk.
  - intros j. by rewrite Ha.
  - intros j ->. by rewrite orb_true_r.
Qed.

Lemma ktri_allocproc h : ktri h g0 allocproc h (λ r, match r with Some i => newborn i g0 | None => g0 end).
Proof.
  unfold allocproc. eapply ktri_bind; [k_auto|intro u; cbv beta].
  intros s a s' Hok. revert a s'. unfold bind at 1, gets at 1.
  destruct (find_state UNUSED (c_procs (k_core s)) 0) as [i|] eqn:E; [|eapply from_ktri; [exact Hok|k_auto]].
  apply find_state_spec in E as (_ & p & Hp & Hst). rewrite Nat.sub_0_r in Hp.
  unfold bind at 1, upd_kproc at 1, modify at 1.
  eapply from_ktri; [by eapply (kernel_ok_embryo _ _ s i p Hok); [|done|left]|].
  do 6 (eapply ktri_bind; [k_auto|intro; cbv beta]). destruct (_ =? 0); [|k_auto].
  eapply ktri_bind; [apply (ktri_set_dead N i UNUSED h (newborn i g0) true)|intro; cbv beta].
  - intros fd Hfd. cbn. by rewrite decide_True.
  - intros _. cbn. by rewrite bool_decide_true.
  - eapply ktri_pre; [by apply newborn_dies|]. k_auto.
Qed.

Lemma ktri_growproc n h g : ktri h g (growproc kend n) h (λ _, g).
Proof. unfold growproc. k_auto. Qed.

(** Copying the descriptors from [fd] on to a new process without files. *)
Lemma ktri_dup_files l fd np h g :
  (∀ f, g_refs g f = 0) → g_alive g np = true →
  (∀ k, (fd ≤ k < fd + length l)%nat → g_known g np k = Some None) →
  ktri h g (dup_files fd l np) h (λ _, Ghost (g_refs g) (λ _ _, None) (g_alive g) (g_other g) (g_live g)).
Proof.
  revert fd g. induction l as [|o l IH]; intros fd g Hr Ha Hk; cbn [dup_files].
  { eapply ktri_pre; [|apply ktri_ret]. by split. }
  assert (Hnext : ∀ g', (∀ f, g_refs g' f = 0) → g_alive g' = g_alive g → g_other g' = g_other g → g_live g' = g_live g →
    (∀ k, (S fd ≤ k)%nat → g_known g' np k = g_known g np k) →
    ktri h g' (dup_files (S fd) l np) h (λ _, Ghost (g_refs g) (λ _ _, None) (g_alive g) (g_other g) (g_live g))).
  { intros g' Hr' Ha' Ho' Hv' Hk'. eapply ktri_forget; [apply IH; [done|by rewrite Ha'|]|].
    - intros k Hlt. rewrite Hk' by lia. apply Hk. cbn [length]. lia.
    - intros u. split; cbn; [intros f; by rewrite Hr, Hr'|done|by rewrite Ha'|by rewrite Ho'|by rewrite Hv']. }
  destruct o as [f|]; [|eapply ktri_bind; [k_auto|intro; cbv beta]; by apply Hnext].
  intros s a s' Hok. rewrite bind_assoc. revert a s'. unfold bind at 1.
  destruct (filedup f s) as [f' s1| |] eqn:E; [|done|done]. pose proof (filedup_result _ _ _ _ E) as ->.
  pose proof (ktri_filedup N f h g s f s1 Hok E) as Hok1.
  assert (HfN : (f < N)%nat).
  { apply (ko_grange _ _ _ _ Hok1). cbn. rewrite decide_True by done. rewrite Hr. lia. }
  unfold bind at 1, upd_kproc at 1, modify at 1. destruct (c_procs (k_core s1) !! np) as [q|] eqn:Eq.
  - eapply from_ktri; [eapply (kernel_ok_set_fd _ _ _ _ np q fd None (Some f) Hok1 Eq)|].
    + apply (ko_known _ _ _ _ Hok1 np q fd None Eq). apply Hk. cbn [length]. lia.
    + by intros x [= <-].
    + intros _. apply (ko_alive _ _ _ _ Hok1 np q Eq). by left.
    + apply Hnext; try done; cbn.
      * intros x. destruct (decide (x = f)); rewrite Hr; lia.
      * intros k Hlt. rewrite decide_False by lia. done.
  - pose proof (ko_exists _ _ _ _ Hok1 np (or_introl Ha)) as [? Hx]%lookup_lt_is_Some_2. by rewrite Eq in Hx.
Qed.

Lemma ktri_sched_any {A} ch h g (k : unit → K kstate A) h' g' : ktri h g (x <- k_locks (sched ch);; k x) h' g'.
Proof.
  intros s a s' _. unfold bind, k_locks, in_fs, fs_core, in_st, zoom.
  destruct (sched ch _) as [u c| |] eqn:E; [|done|done]. by apply sched_not_done in E.
Qed.

Lemma ktri_fork h : ktri h g0 (fork kend) h (λ _, g0).
Proof.
  unfold fork. eapply ktri_bind; [apply ktri_allocproc|intros [np|]; cbv beta]; [|k_auto].
  intros s a s' Hok. revert a s'. unfold bind at 1. destruct (myproc s) as [[i cur] s1| |] eqn:E; [|done|done].
  apply myproc_inv in E as (-> & _ & Hp). cbn [fst snd] in Hp. pose proof (ko_nofile _ _ _ _ Hok i cur Hp) as Hlen.
  eapply from_ktri; [exact Hok|]. clear Hp.
  do 3 (eapply ktri_bind; [k_auto|intro; cbv beta]). destruct (_ =? 0).
  - do 3 (eapply ktri_bind; [k_auto|intro; cbv beta]).
    eapply ktri_bind; [apply (ktri_set_dead N np UNUSED h (newborn np g0) true)|intro; cbv beta].
    + intros fd Hfd. cbn. by rewrite decide_True.
    + intros _. cbn. by rewrite bool_decide_true.
    + eapply ktri_pre; [by apply newborn_dies|]. k_auto.
  - do 3 (eapply ktri_bind; [k_auto|intro; cbv beta]).
    eapply ktri_bind; [apply ktri_dup_files|intro; cbv beta].
    + done.
    + cbn. by rewrite bool_decide_true.
    + rewrite Hlen. intros k Hk. cbn. rewrite decide_True; [done|lia].
    + eapply ktri_pre; [|k_auto]. by split.
Qed.

(** ** exit *)
Lemma ktri_close_files k fd i h g :
  g_alive g i = true → (∀ j x, g_known g j x ≠ None → g_known g j x = Some None) → (fd + k = NOFILE)%nat →
  (∀ x, (x < fd)%nat → g_known g i x = Some None) →
  ktri h g (close_files kend k fd i) h (λ _, learn_free i NOFILE g).
Proof.
  revert fd g. induction k as [|k IH]; intros fd g Ha Hg Hfd Hk; cbn [close_files].
  { eapply ktri_pre; [|apply ktri_ret]. split; try done. intros j x o. cbn.
    destruct (decide _) as [[-> Hx]|]; [|done]. intros [= <-]. apply Hk. lia. }
  intros s a s' Hok. revert a s'. unfold bind at 1, gets at 1.
  assert (Hstep : ∀ s1, kernel_ok N h (learn i fd None g) s1 →
    from_state N s1 (close_files kend k (S fd) i) h (λ _, learn_free i NOFILE g)).
  { intros s1 Hok1. eapply from_ktri; [exact Hok1|]. eapply ktri_forget; [apply IH|].
    - done.
    - intros j x. cbn. destruct (decide _); [done|apply Hg].
    - lia.
    - intros x Hx. cbn. destruct (decide _) as [|Hne]; [done|]. apply Hk. lia.
    - intros u. split; try done. intros j x o. cbn. destruct (decide (j = i ∧ _)) as [[-> Hx]|Hne].
      + done.
      + rewrite (decide_False (P := j = i ∧ x = fd)) by lia. done. }
  destruct (lookup_lt_is_Some_2 _ _ (ko_exists _ _ _ _ Hok i (or_introl Ha))) as [p Ep].
  change (procp s i) with (c_procs (k_core s) !! i). rewrite Ep.
  pose proof (ko_nofile _ _ _ _ Hok i p Ep) as Hlen.
  destruct (lookup_lt_is_Some_2 (p_ofile p) fd) as [o Ho]; [lia|]. cbn [mbind option_bind]. rewrite Ho.
  destruct o as [f|].
  - intros a s' E. rewrite bind_assoc in E. unfold bind at 1 in E.
    destruct (fileclose kend f s) as [u s1| |] eqn:E1; [|done|done].
    pose proof (kernel_ok_learn _ _ _ _ _ _ _ _ Hok Ep Ho) as Hok0.
    pose proof (ktri_fileclose N kend f h _ s u s1 Hok0 E1) as Hok1.
    unfold bind at 1, upd_kproc at 1, modify at 1 in E. eapply Hstep; [|exact E].
    destruct (lookup_lt_is_Some_2 _ _ (ko_exists _ _ _ _ Hok1 i (or_introl Ha))) as [q Eq].
    eapply kernel_ok_forget; [|eapply (kernel_ok_set_fd _ _ _ _ i q fd (Some f) None Hok1 Eq); [|done|done]].
    + split; try done; cbn.
      * intros x. destruct (decide (x = f)); lia.
      * intros j x o. repeat destruct (decide _); done.
    + apply (ko_known _ _ _ _ Hok1 i q fd (Some f) Eq). cbn. by rewrite decide_True.
  - unfold bind at 1, ret. intros a s' E. eapply Hstep; [|exact E]. by eapply kernel_ok_learn.
Qed.

Lemma kernel_ok_cur h g s i p :
  kernel_ok N h g s → g_live g = true → c_cur (k_core s) = Some i → c_procs (k_core s) !! i = Some p →
  kernel_ok N h (alive i g) s.
Proof.
  intros Hok Hv Hc Hp. split; try apply Hok.
  - intros j q Hq. cbn. destruct (bool_decide_reflect (j = i)) as [->|]; cbn; [|apply (ko_alive _ _ _ _ Hok j q Hq)].
    intros _. apply (ko_alive _ _ _ _ Hok i q Hq). by right.
  - intros j. cbn. destruct (bool_decide_reflect (j = i)) as [->|]; cbn; [|apply (ko_exists _ _ _ _ Hok j)].
    intros _. by eapply lookup_lt_Some.
Qed.

(** The knowledge at the end of exit. *)
Definition ended (i : nat) : ghost := dies i false (learn_free i NOFILE (alive i g0)).

Lemma from_exit_prepare h s i :
  kernel_ok N h g0 s → c_cur (k_core s) = Some i →
  from_state N s (exit_prepare kend) (Lk_ptable :: h) (λ _, ended i).
Proof.
  intros Hok Hc. unfold from_state, exit_prepare, bind at 1. destruct (myproc s) as [[j p] s1| |] eqn:E; [|done|done].
  apply myproc_inv in E as (-> & Hc' & Hp). cbn [fst snd] in *. rewrite Hc in Hc'. injection Hc' as <-.
  eapply from_ktri; [by eapply kernel_ok_cur|].
  eapply ktri_bind; [k_auto|intros init; cbv beta]. k_step; [k_auto|].
  eapply ktri_bind; [apply ktri_close_files|intro; cbv beta].
  - cbn. by rewrite bool_decide_true.
  - done.
  - done.
  - lia.
  - do 7 (eapply ktri_bind; [k_auto|intro; cbv beta]).
    eapply ktri_bind; [k_auto|intro; cbv beta].
    eapply ktri_bind; [apply ktri_soft, soft_reparent|intro; cbv beta].
    apply ktri_set_dead; [|done]. intros fd Hfd. cbn. by rewrite decide_True.
Qed.

Lemma ktri_exit_any {A} (k : unit → K kstate A) h g h' g' : ktri h g (x <- exit kend;; k x) h' g'.
Proof.
  intros s a s' _. unfold exit, bind. destruct (exit_prepare kend s) as [u s1| |]; [|done|done].
  unfold k_locks, in_fs, fs_core, in_st, zoom. destruct (sched _ _) as [v c| |] eqn:E; [|done|done].
  by apply sched_not_done in E.
Qed.

Lemma ktri_exit h g h' g' : ktri h g (exit kend) h' g'.
Proof.
  intros s a s' Hok E. apply (ktri_exit_any ret h g h' (λ _, g' a) s a s' Hok). unfold bind. by rewrite E.
Qed.

(** ** wait and kill *)
Lemma ktri_wait_loop h : ktri (Lk_ptable :: h) g0 (wait_loop kend) h (λ _, g0).
Proof.
  unfold wait_loop. eapply ktri_bind; [k_auto|intros [i cur]; cbv beta iota].
  intros s a s' Hok. revert a s'. unfold bind at 1, gets at 1.
  destruct (find_zombie (c_procs (k_core s)) 0 i false) as [[j|] hk] eqn:E.
  2: { eapply from_ktri; [exact Hok|]. k_auto. Unshelve. exact []. }
  apply find_zombie_spec in E as (_ & p & Hp & Hz). rewrite Nat.sub_0_r in Hp.
  assert (Hd : dead p) by (by right).
  eapply from_ktri; [exact (kernel_ok_other _ _ _ _ j p (kernel_ok_free _ _ _ _ j p Hok Hp Hd) eq_refl Hp Hd)|].
  do 8 (eapply ktri_bind; [k_auto|intro; cbv beta]).
  eapply ktri_bind; [apply (ktri_set_dead _ _ _ _ _ true)|intro; cbv beta].
  - intros fd Hfd. cbn. by rewrite decide_True.
  - intros _. cbn. by rewrite bool_decide_true.
  - eapply ktri_pre; [|k_auto]. by split.
Qed.

Lemma ktri_kill pid h g : ktri h g (kill pid) h (λ _, g).
Proof.
  unfold kill. k_auto. apply ktri_upd_kproc. intros p. destruct (bool_decide _); [|done]. split; [done|]. by intros [H|H].
Qed.
End proc.
