(* ===== verification/KernelTheorems.v ===== *)
(** * The invariant of the kernel over system calls, traps and exits *)

From S2P Require Import Prelude Params CString Devices Kbd Core Pipe Kalloc Vm Bio Log BlockStore Fs Console ConsoleOut ConsoleIn Frame Kernel File Proc ProcSched KernelInv Syscall Exec SysFile FileInv Trap KernelCalls ProcInv.

(** What the kernel expects of the functions in devsw: they return with the spin locks
    held that were held before, and change nothing of the process table but that
    they may wake processes up. *)
Record devices_ok (devread : Z → option (nat → Z → Z → K (fstate lstate) (Z * list Z)))
    (devwrite : Z → option (nat → Z → list Z → Z → K (fstate lstate) Z)) : Prop := {
  dev_read : ∀ major f ip off n h, devread major = Some f → tri fs_view h (f ip off n) h;
  dev_write : ∀ major f ip off src n h, devwrite major = Some f → tri fs_view h (f ip off src n) h
}.

(** What holds after the last step of a computation. *)
Lemma last_bind {A B} (Q : kstate → Prop) (m : K kstate A) (k : A → K kstate B) :
  (∀ a s b s', k a s = Done b s' → Q s') → ∀ s b s', bind m k s = Done b s' → Q s'.
Proof. intros H s b s'. unfold bind. destruct (m s) as [a s1| |]; [|done|done]. apply H. Qed.

Lemma exit_prepare_zombie kend s i u s' :
  c_cur (k_core s) = Some i → exit_prepare kend s = Done u s' →
  ∃ s1, s' = set_kcore (upd_proc i (set_state ZOMBIE) (k_core s1)) s1.
Proof.
  intros Hc. unfold exit_prepare, bind at 1. destruct (myproc s) as [[j p] s0| |] eqn:E; [|done|done].
  apply myproc_inv in E as (-> & Hc' & _). cbn [fst] in Hc'. rewrite Hc in Hc'. injection Hc' as <-.
  apply (last_bind (λ s', ∃ s1, s' = set_kcore (upd_proc i (set_state ZOMBIE) (k_core s1)) s1)).
  intros init s1 b s2. destruct (bool_decide _); [done|]. revert s1 b s2.
  do 10 (apply last_bind; intro). intros s1 b s2 [= _ <-]. by exists s1.
Qed.

Section kernel.
Variable N : nat.
Variable kend : Z.
Variable devread : Z → option (nat → Z → Z → K (fstate lstate) (Z * list Z)).
Variable devwrite : Z → option (nat → Z → list Z → Z → K (fstate lstate) Z).
Variable uninit : Z.
Hypothesis Hdev : devices_ok devread devwrite.
Local Abbreviation ktri := (ktri N).
Local Abbreviation syscalls := (syscalls kend devread devwrite uninit).
Local Abbreviation syscall := (syscall kend devread devwrite uninit).

Lemma ktri_sys_sleep h : ktri h g0 sys_sleep h (λ _, g0).
Proof. unfold sys_sleep, sleep_ticks_loop. k_auto. Unshelve. exact []. Qed.
Lemma ktri_sys_uptime h : ktri h g0 sys_uptime h (λ _, g0).
Proof. unfold sys_uptime. k_auto. Qed.
Lemma ktri_sys_wait h : ktri h g0 (sys_wait kend) h (λ _, g0).
Proof. unfold sys_wait, wait. eapply ktri_bind; [k_auto|intro; apply ktri_wait_loop]. Qed.
Lemma ktri_sys_sbrk h : ktri h g0 (sys_sbrk kend) h (λ _, g0).
Proof. pose proof (ktri_growproc N kend). unfold sys_sbrk. k_auto. Qed.

Lemma plain_g0 : plain g0.
Proof. done. Qed.

Lemma ktri_syscalls : Forall (λ o, match o with Some f => ktri [] g0 f [] (λ _, g0) | None => True end) syscalls.
Proof.
  destruct Hdev as [Hread Hwrite]. unfold Trap.syscalls.
  repeat (apply Forall_cons_2); [exact I|..|apply Forall_nil_2]; cbv beta iota.
  - unfold sys_fork. apply ktri_fork.
  - unfold sys_exit. apply (ktri_exit_any N kend (λ _, ret 0)).
  - apply ktri_sys_wait.
  - apply ktri_sys_pipe.
  - by apply ktri_sys_read.
  - unfold sys_kill. eapply ktri_bind; [apply ktri_argint|intro; apply ktri_kill].
  - by apply ktri_sys_exec.
  - apply ktri_sys_fstat.
  - by apply ktri_sys_chdir.
  - apply ktri_sys_dup, plain_g0.
  - unfold sys_getpid. eapply ktri_bind; [apply ktri_myproc|intro; apply ktri_ret].
  - apply ktri_sys_sbrk.
  - apply ktri_sys_sleep.
  - apply ktri_sys_uptime.
  - by apply ktri_sys_open.
  - by apply ktri_sys_write.
  - by apply ktri_sys_mknod.
  - by apply ktri_sys_unlink.
  - by apply ktri_sys_link.
  - by apply ktri_sys_mkdir.
  - apply ktri_sys_close, plain_g0.
  - unfold sys_triggerpanic, kprintf. eapply ktri_bind; [k_auto|intro]. eapply ktri_bind; [apply ktri_uload|intro; k_auto].
Qed.

Lemma ktri_set_cur_tf f h g : ktri h g (set_cur_tf f) h (λ _, g).
Proof. unfold set_cur_tf. k_auto. Qed.

Lemma ktri_syscall tf : ktri [] g0 (syscall tf) [] (λ _, g0).
Proof.
  unfold Trap.syscall. do 2 (eapply ktri_bind; [k_auto|intro; cbv beta]). cbv zeta.
  eapply ktri_bind.
  - assert (H : match (if (0 <? rax tf) && (rax tf <? Z.of_nat (length syscalls))
      then syscalls !!! Z.to_nat (rax tf) else None) with Some f => ktri [] g0 f [] (λ _, g0) | None => True end).
    { destruct (_ && _) eqn:E; [|done]. apply andb_true_iff in E as [?%Z.ltb_lt ?%Z.ltb_lt].
      destruct (lookup_lt_is_Some_2 syscalls (Z.to_nat (rax tf))) as [o Ho]; [lia|].
      rewrite (list_lookup_total_correct _ _ _ Ho). eapply Forall_lookup_1 in Ho; [|apply ktri_syscalls]. exact Ho. }
    match type of H with match ?o with _ => _ end => destruct o as [f|] end;
      [|eapply ktri_bind; [apply ktri_k_locks, tri_cprintf|intro; apply ktri_set_cur_tf]].
    eapply ktri_bind; [exact H|intro; cbv beta; apply ktri_set_cur_tf].
  - intro; cbv beta. eapply ktri_bind; [k_auto|intro; cbv beta]. k_step; [apply ktri_exit|k_auto].
Qed.

(** ** Traps *)
Variables cpu cr2 : Z.
Variables ideintr kbdintr uartintr : K kstate unit.
Hypothesis Hide : ktri [] g0 ideintr [] (λ _, g0).
Hypothesis Hkbd : ktri [] g0 kbdintr [] (λ _, g0).
Hypothesis Huart : ktri [] g0 uartintr [] (λ _, g0).

Lemma ktri_trap_dispatch tf : ktri [] g0 (trap_dispatch cpu cr2 ideintr kbdintr uartintr tf) [] (λ _, g0).
Proof. unfold trap_dispatch, trap_unexpected, crash_report, kprintf. k_auto. Qed.
Lemma ktri_cur_proc h g : ktri h g cur_proc h (λ _, g).
Proof. unfold cur_proc. k_auto. Qed.
Lemma ktri_exit_if_killed tf h g : ktri h g (exit_if_killed kend tf) h (λ _, g).
Proof.
  pose proof ktri_cur_proc. unfold exit_if_killed. eapply ktri_bind; [apply ktri_cur_proc|intro; cbv beta].
  repeat k_step. apply ktri_exit.
Qed.
Lemma ktri_yield h g h' g' : ktri h g yield h' g'.
Proof.
  unfold yield. do 3 (eapply ktri_bind; [k_auto|intro; cbv beta]). intros s u s' _.
  unfold k_locks, in_fs, fs_core, in_st, zoom. destruct (sched _ _) as [v c| |] eqn:E; [|done|done].
  by apply sched_not_done in E.
Qed.
Lemma ktri_trap tf : ktri [] g0 (trap kend cpu cr2 ideintr kbdintr uartintr tf) [] (λ _, g0).
Proof.
  unfold trap. eapply ktri_bind; [apply ktri_trap_dispatch|intro; cbv beta].
  eapply ktri_bind; [apply ktri_exit_if_killed|intro; cbv beta].
  eapply ktri_bind; [apply ktri_cur_proc|intros [[i p]|]; cbv beta].
  - eapply ktri_bind; [k_step; [apply ktri_yield|apply ktri_ret]|intro; apply ktri_exit_if_killed].
  - eapply ktri_bind; [apply ktri_ret|intro; apply ktri_exit_if_killed].
Qed.

(** ** Theorems *)


(** the kernel invariant over traps.  If the interrupt handlers of the drivers
    keep the invariant, a trap that returns keeps it. *)
Theorem trap_keeps_kernel_ok tf s s' :
  kernel_ok N [] g0 s → trap kend cpu cr2 ideintr kbdintr uartintr tf s = Done tt s' → kernel_ok N [] g0 s'.
Proof. apply ktri_trap. Qed.

(** C24: an exiting process leaves nothing open.  When exit comes to the switch to the
    scheduler, the process is a zombie without open files, the reference count of
    every file is the number of descriptors of the other processes that refer to it,
    and only the lock of the process table is held. *)
Theorem exit_closes_files s i s' :
  kernel_ok N [] g0 s → c_cur (k_core s) = Some i → exit_prepare kend s = Done tt s' →
  (∃ p, c_procs (k_core s') !! i = Some p ∧ p_state p = ZOMBIE ∧ Forall (λ o, o = None) (p_ofile p)) ∧
  (∀ f, (f < N)%nat → f_ref (filep s' f) = Z.of_nat (nrefs f (c_procs (k_core s')))) ∧
  c_held (k_core s') = [Lk_ptable].
Proof.
  intros Hok Hc E. pose proof (from_exit_prepare N kend [] s i Hok Hc tt s' E) as Hok'.
  apply (exit_prepare_zombie _ _ i) in E as (s1 & ->); [|done].
  set (s' := set_kcore _ s1) in *. split; [|split; [|apply Hok']].
  - destruct (lookup_lt_is_Some_2 (c_procs (k_core s')) i) as [p Hp].
    { apply (ko_exists _ _ _ _ Hok'). right. exists 0%nat, None. cbn. by rewrite decide_True by (split; [done|unfold NOFILE; lia]). }
    exists p. split; [done|]. assert (Hz : p_state p = ZOMBIE).
    { unfold s' in Hp. cbn in Hp. rewrite list_lookup_alter_eq in Hp. by apply fmap_Some in Hp as (q & _ & ->). }
    split; [done|]. apply Forall_lookup_2. intros fd o Ho.
    apply (ko_dead _ _ _ _ Hok' i p fd o Hp); [by right|done].
  - intros f Hf. rewrite (ko_refs _ _ _ _ Hok' f Hf). cbn. lia.
Qed.
End kernel.

(** ** A concrete kernel: process 0 has descriptor 0 open on file 0, which process 1
    has open too *)
Definition sample_running (st : procstate) (pid : Z) (tf : trapframe) : proc :=
  Proc 8192 (KERNBASE + 0x200000) (KERNBASE + 0x300000) st pid (Some 0%nat) tf Ch_null false
    (Some 0%nat :: replicate 15 None) (Some 0%nat) (replicate 16 0).
Definition sample_cpu : core :=
  Core [] [sample_running RUNNING 1 trapframe0; sample_running SLEEPING 2 trapframe0; sample_proc UNUSED 0] (Some 0%nat) devices0.
Definition sample_files : list file := [File FD_PIPE 2 true false (KERNBASE + 0x400000) 0 0; file0].
Definition sample_kstate : kstate := sample_kernel sample_cpu sample_memory sample_files.

Lemma sample_ofile fd o : (Some 0%nat :: replicate 15 None : list (option nat)) !! fd = Some o → o = None ∨ o = Some 0%nat.
Proof.
  destruct fd as [|fd]; [intros [= <-]; by right|].
  change ((Some 0%nat :: replicate 15 None : list (option nat)) !! S fd) with ((replicate 15 None : list (option nat)) !! fd).
  intros [-> _]%lookup_replicate_1. by left.
Qed.

Lemma sample_procs i p :
  c_procs sample_cpu !! i = Some p →
  p_ofile p = Some 0%nat :: replicate 15 None ∧ ¬ dead p ∨ p_ofile p = replicate NOFILE None ∧ i = 2%nat.
Proof.
  intros Hp. destruct i as [|[|[|i]]]; [| | |done]; injection Hp as <-; [left|left|right; done];
    (split; [done|]); by intros [H|H].
Qed.

Lemma sample_kernel_ok : kernel_ok 2 [] g0 sample_kstate.
Proof.
  split; try done.
  - apply NoDup_nil_2.
  - intros f Hf. do 2 (destruct f as [|f]; [done|]). lia.
  - intros i p [(-> & _)|(-> & _)]%sample_procs; done.
  - intros i p fd f [(-> & _)|(-> & _)]%sample_procs.
    + intros [?|[= ->]]%sample_ofile; [done|lia].
    + by intros [? _]%lookup_replicate_1.
  - intros i p fd o [(_ & Hd)|(-> & _)]%sample_procs; [done|]. by intros _ [-> _]%lookup_replicate_1.
  - intros i p [(_ & Hd)|(_ & ->)]%sample_procs; [done|]. intros [?|[_ ?]]; done.
  - intros i [?|(fd & o & ?)]; done.
Qed.

Definition no_read : Z → option (nat → Z → Z → K (fstate lstate) (Z * list Z)) := λ _, None.
Definition no_write : Z → option (nat → Z → list Z → Z → K (fstate lstate) Z) := λ _, None.
Lemma no_devices : devices_ok no_read no_write.
Proof. done. Qed.

(** Process 0 duplicates descriptor 0. *)
Definition dup_frame : trapframe := set_rax SYS_dup trapframe0.
Definition dup_after : kstate :=
  match syscall 0 no_read no_write 0 dup_frame sample_kstate with Done _ s => s | _ => sample_kstate end.


(** A spurious interrupt of the disk controller. *)
Definition spurious_frame : trapframe := Trapframe 0 0 0 0 0 0 0 0 0 0 0 0 0 0 0 47 0 0 8 0 0 0.

Lemma trap_keeps_kernel_ok_witness : kernel_ok 2 [] g0 sample_kstate.
Proof.
  apply (trap_keeps_kernel_ok 2 0 1 0 (ret tt) (ret tt) (ret tt) (ktri_ret 2 tt [] g0) (ktri_ret 2 tt [] g0)
    (ktri_ret 2 tt [] g0) spurious_frame sample_kstate); [apply sample_kernel_ok|]. vm_compute. reflexivity.
Defined.

Definition exit_after : kstate :=
  match exit_prepare 0 sample_kstate with Done _ s => s | _ => sample_kstate end.

Lemma exit_closes_files_witness :
  ∃ p, c_procs (k_core exit_after) !! 0%nat = Some p ∧ p_state p = ZOMBIE ∧ Forall (λ o, o = None) (p_ofile p).
Proof.
  apply (exit_closes_files 2 0 sample_kstate 0 exit_after sample_kernel_ok); vm_compute; reflexivity.
Defined.

(** * The arguments of system calls *)

(** ** Registers *)

(** Process [i] runs and has called with [a], [b] and [c] as arguments. *)
Record calls (s : kstate) (i : nat) (p : proc) (a b c : Z) : Prop := {
  ca_cur : c_cur (k_core s) = Some i;
  ca_proc : procp s i = Some p;
  ca_rdi : rdi (p_tf p) = a;
  ca_rsi : rsi (p_tf p) = b;
  ca_rdx : rdx (p_tf p) = c
}.

Section args.
Variables (s : kstate) (i : nat) (p : proc) (a b c : Z).
Hypothesis Hcall : calls s i p a b c.

Lemma myproc_calls : myproc s = Done (i, p) s.
Proof.
  destruct Hcall as [Hc Hp _ _ _]. unfold myproc. rewrite bind_gets, Hc. unfold procp in Hp. by rewrite Hp.
Qed.

Lemma argint_calls n v : (n = 0 ∧ v = a ∨ n = 1 ∧ v = b ∨ n = 2 ∧ v = c) → argint n s = Done (s32 v) s.
Proof.
  intros Hn. unfold argint, fetcharg. rewrite bind_assoc, (bind_done _ _ _ _ _ myproc_calls).
  destruct Hcall as [_ _ H1 H2 H3]. destruct Hn as [[-> ->]|[[-> ->]|[-> ->]]]; unfold bind, ret; cbn [Z.eqb Pos.eqb snd]; congruence.
Qed.

Lemma argptr_calls n v size :
  (n = 0 ∧ v = a ∨ n = 1 ∧ v = b ∨ n = 2 ∧ v = c) →
  argptr n size s =
    Done (if (size <? 0) || (p_sz p <=? u32 v) || (p_sz p <? u32 (u32 v + size)) then (u64 (-1), None) else (0, Some v)) s.
Proof.
  intros Hn. assert (E : argaddr n s = Done v s).
  { unfold argaddr, fetcharg. rewrite (bind_done _ _ _ _ _ myproc_calls).
    destruct Hcall as [_ _ H1 H2 H3]. destruct Hn as [[-> ->]|[[-> ->]|[-> ->]]]; unfold bind, ret; cbn [Z.eqb Pos.eqb snd]; congruence. }
  unfold argptr. rewrite (bind_done _ _ _ _ _ E), (bind_done _ _ _ _ _ myproc_calls). cbn [snd]. by destruct (_ || _).
Qed.

Lemma argfd_calls fd f :
  s32 a = Z.of_nat fd → (fd < NOFILE)%nat → p_ofile p !! fd = Some (Some f) → argfd 0 s = Done (Some (fd, f)) s.
Proof.
  intros Ha Hfd Hf. unfold argfd. rewrite (bind_done _ _ _ _ _ (argint_calls 0 a ltac:(auto))), Ha.
  rewrite (bind_done _ _ _ _ _ myproc_calls). cbn [snd]. rewrite (proj2 (Z.ltb_ge _ _)) by lia.
  rewrite (proj2 (Z.leb_gt _ _)) by lia. cbn [orb]. by rewrite Nat2Z.id, Hf.
Qed.

(** a pointer outside the process is not refused.  argptr reports it with -1, but as
    an unsigned number, which sys_read compares with 0: the call goes on, reads from
    the file and stores what it has read at the address in a variable that has never
    been set. *)
Theorem sys_read_ignores_argptr devread uninit fd f :
  s32 a = Z.of_nat fd → (fd < NOFILE)%nat → p_ofile p !! fd = Some (Some f) → 0 ≤ c < 2 ^ 31 → p_sz p ≤ u32 b →
  sys_read devread uninit s = (ro <- fileread devread f c;; ustore uninit (snd ro) ;;; ret (fst ro)) s.
Proof.
  intros Ha Hfd Hf Hc Hb. unfold sys_read. rewrite (bind_done _ _ _ _ _ (argfd_calls fd f Ha Hfd Hf)).
  rewrite (bind_done _ _ _ _ _ (argint_calls 2 c ltac:(auto))), (s32_nonneg c Hc).
  rewrite (bind_done _ _ _ _ _ (argptr_calls 1 b c ltac:(auto))).
  rewrite (proj2 (Z.ltb_ge c 0)) by lia. rewrite (proj2 (Z.leb_le (p_sz p) (u32 b))) by lia. reflexivity.
Qed.

(** C39: read stores into the kernel.  argptr compares only the low 32 bits of the
    pointer with the size of the process, so the kernel address KERNBASE + x passes for
    every x within the process: the call reads from the file and stores what it has read
    at that address, which the caller has chosen. *)
Theorem sys_read_kernel_pointer devread uninit fd f x :
  s32 a = Z.of_nat fd → (fd < NOFILE)%nat → p_ofile p !! fd = Some (Some f) → 0 ≤ c →
  b = KERNBASE + x → 0 ≤ x < p_sz p → x + c ≤ p_sz p → p_sz p < 2 ^ 31 →
  sys_read devread uninit s = (ro <- fileread devread f c;; ustore (KERNBASE + x) (snd ro) ;;; ret (fst ro)) s.
Proof.
  intros Ha Hfd Hf Hc Hb Hx Hxc Hsz. unfold sys_read. rewrite (bind_done _ _ _ _ _ (argfd_calls fd f Ha Hfd Hf)).
  rewrite (bind_done _ _ _ _ _ (argint_calls 2 c ltac:(auto))), (s32_nonneg c) by lia.
  rewrite (bind_done _ _ _ _ _ (argptr_calls 1 b c ltac:(auto))).
  assert (Hu : u32 b = x).
  { rewrite Hb. unfold u32. replace (KERNBASE + x) with (x + 0xFFFF8000 * 2 ^ 32) by (unfold KERNBASE; lia).
    rewrite Z.mod_add by done. apply Z.mod_small. lia. }
  rewrite Hu, (proj2 (Z.ltb_ge c 0)), (proj2 (Z.leb_gt (p_sz p) x)) by lia.
  unfold u32. rewrite (Z.mod_small (x + c)), (proj2 (Z.ltb_ge (p_sz p) _)), Hb by lia. reflexivity.
Qed.
End args.

(** Process 0 with descriptor 0 open for reading and writing. *)
Definition io_frame (addr n : Z) : trapframe := Trapframe 0 0 0 n 0 addr 0 0 0 0 0 0 0 0 0 0 0 0 0 0 0 0.
Definition io_kernel (addr n : Z) : kstate :=
  sample_kernel (Core [] [sample_running RUNNING 1 (io_frame addr n)] (Some 0%nat) devices0) sample_memory
    [File FD_PIPE 1 true true (KERNBASE + 0x400000) 0 0].

Lemma io_calls addr n : calls (io_kernel addr n) 0 (sample_running RUNNING 1 (io_frame addr n)) 0 addr n.
Proof. done. Qed.

Lemma sys_read_ignores_argptr_witness :
  sys_read no_read 77 (io_kernel 0x9000 4) =
    (ro <- fileread no_read 0 4;; ustore 77 (snd ro) ;;; ret (fst ro)) (io_kernel 0x9000 4).
Proof.
  apply (sys_read_ignores_argptr _ 0 _ 0 0x9000 4 (io_calls 0x9000 4) no_read 77 0 0); [done|unfold NOFILE; lia|done|lia|].
  vm_compute. done.
Defined.

Lemma sys_read_kernel_pointer_witness :
  sys_read no_read 77 (io_kernel (KERNBASE + 0x800) 4) =
    (ro <- fileread no_read 0 4;; ustore (KERNBASE + 0x800) (snd ro) ;;; ret (fst ro)) (io_kernel (KERNBASE + 0x800) 4).
Proof.
  apply (sys_read_kernel_pointer _ 0 _ 0 _ 4 (io_calls (KERNBASE + 0x800) 4) no_read 77 0 0 0x800);
    [done|unfold NOFILE; lia|done|lia|done|vm_compute; split; done|vm_compute; done|vm_compute; done].
Defined.

(** * The console as a device of the kernel

    The functions that the console registers in devsw, and the interrupt handlers of the
    keyboard and the serial port, keep to what the kernel expects of devices: they give
    back the locks they take and change nothing of the processes but that they may wake
    them up. *)

Lemma tri_upd_input f h : tri core_id h (upd_input f) h.
Proof. apply tri_in_dev. Qed.
#[export] Hint Resolve tri_upd_input : frame.

Lemma tri_procdump pcs h : tri core_id h (procdump pcs) h.
Proof.
  assert (Hd : ∀ l, tri core_id h (dump_pcs l) h) by (induction l; cbn [dump_pcs]; tri_auto).
  assert (Hl : ∀ ps i, tri core_id h (procdump_loop pcs i ps) h).
  { induction ps; cbn [procdump_loop]; tri_auto. }
  unfold procdump. tri_auto.
Qed.
Lemma tri_kill_line fuel h : tri core_id h (kill_line fuel) h.
Proof. induction fuel; cbn [kill_line]; tri_auto. Qed.
#[export] Hint Resolve tri_procdump tri_kill_line : frame.

Lemma tri_consoleintr pcs fuel getc h : tri core_id h (consoleintr pcs fuel getc) h.
Proof.
  assert (Hc : ∀ ch h, tri core_id h (consoleintr_char pcs ch) h) by (intros; unfold consoleintr_char; tri_auto).
  assert (Hl : ∀ h, tri core_id h (consoleintr_loop pcs fuel getc) h) by (induction fuel; cbn [consoleintr_loop]; tri_auto).
  unfold consoleintr. tri_auto.
Qed.
#[export] Hint Resolve tri_consoleintr : frame.
Lemma tri_kbdintr pcs h : tri core_id h (kbdintr pcs) h.
Proof. unfold kbdintr. tri_auto. Qed.
Lemma tri_uartintr pcs h : tri core_id h (uartintr pcs) h.
Proof. unfold uartintr. tri_auto. Qed.

Lemma tri_console_take n h : tri core_id h (console_take n) h.
Proof.
  assert (Hl : ∀ fuel target n out h, tri core_id h (consoleread_loop fuel target n out) h).
  { induction fuel; cbn [consoleread_loop]; tri_auto. }
  unfold console_take. tri_auto.
Qed.
#[export] Hint Resolve tri_console_take : frame.

Lemma tri_consoleread ip off n h : tri fs_view h (consoleread ip off n) h.
Proof. unfold consoleread. tri_auto. Qed.
Lemma tri_consolewrite ip off src n h : tri fs_view h (consolewrite ip off src n) h.
Proof. unfold consolewrite. tri_auto. Qed.


Definition key_frame : trapframe := Trapframe 0 0 0 0 0 0 0 0 0 0 0 0 0 0 0 (T_IRQ0 + IRQ_KBD) 0 0 8 0 0 0.

Lemma key_trap :
  ∃ s', trap KERNBASE 0 0 (ret tt) (k_locks (kbdintr (λ _, []))) (k_locks (uartintr (λ _, []))) key_frame sample_kstate = Done tt s'.
Proof. eexists. reflexivity. Qed.

