(* ===== verification/ProcTheorems.v ===== *)
(** * Process numbers, kill, and waiting for children *)

From S2P Require Import Prelude Params CString Devices Core Pipe Kalloc Vm Bio Log BlockStore Fs Frame Kernel File Proc ProcSched KernelInv Syscall Exec SysFile FileInv Trap KernelCalls ProcInv KernelTheorems.

(** ** allocproc *)
Lemma alter_alter {A} (f g : A → A) i (l : list A) : alter f i (alter g i l) = alter (λ x, f (g x)) i l.
Proof.
  apply list_eq. intros j. destruct (decide (j = i)) as [->|].
  - rewrite !list_lookup_alter_eq. by destruct (l !! i).
  - by rewrite !list_lookup_alter_ne.
Qed.

Lemma find_state_none st l j i p : find_state st l j = None → l !! i = Some p → p_state p ≠ st.
Proof.
  revert j i. induction l as [|q l IH]; intros j i; [done|]. cbn [find_state].
  destruct (bool_decide_reflect (p_state q = st)); [done|]. intros H. destruct i as [|i]; [by intros [= <-]|]. by eapply IH.
Qed.

(** Processes in use have positive numbers below the next one, and no two of them have
    the same. *)
Definition pids_ok (s : kstate) : Prop :=
  (∀ i p, procp s i = Some p → p_state p ≠ UNUSED → 0 < p_pid p < k_nextpid s) ∧
  (∀ i j p q, i ≠ j → procp s i = Some p → procp s j = Some q → p_state p ≠ UNUSED → p_state q ≠ UNUSED →
     p_pid p ≠ p_pid q).

Definition born (pid kstack : Z) (p : proc) : proc := set_kstack kstack (set_pid pid (set_state EMBRYO p)).

Lemma allocproc_spec kend s r l i :
  KERNBASE < kend ≤ KERNBASE + PHYSTOP →
  c_held (k_core s) = [] → free_rep kend (k_mem s) (r :: l) → find_state UNUSED (c_procs (k_core s)) 0 = Some i →
  ∃ s', allocproc s = Done (Some i) s' ∧
    k_core s' = set_procs (alter (born (k_nextpid s) r) i (c_procs (k_core s))) (k_core s) ∧
    k_nextpid s' = s32 (k_nextpid s + 1) ∧ free_rep kend (k_mem s') l.
Proof.
  intros Hend Hh Hf E. unfold allocproc.
  rewrite (bind_done _ _ _ _ _ (k_acquire Lk_ptable s ltac:(rewrite Hh; apply not_elem_of_nil))).
  rewrite bind_gets, k_core_set. cbn [c_procs set_held]. rewrite E.
  rewrite bind_upd_kproc, bind_gets, bind_upd_kproc, bind_modify. set (s1 := set_nextpid _ _).
  assert (Hc1 : k_core s1 = set_held [Lk_ptable] (set_procs (alter (set_pid (k_nextpid s)) i
    (alter (set_state EMBRYO) i (c_procs (k_core s)))) (k_core s))).
  { subst s1. cbn. unfold k_core in Hh. cbn in Hh. by rewrite Hh. }
  rewrite (bind_done _ _ _ _ _ (k_release Lk_ptable [] s1 ltac:(by rewrite Hc1) (not_elem_of_nil _))).
  set (s2 := set_kcore _ s1).
  destruct (kalloc_spec kend Hend (k_mem s2) (k_core s2) r l) as [Ek Hl].
  { unfold kquiet. subst s2. rewrite k_core_set. apply not_elem_of_nil. }
  { exact Hf. }
  rewrite (bind_done _ _ _ _ _ (in_mem_done _ _ _ _ _ Ek)), bind_upd_kproc.
  assert (Hr : r ≠ 0).
  { destruct Hf as [_ _ Hv _ _]. apply Forall_cons in Hv as [(_ & Hv & _) _]. unfold KERNBASE in *. lia. }
  rewrite (proj2 (Z.eqb_neq _ _) Hr). eexists. split; [reflexivity|]. split; [|split; [done|exact Hl]].
  rewrite !k_core_set. subst s2. rewrite k_core_set, Hc1. unfold upd_proc, set_procs, set_held. cbn.
  f_equal; [done|]. by rewrite !alter_alter.
Qed.

(** process numbers are unique.  If the processes in use have different numbers,
    all below the next one, then allocproc, with a free entry and a free page, gives
    the first UNUSED entry the number nextpid and a stack page of its own, changes no
    other entry, and the numbers are still unique. *)
Theorem allocproc_fresh_pid kend s r l :
  KERNBASE < kend ≤ KERNBASE + PHYSTOP →
  c_held (k_core s) = [] → free_rep kend (k_mem s) (r :: l) → pids_ok s → 0 < k_nextpid s < 2 ^ 31 - 1 →
  (∃ i p, procp s i = Some p ∧ p_state p = UNUSED) →
  ∃ i p s', allocproc s = Done (Some i) s' ∧ procp s i = Some p ∧ p_state p = UNUSED ∧
    procp s' i = Some (born (k_nextpid s) r p) ∧ (∀ j, j ≠ i → procp s' j = procp s j) ∧
    pids_ok s' ∧ free_rep kend (k_mem s') l.
Proof.
  intros Hend Hh Hf [Hr Hu] Hn (i0 & p0 & Hp0 & Hst0).
  destruct (find_state UNUSED (c_procs (k_core s)) 0) as [i|] eqn:E.
  2: { by eapply find_state_none in E. }
  destruct (allocproc_spec kend s r l i Hend Hh Hf E) as (s' & Ea & Hc & Hnp & Hl).
  apply find_state_spec in E as (_ & p & Hp & Hst). rewrite Nat.sub_0_r in Hp.
  assert (Hi : procp s' i = Some (born (k_nextpid s) r p)).
  { unfold procp. rewrite Hc. cbn [c_procs set_procs]. by rewrite list_lookup_alter_eq, Hp. }
  assert (Ho : ∀ j, j ≠ i → procp s' j = procp s j).
  { intros j Hj. unfold procp. rewrite Hc. cbn [c_procs set_procs]. by rewrite list_lookup_alter_ne. }
  assert (Hnp' : k_nextpid s' = k_nextpid s + 1).
  { rewrite Hnp. unfold s32, signed. rewrite Z.mod_small by lia. destruct (Z.ltb_spec (k_nextpid s + 1) (2 ^ (32 - 1))); lia. }
  exists i, p, s'. do 5 (split; [done|]). split; [|done]. split.
  - intros j q Hq Hs. rewrite Hnp'. destruct (decide (j = i)) as [->|Hne].
    + rewrite Hi in Hq. injection Hq as <-. cbn. lia.
    + rewrite Ho in Hq by done. pose proof (Hr j q Hq Hs). lia.
  - intros j k q q' Hjk Hq Hq' Hs Hs'. destruct (decide (j = i)) as [->|Hj]; [|destruct (decide (k = i)) as [->|Hk]].
    + rewrite Hi in Hq. injection Hq as <-. rewrite Ho in Hq' by done. pose proof (Hr k q' Hq' Hs'). cbn. lia.
    + rewrite Hi in Hq'. injection Hq' as <-. rewrite Ho in Hq by done. pose proof (Hr j q Hq Hs). cbn. lia.
    + rewrite Ho in Hq, Hq' by done. by apply (Hu j k).
Qed.

(** Two processes in use, and the page at [sample_end] free. *)
Definition sample_page : Z := KERNBASE + 0x101000.
Definition one_page : kmem := KMem true sample_page (λ _, replicate (Z.to_nat PGSIZE) 0).
Definition pid_kernel : kstate :=
  set_nextpid 3 (sample_kernel (Core [] [sample_proc RUNNING 1; sample_proc SLEEPING 2; sample_proc UNUSED 0] (Some 0%nat) devices0) one_page []).

Lemma one_page_free : free_rep sample_end one_page [sample_page].
Proof.
  split.
  - split; [done|]. vm_compute. done.
  - apply NoDup_singleton.
  - apply Forall_singleton. split; [done|]. split; vm_compute; done.
  - intros v. apply length_replicate.
  - intros v. apply Forall_replicate. done.
Qed.

Lemma pid_kernel_ok : pids_ok pid_kernel.
Proof.
  assert (Hp : ∀ i p, procp pid_kernel i = Some p → p_state p ≠ UNUSED → (i < 2)%nat ∧ p_pid p = Z.of_nat i + 1).
  { intros i p Hp Hs. destruct i as [|[|[|i]]]; [injection Hp as <-; split; [lia|done]..| |done].
    injection Hp as <-. done. }
  split.
  - intros i p H Hs. destruct (Hp i p H Hs) as [Hi ->]. cbn. lia.
  - intros i j p q Hij H1 H2 Hs1 Hs2. destruct (Hp i p H1 Hs1) as [_ ->], (Hp j q H2 Hs2) as [_ ->]. lia.
Qed.

Lemma allocproc_fresh_pid_witness :
  ∃ i p s', allocproc pid_kernel = Done (Some i) s' ∧ procp pid_kernel i = Some p ∧ p_state p = UNUSED ∧
    procp s' i = Some (born 3 sample_page p) ∧ (∀ j, j ≠ i → procp s' j = procp pid_kernel j) ∧
    pids_ok s' ∧ free_rep sample_end (k_mem s') [].
Proof.
  apply (allocproc_fresh_pid sample_end pid_kernel sample_page []).
  - split; vm_compute; done.
  - done.
  - apply one_page_free.
  - apply pid_kernel_ok.
  - cbn. lia.
  - by exists 2%nat, (sample_proc UNUSED 0).
Defined.

(** ** kill *)
Definition killed_proc (p : proc) : proc :=
  let p := set_killed true p in if bool_decide (p_state p = SLEEPING) then set_state RUNNABLE p else p.

Lemma find_pid_first pid l k j p :
  l !! j = Some p → p_pid p = pid → (∀ i q, (i < j)%nat → l !! i = Some q → p_pid q ≠ pid) → find_pid pid l k = Some (k + j)%nat.
Proof.
  revert k j. induction l as [|q l IH]; intros k j Hp Hpid Hmin; [done|]. cbn [find_pid]. destruct j as [|j].
  - injection Hp as ->. rewrite (proj2 (Z.eqb_eq _ _) Hpid). f_equal. lia.
  - rewrite (proj2 (Z.eqb_neq _ _)) by (apply (Hmin 0%nat q); [lia|done]).
    rewrite (IH (S k) j Hp Hpid); [f_equal; lia|]. intros i x Hi Hx. apply (Hmin (S i) x); [lia|done].
Qed.

Lemma kill_found pid s j :
  c_held (k_core s) = [] → find_pid pid (c_procs (k_core s)) 0 = Some j →
  kill pid s = Done 0 (set_kcore (upd_proc j killed_proc (k_core s)) s).
Proof.
  intros Hh E. unfold kill.
  rewrite (bind_done _ _ _ _ _ (k_acquire Lk_ptable s ltac:(rewrite Hh; apply not_elem_of_nil))).
  rewrite Hh, bind_gets, k_core_set. cbn [c_procs set_held]. rewrite E, !bind_upd_kproc, !k_core_set, !set_kcore_twice.
  set (s1 := set_kcore _ s).
  rewrite (bind_done _ _ _ _ _ (k_release Lk_ptable [] s1 eq_refl (not_elem_of_nil _))).
  unfold ret. f_equal. subst s1. rewrite set_kcore_twice, k_core_set. f_equal.
  unfold upd_proc, set_held, set_procs. cbn [c_held c_procs c_cur]. by rewrite Hh, alter_alter.
Qed.

Lemma find_state_ext st l l' k : p_state <$> l = p_state <$> l' → find_state st l k = find_state st l' k.
Proof.
  revert l' k. induction l as [|p l IH]; intros [|p' l'] k; [done|done|done|].
  cbn. intros [= H1 H2]. rewrite H1. by rewrite (IH l' (S k) H2).
Qed.

Lemma p_state_alter f j (l : list proc) p :
  l !! j = Some p → p_state (f p) = p_state p → p_state <$> alter f j l = p_state <$> l.
Proof.
  intros Hp Hf. apply list_eq. intros i. rewrite !list_lookup_fmap. destruct (decide (i = j)) as [->|].
  - rewrite list_lookup_alter_eq, Hp. cbn. by rewrite Hf.
  - by rewrite list_lookup_alter_ne.
Qed.

(** C40: kill(0) kills a process that does not exist yet.  A free entry of the table has
    the number 0, so kill finds it, marks it killed and returns 0; allocproc does not
    clear the mark, and the next process to be created starts killed. *)
Theorem kill_zero_kills_next kend s r l j p :
  KERNBASE < kend ≤ KERNBASE + PHYSTOP → c_held (k_core s) = [] → free_rep kend (k_mem s) (r :: l) →
  find_state UNUSED (c_procs (k_core s)) 0 = Some j → procp s j = Some p → p_pid p = 0 →
  (∀ i q, (i < j)%nat → procp s i = Some q → p_pid q ≠ 0) →
  ∃ s', (x <- kill 0;; i <- allocproc;; ret (x, i)) s = Done (0, Some j) s' ∧
    ∃ p', procp s' j = Some p' ∧ p_pid p' = k_nextpid s ∧ p_killed p' = true.
Proof.
  intros Hend Hh Hf E Hp Hpid Hmin.
  pose proof (find_state_spec _ _ _ _ E) as (_ & p1 & Hp1 & Hst). rewrite Nat.sub_0_r in Hp1.
  unfold procp in Hp. rewrite Hp in Hp1. injection Hp1 as <-.
  rewrite (bind_done _ _ _ _ _ (kill_found 0 s j Hh (find_pid_first 0 _ 0 j p Hp Hpid Hmin))).
  set (s1 := set_kcore _ s). assert (Hps : c_procs (k_core s1) = alter killed_proc j (c_procs (k_core s))) by done.
  assert (Hk : killed_proc p = set_killed true p) by (unfold killed_proc; cbn; by rewrite Hst).
  assert (E1 : find_state UNUSED (c_procs (k_core s1)) 0 = Some j).
  { rewrite Hps, <- E. apply find_state_ext, (p_state_alter _ _ _ p Hp). by rewrite Hk. }
  destruct (allocproc_spec kend s1 r l j Hend Hh Hf E1) as (s' & Ea & Hc & _ & _).
  rewrite (bind_done _ _ _ _ _ Ea). exists s'. split; [done|].
  exists (born (k_nextpid s) r (set_killed true p)). split; [|done]. unfold procp. rewrite Hc. cbn [c_procs set_procs].
  by rewrite list_lookup_alter_eq, Hps, list_lookup_alter_eq, Hp, <- Hk.
Qed.

Lemma kill_zero_kills_next_witness :
  ∃ s', (x <- kill 0;; i <- allocproc;; ret (x, i)) pid_kernel = Done (0, Some 2%nat) s' ∧
    ∃ p', procp s' 2 = Some p' ∧ p_pid p' = 3 ∧ p_killed p' = true.
Proof.
  apply (kill_zero_kills_next sample_end pid_kernel sample_page [] 2 (sample_proc UNUSED 0)).
  - split; vm_compute; done.
  - reflexivity.
  - apply one_page_free.
  - reflexivity.
  - reflexivity.
  - reflexivity.
  - intros i q Hi Hq. destruct i as [|[|i]]; [by injection Hq as <-|by injection Hq as <-|lia].
Defined.

(** * wait and exit: no wakeup is lost

    A parent that finds no zombie among its children sleeps with the lock of the
    process table held, and an exiting child wakes its parent under the same lock. *)

(** ** wait *)
Definition child_of (i : nat) (p : proc) : bool := bool_decide (p_parent p = Some i).
Definition zombie (p : proc) : bool := bool_decide (p_state p = ZOMBIE).

Lemma find_zombie_none l j i hk :
  (∀ p, p ∈ l → child_of i p = true → zombie p = false) →
  find_zombie l j i hk = (None, hk || existsb (child_of i) l).
Proof.
  revert j hk. induction l as [|p l IH]; intros j hk Hz; [by rewrite orb_false_r|]. cbn [find_zombie existsb].
  assert (Hz' : ∀ q, q ∈ l → child_of i q = true → zombie q = false) by (intros q Hq; apply Hz; by right).
  fold (child_of i p) (zombie p). destruct (child_of i p) eqn:E.
  - rewrite (Hz p ltac:(by left) E). rewrite (IH (S j) true Hz'). by rewrite orb_true_r.
  - rewrite (IH (S j) hk Hz'). done.
Qed.

Definition sleeping (i : nat) (s : kstate) : kstate :=
  set_kcore (upd_proc i (λ p, set_state SLEEPING (set_chan (Ch_proc i) p)) (set_held [Lk_ptable] (k_core s))) s.

(** when wait waits.  With no zombie among the children of the current process, wait
    returns -1 if there are no children or the process has been killed, and sleeps
    on its own channel otherwise, holding only the lock of the process table. *)
Theorem wait_sleeps kend s i p :
  c_held (k_core s) = [] → c_cur (k_core s) = Some i → procp s i = Some p →
  (∀ q, q ∈ c_procs (k_core s) → child_of i q = true → zombie q = false) →
  wait kend s = if negb (existsb (child_of i) (c_procs (k_core s))) || p_killed p then Done (-1) s
                else Sleep (Ch_proc i) (sleeping i s).
Proof.
  intros Hh Hc Hp Hz. unfold wait.
  rewrite (bind_done _ _ _ _ _ (k_acquire Lk_ptable s ltac:(rewrite Hh; apply not_elem_of_nil))). rewrite Hh.
  set (s1 := set_kcore _ s). unfold wait_loop.
  assert (Em : myproc s1 = Done (i, p) s1).
  { unfold myproc. rewrite bind_gets. subst s1. rewrite k_core_set. cbn [c_cur c_procs set_held]. rewrite Hc.
    unfold procp in Hp. by rewrite Hp. }
  rewrite (bind_done _ _ _ _ _ Em), bind_gets. subst s1. rewrite k_core_set. cbn [c_procs set_held].
  rewrite (find_zombie_none _ 0 i false Hz). cbn [orb].
  destruct (negb _ || p_killed p).
  - rewrite (bind_done _ _ _ _ _ (k_release Lk_ptable [] (set_kcore (set_held [Lk_ptable] (k_core s)) s) eq_refl (not_elem_of_nil _))).
    unfold ret. f_equal. rewrite set_kcore_twice, k_core_set, set_held_twice.
    assert (Hid : set_held [] (k_core s) = k_core s) by (destruct (k_core s); cbn in *; by subst).
    by rewrite Hid, set_kcore_id.
  - unfold bind. unfold k_locks, in_fs, fs_core, in_st, zoom.
    change (st_core (fs_st (k_fs (set_kcore ?c s)))) with c.
    assert (Es : sleep (Ch_proc i) Lk_ptable (set_held [Lk_ptable] (k_core s)) = Sleep (Ch_proc i)
      (upd_proc i (λ p, set_state SLEEPING (set_chan (Ch_proc i) p)) (set_held [Lk_ptable] (k_core s)))).
    { unfold sleep, bind, gets. cbn [c_cur set_held]. rewrite Hc.
      rewrite bool_decide_eq_true_2 by done. unfold ret, modify, sched, upd_proc. cbn [c_held c_procs c_cur set_held set_procs].
      rewrite bool_decide_eq_true_2 by set_solver. rewrite Hc. cbn [length Nat.eqb negb mbind option_bind].
      unfold procp in Hp. by rewrite list_lookup_alter_eq, Hp. }
    by rewrite Es.
Qed.

(** Process 0 waits for process 1. *)
Definition wait_kernel : kstate :=
  sample_kernel (Core [] [set_parent None (sample_proc RUNNING 1); sample_proc RUNNABLE 2; set_parent None (sample_proc UNUSED 0)] (Some 0%nat) devices0) sample_memory [].

Lemma wait_sleeps_witness : wait 0 wait_kernel = Sleep (Ch_proc 0) (sleeping 0 wait_kernel).
Proof.
  apply (wait_sleeps 0 wait_kernel 0 (set_parent None (sample_proc RUNNING 1))); [reflexivity|reflexivity|reflexivity|].
  intros q Hq. change (q ∈ [set_parent None (sample_proc RUNNING 1); sample_proc RUNNABLE 2; set_parent None (sample_proc UNUSED 0)]) in Hq.
  repeat (apply elem_of_cons in Hq as [->|Hq]; [done|]). by apply elem_of_nil in Hq.
Defined.

(** ** exit *)
Section exit.
Variables (kend : Z) (i k : nat).
Hypothesis Hik : i ≠ k.

(** The locks [h] are held; [k] is the parent of [i], and it waits in wait or has been
    woken up. *)
Definition waiting (h : list lockid) (s : kstate) : Prop :=
  c_held (k_core s) = h ∧ NoDup h ∧
  ∃ p q, c_procs (k_core s) !! i = Some p ∧ p_parent p = Some k ∧ c_procs (k_core s) !! k = Some q ∧
    (p_state q = SLEEPING ∧ p_chan q = Ch_proc k ∨ p_state q = RUNNABLE).

Definition wtri {A} (h : list lockid) (m : K kstate A) (h' : list lockid) : Prop :=
  ∀ s a s', waiting h s → m s = Done a s' → waiting h' s'.

Lemma wtri_bind {A B} (m : K kstate A) (f : A → K kstate B) h h1 h2 :
  wtri h m h1 → (∀ a, wtri h1 (f a) h2) → wtri h (bind m f) h2.
Proof.
  intros Hm Hf s b s' Hw. unfold bind. destruct (m s) as [a s1| |] eqn:E; [|done|done].
  intros E'. eapply Hf; [|exact E']. by eapply Hm.
Qed.

Lemma stepped_waits q q' :
  stepped q q' → p_state q = SLEEPING ∧ p_chan q = Ch_proc k ∨ p_state q = RUNNABLE →
  p_state q' = SLEEPING ∧ p_chan q' = Ch_proc k ∨ p_state q' = RUNNABLE.
Proof. intros [->|[_ ->]]; [done|]. by right. Qed.

Lemma wtri_tri {A} (m : K kstate A) h h' : tri k_core h m h' → wtri h m h'.
Proof.
  intros Hm s a s' (Hh & Hn & p & q & Hp & Hpar & Hq & Hst) E.
  destruct (Hm (k_core s) s a s') as [Hh' Hn' _ Hps]; [|done|].
  { split; [done|done|done|]. by apply Forall_Forall2_diag, Forall_true. }
  split; [done|]. split; [done|].
  destruct (Forall2_lookup_l _ _ _ _ _ Hps Hp) as (p' & Hp' & Hsp), (Forall2_lookup_l _ _ _ _ _ Hps Hq) as (q' & Hq' & Hsq).
  exists p', q'. split; [done|]. split; [by destruct Hsp as [->|[_ ->]]|]. split; [done|]. by eapply stepped_waits.
Qed.

(** Changes of the exiting process that keep its parent. *)
Lemma wtri_upd f h : (∀ p, p_parent (f p) = p_parent p) → wtri h (upd_kproc i f) h.
Proof.
  intros Hf s a s' (Hh & Hn & p & q & Hp & Hpar & Hq & Hst) [= <- <-].
  split; [done|]. split; [done|]. exists (f p), q.
  change (c_procs (k_core (set_kcore _ s))) with (alter f i (c_procs (k_core s))).
  rewrite list_lookup_alter_eq, list_lookup_alter_ne, Hp by done. rewrite Hf. done.
Qed.

Lemma tri_upd_file f x h : tri k_core h (upd_file f x) h.
Proof. unfold upd_file. tri_auto. Qed.
Lemma tri_fileclose f h : tri k_core h (fileclose kend f) h.
Proof. pose proof tri_upd_file. unfold fileclose, pipeclose. tri_auto. Qed.

Lemma wtri_close_files n fd h : wtri h (close_files kend n fd i) h.
Proof.
  revert fd. induction n as [|n IH]; intros fd; cbn [close_files]; [apply wtri_tri; tri_auto|].
  apply (wtri_bind _ _ h h); [apply wtri_tri; tri_auto|intros x].
  apply (wtri_bind _ _ h h); [|intros _; apply IH].
  destruct (x ≫= _) as [[f|]|]; [|apply wtri_tri; tri_auto|apply wtri_tri; tri_auto].
  apply (wtri_bind _ _ h h); [apply wtri_tri, tri_fileclose|intros _; by apply wtri_upd].
Qed.

(** [k] is runnable, and stays so. *)
Definition awake (s : kstate) : Prop := ∃ q, c_procs (k_core s) !! k = Some q ∧ p_state q = RUNNABLE.

Lemma awake_wakeup1 ch c q : 
  c_procs c !! k = Some q → p_state q = RUNNABLE →
  ∃ q', c_procs (set_procs (wakeup1_proc ch <$> c_procs c) c) !! k = Some q' ∧ p_state q' = RUNNABLE.
Proof.
  intros Hq Hr. exists (wakeup1_proc ch q). cbn [c_procs set_procs]. rewrite list_lookup_fmap, Hq. split; [done|].
  unfold wakeup1_proc. by destruct (_ && _).
Qed.

Lemma awake_reparent n j init c a c' q :
  reparent n j i init c = Done a c' → c_procs c !! k = Some q → p_state q = RUNNABLE →
  ∃ q', c_procs c' !! k = Some q' ∧ p_state q' = RUNNABLE.
Proof.
  revert j c q. induction n as [|n IH]; intros j c q E Hq Hr; [injection E as <- <-; by exists q|].
  cbn [reparent] in E. unfold bind at 1, get at 1 in E. unfold bind at 1 in E.
  destruct (c_procs c !! j) as [p|] eqn:Ej; [|exact (IH (S j) c q E Hq Hr)].
  destruct (bool_decide (p_parent p = Some i)); [|exact (IH (S j) c q E Hq Hr)].
  unfold bind at 1, modify at 1 in E.
  assert (H1 : ∃ q1, c_procs (upd_proc j (set_parent init) c) !! k = Some q1 ∧ p_state q1 = RUNNABLE).
  { cbn [upd_proc c_procs set_procs]. destruct (decide (k = j)) as [->|].
    - rewrite list_lookup_alter_eq, Hq. by eexists.
    - rewrite list_lookup_alter_ne by done. by exists q. }
  destruct H1 as (q1 & Hq1 & Hr1). destruct (bool_decide _); [|exact (IH (S j) _ q1 E Hq1 Hr1)].
  destruct (awake_wakeup1 (parent_chan init) _ q1 Hq1 Hr1) as (q2 & Hq2 & Hr2). exact (IH (S j) _ q2 E Hq2 Hr2).
Qed.

Lemma waiting_wakes h s :
  waiting h s → awake (set_kcore (woken (Ch_proc k) (k_core s)) s).
Proof.
  intros (_ & _ & p & q & _ & _ & Hq & Hst). exists (wakeup1_proc (Ch_proc k) q). rewrite k_core_set.
  cbn [woken c_procs set_procs]. rewrite list_lookup_fmap, Hq. split; [done|]. unfold wakeup1_proc.
  destruct Hst as [[H1 H2]|H]; [by rewrite !bool_decide_eq_true_2|by destruct (_ && _)].
Qed.

(** The end of exit: from the lock of the table on. *)
Lemma exit_tail_wakes h init s a s' :
  waiting h s →
  (x <- gets (λ s, procp s i);;
   k_locks (wakeup1 (parent_chan (x ≫= p_parent))) ;;;
   c <- gets k_core;;
   k_locks (reparent (length (c_procs c)) 0 i init) ;;;
   upd_kproc i (set_state ZOMBIE)) s = Done a s' → awake s'.
Proof.
  intros Hw. pose proof Hw as (_ & _ & p & _ & Hp & Hpar & _). rewrite bind_gets. unfold procp. rewrite Hp.
  cbn [mbind option_bind]. rewrite Hpar. cbn [parent_chan].
  rewrite (bind_done _ _ _ _ _ (k_locks_done (wakeup1 (Ch_proc k)) s tt (woken (Ch_proc k) (k_core s)) eq_refl)).
  destruct (waiting_wakes h s Hw) as (q & Hq & Hr). set (s1 := set_kcore _ s) in *. rewrite bind_gets. unfold bind.
  unfold k_locks, in_fs, fs_core, in_st, zoom. change (st_core (fs_st (k_fs s1))) with (k_core s1).
  destruct (reparent _ 0 i init (k_core s1)) as [u c'| |] eqn:E; [|done|done].
  destruct (awake_reparent _ _ _ _ _ _ _ E Hq Hr) as (q' & Hq' & Hr'). intros [= <- <-]. exists q'. split; [|done].
  cbn. by rewrite list_lookup_alter_ne.
Qed.

Lemma wakes_bind {A B} h h1 (m : K kstate A) (f : A → K kstate B) :
  wtri h m h1 → (∀ a s, waiting h1 s → ∀ b s', f a s = Done b s' → awake s') →
  ∀ s, waiting h s → ∀ b s', bind m f s = Done b s' → awake s'.
Proof.
  intros Hm Hf t Ht b t'. unfold bind. destruct (m t) as [a t1| |] eqn:E; [|done|done].
  apply Hf. by eapply Hm.
Qed.

(** an exiting process wakes its parent.  If the parent sleeps in wait when the
    child calls exit, it is runnable when the child comes to its last switch to the
    scheduler, whatever exit has done before. *)
Theorem exit_wakes_parent s p q s' :
  c_held (k_core s) = [] → c_cur (k_core s) = Some i → procp s i = Some p → p_parent p = Some k →
  procp s k = Some q → p_state q = SLEEPING → p_chan q = Ch_proc k →
  exit_prepare kend s = Done tt s' → ∃ q', procp s' k = Some q' ∧ p_state q' = RUNNABLE.
Proof.
  intros Hh Hc Hp Hpar Hq Hst Hch.
  assert (Hw : waiting [] s) by (split; [done|]; split; [apply NoDup_nil_2|]; exists p, q; auto 6).
  unfold exit_prepare, bind at 1. destruct (myproc s) as [[j x] s0| |] eqn:E; [|done|done].
  apply myproc_inv in E as (-> & Hc' & _). cbn [fst] in Hc'. rewrite Hc in Hc'. injection Hc' as <-.
  rewrite bind_gets. destruct (bool_decide _); [done|].
  apply (wakes_bind [] []); [apply wtri_close_files| |exact Hw]. intros _.
  apply (wakes_bind [] []); [apply wtri_tri; tri_auto|]. intros _.
  apply (wakes_bind [] []); [apply wtri_tri; tri_auto|]. intros _.
  apply (wakes_bind [] []); [apply wtri_tri; tri_auto|]. intros _.
  apply (wakes_bind [] []); [by apply wtri_upd|]. intros _.
  apply (wakes_bind [] [Lk_ptable]); [apply wtri_tri; tri_auto|]. intros _ s1 Hw1 b s2. by eapply exit_tail_wakes.
Qed.
End exit.

(** Process 1 exits while process 0 waits for it. *)
Definition exit_kernel : kstate :=
  sample_kernel (Core [] [set_parent None (set_chan (Ch_proc 0) (sample_proc SLEEPING 1)); sample_proc RUNNING 2] (Some 1%nat) devices0) sample_memory [].
Definition exit_kernel_after : kstate :=
  match exit_prepare 0 exit_kernel with Done _ s => s | _ => exit_kernel end.

Lemma exit_wakes_parent_witness : ∃ q', procp exit_kernel_after 0 = Some q' ∧ p_state q' = RUNNABLE.
Proof.
  apply (exit_wakes_parent 0 1 0 ltac:(done) exit_kernel (sample_proc RUNNING 2) (set_parent None (set_chan (Ch_proc 0) (sample_proc SLEEPING 1))));
    vm_compute; reflexivity.
Defined.
