(* ===== verification/Grep.v ===== *)
(** * The user program grep.c

    The matcher of regular expressions against the language of the expression, and
    the loop over the lines of a file.  A C string is the list of its characters
    before the null. *)

From S2P Require Import Prelude Params.

Definition caret : Z := 94.
Definition star : Z := 42.
Definition dollar : Z := 36.
Definition dot : Z := 46.
Definition newline : Z := 10.

(** ** The matcher *)

(** [mh] is [matchhere re]. *)
Fixpoint matchstar (mh : list Z → bool) (c : Z) (text : list Z) : bool :=
  mh text ||
  match text with
  | [] => false
  | t :: text => if (t =? c) || (c =? dot) then matchstar mh c text else false
  end.

Fixpoint matchhere (re text : list Z) : bool :=
  match re with
  | [] => true
  | r0 :: re1 =>
      match re1 with
      | r1 :: re2 =>
          if r1 =? star then matchstar (matchhere re2) r0 text
          else
            match text with
            | [] => false
            | t :: text => if (r0 =? dot) || (r0 =? t) then matchhere re1 text else false
            end
      | [] =>
          if r0 =? dollar then match text with [] => true | _ => false end
          else
            match text with
            | [] => false
            | t :: text => if (r0 =? dot) || (r0 =? t) then matchhere re1 text else false
            end
      end
  end.

(** The loop of match over the ends of the text. *)
Fixpoint match_from (re text : list Z) : bool :=
  matchhere re text || match text with [] => false | _ :: text => match_from re text end.

Definition grep_match (re text : list Z) : bool :=
  match re with
  | r0 :: re1 => if r0 =? caret then matchhere re1 text else match_from re text
  | [] => match_from re text
  end.

(** ** Lines *)

(** strchr(p, '\n'): the text before the newline and the text behind it, unless the string
    ends before. *)
Fixpoint split_line (p : list Z) : option (list Z * list Z) :=
  match p with
  | [] => None
  | c :: p =>
      if c =? 0 then None
      else if c =? newline then Some ([], p)
      else x ← split_line p; Some (c :: fst x, snd x)
  end.

(** The inner loop: what is written for the lines of [p], what is left of [p] and whether
    [p] has moved.  Every line takes at least one character. *)
Fixpoint grep_lines (fuel : nat) (pattern p : list Z) : list Z * list Z * bool :=
  match fuel with
  | O => ([], p, false)
  | S fuel =>
      match split_line p with
      | None => ([], p, false)
      | Some (line, rest) =>
          let '(out, p', _) := grep_lines fuel pattern rest in
          ((if grep_match pattern line then line ++ [newline] else []) ++ out, p', true)
      end
  end.

Definition BUFSZ : nat := 1024.

(** read(fd, _, k) of a file: the bytes that are there, at most [k]. *)
Definition read_file (k : nat) (file : list Z) : list Z * list Z := (take k file, drop k file).

(** The outer loop; [buf] are the [m] bytes in the buffer, [input] what read gives for a
    number of bytes and the input that is left.  The reads are at most [fuel]. *)
Fixpoint grep_loop {I} (fuel : nat) (read : nat → I → list Z * I) (pattern : list Z) (buf : list Z) (input : I) : list Z :=
  match fuel with
  | O => []
  | S fuel =>
      let '(got, input) := read (BUFSZ - length buf - 1)%nat input in
      match got with
      | [] => []
      | _ =>
          let buf := buf ++ got in
          let '(out, p, moved) := grep_lines (length buf) pattern buf in
          out ++ grep_loop fuel read pattern (if moved then p else []) input
      end
  end.

Definition grep {I} (fuel : nat) (read : nat → I → list Z * I) (pattern : list Z) (input : I) : list Z :=
  grep_loop fuel read pattern [] input.

(** ** The language of an expression *)

(** A dot stands for every character, any other for itself. *)
Definition fits (c t : Z) : Prop := c = dot ∨ c = t.

Inductive piece := Once (c : Z) | Many (c : Z).

(** The pieces of an expression, and whether it ends in a dollar. *)
Fixpoint pieces (re : list Z) : list piece * bool :=
  match re with
  | [] => ([], false)
  | r0 :: re1 =>
      match re1 with
      | r1 :: re2 =>
          if r1 =? star then (Many r0 :: fst (pieces re2), snd (pieces re2))
          else (Once r0 :: fst (pieces re1), snd (pieces re1))
      | [] => if r0 =? dollar then ([], true) else ([Once r0], false)
      end
  end.

Fixpoint lang (ps : list piece) (s : list Z) : Prop :=
  match ps with
  | [] => s = []
  | Once c :: ps => ∃ t s', s = t :: s' ∧ fits c t ∧ lang ps s'
  | Many c :: ps => ∃ s1 s2, s = s1 ++ s2 ∧ Forall (fits c) s1 ∧ lang ps s2
  end.

(** The expression matches at the start of the text. *)
Definition starts (ps : list piece) (dollar : bool) (text : list Z) : Prop :=
  ∃ s rest, text = s ++ rest ∧ lang ps s ∧ (dollar = true → rest = []).

(** The expression occurs in the text, with a caret only at its start. *)
Definition occurs (re text : list Z) : Prop :=
  let '(anchored, re) := match re with r0 :: re1 => if r0 =? caret then (true, re1) else (false, re) | [] => (false, re) end in
  ∃ pre text', text = pre ++ text' ∧ starts (fst (pieces re)) (snd (pieces re)) text' ∧ (anchored = true → pre = []).

Lemma fits_dec c t : (c =? dot) || (c =? t) = true ↔ fits c t.
Proof. unfold fits. rewrite orb_true_iff, !Z.eqb_eq. done. Qed.

Lemma matchstar_spec mh c text :
  matchstar mh c text = true ↔ ∃ s1 rest, text = s1 ++ rest ∧ Forall (fits c) s1 ∧ mh rest = true.
Proof.
  induction text as [|t text IH]; cbn [matchstar]; rewrite orb_true_iff.
  - split.
    + intros [H|H]; [|done]. exists [], []. by repeat split.
    + intros (s1 & rest & E & _ & H). symmetry in E. apply app_nil in E as [-> ->]. by left.
  - replace ((t =? c) || (c =? dot)) with ((c =? dot) || (c =? t)) by (rewrite orb_comm; f_equal; apply Z.eqb_sym).
    split.
    + intros [H|H]; [by exists [], (t :: text); repeat split|].
      destruct (_ || _) eqn:E; [|done]. apply fits_dec in E.
      apply IH in H as (s1 & rest & -> & Hs & Hm). exists (t :: s1), rest. repeat split; [by constructor|done].
    + intros ([|t' s1] & rest & E & Hs & Hm); [left; cbn in E; by subst|].
      injection E as <- E. apply Forall_cons in Hs as [Ht Hs]. right.
      rewrite (proj2 (fits_dec c t) Ht). apply IH. by exists s1, rest.
Qed.

Lemma starts_once c ps d text :
  starts (Once c :: ps) d text ↔ ∃ t text', text = t :: text' ∧ fits c t ∧ starts ps d text'.
Proof.
  split.
  - intros (s & rest & -> & (t & s' & -> & Hf & Hl) & Hd). exists t, (s' ++ rest). repeat split; [done|]. by exists s', rest.
  - intros (t & text' & -> & Hf & (s & rest & -> & Hl & Hd)). exists (t :: s), rest. repeat split; [|done]. by exists t, s.
Qed.
Lemma starts_many c ps d text :
  starts (Many c :: ps) d text ↔ ∃ s1 text', text = s1 ++ text' ∧ Forall (fits c) s1 ∧ starts ps d text'.
Proof.
  split.
  - intros (s & rest & -> & (s1 & s2 & -> & Hf & Hl) & Hd). exists s1, (s2 ++ rest).
    rewrite app_assoc. repeat split; [done|]. by exists s2, rest.
  - intros (s1 & text' & -> & Hf & (s & rest & -> & Hl & Hd)). exists (s1 ++ s), rest.
    rewrite app_assoc. repeat split; [|done]. by exists s1, s.
Qed.

Lemma matchhere_spec re text : matchhere re text = true ↔ starts (fst (pieces re)) (snd (pieces re)) text.
Proof.
  remember (length re) as n eqn:Hn. revert re text Hn. induction (Nat.lt_wf_0 n) as [n _ IH].
  intros re text ->. assert (IH' : ∀ re' text, (length re' < length re)%nat →
    matchhere re' text = true ↔ starts (fst (pieces re')) (snd (pieces re')) text) by (intros; by eapply IH). clear IH.
  assert (Hc : ∀ c re' text, (length re' < length re)%nat →
    match text with [] => false | t :: text => if (c =? dot) || (c =? t) then matchhere re' text else false end = true ↔
    starts (Once c :: fst (pieces re')) (snd (pieces re')) text).
  { intros c re' tx Hl. rewrite starts_once. destruct tx as [|t tx].
    - split; [done|]. by intros (? & ? & ? & _).
    - destruct (_ || _) eqn:E.
      + rewrite (IH' _ _ Hl). apply fits_dec in E. split; [by exists t, tx|]. by intros (? & ? & [= <- <-] & _ & ?).
      + split; [done|]. intros (? & ? & [= <- <-] & Hf & _). apply fits_dec in Hf. congruence. }
  destruct re as [|r0 re1]; [cbn; split; [by exists [], text|done]|].
  cbn [matchhere pieces]. destruct re1 as [|r1 re2].
  - destruct (Z.eqb_spec r0 dollar) as [->|].
    + cbn [fst snd]. split.
      * destruct text; [|done]. by exists [], [].
      * intros (s & rest & -> & -> & Hd). by rewrite (Hd eq_refl).
    + apply (Hc r0 []). cbn. lia.
  - destruct (r1 =? star).
    + cbn [fst snd]. rewrite matchstar_spec, starts_many. setoid_rewrite IH'; [done|cbn; lia].
    + apply (Hc r0 (r1 :: re2)). cbn. lia.
Qed.

Lemma match_from_spec re text :
  match_from re text = true ↔ ∃ pre text', text = pre ++ text' ∧ matchhere re text' = true.
Proof.
  induction text as [|t text IH]; cbn [match_from]; rewrite orb_true_iff.
  - split; [intros [H|H]; [by exists [], []|done]|].
    intros (pre & text' & E & H). symmetry in E. apply app_nil in E as [-> ->]. by left.
  - rewrite IH. split.
    + intros [H|(pre & text' & -> & H)]; [by exists [], (t :: text)|by exists (t :: pre), text'].
    + intros ([|t' pre] & text' & E & H); [left; cbn in E; by subst|right].
      injection E as <- ->. by exists pre, text'.
Qed.

(** C26: the matcher finds exactly the texts in which the expression occurs: literal
    characters, dots for any character, stars for any number of the character before,
    a caret for the start and a dollar for the end of the text. *)
Theorem grep_match_occurs re text : grep_match re text = true ↔ occurs re text.
Proof.
  unfold grep_match, occurs.
  assert (H : ∀ re, match_from re text = true ↔
    ∃ pre text', text = pre ++ text' ∧ starts (fst (pieces re)) (snd (pieces re)) text' ∧ (false = true → pre = [])).
  { intros re'. rewrite match_from_spec. setoid_rewrite matchhere_spec. split.
    - intros (pre & text' & ? & ?). by exists pre, text'.
    - intros (pre & text' & ? & ? & _). by exists pre, text'. }
  destruct re as [|r0 re1]; [apply H|]. destruct (r0 =? caret); [|apply H].
  rewrite matchhere_spec. split; [by exists [], text|]. intros (pre & text' & -> & Hs & Hp). by rewrite (Hp eq_refl).
Qed.

(** ** The lines of a file *)

(** The lines that end in a newline; [cur] is the start of the first one. *)
Fixpoint lines_of (cur : list Z) (file : list Z) : list (list Z) :=
  match file with
  | [] => []
  | c :: file => if c =? newline then cur :: lines_of [] file else lines_of (cur ++ [c]) file
  end.

Definition selected (pattern : list Z) (l : list (list Z)) : list Z :=
  concat ((λ line, if grep_match pattern line then line ++ [newline] else []) <$> l).

Lemma lines_of_app cur l file : newline ∉ l → lines_of cur (l ++ file) = lines_of (cur ++ l) file.
Proof.
  revert cur. induction l as [|c l IH]; intros cur; [by rewrite app_nil_r|].
  rewrite not_elem_of_cons. intros [Hc Hl]. cbn. rewrite (proj2 (Z.eqb_neq c newline)) by done.
  rewrite IH by done. by rewrite <- app_assoc.
Qed.
Lemma lines_of_nil cur l : newline ∉ l → lines_of cur l = [].
Proof. intros H. rewrite <- (app_nil_r l), lines_of_app by done. done. Qed.

(** The first line, when there is one. *)
Lemma split_line_spec p :
  0 ∉ p →
  match split_line p with
  | Some (line, rest) => p = line ++ newline :: rest ∧ newline ∉ line
  | None => newline ∉ p
  end.
Proof.
  induction p as [|c p IH]; [intros _; apply not_elem_of_nil|]. rewrite not_elem_of_cons. intros [Hc H]. cbn [split_line].
  rewrite (proj2 (Z.eqb_neq c 0)) by done. destruct (Z.eqb_spec c newline) as [->|Hn].
  - split; [done|apply not_elem_of_nil].
  - specialize (IH H). destruct (split_line p) as [[line rest]|]; cbn.
    + destruct IH as [-> Hl]. split; [done|]. by apply not_elem_of_cons.
    + by apply not_elem_of_cons.
Qed.

Lemma grep_lines_spec fuel pattern p out p' moved :
  0 ∉ p → (length p ≤ fuel)%nat → grep_lines fuel pattern p = (out, p', moved) →
  ∃ dn, p = dn ++ p' ∧ newline ∉ p' ∧
    out = selected pattern (lines_of [] dn) ∧ moved = bool_decide (dn ≠ []) ∧
    ∀ rest, lines_of [] (dn ++ rest) = lines_of [] dn ++ lines_of [] rest.
Proof.
  revert p out p' moved. induction fuel as [|fuel IH]; intros p out p' moved Hp Hf E.
  - injection E as <- <- <-. destruct p; [|cbn in Hf; lia]. exists []. split; [done|].
    split; [apply not_elem_of_nil|done].
  - cbn [grep_lines] in E. pose proof (split_line_spec p Hp) as Hs. destruct (split_line p) as [[line rest]|].
    2: { injection E as <- <- <-. by exists []. }
    destruct Hs as [-> Hl]. apply not_elem_of_app in Hp as [_ [_ Hr]%not_elem_of_cons].
    rewrite length_app in Hf. cbn in Hf. destruct (grep_lines fuel pattern rest) as [[out1 left1] moved1] eqn:E1.
    injection E as <- <- <-. destruct (IH rest out1 left1 moved1 Hr ltac:(lia) E1) as (dn & -> & Hn & -> & _ & Happ).
    exists (line ++ newline :: dn). rewrite <- app_assoc. split; [done|]. split; [done|].
    assert (L : ∀ r, lines_of [] ((line ++ newline :: dn) ++ r) = line :: lines_of [] (dn ++ r)).
    { intros r. rewrite <- app_assoc, lines_of_app by done. cbn. done. }
    pose proof (L []) as L0. rewrite !app_nil_r in L0.
    rewrite L0. split; [done|]. split; [by rewrite bool_decide_eq_true_2 by by destruct line|].
    intros r. by rewrite L, Happ.
Qed.

Lemma lines_of_elem cur l file : newline ∉ l → cur ++ l ∈ lines_of cur (l ++ newline :: file).
Proof. intros H. rewrite lines_of_app by done. cbn. by left. Qed.

(** Lines that fit in the buffer with their newline and the null. *)
Definition short_lines (file : list Z) : Prop := Forall (λ l, (length l + 2 ≤ BUFSZ)%nat) (lines_of [] file).

Lemma no_short_newline l file :
  newline ∉ l → (BUFSZ - 1 ≤ length l)%nat → short_lines (l ++ file) → newline ∉ file.
Proof.
  intros Hl Hlen Hs Hin. apply list_elem_of_split in Hin as (f1 & f2 & ->).
  assert (∃ g1 g2, f1 ++ newline :: f2 = g1 ++ newline :: g2 ∧ newline ∉ g1) as (g1 & g2 & E & Hg).
  { clear. induction f1 as [|c f1 (g1 & g2 & E & Hg)]; [exists [], f2; split; [done|apply not_elem_of_nil]|].
    destruct (decide (c = newline)) as [->|Hc]; [exists [], (f1 ++ newline :: f2); split; [done|apply not_elem_of_nil]|].
    exists (c :: g1), g2. cbn. rewrite E. split; [done|]. by apply not_elem_of_cons. }
  rewrite E in Hs. unfold short_lines in Hs. rewrite Forall_forall in Hs.
  assert (H : l ++ g1 ∈ lines_of [] (l ++ g1 ++ newline :: g2)).
  { rewrite app_assoc. apply (lines_of_elem []). by apply not_elem_of_app. }
  specialize (Hs _ H). rewrite length_app in Hs. lia.
Qed.

Lemma selected_app pattern l l' : selected pattern (l ++ l') = selected pattern l ++ selected pattern l'.
Proof. unfold selected. by rewrite fmap_app, concat_app. Qed.

Lemma grep_loop_file fuel pattern buf file :
  (length file < fuel)%nat → (length buf + 2 ≤ BUFSZ)%nat → newline ∉ buf → 0 ∉ buf ++ file → short_lines (buf ++ file) →
  grep_loop fuel read_file pattern buf file = selected pattern (lines_of [] (buf ++ file)).
Proof.
  revert buf file. induction fuel as [|fuel IH]; intros buf file Hf Hb Hn H0 Hs; [lia|].
  cbn [grep_loop read_file]. set (k := (BUFSZ - length buf - 1)%nat).
  assert (Hk1 : (1 ≤ k)%nat) by (unfold k; lia). assert (Hk2 : (k + length buf + 1 = BUFSZ)%nat) by (unfold k; lia). clearbody k.
  destruct file as [|c0 file0]; [by rewrite take_nil, app_nil_r, lines_of_nil|].
  destruct (take k (c0 :: file0)) as [|c got] eqn:Eg; [destruct k; [lia|done]|].
  assert (Efile : c0 :: file0 = (c :: got) ++ drop k (c0 :: file0)) by (by rewrite <- Eg, take_drop).
  set (rest := drop k (c0 :: file0)) in *. rewrite Efile, app_assoc in *.
  set (data := buf ++ c :: got) in *. rewrite length_app in Hf. cbn [length] in Hf.
  apply not_elem_of_app in H0 as [H0 H0'].
  destruct (grep_lines (length data) pattern data) as [[out p] moved] eqn:El.
  destruct (grep_lines_spec _ _ _ _ _ _ H0 (le_n _) El) as (dn & Ed & Hp & -> & -> & Happ).
  assert (Hk : (length data ≤ BUFSZ - 1)%nat).
  { unfold data. rewrite length_app, <- Eg, length_take. lia. }
  case_bool_decide as Hd.
  - rewrite IH.
    + rewrite Ed, <- app_assoc, Happ, selected_app. done.
    + lia.
    + rewrite Ed, length_app in Hk. destruct dn; [done|]. cbn [length] in Hk. lia.
    + done.
    + apply not_elem_of_app. split; [|done]. rewrite Ed in H0. by apply not_elem_of_app in H0 as [_ ?].
    + unfold short_lines in *. rewrite Ed, <- app_assoc, Happ in Hs. by apply Forall_app in Hs as [_ ?].
  - subst dn. cbn [app] in Ed. subst p.
    assert (Hr : newline ∉ rest).
    { destruct (decide (rest = [])) as [->|Hne]; [apply not_elem_of_nil|]. apply (no_short_newline data); [done| |done].
      unfold data. rewrite length_app, <- Eg, length_take, <- Efile. unfold rest in Hne.
      destruct (Nat.le_gt_cases (length (c0 :: file0)) k); [by rewrite drop_ge in Hne|]. lia. }
    rewrite IH; [|lia|unfold BUFSZ; cbn; lia|apply not_elem_of_nil|done|].
    + cbn [app]. rewrite (lines_of_nil [] rest Hr), (lines_of_nil [] (data ++ rest)); [done|]. by apply not_elem_of_app.
    + unfold short_lines. cbn [app]. by rewrite lines_of_nil.
Qed.

(** grep prints the lines that match.  For a file without null bytes whose lines fit in
    the buffer of 1024 bytes, with their newline and a null, grep writes the lines that
    match, each with its newline and in their order, and nothing else; it reads at most
    as often as the file has bytes, and once more. *)
Theorem grep_file fuel pattern file :
  (length file < fuel)%nat → 0 ∉ file → short_lines file →
  grep fuel read_file pattern file = selected pattern (lines_of [] file).
Proof.
  intros Hf H0 Hs. unfold grep. rewrite grep_loop_file; [done|done|unfold BUFSZ; cbn; lia|apply not_elem_of_nil|done|done].
Qed.

Lemma grep_file_witness :
  grep 100 read_file (str "^a.*c$") (str "abc" ++ [10] ++ str "bac" ++ [10] ++ str "ac" ++ [10]) =
    str "abc" ++ [10] ++ str "ac" ++ [10].
Proof.
  rewrite (grep_file 100 (str "^a.*c$") (str "abc" ++ [10] ++ str "bac" ++ [10] ++ str "ac" ++ [10])).
  - vm_compute. reflexivity.
  - cbn. lia.
  - by apply (bool_decide_unpack _).
  - unfold short_lines. repeat (apply Forall_cons_2; [unfold BUFSZ; cbn; lia|]). apply Forall_nil_2.
Defined.

Lemma split_line_none p : newline ∉ p → split_line p = None.
Proof.
  induction p as [|c p IH]; [done|]. rewrite not_elem_of_cons. intros [Hc H]. cbn [split_line].
  destruct (c =? 0); [done|]. rewrite (proj2 (Z.eqb_neq c newline)) by done. by rewrite IH.
Qed.
Lemma split_line_first l : newline ∉ l → 0 ∉ l → split_line (l ++ [newline]) = Some (l, []).
Proof.
  induction l as [|c l IH]; [done|]. rewrite !not_elem_of_cons. intros [Hc H] [H0 H']. cbn [split_line app].
  rewrite (proj2 (Z.eqb_neq c 0)), (proj2 (Z.eqb_neq c newline)) by done. by rewrite IH.
Qed.
Lemma grep_lines_nil fuel pattern : grep_lines fuel pattern [] = ([], [], false).
Proof. by destruct fuel. Qed.

(** Reads that give what a writer has put in a pipe. *)
Definition read_chunks (k : nat) (chunks : list (list Z)) : list Z * list (list Z) :=
  match chunks with
  | [] => ([], [])
  | c :: cs => (take k c, match drop k c with [] => cs | c' => c' :: cs end)
  end.

(** a read that ends inside a line loses the start of the line.  When the first read
    gives the characters [l1], without a newline, and the second the rest [l2] of the
    line, grep matches the pattern against [l2] alone. *)
Theorem grep_loses_start pattern l1 l2 :
  l1 ≠ [] → newline ∉ l1 → newline ∉ l2 → 0 ∉ l1 → 0 ∉ l2 → (length l1 < 1024)%nat → (length l2 < 1023)%nat →
  grep 3 read_chunks pattern [l1; l2 ++ [newline]] = if grep_match pattern l2 then l2 ++ [newline] else [].
Proof.
  intros Hne Hn1 Hn2 H1 H2 Hl1 Hl2. unfold grep. cbn [grep_loop read_chunks].
  change (BUFSZ - length (@nil Z) - 1)%nat with 1023%nat.
  rewrite (take_ge l1), (drop_ge l1) by lia. destruct l1 as [|c l1]; [done|]. cbn [app length grep_lines].
  rewrite split_line_none by done. cbn [app].
  change (BUFSZ - length (@nil Z) - 1)%nat with 1023%nat.
  cbn [read_chunks]. rewrite (take_ge (l2 ++ _)), (drop_ge (l2 ++ _)) by (rewrite length_app; cbn; lia).
  destruct (l2 ++ [newline]) as [|x l] eqn:E; [by apply app_nil in E as [_ ?]|]. rewrite <- E.
  replace (length (l2 ++ [newline])) with (S (length l2)) by (rewrite length_app; cbn; lia).
  cbn [grep_lines app]. rewrite split_line_first, grep_lines_nil by done. cbn [read_chunks]. by rewrite !app_nil_r.
Qed.

Lemma grep_loses_start_witness :
  grep 3 read_chunks (str "warning") [str "war"; str "ning: x" ++ [newline]] = [] ∧
  grep 3 read_chunks (str "warning") [str "warning: x" ++ [newline]] = str "warning: x" ++ [newline].
Proof.
  split; [|vm_compute; reflexivity]. rewrite (grep_loses_start (str "warning") (str "war") (str "ning: x")).
  - vm_compute. reflexivity.
  - done.
  - by apply (bool_decide_unpack _).
  - by apply (bool_decide_unpack _).
  - by apply (bool_decide_unpack _).
  - by apply (bool_decide_unpack _).
  - cbn. lia.
  - cbn. lia.
Defined.
