(* ===== verification/Sh.v ===== *)
(** * The shell: the parser of sh.c, and what a parsed command runs

    The line is a buffer of characters without the null that ends it; a pointer into it is
    a position, and [es] the position after the last character.  Parsing stops in
    [panic] or returns a command whose arguments point into the buffer; nulterminate
    then ends each of them with a null. *)

From S2P Require Import Prelude Params.

Definition MAXARGS : nat := 10.

(** ** Commands *)
Inductive cmd :=
| EXEC (argv : list (nat * nat))                            (* argv[i], eargv[i] *)
| REDIR (c : cmd) (file efile : nat) (mode fd : Z)
| PIPE (l r : cmd)
| LIST (l r : cmd)
| BACK (c : cmd).

(** ** Characters *)
Definition whitespace : list Z := [32; 9; 13; 10; 11].
Definition symbols : list Z := str "<|>&;()".

(** ulib.c: strchr finds no null. *)
Fixpoint strchr (s : list Z) (c : Z) : bool :=
  match s with
  | [] => false
  | x :: s => (x =? c) || strchr s c
  end.

(** [*s]: the null at the end of the line. *)
Definition at_ (b : list Z) (s : nat) : Z := default 0 (b !! s).

Fixpoint count_while (f : Z → bool) (l : list Z) : nat :=
  match l with
  | [] => 0
  | c :: l => if f c then S (count_while f l) else 0
  end.

(** while(s < es && f( *s)) s++; *)
Definition skip (f : Z → bool) (b : list Z) (s : nat) : nat := (s + count_while f (drop s b))%nat.

Definition word_char (c : Z) : bool := negb (strchr whitespace c) && negb (strchr symbols c).

(** ** Tokens *)

(** The token, where it starts and ends, and the new position. *)
Definition gettoken (b : list Z) (s : nat) : Z * nat * nat * nat :=
  let q := skip (strchr whitespace) b s in
  let c := at_ b q in
  let '(ret, eq) :=
    if c =? 0 then (c, q)
    else if strchr (str "|();&<") c then (c, S q)
    else if c =? 62 then if at_ b (S q) =? 62 then (43, S (S q)) else (c, S q)
    else (97, skip word_char b q) in
  (ret, q, eq, skip (strchr whitespace) b eq).

(** Whether the next token starts with one of [toks], and the new position. *)
Definition peek (b : list Z) (toks : list Z) (s : nat) : bool * nat :=
  let s := skip (strchr whitespace) b s in
  (negb (at_ b s =? 0) && strchr toks (at_ b s), s).

(** ** The parser *)

(** What a parsing function gives. *)
Inductive parsed (A : Type) := Ok (a : A) (s : nat) | Syntax (msg : string) | Out_of_fuel.
Arguments Ok {A} a s.
Arguments Syntax {A} msg.
Arguments Out_of_fuel {A}.

Definition then_ {A B} (m : parsed A) (k : A → nat → parsed B) : parsed B :=
  match m with Ok a s => k a s | Syntax e => Syntax e | Out_of_fuel => Out_of_fuel end.

(** A redirection: file, efile, mode and fd. *)
Definition redir : Type := nat * nat * Z * Z.
Definition redircmd (c : cmd) (r : redir) : cmd :=
  let '(file, efile, mode, fd) := r in REDIR c file efile mode fd.

Section parser.
Variable b : list Z.

(** The redirections that parseredirs puts around the command, innermost first. *)
Fixpoint parseredirs (fuel : nat) (acc : list redir) (s : nat) : parsed (list redir) :=
  let '(p, s) := peek b (str "<>") s in
  if p then
    match fuel with
    | O => Out_of_fuel
    | S fuel =>
        let '(tok, _, _, s) := gettoken b s in
        let '(t, q, eq, s) := gettoken b s in
        if negb (t =? 97) then Syntax "missing file for redirection"
        else
          let acc :=
            if tok =? 60 then acc ++ [(q, eq, O_RDONLY, 0)]
            else if tok =? 62 then acc ++ [(q, eq, Z.lor O_WRONLY O_CREATE, 1)]
            else if tok =? 43 then acc ++ [(q, eq, Z.lor O_WRONLY O_CREATE, 1)]
            else acc in
          parseredirs fuel acc s
    end
  else Ok acc s.

(** The loop of parseexec over the words and redirections.  The redirections are around
    the one execcmd that the words go into. *)
Fixpoint parseargs (fuel : nat) (argv : list (nat * nat)) (rs : list redir) (s : nat) : parsed (list (nat * nat) * list redir) :=
  let '(p, s) := peek b (str "|)&;") s in
  if p then Ok (argv, rs) s
  else
    match fuel with
    | O => Out_of_fuel
    | S fuel =>
        let '(tok, q, eq, s) := gettoken b s in
        if tok =? 0 then Ok (argv, rs) s
        else if negb (tok =? 97) then Syntax "syntax"
        else
          let argv := argv ++ [(q, eq)] in
          if (MAXARGS <=? length argv)%nat then Syntax "too many args"
          else then_ (parseredirs (length b) rs s) (λ rs s, parseargs fuel argv rs s)
    end.

(** The loop of parseline over the ampersands. *)
Fixpoint parseback (fuel : nat) (c : cmd) (s : nat) : parsed cmd :=
  let '(p, s) := peek b (str "&") s in
  if p then
    match fuel with
    | O => Out_of_fuel
    | S fuel => let '(_, _, _, s) := gettoken b s in parseback fuel (BACK c) s
    end
  else Ok c s.

Fixpoint parseline (fuel : nat) (s : nat) : parsed cmd :=
  match fuel with
  | O => Out_of_fuel
  | S fuel =>
      then_ (parsepipe fuel s) (λ c s,
      then_ (parseback (length b) c s) (λ c s,
      let '(p, s) := peek b (str ";") s in
      if p then
        let '(_, _, _, s) := gettoken b s in
        then_ (parseline fuel s) (λ r s, Ok (LIST c r) s)
      else Ok c s))
  end
with parsepipe (fuel : nat) (s : nat) : parsed cmd :=
  match fuel with
  | O => Out_of_fuel
  | S fuel =>
      then_ (parseexec fuel s) (λ c s,
      let '(p, s) := peek b (str "|") s in
      if p then
        let '(_, _, _, s) := gettoken b s in
        then_ (parsepipe fuel s) (λ r s, Ok (PIPE c r) s)
      else Ok c s)
  end
with parseexec (fuel : nat) (s : nat) : parsed cmd :=
  match fuel with
  | O => Out_of_fuel
  | S fuel =>
      let '(p, s) := peek b (str "(") s in
      if p then parseblock fuel s
      else
        then_ (parseredirs (length b) [] s) (λ rs s,
        then_ (parseargs (length b + 1) [] rs s) (λ ar s,
        Ok (foldl redircmd (EXEC (fst ar)) (snd ar)) s))
  end
with parseblock (fuel : nat) (s : nat) : parsed cmd :=
  match fuel with
  | O => Out_of_fuel
  | S fuel =>
      let '(p, s) := peek b (str "(") s in
      if negb p then Syntax "parseblock"
      else
        let '(_, _, _, s) := gettoken b s in
        then_ (parseline fuel s) (λ c s,
        let '(p, s) := peek b (str ")") s in
        if negb p then Syntax "syntax - missing )"
        else
          let '(_, _, _, s) := gettoken b s in
          then_ (parseredirs (length b) [] s) (λ rs s, Ok (foldl redircmd c rs) s))
  end.
End parser.

(** ** nulterminate *)

(** Storing a null at position [p]; the position after the last character has one. *)
Definition put_nul (p : nat) (b : list Z) : list Z := <[p := 0]> b.

Fixpoint nulterminate (c : cmd) (b : list Z) : list Z :=
  match c with
  | EXEC argv => foldl (λ b a, put_nul (snd a) b) b argv
  | REDIR c _ efile _ _ => put_nul efile (nulterminate c b)
  | PIPE l r => nulterminate r (nulterminate l b)
  | LIST l r => nulterminate r (nulterminate l b)
  | BACK c => nulterminate c b
  end.

(** The fuel: every character can open a block, with four functions for each.  Before the
    last syntax error the code also prints what is left of the line. *)
Definition parsecmd (b : list Z) : parsed (cmd * list Z) :=
  then_ (parseline b (4 * length b + 4) 0) (λ c s,
  let '(_, s) := peek b [] s in
  if negb (s =? length b)%nat then Syntax "syntax"
  else Ok (c, nulterminate c b) s).
