(* ===== verification/ShTheorems.v ===== *)
(** * The parser of the shell ends, and reads back what is printed *)

From S2P Require Import Prelude Params Sh.

(** ** Positions *)
Lemma count_while_le f l : (count_while f l ≤ length l)%nat.
Proof. induction l as [|c l IH]; [done|]. cbn. destruct (f c); lia. Qed.
Lemma skip_ge f b s : (s ≤ skip f b s)%nat.
Proof. unfold skip. lia. Qed.
Lemma skip_le f b s : (s ≤ length b)%nat → (skip f b s ≤ length b)%nat.
Proof. intros H. unfold skip. pose proof (count_while_le f (drop s b)). rewrite length_drop in H0. lia. Qed.

Lemma at_lt b s : at_ b s ≠ 0 → (s < length b)%nat.
Proof.
  unfold at_. destruct (b !! s) eqn:E; [intros _; by eapply lookup_lt_Some|done].
Qed.

Lemma count_while_drop f b s c : b !! s = Some c → f c = true → (1 ≤ count_while f (drop s b))%nat.
Proof. intros H Hf. rewrite (drop_S _ _ _ H). cbn. rewrite Hf. lia. Qed.

(** Where the loop stops. *)
Lemma count_while_stops f l c : l !! count_while f l = Some c → f c = false.
Proof.
  induction l as [|x l IH]; [done|]. cbn. destruct (f x) eqn:E; [apply IH|]. by intros [= ->].
Qed.
Lemma skip_stops f b s c : b !! skip f b s = Some c → f c = false.
Proof. unfold skip. rewrite <- lookup_drop. apply count_while_stops. Qed.

Lemma symbols_strchr c : strchr symbols c = strchr (str "|();&<") c || (62 =? c).
Proof.
  change symbols with [60; 124; 62; 38; 59; 40; 41]. change (str "|();&<") with [124; 40; 41; 59; 38; 60]. cbn [strchr].
  by destruct (60 =? c), (124 =? c), (62 =? c), (38 =? c), (59 =? c), (40 =? c), (41 =? c).
Qed.

(** A token other than the end takes at least one character. *)
Lemma gettoken_step b s t q eq s' :
  gettoken b s = (t, q, eq, s') → (s ≤ length b)%nat →
  (s ≤ s' ≤ length b)%nat ∧ (at_ b (skip (strchr whitespace) b s) ≠ 0 → (s < s')%nat) ∧ (t ≠ 0 → at_ b (skip (strchr whitespace) b s) ≠ 0).
Proof.
  unfold gettoken. set (q0 := skip (strchr whitespace) b s). intros E Hs.
  assert (Hq : (s ≤ q0 ≤ length b)%nat) by (split; [apply skip_ge|by apply skip_le]).
  assert (H : ∃ r e, (r, e) = (if at_ b q0 =? 0 then (at_ b q0, q0)
      else if strchr (str "|();&<") (at_ b q0) then (at_ b q0, S q0)
      else if at_ b q0 =? 62 then if at_ b (S q0) =? 62 then (43, S (S q0)) else (at_ b q0, S q0)
      else (97, skip word_char b q0)) ∧ (q0 ≤ e ≤ length b)%nat ∧ (at_ b q0 ≠ 0 → (q0 < e)%nat) ∧ (r ≠ 0 → at_ b q0 ≠ 0)).
  { destruct (Z.eqb_spec (at_ b q0) 0) as [E0|E0].
    { eexists _, _. split; [done|]. split; [lia|]. split; [done|congruence]. }
    pose proof (at_lt _ _ E0). destruct (strchr _ _) eqn:Es.
    { eexists _, _. split; [done|]. split; [lia|]. split; [lia|done]. }
    destruct (Z.eqb_spec (at_ b q0) 62) as [E62|E62].
    - destruct (Z.eqb_spec (at_ b (S q0)) 62) as [E1|E1].
      + assert (S q0 < length b)%nat by (apply at_lt; lia). eexists _, _. split; [done|]. split; [lia|]. split; [lia|done].
      + eexists _, _. split; [done|]. split; [lia|]. split; [lia|done].
    - pose proof (skip_ge word_char b q0). pose proof (skip_le word_char b q0 ltac:(lia)).
      eexists _, _. split; [done|]. split; [lia|]. split; [|done]. intros _. unfold skip.
      destruct (b !! q0) as [c|] eqn:Ec; [|apply lookup_ge_None in Ec; lia].
      assert (Hw : word_char c = true).
      { assert (Hc : at_ b q0 = c) by (unfold at_; by rewrite Ec). rewrite Hc in *.
        assert (Hws : strchr whitespace c = false).
        { pose proof (skip_stops (strchr whitespace) b s c) as Hx. by apply Hx. }
        unfold word_char. rewrite Hws, symbols_strchr, Es, (proj2 (Z.eqb_neq 62 c)) by congruence. done. }
      pose proof (count_while_drop _ _ _ _ Ec Hw). lia. }
  destruct H as (r & e & Ee & He & H1 & H2). rewrite <- Ee in E.
  pose proof (skip_ge (strchr whitespace) b e). pose proof (skip_le (strchr whitespace) b e ltac:(lia)).
  generalize dependent (skip (strchr whitespace) b e). intros s2 E ? ?. injection E as <- <- <- <-.
  split; [lia|]. split; [|done]. intros Hn. specialize (H1 Hn). lia.
Qed.

(** [peek] only skips; when it finds a token, there is a character. *)
Lemma peek_step b toks s p s' :
  peek b toks s = (p, s') → (s ≤ length b)%nat →
  s' = skip (strchr whitespace) b s ∧ (s ≤ s' ≤ length b)%nat ∧ (p = true → at_ b s' ≠ 0).
Proof.
  unfold peek. intros [= <- <-] Hs. split; [done|]. split; [split; [apply skip_ge|by apply skip_le]|].
  intros [H _]%andb_true_iff. apply negb_true_iff, Z.eqb_neq in H. done.
Qed.

Lemma skip_idem f b s : skip f b (skip f b s) = skip f b s.
Proof.
  unfold skip at 1. enough (count_while f (drop (skip f b s) b) = 0%nat) as -> by lia.
  destruct (drop (skip f b s) b) as [|c l] eqn:E; [done|]. cbn.
  rewrite (skip_stops f b s c); [done|].
  assert (H : drop (skip f b s) b !! 0%nat = Some c) by (by rewrite E). rewrite lookup_drop, Nat.add_0_r in H. done.
Qed.

(** After a [peek] that finds a token, [gettoken] takes at least one character. *)
Lemma peek_gettoken b toks s s1 t q eq s2 :
  peek b toks s = (true, s1) → gettoken b s1 = (t, q, eq, s2) → (s ≤ length b)%nat →
  (s < s2 ≤ length b)%nat.
Proof.
  intros Hp Hg Hs. apply peek_step in Hp as (-> & H1 & H2); [|done].
  apply gettoken_step in Hg as (H3 & H4 & _); [|lia]. rewrite skip_idem in H4. specialize (H4 (H2 eq_refl)). lia.
Qed.

(** ** The parser ends *)

(** The result is not for want of fuel, and a position at or after [s]. *)
Definition ends_after {A} (b : list Z) (s : nat) (r : parsed A) : Prop :=
  match r with Ok _ s' => (s ≤ s' ≤ length b)%nat | Syntax _ => True | Out_of_fuel => False end.

Lemma ends_then {A B} b s (m : parsed A) (k : A → nat → parsed B) :
  ends_after b s m → (∀ a s', (s ≤ s' ≤ length b)%nat → ends_after b s (k a s')) → ends_after b s (then_ m k).
Proof. destruct m; cbn; auto. Qed.
Lemma ends_weaken {A} b s s' (m : parsed A) : (s ≤ s')%nat → ends_after b s' m → ends_after b s m.
Proof. destruct m; cbn; intros; [lia|done|done]. Qed.

Lemma parseredirs_ends b fuel acc s :
  (s ≤ length b)%nat → (length b - s ≤ fuel)%nat → ends_after b s (parseredirs b fuel acc s).
Proof.
  revert acc s. induction fuel as [|fuel IH]; intros acc s Hs Hf; cbn [parseredirs];
    destruct (peek b (str "<>") s) as [p s1] eqn:Ep.
  - pose proof (peek_step _ _ _ _ _ Ep Hs) as (_ & H1 & H2). destruct p; [|exact H1]. specialize (H2 eq_refl). apply at_lt in H2. lia.
  - pose proof (peek_step _ _ _ _ _ Ep Hs) as (_ & H1 & _). destruct p; [|exact H1].
    destruct (gettoken b s1) as [[[t q] eq] s2] eqn:E1. pose proof (peek_gettoken _ _ _ _ _ _ _ _ Ep E1 Hs).
    destruct (gettoken b s2) as [[[t' q'] eq'] s3] eqn:E2. apply gettoken_step in E2 as (H3 & _); [|lia].
    destruct (negb _); [done|]. apply (ends_weaken b s s3); [lia|]. apply IH; lia.
Qed.

Lemma parseargs_ends b fuel argv rs s :
  (s ≤ length b)%nat → (length b - s < fuel)%nat → ends_after b s (parseargs b fuel argv rs s).
Proof.
  revert argv rs s. induction fuel as [|fuel IH]; intros argv rs s Hs Hf; [lia|]. cbn [parseargs].
  destruct (peek b (str "|)&;") s) as [p s1] eqn:Ep. apply peek_step in Ep as (_ & H1 & _); [|done].
  destruct p; [exact H1|]. destruct (gettoken b s1) as [[[t q] eq] s2] eqn:E1.
  apply gettoken_step in E1 as (H2 & H3 & H4); [|lia]. destruct (Z.eqb_spec t 0) as [->|Ht]; [cbn; lia|].
  specialize (H3 (H4 Ht)). destruct (negb _); [done|]. destruct (_ <=? _)%nat; [done|].
  apply (ends_weaken b s s2); [lia|]. apply ends_then; [apply parseredirs_ends; lia|].
  intros rs' s3 H5. apply (ends_weaken b s2 s3); [lia|]. apply IH; lia.
Qed.

Lemma parseback_ends b fuel c s :
  (s ≤ length b)%nat → (length b - s ≤ fuel)%nat → ends_after b s (parseback b fuel c s).
Proof.
  revert c s. induction fuel as [|fuel IH]; intros c s Hs Hf; cbn [parseback];
    destruct (peek b (str "&") s) as [p s1] eqn:Ep.
  - pose proof (peek_step _ _ _ _ _ Ep Hs) as (_ & H1 & H2). destruct p; [|exact H1]. specialize (H2 eq_refl). apply at_lt in H2. lia.
  - pose proof (peek_step _ _ _ _ _ Ep Hs) as (_ & H1 & _). destruct p; [|exact H1].
    destruct (gettoken b s1) as [[[t q] eq] s2] eqn:E1. pose proof (peek_gettoken _ _ _ _ _ _ _ _ Ep E1 Hs).
    apply (ends_weaken b s s2); [lia|]. apply IH; lia.
Qed.

Lemma parser_ends b fuel s :
  (s ≤ length b)%nat →
  ((4 * (length b - s) + 4 ≤ fuel)%nat → ends_after b s (parseline b fuel s)) ∧
  ((4 * (length b - s) + 3 ≤ fuel)%nat → ends_after b s (parsepipe b fuel s)) ∧
  ((4 * (length b - s) + 2 ≤ fuel)%nat → ends_after b s (parseexec b fuel s)) ∧
  ((4 * (length b - s) + 1 ≤ fuel)%nat → ends_after b s (parseblock b fuel s)).
Proof.
  revert s. induction fuel as [|fuel IH]; intros s Hs; [lia|].
  split; [|split; [|split]]; intros Hf; cbn [parseline parsepipe parseexec parseblock].
  - apply ends_then; [apply IH; lia|]. intros c s1 H1.
    apply ends_then; [apply (ends_weaken b s s1); [lia|]; apply parseback_ends; lia|]. intros c' s2 H2.
    destruct (peek b (str ";") s2) as [p s3] eqn:Ep. pose proof (peek_step _ _ _ _ _ Ep ltac:(lia)) as (_ & H3 & _).
    destruct p; [|cbn; lia]. destruct (gettoken b s3) as [[[t q] eq] s4] eqn:E1.
    pose proof (peek_gettoken _ _ _ _ _ _ _ _ Ep E1 ltac:(lia)).
    apply (ends_weaken b s s4); [lia|]. apply ends_then; [apply IH; lia|]. done.
  - apply ends_then; [apply IH; lia|]. intros c s2 H2.
    destruct (peek b (str "|") s2) as [p s3] eqn:Ep. pose proof (peek_step _ _ _ _ _ Ep ltac:(lia)) as (_ & H3 & _).
    destruct p; [|cbn; lia]. destruct (gettoken b s3) as [[[t q] eq] s4] eqn:E1.
    pose proof (peek_gettoken _ _ _ _ _ _ _ _ Ep E1 ltac:(lia)).
    apply (ends_weaken b s s4); [lia|]. apply ends_then; [apply IH; lia|]. done.
  - destruct (peek b (str "(") s) as [p s1] eqn:Ep. apply peek_step in Ep as (_ & H1 & _); [|done].
    apply (ends_weaken b s s1); [lia|]. destruct p; [apply IH; lia|].
    apply ends_then; [apply parseredirs_ends; lia|]. intros rs s2 H2.
    apply ends_then; [apply (ends_weaken b s1 s2); [lia|]; apply parseargs_ends; lia|]. done.
  - destruct (peek b (str "(") s) as [p s1] eqn:Ep. destruct p; [|done]. cbn [negb].
    destruct (gettoken b s1) as [[[t q] eq] s2] eqn:E1. pose proof (peek_gettoken _ _ _ _ _ _ _ _ Ep E1 Hs).
    apply (ends_weaken b s s2); [lia|]. apply ends_then; [apply IH; lia|]. intros c s3 H3.
    destruct (peek b (str ")") s3) as [p s4] eqn:Ep'. destruct p; [|done]. cbn [negb].
    destruct (gettoken b s4) as [[[t' q'] eq'] s5] eqn:E2. pose proof (peek_gettoken _ _ _ _ _ _ _ _ Ep' E2 ltac:(lia)).
    apply (ends_weaken b s2 s5); [lia|]. apply ends_then; [apply parseredirs_ends; lia|]. done.
Qed.

(** C36: the parser of the shell ends on every line: it returns a command or reports a syntax
    error. *)
Theorem parsecmd_ends b : parsecmd b ≠ Out_of_fuel.
Proof.
  unfold parsecmd. destruct (parser_ends b (4 * length b + 4) 0 ltac:(lia)) as (H & _).
  specialize (H ltac:(lia)). destruct (parseline _ _ _) as [c s| |]; [|done|done]. cbn [then_].
  destruct (peek b [] s) as [p s']. by destruct (negb _).
Qed.

(** ** Commands with their strings *)
Inductive scmd :=
| SExec (argv : list (list Z))
| SRedir (c : scmd) (file : list Z) (mode fd : Z)
| SPipe (l r : scmd)
| SList (l r : scmd)
| SBack (c : scmd).

(** The C string at a position. *)
Definition string_at (b : list Z) (q : nat) : list Z :=
  take (count_while (λ c, negb (c =? 0)) (drop q b)) (drop q b).

Fixpoint strings (b : list Z) (c : cmd) : scmd :=
  match c with
  | EXEC argv => SExec ((λ a, string_at b (fst a)) <$> argv)
  | REDIR c file _ mode fd => SRedir (strings b c) (string_at b file) mode fd
  | PIPE l r => SPipe (strings b l) (strings b r)
  | LIST l r => SList (strings b l) (strings b r)
  | BACK c => SBack (strings b c)
  end.

(** The command that runcmd sees for a line. *)
Definition parse (b : list Z) : option scmd :=
  match parsecmd b with Ok (c, b') _ => Some (strings b' c) | _ => None end.

(** A token that stands for a word: its characters are those of the word, and it goes as
    far as there are such characters. *)
Record names (b : list Z) (q eq : nat) (w : list Z) : Prop := {
  nm_word : drop q b = w ++ drop eq b;
  nm_end : eq = (q + length w)%nat;
  nm_chars : Forall (λ c, word_char c = true ∧ c ≠ 0) w;
  nm_stop : ∀ c, b !! eq = Some c → word_char c = false
}.

Fixpoint cmd_names (b : list Z) (c : cmd) (x : scmd) : Prop :=
  match c, x with
  | EXEC argv, SExec ws => Forall2 (λ a w, names b (fst a) (snd a) w) argv ws
  | REDIR c file efile mode fd, SRedir x w mode' fd' => cmd_names b c x ∧ names b file efile w ∧ mode = mode' ∧ fd = fd'
  | PIPE l r, SPipe x y => cmd_names b l x ∧ cmd_names b r y
  | LIST l r, SList x y => cmd_names b l x ∧ cmd_names b r y
  | BACK c, SBack x => cmd_names b c x
  | _, _ => False
  end.

(** *** nulterminate *)
Fixpoint cmd_ends (c : cmd) : list nat :=
  match c with
  | EXEC argv => snd <$> argv
  | REDIR c _ efile _ _ => cmd_ends c ++ [efile]
  | PIPE l r | LIST l r => cmd_ends l ++ cmd_ends r
  | BACK c => cmd_ends c
  end.

Lemma nulterminate_puts c b : nulterminate c b = foldl (λ b e, put_nul e b) b (cmd_ends c).
Proof.
  revert b. induction c as [argv|c IH file efile mode fd|l IHl r IHr|l IHl r IHr|c IH]; intros b; cbn [nulterminate cmd_ends].
  - revert b. induction argv as [|a argv IH]; intros b; [done|]. apply IH.
  - rewrite foldl_app, IH. done.
  - by rewrite foldl_app, IHl, IHr.
  - by rewrite foldl_app, IHl, IHr.
  - apply IH.
Qed.

Lemma puts_lookup es b k :
  foldl (λ b e, put_nul e b) b es !! k = if decide (k ∈ es ∧ (k < length b)%nat) then Some 0 else b !! k.
Proof.
  revert b. induction es as [|e es IH]; intros b; cbn [foldl].
  - rewrite decide_False; [done|]. intros [?%elem_of_nil _]. done.
  - rewrite IH. unfold put_nul. rewrite length_insert. destruct (decide (k = e)) as [->|Hne].
    + destruct (decide (e < length b)%nat).
      * rewrite list_lookup_insert_eq by done. rewrite (decide_True (P := e ∈ e :: es ∧ _)); [by destruct (decide _)|].
        split; [by left|done].
      * rewrite !decide_False by naive_solver. rewrite list_insert_ge by lia. done.
    + rewrite list_lookup_insert_ne by done. apply decide_ext. rewrite elem_of_cons. naive_solver.
Qed.

Lemma string_at_spec b q w :
  (∀ k c, w !! k = Some c → b !! (q + k)%nat = Some c ∧ c ≠ 0) →
  (∀ c, b !! (q + length w)%nat = Some c → c = 0) → string_at b q = w.
Proof.
  intros Hw He. unfold string_at. set (l := drop q b).
  assert (Hw' : ∀ k c, w !! k = Some c → l !! k = Some c ∧ c ≠ 0) by (intros; unfold l; rewrite lookup_drop; by apply Hw).
  assert (He' : ∀ c, l !! length w = Some c → c = 0) by (intros c; unfold l; rewrite lookup_drop; apply He).
  clearbody l. clear Hw He. revert l Hw' He'. induction w as [|c w IH]; intros l Hw He.
  - destruct l as [|c l]; [done|]. cbn. by rewrite (He c eq_refl).
  - destruct l as [|c' l]; [by destruct (Hw 0%nat c eq_refl)|].
    destruct (Hw 0%nat c eq_refl) as [[= ->] Hc]. cbn. rewrite (proj2 (Z.eqb_neq c 0)) by done. cbn. f_equal.
    apply IH; [intros k x Hk; by apply (Hw (S k))|intros x Hx; by apply He].
Qed.

Lemma names_string b es q eq w :
  names b q eq w → eq ∈ es → (∀ e c, e ∈ es → b !! e = Some c → word_char c = false) →
  string_at (foldl (λ b e, put_nul e b) b es) q = w.
Proof.
  intros [H1 -> H3 H4] Hin Hes.
  assert (Hb : ∀ k c, w !! k = Some c → b !! (q + k)%nat = Some c).
  { intros k c Hk. rewrite <- lookup_drop, H1, lookup_app_l; [done|by eapply lookup_lt_Some]. }
  apply string_at_spec.
  - intros k c Hk. pose proof (Hb k c Hk) as Hbk. rewrite Forall_forall in H3.
    destruct (H3 c) as [Hc H0]; [by eapply list_elem_of_lookup_2|]. split; [|done].
    rewrite puts_lookup, decide_False; [done|]. intros [Hk' _]. rewrite (Hes _ _ Hk' Hbk) in Hc. done.
  - intros c. rewrite puts_lookup. destruct (decide _) as [_|Hn]; [by intros [= <-]|].
    intros Hc. destruct Hn. split; [done|by eapply lookup_lt_Some].
Qed.

Lemma cmd_ends_stop b c x e ch : cmd_names b c x → e ∈ cmd_ends c → b !! e = Some ch → word_char ch = false.
Proof.
  revert x. induction c as [argv|c IH file efile mode fd|l IHl r IHr|l IHl r IHr|c IH]; intros x Hx He Hch;
    destruct x as [ws|x w mode' fd'|x y|x y|x]; try done; cbn [cmd_names cmd_ends] in *.
  - apply list_elem_of_fmap in He as (a & -> & (i & Ha)%list_elem_of_lookup_1).
    destruct (Forall2_lookup_l _ _ _ _ _ Hx Ha) as (w & _ & Hw). by apply (nm_stop _ _ _ _ Hw).
  - destruct Hx as (Hc & Hw & _). apply elem_of_app in He as [He| ->%list_elem_of_singleton]; [by eapply IH|].
    by apply (nm_stop _ _ _ _ Hw).
  - destruct Hx as (Hl & Hr). apply elem_of_app in He as [He|He]; [by eapply IHl|by eapply IHr].
  - destruct Hx as (Hl & Hr). apply elem_of_app in He as [He|He]; [by eapply IHl|by eapply IHr].
  - by eapply IH.
Qed.

(** The strings after nulterminate are the words of the tokens. *)
Lemma strings_names b c x es :
  cmd_names b c x → (∀ e, e ∈ cmd_ends c → e ∈ es) → (∀ e ch, e ∈ es → b !! e = Some ch → word_char ch = false) →
  strings (foldl (λ b e, put_nul e b) b es) c = x.
Proof.
  revert x. induction c as [argv|c IH file efile mode fd|l IHl r IHr|l IHl r IHr|c IH]; intros x Hx Hsub Hes;
    destruct x as [ws|x w mode' fd'|x y|x y|x]; try done; cbn [cmd_names cmd_ends strings] in *.
  - f_equal. clear -Hx Hsub Hes. induction Hx as [|a w argv ws Ha Hx IH]; [done|]. cbn. f_equal.
    + apply (names_string _ _ _ _ _ Ha); [apply Hsub; by left|done].
    + apply IH. intros e He. apply Hsub. by right.
  - destruct Hx as (Hc & Hw & -> & ->). f_equal.
    + apply IH; [done| |done]. intros e He. apply Hsub, elem_of_app. by left.
    + apply (names_string _ _ _ _ _ Hw); [|done]. apply Hsub, elem_of_app. right. by left.
  - destruct Hx as (Hl & Hr). f_equal; [apply IHl|apply IHr]; try done; intros e He; apply Hsub, elem_of_app; auto.
  - destruct Hx as (Hl & Hr). f_equal; [apply IHl|apply IHr]; try done; intros e He; apply Hsub, elem_of_app; auto.
  - f_equal. by apply IH.
Qed.

Lemma strings_nulterminate b c x : cmd_names b c x → strings (nulterminate c b) c = x.
Proof.
  intros Hx. rewrite nulterminate_puts. apply strings_names; [done|done|]. intros e ch He. by eapply cmd_ends_stop.
Qed.
