(* ===== verification/ShPrint.v ===== *)
(** * The parser of the shell reads back what is printed *)

From S2P Require Import Prelude Params Sh ShTheorems.

(** ** Tokens and their text *)
Inductive tok := Sym (c : Z) | Word (w : list Z).

Definition tchars (t : tok) : list Z := match t with Sym c => [c] | Word w => w end.

(** Every token with a space before it. *)
Definition text (ts : list tok) : list Z := concat ((λ t, 32 :: tchars t) <$> ts).

Definition word_ok (w : list Z) : Prop := w ≠ [] ∧ Forall (λ c, word_char c = true ∧ c ≠ 0) w.
Definition tok_ok (t : tok) : Prop :=
  match t with Sym c => strchr symbols c = true | Word w => word_ok w end.

Lemma text_cons t ts : text (t :: ts) = 32 :: tchars t ++ text ts.
Proof. done. Qed.

(** Behind the white space at position [s] are the tokens [ts], and no others. *)
Definition sees (b : list Z) (s : nat) (ts : list tok) : Prop :=
  drop (skip (strchr whitespace) b s) b = match ts with [] => [] | t :: ts => tchars t ++ text ts end ∧
  Forall tok_ok ts.

Lemma sees_skip b s ts : sees b s ts → sees b (skip (strchr whitespace) b s) ts.
Proof. unfold sees. by rewrite skip_idem. Qed.

Lemma symbol_not_white c : strchr symbols c = true → strchr whitespace c = false ∧ word_char c = false ∧ c ≠ 0.
Proof.
  intros H. unfold word_char. rewrite H, andb_false_r.
  assert (Hc : c = 60 ∨ c = 124 ∨ c = 62 ∨ c = 38 ∨ c = 59 ∨ c = 40 ∨ c = 41).
  { change symbols with [60; 124; 62; 38; 59; 40; 41] in H. cbn [strchr] in H. rewrite !orb_true_iff, !Z.eqb_eq in H. naive_solver. }
  by repeat (destruct Hc as [->|Hc]; [done|]); subst.
Qed.
Lemma word_not_white c : word_char c = true → strchr whitespace c = false ∧ strchr symbols c = false.
Proof. unfold word_char. intros [H1%negb_true_iff H2%negb_true_iff]%andb_true_iff. done. Qed.

(** The first character of a token. *)
Lemma tok_first t : tok_ok t → ∃ c l, tchars t = c :: l ∧ strchr whitespace c = false ∧ c ≠ 0.
Proof.
  destruct t as [c|w]; cbn.
  - intros H. exists c, []. apply symbol_not_white in H as (? & _ & ?). done.
  - intros [Hw Hc]. destruct w as [|c w]; [done|]. apply Forall_cons in Hc as [[Hc H0] _].
    exists c, w. apply word_not_white in Hc as [? _]. done.
Qed.

Lemma drop_sees b s ts : drop s b = text ts → Forall tok_ok ts → sees b s ts.
Proof.
  intros Hd Hts. split; [|done]. unfold skip. rewrite <- drop_drop, Hd.
  destruct ts as [|t ts]; [done|]. rewrite text_cons. apply Forall_cons in Hts as [Ht _].
  destruct (tok_first t Ht) as (c & l & -> & Hc & _). cbn [app count_while].
  change (strchr whitespace 32) with true. cbv iota. rewrite Hc. done.
Qed.

Lemma at_drop b s c l : drop s b = c :: l → at_ b s = c.
Proof.
  intros H. unfold at_. assert (Hl : drop s b !! 0%nat = Some c) by (by rewrite H).
  rewrite lookup_drop, Nat.add_0_r in Hl. by rewrite Hl.
Qed.
Lemma at_drop_nil b s : drop s b = [] → at_ b s = 0.
Proof.
  intros H. unfold at_. destruct (b !! s) as [c|] eqn:E; [|done]. apply drop_S in E. by rewrite H in E.
Qed.
Lemma drop_drop_app (b : list Z) s l l' : drop s b = l ++ l' → drop (s + length l) b = l'.
Proof. intros H. by rewrite <- drop_drop, H, drop_app_length. Qed.

(** *** peek *)
Lemma peek_sees b s ts toks :
  sees b s ts → (∀ c, strchr symbols c = false → strchr toks c = false) →
  peek b toks s = (match ts with Sym c :: _ => strchr toks c | _ => false end, skip (strchr whitespace) b s).
Proof.
  intros [Hd Hts] Htoks. unfold peek. f_equal. destruct ts as [|t ts].
  - by rewrite (at_drop_nil _ _ Hd).
  - apply Forall_cons in Hts as [Ht _]. destruct (tok_first t Ht) as (c & l & Ec & _ & H0). rewrite Ec in Hd.
    rewrite (at_drop _ _ _ _ Hd), (proj2 (Z.eqb_neq c 0)) by done. destruct t as [c'|w].
    + injection Ec as <- _. done.
    + cbn in Ec. subst w. destruct Ht as [_ [[Hc _] _]%Forall_cons]. apply Htoks. by apply word_not_white.
Qed.

(** *** gettoken *)
Lemma gettoken_end b s : sees b s [] → ∃ q eq s', gettoken b s = (0, q, eq, s') ∧ sees b s' [].
Proof.
  intros Hs. pose proof Hs as [Hd _]. unfold gettoken. rewrite (at_drop_nil _ _ Hd). eexists _, _, _. split; [done|].
  by apply sees_skip, sees_skip.
Qed.

Lemma gettoken_sym b s c ts :
  sees b s (Sym c :: ts) → ∃ q eq s', gettoken b s = (c, q, eq, s') ∧ sees b s' ts.
Proof.
  intros [Hd [Hc Hts]%Forall_cons]. cbn [tchars app] in Hd. unfold gettoken.
  set (q := skip (strchr whitespace) b s) in *. rewrite (at_drop _ _ _ _ Hd).
  pose proof (symbol_not_white c Hc) as (_ & _ & H0). rewrite (proj2 (Z.eqb_neq c 0)) by done.
  assert (Hd' : drop (S q) b = text ts) by (rewrite <- Nat.add_1_r; by apply (drop_drop_app _ _ [c])).
  assert (Hgo : ∃ q' eq s', (c, q, S q, skip (strchr whitespace) b (S q)) = (c, q', eq, s') ∧ sees b s' ts).
  { eexists _, _, _. split; [done|]. apply sees_skip. by apply drop_sees. }
  change (strchr symbols c = true) in Hc. rewrite symbols_strchr in Hc. destruct (strchr (str "|();&<") c); [exact Hgo|].
  rewrite Z.eqb_sym in Hc. cbn [orb] in Hc. rewrite Hc.
  enough (at_ b (S q) =? 62 = false) as -> by exact Hgo. apply Z.eqb_neq. destruct ts as [|t ts].
  - by rewrite (at_drop_nil _ _ Hd').
  - rewrite text_cons in Hd'. by rewrite (at_drop _ _ _ _ Hd').
Qed.

Lemma count_while_all f (l l' : list Z) :
  Forall (λ c, f c = true) l → (∀ c, head l' = Some c → f c = false) → count_while f (l ++ l') = length l.
Proof.
  intros Hl Hl'. induction Hl as [|c l Hc Hl IH]; cbn.
  - destruct l' as [|c l']; [done|]. cbn. by rewrite (Hl' c eq_refl).
  - by rewrite Hc, IH.
Qed.

Lemma gettoken_word b s w ts :
  sees b s (Word w :: ts) → ∃ q eq s', gettoken b s = (97, q, eq, s') ∧ names b q eq w ∧ sees b s' ts.
Proof.
  intros [Hd [[Hne Hw] Hts]%Forall_cons]. cbn [tchars] in Hd. unfold gettoken.
  set (q := skip (strchr whitespace) b s) in *.
  assert (Htext : ∀ c, head (text ts) = Some c → c = 32).
  { destruct ts as [|t ts]; [done|]. rewrite text_cons. by intros c [= <-]. }
  assert (He : skip word_char b q = (q + length w)%nat).
  { unfold skip. rewrite Hd, count_while_all; [done| |].
    - eapply Forall_impl; [exact Hw|]. by intros c [? _].
    - intros c Hc. by rewrite (Htext c Hc). }
  pose proof (drop_drop_app _ _ _ _ Hd) as Hd'. rewrite He.
  assert (∃ c w', w = c :: w') as (c & w' & Ew) by (destruct w; [done|by eexists _, _]).
  assert (Hq : drop q b = c :: w' ++ text ts) by (by rewrite Hd, Ew).
  rewrite (at_drop _ _ _ _ Hq). assert (Hc : word_char c = true ∧ c ≠ 0) by (rewrite Ew in Hw; by apply Forall_cons in Hw as [? _]).
  destruct Hc as [Hc H0]. apply word_not_white in Hc as [_ Hs]. rewrite symbols_strchr in Hs.
  apply orb_false_iff in Hs as [Hs1 Hs2]. rewrite (proj2 (Z.eqb_neq c 0)), Hs1, (Z.eqb_sym c), Hs2 by done.
  eexists _, _, _. split; [done|]. split; [|apply sees_skip; by apply drop_sees].
  split; [by rewrite Hd'|done|done|]. intros x Hx. apply drop_S in Hx. rewrite Hd' in Hx.
  destruct ts as [|t ts]; [done|]. rewrite text_cons in Hx. injection Hx as <- _. done.
Qed.

(** ** Printing *)
Definition sredir : Type := list Z * Z * Z.
Definition redirected (x : scmd) (r : sredir) : scmd := let '(w, mode, fd) := r in SRedir x w mode fd.

(** Reading from a file is the redirection of descriptor 0, writing of descriptor 1. *)
Definition redir_ok (r : sredir) : Prop :=
  let '(w, mode, fd) := r in
  word_ok w ∧ (mode = O_RDONLY ∧ fd = 0 ∨ mode = Z.lor O_WRONLY O_CREATE ∧ fd = 1).
Definition redir_toks (r : sredir) : list tok :=
  let '(w, mode, fd) := r in [Sym (if mode =? O_RDONLY then 60 else 62); Word w].

(** Where a command can stand: in a line, before an ampersand or a semicolon, in a pipe, or
    before a bar or a redirection. *)
Definition level (x : scmd) : nat :=
  match x with SExec _ | SRedir _ _ _ _ => 3 | SPipe _ _ => 2 | SBack _ => 1 | SList _ _ => 0 end.

(** In parentheses where it cannot stand otherwise. *)
Definition at_level (n : nat) (x : scmd) (ts : list tok) : list tok :=
  if (n <=? level x)%nat then ts else Sym 40 :: ts ++ [Sym 41].

Fixpoint toks (x : scmd) : list tok :=
  match x with
  | SExec argv => Word <$> argv
  | SRedir x w mode fd => at_level 3 x (toks x) ++ redir_toks (w, mode, fd)
  | SPipe l r => at_level 3 l (toks l) ++ Sym 124 :: at_level 2 r (toks r)
  | SList l r => at_level 1 l (toks l) ++ Sym 59 :: toks r
  | SBack x => at_level 1 x (toks x) ++ [Sym 38]
  end.

Definition print (x : scmd) : list Z := text (toks x).

(** Words without special characters, at most nine of them, and redirections of the two
    kinds there are. *)
Fixpoint scmd_ok (x : scmd) : Prop :=
  match x with
  | SExec argv => Forall word_ok argv ∧ (length argv < MAXARGS)%nat
  | SRedir x w mode fd => scmd_ok x ∧ redir_ok (w, mode, fd)
  | SPipe l r | SList l r => scmd_ok l ∧ scmd_ok r
  | SBack x => scmd_ok x
  end.

(** ** Reading back *)

(** The next token is one of [l], or there is none. *)
Definition follows (l : list Z) (ts : list tok) : Prop :=
  match ts with [] => True | Sym c :: _ => strchr l c = true | Word _ :: _ => False end.

Section reading.
Variable b : list Z.
Local Abbreviation sees := (sees b).
Local Abbreviation cmd_names := (cmd_names b).

Definition gives (m : parsed cmd) (x : scmd) (rest : list tok) : Prop :=
  m = Out_of_fuel ∨ ∃ c s, m = Ok c s ∧ cmd_names c x ∧ sees s rest.

Lemma gives_then m k x ts y rest :
  gives m x ts → (∀ c s, cmd_names c x → sees s ts → gives (k c s) y rest) → gives (then_ m k) y rest.
Proof. intros [->|(c & s & -> & Hc & Hs)] Hk; [by left|]. by apply Hk. Qed.
Lemma gives_ok c s x rest : cmd_names c x → sees s rest → gives (Ok c s) x rest.
Proof. intros. right. eauto. Qed.

(** No word starts with one of these. *)
Definition of_symbols (l : list Z) : Prop := ∀ c, strchr symbols c = false → strchr l c = false.
Lemma of_symbols_dec l : forallb (strchr symbols) l = true → of_symbols l.
Proof.
  intros Hl c Hc. induction l as [|x l IH]; [done|]. cbn in *. apply andb_true_iff in Hl as [Hx Hl].
  rewrite (IH Hl), orb_false_r. apply Z.eqb_neq. intros ->. congruence.
Qed.

(** A [peek] for [l] when the next token is one of [l'], which has none of [l]. *)
Lemma peek_no l l' s rest :
  of_symbols l → (∀ c, strchr l' c = true → strchr l c = false) → sees s rest → follows l' rest →
  ∃ s', peek b l s = (false, s') ∧ sees s' rest.
Proof.
  intros Hl Hll Hs Hf. eexists. split; [|by apply sees_skip]. rewrite (peek_sees _ _ _ _ Hs Hl). f_equal.
  destruct rest as [|[c|w] rest]; [done| |done]. by apply Hll.
Qed.
Lemma peek_no_word l s w rest : of_symbols l → sees s (Word w :: rest) →
  ∃ s', peek b l s = (false, s') ∧ sees s' (Word w :: rest).
Proof.
  intros Hl Hs. eexists. split; [|by apply sees_skip]. by rewrite (peek_sees _ _ _ _ Hs Hl).
Qed.
Lemma peek_yes l s c rest : of_symbols l → sees s (Sym c :: rest) → strchr l c = true →
  ∃ s', peek b l s = (true, s') ∧ sees s' (Sym c :: rest).
Proof.
  intros Hl Hs Hc. eexists. split; [|by apply sees_skip]. by rewrite (peek_sees _ _ _ _ Hs Hl), Hc.
Qed.

(** Lists of characters that have none in common. *)
Lemma disjoint_dec l l' : forallb (λ c, negb (strchr l c)) l' = true → ∀ c, strchr l' c = true → strchr l c = false.
Proof.
  intros H c Hc. induction l' as [|x l' IH]; [done|]. cbn in *. apply andb_true_iff in H as [Hx%negb_true_iff H].
  apply orb_true_iff in Hc as [->%Z.eqb_eq|Hc]; auto.
Qed.

(** *** Redirections *)
Definition redir_names (r : redir) (x : sredir) : Prop :=
  let '(q, eq, mode, fd) := r in let '(w, mode', fd') := x in names b q eq w ∧ mode = mode' ∧ fd = fd'.

Lemma cmd_names_redirs c x rs xs :
  cmd_names c x → Forall2 redir_names rs xs → cmd_names (foldl redircmd c rs) (foldl redirected x xs).
Proof.
  intros Hc Hrs. revert c x Hc. induction Hrs as [|[[[q eq] mode] fd] [[w mode'] fd'] rs xs Hr Hrs IH]; intros c x Hc; [done|].
  apply IH. destruct Hr as (? & -> & ->). done.
Qed.

(** No redirection follows. *)
Definition no_redir (ts : list tok) : Prop := match ts with Sym c :: _ => strchr (str "<>") c = false | _ => True end.

Lemma parseredirs_reads fuel acc s xs rest :
  sees s (concat (redir_toks <$> xs) ++ rest) → Forall redir_ok xs → no_redir rest →
  parseredirs b fuel acc s = Out_of_fuel ∨
  ∃ rs s', parseredirs b fuel acc s = Ok (acc ++ rs) s' ∧ Forall2 redir_names rs xs ∧ sees s' rest.
Proof.
  revert acc s xs. induction fuel as [|fuel IH]; intros acc s xs Hs Hxs Hr; cbn [parseredirs].
  - rewrite (peek_sees _ _ _ _ Hs (of_symbols_dec (str "<>") eq_refl)).
    destruct xs as [|[[w mode] fd] xs]; cbn [fmap list_fmap concat app] in *.
    + right. exists [], (skip (strchr whitespace) b s). rewrite app_nil_r. apply sees_skip in Hs.
      destruct rest as [|[c|w] rest]; try done. cbn [no_redir] in Hr. by rewrite Hr.
    + left. unfold redir_toks. destruct (mode =? O_RDONLY); done.
  - destruct xs as [|[[w mode] fd] xs]; cbn [fmap list_fmap concat app] in *.
    + right. rewrite (peek_sees _ _ _ _ Hs (of_symbols_dec (str "<>") eq_refl)).
      exists [], (skip (strchr whitespace) b s). rewrite app_nil_r. apply sees_skip in Hs.
      destruct rest as [|[c|w] rest]; try done. cbn [no_redir] in Hr. by rewrite Hr.
    + apply Forall_cons in Hxs as [[Hw Hm] Hxs]. change (redir_toks (w, mode, fd)) with [Sym (if mode =? O_RDONLY then 60 else 62); Word w] in Hs. cbn [app] in Hs.
      assert (Hin : strchr (str "<>") (if mode =? O_RDONLY then 60 else 62) = true) by by destruct (mode =? O_RDONLY).
      destruct (peek_yes (str "<>") _ _ _ ltac:(by apply of_symbols_dec) Hs Hin) as (s1 & -> & Hs1). clear Hs.
      destruct (gettoken_sym _ _ _ _ Hs1) as (q1 & e1 & s2 & -> & Hs2).
      destruct (gettoken_word _ _ _ _ Hs2) as (q2 & e2 & s3 & -> & Hn & Hs3).
      change (97 =? 97) with true. cbn [negb].
      set (acc' := if (if mode =? O_RDONLY then 60 else 62) =? 60 then _ else _).
      assert (Eacc : acc' = acc ++ [(q2, e2, mode, fd)]) by (unfold acc'; destruct Hm as [[-> ->]|[-> ->]]; done).
      rewrite Eacc. destruct (IH (acc ++ [(q2, e2, mode, fd)]) s3 xs Hs3 Hxs Hr) as [->|(rs & s' & -> & Hrs & Hs')]; [by left|right].
      exists ((q2, e2, mode, fd) :: rs), s'. rewrite <- app_assoc. split; [done|]. split; [|done]. by constructor.
Qed.

(** *** Words *)
Lemma parseargs_reads fuel argv rs s ws xs rest :
  sees s ((Word <$> ws) ++ concat (redir_toks <$> xs) ++ rest) → Forall redir_ok xs →
  follows (str "|)&;") rest → (ws = [] → xs = []) → (length argv + length ws < MAXARGS)%nat →
  parseargs b fuel argv rs s = Out_of_fuel ∨
  ∃ args rs' s', parseargs b fuel argv rs s = Ok (argv ++ args, rs ++ rs') s' ∧
    Forall2 (λ a w, names b (fst a) (snd a) w) args ws ∧ Forall2 redir_names rs' xs ∧ sees s' rest.
Proof.
  intros Hs Hxs Hf. revert argv rs s ws xs Hs Hxs. induction fuel as [|fuel IH]; intros argv rs s ws xs Hs Hxs Hemp Hlen; cbn [parseargs].
  - destruct ws as [|w ws]; cbn [fmap list_fmap app] in Hs.
    + rewrite (Hemp eq_refl) in Hs. cbn in Hs. pose proof (sees_skip _ _ _ Hs) as Hs'.
      rewrite (peek_sees _ _ _ _ Hs (of_symbols_dec (str "|)&;") eq_refl)).
      destruct rest as [|[c|w] rest]; [by left| |done]. cbn [follows] in Hf. rewrite Hf. right. exists [], [].
      eexists. rewrite !app_nil_r. split; [done|]. split; [done|]. split; [by rewrite (Hemp eq_refl)|done].
    + destruct (peek_no_word (str "|)&;") _ _ _ ltac:(by apply of_symbols_dec) Hs) as (s1 & -> & _). by left.
  - destruct ws as [|w ws]; cbn [fmap list_fmap app] in Hs.
    + rewrite (Hemp eq_refl) in *. cbn in Hs. pose proof (sees_skip _ _ _ Hs) as Hs'.
      rewrite (peek_sees _ _ _ _ Hs (of_symbols_dec (str "|)&;") eq_refl)). right. exists [], [].
      destruct rest as [|[c|w] rest]; [| |done].
      * destruct (gettoken_end _ _ Hs') as (q & e & s2 & -> & Hs2). exists s2. rewrite !app_nil_r. done.
      * cbn [follows] in Hf. rewrite Hf. eexists. rewrite !app_nil_r. done.
    + destruct (peek_no_word (str "|)&;") _ _ _ ltac:(by apply of_symbols_dec) Hs) as (s1 & -> & Hs1). clear Hs.
      destruct (gettoken_word _ _ _ _ Hs1) as (q & e & s2 & -> & Hn & Hs2).
      change (97 =? 0) with false. change (97 =? 97) with true. cbn [negb].
      cbn [length] in Hlen. rewrite (proj2 (Nat.leb_gt MAXARGS _)) by (rewrite length_app; cbn; lia).
      set (here := match ws with [] => xs | _ => [] end). set (later := match ws with [] => [] | _ => xs end).
      assert (Hs2' : sees s2 (concat (redir_toks <$> here) ++ (Word <$> ws) ++ concat (redir_toks <$> later) ++ rest)) by by destruct ws.
      destruct (parseredirs_reads (length b) rs s2 here _ Hs2') as [->|(rs1 & s3 & -> & Hrs1 & Hs3)].
      * by destruct ws.
      * destruct ws; [|done]. cbn [fmap list_fmap concat app no_redir]. destruct rest as [|[c|w'] rest]; [done| |done]. by eapply disjoint_dec, Hf.
      * by left.
      * cbn [then_]. destruct (IH (argv ++ [(q, e)]) (rs ++ rs1) s3 ws later Hs3) as [->|(args & rs2 & s4 & -> & Hargs & Hrs2 & Hs4)].
        -- by destruct ws.
        -- by destruct ws.
        -- rewrite length_app. cbn. lia.
        -- by left.
        -- right. exists ((q, e) :: args), (rs1 ++ rs2), s4. rewrite <- !app_assoc. split; [done|].
           split; [by constructor|]. split; [|done].
           replace xs with (here ++ later) by (unfold here, later; destruct ws; by rewrite ?app_nil_r). by apply Forall2_app.
Qed.

(** *** Commands, by the place where they stand *)
Definition reads_exec (x : scmd) : Prop := ∀ fuel s xs rest,
  sees s (at_level 3 x (toks x) ++ concat (redir_toks <$> xs) ++ rest) → Forall redir_ok xs → follows (str "|)&;") rest →
  gives (parseexec b fuel s) (foldl redirected x xs) rest.
Definition reads_pipe (x : scmd) : Prop := ∀ fuel s rest,
  sees s (at_level 2 x (toks x) ++ rest) → follows (str ")&;") rest → gives (parsepipe b fuel s) x rest.
Definition reads_back (x : scmd) : Prop := ∀ fuel s k rest,
  sees s (at_level 1 x (toks x) ++ replicate k (Sym 38) ++ rest) → follows (str ");") rest →
  gives (then_ (parsepipe b fuel s) (λ c s, parseback b (length b) c s)) (Nat.iter k SBack x) rest.
Definition reads_line (x : scmd) : Prop := ∀ fuel s rest,
  sees s (toks x ++ rest) → follows (str ")") rest → gives (parseline b fuel s) x rest.

Lemma follows_sub l l' ts : (∀ c, strchr l c = true → strchr l' c = true) → follows l ts → follows l' ts.
Proof. destruct ts as [|[c|w] ts]; cbn [follows]; auto. Qed.
Lemma sub_dec l l' : forallb (strchr l') l = true → ∀ c, strchr l c = true → strchr l' c = true.
Proof.
  intros H c Hc. induction l as [|x l IH]; [done|]. cbn in *. apply andb_true_iff in H as [Hx H].
  apply orb_true_iff in Hc as [->%Z.eqb_eq|Hc]; auto.
Qed.

Lemma exec_of_exec argv : scmd_ok (SExec argv) → reads_exec (SExec argv).
Proof.
  intros [_ Hlen] fuel s xs rest Hs Hxs Hf. destruct fuel as [|fuel]; [by left|]. cbn [parseexec].
  change (at_level 3 (SExec argv) (toks (SExec argv))) with (Word <$> argv) in Hs.
  assert (Hp : ∃ s', peek b (str "(") s = (false, s') ∧ sees s' ((Word <$> argv) ++ concat (redir_toks <$> xs) ++ rest)).
  { eexists. split; [|by apply sees_skip]. rewrite (peek_sees _ _ _ _ Hs (of_symbols_dec (str "(") eq_refl)). f_equal.
    destruct argv as [|w argv]; [|done]. destruct xs as [|[[w mode] fd] xs]; cbn [fmap list_fmap concat app]; [|by cbn; destruct (mode =? O_RDONLY)].
    destruct rest as [|[c|w] rest]; [done| |done]. by eapply disjoint_dec, Hf. }
  destruct Hp as (s1 & -> & Hs1). clear Hs.
  set (here := match argv with [] => xs | _ => [] end). set (later := match argv with [] => [] | _ => xs end).
  assert (Hs2 : sees s1 (concat (redir_toks <$> here) ++ (Word <$> argv) ++ concat (redir_toks <$> later) ++ rest)) by by destruct argv.
  destruct (parseredirs_reads (length b) [] s1 here _ Hs2) as [->|(rs1 & s2 & -> & Hrs1 & Hs3)].
  - by destruct argv.
  - destruct argv; [|done]. cbn [fmap list_fmap concat app no_redir]. destruct rest as [|[c|w'] rest]; [done| |done]. by eapply disjoint_dec, Hf.
  - by left.
  - cbn [then_ app]. destruct (parseargs_reads (length b + 1) [] rs1 s2 argv later rest Hs3) as [->|(args & rs2 & s3 & -> & Ha & Hrs2 & Hs4)].
    + by destruct argv.
    + done.
    + by destruct argv.
    + cbn. lia.
    + by left.
    + cbn [then_ fst snd app]. apply gives_ok; [|done]. apply (cmd_names_redirs (EXEC args) (SExec argv)); [done|].
      replace xs with (here ++ later) by (unfold here, later; destruct argv; by rewrite ?app_nil_r). by apply Forall2_app.
Qed.

Lemma exec_of_redir x w mode fd : redir_ok (w, mode, fd) → reads_exec x → reads_exec (SRedir x w mode fd).
Proof.
  intros Hr Hx fuel s xs rest Hs Hxs Hf.
  change (gives (parseexec b fuel s) (foldl redirected x ((w, mode, fd) :: xs)) rest). apply Hx; [|by constructor|done].
  change (at_level 3 (SRedir x w mode fd) (toks (SRedir x w mode fd))) with (at_level 3 x (toks x) ++ redir_toks (w, mode, fd)) in Hs.
  rewrite <- !app_assoc in Hs. cbn [fmap list_fmap concat]. by rewrite <- app_assoc.
Qed.

Lemma exec_of_line x : (level x < 3)%nat → reads_line x → reads_exec x.
Proof.
  intros Hl Hx fuel s xs rest Hs Hxs Hf. unfold at_level in Hs. rewrite (proj2 (Nat.leb_gt 3 (level x))) in Hs by done.
  cbn [app] in Hs. rewrite <- app_assoc in Hs. cbn [app] in Hs.
  destruct fuel as [|fuel]; [by left|]. cbn [parseexec].
  destruct (peek_yes (str "(") _ _ _ ltac:(by apply of_symbols_dec) Hs eq_refl) as (s1 & -> & Hs1).
  destruct fuel as [|fuel]; [by left|]. cbn [parseblock].
  destruct (peek_yes (str "(") _ _ _ ltac:(by apply of_symbols_dec) Hs1 eq_refl) as (s2 & -> & Hs2). cbn [negb].
  destruct (gettoken_sym _ _ _ _ Hs2) as (q & e & s3 & -> & Hs3).
  eapply gives_then; [apply (Hx fuel s3 _ Hs3); done|]. intros c s4 Hc Hs4. cbv beta.
  destruct (peek_yes (str ")") _ _ _ ltac:(by apply of_symbols_dec) Hs4 eq_refl) as (s5 & -> & Hs5). cbn [negb].
  destruct (gettoken_sym _ _ _ _ Hs5) as (q' & e' & s6 & -> & Hs6).
  destruct (parseredirs_reads (length b) [] s6 xs rest Hs6 Hxs) as [->|(rs & s7 & -> & Hrs & Hs7)].
  - destruct rest as [|[ch|w'] rest]; [done| |done]. by eapply disjoint_dec, Hf.
  - by left.
  - cbn [then_ app]. apply gives_ok; [|done]. by apply cmd_names_redirs.
Qed.

Lemma pipe_of_exec x : level x ≠ 2%nat → reads_exec x → reads_pipe x.
Proof.
  intros Hl Hx fuel s rest Hs Hf. destruct fuel as [|fuel]; [by left|]. cbn [parsepipe].
  assert (E : at_level 2 x (toks x) = at_level 3 x (toks x)) by by destruct x.
  eapply gives_then; [apply (Hx fuel s [] rest); [by rewrite <- E|done|by eapply follows_sub, Hf; apply sub_dec]|].
  intros c s1 Hc Hs1. cbv beta.
  destruct (peek_no (str "|") (str ")&;") _ _ ltac:(by apply of_symbols_dec) ltac:(by apply disjoint_dec) Hs1 Hf) as (s2 & -> & Hs2).
  by apply gives_ok.
Qed.

Lemma pipe_of_pipe l r : reads_exec l → reads_pipe r → reads_pipe (SPipe l r).
Proof.
  intros Hl Hr fuel s rest Hs Hf. destruct fuel as [|fuel]; [by left|]. cbn [parsepipe].
  change (at_level 2 (SPipe l r) (toks (SPipe l r))) with (at_level 3 l (toks l) ++ Sym 124 :: at_level 2 r (toks r)) in Hs.
  rewrite <- app_assoc in Hs. cbn [app] in Hs.
  eapply gives_then; [apply (Hl fuel s [] _ Hs); done|]. intros c s1 Hc Hs1. cbv beta.
  destruct (peek_yes (str "|") _ _ _ ltac:(by apply of_symbols_dec) Hs1 eq_refl) as (s2 & -> & Hs2).
  destruct (gettoken_sym _ _ _ _ Hs2) as (q & e & s3 & -> & Hs3).
  eapply gives_then; [apply (Hr fuel s3 _ Hs3 Hf)|]. intros c' s4 Hc' Hs4. by apply gives_ok.
Qed.

Lemma parseback_reads fuel c s x k rest :
  cmd_names c x → sees s (replicate k (Sym 38) ++ rest) → follows (str ");") rest →
  gives (parseback b fuel c s) (Nat.iter k SBack x) rest.
Proof.
  revert c s x k. induction fuel as [|fuel IH]; intros c s x k Hc Hs Hf; cbn [parseback].
  - destruct k as [|k]; cbn [replicate app] in Hs.
    + destruct (peek_no (str "&") (str ");") _ _ ltac:(by apply of_symbols_dec) ltac:(by apply disjoint_dec) Hs Hf) as (s2 & -> & Hs2).
      by apply gives_ok.
    + destruct (peek_yes (str "&") _ _ _ ltac:(by apply of_symbols_dec) Hs eq_refl) as (s2 & -> & _). by left.
  - destruct k as [|k]; cbn [replicate app] in Hs.
    + destruct (peek_no (str "&") (str ");") _ _ ltac:(by apply of_symbols_dec) ltac:(by apply disjoint_dec) Hs Hf) as (s2 & -> & Hs2).
      by apply gives_ok.
    + destruct (peek_yes (str "&") _ _ _ ltac:(by apply of_symbols_dec) Hs eq_refl) as (s2 & -> & Hs2).
      destruct (gettoken_sym _ _ _ _ Hs2) as (q & e & s3 & -> & Hs3).
      rewrite Nat.iter_succ_r. by apply IH.
Qed.

Lemma back_of_pipe x : level x ≠ 1%nat → reads_pipe x → reads_back x.
Proof.
  intros Hl Hx fuel s k rest Hs Hf. assert (E : at_level 1 x (toks x) = at_level 2 x (toks x)) by by destruct x.
  eapply gives_then; [apply (Hx fuel s _); [by rewrite <- E|]|].
  - destruct k; [by eapply follows_sub, Hf; apply sub_dec|done].
  - intros c s1 Hc Hs1. by apply parseback_reads.
Qed.
Lemma back_of_back x : reads_back x → reads_back (SBack x).
Proof.
  intros Hx fuel s k rest Hs Hf.
  change (at_level 1 (SBack x) (toks (SBack x))) with (at_level 1 x (toks x) ++ [Sym 38]) in Hs.
  rewrite <- Nat.iter_succ_r. apply (Hx fuel s (S k) rest); [|done]. by rewrite <- app_assoc in Hs.
Qed.

Lemma then_assoc {A B C} (m : parsed A) (k : A → nat → parsed B) (k' : B → nat → parsed C) :
  then_ m (λ a s, then_ (k a s) k') = then_ (then_ m k) k'.
Proof. by destruct m. Qed.

Lemma line_of_back x : level x ≠ 0%nat → reads_back x → reads_line x.
Proof.
  intros Hl Hx fuel s rest Hs Hf. destruct fuel as [|fuel]; [by left|]. cbn [parseline]. rewrite then_assoc.
  assert (E : at_level 1 x (toks x) = toks x) by by destruct x.
  eapply gives_then; [apply (Hx fuel s 0%nat rest); [by rewrite E|by eapply follows_sub, Hf; apply sub_dec]|].
  intros c s1 Hc Hs1. cbv beta.
  destruct (peek_no (str ";") (str ")") _ _ ltac:(by apply of_symbols_dec) ltac:(by apply disjoint_dec) Hs1 Hf) as (s2 & -> & Hs2).
  by apply gives_ok.
Qed.
Lemma line_of_list l r : reads_back l → reads_line r → reads_line (SList l r).
Proof.
  intros Hl Hr fuel s rest Hs Hf. destruct fuel as [|fuel]; [by left|]. cbn [parseline]. rewrite then_assoc.
  change (toks (SList l r)) with (at_level 1 l (toks l) ++ Sym 59 :: toks r) in Hs. rewrite <- app_assoc in Hs. cbn [app] in Hs.
  eapply gives_then; [apply (Hl fuel s 0%nat _ Hs); done|]. intros c s1 Hc Hs1. cbv beta.
  destruct (peek_yes (str ";") _ _ _ ltac:(by apply of_symbols_dec) Hs1 eq_refl) as (s2 & -> & Hs2).
  destruct (gettoken_sym _ _ _ _ Hs2) as (q & e & s3 & -> & Hs3).
  eapply gives_then; [apply (Hr fuel s3 _ Hs3 Hf)|]. intros c' s4 Hc' Hs4. by apply gives_ok.
Qed.

Lemma reads x : scmd_ok x → reads_exec x ∧ reads_pipe x ∧ reads_back x ∧ reads_line x.
Proof.
  induction x as [argv|x IH w mode fd|l IHl r IHr|l IHl r IHr|x IH]; cbn [scmd_ok].
  - intros Hx. assert (He : reads_exec (SExec argv)) by by apply exec_of_exec.
    assert (Hp : reads_pipe (SExec argv)) by by apply pipe_of_exec.
    assert (Hb : reads_back (SExec argv)) by by apply back_of_pipe.
    split; [done|]. split; [done|]. split; [done|]. by apply line_of_back.
  - intros [Hx Hr]. destruct (IH Hx) as (He0 & _). assert (He : reads_exec (SRedir x w mode fd)) by by apply exec_of_redir.
    assert (Hp : reads_pipe (SRedir x w mode fd)) by by apply pipe_of_exec.
    assert (Hb : reads_back (SRedir x w mode fd)) by by apply back_of_pipe.
    split; [done|]. split; [done|]. split; [done|]. by apply line_of_back.
  - intros [(Hle & _)%IHl (_ & Hrp & _)%IHr]. assert (Hp : reads_pipe (SPipe l r)) by by apply pipe_of_pipe.
    assert (Hb : reads_back (SPipe l r)) by by apply back_of_pipe.
    assert (Hn : reads_line (SPipe l r)) by by apply line_of_back.
    split; [apply exec_of_line; [cbn; lia|done]|]. done.
  - intros [(_ & _ & Hlb & _)%IHl (_ & _ & _ & Hrl)%IHr]. assert (Hn : reads_line (SList l r)) by by apply line_of_list.
    assert (He : reads_exec (SList l r)) by (apply exec_of_line; [cbn; lia|done]).
    assert (Hp : reads_pipe (SList l r)) by by apply pipe_of_exec.
    split; [done|]. split; [done|]. split; [by apply back_of_pipe|done].
  - intros (_ & _ & Hb0 & _)%IH. assert (Hb : reads_back (SBack x)) by by apply back_of_back.
    assert (Hn : reads_line (SBack x)) by by apply line_of_back.
    assert (He : reads_exec (SBack x)) by (apply exec_of_line; [cbn; lia|done]).
    split; [done|]. split; [by apply pipe_of_exec|]. done.
Qed.
End reading.

(** ** The round trip *)
Lemma at_level_ok n x ts : Forall tok_ok ts → Forall tok_ok (at_level n x ts).
Proof.
  intros H. unfold at_level. destruct (_ <=? _)%nat; [done|]. constructor; [done|]. apply Forall_app. split; [done|].
  by constructor.
Qed.
Lemma redir_toks_ok r : redir_ok r → Forall tok_ok (redir_toks r).
Proof.
  destruct r as [[w mode] fd]. intros [Hw _]. constructor; [by destruct (mode =? O_RDONLY)|]. by constructor.
Qed.
Lemma toks_ok x : scmd_ok x → Forall tok_ok (toks x).
Proof.
  induction x as [argv|x IH w mode fd|l IHl r IHr|l IHl r IHr|x IH]; cbn [scmd_ok toks].
  - intros [Hw _]. by apply Forall_fmap.
  - intros [Hx Hr]. apply Forall_app. split; [by apply at_level_ok, IH|by apply redir_toks_ok].
  - intros [Hl Hr]. apply Forall_app. split; [by apply at_level_ok, IHl|]. constructor; [done|]. by apply at_level_ok, IHr.
  - intros [Hl Hr]. apply Forall_app. split; [by apply at_level_ok, IHl|]. constructor; [done|]. by apply IHr.
  - intros Hx. apply Forall_app. split; [by apply at_level_ok, IH|]. by constructor.
Qed.

(** C5: the shell reads back what is printed.  Take any command, however nested, whose words
    have no special characters and whose argument lists are short enough, print it with
    parentheses where they are needed, and parse the line: the result is the same command,
    with the same arguments and file names in the buffer that nulterminate has cut up. *)
Theorem parse_print x : scmd_ok x → parse (print x) = Some x.
Proof.
  intros Hx. unfold parse. pose proof (parsecmd_ends (print x)) as Hends. unfold parsecmd in *.
  destruct (reads (print x) x Hx) as (_ & _ & _ & Hl).
  destruct (Hl (4 * length (print x) + 4)%nat 0%nat []) as [E|(c & s & E & Hc & Hs)].
  - rewrite app_nil_r. apply drop_sees; [done|by apply toks_ok].
  - done.
  - by rewrite E in Hends.
  - rewrite E. cbn [then_]. unfold peek. pose proof Hs as [Hd _].
    assert (Hlen : skip (strchr whitespace) (print x) s = length (print x)).
    { apply (f_equal length) in Hd. rewrite length_drop in Hd. cbn [length] in Hd.
      destruct (parser_ends (print x) (4 * length (print x) + 4) 0 ltac:(lia)) as (H & _).
      specialize (H ltac:(lia)). rewrite E in H. cbn [ends_after] in H. pose proof (skip_le (strchr whitespace) (print x) s (proj2 H)). lia. }
    rewrite Hlen, Nat.eqb_refl. cbn [negb]. f_equal. by apply strings_nulterminate.
Qed.

Definition sample_scmd : scmd :=
  SList (SBack (SPipe (SList (SExec [str "ls"; str "-l"]) (SRedir (SExec [str "echo"; str "hi"]) (str "out") (Z.lor O_WRONLY O_CREATE) 1))
                      (SRedir (SExec [str "wc"]) (str "in") O_RDONLY 0)))
        (SExec [str "cat"]).

Lemma parse_print_witness :
  print sample_scmd = str " ( ls -l ; echo hi > out ) | wc < in & ; cat" ∧ parse (print sample_scmd) = Some sample_scmd.
Proof.
  split; [vm_compute; reflexivity|]. apply parse_print. unfold sample_scmd, scmd_ok, redir_ok, word_ok.
  repeat (apply conj || apply Forall_cons_2 || apply Forall_nil_2 || (cbv; lia) || (by left) || (by right) || done).
Defined.
