(* ===== verification/ShRun.v ===== *)
(** * What the shell runs

    runcmd as a tree of system calls, and the files and pipes that the programs it starts
    find at their descriptors. *)

From S2P Require Import Prelude Params Sh ShTheorems ShPrint.

(** ** Programs *)

(** What a process does: the system calls in their order, with a branch for each outcome
    the code distinguishes.  A process that forks goes on as two. *)
Inductive prog :=
| Exit
| Exec (path : list Z) (argv : list (list Z)) (failed : prog)
| Print (fd : Z) (msg : list Z) (k : prog)
| Close (fd : Z) (k : prog)
| Dup (fd : Z) (k : prog)
| Open (file : list Z) (mode : Z) (ok failed : prog)
| Pipe (k : Z → Z → prog) (failed : prog)
| Fork (child parent failed : prog)
| Wait (k : prog)
| Chdir (path : list Z) (ok failed : prog).

Definition sh_panic (msg : list Z) : prog := Print 2 (msg ++ [10]) Exit.

Definition fork1 (child parent : prog) : prog := Fork child parent (sh_panic (str "fork")).

Fixpoint runcmd (c : scmd) : prog :=
  match c with
  | SExec [] => Exit
  | SExec (a0 :: argv) =>
      Exec a0 (a0 :: argv) (Print 2 (str "exec " ++ a0 ++ str " failed" ++ [10]) Exit)
  | SRedir c file mode fd =>
      Close fd (Open file mode (runcmd c) (Print 2 (str "open " ++ file ++ str " failed" ++ [10]) Exit))
  | SList l r => fork1 (runcmd l) (Wait (runcmd r))
  | SPipe l r =>
      Pipe (λ p0 p1,
        fork1 (Close 1 (Dup p1 (Close p0 (Close p1 (runcmd l)))))
        (fork1 (Close 0 (Dup p0 (Close p0 (Close p1 (runcmd r)))))
        (Close p0 (Close p1 (Wait (Wait Exit))))))
        (sh_panic (str "pipe"))
  | SBack c => fork1 (runcmd c) Exit
  end.

(** One turn of the loop of main, for a line that getcmd has read into [buf]; [k] is the
    next turn. *)
Definition main_line (buf : list Z) (k : prog) : prog :=
  if bool_decide (take 3 buf = str "cd ") then
    let path := drop 3 (take (length buf - 1) buf) in
    Chdir path k (Print 2 (str "cannot cd " ++ path ++ [10]) k)
  else
    fork1
      match parsecmd buf with
      | Ok (c, b) _ => runcmd (strings b c)
      | Syntax msg => sh_panic (str msg)
      | Out_of_fuel => Exit      (* does not happen *)
      end
      (Wait k).

(** ** Descriptors *)
Inductive object := Given (n : nat) | Opened (file : list Z) (mode : Z) | Pipe_read (p : nat) | Pipe_write (p : nat).
Definition fdtable : Type := list (option object).

(** The first free descriptor, as fdalloc finds it. *)
Fixpoint fd_free (t : fdtable) : nat :=
  match t with
  | None :: _ => 0
  | Some _ :: t => S (fd_free t)
  | [] => 0
  end.
Definition fd_set (fd : nat) (o : option object) (t : fdtable) : fdtable := <[fd := o]> t.

(** The programs that are run when the calls succeed, with the descriptors they find; [n] is
    the number of pipes made so far.  A table has room for what the shell opens. *)
Fixpoint starts_progs (p : prog) (t : fdtable) (n : nat) : list (list (list Z) * fdtable) * nat :=
  match p with
  | Exit => ([], n)
  | Exec _ argv _ => ([(argv, t)], n)
  | Print _ _ k => starts_progs k t n
  | Close fd k => starts_progs k (fd_set (Z.to_nat fd) None t) n
  | Dup fd k => starts_progs k (fd_set (fd_free t) (t !!! Z.to_nat fd) t) n
  | Open file mode k _ => starts_progs k (fd_set (fd_free t) (Some (Opened file mode)) t) n
  | Pipe k _ =>
      let p0 := fd_free t in
      let t := fd_set p0 (Some (Pipe_read n)) t in
      let p1 := fd_free t in
      let t := fd_set p1 (Some (Pipe_write n)) t in
      starts_progs (k (Z.of_nat p0) (Z.of_nat p1)) t (S n)
  | Fork child parent _ =>
      let '(l, n) := starts_progs child t n in
      let '(l', n) := starts_progs parent t n in
      (l ++ l', n)
  | Wait k => starts_progs k t n
  | Chdir _ k _ => starts_progs k t n
  end.

(** ** What a command means *)

(** The programs of a command and their standard input and output. *)
Fixpoint wired (c : scmd) (i o : object) (n : nat) : list (list (list Z) * object * object) * nat :=
  match c with
  | SExec [] => ([], n)
  | SExec argv => ([(argv, i, o)], n)
  | SRedir c file mode fd =>
      if fd =? 0 then wired c (Opened file mode) o n else wired c i (Opened file mode) n
  | SPipe l r =>
      let '(x, m) := wired l i (Pipe_write n) (S n) in
      let '(y, m) := wired r (Pipe_read n) o m in
      (x ++ y, m)
  | SList l r =>
      let '(x, m) := wired l i o n in
      let '(y, m) := wired r i o m in
      (x ++ y, m)
  | SBack c => wired c i o n
  end.

(** Sixteen descriptors, of which the first three are in use. *)
Definition std (i o e : object) : fdtable := [Some i; Some o; Some e] ++ replicate 13 None.

Definition with_std (e : object) (x : list (list Z) * object * object) : list (list Z) * fdtable :=
  let '(argv, i, o) := x in (argv, std i o e).

Lemma runcmd_starts c i o e n :
  scmd_ok c →
  starts_progs (runcmd c) (std i o e) n = (with_std e <$> fst (wired c i o n), snd (wired c i o n)).
Proof.
  revert i o n. induction c as [argv|c IH file mode fd|l IHl r IHr|l IHl r IHr|c IH]; intros i o n Hok;
    cbn [scmd_ok] in Hok; cbn [runcmd wired].
  - by destruct argv.
  - destruct Hok as [Hc [_ [[-> ->]|[-> ->]]]].
    + exact (IH (Opened file O_RDONLY) o n Hc).
    + exact (IH i (Opened file (Z.lor O_WRONLY O_CREATE)) n Hc).
  - destruct Hok as [Hl Hr]. cbn [starts_progs fork1].
    change (fd_free (std i o e)) with 3%nat.
    change (fd_free (fd_set 3 (Some (Pipe_read n)) (std i o e))) with 4%nat.
    pose proof (IHl i (Pipe_write n) (S n) Hl) as El. destruct (wired l i (Pipe_write n) (S n)) as [x m] eqn:Ex.
    pose proof (IHr (Pipe_read n) o m Hr) as Er. destruct (wired r (Pipe_read n) o m) as [y m'] eqn:Ey.
    match goal with |- context [starts_progs (runcmd l) ?t _] => change t with (std i (Pipe_write n) e) end.
    rewrite El. cbn [fst snd].
    match goal with |- context [starts_progs (runcmd r) ?t _] => change t with (std (Pipe_read n) o e) end.
    rewrite Er. cbn [fst snd]. by rewrite app_nil_r, fmap_app.
  - destruct Hok as [Hl Hr]. cbn [starts_progs fork1]. rewrite IHl by done.
    destruct (wired l i o n) as [x m]. cbn [fst snd]. rewrite IHr by done. destruct (wired r i o m) as [y m'].
    cbn [fst snd]. by rewrite fmap_app.
  - cbn [starts_progs fork1]. rewrite IH by done. by rewrite app_nil_r.
Qed.

(** C27: the shell wires its commands as they say.  Run any parsed command with descriptors 0, 1
    and 2 open and the others free, and let the system calls succeed: the programs that
    are started are those of the command, in order, each with its input and output as
    the pipes and redirections around it say, its errors where those of the shell go,
    and no other descriptor open, in particular no end of a pipe. *)
Theorem runcmd_wires c i o e n :
  scmd_ok c → fst (starts_progs (runcmd c) (std i o e) n) = with_std e <$> fst (wired c i o n).
Proof. intros Hc. by rewrite runcmd_starts. Qed.

Lemma runcmd_wires_witness :
  fst (starts_progs (runcmd (SPipe (SExec [str "cat"; str "f"]) (SRedir (SExec [str "wc"]) (str "out") (Z.lor O_WRONLY O_CREATE) 1)))
    (std (Given 0) (Given 1) (Given 2)) 0) =
  [([str "cat"; str "f"], std (Given 0) (Pipe_write 0) (Given 2));
   ([str "wc"], std (Pipe_read 0) (Opened (str "out") (Z.lor O_WRONLY O_CREATE)) (Given 2))].
Proof.
  rewrite (runcmd_wires (SPipe (SExec [str "cat"; str "f"]) (SRedir (SExec [str "wc"]) (str "out") (Z.lor O_WRONLY O_CREATE) 1))).
  - reflexivity.
  - unfold scmd_ok, redir_ok, word_ok.
    repeat (apply conj || apply Forall_cons_2 || apply Forall_nil_2 || (cbv; lia) || (by left) || (by right) || done).
Defined.
