(* ===== verification/Umalloc.v ===== *)
(** * The memory allocator of user programs: umalloc.c

    Kernighan and Ritchie's allocator, whose free blocks form a circular list sorted by
    address.  Headers are 16 bytes and aligned, so a pointer to a header is the number
    of a unit of 16 bytes, and the units behind it are the block. *)

From S2P Require Import Prelude Params.

Definition HEADER : Z := 16.

(** The two fields of the header in each unit, freep and the end of the heap. *)
Record uheap := UHeap {
  h_ptr : Z → Z;
  h_size : Z → Z;
  h_freep : Z;
  h_brk : Z
}.

Definition set_ptr (a p : Z) (h : uheap) : uheap :=
  UHeap (λ x, if x =? a then p else h_ptr h x) (h_size h) (h_freep h) (h_brk h).
Definition set_size (a s : Z) (h : uheap) : uheap :=
  UHeap (h_ptr h) (λ x, if x =? a then s else h_size h x) (h_freep h) (h_brk h).
Definition set_freep (p : Z) (h : uheap) : uheap := UHeap (h_ptr h) (h_size h) p (h_brk h).
Definition set_brk (b : Z) (h : uheap) : uheap := UHeap (h_ptr h) (h_size h) (h_freep h) b.

Section umalloc.
Variable base : Z.               (* the unit of the static header base *)
Variable grants : Z → bool.      (* whether the kernel lets the heap end there *)

(** The loop of free, over at most [fuel] blocks. *)
Fixpoint free_loop (fuel : nat) (h : uheap) (bp p : Z) : option Z :=
  if (p <? bp) && (bp <? h_ptr h p) then Some p
  else if (h_ptr h p <=? p) && ((p <? bp) || (bp <? h_ptr h p)) then Some p
  else match fuel with O => None | S fuel => free_loop fuel h bp (h_ptr h p) end.

(** Joining [bp] with the block after [p], and [p] with [bp]. *)
Definition join_next (bp p : Z) (h : uheap) : uheap :=
  if bp + h_size h bp =? h_ptr h p then
    let h' := set_size bp (u32 (h_size h bp + h_size h (h_ptr h p))) h in
    set_ptr bp (h_ptr h' (h_ptr h' p)) h'
  else set_ptr bp (h_ptr h p) h.
Definition join_prev (bp p : Z) (h : uheap) : uheap :=
  if p + h_size h p =? bp then
    let h' := set_size p (u32 (h_size h p + h_size h bp)) h in
    set_ptr p (h_ptr h' bp) h'
  else set_ptr p bp h.
Definition free_at (bp p : Z) (h : uheap) : uheap :=
  set_freep p (join_prev bp p (join_next bp p h)).

Definition free (fuel : nat) (ap : Z) (h : uheap) : option uheap :=
  let bp := ap - 1 in
  p ← free_loop fuel h bp (h_freep h);
  Some (free_at bp p h).

(** sbrk, for a number of units: where the heap ended, or no more memory. *)
Definition sbrk (nu : Z) (h : uheap) : option Z * uheap :=
  if grants (h_brk h + nu) then (Some (h_brk h), set_brk (h_brk h + nu) h) else (None, h).

(** The result is 0 when there is no more memory. *)
Definition morecore (fuel : nat) (nu : Z) (h : uheap) : option (Z * uheap) :=
  let nu := if nu <? 4096 then 4096 else nu in
  match sbrk nu h with
  | (None, h) => Some (0, h)
  | (Some hp, h) =>
      h ← free fuel (hp + 1) (set_size hp nu h);
      Some (h_freep h, h)
  end.

(** The loop of malloc; [fuel] bounds its turns. *)
Fixpoint malloc_loop (fuel : nat) (nunits prevp p : Z) (h : uheap) : option (Z * uheap) :=
  if nunits <=? h_size h p then
    if h_size h p =? nunits then
      Some (p + 1, set_freep prevp (set_ptr prevp (h_ptr h p) h))
    else
      let h := set_size p (h_size h p - nunits) h in
      let p := p + h_size h p in
      Some (p + 1, set_freep prevp (set_size p nunits h))
  else
    match fuel with
    | O => None
    | S fuel =>
        if p =? h_freep h then
          x ← morecore fuel nunits h;
          if fst x =? 0 then Some x
          else malloc_loop fuel nunits (fst x) (h_ptr (snd x) (fst x)) (snd x)
        else malloc_loop fuel nunits p (h_ptr h p) h
    end.

Definition malloc (fuel : nat) (nbytes : Z) (h : uheap) : option (Z * uheap) :=
  let nunits := u32 ((nbytes + HEADER - 1) / HEADER + 1) in
  let h :=
    if h_freep h =? 0 then set_size base 0 (set_freep base (set_ptr base base h)) else h in
  malloc_loop fuel nunits (h_freep h) (h_ptr h (h_freep h)) h.
End umalloc.
