(* ===== verification/UmallocTheorems.v ===== *)
(** * The user allocator keeps its blocks apart *)

From S2P Require Import Prelude Params Umalloc.

(** ** Blocks *)

(** A block: the unit of its header and its units, the header included. *)
Abbreviation blk := (Z * Z)%type.

(** How many of the blocks contain unit [u]. *)
Definition covers (u : Z) (x : blk) : Z := if (fst x <=? u) && (u <? fst x + snd x) then 1 else 0.
Fixpoint cover (u : Z) (l : list blk) : Z :=
  match l with [] => 0 | x :: l => covers u x + cover u l end.

Lemma covers_spec u x : covers u x = 1 ∧ fst x ≤ u < fst x + snd x ∨ covers u x = 0 ∧ ¬ (fst x ≤ u < fst x + snd x).
Proof. unfold covers. destruct (Z.leb_spec (fst x) u), (Z.ltb_spec u (fst x + snd x)); cbn; [left|right..]; (split; [done|lia]). Qed.
Lemma cover_app u l l' : cover u (l ++ l') = cover u l + cover u l'.
Proof. induction l as [|x l IH]; cbn [cover app]; lia. Qed.
Lemma cover_nonneg u l : 0 ≤ cover u l.
Proof. induction l as [|x l IH]; cbn [cover]; [lia|]. destruct (covers_spec u x) as [[-> _]|[-> _]]; lia. Qed.
Lemma covers_join u a s t : 0 ≤ s → 0 ≤ t → covers u (a, s) + covers u (a + s, t) = covers u (a, s + t).
Proof.
  intros Hs Ht. destruct (covers_spec u (a, s)) as [[-> ?]|[-> ?]], (covers_spec u (a + s, t)) as [[-> ?]|[-> ?]],
    (covers_spec u (a, s + t)) as [[-> ?]|[-> ?]]; cbn [fst snd] in *; lia.
Qed.
Lemma cover_elem u x l : x ∈ l → fst x ≤ u < fst x + snd x → 1 ≤ cover u l.
Proof.
  intros (l1 & l2 & ->)%list_elem_of_split Hu. rewrite cover_app. cbn [cover].
  pose proof (cover_nonneg u l1). pose proof (cover_nonneg u l2). destruct (covers_spec u x) as [[-> _]|[_ ?]]; lia.
Qed.

(** Two blocks of a list in which no unit is covered twice do not overlap. *)
Lemma cover_apart l1 l2 x y :
  (∀ u, cover u (l1 ++ x :: l2) ≤ 1) → y ∈ l1 ++ l2 → 1 ≤ snd x → 1 ≤ snd y →
  fst x + snd x ≤ fst y ∨ fst y + snd y ≤ fst x.
Proof.
  intros Hc Hy Hx1 Hy1. destruct (Z.le_gt_cases (fst x + snd x) (fst y)); [by left|].
  destruct (Z.le_gt_cases (fst y + snd y) (fst x)); [by right|]. exfalso.
  set (u := Z.max (fst x) (fst y)). specialize (Hc u). rewrite cover_app in Hc. cbn [cover] in Hc.
  pose proof (cover_elem u y (l1 ++ l2) Hy ltac:(lia)) as H1. rewrite cover_app in H1.
  destruct (covers_spec u x) as [[E ?]|[_ ?]]; lia.
Qed.

(** Sorted, and with a unit in use between any two and after [b]. *)
Fixpoint apart (b : Z) (F : list blk) : Prop :=
  match F with [] => True | x :: F => b < fst x ∧ 1 ≤ snd x ∧ apart (fst x + snd x) F end.

Lemma apart_app b F F' :
  apart b (F ++ F') ↔ apart b F ∧ apart (match last F with Some x => fst x + snd x | None => b end) F'.
Proof.
  revert b. induction F as [|x F IH]; intros b; cbn [app apart].
  - split; [done|tauto].
  - rewrite IH. rewrite last_cons. destruct (last F); tauto.
Qed.
Lemma apart_weaken b b' F : b' ≤ b → apart b F → apart b' F.
Proof. destruct F as [|x F]; cbn; [done|]. intros ? (? & ?). split; [lia|done]. Qed.
Lemma apart_gt b F x : apart b F → x ∈ F → b < fst x ∧ 1 ≤ snd x.
Proof.
  revert b. induction F as [|y F IH]; intros b; [by intros _ ?%elem_of_nil|]. cbn. intros (H1 & H2 & H3) [->|Hx]%elem_of_cons; [done|].
  destruct (IH _ H3 Hx). split; [lia|done].
Qed.

(** The blocks before and after an address. *)
Lemma apart_split b F a :
  apart b F → ∃ F1 F2, F = F1 ++ F2 ∧ (∀ x, x ∈ F1 → fst x < a) ∧ (∀ x, x ∈ F2 → a ≤ fst x).
Proof.
  revert b. induction F as [|x F IH]; intros b H.
  - exists [], []. split; [done|]. split; by intros x ?%elem_of_nil.
  - destruct H as (H1 & H2 & H3). destruct (Z.lt_ge_cases (fst x) a) as [Hlt|Hge].
    + destruct (IH _ H3) as (F1 & F2 & -> & HF1 & HF2). exists (x :: F1), F2. split; [done|]. split; [|done].
      intros y [->|Hy]%elem_of_cons; [done|by apply HF1].
    + exists [], (x :: F). split; [done|]. split; [by intros y ?%elem_of_nil|].
      intros y [->|Hy]%elem_of_cons; [done|]. destruct (apart_gt _ _ _ H3 Hy). lia.
Qed.

(** ** The list *)

(** From [p] the pointers lead through [l] to [q]. *)
Fixpoint path (h : uheap) (p : Z) (l : list Z) (q : Z) : Prop :=
  match l with [] => h_ptr h p = q | x :: l => h_ptr h p = x ∧ path h x l q end.

Lemma path_app h p l x l' q : path h p (l ++ x :: l') q ↔ path h p l x ∧ path h x l' q.
Proof. revert p. induction l as [|y l IH]; intros p; cbn; [done|]. rewrite IH. tauto. Qed.
Lemma path_ext h h' p l q : (∀ x, x ∈ p :: l → h_ptr h' x = h_ptr h x) → path h p l q → path h' p l q.
Proof.
  revert p. induction l as [|y l IH]; intros p Hx; cbn.
  - rewrite (Hx p); [done|by left].
  - intros [H1 H2]. split; [rewrite (Hx p); [done|by left]|]. apply IH; [|done]. intros x H. apply Hx. by right.
Qed.

(** A path goes on from another start that has the same pointer. *)
Lemma path_head h h' p p' l q :
  path h p l q → h_ptr h' p' = h_ptr h p → (∀ x, x ∈ l → h_ptr h' x = h_ptr h x) → path h' p' l q.
Proof.
  destruct l as [|x l]; cbn; [congruence|]. intros [H1 H2] Hp Hl. split; [congruence|].
  revert H2. by apply path_ext.
Qed.

Section heap.
Variables base lo : Z.

(** The free blocks [F], the blocks [A] that programs have, and the heap from [lo] on. *)
Record heap_ok (F A : list blk) (h : uheap) : Prop := {
  ho_path : path h base (fst <$> F) base;
  ho_sizes : ∀ x, x ∈ F ++ A → h_size h (fst x) = snd x ∧ 1 ≤ snd x;
  ho_base : h_size h base = 0;
  ho_apart : apart base F;
  ho_cover : ∀ u, cover u (F ++ A) = if (lo <=? u) && (u <? h_brk h) then 1 else 0;
  ho_bounds : 0 < base < lo ∧ lo ≤ h_brk h < 2 ^ 32;
  ho_freep : h_freep h ∈ base :: (fst <$> F)
}.

Lemma heap_inside F A h x : heap_ok F A h → x ∈ F ++ A → lo ≤ fst x ∧ fst x + snd x ≤ h_brk h.
Proof.
  intros Hok Hx. destruct (ho_sizes _ _ _ Hok x Hx) as [_ H1].
  pose proof (cover_elem (fst x) x _ Hx ltac:(lia)) as Ha. pose proof (cover_elem (fst x + snd x - 1) x _ Hx ltac:(lia)) as Hb.
  rewrite (ho_cover _ _ _ Hok) in Ha, Hb.
  destruct (Z.leb_spec lo (fst x)), (Z.ltb_spec (fst x + snd x - 1) (h_brk h)); cbn [andb] in *; rewrite ?andb_false_r in *; lia.
Qed.
Lemma heap_cover_le F A h u : heap_ok F A h → cover u (F ++ A) ≤ 1.
Proof. intros Hok. rewrite (ho_cover _ _ _ Hok). destruct (_ && _); lia. Qed.

(** ** free *)

Fixpoint ascending (p : Z) (l : list Z) : Prop := match l with [] => True | x :: l => p < x ∧ ascending x l end.

Lemma apart_ascending b F p : apart b F → p ≤ b → ascending p (fst <$> F).
Proof.
  revert b p. induction F as [|x F IH]; intros b p; cbn; [done|]. intros (H1 & H2 & H3) Hp. split; [lia|].
  apply (IH _ _ H3). lia.
Qed.

Lemma ascending_front p l l' : ascending p (l ++ l') → ascending p l.
Proof. revert p. induction l as [|x l IH]; intros p; cbn; [done|]. intros [? ?%IH]. done. Qed.
Lemma ascending_back p l x l' : ascending p (l ++ x :: l') → ascending x l'.
Proof. revert p. induction l as [|y l IH]; intros p; cbn; [tauto|]. intros [_ ?]. by eapply IH. Qed.
Lemma ascending_last p l : ascending p l → p ≤ default p (last l).
Proof.
  revert p. induction l as [|x l IH]; intros p; [cbn; lia|]. intros [H1 H2]. rewrite last_cons. apply IH in H2.
  destruct (last l); cbn in *; lia.
Qed.
Lemma path_front h p l l' q : path h p (l ++ l') q → path h p l (default q (head l')).
Proof.
  revert p. induction l as [|x l IH]; intros p; cbn.
  - destruct l'; [done|]. by intros [? _].
  - intros [? ?%IH]. done.
Qed.

(** Going up to the last block below [bp]. *)
Lemma free_up fuel h bp p l q :
  path h p l q → ascending p l → p < bp → (∀ x, x ∈ l → x < bp) → bp < q ∨ q ≤ default p (last l) →
  (length l ≤ fuel)%nat → free_loop fuel h bp p = Some (default p (last l)).
Proof.
  revert fuel p. induction l as [|x l IH]; intros fuel p Hp Ha Hlt Hl Hq Hf.
  - cbn [last default path] in *.
    assert (E : (p <? bp) && (bp <? h_ptr h p) || (h_ptr h p <=? p) && ((p <? bp) || (bp <? h_ptr h p)) = true).
    { rewrite Hp, (proj2 (Z.ltb_lt p bp)) by done. cbn [andb orb]. rewrite andb_true_r.
      destruct Hq; [by rewrite (proj2 (Z.ltb_lt bp q))|]. rewrite (proj2 (Z.leb_le q p)) by done. apply orb_true_r. }
    destruct fuel; cbn [free_loop]; destruct ((p <? bp) && (bp <? h_ptr h p)); cbn [orb] in E; [done| |done|]; by rewrite E.
  - destruct Hp as [Hp1 Hp2], Ha as [Ha1 Ha2]. destruct fuel as [|fuel]; [cbn in Hf; lia|]. cbn [free_loop]. rewrite Hp1.
    assert (Hx : x < bp) by (apply Hl; by left).
    rewrite (proj2 (Z.ltb_ge bp x)), andb_false_r, (proj2 (Z.leb_gt x p)) by lia. cbn [andb].
    rewrite last_cons in *. rewrite IH; [by destruct (last l)|done|done|done|intros y Hy; apply Hl; by right| |cbn in Hf; lia].
    by destruct (last l).
Qed.

(** From a block above [bp] to the end of the list and back to its start. *)
Lemma free_down fuel h bp p l :
  path h p l base → ascending p l → bp < p → base < bp →
  free_loop (S (length l) + fuel) h bp p = free_loop fuel h bp base.
Proof.
  revert p. induction l as [|x l IH]; intros p Hp Ha Hlt Hb; cbn [length Nat.add free_loop].
  - cbn in Hp. rewrite Hp, (proj2 (Z.ltb_ge p bp)), (proj2 (Z.ltb_ge bp base)) by lia. cbn [andb orb]. by rewrite andb_false_r.
  - destruct Hp as [Hp1 Hp2], Ha as [Ha1 Ha2]. rewrite Hp1, (proj2 (Z.ltb_ge p bp)), (proj2 (Z.leb_gt x p)) by lia. cbn [andb].
    apply (IH x Hp2 Ha2); lia.
Qed.

(** Wherever freep is, the loop finds the block before [bp]. *)
Lemma free_loop_spec fuel h bp F1 F2 :
  path h base (fst <$> F1 ++ F2) base → apart base (F1 ++ F2) → base < bp →
  (∀ x, x ∈ F1 → fst x < bp) → (∀ x, x ∈ F2 → bp < fst x) → h_freep h ∈ base :: (fst <$> F1 ++ F2) →
  (2 * length (F1 ++ F2) + 1 ≤ fuel)%nat →
  free_loop fuel h bp (h_freep h) = Some (default base (last (fst <$> F1))).
Proof.
  intros Hp Ha Hb H1 H2 Hin Hf. rewrite fmap_app in *.
  assert (Hasc : ascending base ((fst <$> F1) ++ (fst <$> F2))) by (rewrite <- fmap_app; by eapply apart_ascending).
  assert (H1' : ∀ x, x ∈ fst <$> F1 → x < bp) by (intros x (y & -> & Hy)%list_elem_of_fmap; by apply H1).
  assert (H2' : ∀ x, x ∈ fst <$> F2 → bp < x) by (intros x (y & -> & Hy)%list_elem_of_fmap; by apply H2).
  assert (Hf' : (2 * (length (fst <$> F1) + length (fst <$> F2)) + 1 ≤ fuel)%nat) by (rewrite !length_fmap; by rewrite length_app in Hf).
  revert Hp Hasc H1' H2' Hin Hf'. clear -Hb. generalize (fst <$> F1) as l1, (fst <$> F2) as l2. intros l1 l2 Hp Hasc H1 H2 Hin Hf.
  set (q := default base (head l2)).
  assert (Hq : ∀ p, base ≤ p → bp < q ∨ q ≤ p).
  { intros p Hbp. unfold q. destruct l2 as [|x l2]; cbn; [by right|left]. apply H2. by left. }
  pose proof (path_front _ _ _ _ _ Hp) as Hp1. fold q in Hp1. pose proof (ascending_front _ _ _ Hasc) as Ha1.
  assert (Hlast : base ≤ default base (last l1)) by (by apply ascending_last).
  assert (Hbase : ∀ g, (length l1 ≤ g)%nat → free_loop g h bp base = Some (default base (last l1))).
  { intros g Hg. apply (free_up _ _ _ _ _ q); try done. by apply Hq. }
  apply elem_of_cons in Hin as [->|[Hin|Hin]%elem_of_app]; [apply Hbase; lia| |].
  - apply list_elem_of_split in Hin as (g1 & g2 & ->). apply path_app in Hp1 as [_ Hp2].
    pose proof (ascending_back _ _ _ _ Ha1) as Ha2. rewrite length_app in Hf. cbn [length] in Hf.
    rewrite last_app_cons, last_cons in *. rewrite (free_up fuel h bp (h_freep h) g2 q); try done.
    + by destruct (last g2).
    + apply H1, elem_of_app. right. by left.
    + intros x Hx. apply H1, elem_of_app. right. by right.
    + destruct (Hq (default (h_freep h) (last g2))); [|by left|by right]. by destruct (last g2).
    + lia.
  - apply list_elem_of_split in Hin as (g1 & g2 & ->). rewrite app_assoc in Hp, Hasc. apply path_app in Hp as [_ Hp2].
    pose proof (ascending_back _ _ _ _ Hasc) as Ha2. rewrite length_app in Hf. cbn [length] in Hf.
    replace fuel with (S (length g2) + (fuel - S (length g2)))%nat by lia.
    rewrite free_down; [apply Hbase; lia|done|done| |done]. apply H2, elem_of_app. right. by left.
Qed.
(** Two blocks at different places have their headers at different units. *)
Lemma heap_distinct F A h l1 x l2 y :
  heap_ok F A h → F ++ A = l1 ++ x :: l2 → y ∈ l1 ++ l2 → fst y + snd y ≤ fst x ∨ fst x + snd x ≤ fst y.
Proof.
  intros Hok E Hy. assert (Hsz : ∀ z, z ∈ F ++ A → 1 ≤ snd z) by (intros z Hz; by apply (ho_sizes _ _ _ Hok)).
  rewrite E in Hsz. destruct (cover_apart l1 l2 x y); [|done| | |by right|by left].
  - intros u. rewrite <- E. by eapply heap_cover_le.
  - apply Hsz, elem_of_app. right. by left.
  - apply Hsz. apply elem_of_app in Hy as [Hy|Hy]; apply elem_of_app; [by left|right]. by right.
Qed.

(** The block freed, with the one behind it when they touch, and the blocks after that. *)
Definition join_right (bp s : Z) (F2 : list blk) : Z * list blk :=
  match F2 with
  | x :: F2' => if bp + s =? fst x then (s + snd x, F2') else (s, F2)
  | [] => (s, [])
  end.

(** The first half of free: the header of [bp] is set to the joined block. *)
Lemma free_right h bp s p F2 :
  h_size h bp = s → path h p (fst <$> F2) base → base < bp → p < bp → (∀ x, x ∈ F2 → bp + s ≤ fst x ∧ h_size h (fst x) = snd x) → 1 ≤ s →
  (∀ x, x ∈ F2 → 1 ≤ snd x ∧ fst x + snd x < 2 ^ 32) → 0 ≤ bp →
  let h1 := join_next bp p h in
  let '(s', R) := join_right bp s F2 in
  h_size h1 bp = s' ∧ path h1 bp (fst <$> R) base ∧ h_freep h1 = h_freep h ∧ h_brk h1 = h_brk h ∧
  (∀ x, x ≠ bp → h_ptr h1 x = h_ptr h x ∧ h_size h1 x = h_size h x).
Proof.
  intros Hs Hp Hb Hpb HF2 Hs1 Hsz Hbp h1. unfold h1, join_next. rewrite Hs. clear h1.
  assert (Hne : ∀ x, x ∈ F2 → fst x ≠ bp) by (intros x Hx; destruct (HF2 x Hx); lia).
  destruct F2 as [|[q t] F2]; cbn [join_right fmap list_fmap path fst snd] in *.
  - rewrite Hp, (proj2 (Z.eqb_neq (bp + s) base)) by lia. cbn [h_size h_ptr h_freep h_brk set_ptr]. rewrite Z.eqb_refl.
    split; [done|]. split; [done|]. split; [done|]. split; [done|]. intros x Hx. by rewrite (proj2 (Z.eqb_neq x bp)).
  - destruct Hp as [Hp1 Hp2]. rewrite Hp1. destruct (HF2 (q, t) (list_elem_of_here _ _)) as [Hq Hqt]. cbn [fst snd] in Hq, Hqt.
    destruct (Hsz (q, t) (list_elem_of_here _ _)) as [Ht1 Ht2]. cbn [fst snd] in Ht1, Ht2.
    destruct (Z.eqb_spec (bp + s) q) as [E|E]; cbn [h_size h_ptr h_freep h_brk set_ptr set_size]; rewrite ?Z.eqb_refl.
    + rewrite Hqt. unfold u32. rewrite Z.mod_small by lia. split; [done|]. rewrite Hp1. split; [|split; [done|split; [done|]]].
      * apply (path_head h _ q); [done|cbn; by rewrite Z.eqb_refl|]. intros x (y & -> & Hy)%list_elem_of_fmap.
        cbn. rewrite (proj2 (Z.eqb_neq _ bp)); [done|]. apply Hne. by right.
      * intros x Hx. by rewrite (proj2 (Z.eqb_neq x bp)).
    + split; [done|]. split; [|split; [done|split; [done|]]].
      * apply (path_head h _ p); [done|cbn; by rewrite Z.eqb_refl|]. intros x Hx.
        assert (Hx' : x ∈ fst <$> (q, t) :: F2) by done. apply list_elem_of_fmap in Hx' as (y & -> & Hy).
        cbn. rewrite (proj2 (Z.eqb_neq _ bp)); [done|]. by apply Hne.
      * intros x Hx. by rewrite (proj2 (Z.eqb_neq x bp)).
Qed.
Lemma join_right_apart b bp s F2 s' R :
  apart b F2 → (∀ x, x ∈ F2 → bp + s ≤ fst x) → 1 ≤ s → join_right bp s F2 = (s', R) →
  apart (bp + s') R ∧ s ≤ s' ∧ (∀ x, x ∈ R → x ∈ F2) ∧ (length R ≤ length F2)%nat.
Proof.
  intros Ha Hx Hs. destruct F2 as [|x F2]; cbn [join_right]; [intros [= <- <-]; cbn; by auto with lia|].
  destruct Ha as (H1 & H2 & H3). destruct (Z.eqb_spec (bp + s) (fst x)) as [E|E]; intros [= <- <-].
  - split; [by rewrite Z.add_assoc, E|]. split; [lia|]. split; [by right|cbn; lia].
  - split; [|done]. split; [|done]. pose proof (Hx x (list_elem_of_here _ _)). lia.
Qed.
Lemma join_right_cover u bp s F2 s' R :
  join_right bp s F2 = (s', R) → 0 ≤ s → (∀ x, x ∈ F2 → 1 ≤ snd x) → covers u (bp, s') + cover u R = covers u (bp, s) + cover u F2.
Proof.
  intros E Hs Hx. destruct F2 as [|[q t] F2]; cbn [join_right] in E; [by injection E as <- <-|]. cbn [fst snd] in E.
  pose proof (Hx (q, t) (list_elem_of_here _ _)) as Ht. cbn in Ht.
  destruct (Z.eqb_spec (bp + s) q) as [Eq|_]; injection E as <- <-; [|done].
  cbn [cover]. rewrite <- Eq, <- (covers_join u bp s t) by lia. lia.
Qed.

(** A path that is led to another end. *)
Lemma path_retarget h h' p l q q' :
  path h p l q → NoDup (p :: l) → h_ptr h' (default p (last l)) = q' →
  (∀ x, x ∈ p :: l → x ≠ default p (last l) → h_ptr h' x = h_ptr h x) → path h' p l q'.
Proof.
  revert p. induction l as [|x l IH]; intros p Hp Hn Hl Hx; [done|]. destruct Hp as [Hp1 Hp2].
  rewrite last_cons in Hl, Hx. apply NoDup_cons in Hn as [Hn1 Hn2].
  assert (Hin : default x (last l) ∈ x :: l) by (destruct (last l) eqn:E; [right; by apply last_Some_elem_of|by left]).
  assert (Hd : from_option id p (match last l with Some y => Some y | None => Some x end) = default x (last l)) by by destruct (last l).
  rewrite Hd in Hl, Hx. split; [rewrite Hx; [done|by left|]; intros ->; done|].
  apply IH; try done. intros y Hy. apply Hx. by right.
Qed.

Section free.
Variables (F1 F2 A1 A2 : list blk) (bp s : Z) (h : uheap).
Hypothesis Hok : heap_ok (F1 ++ F2) (A1 ++ (bp, s) :: A2) h.
Hypothesis HF1 : ∀ x, x ∈ F1 → fst x < bp.
Hypothesis HF2 : ∀ x, x ∈ F2 → bp < fst x.

Lemma free_others y : y ∈ (F1 ++ F2) ++ A1 ++ A2 → fst y + snd y ≤ bp ∨ bp + s ≤ fst y.
Proof.
  intros Hy. apply (heap_distinct _ _ _ ((F1 ++ F2) ++ A1) (bp, s) A2 y Hok); [by rewrite <- (app_assoc (F1 ++ F2))..].
Qed.
Lemma free_size y : y ∈ (F1 ++ F2) ++ A1 ++ A2 → h_size h (fst y) = snd y ∧ 1 ≤ snd y ∧ fst y ≠ bp ∧ fst y ≠ base.
Proof.
  intros Hy. assert (Hy' : y ∈ (F1 ++ F2) ++ A1 ++ (bp, s) :: A2) by (set_solver).
  destruct (ho_sizes _ _ _ Hok y Hy') as [H1 H2]. destruct (heap_inside _ _ _ _ Hok Hy') as [H3 H4].
  destruct (ho_bounds _ _ _ Hok) as [[? ?] _]. split; [done|]. split; [done|].
  assert (Hs : 1 ≤ s). { destruct (ho_sizes _ _ _ Hok (bp, s)); [set_solver|done]. }
  destruct (free_others y Hy); lia.
Qed.
Lemma free_block : h_size h bp = s ∧ 1 ≤ s ∧ lo ≤ bp ∧ bp + s ≤ h_brk h.
Proof.
  assert (Hin : (bp, s) ∈ (F1 ++ F2) ++ A1 ++ (bp, s) :: A2) by set_solver.
  destruct (ho_sizes _ _ _ Hok _ Hin), (heap_inside _ _ _ _ Hok Hin). done.
Qed.

Let p := default base (last (fst <$> F1)).

Lemma free_path : path h p (fst <$> F2) base.
Proof.
  pose proof (ho_path _ _ _ Hok) as Hp. rewrite fmap_app in Hp. unfold p. clear -Hp. revert Hp.
  generalize (fst <$> F1) as l. intros l. generalize base at 1 3 as b. induction l as [|x l IH]; intros b; [done|].
  intros [_ Hp]. apply IH in Hp. rewrite last_cons. by destruct (last l).
Qed.
Lemma free_pred : p < bp ∧ p ∈ base :: (fst <$> F1).
Proof.
  destruct free_block as (_ & _ & Hb & _). destruct (ho_bounds _ _ _ Hok) as [[? ?] _]. unfold p.
  destruct (last (fst <$> F1)) as [x|] eqn:E; cbn; [|split; [lia|by left]].
  apply last_Some_elem_of in E. split; [|by right]. apply list_elem_of_fmap in E as (y & -> & Hy). by apply HF1.
Qed.
Lemma free_nodup : NoDup (base :: (fst <$> F1)).
Proof.
  pose proof (ho_apart _ _ _ Hok) as Ha. apply apart_app in Ha as [Ha _]. revert Ha. clear. generalize base as b.
  induction F1 as [|x F IH]; intros b Ha; [apply NoDup_singleton|]. destruct Ha as (H1 & H2 & H3).
  assert (Hlt : ∀ y, y ∈ fst <$> F → fst x < y). { intros y (z & -> & Hz)%list_elem_of_fmap. destruct (apart_gt _ _ _ H3 Hz). lia. }
  cbn. apply NoDup_cons. split.
  - intros [->|Hin]%elem_of_cons; [lia|]. specialize (Hlt _ Hin). lia.
  - apply NoDup_cons. split; [intros Hin; specialize (Hlt _ Hin); lia|]. specialize (IH _ H3). by apply NoDup_cons in IH as [_ ?].
Qed.

(** The first half of free, here. *)
Lemma free_next s' R :
  join_right bp s F2 = (s', R) →
  let h1 := join_next bp p h in
  (h_size h1 bp = s' ∧ path h1 bp (fst <$> R) base ∧ h_freep h1 = h_freep h ∧ h_brk h1 = h_brk h ∧
   ∀ x, x ≠ bp → h_ptr h1 x = h_ptr h x ∧ h_size h1 x = h_size h x) ∧
  (apart (bp + s') R ∧ s ≤ s' ∧ (∀ x, x ∈ R → x ∈ F2) ∧ (length R ≤ length F2)%nat) ∧
  (∀ u, covers u (bp, s') + cover u R = covers u (bp, s) + cover u F2) ∧ bp + s' < 2 ^ 32.
Proof.
  intros E h1. destruct free_block as (Hs & Hs1 & Hb1 & Hb2). destruct (ho_bounds _ _ _ Hok) as [[Hbase Hlo] [_ Hbrk]].
  destruct free_pred as [Hp _].
  assert (Hin : ∀ x, x ∈ F2 → x ∈ (F1 ++ F2) ++ A1 ++ A2) by set_solver.
  assert (Hge : ∀ x, x ∈ F2 → bp + s ≤ fst x).
  { intros x Hx. pose proof (HF2 x Hx). destruct (free_size x (Hin x Hx)) as (_ & ? & _). destruct (free_others x (Hin x Hx)); lia. }
  assert (Hend : ∀ x, x ∈ F2 → 1 ≤ snd x ∧ fst x + snd x < 2 ^ 32).
  { intros x Hx. destruct (free_size x (Hin x Hx)) as (_ & ? & _). split; [done|].
    destruct (heap_inside _ _ _ x Hok); [set_solver|]. lia. }
  pose proof (free_right h bp s p F2 Hs free_path ltac:(lia) Hp) as Hr. rewrite E in Hr. split; [apply Hr; try done|].
  - intros x Hx. split; [by apply Hge|]. by destruct (free_size x (Hin x Hx)).
  - lia.
  - pose proof (ho_apart _ _ _ Hok) as Ha. apply apart_app in Ha as [_ Ha].
    split; [by eapply join_right_apart|]. split; [intros u; apply join_right_cover; [done|lia|intros x Hx; by apply Hend]|].
    destruct F2 as [|x F]; cbn [join_right] in E; [injection E as <- <-; lia|].
    destruct (Hend x (list_elem_of_here _ _)). destruct (Z.eqb_spec (bp + s) (fst x)); injection E as <- <-; lia.
Qed.

Lemma free_not_prev s' R :
  join_right bp s F2 = (s', R) → p + h_size h p ≠ bp →
  heap_ok (F1 ++ (bp, s') :: R) (A1 ++ A2) (free_at bp p h) ∧ h_brk (free_at bp p h) = h_brk h.
Proof.
  intros E Hp. destruct (free_next s' R E) as ((H1 & H2 & H3 & H4 & H5) & (H6 & H7 & H8 & H9) & H10 & H11).
  destruct free_block as (Hs & Hs1 & Hb1 & Hb2). destruct (ho_bounds _ _ _ Hok) as [[Hbase Hlo] Hbrk].
  destruct free_pred as [Hpb Hpin]. unfold free_at, join_prev. set (h1 := join_next bp p h) in *.
  destruct (H5 p ltac:(lia)) as [_ Hps]. rewrite Hps, (proj2 (Z.eqb_neq _ _)) by done.
  split; [|done].
  assert (Hne : ∀ x, x ∈ R → fst x ≠ p ∧ fst x ≠ bp).
  { intros x Hx. pose proof (HF2 x (H8 x Hx)). lia. }
  split; cbn [h_ptr h_size h_freep h_brk set_freep set_ptr].
  - rewrite fmap_app. cbn [fmap list_fmap fst]. apply path_app. split.
    + apply (path_retarget h _ base (fst <$> F1) (default base (head (fst <$> F2)))); [|apply free_nodup|cbn; by rewrite Z.eqb_refl|].
      * apply path_front. rewrite <- fmap_app. apply Hok.
      * intros x Hx Hxp. cbn. fold p in Hxp. rewrite (proj2 (Z.eqb_neq x p)) by done. apply H5.
        apply elem_of_cons in Hx as [->|(y & -> & Hy)%list_elem_of_fmap]; [lia|]. pose proof (HF1 y Hy). lia.
    + revert H2. apply path_ext. intros x Hx. cbn. rewrite (proj2 (Z.eqb_neq x p)); [done|].
      apply elem_of_cons in Hx as [->|(y & -> & Hy)%list_elem_of_fmap]; [lia|]. by apply Hne.
  - intros x Hx. assert (x = (bp, s') ∨ x ∈ (F1 ++ F2) ++ A1 ++ A2) as [->|Hx'] by set_solver; [cbn; split; [done|lia]|].
    destruct (free_size x Hx') as (Hsz & Hx1 & Hxb & _). by rewrite (proj2 (H5 _ Hxb)).
  - rewrite (proj2 (H5 base ltac:(lia))). apply Hok.
  - pose proof (ho_apart _ _ _ Hok) as Ha. apply apart_app in Ha as [Ha _]. apply apart_app. split; [done|].
    split; [|split; [cbn; lia|done]]. cbn. destruct (last F1) as [x|] eqn:El; [|lia].
    assert (Hx : x ∈ F1) by (by apply last_Some_elem_of). pose proof (HF1 x Hx).
    assert (Hpx : p = fst x) by (unfold p; by rewrite fmap_last, El).
    destruct (free_size x) as (Hsz & ? & _); [set_solver|]. rewrite Hpx, Hsz in Hp.
    destruct (free_others x); [set_solver|lia|lia].
  - intros u. rewrite H4, <- (ho_cover _ _ _ Hok), !cover_app. cbn [cover]. specialize (H10 u). lia.
  - by rewrite H4.
  - rewrite fmap_app. set_solver.
Qed.

Lemma free_prev s' R G ps :
  join_right bp s F2 = (s', R) → F1 = G ++ [(p, ps)] → p + ps = bp →
  heap_ok (G ++ (p, ps + s') :: R) (A1 ++ A2) (free_at bp p h) ∧ h_brk (free_at bp p h) = h_brk h.
Proof.
  intros E EG Hp. destruct (free_next s' R E) as ((H1 & H2 & H3 & H4 & H5) & (H6 & H7 & H8 & H9) & H10 & H11).
  destruct free_block as (Hs & Hs1 & Hb1 & Hb2). destruct (ho_bounds _ _ _ Hok) as [[Hbase Hlo] Hbrk].
  destruct free_pred as [Hpb Hpin]. unfold free_at, join_prev. set (h1 := join_next bp p h) in *.
  assert (Hpl : (p, ps) ∈ (F1 ++ F2) ++ A1 ++ A2) by (rewrite EG; set_solver).
  destruct (free_size _ Hpl) as (Hsz & Hps1 & _ & Hpbase). cbn [fst snd] in Hsz, Hps1, Hpbase.
  destruct (heap_inside _ _ _ (p, ps) Hok) as [Hplo _]; [set_solver|]. cbn [fst] in Hplo.
  destruct (H5 p ltac:(lia)) as [_ Hps]. rewrite Hps, Hsz, (proj2 (Z.eqb_eq _ _)), H1 by done.
  unfold u32. rewrite (Z.mod_small (ps + s')) by lia. cbn [h_ptr set_size].
  assert (Hother : ∀ y, y ∈ G ++ R ++ A1 ++ A2 → h_size h (fst y) = snd y ∧ 1 ≤ snd y ∧ fst y ≠ bp ∧ fst y ≠ p).
  { intros y Hy. assert (Hy' : y ∈ (F1 ++ F2) ++ A1 ++ A2) by (rewrite EG; set_solver).
    destruct (free_size y Hy') as (? & ? & ? & _). split; [done|]. split; [done|]. split; [done|].
    destruct (heap_distinct _ _ _ G (p, ps) (F2 ++ A1 ++ (bp, s) :: A2) y Hok); [by rewrite EG, <- !app_assoc|set_solver| |]; cbn [fst snd] in *; lia. }
  split; [|done]. split; cbn [h_ptr h_size h_freep h_brk set_freep set_ptr set_size].
  - rewrite fmap_app. cbn [fmap list_fmap fst]. apply path_app. split.
    + pose proof (ho_path _ _ _ Hok) as Hpath. rewrite EG, <- app_assoc, fmap_app in Hpath. cbn [fmap list_fmap fst app] in Hpath.
      apply path_app in Hpath as [Hpath _]. revert Hpath. apply path_ext. intros x Hx. cbn.
      assert (x ≠ p ∧ x ≠ bp) as [Hxp Hxb].
      { apply elem_of_cons in Hx as [->|(y & -> & Hy)%list_elem_of_fmap]; [lia|]. destruct (Hother y) as (_ & _ & ? & ?); [set_solver|done]. }
      rewrite (proj2 (Z.eqb_neq x p)) by done. by apply H5.
    + apply (path_head h1 _ bp); [done|cbn; by rewrite Z.eqb_refl|]. intros x (y & -> & Hy)%list_elem_of_fmap. cbn.
      rewrite (proj2 (Z.eqb_neq _ p)); [done|]. apply Hother. set_solver.
  - intros x Hx. assert (x = (p, ps + s') ∨ x ∈ G ++ R ++ A1 ++ A2) as [->|Hx'] by set_solver; [cbn; rewrite Z.eqb_refl; split; [done|lia]|].
    destruct (Hother x Hx') as (Hszx & Hx1 & Hxb & Hxp). rewrite (proj2 (Z.eqb_neq _ p)) by done. by rewrite (proj2 (H5 _ Hxb)).
  - rewrite (proj2 (Z.eqb_neq base p)) by done. rewrite (proj2 (H5 base ltac:(lia))). apply Hok.
  - pose proof (ho_apart _ _ _ Hok) as Ha. rewrite EG, <- app_assoc in Ha. apply apart_app in Ha as [Ha Hb]. apply apart_app. split; [done|].
    destruct Hb as (Hb & _). cbn [fst] in Hb. split; [exact Hb|]. split; [cbn; lia|]. cbn [fst snd].
    by replace (p + (ps + s')) with (bp + s') by lia.
  - intros u. rewrite H4, <- (ho_cover _ _ _ Hok), EG, !cover_app. cbn [cover]. specialize (H10 u).
    rewrite <- (covers_join u p ps s') by lia. rewrite Hp. lia.
  - by rewrite H4.
  - rewrite fmap_app. set_solver.
Qed.

(** The whole of free. *)
Lemma free_at_spec :
  ∃ F', heap_ok F' (A1 ++ A2) (free_at bp p h) ∧ h_brk (free_at bp p h) = h_brk h ∧
    (length F' ≤ S (length (F1 ++ F2)))%nat ∧ ∃ x, x ∈ F' ∧ s ≤ snd x.
Proof.
  destruct (join_right bp s F2) as [s' R] eqn:E.
  destruct (free_next s' R E) as (_ & (_ & H7 & _ & H9) & _).
  destruct (last F1) as [[p' ps]|] eqn:El.
  - pose proof El as (G & EG)%last_Some. assert (Hpp : p = p') by (unfold p; by rewrite fmap_last, El). subst p'.
    assert (Hsz : h_size h p = ps) by (destruct (free_size (p, ps)); [rewrite EG; set_solver|done]).
    assert (Hps : 1 ≤ ps) by (destruct (free_size (p, ps)) as (_ & ? & _); [rewrite EG; set_solver|done]).
    destruct (decide (p + ps = bp)) as [Hj|Hj].
    + exists (G ++ (p, ps + s') :: R). destruct (free_prev s' R G ps E EG Hj) as [H1 H2].
      split; [done|]. split; [done|]. split; [rewrite EG, !length_app; cbn; lia|]. exists (p, ps + s'). split; [set_solver|cbn; lia].
    + exists (F1 ++ (bp, s') :: R). destruct (free_not_prev s' R E) as [H1 H2]; [by rewrite Hsz|].
      split; [done|]. split; [done|]. split; [rewrite !length_app; cbn; lia|]. exists (bp, s'). split; [set_solver|cbn; lia].
  - assert (Hpp : p = base) by (unfold p; by rewrite fmap_last, El).
    exists (F1 ++ (bp, s') :: R). destruct (free_not_prev s' R E) as [H1 H2].
    { rewrite Hpp, (ho_base _ _ _ Hok). destruct free_block as (_ & _ & ? & _). destruct (ho_bounds _ _ _ Hok) as [[? ?] _]. lia. }
    split; [done|]. split; [done|]. split; [rewrite !length_app; cbn; lia|]. exists (bp, s'). split; [set_solver|cbn; lia].
Qed.
End free.

Lemma free_ok fuel F A1 A2 bp s h :
  heap_ok F (A1 ++ (bp, s) :: A2) h → (2 * length F + 1 ≤ fuel)%nat →
  ∃ h' F', free fuel (bp + 1) h = Some h' ∧ heap_ok F' (A1 ++ A2) h' ∧ h_brk h' = h_brk h ∧
    (length F' ≤ S (length F))%nat ∧ ∃ x, x ∈ F' ∧ s ≤ snd x.
Proof.
  intros Hok Hf. destruct (apart_split base F bp (ho_apart _ _ _ Hok)) as (F1 & F2 & -> & HF1 & HF2).
  assert (Hb : lo ≤ bp). { destruct (heap_inside _ _ _ (bp, s) Hok); [set_solver|done]. }
  assert (HF2' : ∀ x, x ∈ F2 → bp < fst x).
  { intros x Hx. specialize (HF2 x Hx). enough (fst x ≠ bp) by lia. intros Heq.
    destruct (ho_sizes _ _ _ Hok x) as [_ ?]; [set_solver|]. destruct (ho_sizes _ _ _ Hok (bp, s)) as [_ ?]; [set_solver|]. cbn in *.
    destruct (heap_distinct _ _ _ ((F1 ++ F2) ++ A1) (bp, s) A2 x Hok); [by rewrite <- (app_assoc (F1 ++ F2))|set_solver| |]; cbn in *; lia. }
  unfold free. replace (bp + 1 - 1) with bp by lia.
  rewrite (free_loop_spec fuel h bp F1 F2); try done; [|apply Hok|apply Hok|destruct (ho_bounds _ _ _ Hok) as [[? ?] _]; lia|apply Hok].
  destruct (free_at_spec F1 F2 A1 A2 bp s h Hok HF1 HF2') as (F' & H1 & H2 & H3 & H4). cbn. eauto 10.
Qed.

(** ** malloc *)

(** The list, seen from another of its blocks. *)
Lemma path_rotate h b l x :
  path h b l b → x ∈ b :: l → ∃ l', path h x l' x ∧ x :: l' ≡ₚ b :: l.
Proof.
  intros Hp [->|(l1 & l2 & ->)%list_elem_of_split]%elem_of_cons; [by exists l|].
  apply path_app in Hp as [H1 H2]. exists (l2 ++ b :: l1). split; [by apply path_app|]. solve_Permutation.
Qed.

Lemma path_next h p l q x : path h p l q → x ∈ p :: l → h_ptr h x ∈ l ++ [q].
Proof.
  revert p. induction l as [|y l IH]; intros p; cbn.
  - intros Hp ->%list_elem_of_singleton. rewrite Hp. by left.
  - intros [H1 H2] [->|Hx]%elem_of_cons; [rewrite H1; by left|]. right. by apply (IH y).
Qed.

(** Only one block points to a block. *)
Lemma path_pred h b l1 p l2 e x :
  path h b (l1 ++ p :: l2) e → NoDup (b :: l1 ++ p :: l2) → p ≠ e → x ∈ b :: l1 ++ p :: l2 → h_ptr h x = p →
  x = default b (last l1).
Proof.
  intros Hp Hn He. revert b Hp Hn. induction l1 as [|y l1 IH]; intros b Hp Hn Hx Hpx.
  - apply elem_of_cons in Hx as [->|Hx]; [done|]. destruct Hp as [_ Hp]. apply (path_next _ _ _ _ _ Hp) in Hx. rewrite Hpx in Hx.
    apply NoDup_cons in Hn as [_ [Hn _]%NoDup_cons]. apply elem_of_app in Hx as [?|?%list_elem_of_singleton]; done.
  - destruct Hp as [Hp1 Hp2]. apply NoDup_cons in Hn as [_ Hn]. rewrite last_cons.
    apply elem_of_cons in Hx as [->|Hx].
    + exfalso. apply NoDup_cons in Hn as [Hn _]. apply Hn. apply elem_of_app. right. rewrite <- Hp1, Hpx. by left.
    + rewrite (IH y Hp2 Hn Hx Hpx). by destruct (last l1).
Qed.

Lemma heap_nodup F A h : heap_ok F A h → NoDup (base :: (fst <$> F)).
Proof.
  intros Hok. pose proof (ho_apart _ _ _ Hok) as Ha. revert Ha. clear. generalize base as b.
  induction F as [|x F IH]; intros b Ha; [apply NoDup_singleton|]. destruct Ha as (H1 & H2 & H3).
  assert (Hlt : ∀ y, y ∈ fst <$> F → fst x < y). { intros y (z & -> & Hz)%list_elem_of_fmap. destruct (apart_gt _ _ _ H3 Hz). lia. }
  cbn. apply NoDup_cons. split.
  - intros [->|Hin]%elem_of_cons; [lia|]. specialize (Hlt _ Hin). lia.
  - apply NoDup_cons. split; [intros Hin; specialize (Hlt _ Hin); lia|]. specialize (IH _ H3). by apply NoDup_cons in IH as [_ ?].
Qed.

(** A block that is taken as a whole. *)
Lemma take_whole G1 G2 A p n prevp h :
  heap_ok (G1 ++ (p, n) :: G2) A h → prevp ∈ base :: (fst <$> G1 ++ (p, n) :: G2) → h_ptr h prevp = p →
  heap_ok (G1 ++ G2) ((p, n) :: A) (set_freep prevp (set_ptr prevp (h_ptr h p) h)).
Proof.
  intros Hok Hprev Hp. pose proof (heap_nodup _ _ _ Hok) as Hn. pose proof (ho_path _ _ _ Hok) as Hpath.
  assert (Hpl : lo ≤ p). { destruct (heap_inside _ _ _ (p, n) Hok); [set_solver|done]. }
  destruct (ho_bounds _ _ _ Hok) as [[Hb1 Hb2] Hb3].
  rewrite fmap_app in Hprev, Hn, Hpath. cbn [fmap list_fmap fst] in Hprev, Hn, Hpath.
  assert (Epred : prevp = default base (last (fst <$> G1))) by (eapply (path_pred h base _ p _ base); try done; lia).
  apply path_app in Hpath as [Hpath1 Hpath2].
  assert (Hne : ∀ x, x ∈ fst <$> G2 → x ≠ prevp).
  { intros x Hx ->. apply NoDup_cons in Hn as [Hnb Hn]. destruct (last (fst <$> G1)) as [y|] eqn:El; cbn in Epred; subst.
    - apply last_Some_elem_of in El. apply NoDup_app in Hn as (_ & Hn & _). apply (Hn y El). by right.
    - apply Hnb, elem_of_app. right. by right. }
  assert (HnG : NoDup (base :: (fst <$> G1))).
  { apply NoDup_cons in Hn as [Hnb Hn]. apply NoDup_app in Hn as (Hn & _ & _). apply NoDup_cons. split; [|done].
    intros ?. apply Hnb, elem_of_app. by left. }
  split; cbn [h_ptr h_size h_freep h_brk set_freep set_ptr].
  - rewrite fmap_app. set (h' := set_freep prevp _).
    assert (Hnext : path h' base (fst <$> G1) (h_ptr h p)).
    { apply (path_retarget h _ base (fst <$> G1) p); [done|done|rewrite <- Epred; cbn; by rewrite Z.eqb_refl|].
      intros x _ Hx. rewrite <- Epred in Hx. cbn. by rewrite (proj2 (Z.eqb_neq x prevp)). }
    destruct (fst <$> G2) as [|y l]; cbn [path] in Hpath2.
    + rewrite app_nil_r. by rewrite Hpath2 in Hnext.
    + destruct Hpath2 as [Hpath2 Hpath3]. rewrite Hpath2 in Hnext. apply path_app. split; [done|].
      revert Hpath3. apply path_ext. intros x Hx. cbn. rewrite (proj2 (Z.eqb_neq x prevp)); [done|]. by apply Hne.
  - intros x Hx. apply (ho_sizes _ _ _ Hok). set_solver.
  - apply Hok.
  - pose proof (ho_apart _ _ _ Hok) as Ha. apply apart_app in Ha as [Ha (Ha1 & Ha2 & Ha3)]. apply apart_app. split; [done|].
    eapply apart_weaken; [|exact Ha3]. cbn in *. lia.
  - intros u. rewrite <- (ho_cover _ _ _ Hok), !cover_app. cbn [cover]. lia.
  - done.
  - rewrite Epred, fmap_app. destruct (last (fst <$> G1)) as [y|] eqn:El; cbn; [|by left]. apply last_Some_elem_of in El. set_solver.
Qed.

(** A block whose end is taken. *)
Lemma take_end G1 G2 A p s n prevp h :
  heap_ok (G1 ++ (p, s) :: G2) A h → prevp ∈ base :: (fst <$> G1 ++ (p, s) :: G2) → 1 ≤ n < s →
  heap_ok (G1 ++ (p, s - n) :: G2) ((p + (s - n), n) :: A) (set_freep prevp (set_size (p + (s - n)) n (set_size p (s - n) h))).
Proof.
  intros Hok Hprev Hn. destruct (ho_bounds _ _ _ Hok) as [[Hb1 Hb2] Hb3].
  assert (Hpl : lo ≤ p). { destruct (heap_inside _ _ _ (p, s) Hok); [set_solver|done]. }
  assert (Hother : ∀ y, y ∈ G1 ++ G2 ++ A → h_size h (fst y) = snd y ∧ 1 ≤ snd y ∧ fst y ≠ p ∧ fst y ≠ p + (s - n)).
  { intros y Hy. destruct (ho_sizes _ _ _ Hok y); [set_solver|]. split; [done|]. split; [done|].
    destruct (heap_distinct _ _ _ G1 (p, s) (G2 ++ A) y Hok); [by rewrite <- app_assoc|set_solver| |]; cbn [fst snd] in *; lia. }
  split; cbn [h_ptr h_size h_freep h_brk set_freep set_size].
  - pose proof (ho_path _ _ _ Hok) as Hpath. rewrite fmap_app in *. revert Hpath. by apply path_ext.
  - intros x Hx. assert (x = (p, s - n) ∨ x = (p + (s - n), n) ∨ x ∈ G1 ++ G2 ++ A) as [->|[->|Hx']] by set_solver; cbn [fst snd].
    + rewrite (proj2 (Z.eqb_neq p (p + (s - n)))), Z.eqb_refl by lia. split; [done|lia].
    + rewrite Z.eqb_refl. split; [done|lia].
    + destruct (Hother x Hx') as (? & ? & ? & ?). by rewrite !(proj2 (Z.eqb_neq _ _)).
  - rewrite !(proj2 (Z.eqb_neq _ _)) by lia. apply Hok.
  - pose proof (ho_apart _ _ _ Hok) as Ha. apply apart_app in Ha as [Ha (Ha1 & Ha2 & Ha3)]. apply apart_app. split; [done|].
    split; [done|]. split; [cbn; lia|]. eapply apart_weaken; [|exact Ha3]. cbn. lia.
  - intros u. rewrite <- (ho_cover _ _ _ Hok), !cover_app. cbn [cover]. pose proof (covers_join u p (s - n) n) as Hj.
    replace (s - n + n) with s in Hj by lia. specialize (Hj ltac:(lia) ltac:(lia)). lia.
  - done.
  - rewrite fmap_app in *. set_solver.
Qed.
End heap.

(** * Any use of the user allocator: malloc ends, and its blocks do not overlap *)

Section runs.
Variables base lo : Z.
Variable grants : Z → bool.
(** The kernel has less than 2^32 units to give. *)
Hypothesis Hgrants : ∀ b, grants b = true → b < 2 ^ 32.

Local Abbreviation heap_ok := (heap_ok base lo).
Local Abbreviation malloc := (malloc base grants).
Local Abbreviation malloc_loop := (malloc_loop grants).

(** The block of [n] units behind a pointer that malloc returns. *)
Definition allocated (n : Z) (A : list blk) (x : Z * uheap) : Prop :=
  fst x ≠ 0 ∧ ∃ F', heap_ok F' ((fst x - 1, n) :: A) (snd x).

(** The block at [p] is large enough. *)
Lemma loop_fits fuel F A n prevp h :
  heap_ok F A h → prevp ∈ base :: (fst <$> F) → 1 ≤ n ≤ h_size h (h_ptr h prevp) →
  ∃ x, malloc_loop fuel n prevp (h_ptr h prevp) h = Some x ∧ allocated n A x.
Proof.
  intros Hok Hprev Hn. set (p := h_ptr h prevp) in *.
  assert (Hp : p ∈ (fst <$> F) ++ [base]) by (by apply (path_next h base _ base), Hprev; apply Hok).
  assert (∃ s, (p, s) ∈ F) as (s & (G1 & G2 & ->)%list_elem_of_split).
  { apply elem_of_app in Hp as [([? s] & -> & Hp)%list_elem_of_fmap|Hp%list_elem_of_singleton]; [by exists s|].
    rewrite Hp, (ho_base _ _ _ _ _ Hok) in Hn. lia. }
  assert (Hs : h_size h p = s). { destruct (ho_sizes _ _ _ _ _ Hok (p, s)); [set_solver|done]. }
  assert (Hlo : 0 < p). { destruct (heap_inside _ _ _ _ _ (p, s) Hok) as [H1 _]; [set_solver|]. destruct (ho_bounds _ _ _ _ _ Hok) as [[? ?] _]. cbn in H1. lia. }
  destruct fuel; cbn [Umalloc.malloc_loop]; rewrite Hs in *; rewrite (proj2 (Z.leb_le n s)) by lia; (destruct (Z.eqb_spec s n) as [->|Hne];
    [eexists; split; [done|]; cbn [fst snd]; split; cbn [fst snd]; [lia|]; exists (G1 ++ G2);
       replace (p + 1 - 1) with p by lia; by apply take_whole
    |cbn [h_size set_size]; rewrite Z.eqb_refl; eexists; split; [done|]; split; cbn [fst snd]; [lia|]; exists (G1 ++ (p, s - n) :: G2);
       replace (p + (s - n) + 1 - 1) with (p + (s - n)) by lia; apply take_end; [done|done|lia]]).
Qed.

(** Along the list up to freep: a block is found, or none of them is large enough. *)
Lemma loop_walk l fuel F A n prevp h :
  heap_ok F A h → 1 ≤ n → path h prevp l (h_freep h) → NoDup (l ++ [h_freep h]) → (∀ x, x ∈ prevp :: l → x ∈ base :: (fst <$> F)) → (length l ≤ fuel)%nat →
  (∃ x, malloc_loop fuel n prevp (h_ptr h prevp) h = Some x ∧ allocated n A x) ∨
  (∃ q, malloc_loop fuel n prevp (h_ptr h prevp) h = malloc_loop (fuel - length l) n q (h_freep h) h) ∧
  ∀ x, x ∈ l ++ [h_freep h] → h_size h x < n.
Proof.
  intros Hok Hn1. revert fuel prevp. induction l as [|y l IH]; intros fuel prevp Hp Hnd Hin Hf.
  - cbn in Hp. destruct (Z.le_gt_cases n (h_size h (h_freep h))) as [Hn|Hn].
    + left. apply (loop_fits fuel F); [done|apply Hin; by left|by rewrite Hp].
    + right. split; [exists prevp; by rewrite Hp, Nat.sub_0_r|]. by intros x ->%list_elem_of_singleton.
  - destruct Hp as [Hp1 Hp2]. destruct (Z.le_gt_cases n (h_size h y)) as [Hn|Hn].
    + left. apply (loop_fits fuel F); [done|apply Hin; by left|by rewrite Hp1].
    + destruct fuel as [|fuel]; [cbn in Hf; lia|]. cbn [Umalloc.malloc_loop]. rewrite Hp1, (proj2 (Z.leb_gt n _)) by done.
      apply NoDup_cons in Hnd as [Hny Hnd].
      rewrite (proj2 (Z.eqb_neq y (h_freep h))) by (intros ->; apply Hny, elem_of_app; right; by left).
      destruct (IH fuel y Hp2 Hnd) as [H|[H1 H2]]; [intros x Hx; apply Hin; by right|cbn in Hf; lia|by left|right].
      split; [done|]. intros x [->|Hx]%elem_of_cons; [done|by apply H2].
Qed.

(** The walk around the whole list. *)
Lemma loop_round fuel F A n h :
  heap_ok F A h → 1 ≤ n → (length F ≤ fuel)%nat →
  (∃ x, malloc_loop fuel n (h_freep h) (h_ptr h (h_freep h)) h = Some x ∧ allocated n A x) ∨
  (∃ q, malloc_loop fuel n (h_freep h) (h_ptr h (h_freep h)) h = malloc_loop (fuel - length F) n q (h_freep h) h) ∧
  (∀ x, x ∈ F → snd x < n) ∧ h_size h (h_freep h) < n.
Proof.
  intros Hok Hn Hf. destruct (path_rotate h base (fst <$> F) (h_freep h)) as (l & Hp & Hperm); [apply Hok|apply Hok|].
  assert (Hl : length l = length F) by (apply Permutation_length in Hperm; cbn in Hperm; rewrite length_fmap in Hperm; lia).
  assert (Hmem : ∀ x, x ∈ h_freep h :: l ↔ x ∈ base :: (fst <$> F)) by (intros x; by rewrite Hperm).
  assert (Hnd : NoDup (l ++ [h_freep h])).
  { pose proof (heap_nodup _ _ _ _ _ Hok) as Hnd. rewrite <- Hperm in Hnd. by rewrite (Permutation_app_comm l [h_freep h]). }
  destruct (loop_walk l fuel F A n (h_freep h) h Hok Hn Hp Hnd) as [H|[H1 H2]]; [intros x; apply Hmem|lia|by left|right].
  rewrite Hl in H1. split; [done|].
  assert (H2' : ∀ x, x ∈ base :: (fst <$> F) → h_size h x < n) by (intros x Hx; apply H2; apply Hmem in Hx; set_solver).
  split; [|apply H2; set_solver]. intros x Hx. destruct (ho_sizes _ _ _ _ _ Hok x) as [<- _]; [set_solver|].
  apply H2', elem_of_cons. right. by apply list_elem_of_fmap_2.
Qed.

(** The heap grows by a block of [nu] units, which is in use until it is freed. *)
Lemma heap_grows F A h nu :
  heap_ok F A h → 1 ≤ nu → h_brk h + nu < 2 ^ 32 →
  heap_ok F (A ++ (h_brk h, nu) :: []) (set_size (h_brk h) nu (set_brk (h_brk h + nu) h)).
Proof.
  intros Hok Hnu Hb. destruct (ho_bounds _ _ _ _ _ Hok) as [[Hb1 Hb2] Hb3].
  assert (Hne : ∀ x, x ∈ F ++ A → fst x ≠ h_brk h).
  { intros x Hx. destruct (heap_inside _ _ _ _ _ x Hok Hx), (ho_sizes _ _ _ _ _ Hok x Hx). lia. }
  split; cbn [h_ptr h_size h_freep h_brk set_size set_brk]; try apply Hok.
  - eapply path_ext; [|apply Hok]. done.
  - intros x Hx. assert (x = (h_brk h, nu) ∨ x ∈ F ++ A) as [->|Hx'] by set_solver; cbn [fst snd].
    + by rewrite Z.eqb_refl.
    + rewrite (proj2 (Z.eqb_neq _ _)) by by apply Hne. by apply Hok.
  - rewrite (proj2 (Z.eqb_neq _ _)) by lia. apply Hok.
  - intros u. rewrite app_assoc, cover_app, (ho_cover _ _ _ _ _ Hok). cbn [cover].
    destruct (covers_spec u (h_brk h, nu)) as [[-> H]|[-> H]]; cbn [fst snd] in H;
      destruct (Z.leb_spec lo u), (Z.ltb_spec u (h_brk h)), (Z.ltb_spec u (h_brk h + nu)); cbn [andb]; lia.
  - lia.
Qed.

(** The kernel refuses what morecore asks for when a block of [n] units is wanted. *)
Definition refused (n : Z) (h : uheap) : Prop := grants (h_brk h + Z.max 4096 n) = false.

Lemma morecore_ok fuel F A n h :
  heap_ok F A h → 1 ≤ n → (2 * length F + 1 ≤ fuel)%nat →
  (morecore grants fuel n h = Some (0, h) ∧ refused n h) ∨
  ∃ h' F', morecore grants fuel n h = Some (h_freep h', h') ∧ heap_ok F' A h' ∧
    (length F' ≤ S (length F))%nat ∧ ∃ x, x ∈ F' ∧ n ≤ snd x.
Proof.
  intros Hok Hn Hf. unfold morecore, sbrk. set (nu := if n <? 4096 then 4096 else n).
  assert (Hnu : n ≤ nu) by (unfold nu; destruct (Z.ltb_spec n 4096); lia).
  assert (Hmax : nu = Z.max 4096 n) by (unfold nu; destruct (Z.ltb_spec n 4096); lia).
  destruct (grants (h_brk h + nu)) eqn:Eg; [right|left; split; [done|by rewrite Hmax in Eg]]. apply Hgrants in Eg.
  pose proof (heap_grows F A h nu Hok ltac:(lia) Eg) as Hok'.
  destruct (free_ok base lo fuel F A [] (h_brk h) nu _ Hok' Hf) as (h' & F' & E & H1 & _ & H2 & (x & Hx & Hnx)).
  rewrite app_nil_r in H1. exists h', F'. rewrite E. split; [done|]. split; [done|]. split; [done|].
  exists x. split; [done|lia].
Qed.

(** Enough turns, and malloc returns: a block, or 0 when the kernel has no more memory. *)
Lemma malloc_loop_ok fuel F A n h :
  heap_ok F A h → 1 ≤ n → (3 * length F + 3 ≤ fuel)%nat →
  ∃ x, malloc_loop fuel n (h_freep h) (h_ptr h (h_freep h)) h = Some x ∧ 
    (allocated n A x ∨ x = (0, h) ∧ refused n h ∧ ∀ y, y ∈ F → snd y < n).
Proof.
  intros Hok Hn Hf. destruct (loop_round fuel F A n h Hok Hn) as [(x & E & Hx)|((q & E) & Hno & Hfr)]; [lia|eauto|].
  rewrite E. destruct (fuel - length F)%nat as [|g] eqn:Eg; [lia|]. cbn [Umalloc.malloc_loop].
  rewrite (proj2 (Z.leb_gt n _)), Z.eqb_refl by done.
  destruct (morecore_ok g F A n h Hok Hn) as [[-> Href]|(h' & F' & -> & Hok' & Hlen & (x & Hx & Hnx))]; [lia|cbn; eauto 6|].
  cbn [mbind option_bind fst snd].
  assert (Hfp : h_freep h' ≠ 0).
  { destruct (ho_bounds _ _ _ _ _ Hok') as [[Hb1 Hb2] _].
    pose proof (ho_freep _ _ _ _ _ Hok') as [->|(y & -> & Hy)%list_elem_of_fmap]%elem_of_cons; [lia|].
    destruct (heap_inside _ _ _ _ _ y Hok'); [set_solver|lia]. }
  rewrite (proj2 (Z.eqb_neq _ 0)) by done.
  destruct (loop_round g F' A n h' Hok' Hn) as [(y & Ey & Hy)|(_ & Hsmall & _)]; [lia|eauto|].
  specialize (Hsmall x Hx). lia.
Qed.

(** Before the first call. *)
Definition heap_start (h : uheap) : Prop := h_freep h = 0 ∧ h_brk h = lo ∧ 0 < base < lo ∧ lo < 2 ^ 32.

Definition units (nbytes : Z) : Z := (nbytes + 15) / 16 + 1.

Lemma start_ok h : heap_start h → heap_ok [] [] (set_size base 0 (set_freep base (set_ptr base base h))).
Proof.
  intros (H1 & H2 & H3 & H4). split; cbn.
  - by rewrite Z.eqb_refl.
  - by intros x ?%elem_of_nil.
  - by rewrite Z.eqb_refl.
  - done.
  - intros u. rewrite H2. destruct (Z.leb_spec lo u), (Z.ltb_spec u lo); cbn; lia.
  - lia.
  - by left.
Qed.

(** A heap of which the blocks [A] are in use. *)
Definition in_use (F A : list blk) (h : uheap) : Prop := heap_ok F A h ∨ F = [] ∧ A = [] ∧ heap_start h.

Lemma malloc_ok fuel F A nbytes h :
  in_use F A h → 0 ≤ nbytes < 2 ^ 32 → (3 * length F + 3 ≤ fuel)%nat →
  ∃ x F', malloc fuel nbytes h = Some x ∧
    (fst x ≠ 0 ∧ in_use F' ((fst x - 1, units nbytes) :: A) (snd x) ∨
     fst x = 0 ∧ in_use F' A (snd x) ∧ refused (units nbytes) h ∧ ∀ y, y ∈ F → snd y < units nbytes).
Proof.
  intros Huse Hn Hf.
  assert (Hu : u32 ((nbytes + HEADER - 1) / HEADER + 1) = units nbytes).
  { unfold u32, units, HEADER. replace (nbytes + 16 - 1) with (nbytes + 15) by lia. apply Z.mod_small.
    pose proof (Z.div_mod (nbytes + 15) 16). pose proof (Z.mod_pos_bound (nbytes + 15) 16). lia. }
  assert (Hun : 1 ≤ units nbytes) by (unfold units; pose proof (Z.div_pos (nbytes + 15) 16); lia).
  unfold Umalloc.malloc. rewrite Hu. set (h1 := if h_freep h =? 0 then _ else h).
  assert (Hok : heap_ok F A h1).
  { unfold h1. destruct Huse as [Hok|(-> & -> & Hst)].
    - enough (h_freep h ≠ 0) as Hfp by by rewrite (proj2 (Z.eqb_neq _ 0)). destruct (ho_bounds _ _ _ _ _ Hok) as [[Hb1 Hb2] _].
      pose proof (ho_freep _ _ _ _ _ Hok) as [->|(y & -> & Hy)%list_elem_of_fmap]%elem_of_cons; [lia|].
      destruct (heap_inside _ _ _ _ _ y Hok); [set_solver|lia].
    - pose proof Hst as (-> & _). by apply start_ok. }
  destruct (malloc_loop_ok fuel F A (units nbytes) h1 Hok Hun Hf) as (x & E & [(Hx & F' & Hx')|(-> & Href & Hno)]).
  - exists x, F'. split; [done|]. left. split; [done|]. by left.
  - exists (0, h1), F. split; [done|]. right. split; [done|]. split; [by left|]. split; [|done].
    unfold refused in *. replace (h_brk h) with (h_brk h1); [done|]. unfold h1. by destruct (h_freep h =? 0).
Qed.

(** ** Runs *)
Lemma free_loop_more fuel fuel' h bp p q : free_loop fuel h bp p = Some q → (fuel ≤ fuel')%nat → free_loop fuel' h bp p = Some q.
Proof.
  revert fuel' p. induction fuel as [|fuel IH]; intros fuel' p; destruct fuel' as [|fuel']; cbn [free_loop]; try lia;
    (destruct (_ && _); [done|]); (destruct (_ && _); [done|]); [done|done|]. intros E Hf. apply IH; [done|lia].
Qed.
Lemma free_more fuel fuel' a h h' : free fuel a h = Some h' → (fuel ≤ fuel')%nat → free fuel' a h = Some h'.
Proof.
  unfold free. intros (q & E & Eq)%bind_Some Hf. rewrite (free_loop_more _ _ _ _ _ _ E Hf). exact Eq.
Qed.
Lemma malloc_loop_more fuel fuel' n prevp p h x :
  malloc_loop fuel n prevp p h = Some x → (fuel ≤ fuel')%nat → malloc_loop fuel' n prevp p h = Some x.
Proof.
  revert fuel' prevp p h. induction fuel as [|fuel IH]; intros fuel' prevp p h; destruct fuel' as [|fuel']; cbn [Umalloc.malloc_loop]; try lia;
    (destruct (_ <=? _); [done|]); [done|done|]. intros E Hf. destruct (p =? h_freep h); [|apply IH; [done|lia]].
  apply bind_Some in E as (y & Em & E). assert (Em' : morecore grants fuel' n h = Some y).
  { unfold morecore in *. destruct (sbrk _ _ _) as [[hp|] h1]; [|done]. apply bind_Some in Em as (h2 & Ef & Em).
    apply Nat.succ_le_mono in Hf. by rewrite (free_more _ _ _ _ _ Ef Hf). }
  rewrite Em'. cbn. destruct (fst y =? 0); [done|]. apply IH; [done|lia].
Qed.

Lemma malloc_more fuel fuel' nbytes h x : malloc fuel nbytes h = Some x → (fuel ≤ fuel')%nat → malloc fuel' nbytes h = Some x.
Proof. apply malloc_loop_more. Qed.

(** A null pointer says that no free block has room. *)
Lemma malloc_null fuel F A nbytes h h' :
  in_use F A h → 0 ≤ nbytes < 2 ^ 32 → malloc fuel nbytes h = Some (0, h') → ∀ x, x ∈ F → snd x < units nbytes.
Proof.
  intros Huse Hn E. destruct (malloc_ok (fuel + (3 * length F + 3)) F A nbytes h Huse Hn) as (x & F' & E' & Hx); [lia|].
  rewrite (malloc_more _ (fuel + (3 * length F + 3)) _ _ _ E) in E' by lia. injection E' as <-.
  destruct Hx as [[? _]|(_ & _ & _ & Hno)]; [done|exact Hno].
Qed.

(** The blocks in use after any calls of malloc, and of free on blocks in use. *)
Inductive uses : list blk → uheap → Prop :=
| uses_start h : heap_start h → uses [] h
| uses_malloc fuel nbytes A h p h' :
    uses A h → 0 ≤ nbytes < 2 ^ 32 → malloc fuel nbytes h = Some (p, h') → p ≠ 0 → uses ((p - 1, units nbytes) :: A) h'
| uses_refused fuel nbytes A h h' :
    uses A h → 0 ≤ nbytes < 2 ^ 32 → malloc fuel nbytes h = Some (0, h') → uses A h'
| uses_free fuel A1 a s A2 h h' :
    uses (A1 ++ (a, s) :: A2) h → free fuel (a + 1) h = Some h' → uses (A1 ++ A2) h'.

Lemma uses_in_use A h : uses A h → ∃ F, in_use F A h.
Proof.
  induction 1 as [h Hst|fuel nbytes A h p h' _ (F & IH) Hn E Hp|fuel nbytes A h h' _ (F & IH) Hn E|fuel A1 a s A2 h h' _ (F & IH) E].
  - exists []. by right.
  - destruct (malloc_ok (fuel + (3 * length F + 3)) F A nbytes h IH Hn) as (x & F' & E' & Hx); [lia|].
    rewrite (malloc_more _ (fuel + (3 * length F + 3)) _ _ _ E) in E' by lia. injection E' as <-. cbn [fst snd] in Hx.
    destruct Hx as [[_ ?]|[? _]]; [by exists F'|done].
  - destruct (malloc_ok (fuel + (3 * length F + 3)) F A nbytes h IH Hn) as (x & F' & E' & Hx); [lia|].
    rewrite (malloc_more _ (fuel + (3 * length F + 3)) _ _ _ E) in E' by lia. injection E' as <-. cbn [fst snd] in Hx.
    destruct Hx as [[? _]|(_ & ? & _)]; [done|by exists F'].
  - destruct IH as [Hok|(_ & HA & _)]; [|by destruct A1].
    destruct (free_ok base lo (fuel + (2 * length F + 1)) F A1 A2 a s h Hok) as (h'' & F' & E' & Hok' & _); [lia|].
    rewrite (free_more _ (fuel + (2 * length F + 1)) _ _ _ E) in E' by lia. injection E' as <-. exists F'. by left.
Qed.

(** C6: the blocks that malloc hands out do not overlap, and it fails only when it must.  After
    any calls of malloc and free, in any order, each free of a block in use: every call of
    malloc returns, given enough turns of its loop.  It returns a null pointer only when no
    free block has room and the kernel refuses to extend this heap by the block that is
    needed, or by 4096 units if that is more.  Otherwise it returns a block; the block has a header and room for the bytes
    asked for; it lies in the heap; and it has no unit in common with any other block in use. *)
Theorem malloc_disjoint A h nbytes :
  uses A h → 0 ≤ nbytes < 2 ^ 32 →
  ∃ fuel p h', malloc fuel nbytes h = Some (p, h') ∧
    (p = 0 → grants (h_brk h + Z.max 4096 (units nbytes)) = false ∧
       ∀ F, in_use F A h → ∀ x, x ∈ F → snd x < units nbytes) ∧
    (p ≠ 0 → nbytes ≤ HEADER * (units nbytes - 1) ∧ lo ≤ p - 1 ∧ p - 1 + units nbytes ≤ h_brk h' ∧
       ∀ x, x ∈ A → fst x + snd x ≤ p - 1 ∨ p - 1 + units nbytes ≤ fst x).
Proof.
  intros Hu Hn. destruct (uses_in_use A h Hu) as (F & Huse).
  destruct (malloc_ok (3 * length F + 3) F A nbytes h Huse Hn) as ([p h'] & F' & E & Hx); [lia|].
  exists (3 * length F + 3)%nat, p, h'. split; [done|]. cbn [fst snd] in Hx. split.
  - intros ->. destruct Hx as [[? _]|(_ & _ & Href & _)]; [done|]. split; [exact Href|]. intros F2 Huse2.
    by apply (malloc_null (3 * length F + 3) F2 A nbytes h h').
  - intros Hp. destruct Hx as [[_ [Hok|(_ & HA & _)]]|(-> & _)]; [|done|done].
    split; [unfold units, HEADER; pose proof (Z.div_mod (nbytes + 15) 16); pose proof (Z.mod_pos_bound (nbytes + 15) 16); lia|].
    destruct (heap_inside _ _ _ _ _ (p - 1, units nbytes) Hok) as [H1 H2]; [set_solver|]. cbn [fst snd] in H1, H2.
    split; [done|]. split; [done|]. intros x HxA.
    destruct (heap_distinct _ _ _ _ _ F' (p - 1, units nbytes) A x Hok eq_refl) as [H|H]; [set_solver|by left|by right].
Qed.
End runs.

(** A program asks for 10 bytes, and then for 20. *)
Definition fresh_heap : uheap := UHeap (λ _, 0) (λ _, 0) 0 4096.
Definition some_memory (b : Z) : bool := b <? 2 ^ 30.
Lemma some_memory_small b : some_memory b = true → b < 2 ^ 32.
Proof. unfold some_memory. rewrite Z.ltb_lt. lia. Qed.

Lemma one_block_uses : uses 256 4096 some_memory [(8190, 2)] (match malloc 256 some_memory 9 10 fresh_heap with Some (_, h) => h | None => fresh_heap end).
Proof.
  apply (uses_malloc 256 4096 some_memory 9 10 [] fresh_heap 8191); [|lia| |lia].
  - apply uses_start. split; [done|]. split; [done|lia].
  - vm_compute. reflexivity.
Qed.

Lemma malloc_disjoint_witness :
  ∃ fuel p h', malloc 256 some_memory fuel 20 (match malloc 256 some_memory 9 10 fresh_heap with Some (_, h) => h | None => fresh_heap end) = Some (p, h') ∧
    (8190 + 2 ≤ p - 1 ∨ p - 1 + 3 ≤ 8190).
Proof.
  destruct (malloc_disjoint 256 4096 some_memory some_memory_small _ _ 20 one_block_uses ltac:(lia)) as (fuel & p & h' & E & H0 & H).
  exists fuel, p, h'. split; [exact E|]. destruct (H ltac:(intros Hp; destruct (H0 Hp) as [Hg _]; vm_compute in Hg; done)) as (_ & _ & _ & Hd).
  apply (Hd (8190, 2)). by left.
Defined.
