(* ===== verification/PyText.v ===== *)
(** * Python's strings and dictionaries, as debugger.py uses them

    A str is the list of its code points.  The methods and the two regular expressions that
    the debugger uses, and the values that json.loads gives. *)

From S2P Require Import Prelude.

Abbreviation text := (list Z).

(** ** Literals *)

(** The code points of a literal, which is written here in UTF-8. *)
Fixpoint utf8_decode (l : list Z) : text :=
  match l with
  | [] => []
  | a :: l1 =>
      if a <? 128 then a :: utf8_decode l1 else
      match l1 with
      | [] => []
      | b :: l2 =>
          if a <? 224 then Z.land a 31 * 64 + Z.land b 63 :: utf8_decode l2 else
          match l2 with
          | [] => []
          | c :: l3 =>
              if a <? 240 then (Z.land a 15 * 64 + Z.land b 63) * 64 + Z.land c 63 :: utf8_decode l3 else
              match l3 with
              | [] => []
              | d :: l4 => ((Z.land a 7 * 64 + Z.land b 63) * 64 + Z.land c 63) * 64 + Z.land d 63 :: utf8_decode l4
              end
          end
      end
  end.
Definition utf8 (s : string) : text := utf8_decode (str s).

(** Lines, each with its newline. *)
Definition lines (l : list string) : text := concat ((λ s, utf8 s ++ [10]) <$> l).

(** ** Methods of str *)

(** str.isspace, of one character. *)
Definition isspace (c : Z) : bool :=
  (9 <=? c) && (c <=? 13) || (28 <=? c) && (c <=? 32) || (c =? 133) || (c =? 160) || (c =? 5760) ||
  (8192 <=? c) && (c <=? 8202) || (c =? 8232) || (c =? 8233) || (c =? 8239) || (c =? 8287) || (c =? 12288).

Fixpoint lstrip (t : text) : text :=
  match t with
  | [] => []
  | c :: t' => if isspace c then lstrip t' else t
  end.
Definition strip (t : text) : text := reverse (lstrip (reverse (lstrip t))).

Fixpoint startswith (p t : text) : bool :=
  match p, t with
  | [], _ => true
  | a :: p, b :: t => (a =? b) && startswith p t
  | _ :: _, [] => false
  end.

(** [p in t] *)
Fixpoint contains (p t : text) : bool :=
  startswith p t || match t with [] => false | _ :: t => contains p t end.

(** t.split('\n') *)
Fixpoint split_lines (t : text) : list text :=
  match t with
  | [] => [[]]
  | c :: t =>
      if c =? 10 then [] :: split_lines t
      else match split_lines t with
           | [] => [[c]]
           | l :: ls => (c :: l) :: ls
           end
  end.

(** '\n'.join *)
Fixpoint join_lines (ls : list text) : text :=
  match ls with
  | [] => []
  | [l] => l
  | l :: ls => l ++ 10 :: join_lines ls
  end.

(** t.replace(p, ''), for a [p] that is not empty; [skip] characters of an occurrence are still to go. *)
Fixpoint remove_from (p : text) (skip : nat) (t : text) : text :=
  match t with
  | [] => []
  | c :: t' =>
      match skip with
      | S skip => remove_from p skip t'
      | O => if startswith p t then remove_from p (length p - 1) t' else c :: remove_from p 0 t'
      end
  end.
Definition remove (p t : text) : text := remove_from p 0 t.

(** The format {name:20}. *)
Definition ljust (n : nat) (t : text) : text := t ++ replicate (n - length t) 32.

(** ** Regular expressions *)
Fixpoint take_while (f : Z → bool) (t : text) : text :=
  match t with
  | [] => []
  | c :: t => if f c then c :: take_while f t else []
  end.
Fixpoint drop_while (f : Z → bool) (t : text) : text :=
  match t with
  | [] => []
  | c :: t' => if f c then drop_while f t' else t
  end.

Definition digit (c : Z) : bool := (48 <=? c) && (c <=? 57).
Definition lower_hex (c : Z) : bool := digit c || (97 <=? c) && (c <=? 102).

(** [0-9a-fA-Fx] *)
Definition rip_char (c : Z) : bool := lower_hex c || (65 <=? c) && (c <=? 70) || (c =? 120).

(** The group of a match of RIP:\s+([0-9a-fA-Fx]+) at the start of the text. *)
Definition match_rip (t : text) : option text :=
  if startswith (str "RIP:") t then
    let t := drop 4 t in
    match take_while isspace t with
    | [] => None
    | _ => match take_while rip_char (drop_while isspace t) with [] => None | g => Some g end
    end
  else None.

(** The group of a match of saved rip = (0x[0-9a-f]+) there. *)
Definition match_saved_rip (t : text) : option text :=
  if startswith (str "saved rip = 0x") t then
    match take_while lower_hex (drop 14 t) with [] => None | g => Some (str "0x" ++ g) end
  else None.

(** re.search, for the group of the first match. *)
Fixpoint re_search (m : text → option text) (t : text) : option text :=
  match m t with
  | Some g => Some g
  | None => match t with [] => None | _ :: t => re_search m t end
  end.

(** ** JSON *)
Inductive json :=
| JNull
| JBool (b : bool)
| JNum (n : text)
| JStr (s : text)
| JList (l : list json)
| JDict (d : list (text * json)).

Fixpoint dict_get (k : text) (d : list (text * json)) : option json :=
  match d with
  | [] => None
  | (k', v) :: d => if bool_decide (k = k') then Some v else dict_get k d
  end.

(** ['error' in j]; Python raises TypeError for a value without elements. *)
Definition key_in (k : text) (j : json) : option bool :=
  match j with
  | JDict d => Some match dict_get k d with Some _ => true | None => false end
  | JList l => Some (existsb (λ x, match x with JStr s => bool_decide (s = k) | _ => false end) l)
  | JStr s => Some (contains k s)
  | _ => None
  end.
