(* ===== verification/Debugger.v ===== *)
(** * The debugger: debugger.py

    The program drives gdb and QEMU through pexpect, reads the console of the machine and
    asks a service for an analysis.  What it does is a tree of actions: each action has
    an answer or raises an exception, and the rest of the program depends on it. *)

From stdpp Require Import pretty.
From S2P Require Import Prelude PyText.

(** ** Actions *)
Inductive child := Gdb | Qemu.

(** The patterns of expect; gdb's prompt and the like for expect_exact. *)
Inductive pattern := Re (p : text) | Exact (p : text) | P_EOF | P_TIMEOUT.

(** Times are in milliseconds; [None] is pexpect's default or no limit. *)
Inductive action :=
| Puts (t : text)                                     (* print *)
| Sleep_ms (ms : Z)                                   (* time.sleep *)
| Subprocess (argv : list text)                       (* subprocess.run *)
| Choice (l : list text)                              (* random.choice *)
| Open_log (name : text) | Close_log                  (* the log of QEMU's output *)
| Spawn (c : child) (cmd : text) (timeout : option Z)
| Send (c : child) (t : text) | Sendline (c : child) (t : text)
| Expect (c : child) (ps : list pattern) (timeout : option Z)
| Before (c : child) | After (c : child)              (* the attributes after the last expect *)
| Isalive (c : child) | Close (c : child) (force : bool)
| Post (url : text) (payload : json) (timeout : Z)    (* requests.post, with the header for JSON *)
| Write_file (name : text) (t : text)                 (* open(name, 'w') and write *)
| Traceback.                                          (* traceback.print_exc *)

(** What an action returns; Expect the number of the pattern, Subprocess the return code
    and stderr, Post the status and the text of the response. *)
Definition answer (a : action) : Type :=
  match a with
  | Subprocess _ => Z * text
  | Choice _ => text
  | Expect _ _ _ => nat
  | Before _ | After _ => text
  | Isalive _ => bool
  | Post _ _ _ => Z * text
  | _ => unit
  end.

(** Exceptions, with their text: the two of pexpect, the other subclasses of Exception, and
    those like KeyboardInterrupt that [except Exception] lets pass. *)
Inductive kind := EOF | TIMEOUT | Exception | Interrupt.
Record exn := Exn { e_kind : kind; e_text : text }.

#[global] Instance child_eq_dec : EqDecision child.
Proof. solve_decision. Defined.
#[global] Instance kind_eq_dec : EqDecision kind.
Proof. solve_decision. Defined.

(** ** Programs *)
Inductive py (A : Type) :=
| Ret (a : A)
| Raise (e : exn)
| Act (a : action) (k : exn + answer a → py A).
Arguments Ret {A} a.
Arguments Raise {A} e.
Arguments Act {A} a k.

Fixpoint py_bind {A B} (f : A → py B) (m : py A) : py B :=
  match m with
  | Ret a => f a
  | Raise e => Raise e
  | Act a k => Act a (λ r, py_bind f (k r))
  end.
#[global] Instance py_mbind : MBind py := λ A B, py_bind.

Definition act (a : action) : py (answer a) :=
  Act a (λ r, match r with inl e => Raise e | inr x => Ret x end).

(** The outcome of a program, exceptions included. *)
Fixpoint catch {A} (m : py A) : py (exn + A) :=
  match m with
  | Ret a => Ret (inr a)
  | Raise e => Ret (inl e)
  | Act a k => Act a (λ r, catch (k r))
  end.
Definition reraise {A} (r : exn + A) : py A := match r with inl e => Raise e | inr a => Ret a end.

(** try: m  except Exception as e: h e *)
Definition try_except {A} (m : py A) (h : exn → py A) : py A :=
  r ← catch m;
  match r with
  | inl e => if bool_decide (e_kind e = Interrupt) then Raise e else h e
  | inr a => Ret a
  end.

(** try: m  except: h *)
Definition try_any (m h : py unit) : py unit :=
  r ← catch m; match r with inl _ => h | inr a => Ret a end.

(** try: m  finally: f *)
Definition try_finally {A} (m : py A) (f : py unit) : py A :=
  r ← catch m; _ ← f; reraise r.

Local Notation "m >> k" := (mbind (λ _, k) m) (at level 60, right associativity).
Local Abbreviation puts t := (act (Puts t)).

Definition raise_text {A} (t : text) : py A := Raise (Exn Exception t).

(** ** Configuration *)
Definition GDB_PORT : text := utf8 "26000".
Definition GDB_COMMAND : text := utf8 "x86_64-elf-gdb".
Definition API_URL_BASE : text :=
  utf8 "https://generativelanguage.googleapis.com/v1beta/models/gemini-2.5-flash:generateContent".

(** A test program: its description and the trap it is to cause. *)
Record test := Test { t_name : text; description : text; expected_trap : text }.

Definition KERNEL_TESTS : list test :=
  [Test (utf8 "trap_test") (utf8 "NULL pointer dereference in kernel space") (utf8 "Page Fault (vector 14)")].
Definition USER_TESTS : list test :=
  [Test (utf8 "user_crash") (utf8 "Division by zero") (utf8 "Divide Error (trap 0)");
   Test (utf8 "null_deref") (utf8 "NULL pointer dereference") (utf8 "Page Fault (trap 14)");
   Test (utf8 "invalid_pointer") (utf8 "Invalid memory address access") (utf8 "Page Fault (trap 14)");
   Test (utf8 "invalid_instruction") (utf8 "Invalid/undefined instruction") (utf8 "Invalid Opcode (trap 6)")].

Fixpoint find_test (name : text) (l : list test) : option test :=
  match l with
  | [] => None
  | t :: l => if bool_decide (t_name t = name) then Some t else find_test name l
  end.

(** TESTS[name][...] *)
Definition test_field (f : test → text) (l : list test) (name : text) : py text :=
  match find_test name l with
  | Some t => Ret (f t)
  | None => raise_text (utf8 "'" ++ name ++ utf8 "'")
  end.

(** ** The request *)

(** A schema with string properties. *)
Definition schema (properties : list (string * string)) (required : list string) : json :=
  JDict
    [(utf8 "type", JStr (utf8 "OBJECT"));
     (utf8 "properties", JDict ((λ p, (utf8 (fst p), JDict
        [(utf8 "type", JStr (utf8 "STRING")); (utf8 "description", JStr (utf8 (snd p)))])) <$> properties));
     (utf8 "required", JList ((λ s, JStr (utf8 s)) <$> required))].

Inductive mode := Kernel | User.

Definition kernel_context : text :=
  utf8 "You are an expert operating systems debugger, specializing in xv6 and C/Assembly. " ++
  utf8 "Analyze the provided kernel state (GDB Backtrace and Register Dump) that resulted " ++
  utf8 "from a page fault (vector 14). Determine the root cause (e.g., NULL pointer " ++
  utf8 "dereference, stack overflow, bad memory access). " ++
  utf8 "Provide your analysis, suggested fix, and an estimate of the severity.".

Definition kernel_prompt (debug_data : text) : text :=
  lines ["Analyze the following xv6 KERNEL PANIC state caused by a Trap (Page Fault). The breakpoint hit was at vectors.S:56 (the trap handler entry).";
     "";
     "You have been provided with:";
     "1. The backtrace showing the call stack";
     "2. CPU register dump (including CR2 which shows the faulting address)";
     "3. The saved return address showing WHERE the bad call came from";
     "4. Source code at the calling site";
     "5. Disassembly showing the exact instruction that made the bad call";
     "";
     "Based on this information:";
     "1. Identify the EXACT function and line of code that caused the fault";
     "2. Explain WHY this specific code caused the crash";
     "3. Provide a SPECIFIC patch with the exact file name and line number";
     "4. The patch should be in unified diff format if possible";
     "";
     "--- Captured Debug Data ---"] ++
   debug_data.

Definition kernel_schema : json :=
  schema
    [("rootCause", "The specific technical reason for the fault.");
     ("faultyFunction", "The exact function name and file that contains the bug.");
     ("faultyLine", "The specific line number or code snippet that caused the fault.");
     ("severity", "High, Medium, or Low.");
     ("analysisSummary", "A concise explanation of how the captured state points to the root cause.");
     ("suggestedFixPatch", "A unified diff format patch or specific code changes with file names and line numbers.")]
    ["rootCause"; "faultyFunction"; "faultyLine"; "severity"; "analysisSummary"; "suggestedFixPatch"].

Definition user_context : text :=
  utf8 "You are an expert operating systems debugger for xv6. " ++
  utf8 "Analyze the provided User-Space Crash Report captured from the console. " ++
  utf8 "Explain why the user program crashed based on the Trap number and registers.".

Definition user_prompt (debug_data : text) : text :=
  lines ["Analyze the following xv6 USER PROCESS CRASH.";
     "The kernel trapped a faulting user program and dumped this state.";
     "";
     "You have been provided with:";
     "1. The crash report from the kernel showing registers and trap number";
     "2. Source code at the faulting instruction pointer (RIP)";
     "3. Disassembly showing the exact instruction that faulted";
     "4. Symbol information";
     "";
     "Based on this information:";
     "1. Explain the Trap number (common traps: 0=Divide Error, 6=Invalid Opcode, 13=General Protection, 14=Page Fault).";
     "2. Identify the EXACT line of C code that caused the crash.";
     "3. Explain what likely happened in the user's C code.";
     "4. Provide a ROBUST fix in UNIFIED DIFF FORMAT that handles the error condition properly.";
     "";
     "IMPORTANT FIX GUIDELINES:";
     "- For division by zero: Add a check BEFORE the division to test if divisor is zero";
     "- For NULL pointer: Add a NULL check before dereferencing";
     "- For buffer overflow: Add bounds checking";
     "- DO NOT simply change test values (e.g., don't just change 'y=0' to 'y=1')";
     "- The fix should be production-quality defensive programming";
     "- Include error messages to help users understand what went wrong";
     "";
     "Unified diff format:";
     "--- a/filename.c";
     "+++ b/filename.c";
     "@@ -line,count +line,count @@";
     " context line";
     "-old line to remove";
     "+new line to add";
     " context line";
     "";
     "--- Crash Report ---"] ++
   debug_data.

Definition user_schema : json :=
  schema
    [("rootCause", "Technical reason for crash");
     ("trapType", "Explanation of the trap number");
     ("faultyProgram", "Program name that crashed");
     ("faultyLine", "Exact line of code that caused the crash");
     ("explanation", "Clear explanation of the bug");
     ("severity", "High/Medium/Low");
     ("suggestedFix", "Code fix with file and line number")]
    ["rootCause"; "trapType"; "faultyLine"; "explanation"; "suggestedFix"].

Definition payload (m : mode) (debug_data : text) : json :=
  let '(system_context, user_prompt, schema) :=
    match m with
    | Kernel => (kernel_context, kernel_prompt debug_data, kernel_schema)
    | User => (user_context, user_prompt debug_data, user_schema)
    end in
  let parts t := JDict [(utf8 "parts", JList [JDict [(utf8 "text", JStr t)]])] in
  JDict
    [(utf8 "contents", JList [parts user_prompt]);
     (utf8 "systemInstruction", parts system_context);
     (utf8 "generationConfig", JDict
        [(utf8 "responseMimeType", JStr (utf8 "application/json")); (utf8 "responseSchema", schema)])].

Definition mode_name (m : mode) : text := match m with Kernel => utf8 "kernel" | User => utf8 "user" end.

(** The digits of a number in an f-string. *)
Definition show (z : Z) : text := str (pretty z).

(** t[:n] + '...' if len(t) > n else t *)
Definition abbreviated (n : nat) (t : text) : text :=
  if (n <? length t)%nat then take n t ++ utf8 "..." else t.

Definition rule : text := replicate 80 61.          (* '='*80 *)

Section debugger.
Variable API_KEY : text.
(** json.loads, str of a value that is not a string, and the texts of Python's own exceptions. *)
Variable json_loads : text → option json.
Variable repr : json → text.
Variables decode_error : text → text.
Variables type_error : json → text.

Definition py_str (j : json) : text := match j with JStr s => s | _ => repr j end.

(** j[key], j[i] and j.get(key, ...) *)
Definition item (j : json) (k : string) : py json :=
  match j with
  | JDict d =>
      match dict_get (utf8 k) d with
      | Some v => Ret v
      | None => raise_text (utf8 "'" ++ utf8 k ++ utf8 "'")
      end
  | _ => raise_text (type_error j)
  end.
Definition elem (j : json) (i : nat) : py json :=
  match j with
  | JList l =>
      match l !! i with
      | Some v => Ret v
      | None => raise_text (utf8 "list index out of range")
      end
  | JDict _ => raise_text (show (Z.of_nat i))
  | JStr s =>
      match s !! i with
      | Some c => Ret (JStr [c])
      | None => raise_text (utf8 "string index out of range")
      end
  | _ => raise_text (type_error j)
  end.
Definition get_or (j : json) (k : string) (dflt : text) : py text :=
  match j with
  | JDict d => Ret match dict_get (utf8 k) d with Some v => py_str v | None => dflt end
  | _ => raise_text (type_error j)
  end.
Definition has_key (j : json) (k : string) : py bool :=
  match key_in (utf8 k) j with
  | Some b => Ret b
  | None => raise_text (type_error j)
  end.

(** json.loads of a value that must be a string. *)
Definition loads (j : json) : py json :=
  match j with
  | JStr s => match json_loads s with Some v => Ret v | None => raise_text (decode_error s) end
  | _ => raise_text (type_error j)
  end.

(** The analysis in the text of a response. *)
Definition analysis_of (txt : text) : py json :=
  result ← loads (JStr txt);
  candidates ← item result "candidates";
  c ← elem candidates 0;
  content ← item c "content";
  parts ← item content "parts";
  p ← elem parts 0;
  json_text ← item p "text";
  loads json_text.

Definition max_retries : nat := 5.

(** The except clause of the loop. *)
Definition failed_attempt (attempt : nat) (e : exn) : py (option json) :=
  puts (utf8 "Attempt " ++ show (Z.of_nat attempt + 1) ++ utf8 " failed: " ++ e_text e) >>
  if (attempt <? max_retries - 1)%nat then act (Sleep_ms (1000 * 2 ^ Z.of_nat attempt)) >> Ret None
  else Ret (Some (JDict [(utf8 "error", JStr
         (utf8 "Failed to get analysis after " ++ show (Z.of_nat max_retries) ++ utf8 " attempts: " ++ e_text e))])).

(** One turn of the loop: the analysis to return, or on to the next turn. *)
Definition try_once (pl : json) (attempt : nat) : py (option json) :=
  try_except
    (r ← act (Post (API_URL_BASE ++ utf8 "?key=" ++ API_KEY) pl 30000);
     let '(status, txt) := (r : Z * text) in
     if negb (status =? 200) then
       puts (utf8 "API returned status " ++ show status) >>
       puts (utf8 "Response body: " ++ take 500 txt) >>
       act (Sleep_ms (1000 * 2 ^ Z.of_nat attempt)) >>
       Ret None
     else
       parsed_analysis ← analysis_of txt;
       Ret (Some parsed_analysis))
    (failed_attempt attempt).

Fixpoint try_all (pl : json) (k attempt : nat) : py json :=
  match k with
  | O => Ret (JDict [(utf8 "error", JStr (utf8 "Exhausted all API retries."))])
  | S k =>
      r ← try_once pl attempt;
      match r with
      | Some a => Ret a
      | None => try_all pl k (S attempt)
      end
  end.

Definition get_gemini_analysis (debug_data : text) (m : mode) : py json :=
  puts ([10] ++ utf8 "--- Sending " ++ mode_name m ++ utf8 "-space crash data to Gemini for analysis... ---") >>
  try_all (payload m debug_data) max_retries 0.

(** ** Talking to gdb *)
Definition prompt : text := utf8 "(gdb)".

(** A line to gdb, and gdb's prompt within the time. *)
Definition gdb_command (t : text) (timeout : option Z) : py unit :=
  act (Sendline Gdb t) >> act (Expect Gdb [Exact prompt] timeout) >> Ret tt.

(** The same, for the answer before the prompt. *)
Definition gdb_ask (t : text) : py text :=
  gdb_command t (Some 5000) >> (b ← act (Before Gdb); Ret (strip b)).

(** The answer without empty lines and the command itself. *)
Definition captured_lines (cmd b : text) : text :=
  strip (join_lines (filter (λ l, strip l ≠ [] ∧ strip l ≠ cmd) (split_lines b))).

(** Backtrace and registers; without a prompt the capture fails. *)
Definition capture (cmd failed : text) : py text :=
  act (Sendline Gdb cmd) >>
  (index ← act (Expect Gdb [Exact prompt; P_EOF; P_TIMEOUT] (Some 10000));
   if (index =? 0)%nat then b ← act (Before Gdb); Ret (captured_lines cmd b)
   else raise_text failed).

(** The shell of the machine is ready, and gets a line. *)
Definition wait_for_shell : py unit :=
  puts (utf8 "--- Booting kernel and waiting for shell prompt ---") >>
  act (Sendline Gdb (utf8 "c")) >>
  act (Expect Gdb [Exact (utf8 "Continuing.")] None) >>
  act (Expect Qemu [Re (utf8 "\$ ")] (Some 60000)) >>
  puts (utf8 "XV6 shell is ready.") >>
  act (Sleep_ms 500) >>
  Ret tt.

(** ** Patches *)

(** The text of a patch without the fences around it; other values have no replace. *)
Definition clean_patch (j : json) : py text :=
  match j with
  | JStr s => Ret (strip (remove (utf8 "```") (remove (utf8 "```diff") s)))
  | _ => raise_text (type_error j)
  end.

Definition save_patch (name patch test_program : text) : py unit :=
  act (Write_file name patch) >>
  puts ([10] ++ utf8 "✓ Patch saved to: " ++ name) >>
  puts ([10] ++ rule) >>
  puts (utf8 "APPLY THE FIX") >>
  puts rule >>
  puts (utf8 "To apply this patch and rebuild:") >>
  puts (utf8 "  patch -p1 < " ++ name) >>
  puts (utf8 "  make") >>
  puts ([10] ++ utf8 "Then test the fix:") >>
  puts (utf8 "  make qemu-nox") >>
  puts (utf8 "  $ " ++ test_program).

(** print(f'...{j[key]}') *)
Definition puts_item (label : text) (j : json) (k : string) : py unit :=
  v ← item j k; puts (label ++ py_str v).

(** ** Kernel panics *)
Definition kernel_report (bt regs frame symbol source disassembly : text) : text :=
  lines ["BACKTRACE:"] ++ bt ++
  lines [""; ""; "REGISTERS:"] ++ regs ++
  lines [""; ""; "SAVED RETURN ADDRESS INFO:"] ++ frame ++
  lines [""; ""; "CALLING FUNCTION:"] ++ symbol ++
  lines [""; ""; "SOURCE CODE AT CALLING SITE:"] ++ source ++
  lines [""; ""; "DISASSEMBLY OF CALLING FUNCTION:"] ++ disassembly ++
  [10].

(** The source around the call: symbol, source and disassembly. *)
Definition calling_site (frame_info : text) : py (text * text * text) :=
  match re_search match_saved_rip frame_info with
  | Some saved_rip =>
      puts (utf8 "Found calling address: " ++ saved_rip) >>
      (caller_symbol ← gdb_ask (utf8 "info symbol " ++ saved_rip);
       source_context ← gdb_ask (utf8 "list *" ++ saved_rip);
       caller_disassembly ← gdb_ask (utf8 "disassemble " ++ saved_rip);
       Ret (caller_symbol, source_context, caller_disassembly))
  | None => Ret (utf8 "Unknown", utf8 "Could not extract saved RIP", utf8 "N/A")
  end.

Definition print_kernel_analysis (analysis : json) (test_program : text) : py unit :=
  puts ([10] ++ rule) >>
  puts (utf8 "🤖 AI-ASSISTED ROOT CAUSE ANALYSIS (KERNEL)") >>
  puts rule >>
  (failed ← has_key analysis "error";
   if (failed : bool) then
     puts_item (utf8 "❌ Analysis failed: ") analysis "error" >>
     puts ([10] ++ utf8 "Ensure your API Key is valid and the model is accessible.")
   else
     puts_item (utf8 "Root Cause: ") analysis "rootCause" >>
     puts_item (utf8 "Faulty Function: ") analysis "faultyFunction" >>
     puts_item (utf8 "Faulty Line: ") analysis "faultyLine" >>
     puts_item (utf8 "Severity: ") analysis "severity" >>
     puts ([10] ++ utf8 "Analysis Summary:") >>
     puts_item [] analysis "analysisSummary" >>
     puts ([10] ++ utf8 "Suggested Fix/Patch:") >>
     puts_item [] analysis "suggestedFixPatch" >>
     (fix_ ← item analysis "suggestedFixPatch";
      patch_content ← clean_patch fix_;
      save_patch (utf8 "suggested_fix.patch") patch_content test_program)).

Definition run_kernel_debugger (test_program : text) : py unit :=
  puts ([10] ++ utf8 "--- Running in KERNEL PANIC MODE ---") >>
  puts (utf8 "Test Program: " ++ test_program) >>
  (d ← test_field description KERNEL_TESTS test_program; puts (utf8 "Description: " ++ d)) >>
  puts (utf8 "Setting breakpoint at vectors.S:56 (Page Fault Handler)...") >>
  gdb_command (utf8 "break vectors.S:56") (Some 10000) >>
  puts (utf8 "Breakpoint set.") >>
  wait_for_shell >>
  puts (utf8 "--- Running " ++ test_program ++ utf8 " to trigger kernel panic ---") >>
  act (Sendline Qemu test_program) >>
  act (Sleep_ms 500) >>
  (index ← act (Expect Gdb [Re (utf8 "Breakpoint 1.*vector14.*vectors\.S:56"); Re (utf8 "Thread \d+ hit Breakpoint 1"); P_TIMEOUT] (Some 20000));
   if (index =? 2)%nat then
     puts (utf8 "⚠️ Breakpoint was not hit within timeout.") >>
     (b ← act (Before Gdb); puts (utf8 "GDB output: " ++ b)) >>
     raise_text (test_program ++ utf8 " did not trigger expected page fault")
   else Ret tt) >>
  puts (utf8 "✅ GDB HIT BREAKPOINT at vectors.S:56!") >>
  puts (utf8 "Waiting for GDB prompt after breakpoint...") >>
  act (Expect Gdb [Exact prompt] (Some 10000)) >>
  puts (utf8 "GDB is now at prompt after breakpoint.") >>
  puts (utf8 "Capturing backtrace...") >>
  (backtrace_text ← capture (utf8 "bt") (utf8 "Failed to capture backtrace");
   puts (utf8 "✓ Backtrace captured (" ++ show (Z.of_nat (length backtrace_text)) ++ utf8 " chars)") >>
   puts (utf8 "Capturing registers...") >>
   (registers_text ← capture (utf8 "info registers") (utf8 "Failed to capture registers");
    puts (utf8 "✓ Registers captured (" ++ show (Z.of_nat (length registers_text)) ++ utf8 " chars)") >>
    puts (utf8 "Capturing source code context...") >>
    (frame_info ← gdb_ask (utf8 "info frame 1");
     site ← calling_site frame_info;
     let '(caller_symbol, source_context, caller_disassembly) := site in
     gdb_command (utf8 "frame 0") (Some 5000) >>
     puts (utf8 "✓ Source context captured - Caller: " ++ caller_symbol) >>
     let debug_data :=
       kernel_report backtrace_text registers_text frame_info caller_symbol source_context caller_disassembly in
     puts ([10] ++ utf8 "--- Captured Debug Data ---") >>
     puts (abbreviated 500 debug_data) >>
     (analysis ← get_gemini_analysis debug_data Kernel;
      print_kernel_analysis analysis test_program)))).

(** ** User crashes *)
Definition report_start : text := utf8 "=== XV6 USER CRASH REPORT ===".
Definition report_end : text := utf8 "=== END REPORT ===".

(** The address of the report, as gdb reads it. *)
Definition report_address (crash_report : text) : option text :=
  rip_addr ← re_search match_rip crash_report;
  Some (if startswith (utf8 "0x") rip_addr then rip_addr else utf8 "0x" ++ rip_addr).

(** The questions that gdb asks about a new program: [k] are left. *)
Fixpoint confirm_prompts (k : nat) (i : Z) : py unit :=
  match k with
  | O => Ret tt
  | S k =>
      index ← act (Expect Gdb [Re (utf8 "Are you sure you want to change the file"); Re (utf8 "Load new symbol table from");
                               Re (utf8 "\(gdb\)"); P_TIMEOUT] (Some 3000));
      if (index =? 0)%nat || (index =? 1)%nat then
        puts (utf8 "  Confirming prompt " ++ show (i + 1) ++ utf8 "...") >>
        act (Sendline Gdb (utf8 "y")) >>
        confirm_prompts k (i + 1)
      else if (index =? 2)%nat then Ret tt
      else if (index =? 3)%nat then puts (utf8 "  Warning: Timeout on prompt " ++ show (i + 1) ++ utf8 ", continuing...")
      else confirm_prompts k (i + 1)
  end.

Definition enhanced_report (crash_report rip_addr source symbol disassembly : text) : text :=
  crash_report ++
  lines [""; ""] ++ utf8 "SOURCE CODE AT FAULT (RIP: " ++ rip_addr ++ lines ["):"] ++ source ++
  lines [""; ""; "FUNCTION SYMBOL:"] ++ symbol ++
  lines [""; ""; "DISASSEMBLY:"] ++ disassembly ++
  [10].

(** The analysis of a report, with the source at the address when there is one. *)
Definition analyse_report (crash_report test_program : text) : py json :=
  match report_address crash_report with
  | Some rip_addr =>
      puts ([10] ++ utf8 "--- Analyzing user program at RIP: " ++ rip_addr ++ utf8 " ---") >>
      act (Sleep_ms 500) >>
      act (Send Gdb [3]) >>
      try_any (act (Expect Gdb [Exact prompt] (Some 3000)) >> Ret tt) (Ret tt) >>
      puts (utf8 "Loading user program symbols: _" ++ test_program ++ utf8 "...") >>
      act (Sendline Gdb (utf8 "file _" ++ test_program)) >>
      confirm_prompts 2 0 >>
      try_any (act (Expect Gdb [Exact prompt] (Some 2000)) >> Ret tt) (Ret tt) >>
      puts (utf8 "User program symbols loaded.") >>
      puts (utf8 "Extracting source code at address " ++ rip_addr ++ utf8 "...") >>
      (source_at_fault ← gdb_ask (utf8 "list *" ++ rip_addr);
       puts (utf8 "Disassembling around " ++ rip_addr ++ utf8 "...") >>
       (disassembly ← gdb_ask (utf8 "disassemble " ++ rip_addr);
        symbol_info ← gdb_ask (utf8 "info symbol " ++ rip_addr);
        let report := enhanced_report crash_report rip_addr source_at_fault symbol_info disassembly in
        puts ([10] ++ utf8 "--- Enhanced Debug Data ---") >>
        puts (abbreviated 1000 report) >>
        get_gemini_analysis report User))
  | None =>
      puts (utf8 "⚠️ Could not extract RIP from crash report, using basic analysis") >>
      get_gemini_analysis crash_report User
  end.

Definition print_user_analysis (analysis : json) (test_program : text) : py unit :=
  puts ([10] ++ rule) >>
  puts (utf8 "🤖 AI-ASSISTED ROOT CAUSE ANALYSIS (USER-SPACE)") >>
  puts rule >>
  (failed ← has_key analysis "error";
   if (failed : bool) then puts_item (utf8 "❌ Analysis failed: ") analysis "error"
   else
     puts_item (utf8 "Root Cause: ") analysis "rootCause" >>
     (t ← get_or analysis "trapType" (utf8 "N/A"); puts (utf8 "Trap Type: " ++ t)) >>
     (t ← get_or analysis "faultyProgram" (utf8 "N/A"); puts (utf8 "Faulty Program: " ++ t)) >>
     (b ← has_key analysis "faultyLine";
      if (b : bool) then puts_item (utf8 "Faulty Line: ") analysis "faultyLine" else Ret tt) >>
     (t ← get_or analysis "severity" (utf8 "N/A"); puts (utf8 "Severity: " ++ t)) >>
     puts ([10] ++ utf8 "Explanation:") >>
     puts_item [] analysis "explanation" >>
     puts ([10] ++ utf8 "Suggested Fix/Patch:") >>
     puts_item [] analysis "suggestedFix" >>
     (faulty_line ← get_or analysis "faultyLine" (utf8 "see above");
      root_cause ← item analysis "rootCause";
      let fix_summary :=
        lines [""; "MANUAL FIX INSTRUCTIONS:"] ++ utf8 "File: " ++ test_program ++ lines [".c"] ++
        utf8 "Line: " ++ faulty_line ++ lines [""] ++ utf8 "Problem: " ++ py_str root_cause ++
        lines [""; ""; "Quick Fix - Add defensive check BEFORE the faulty operation"] in
      fix_ ← item analysis "suggestedFix";
      patch_content ← clean_patch fix_;
      save_patch (utf8 "user_space_fix.patch") patch_content test_program >>
      puts ([10] ++ utf8 "Or manual fix (if patch fails):") >>
      puts fix_summary)).

(** The console between the two lines of the report. *)
Definition watch_console (test_program : text) : py unit :=
  index ← act (Expect Qemu [Re report_start; P_TIMEOUT] (Some 5000));
  if (index =? 0)%nat then
    puts ([10] ++ utf8 "✅ DETECTED USER SPACE CRASH!") >>
    act (Expect Qemu [Re report_end] (Some 2000)) >>
    (b ← act (Before Qemu);
     let crash_report := report_start ++ b ++ report_end in
     puts ([10] ++ utf8 "--- Captured Crash Report ---") >>
     puts crash_report >>
     (analysis ← analyse_report crash_report test_program;
      print_user_analysis analysis test_program))
  else
    puts (utf8 "⚠️ No user crash report detected within timeout.") >>
    puts (utf8 "The program may have exited successfully or crashed without proper reporting.").

Definition run_user_debugger (test_program : text) : py unit :=
  puts ([10] ++ utf8 "--- Running in USER-SPACE CRASH MODE ---") >>
  puts (utf8 "Test Program: " ++ test_program) >>
  (d ← test_field description USER_TESTS test_program; puts (utf8 "Description: " ++ d)) >>
  (t ← test_field expected_trap USER_TESTS test_program; puts (utf8 "Expected: " ++ t)) >>
  wait_for_shell >>
  puts (utf8 "--- Running " ++ test_program ++ utf8 " to trigger user-space fault ---") >>
  act (Sendline Qemu test_program) >>
  try_except (watch_console test_program)
    (λ e, puts (utf8 "Error while monitoring for user crash: " ++ e_text e) >> act Traceback).

(** ** The whole run *)
Definition tests (m : mode) : list test := match m with Kernel => KERNEL_TESTS | User => USER_TESTS end.

(** The session with gdb, once gdb is started. *)
Definition debug_session (m : mode) (test_program : text) : py unit :=
  act (Expect Gdb [Re (utf8 "\(gdb\)|Breakpoint pending on future shared library load\? \(y or \[n\]\)")] (Some 10000)) >>
  (b ← act (Before Gdb);
   if contains (utf8 "Breakpoint pending") b then
     gdb_command (utf8 "y") None
   else Ret tt) >>
  puts (utf8 "Connecting to remote target...") >>
  act (Sendline Gdb (utf8 "target remote localhost:" ++ GDB_PORT)) >>
  act (Expect Gdb [Re (utf8 "Remote debugging using localhost"); Re (utf8 "\(gdb\)"); Re (utf8 "Connection refused")] (Some 10000)) >>
  (b ← act (Before Gdb);
   refused ← (if contains (utf8 "Connection refused") b then Ret true
              else a ← act (After Gdb); Ret (contains (utf8 "Connection refused") a));
   if (refused : bool) then raise_text (utf8 "GDB failed to connect to QEMU: Connection Refused.") else Ret tt) >>
  puts (utf8 "GDB connected to QEMU.") >>
  act (Expect Gdb [Exact prompt] None) >>
  puts (utf8 "Disabling GDB pagination...") >>
  gdb_command (utf8 "set pagination off") None >>
  gdb_command (utf8 "set height 0") None >>
  match m with
  | Kernel => run_kernel_debugger test_program
  | User => run_user_debugger test_program
  end.

(** The last output of a program, when it was started. *)
Definition last_output (c : child) (started : bool) : py unit :=
  if started then b ← act (Before c); puts b else Ret tt.

(** The except clauses; [gdb] says whether gdb was started, QEMU was. *)
Definition report_exception (gdb : bool) (e : exn) : py unit :=
  match e_kind e with
  | EOF =>
      puts ([10] ++ utf8 "❌ QEMU/GDB closed unexpectedly.") >>
      (if gdb then puts (utf8 "Last GDB output:") >> last_output Gdb gdb else Ret tt)
  | TIMEOUT =>
      puts ([10] ++ utf8 "❌ TIMEOUT occurred.") >>
      puts ([10] ++ utf8 "Last GDB output:") >>
      last_output Gdb gdb >>
      puts ([10] ++ utf8 "Last QEMU output:") >>
      last_output Qemu true
  | Exception =>
      puts ([10] ++ utf8 "❌ An unexpected error occurred: " ++ e_text e) >> act Traceback
  | Interrupt => Raise e
  end.

(** The finally clause. *)
Definition clean_up (gdb : bool) : py unit :=
  puts ([10] ++ utf8 "--- 10. Cleaning up processes ---") >>
  try_any (act Close_log) (Ret tt) >>
  (if gdb then
     alive ← act (Isalive Gdb);
     if (alive : bool) then
       try_any
         (act (Sendline Gdb (utf8 "q")) >>
          act (Expect Gdb [Re (utf8 "Quit anyway\? \(y or n\)")] (Some 2000)) >>
          act (Sendline Gdb (utf8 "y")) >>
          act (Close Gdb false))
         (act (Close Gdb true))
     else Ret tt
   else Ret tt) >>
  (alive ← act (Isalive Qemu);
   if (alive : bool) then act (Close Qemu true) else Ret tt).

Definition qemu_cmd : text :=
  utf8 "qemu-system-x86_64 -nographic -cpu qemu64,+rdtscp -nic none " ++
  utf8 "-hda xv6.img -hdb fs.img -smp 2 -m 512 -S -gdb tcp::" ++ GDB_PORT.

(** From the start of gdb to the end of the run: try, except and finally. *)
Definition with_gdb (m : mode) (test_program : text) : py unit :=
  r ← catch
    (puts (utf8 "--- 4. Starting GDB (" ++ GDB_COMMAND ++ utf8 ") and connecting to QEMU ---") >>
     act (Spawn Gdb (GDB_COMMAND ++ utf8 " kernel") (Some 60000)));
  match r with
  | inl e => try_finally (report_exception false e) (clean_up false)
  | inr _ =>
      try_finally
        (r ← catch (debug_session m test_program);
         match r with inl e => report_exception true e | inr _ => Ret tt end)
        (clean_up true)
  end.

(** ', '.join *)
Fixpoint comma_join (l : list text) : text :=
  match l with
  | [] => []
  | [t] => t
  | t :: l => t ++ utf8 ", " ++ comma_join l
  end.

Definition run_debugger (m : mode) (test_arg : option text) : py unit :=
  test_program ←
    match test_arg with
    | Some t => Ret t
    | None =>
        t ← act (Choice (t_name <$> tests m));
        puts ([10] ++ utf8 "🎲 Randomly selected test: " ++ t) >> Ret t
    end;
  match find_test test_program (tests m) with
  | None =>
      puts (utf8 "❌ Unknown " ++ mode_name m ++ utf8 " test: " ++ test_program) >>
      puts (utf8 "Available tests: " ++ comma_join (t_name <$> tests m))
  | Some _ =>
      puts ([10] ++ utf8 "--- 1. Cleaning up QEMU processes ---") >>
      act (Subprocess [utf8 "pkill"; utf8 "-9"; utf8 "qemu-system-x86_64"]) >>
      act (Sleep_ms 1000) >>
      puts (utf8 "--- 2. Building xv6 ---") >>
      (r ← act (Subprocess [utf8 "make"]);
       let '(returncode, stderr) := (r : Z * text) in
       if negb (returncode =? 0) then puts (utf8 "Build failed!") >> puts stderr
       else
         puts (utf8 "--- 3. Starting QEMU (GDB port: " ++ GDB_PORT ++ utf8 ") ---") >>
         act (Open_log (utf8 "qemu_output.log")) >>
         act (Spawn Qemu qemu_cmd None) >>
         act (Sleep_ms 3000) >>
         with_gdb m test_program)
  end.

Definition list_tests (l : list test) : py unit :=
  foldr (λ t k, puts (utf8 "  " ++ ljust 20 (t_name t) ++ utf8 " - " ++ description t) >> k) (Ret tt) l.

Definition sys_exit (code : Z) : py unit := Raise (Exn Interrupt (show code)).

(** The program, for the parsed arguments. *)
Definition main (m : mode) (test_arg : option text) (list_ : bool) : py unit :=
  if bool_decide (API_KEY = []) then
    puts (utf8 "ERROR: Please set GEMINI_API_KEY environment variable") >>
    puts (utf8 "Example: export GEMINI_API_KEY='your-api-key-here'") >>
    sys_exit 1
  else if list_ then
    puts ([10] ++ rule) >>
    puts (utf8 "AVAILABLE TEST PROGRAMS") >>
    puts rule >>
    puts ([10] ++ utf8 "Kernel Tests:") >>
    list_tests KERNEL_TESTS >>
    puts ([10] ++ utf8 "User Tests:") >>
    list_tests USER_TESTS >>
    puts ([10] ++ utf8 "Usage:") >>
    puts (utf8 "  python3 debugger.py --mode user --test null_deref") >>
    puts (utf8 "  python3 debugger.py --mode kernel  # random test") >>
    sys_exit 0
  else
    puts ([10] ++ rule) >>
    puts (utf8 "xv6 AI-POWERED DEBUGGER - " ++ match m with Kernel => utf8 "KERNEL" | User => utf8 "USER" end ++ utf8 " MODE") >>
    puts rule >>
    run_debugger m test_arg.
End debugger.
