(* ===== verification/DebuggerTheorems.v ===== *)
(** * What the debugger does in every run

    A run of a program is the sequence of its actions with their answers.  The debugger
    closes the machine it started, and asks for the analysis a bounded number of
    times. *)

From S2P Require Import Prelude PyText Debugger.

(** ** Runs *)
Record event := Event { ev_act : action; ev_answer : exn + answer ev_act }.

(** The events of a run and how it ends. *)
Fixpoint run {A} (m : py A) (tr : list event) (out : exn + A) : Prop :=
  match m with
  | Ret a => tr = [] ∧ out = inr a
  | Raise e => tr = [] ∧ out = inl e
  | Act a k => ∃ r tr', tr = Event a r :: tr' ∧ run (k r) tr' out
  end.

Section wp.
Variable ok : event → Prop.

(** Every run of [m] with answers that [ok] allows ends as [Q] says. *)
Definition wp {A} (m : py A) (Q : exn + A → list event → Prop) : Prop :=
  ∀ tr out, run m tr out → Forall ok tr → Q out tr.

Lemma wp_mono {A} (m : py A) (Q Q' : exn + A → list event → Prop) :
  wp m Q → (∀ out tr, Q out tr → Q' out tr) → wp m Q'.
Proof. intros H HQ tr out Hr Ho. by apply HQ, H. Qed.

Lemma wp_ret {A} (a : A) (Q : exn + A → list event → Prop) : Q (inr a) [] → wp (Ret a) Q.
Proof. by intros H tr out [-> ->] _. Qed.
Lemma wp_raise {A} e (Q : exn + A → list event → Prop) : Q (inl e) [] → wp (Raise e) Q.
Proof. by intros H tr out [-> ->] _. Qed.

Lemma wp_bind {A B} (m : py A) (f : A → py B) (Q : exn + B → list event → Prop) :
  wp m (λ out tr, match out with
                  | inl e => Q (inl e) tr
                  | inr a => wp (f a) (λ out tr', Q out (tr ++ tr'))
                  end) → wp (mbind f m) Q.
Proof.
  unfold mbind, py_mbind. revert Q. induction m as [a|e|a k IH]; intros Q H tr out Hr Ho; cbn [py_bind run] in Hr.
  - exact (H [] (inr a) (conj eq_refl eq_refl) (Forall_nil_2 _) tr out Hr Ho).
  - destruct Hr as [-> ->]. exact (H [] (inl e) (conj eq_refl eq_refl) (Forall_nil_2 _)).
  - destruct Hr as (r & tr' & -> & Hr). apply Forall_cons in Ho as [Ho Hos].
    refine (IH r (λ out tr, Q out (Event a r :: tr)) _ tr' out Hr Hos).
    intros tr1 out1 H1 Ho1. apply (H (Event a r :: tr1) out1); [by exists r, tr1|by constructor].
Qed.

Lemma wp_act a (Q : exn + answer a → list event → Prop) :
  (∀ r, ok (Event a r) → Q r [Event a r]) → wp (act a) Q.
Proof.
  intros H tr out (r & tr' & -> & Hr) [Ho _]%Forall_cons. specialize (H r Ho).
  destruct r as [e|x]; destruct Hr as [-> ->]; exact H.
Qed.

Lemma wp_catch {A} (m : py A) (Q : exn + (exn + A) → list event → Prop) :
  wp m (λ out tr, Q (inr out) tr) → wp (catch m) Q.
Proof.
  revert Q. induction m as [a|e|a k IH]; intros Q H tr out Hr Ho; cbn [catch run] in Hr.
  - destruct Hr as [-> ->]. by apply (H [] (inr a)).
  - destruct Hr as [-> ->]. by apply (H [] (inl e)).
  - destruct Hr as (r & tr' & -> & Hr). apply Forall_cons in Ho as [Ho Hos].
    refine (IH r (λ out tr, Q out (Event a r :: tr)) _ tr' out Hr Hos).
    intros tr1 out1 H1 Ho1. apply (H (Event a r :: tr1) out1); [by exists r, tr1|by constructor].
Qed.

(** Whatever a program does. *)
Lemma wp_any {A} (m : py A) (Q : exn + A → list event → Prop) : (∀ out tr, Forall ok tr → Q out tr) → wp m Q.
Proof. intros H tr out _ Ho. by apply H. Qed.
End wp.

(** ** The processes that are left *)

(** Whether [c] runs after the events: it was started, and neither closed nor found dead since. *)
Definition alive_step (c : child) (b : bool) (e : event) : bool :=
  match e with
  | Event (Spawn c' _ _) (inr _) => if decide (c = c') then true else b
  | Event (Close c' _) (inr _) => if decide (c = c') then false else b
  | Event (Isalive c') (inr false) => if decide (c = c') then false else b
  | _ => b
  end.
Definition alive (c : child) (b : bool) (tr : list event) : bool := foldl (alive_step c) b tr.

Lemma alive_app c b tr tr' : alive c b (tr ++ tr') = alive c (alive c b tr) tr'.
Proof. apply foldl_app. Qed.

(** Printing, sleeping, isalive and close(force=True) do not raise exceptions; anything else may. *)
Definition calm (e : event) : Prop :=
  match e with
  | Event (Puts _) (inl _) | Event (Sleep_ms _) (inl _) | Event (Isalive _) (inl _) | Event (Close _ true) (inl _) => False
  | _ => True
  end.

(** Programs that end without an exception, that end with the machine closed, and that
    do not start it. *)
Definition no_raise {A} (m : py A) : Prop := wp calm m (λ out _, match out with inl _ => False | inr _ => True end).
Definition closes {A} (m : py A) : Prop := wp calm m (λ _ tr, ∀ b, alive Qemu b tr = false).
Definition quiet_py {A} (m : py A) : Prop := wp calm m (λ _ tr, alive Qemu false tr = false).

Lemma no_raise_bind {A B} (m : py A) (f : A → py B) : no_raise m → (∀ a, no_raise (f a)) → no_raise (mbind f m).
Proof.
  intros Hm Hf. apply wp_bind. eapply wp_mono; [exact Hm|]. intros [e|a] tr; [done|]. intros _. apply Hf.
Qed.
Lemma no_raise_ret {A} (a : A) : no_raise (Ret a).
Proof. by apply wp_ret. Qed.
Lemma no_raise_puts t : no_raise (act (Puts t)).
Proof. by apply wp_act; intros [e|x]. Qed.
Lemma no_raise_isalive c : no_raise (act (Isalive c)).
Proof. by apply wp_act; intros [e|x]. Qed.
Lemma no_raise_close c : no_raise (act (Close c true)).
Proof. by apply wp_act; intros [e|x]. Qed.
Lemma no_raise_try_any m h : no_raise h → no_raise (try_any m h).
Proof.
  intros Hh. apply wp_bind, wp_catch. apply wp_any. intros [e|a] tr _; [exact Hh|by apply wp_ret].
Qed.
Create HintDb py discriminated.
#[export] Hint Resolve no_raise_bind no_raise_ret no_raise_puts no_raise_isalive no_raise_close no_raise_try_any : py.

Lemma closes_after {A B} (m : py A) (f : A → py B) : no_raise m → (∀ a, closes (f a)) → closes (mbind f m).
Proof.
  intros Hm Hf. apply wp_bind. eapply wp_mono; [exact Hm|]. intros [e|a] tr; [done|]. intros _.
  eapply wp_mono; [apply Hf|]. cbv beta. intros _ tr' H b. rewrite alive_app. apply H.
Qed.
Lemma closes_catch {A B} (m : py A) (f : exn + A → py B) : (∀ r, closes (f r)) → closes (mbind f (catch m)).
Proof.
  intros Hf. apply wp_bind, wp_catch, wp_any. intros r tr _. eapply wp_mono; [apply Hf|]. cbv beta.
  intros _ tr' H b. rewrite alive_app. apply H.
Qed.

Lemma closes_clean_up gdb : closes (clean_up gdb).
Proof.
  unfold clean_up. apply closes_after; [auto with py|intro]. apply closes_after; [auto with py|intro].
  apply closes_after; [|intro].
  - destruct gdb; [|apply no_raise_ret]. apply no_raise_bind; [apply no_raise_isalive|].
    intros [|]; [apply no_raise_try_any, no_raise_close|apply no_raise_ret].
  - apply wp_bind, (wp_act _ (Isalive Qemu)). intros [e|[|]]; [done| |].
    + intros _. apply (wp_act _ (Close Qemu true)). intros [e|x]; [done|]. by intros _ b.
    + intros _. apply wp_ret. by intros b.
Qed.

Lemma closes_finally {A} (m : py A) f : closes f → closes (try_finally m f).
Proof.
  intros Hf. apply closes_catch. intros r. apply wp_bind. eapply wp_mono; [exact Hf|]. cbv beta. intros [e|[]] tr H; [done|].
  destruct r as [e|a]; [apply wp_raise|apply wp_ret]; intros b; rewrite app_nil_r; apply H.
Qed.

(** ** The run of the debugger *)
Section runs.
Variables (API_KEY : text) (json_loads : text → option json) (repr : json → text) (decode_error : text → text) (type_error : json → text).
Local Abbreviation with_gdb := (with_gdb API_KEY json_loads repr decode_error type_error).
Local Abbreviation run_debugger := (run_debugger API_KEY json_loads repr decode_error type_error).

Lemma closes_with_gdb m t : closes (with_gdb m t).
Proof. apply closes_catch. intros [e|[]]; apply closes_finally, closes_clean_up. Qed.

Lemma quiet_bind {A B} (m : py A) (f : A → py B) : quiet_py m → (∀ a, quiet_py (f a)) → quiet_py (mbind f m).
Proof.
  intros Hm Hf. apply wp_bind. eapply wp_mono; [exact Hm|]. intros [e|a] tr H; [done|].
  eapply wp_mono; [apply Hf|]. cbv beta. intros _ tr' H'. by rewrite alive_app, H.
Qed.
Lemma quiet_ret {A} (a : A) : quiet_py (Ret a).
Proof. by apply wp_ret. Qed.
Lemma quiet_act a : match a with Spawn _ _ _ => False | _ => True end → quiet_py (act a).
Proof.
  intros Ha. apply wp_act. intros r _. unfold alive. cbn [foldl].
  destruct a; try done; destruct r as [|r]; try done; cbn; try (destruct r; try done); by destruct (decide _).
Qed.

Ltac quiet_step := lazymatch goal with |- quiet_py (act ?a) => exact (quiet_act a I) | |- _ => apply quiet_bind; [|intro] end.

(** C28: the debugger closes the machine.  Whatever gdb, QEMU, the build and the service do, and
    wherever an exception is raised, a keyboard interrupt included: when the debugger ends
    QEMU does not run any more, as long as printing, sleeping, isalive and
    close(force=True) themselves do not raise. *)
Theorem debugger_closes_qemu m t tr out :
  run (run_debugger m t) tr out → Forall calm tr → alive Qemu false tr = false.
Proof.
  revert tr out. change (quiet_py (run_debugger m t)). unfold Debugger.run_debugger.
  apply quiet_bind.
  { destruct t; [apply quiet_ret|]. do 2 (quiet_step; [quiet_step|]). apply quiet_ret. }
  intros p. destruct (find_test _ _); [|repeat quiet_step].
  do 5 (quiet_step; [quiet_step|]). lazymatch goal with |- context [let '(_, _) := ?r in _] => destruct r as [rc err] end.
  destruct (negb _); [repeat quiet_step|]. do 2 (quiet_step; [quiet_step|]).
  apply wp_bind, (wp_act _ (Spawn _ _ _)). intros [e|[]] _; [done|].
  apply wp_bind, (wp_act _ (Sleep_ms _)). intros [e|[]]; [done|]. intros _.
  eapply wp_mono; [apply closes_with_gdb|]. cbv beta. intros _ tr H. exact (H true).
Qed.
End runs.

(** ** Asking for the analysis *)

(** Printing and sleeping do not raise exceptions, and a request raises subclasses of Exception. *)
Definition polite (e : event) : Prop :=
  match e with
  | Event (Puts _) (inl _) | Event (Sleep_ms _) (inl _) => False
  | Event (Post _ _ _) (inl x) => e_kind x ≠ Interrupt
  | _ => True
  end.

(** What the requests of a run got, and the time slept. *)
Fixpoint responses (tr : list event) : list (exn + Z * text) :=
  match tr with
  | [] => []
  | Event (Post _ _ _) r :: tr => r :: responses tr
  | _ :: tr => responses tr
  end.
Fixpoint slept (tr : list event) : Z :=
  match tr with
  | [] => 0
  | Event (Sleep_ms t) _ :: tr => t + slept tr
  | _ :: tr => slept tr
  end.

Lemma responses_app tr tr' : responses (tr ++ tr') = responses tr ++ responses tr'.
Proof. induction tr as [|[[] r] tr IH]; [done|..]; cbn [responses app]; by rewrite ?IH. Qed.
Lemma slept_app tr tr' : slept (tr ++ tr') = slept tr + slept tr'.
Proof. induction tr as [|[[] r] tr IH]; [done|..]; cbn [slept app]; lia. Qed.

(** Programs without actions. *)
Definition plain {A} (m : py A) : Prop :=
  match m with Ret _ => True | Raise e => e_kind e = Exception | Act _ _ => False end.
Lemma plain_bind {A B} (m : py A) (f : A → py B) : plain m → (∀ a, plain (f a)) → plain (mbind f m).
Proof. destruct m; cbn; [by intros _ Hf|done|done]. Qed.

Section retries.
Variables (API_KEY : text) (json_loads : text → option json) (decode_error : text → text) (type_error : json → text).
Local Abbreviation analysis_of := (analysis_of json_loads decode_error type_error).
Local Abbreviation try_once := (try_once API_KEY json_loads decode_error type_error).
Local Abbreviation try_all := (try_all API_KEY json_loads decode_error type_error).
Local Abbreviation get_gemini_analysis := (get_gemini_analysis API_KEY json_loads decode_error type_error).

Lemma plain_loads j : plain (loads json_loads decode_error type_error j).
Proof. destruct j as [| | |s| |]; try done. unfold loads. by destruct (json_loads s). Qed.
Lemma plain_item j k : plain (item type_error j k).
Proof. destruct j as [| | | | |d]; try done. unfold item. by destruct (dict_get (utf8 k) d). Qed.
Lemma plain_elem j i : plain (elem type_error j i).
Proof. destruct j as [| | |s|l|]; try done; unfold elem; [by destruct (s !! i)|by destruct (l !! i)]. Qed.

Lemma plain_analysis txt : plain (analysis_of txt).
Proof.
  unfold Debugger.analysis_of.
  apply plain_bind; [apply plain_loads|intro]. apply plain_bind; [apply plain_item|intro].
  apply plain_bind; [apply plain_elem|intro]. apply plain_bind; [apply plain_item|intro].
  apply plain_bind; [apply plain_item|intro]. apply plain_bind; [apply plain_elem|intro].
  apply plain_bind; [apply plain_item|intro]. apply plain_loads.
Qed.

(** The analysis of a response, if it has one. *)
Definition good (r : exn + Z * text) : option json :=
  match r with
  | inr (status, txt) => if status =? 200 then match analysis_of txt with Ret j => Some j | _ => None end else None
  | inl _ => None
  end.

Definition error_result (t : text) : json := JDict [(utf8 "error", JStr t)].

(** A list of actions that do not raise, with what they sleep; none of them is a request. *)
Lemma polite_act a (Q : exn + answer a → list event → Prop) :
  match a with Puts _ | Sleep_ms _ => True | _ => False end →
  (∀ x, Q (inr x) [Event a (inr x)]) → wp polite (act a) Q.
Proof. intros Ha HQ. apply wp_act. by destruct a; try done; intros [e|x]. Qed.

(** The handler of a turn. *)
Lemma failed_wp i e (Q : exn + option json → list event → Prop) :
  (i < 5)%nat → e_kind e ≠ Interrupt →
  (∀ out tr, responses tr = [] →
    out = inr None ∧ slept tr = 1000 * 2 ^ Z.of_nat i ∨ i = 4%nat ∧ (∃ t, out = inr (Some (error_result t))) ∧ slept tr = 0 → Q out tr) →
  wp polite (failed_attempt i e) Q.
Proof.
  intros Hi He HQ. unfold failed_attempt. apply wp_bind, (polite_act (Puts _)); [done|]. intros [].
  destruct (Nat.ltb_spec i (max_retries - 1)) as [Hlt|Hge].
  - apply wp_bind, (polite_act (Sleep_ms _)); [done|]. intros []. apply wp_ret, HQ; [done|].
    left. split; [done|]. cbn [slept app]. lia.
  - apply wp_ret, HQ; [done|]. right. unfold max_retries in Hge. split; [lia|]. split; [by eexists|done].
Qed.

(** One turn: one request, then the analysis, or a pause and the next turn, or at the end an error. *)
Lemma try_once_wp pl i :
  (i < 5)%nat →
  wp polite (try_once pl i) (λ out tr, ∃ r, responses tr = [r] ∧
    match good r with
    | Some j => out = inr (Some j) ∧ slept tr = 0
    | None => out = inr None ∧ slept tr = 1000 * 2 ^ Z.of_nat i ∨
              i = 4%nat ∧ (∃ t, out = inr (Some (error_result t))) ∧ slept tr = 0
    end).
Proof.
  intros Hi. apply wp_bind, wp_catch, wp_bind, (wp_act _ (Post _ _ _)). intros [e|[status txt]] Hok.
  - rewrite bool_decide_eq_false_2 by exact Hok. apply failed_wp; [done|done|].
    intros out tr Hr Hc. exists (inl e). cbn [app responses slept]. by rewrite Hr.
  - destruct (Z.eqb_spec status 200) as [->|Hs]; cbn [negb].
    + pose proof (plain_analysis txt) as Hp.
      destruct (analysis_of txt) as [j|e|] eqn:Ea; [| |done]; cbn [mbind py_mbind py_bind].
      * apply wp_ret. cbn [app]. apply wp_ret. exists (inr (200, txt)). split; [done|]. cbn [good]. by rewrite Ea.
      * apply wp_raise. cbn [plain] in Hp. rewrite bool_decide_eq_false_2 by by rewrite Hp.
        apply failed_wp; [done|by rewrite Hp|]. intros out tr Hr Hc. exists (inr (200, txt)).
        cbn [app responses slept good]. by rewrite Ea, Hr.
    + do 2 (apply wp_bind, (polite_act (Puts _)); [done|]; intros []).
      apply wp_bind, (polite_act (Sleep_ms _)); [done|]. intros []. apply wp_ret, wp_ret.
      exists (inr (status, txt)). cbn [app responses slept good]. rewrite (proj2 (Z.eqb_neq _ _)) by done.
      split; [done|]. left. split; [done|lia].
Qed.

(** How the loop ends with [k] turns left: with the analysis of the last response, the only
    one that has one, or with an error after [k] responses that have none. *)
Definition retried (k : nat) (rs : list (exn + Z * text)) (out : exn + json) : Prop :=
  (∃ rs' r j, rs = rs' ++ [r] ∧ (length rs ≤ k)%nat ∧ Forall (λ r, good r = None) rs' ∧ good r = Some j ∧ out = inr j) ∨
  (length rs = k ∧ Forall (λ r, good r = None) rs ∧ ∃ t, out = inr (error_result t)).

Lemma retried_cons k r rs out : good r = None → retried k rs out → retried (S k) (r :: rs) out.
Proof.
  intros Hr [(rs' & r' & j & -> & Hl & Hn & Hg & ->)|(Hl & Hn & Ht)].
  - left. exists (r :: rs'), r', j. split; [done|]. split; [cbn; lia|]. split; [by constructor|done].
  - right. split; [cbn; lia|]. split; [by constructor|done].
Qed.

Lemma try_all_wp pl k i :
  (k + i = 5)%nat →
  wp polite (try_all pl k i) (λ out tr, retried k (responses tr) out ∧ slept tr ≤ 1000 * (2 ^ 5 - 2 ^ Z.of_nat i)).
Proof.
  revert i. induction k as [|k IH]; intros i Hi; cbn [Debugger.try_all].
  { apply wp_ret. split; [right; split; [done|]; split; [done|by eexists]|]. replace i with 5%nat by lia. cbn. lia. }
  assert (Hpow : 2 ^ Z.of_nat (S i) = 2 * 2 ^ Z.of_nat i) by (rewrite Nat2Z.inj_succ, Z.pow_succ_r; lia).
  pose proof (Z.pow_le_mono_r 2 (Z.of_nat (S i)) 5 ltac:(lia) ltac:(lia)) as Hle. pose proof (Z.pow_pos_nonneg 2 (Z.of_nat i) ltac:(lia) ltac:(lia)) as Hpos.
  apply wp_bind. eapply wp_mono; [apply try_once_wp; lia|]. cbv beta. intros out tr (r & Hr & Hg).
  destruct (good r) as [j|] eqn:Eg.
  - destruct Hg as [-> Hs]. apply wp_ret. rewrite app_nil_r, Hr, Hs. split; [|lia]. left. exists [], r, j.
    split; [done|]. split; [cbn; lia|]. split; [constructor|done].
  - destruct Hg as [[-> Hs]|(Hi4 & (t & ->) & Hs)].
    + eapply wp_mono; [apply IH; lia|]. cbv beta. intros out tr' [Hre Hs']. rewrite responses_app, Hr, slept_app.
      split; [by apply retried_cons|lia].
    + apply wp_ret. rewrite app_nil_r, Hr, Hs. split; [|lia]. right. split; [cbn; lia|]. split; [by repeat constructor|by eexists].
Qed.

(** the request for an analysis ends.  It makes at most five requests and sleeps at most 31
    seconds in all; it returns the analysis of the first response that has one, and when
    none of five has one a dictionary with the key error.  It raises no exception, as
    long as printing and sleeping do not and no interrupt arrives. *)
Theorem analysis_retries debug_data m tr out :
  run (get_gemini_analysis debug_data m) tr out → Forall polite tr →
  retried 5 (responses tr) out ∧ slept tr ≤ 31000.
Proof.
  revert tr out. change (wp polite (get_gemini_analysis debug_data m) (λ out tr, retried 5 (responses tr) out ∧ slept tr ≤ 31000)).
  apply wp_bind, (polite_act (Puts _)); [done|]. intros [].
  eapply wp_mono; [by apply try_all_wp|]. done.
Qed.
End retries.

(** A run against given answers. *)
Fixpoint drive {A} (h : ∀ a, exn + answer a) (m : py A) : list event * (exn + A) :=
  match m with
  | Ret a => ([], inr a)
  | Raise e => ([], inl e)
  | Act a k => let '(tr, out) := drive h (k (h a)) in (Event a (h a) :: tr, out)
  end.

Lemma drive_run {A} h (m : py A) : run m (fst (drive h m)) (snd (drive h m)).
Proof.
  induction m as [a|e|a k IH]; [done|done|]. cbn [drive run]. specialize (IH (h a)).
  destruct (drive h (k (h a))) as [tr out]. by exists (h a), tr.
Qed.
Lemma drive_ok {A} h (m : py A) (ok : event → Prop) : (∀ a, ok (Event a (h a))) → Forall ok (fst (drive h m)).
Proof.
  intros Hok. induction m as [a|e|a k IH]; [by constructor|by constructor|]. cbn [drive]. specialize (IH (h a)).
  destruct (drive h (k (h a))) as [tr out]. by constructor.
Qed.

(** A gdb that starts and does not answer. *)
Definition silent_gdb (a : action) : exn + answer a :=
  match a with
  | Subprocess _ => inr (0, [])
  | Choice _ => inr []
  | Expect _ _ _ => inl (Exn TIMEOUT [])
  | Before _ | After _ => inr []
  | Isalive _ => inr true
  | Post _ _ _ => inl (Exn Exception [])
  | _ => inr tt
  end.

Definition silent_run : list event * (exn + unit) :=
  drive silent_gdb (run_debugger [] (λ _, None) (λ _, []) (λ _, []) (λ _, []) User (Some (utf8 "user_crash"))).

Lemma debugger_closes_qemu_witness :
  length (fst silent_run) = 27%nat ∧ alive Qemu false (take 12 (fst silent_run)) = true ∧ alive Qemu false (fst silent_run) = false.
Proof.
  split; [vm_compute; reflexivity|]. split; [vm_compute; reflexivity|].
  apply (debugger_closes_qemu [] (λ _, None) (λ _, []) (λ _, []) (λ _, []) User (Some (utf8 "user_crash")) _ (snd silent_run)).
  - apply drive_run.
  - apply drive_ok. intros a. destruct a as [| | | | | | | | | | | | | ? []| | |]; exact I.
Defined.

(** A service that is not there. *)
Lemma analysis_retries_witness :
  let x := drive silent_gdb (get_gemini_analysis [] (λ _, None) (λ _, []) (λ _, []) [] User) in
  slept (fst x) = 15000 ∧ retried (λ _, None) (λ _, []) (λ _, []) 5 (responses (fst x)) (snd x).
Proof.
  split; [vm_compute; reflexivity|].
  apply (analysis_retries [] (λ _, None) (λ _, []) (λ _, []) [] User); [apply drive_run|].
  apply drive_ok. intros []; done.
Defined.
