(* ===== verification/CrashReport.v ===== *)
(** * From a fault to its source

    The kernel prints a crash report when a user program faults, QEMU shows the bytes of
    the serial port on its console, and the debugger reads the report and asks gdb for the
    source at the address in it.  The three fit: the address is that of the fault. *)

From stdpp Require Import pretty.
From S2P Require Import Prelude Params CString Devices Core Pipe Kalloc Vm Bio Log BlockStore Fs Console ConsoleOut Kernel File Proc Syscall Exec SysFile Trap PyText Debugger DebuggerTheorems.

(** ** What the kernel prints *)

(** The state after printing [t]. *)
Definition print_k (t : list Z) (s : kstate) : kstate :=
  set_kcore (set_dev (put_chars t (c_dev (k_core s))) (k_core s)) s.

Definition can_print (s : kstate) : Prop := d_panicked (c_dev (k_core s)) = false ∧ Lk_cons ∉ c_held (k_core s).

Lemma can_print_k t s : can_print s → can_print (print_k t s).
Proof. intros [H1 H2]. split; [|exact H2]. exact (eq_trans (put_chars_panicked _ _) H1). Qed.

Lemma kprintf_put fmt ap t s : format fmt ap = Some t → can_print s → kprintf fmt ap s = Done tt (print_k t s).
Proof. intros Ht [H1 H2]. by apply k_locks_done, cprintf_put. Qed.

Lemma print_k_app t t' s : print_k t' (print_k t s) = print_k (t ++ t') s.
Proof. unfold print_k. cbn. by rewrite put_chars_app. Qed.

Definition num (v : Z) : list Z := str (pretty (s32 v)).

(** The lines of the report between its first and its last. *)
Definition process_line (p : proc) : list Z :=
  str "Process: " ++ chars (p_name p) ++ str " (pid " ++ num (p_pid p) ++ str ")" ++ [10].
Definition trap_line (tf : trapframe) : list Z :=
  str "Trap: " ++ num (trapno tf) ++ str " (Error: " ++ num (err tf) ++ str ")" ++ [10].
Definition rip_line (tf : trapframe) : list Z :=
  str "RIP: " ++ hex 16 (rip tf) ++ str " RSP: " ++ hex 16 (rsp tf) ++ [10].
Definition rax_line (tf : trapframe) : list Z :=
  str "RAX: " ++ hex 16 (rax tf) ++ str " RBX: " ++ hex 16 (rbx tf) ++ str " RCX: " ++ hex 16 (rcx tf) ++ str " RDX: " ++ hex 16 (rdx tf) ++ [10].
Definition rdi_line (tf : trapframe) : list Z :=
  str "RDI: " ++ hex 16 (rdi tf) ++ str " RSI: " ++ hex 16 (rsi tf) ++ str " RBP: " ++ hex 16 (rbp tf) ++ [10].
Definition report_body (p : proc) (tf : trapframe) : list Z :=
  [10] ++ process_line p ++ trap_line tf ++ rip_line tf ++ rax_line tf ++ rdi_line tf.

Definition report_text (p : proc) (tf : trapframe) : list Z :=
  [10] ++ str "=== XV6 USER CRASH REPORT ===" ++ report_body p tf ++ str "=== END REPORT ===" ++ [10].

Definition killed_line (cpu cr2 : Z) (p : proc) (tf : trapframe) : list Z :=
  str "pid " ++ num (p_pid p) ++ str " " ++ chars (p_name p) ++ str ": trap " ++ num (trapno tf) ++ str " err " ++ num (err tf) ++
  str " on cpu " ++ num cpu ++ str " rip 0x" ++ hex 16 (rip tf) ++ str " addr 0x" ++ hex 16 cr2 ++ str "--kill proc" ++ [10].

Lemma print_then {A} fmt ap t t' (k : K kstate A) s :
  format fmt ap = Some t' → can_print s →
  (kprintf fmt ap ;;; k) (print_k t s) = k (print_k (t ++ t') s).
Proof.
  intros Ht Hs. by rewrite (bind_done _ _ _ _ _ (kprintf_put _ _ _ _ Ht (can_print_k t s Hs))), print_k_app.
Qed.

Lemma crash_report_put p tf s : can_print s → crash_report p tf s = Done tt (print_k (report_text p tf) s).
Proof.
  intros Hs. unfold crash_report.
  erewrite bind_done by (apply (kprintf_put _ _ ([10] ++ str "=== XV6 USER CRASH REPORT ===" ++ [10])); [reflexivity|done]).
  rewrite (print_then _ _ _ (process_line p)) by (reflexivity || done).
  rewrite (print_then _ _ _ (trap_line tf)) by (reflexivity || done).
  rewrite (print_then _ _ _ (rip_line tf)) by (reflexivity || done).
  rewrite (print_then _ _ _ (rax_line tf)) by (reflexivity || done).
  rewrite (print_then _ _ _ (rdi_line tf)) by (reflexivity || done).
  rewrite (kprintf_put _ _ (str "=== END REPORT ===" ++ [10])) by (reflexivity || by apply can_print_k). rewrite print_k_app.
  do 2 f_equal. unfold report_text, report_body. by rewrite <- !app_assoc.
Qed.

Lemma trap_reports cpu cr2 ide kbd uart tf s i p :
  can_print s → c_cur (k_core s) = Some i → c_procs (k_core s) !! i = Some p →
  0 ≤ trapno tf < T_IRQ0 → Z.land (cs tf) 3 ≠ 0 →
  ∃ s', trap_dispatch cpu cr2 ide kbd uart tf s = Done tt s' ∧
    s' = set_kcore (upd_proc i (set_killed true) (k_core (print_k (report_text p tf ++ killed_line cpu cr2 p tf) s)))
           (print_k (report_text p tf ++ killed_line cpu cr2 p tf) s).
Proof.
  intros Hs Hcur Hp Htrap Hcs. eexists. split; [|reflexivity]. unfold trap_dispatch.
  rewrite !(proj2 (Z.eqb_neq _ _)) by (unfold IRQ_TIMER, IRQ_IDE, IRQ_KBD, IRQ_COM1, IRQ_SPURIOUS; lia). cbn [orb].
  unfold trap_unexpected, bind at 1, gets. cbv zeta. rewrite Hcur. cbn [mbind option_bind]. rewrite Hp. cbn [mbind option_bind].
  rewrite (proj2 (Z.eqb_neq _ _)) by done. rewrite (bind_done _ _ _ _ _ (crash_report_put p tf s Hs)).
  by rewrite (print_then _ _ _ (killed_line cpu cr2 p tf)) by (reflexivity || done).
Qed.

(** ** The characters of numbers *)
Lemma hex_chars k x : Forall (λ c, lower_hex c = true) (hex k x).
Proof.
  induction k as [|k IH]; [constructor|]. cbn [hex]. constructor; [|done].
  pose proof (Z.mod_pos_bound (x / 16 ^ Z.of_nat k) 16 ltac:(lia)) as H. generalize dependent ((x / 16 ^ Z.of_nat k) mod 16). intros d H.
  assert (Hd : ∃ n, d = Z.of_nat n ∧ (n < 16)%nat) by (exists (Z.to_nat d); lia). destruct Hd as (n & -> & Hn).
  rewrite Nat2Z.id. do 16 (destruct n as [|n]; [reflexivity|]). lia.
Qed.
Lemma length_hex k x : length (hex k x) = k.
Proof. induction k as [|k IH]; cbn [hex length]; congruence. Qed.

(** A number in decimal notation has digits and a minus sign. *)
Lemma num_chars v : Forall (λ c, digit c = true ∨ c = 45) (num v).
Proof.
  assert (Hd : ∀ room x, Forall (λ c, digit c = true ∨ c = 45) (decimal room x)).
  { induction room as [|room IH]; intros x; [constructor|]. cbn [decimal]. constructor.
    - left. pose proof (Z.mod_pos_bound x 10 ltac:(lia)) as H. generalize dependent (x mod 10). intros d H.
      assert (Hx : ∃ n, d = Z.of_nat n ∧ (n < 10)%nat) by (exists (Z.to_nat d); lia). destruct Hx as (n & -> & Hn).
      rewrite Nat2Z.id. do 10 (destruct n as [|n]; [reflexivity|]). lia.
    - destruct (x / 10 =? 0); [constructor|apply IH]. }
  unfold num. pose proof (s32_range v) as Hr. destruct (s32 v) as [|n|n].
  - by repeat constructor; left.
  - change (str (pretty (Zpos n))) with (str (pretty_N_go (Z.to_N (Zpos n)) "")). rewrite (decimal_pretty 16) by lia.
    rewrite app_nil_r. by apply Forall_reverse.
  - change (str (pretty (Zneg n))) with (45 :: str (pretty_N_go (Z.to_N (Zpos n)) "")). rewrite (decimal_pretty 16) by lia.
    constructor; [by right|]. rewrite app_nil_r. by apply Forall_reverse.
Qed.

(** The number that hexadecimal digits stand for. *)
Definition hex_value (c : Z) : Z := if digit c then c - 48 else c - 87.
Definition of_hex (t : text) : Z := foldl (λ n c, n * 16 + hex_value c) 0 t.

Lemma of_hex_hex k x : of_hex (hex k x) = x mod 16 ^ Z.of_nat k.
Proof.
  assert (H : ∀ k n, foldl (λ n c, n * 16 + hex_value c) n (hex k x) = n * 16 ^ Z.of_nat k + x mod 16 ^ Z.of_nat k).
  2: { unfold of_hex. rewrite H. lia. }
  clear k. induction k as [|k IH]; intros n; [cbn; rewrite Z.mod_1_r; lia|]. cbn [hex foldl]. rewrite IH.
  assert (Hv : ∀ d, 0 ≤ d < 16 → hex_value (digits !!! Z.to_nat d) = d).
  { intros d H. assert (Hx : ∃ n, d = Z.of_nat n ∧ (n < 16)%nat) by (exists (Z.to_nat d); lia). destruct Hx as (m & -> & Hm).
    rewrite Nat2Z.id. do 16 (destruct m as [|m]; [reflexivity|]). lia. }
  rewrite Hv by (apply Z.mod_pos_bound; lia). rewrite Nat2Z.inj_succ, Z.pow_succ_r, (Z.mul_comm 16) by lia.
  rewrite (Z.rem_mul_r x (16 ^ Z.of_nat k) 16) by lia. lia.
Qed.

(** ** What the debugger reads *)

(** The text before the first occurrence of [p] and the text after it, as pexpect splits it. *)
Fixpoint until (p t : text) : option (text * text) :=
  if startswith p t then Some ([], drop (length p) t)
  else match t with
       | [] => None
       | c :: t => x ← until p t; Some (c :: fst x, snd x)
       end.

Lemma startswith_self p t : startswith p (p ++ t) = true.
Proof. induction p as [|c p IH]; [done|]. cbn. by rewrite Z.eqb_refl, IH. Qed.

Lemma until_first c p a t : c ∉ a → until (c :: p) (a ++ (c :: p) ++ t) = Some (a, t).
Proof.
  induction a as [|x a IH]; intros Ha.
  - pose proof (startswith_self (c :: p) t) as E. cbn [app] in *. cbn [until]. rewrite E. cbn [length drop]. by rewrite drop_app_length.
  - apply not_elem_of_cons in Ha as [Hx Ha]. cbn [app until startswith].
    rewrite (proj2 (Z.eqb_neq c x)) by done. cbn [andb app] in *. by rewrite (IH Ha).
Qed.

Lemma until_mark m a t : (∃ m', m = 61 :: m') → 61 ∉ a → until m (a ++ m ++ t) = Some (a, t).
Proof. intros (m' & ->). apply until_first. Qed.

Lemma re_search_here m t g : m t = Some g → re_search m t = Some g.
Proof. intros E. destruct t; cbn [re_search]; by rewrite E. Qed.
Lemma re_search_skip a t : 82 ∉ a → re_search match_rip (a ++ t) = re_search match_rip t.
Proof.
  induction a as [|x a IH]; intros Ha; [done|]. apply not_elem_of_cons in Ha as [Hx Ha].
  cbn [app re_search]. replace (match_rip (x :: a ++ t)) with (@None text); [by apply IH|].
  unfold match_rip. cbn [str String.list_ascii_of_string fmap list_fmap startswith].
  replace (_ =? x) with false; [done|]. symmetry. by apply Z.eqb_neq.
Qed.

Lemma take_while_app f a c t : Forall (λ x, f x = true) a → f c = false → take_while f (a ++ c :: t) = a.
Proof.
  intros Ha Hc. induction Ha as [|x a Hx Ha IH]; cbn [app take_while]; [by rewrite Hc|by rewrite Hx, IH].
Qed.

(** The console of QEMU, which may show a newline in its own way, as \r\n for instance. *)
Definition shown (nl : text) (t : list Z) : text := t ≫= λ c, if c =? 10 then nl else [c].

Lemma shown_app nl t t' : shown nl (t ++ t') = shown nl t ++ shown nl t'.
Proof. apply bind_app. Qed.
Lemma shown_plain nl t : 10 ∉ t → shown nl t = t.
Proof.
  induction t as [|c t IH]; intros Ht; [done|]. apply not_elem_of_cons in Ht as [Hc Ht].
  unfold shown. cbn [mbind list_bind]. rewrite (proj2 (Z.eqb_neq c 10)) by done. cbn [app]. f_equal. by apply IH.
Qed.

(** Characters that are not in numbers. *)
Lemma not_in_hex c k x : lower_hex c = false → c ∉ hex k x.
Proof. intros Hc Hin. pose proof (hex_chars k x) as H. rewrite Forall_forall in H. by rewrite (H c Hin) in Hc. Qed.
Lemma not_in_num c v : digit c = false → c ≠ 45 → c ∉ num v.
Proof. intros Hc Hn Hin. pose proof (num_chars v) as H. rewrite Forall_forall in H. by destruct (H c Hin) as [E| ->]; [rewrite E in Hc|]. Qed.

(** A report whose process has none of the characters that the marks start with. *)
Record name_ok (name : text) : Prop := {
  nm_newline : 10 ∉ name;
  nm_equals : 61 ∉ name;
  nm_R : 82 ∉ name
}.
Definition blank (nl : text) : Prop := Forall (λ c, isspace c = true) nl.

Lemma blank_not_in c nl : isspace c = false → blank nl → c ∉ nl.
Proof. intros Hc Hn Hin. unfold blank in Hn. rewrite Forall_forall in Hn. by rewrite (Hn c Hin) in Hc. Qed.

Section report.
Variables (nl : text) (p : proc) (tf : trapframe).
Hypothesis Hnl : blank nl.
Hypothesis Hname : name_ok (chars (p_name p)).

Definition shown_head : text :=
  nl ++ str "Process: " ++ chars (p_name p) ++ str " (pid " ++ num (p_pid p) ++ str ")" ++ nl ++
  str "Trap: " ++ num (trapno tf) ++ str " (Error: " ++ num (err tf) ++ str ")" ++ nl.
Definition shown_tail : text :=
  str " RSP: " ++ hex 16 (rsp tf) ++ nl ++
  str "RAX: " ++ hex 16 (rax tf) ++ str " RBX: " ++ hex 16 (rbx tf) ++ str " RCX: " ++ hex 16 (rcx tf) ++ str " RDX: " ++ hex 16 (rdx tf) ++ nl ++
  str "RDI: " ++ hex 16 (rdi tf) ++ str " RSI: " ++ hex 16 (rsi tf) ++ str " RBP: " ++ hex 16 (rbp tf) ++ nl.
Definition shown_body : text := shown_head ++ str "RIP: " ++ hex 16 (rip tf) ++ shown_tail.

Ltac not_in :=
  repeat match goal with
  | |- _ ∉ _ ++ _ => apply not_elem_of_app; split
  | |- _ ∉ hex _ _ => by apply not_in_hex
  | |- _ ∉ num _ => by apply not_in_num
  | |- _ ∉ nl => by apply blank_not_in
  | |- _ ∉ chars (p_name p) => apply Hname
  | |- _ ∉ str _ => by apply (bool_decide_unpack _)
  end.

Lemma shown_report : shown nl (report_body p tf) = shown_body.
Proof.
  assert (Hn : shown nl [10] = nl) by (unfold shown; cbn; apply app_nil_r).
  unfold report_body, process_line, trap_line, rip_line, rax_line, rdi_line, shown_body, shown_head, shown_tail.
  rewrite !shown_app, !Hn, !(shown_plain nl (num _)), !(shown_plain nl (hex _ _)), !(shown_plain nl (str _)), (shown_plain nl (chars _)) by not_in.
  by rewrite <- !app_assoc.
Qed.

(** The report on the console, with its marks. *)
Lemma shown_marks t : shown nl (report_text p tf ++ t) = nl ++ report_start ++ shown_body ++ report_end ++ shown nl ([10] ++ t).
Proof.
  assert (Hn : shown nl [10] = nl) by (unfold shown; cbn; apply app_nil_r).
  unfold report_text. rewrite <- !app_assoc, !shown_app, shown_report, Hn, !(shown_plain nl (str _)) by not_in. reflexivity.
Qed.

Lemma head_no_R : 82 ∉ shown_head.
Proof. unfold shown_head. not_in. Qed.
Lemma body_no_equals : 61 ∉ shown_body.
Proof. unfold shown_body, shown_head, shown_tail. not_in. Qed.

Lemma match_rip_line t : match_rip (str "RIP: " ++ hex 16 (rip tf) ++ str " RSP: " ++ t) = Some (hex 16 (rip tf)).
Proof.
  pose proof (hex_chars 16 (rip tf)) as Hh. pose proof (length_hex 16 (rip tf)) as Hl.
  destruct (hex 16 (rip tf)) as [|c h] eqn:E; [done|]. apply Forall_cons in Hh as [Hc Hh].
  assert (Hs : isspace c = false).
  { unfold lower_hex, digit in Hc. unfold isspace. lia. }
  assert (Ht : take_while rip_char ((c :: h) ++ str " RSP: " ++ t) = c :: h).
  { apply (take_while_app rip_char (c :: h) 32); [|done]. apply (Forall_impl (λ x, lower_hex x = true)); [by constructor|].
    cbv beta. intros x Hx. unfold rip_char. by rewrite Hx. }
  set (r := (c :: h) ++ str " RSP: " ++ t) in *.
  change (match_rip (str "RIP: " ++ r)) with
    (match take_while rip_char (drop_while isspace r) with [] => None | g => Some g end).
  replace (drop_while isspace r) with r; [by rewrite Ht|]. unfold r. cbn [app drop_while]. by rewrite Hs.
Qed.

Lemma address_found : report_address (report_start ++ shown_body ++ report_end) = Some (str "0x" ++ hex 16 (rip tf)).
Proof.
  unfold report_address, shown_body. rewrite <- !app_assoc.
  replace (re_search _ _) with (Some (hex 16 (rip tf))).
  - cbn [mbind option_bind]. pose proof (length_hex 16 (rip tf)) as Hl. pose proof (hex_chars 16 (rip tf)) as Hh.
    destruct (hex 16 (rip tf)) as [|c [|d h]]; [done|done|]. apply Forall_cons in Hh as [_ [Hd _]%Forall_cons].
    replace (startswith (utf8 "0x") (c :: d :: h)) with false; [done|]. symmetry.
    change (utf8 "0x") with [48; 120]. cbn [startswith]. destruct (Z.eqb_spec 120 d) as [<-|]; [done|]. by rewrite andb_false_r.
  - assert (Hst : ∀ t, re_search match_rip (report_start ++ t) = re_search match_rip t) by reflexivity.
    rewrite Hst, re_search_skip by apply head_no_R. symmetry. unfold shown_tail.
    rewrite <- !app_assoc. apply re_search_here, match_rip_line.
Qed.
End report.

(** ** What the debugger asks *)

(** The console answers [b] for the text before the last expect. *)
Definition reads (b : text) (e : event) : Prop :=
  match e with Event (Before Qemu) (inr t) => t = b | _ => True end.

(** The lines to gdb are of the list [L]. *)
Definition sent (L : list text) (e : event) : Prop :=
  match e with Event (Sendline Gdb l) _ => l ∈ L | _ => True end.

Section sends.
Variables (b : text) (L : list text).

Definition sends {A} (m : py A) : Prop := wp (reads b) m (λ _ tr, Forall (sent L) tr).

Lemma sends_ret {A} (a : A) : sends (Ret a).
Proof. apply wp_ret. constructor. Qed.
Lemma sends_raise {A} e : sends (Raise (A:=A) e).
Proof. apply wp_raise. constructor. Qed.
Lemma sends_bind {A B} (m : py A) (f : A → py B) : sends m → (∀ a, sends (f a)) → sends (mbind f m).
Proof.
  intros Hm Hf. apply wp_bind. eapply wp_mono; [exact Hm|]. intros [e|a] tr H; [done|].
  eapply wp_mono; [apply Hf|]. cbv beta. intros _ tr' H'. by apply Forall_app.
Qed.
Lemma sends_act a : match a with Sendline Gdb l => l ∈ L | _ => True end → sends (act a).
Proof. intros Ha. apply wp_act. intros r _. constructor; [|constructor]. by destruct a. Qed.
Lemma sends_catch {A} (m : py A) : sends m → sends (catch m).
Proof. intros Hm. by apply wp_catch. Qed.
Lemma sends_plain {A} (m : py A) : plain m → sends m.
Proof. destruct m; [intros _; apply sends_ret|intros _; apply sends_raise|done]. Qed.
Lemma sends_try_any m h : sends m → sends h → sends (try_any m h).
Proof. intros Hm Hh. apply sends_bind; [by apply sends_catch|]. intros [e|[]]; [done|apply sends_ret]. Qed.
Lemma sends_try_except {A} (m : py A) h : sends m → (∀ e, sends (h e)) → sends (try_except m h).
Proof.
  intros Hm Hh. apply sends_bind; [by apply sends_catch|]. intros [e|a]; [|apply sends_ret].
  destruct (bool_decide _); [apply sends_raise|apply Hh].
Qed.
End sends.

(** One step through a program. *)
Ltac sends_step :=
  lazymatch goal with
  | |- sends _ _ (act ?a) => apply (sends_act _ _ a); try exact I
  | |- sends _ _ (Ret _) => apply sends_ret
  | |- sends _ _ (Raise _) => apply sends_raise
  | |- sends _ _ (raise_text _) => apply sends_raise
  | |- sends _ _ (mbind _ _) => apply sends_bind; [|intro]
  | |- sends _ _ (try_any _ _) => apply sends_try_any
  | |- sends _ _ (try_except _ _) => apply sends_try_except; [|intro]
  | |- sends _ _ (if ?x then _ else _) => destruct x
  | |- sends _ _ (let '(_, _) := ?r in _) => destruct r
  end.

Section commands.
Variables (API_KEY : text) (json_loads : text → option json) (repr : json → text) (decode_error : text → text) (type_error : json → text).
Variables (b : text) (L : list text).
Local Abbreviation sends := (sends b L).
Local Abbreviation get_gemini_analysis := (get_gemini_analysis API_KEY json_loads decode_error type_error).

Lemma sends_item j k : sends (item type_error j k).
Proof. apply sends_plain, plain_item. Qed.
Lemma sends_analysis d m : sends (get_gemini_analysis d m).
Proof.
  unfold Debugger.get_gemini_analysis. sends_step; [by sends_step|]. generalize 0%nat. generalize max_retries. intros k.
  induction k as [|k IH]; intros i; cbn [Debugger.try_all]; [sends_step|].
  sends_step; [|match goal with o : option json |- _ => destruct o end; [sends_step|apply IH]].
  unfold try_once. sends_step.
  - sends_step; [by sends_step|]. sends_step. sends_step; [repeat sends_step|].
    sends_step; [apply sends_plain, plain_analysis|sends_step].
  - unfold failed_attempt. repeat sends_step.
Qed.

Lemma sends_print_analysis j t : sends (print_user_analysis repr type_error j t).
Proof.
  pose proof sends_item as Hi.
  assert (Hp : ∀ l j k, sends (puts_item repr type_error l j k)) by (intros; unfold puts_item; sends_step; [apply Hi|by sends_step]).
  assert (Hg : ∀ j k d, sends (get_or repr type_error j k d)) by (intros [] ? ?; (apply sends_ret || apply sends_raise)).
  assert (Hk : ∀ j k, sends (has_key type_error j k)) by (intros j' k; unfold has_key; destruct (key_in _ _); [apply sends_ret|apply sends_raise]).
  assert (Hc : ∀ j, sends (clean_patch type_error j)) by (intros []; (apply sends_ret || apply sends_raise)).
  unfold print_user_analysis, save_patch. repeat first [sends_step|apply Hp|apply Hg|apply Hk|apply Hc|apply Hi].
Qed.

End commands.

(** The lines to gdb about a program that failed at address [a]. *)
Definition gdb_lines (test a : text) : list text :=
  [utf8 "c"; utf8 "file _" ++ test; utf8 "y"; utf8 "list *" ++ a; utf8 "disassemble " ++ a; utf8 "info symbol " ++ a].

Section user_run.
Variables (API_KEY : text) (json_loads : text → option json) (repr : json → text) (decode_error : text → text) (type_error : json → text).
Variables (b a test : text).
Hypothesis Ha : report_address (report_start ++ b ++ report_end) = Some a.
Local Abbreviation sends := (sends b (gdb_lines test a)).
Local Abbreviation run_user_debugger := (run_user_debugger API_KEY json_loads repr decode_error type_error).

Ltac gdb_line := apply (sends_act _ _ (Sendline _ _)); unfold gdb_lines; repeat (apply list_elem_of_here || apply list_elem_of_further).

Lemma sends_ask l : l ∈ gdb_lines test a → sends (gdb_ask l).
Proof.
  intros Hl. unfold gdb_ask, gdb_command. sends_step; [|repeat sends_step].
  sends_step; [by apply (sends_act _ _ (Sendline _ _))|repeat sends_step].
Qed.

Lemma sends_confirm k i : sends (confirm_prompts k i).
Proof.
  revert i. induction k as [|k IH]; intros i; cbn [confirm_prompts]; [sends_step|].
  sends_step; [by sends_step|]. sends_step; [|sends_step; [sends_step|sends_step; [by sends_step|apply IH]]].
  sends_step; [by sends_step|]. sends_step; [gdb_line|apply IH].
Qed.

Lemma sends_analyse : sends (analyse_report API_KEY json_loads decode_error type_error (report_start ++ b ++ report_end) test).
Proof.
  unfold analyse_report. rewrite Ha. do 3 (sends_step; [by sends_step|]).
  sends_step; [repeat sends_step|]. sends_step; [by sends_step|]. sends_step; [gdb_line|].
  sends_step; [apply sends_confirm|]. sends_step; [repeat sends_step|]. do 2 (sends_step; [by sends_step|]).
  sends_step; [apply sends_ask; unfold gdb_lines; set_solver|]. sends_step; [by sends_step|].
  do 2 (sends_step; [apply sends_ask; unfold gdb_lines; set_solver|]).
  cbv zeta. do 2 (sends_step; [by sends_step|]). apply sends_analysis.
Qed.

Lemma sends_user_run : sends (run_user_debugger test).
Proof.
  unfold Debugger.run_user_debugger. do 2 (sends_step; [by sends_step|]).
  assert (Hf : ∀ f l n, sends (test_field f l n)) by (intros; unfold test_field; destruct (find_test _ _); [apply sends_ret|apply sends_raise]).
  do 2 (sends_step; [sends_step; [apply Hf|by sends_step]|]).
  sends_step.
  { unfold wait_for_shell. sends_step; [by sends_step|]. sends_step; [gdb_line|]. repeat sends_step. }
  do 2 (sends_step; [by sends_step|]). sends_step; [|repeat sends_step].
  unfold watch_console. sends_step; [by sends_step|]. sends_step; [|repeat sends_step].
  do 2 (sends_step; [by sends_step|]). apply wp_bind, (wp_act _ (Before Qemu)). intros [e|t] Ht; [by constructor|].
  cbn [reads] in Ht. subst t. cbv zeta.
  match goal with |- wp _ ?m _ => assert (Hm : sends m) end.
  - do 2 (sends_step; [by sends_step|]). sends_step; [apply sends_analyse|apply sends_print_analysis].
  - eapply wp_mono; [exact Hm|]. cbv beta. intros _ tr Htr. by constructor.
Qed.
End user_run.

(** ** What the debugger asks when nothing fails *)

(** The actions do not fail, but for the service and the patch file, and the console shows what
    is expected of it. *)
Definition smooth (e : event) : Prop :=
  match e with
  | Event (Post _ _ _) _ | Event (Write_file _ _) _ => True
  | Event _ (inl _) => False
  | Event (Expect Qemu _ _) (inr i) => i = 0%nat
  | _ => True
  end.

(** The lines that gdb gets, in order, without the confirmations. *)
Definition gdb_asked (tr : list event) : list text :=
  tr ≫= λ e, match e with Event (Sendline Gdb l) _ => if bool_decide (l = utf8 "y") then [] else [l] | _ => [] end.

Lemma gdb_asked_app tr tr' : gdb_asked (tr ++ tr') = gdb_asked tr ++ gdb_asked tr'.
Proof. apply bind_app. Qed.

Lemma wp_weaken {A} (ok ok' : event → Prop) (m : py A) Q : (∀ e, ok' e → ok e) → wp ok m Q → wp ok' m Q.
Proof. intros H Hm tr out Hr Ho. apply Hm; [done|]. by eapply Forall_impl. Qed.

Section asks.
Variable b : text.
Definition calm_console (e : event) : Prop := reads b e ∧ smooth e.

(** A program that sends [l] to gdb, whatever it ends in; and one that also ends normally. *)
Definition tells {A} (m : py A) (l : list text) : Prop := wp calm_console m (λ _ tr, gdb_asked tr = l).
Definition asks {A} (m : py A) (l : list text) : Prop :=
  wp calm_console m (λ out tr, (∃ a, out = inr a) ∧ gdb_asked tr = l).

Lemma asks_tells {A} (m : py A) l : asks m l → tells m l.
Proof. intros H. eapply wp_mono; [exact H|]. by intros out tr [_ ?]. Qed.
Lemma asks_ret {A} (a : A) : asks (Ret a) [].
Proof. apply wp_ret. split; [by eexists|done]. Qed.
Lemma asks_bind {A B} (m : py A) (f : A → py B) l l' : asks m l → (∀ a, asks (f a) l') → asks (mbind f m) (l ++ l').
Proof.
  intros Hm Hf. apply wp_bind. eapply wp_mono; [exact Hm|]. intros out tr [(a & ->) <-].
  eapply wp_mono; [apply Hf|]. cbv beta. intros out tr' [Ho <-]. by rewrite gdb_asked_app.
Qed.
Lemma tells_bind {A B} (m : py A) (f : A → py B) l l' : asks m l → (∀ a, tells (f a) l') → tells (mbind f m) (l ++ l').
Proof.
  intros Hm Hf. apply wp_bind. eapply wp_mono; [exact Hm|]. intros out tr [(a & ->) <-].
  eapply wp_mono; [apply Hf|]. cbv beta. intros out' tr' <-. by rewrite gdb_asked_app.
Qed.

Lemma tells_after {A B} (m : py A) (f : A → py B) l : tells m l → (∀ a, tells (f a) []) → tells (mbind f m) l.
Proof.
  intros Hm Hf. apply wp_bind. eapply wp_mono; [exact Hm|]. intros [e|a] tr <-; [done|].
  eapply wp_mono; [apply Hf|]. cbv beta. intros out' tr' E. by rewrite gdb_asked_app, E, app_nil_r.
Qed.

Lemma asks_act a :
  match a with Post _ _ _ | Write_file _ _ => False | _ => True end →
  asks (act a) (match a with Sendline Gdb l => if bool_decide (l = utf8 "y") then [] else [l] | _ => [] end).
Proof.
  intros Ha. apply wp_act. intros [e|x] [_ Hs]; [destruct a; try done; by destruct c|]. split; [by eexists|].
  unfold gdb_asked. cbn. by rewrite app_nil_r.
Qed.
Lemma asks_try_any m h : asks m [] → asks h [] → asks (try_any m h) [].
Proof.
  intros Hm Hh. apply (asks_bind _ _ [] []).
  - apply wp_catch. eapply wp_mono; [exact Hm|]. intros out tr [_ H]. split; [by eexists|done].
  - intros [e|[]]; [done|apply asks_ret].
Qed.
Lemma tells_try_except {A} (m : py A) h l : tells m l → (∀ e, tells (h e) []) → tells (try_except m h) l.
Proof.
  intros Hm Hh. apply wp_bind, wp_catch. eapply wp_mono; [exact Hm|]. intros out tr <-. 
  assert (Ht : tells (match out with inl e => if bool_decide (e_kind e = Interrupt) then Raise e else h e | inr a => Ret a end) []).
  { destruct out as [e|x]; [destruct (bool_decide _); [by apply wp_raise|apply Hh]|by apply wp_ret]. }
  eapply wp_mono; [exact Ht|]. cbv beta. intros out' tr' E. by rewrite gdb_asked_app, E, app_nil_r.
Qed.

(** What sends no line at all. *)
Lemma tells_nothing {A} (m : py A) : sends b [] m → tells m [].
Proof.
  intros H. apply (wp_weaken (reads b)); [by intros e []|]. eapply wp_mono; [exact H|]. cbv beta. intros _ tr Htr.
  induction Htr as [|e tr He Htr IH]; [done|]. unfold gdb_asked in *. cbn [mbind list_bind]. rewrite IH, app_nil_r.
  destruct e as [[] r]; try done. destruct c; [by apply not_elem_of_nil in He|done].
Qed.
End asks.

(** One step of a program that ends normally. *)
Ltac asks_step :=
  lazymatch goal with
  | |- asks _ (act ?a) _ => exact (asks_act _ a I)
  | |- asks _ (Ret _) _ => apply asks_ret
  | |- asks _ (try_any _ _) _ => apply asks_try_any
  | |- asks _ (mbind _ _) [] => apply (asks_bind _ _ _ [] []); [|intro]
  end.

Section asked.
Variables (API_KEY : text) (json_loads : text → option json) (repr : json → text) (decode_error : text → text) (type_error : json → text).
Variables (b a test : text).
Hypothesis Ha : report_address (report_start ++ b ++ report_end) = Some a.
Local Abbreviation asks := (asks b).
Local Abbreviation tells := (tells b).

(** The questions about the address, in their order. *)
Definition questions : list text := [utf8 "list *" ++ a; utf8 "disassemble " ++ a; utf8 "info symbol " ++ a].

Lemma asks_ask l : l ≠ utf8 "y" → asks (gdb_ask l) [l].
Proof.
  intros Hl. unfold gdb_ask, gdb_command. apply (asks_bind _ _ _ [l] []).
  - apply (asks_bind _ _ _ [l] []); [|intros _; repeat asks_step].
    pose proof (asks_act b (Sendline Gdb l) I) as H. cbv beta iota in H. by rewrite bool_decide_eq_false_2 in H.
  - intros _. repeat asks_step.
Qed.

Lemma asks_confirm k i : asks (confirm_prompts k i) [].
Proof.
  revert i. induction k as [|k IH]; intros i; cbn [confirm_prompts]; [asks_step|]. asks_step; [asks_step|].
  destruct (_ || _); [|destruct (_ =? 2)%nat; [asks_step|destruct (_ =? 3)%nat; [asks_step|apply IH]]].
  asks_step; [asks_step|]. asks_step; [|apply IH]. exact (asks_act b (Sendline Gdb (utf8 "y")) I).
Qed.

Lemma tells_quiet {A B} (m : py A) (f : A → py B) l : asks m [] → (∀ x, tells (f x) l) → tells (mbind f m) l.
Proof. apply (tells_bind b m f []). Qed.

Lemma tells_analysis d m : tells (get_gemini_analysis API_KEY json_loads decode_error type_error d m) [].
Proof. apply tells_nothing, sends_analysis. Qed.

Lemma tells_analyse :
  tells (analyse_report API_KEY json_loads decode_error type_error (report_start ++ b ++ report_end) test)
    ((utf8 "file _" ++ test) :: questions).
Proof.
  unfold analyse_report. rewrite Ha. do 3 (apply tells_quiet; [asks_step|intro]).
  apply tells_quiet; [repeat asks_step|intro]. apply tells_quiet; [asks_step|intro].
  apply (tells_bind b _ _ [utf8 "file _" ++ test] questions); [exact (asks_act b (Sendline Gdb (utf8 "file _" ++ test)) I)|intro].
  apply tells_quiet; [apply asks_confirm|intro]. apply tells_quiet; [repeat asks_step|intro].
  do 2 (apply tells_quiet; [asks_step|intro]).
  apply (tells_bind b _ _ [_] (drop 1 questions)); [by apply asks_ask|intro]. apply tells_quiet; [asks_step|intro].
  do 2 (apply (tells_bind b _ _ [_] _); [by apply asks_ask|intro]). cbv zeta.
  do 2 (apply tells_quiet; [asks_step|intro]). apply tells_analysis.
Qed.

Lemma tells_watch : tells (watch_console API_KEY json_loads repr decode_error type_error test) ((utf8 "file _" ++ test) :: questions).
Proof.
  unfold watch_console. apply wp_bind, (wp_act _ (Expect Qemu _ _)). intros [e|i] [_ Hi]; [done|]. cbn [smooth] in Hi. subst i.
  cbn [Nat.eqb]. eapply wp_mono; [|cbv beta; intros out tr H; exact H].
  do 2 (apply tells_quiet; [asks_step|intro]).
  apply wp_bind, (wp_act _ (Before Qemu)). intros [e|t] [Ht Hs]; [done|]. cbn [reads] in Ht. subst t. cbv zeta.
  eapply wp_mono; [|cbv beta; intros out tr H; exact H].
  do 2 (apply tells_quiet; [asks_step|intro]).
  apply tells_after; [apply tells_analyse|]. intros j. apply tells_nothing, sends_print_analysis.
Qed.

(** The whole run. *)
Lemma tells_user_run :
  find_test test USER_TESTS ≠ None →
  tells (run_user_debugger API_KEY json_loads repr decode_error type_error test) (utf8 "c" :: (utf8 "file _" ++ test) :: questions).
Proof.
  intros Htest. unfold run_user_debugger, test_field. destruct (find_test test USER_TESTS); [|done].
  do 2 (apply tells_quiet; [asks_step|intro]). do 2 (apply tells_quiet; [repeat asks_step|intro]).
  apply (tells_bind b _ _ [utf8 "c"]); [|intro; do 2 (apply tells_quiet; [asks_step|intro])].
  - unfold wait_for_shell. apply (asks_bind b _ _ [] [_]); [asks_step|intro].
    apply (asks_bind b _ _ [_] []); [exact (asks_act b (Sendline Gdb (utf8 "c")) I)|intro]. repeat asks_step.
  - apply tells_try_except; [apply tells_watch|]. intros e. apply asks_tells. repeat asks_step.
Qed.
End asked.

(** ** The kernel and the debugger together *)
Lemma report_start_mark : ∃ m, report_start = 61 :: m.
Proof. exists (drop 1 report_start). vm_compute. reflexivity. Qed.
Lemma report_end_mark : ∃ m, report_end = 61 :: m.
Proof. exists (drop 1 report_end). vm_compute. reflexivity. Qed.

Lemma bytes_str s : bytes_ok (str s).
Proof.
  unfold str. apply Forall_fmap, Forall_forall. intros c _. unfold is_byte. cbn.
  pose proof (Ascii.N_ascii_bounded c). lia.
Qed.
Lemma bytes_hex k x : bytes_ok (hex k x).
Proof. eapply Forall_impl; [apply hex_chars|]. cbv beta. intros c Hc. unfold lower_hex, digit in Hc. unfold is_byte. lia. Qed.
Lemma bytes_num v : bytes_ok (num v).
Proof. eapply Forall_impl; [apply num_chars|]. cbv beta. intros c [Hc| ->]; unfold digit, is_byte in *; lia. Qed.

Lemma report_bytes cpu cr2 p tf : bytes_ok (chars (p_name p)) → bytes_ok (report_text p tf ++ killed_line cpu cr2 p tf).
Proof.
  intros Hn. unfold report_text, report_body, process_line, trap_line, rip_line, rax_line, rdi_line, killed_line.
  repeat match goal with |- Forall _ (_ ++ _) => apply Forall_app_2 end;
    first [apply bytes_str|apply bytes_hex|apply bytes_num|exact Hn|by repeat constructor].
Qed.

(** C7: the debugger finds the fault.  When a user program faults, the kernel prints a crash
    report on the serial port.  Take a debugger that reads the console up to the marks of the
    report, however newlines are shown there.  In a run in which gdb and the console answer,
    it starts the machine, loads the program, and then asks gdb for the source, the
    instructions and the function at exactly the address of the fault, in this order.  In
    every run, also one in which actions fail, it sends gdb no other line, but for the
    confirmations.  The name of the process must have no newline and no = or R, which start
    the marks. *)
Theorem crash_source_found cpu cr2 ideintr kbdintr uartintr tf s i p :
  can_print s → uart (d_serial (c_dev (k_core s))) = true →
  c_cur (k_core s) = Some i → c_procs (k_core s) !! i = Some p →
  0 ≤ trapno tf < T_IRQ0 → Z.land (cs tf) 3 ≠ 0 → name_ok (chars (p_name p)) → bytes_ok (chars (p_name p)) →
  let a := str "0x" ++ hex 16 (rip tf) in
  of_hex (hex 16 (rip tf)) = u64 (rip tf) ∧
  ∃ s' t, trap_dispatch cpu cr2 ideintr kbdintr uartintr tf s = Done tt s' ∧
    com_out (d_serial (c_dev (k_core s'))) = com_out (d_serial (c_dev (k_core s))) ++ ((λ b, (COM1, b)) <$> t) ∧
    ∀ nl seen, blank nl → 61 ∉ seen →
      ∃ before rest b rest',
        until report_start (seen ++ shown nl t) = Some (before, rest) ∧ until report_end rest = Some (b, rest') ∧
        ∀ API_KEY json_loads repr decode_error type_error test tr out,
          run (run_user_debugger API_KEY json_loads repr decode_error type_error test) tr out → Forall (reads b) tr →
          (∀ l r, Event (Sendline Gdb l) r ∈ tr → l ∈ gdb_lines test a) ∧
          (find_test test USER_TESTS ≠ None → Forall smooth tr →
           gdb_asked tr = [utf8 "c"; utf8 "file _" ++ test; utf8 "list *" ++ a; utf8 "disassemble " ++ a; utf8 "info symbol " ++ a]).
Proof.
  intros Hs Hu Hcur Hp Htrap Hcs Hname Hbytes a. split; [by rewrite of_hex_hex|].
  destruct (trap_reports cpu cr2 ideintr kbdintr uartintr tf s i p Hs Hcur Hp Htrap Hcs) as (s' & E & ->).
  eexists _, _. split; [exact E|]. split; [apply put_chars_serial; [done|by apply report_bytes]|].
  intros nl seen Hnl Hseen. rewrite (shown_marks nl p tf Hname), app_assoc.
  exists (seen ++ nl). eexists _, (shown_body nl p tf), _. split; [|split].
  - apply until_mark; [|apply not_elem_of_app; split; [done|by apply blank_not_in]]. exact report_start_mark.
  - apply until_mark; [exact report_end_mark|by apply body_no_equals].
  - intros key loads repr derr terr test tr out Hrun Hr. split.
    + pose proof (sends_user_run key loads repr derr terr _ _ test (address_found nl p tf Hnl Hname) tr out Hrun Hr) as H.
      rewrite Forall_forall in H. intros l r Hl. exact (H _ Hl).
    + intros Htest Hsm. apply (tells_user_run key loads repr derr terr _ _ test (address_found nl p tf Hnl Hname) Htest tr out Hrun).
      apply Forall_forall. intros e He. rewrite Forall_forall in Hr, Hsm. split; [by apply Hr|by apply Hsm].
Qed.

(** A run in which every action gets the answer of [ans]. *)
Lemma run_answered {A} (ans : ∀ a, exn + answer a) (m : py A) :
  ∃ tr out, run m tr out ∧ Forall (λ e, ev_answer e = ans (ev_act e)) tr.
Proof.
  induction m as [a|e|a k IH].
  - by exists [], (inr a).
  - by exists [], (inl e).
  - destruct (IH (ans a)) as (tr & out & Hr & Hf). exists (Event a (ans a) :: tr), out. split; [by exists (ans a), tr|].
    by constructor.
Qed.

(** A console that shows [b], a gdb that gives its prompt, and a service that fails. *)
Definition answers (b : text) (a : action) : exn + answer a :=
  match a with
  | Subprocess _ => inr (0, [])
  | Choice _ | After _ | Before Gdb => inr []
  | Expect _ _ _ => inr 0%nat
  | Before Qemu => inr b
  | Isalive _ => inr true
  | Post _ _ _ => inr (500, [])
  | Puts _ | Sleep_ms _ | Open_log _ | Close_log | Spawn _ _ _ | Send _ _ | Sendline _ _ | Close _ _ | Write_file _ _ | Traceback => inr tt
  end.

Lemma answers_ok b e : ev_answer e = answers b (ev_act e) → reads b e ∧ smooth e.
Proof. destruct e as [[] r]; cbn [ev_answer ev_act]; intros ->; try done; by destruct c. Qed.

(** The program of the sample kernel, named user_crash, divides by zero. *)
Definition crash_proc : proc :=
  Proc 8192 (KERNBASE + 0x200000) (KERNBASE + 0x300000) RUNNING 3 None trapframe0 Ch_null false [] None (str "user_crash" ++ replicate 6 0).
Definition crash_kstate : kstate :=
  sample_kernel (Core [] [crash_proc] (Some 0%nat) (set_serial (Serial true [] []) (consoleinit devices0))) (KMem false 0 (λ _, inhabitant)) [].
Definition crash_frame : trapframe := Trapframe 10 0 0 0 8144 0 1 0 0 0 0 0 0 0 0 0 0 4146 35 514 8112 43.

Lemma crash_source_found_witness :
  ∃ s' t, trap_dispatch 0 0 (ret tt) (ret tt) (ret tt) crash_frame crash_kstate = Done tt s' ∧
    of_hex (hex 16 (rip crash_frame)) = 4146 ∧
    ∃ before rest b rest' tr out,
      until report_start (str "$ " ++ shown [13; 10] t) = Some (before, rest) ∧ until report_end rest = Some (b, rest') ∧
      run (run_user_debugger [] (λ _, None) (λ _, []) (λ t, t) (λ _, []) (utf8 "user_crash")) tr out ∧ Forall (reads b) tr ∧
      gdb_asked tr = [utf8 "c"; utf8 "file _user_crash"; utf8 "list *0x0000000000001032"; utf8 "disassemble 0x0000000000001032";
                      utf8 "info symbol 0x0000000000001032"].
Proof.
  destruct (crash_source_found 0 0 (ret tt) (ret tt) (ret tt) crash_frame crash_kstate 0 crash_proc)
    as (Hv & s' & t & E & _ & H).
  - split; [reflexivity|apply not_elem_of_nil].
  - reflexivity.
  - reflexivity.
  - reflexivity.
  - split; reflexivity || done.
  - discriminate.
  - split; by apply (bool_decide_unpack _).
  - by apply (bool_decide_unpack _).
  - exists s', t. split; [exact E|]. split; [exact Hv|].
    destruct (H [13; 10] (str "$ ")) as (before & rest & b & rest' & H1 & H2 & H3).
    + by repeat constructor.
    + by apply (bool_decide_unpack _).
    + destruct (run_answered (answers b) (run_user_debugger [] (λ _, None) (λ _, []) (λ t, t) (λ _, []) (utf8 "user_crash")))
        as (tr & out & Hr & Hf).
      exists before, rest, b, rest', tr, out. split; [exact H1|]. split; [exact H2|]. split; [exact Hr|].
      assert (Hreads : Forall (reads b) tr) by (eapply Forall_impl; [exact Hf|]; intros e He; apply (answers_ok b e He)).
      split; [exact Hreads|]. apply (H3 _ _ _ _ _ _ _ _ Hr Hreads); [by vm_compute|].
      eapply Forall_impl; [exact Hf|]. intros e He. apply (answers_ok b e He).
Defined.
