(* ===== verification/Ide.v ===== *)
(** * The disk driver: ide.c

    The queue of buffers linked through [qnext], the commands to the controller and the
    interrupt that ends each of them.  The controller is what answers at its ports; what
    the driver relies on is in [DriveLaws]. *)

From S2P Require Import Prelude Params Devices Core Bio Console.

Definition SECTOR_SIZE : Z := 512.
Definition IDE_BSY : Z := 0x80.
Definition IDE_DRDY : Z := 0x40.
Definition IDE_DF : Z := 0x20.
Definition IDE_ERR : Z := 0x01.

Definition IDE_CMD_READ : Z := 0x20.
Definition IDE_CMD_WRITE : Z := 0x30.
Definition IDE_CMD_RDMUL : Z := 0xc4.
Definition IDE_CMD_WRMUL : Z := 0xc5.

(** The instructions for ports, as the controller answers them: bytes, and 32-bit words given
    as their bytes. *)
Class Drive (ctl : Type) := {
  outb : Z → Z → ctl → ctl;
  inb : Z → ctl → Z * ctl;
  outsl : Z → list Z → ctl → ctl;
  insl : Z → nat → ctl → list Z * ctl
}.

(** The buffers and their [qnext], idequeue, havedisk1 and the controller. *)
Record istate (ctl : Type) := IState {
  is_core : core;
  is_buf : list buf;
  is_qnext : nat → option nat;
  is_queue : option nat;
  is_have1 : bool;
  is_ctl : ctl
}.
Arguments IState {ctl}.
Arguments is_core {ctl}.
Arguments is_buf {ctl}.
Arguments is_qnext {ctl}.
Arguments is_queue {ctl}.
Arguments is_have1 {ctl}.
Arguments is_ctl {ctl}.

Section ide.
Context {ctl : Type} `{Drive ctl}.
Local Abbreviation ist := (istate ctl).

Definition i_core (c : core) (s : ist) : ist := IState c (is_buf s) (is_qnext s) (is_queue s) (is_have1 s) (is_ctl s).
Definition i_buf (b : list buf) (s : ist) : ist := IState (is_core s) b (is_qnext s) (is_queue s) (is_have1 s) (is_ctl s).
Definition i_qnext (i : nat) (x : option nat) (s : ist) : ist :=
  IState (is_core s) (is_buf s) (λ j, if (j =? i)%nat then x else is_qnext s j) (is_queue s) (is_have1 s) (is_ctl s).
Definition i_queue (q : option nat) (s : ist) : ist := IState (is_core s) (is_buf s) (is_qnext s) q (is_have1 s) (is_ctl s).
Definition i_have1 (b : bool) (s : ist) : ist := IState (is_core s) (is_buf s) (is_qnext s) (is_queue s) b (is_ctl s).
Definition i_ctl (c : ctl) (s : ist) : ist := IState (is_core s) (is_buf s) (is_qnext s) (is_queue s) (is_have1 s) c.

Definition ibuf (s : ist) (i : nat) : buf := is_buf s !!! i.
Definition upd_ibuf (i : nat) (f : buf → buf) (s : ist) : ist := i_buf (alter f i (is_buf s)) s.
Definition ide_core {A} (m : K core A) : K ist A := zoom is_core i_core m.
Definition ide_lock {A} (i : nat) (m : K (sleeplock * core) A) : K ist A :=
  zoom (λ s, (b_lock (ibuf s i), is_core s)) (λ t s, i_core (snd t) (upd_ibuf i (set_lock (fst t)) s)) m.

Definition port_out (p v : Z) : K ist unit := modify (λ s, i_ctl (outb p v (is_ctl s)) s).
Definition port_in (p : Z) : K ist Z := λ s, let '(v, c) := inb p (is_ctl s) in Done v (i_ctl c s).

(** The drive answers within this number of polls. *)
Variable polls : nat.

(** The loop of idewait: the status that ends it. *)
Fixpoint idewait_loop (fuel : nat) : K ist Z :=
  r <- port_in 0x1f7;;
  if Z.land r (Z.lor IDE_BSY IDE_DRDY) =? IDE_DRDY then ret r
  else match fuel with O => panic "idewait: not ready" | S fuel => idewait_loop fuel end.

Definition idewait (checkerr : bool) : K ist Z :=
  r <- idewait_loop polls;;
  ret (if checkerr && negb (Z.land r (Z.lor IDE_DF IDE_ERR) =? 0) then -1 else 0).

(** The loop of ideinit. *)
Fixpoint probe_disk1 (n : nat) : K ist unit :=
  match n with
  | O => ret tt
  | S n =>
      r <- port_in 0x1f7;;
      if negb (r =? 0) then modify (i_have1 true) else probe_disk1 n
  end.

Definition ideinit (ncpu : Z) : K ist unit :=
  ide_core (in_dev (modify (λ d, set_ioapic (ioapicenable IRQ_IDE (ncpu - 1) (d_ioapic d)) d))) ;;;
  idewait false ;;;
  port_out 0x1f6 (Z.lor 0xe0 (Z.shiftl 1 4)) ;;;
  probe_disk1 1000 ;;;
  port_out 0x1f6 (Z.lor 0xe0 (Z.shiftl 0 4)).

(** For a buffer; the null pointer is [None]. *)
Definition idestart (b : option nat) : K ist unit :=
  match b with
  | None => panic "idestart"
  | Some i =>
      b <- gets (λ s, ibuf s i);;
      if FSSIZE <=? b_blockno b then panic "incorrect blockno" else
      let sector_per_block := BSIZE / SECTOR_SIZE in
      let sector := s32 (b_blockno b * sector_per_block) in
      let read_cmd := if sector_per_block =? 1 then IDE_CMD_READ else IDE_CMD_RDMUL in
      let write_cmd := if sector_per_block =? 1 then IDE_CMD_WRITE else IDE_CMD_WRMUL in
      if 7 <? sector_per_block then panic "idestart" else
      idewait false ;;;
      port_out 0x3f6 0 ;;;
      port_out 0x1f2 sector_per_block ;;;
      port_out 0x1f3 (Z.land sector 0xff) ;;;
      port_out 0x1f4 (Z.land (Z.shiftr sector 8) 0xff) ;;;
      port_out 0x1f5 (Z.land (Z.shiftr sector 16) 0xff) ;;;
      port_out 0x1f6 (Z.lor (Z.lor 0xe0 (Z.shiftl (Z.land (b_dev b) 1) 4)) (Z.land (Z.shiftr sector 24) 0x0f)) ;;;
      if tst (b_flags b) B_DIRTY then
        port_out 0x1f7 write_cmd ;;;
        modify (λ s, i_ctl (outsl 0x1f0 (b_data b) (is_ctl s)) s)
      else port_out 0x1f7 read_cmd
  end.

Definition ide_insl (i : nat) : K ist unit := λ s,
  let '(d, c) := insl 0x1f0 (Z.to_nat BSIZE) (is_ctl s) in
  Done tt (upd_ibuf i (set_data d) (i_ctl c s)).

(** The middle of the interrupt handler: the data of a read, the flags and the wakeup. *)
Definition finish_request (b : nat) : K ist unit :=
  x <- gets (λ s, ibuf s b);;
  (if tst (b_flags x) B_DIRTY then ret tt
   else
     r <- idewait true;;
     if 0 <=? r then ide_insl b else ret tt) ;;;
  modify (upd_ibuf b (λ x, set_flags (Z.lor (b_flags x) B_VALID) x)) ;;;
  modify (upd_ibuf b (λ x, set_flags (Z.land (b_flags x) (Z.lnot B_DIRTY)) x)) ;;;
  ide_core (wakeup (Ch_buf b)).

Definition ideintr : K ist unit :=
  ide_core (acquire Lk_ide) ;;;
  q <- gets is_queue;;
  match q with
  | None => ide_core (release Lk_ide)
  | Some b =>
      modify (λ s, i_queue (is_qnext s b) s) ;;;
      finish_request b ;;;
      q <- gets is_queue;;
      match q with Some _ => idestart q | None => ret tt end ;;;
      ide_core (release Lk_ide)
  end.

(** The pointer to the pointer that is null: [None] is &idequeue, [Some i] the qnext of
    buffer [i]. *)
Definition deref (pp : option nat) (s : ist) : option nat :=
  match pp with None => is_queue s | Some i => is_qnext s i end.
Definition store_pp (pp : option nat) (b : nat) (s : ist) : ist :=
  match pp with None => i_queue (Some b) s | Some i => i_qnext i (Some b) s end.
Fixpoint queue_end (fuel : nat) (pp : option nat) (s : ist) : option (option nat) :=
  match deref pp s with
  | None => Some pp
  | Some j => match fuel with O => None | S fuel => queue_end fuel (Some j) s end
  end.

(** From the [while] on; a process woken from the sleep comes back here. *)
Definition iderw_loop (i : nat) : K ist unit :=
  b <- gets (λ s, ibuf s i);;
  if negb (Z.land (b_flags b) (Z.lor B_VALID B_DIRTY) =? B_VALID)
  then ide_core (sleep (Ch_buf i) Lk_ide)
  else ide_core (release Lk_ide).

Definition iderw (i : nat) : K ist unit :=
  h <- ide_lock i (holdingsleep (SL_buf i));;
  if negb h then panic "iderw: buf not locked" else
  b <- gets (λ s, ibuf s i);;
  if Z.land (b_flags b) (Z.lor B_VALID B_DIRTY) =? B_VALID
  then panic "iderw: nothing to do" else
  have1 <- gets is_have1;;
  if negb (b_dev b =? 0) && negb have1 then panic "iderw: ide disk 1 not present" else
  ide_core (acquire Lk_ide) ;;;
  modify (i_qnext i None) ;;;
  pp <- gets (λ s, queue_end (length (is_buf s)) None s);;
  match pp with
  | None => panic "iderw: fuel"
  | Some pp =>
      modify (store_pp pp i) ;;;
      q <- gets is_queue;;
      (if bool_decide (q = Some i) then idestart (Some i) else ret tt) ;;;
      iderw_loop i
  end.
End ide.
