(* ===== verification/IdeTheorems.v ===== *)
(** * The disk driver serves its requests in order

    What the driver needs of the controller, the queue as a list, and that requests are
    served one after the other in the order in which they are made: the driver is an
    array of blocks, and no request waits for ever. *)

From S2P Require Import Prelude Params Devices Core Bio BioSpec Ide.

(** ** The controller *)
Section command.
Context {ctl : Type} `{Drive ctl}.

(** Waiting for the drive. *)
Fixpoint poll (fuel : nat) (c : ctl) : option (Z * ctl) :=
  let '(r, c) := inb 0x1f7 c in
  if Z.land r (Z.lor IDE_BSY IDE_DRDY) =? IDE_DRDY then Some (r, c)
  else match fuel with O => None | S fuel => poll fuel c end.

(** The registers for one sector of drive [d]. *)
Definition regs (d sector : Z) (c : ctl) : ctl :=
  outb 0x1f6 (Z.lor (Z.lor 0xe0 (Z.shiftl d 4)) (Z.land (Z.shiftr sector 24) 0x0f))
  (outb 0x1f5 (Z.land (Z.shiftr sector 16) 0xff) (outb 0x1f4 (Z.land (Z.shiftr sector 8) 0xff)
  (outb 0x1f3 (Z.land sector 0xff) (outb 0x1f2 1 c)))).

(** With interrupts enabled in the device control register. *)
Definition select (d sector : Z) (c : ctl) : ctl := regs d sector (outb 0x3f6 0 c).
End command.

(** The documented behaviour that the driver relies on.  The drive becomes ready, and its status
    then shows whether the command has failed.  A read command that has not failed makes the
    sector readable at the data port; a write command and its data change no other sector,
    and have changed the sector if the command has not failed. *)
Class DriveLaws (ctl : Type) {Dr : Drive ctl} := {
  dr_polls : nat;
  dr_disk : ctl → Z → Z → block;
  dr_reading : ctl → option (Z * Z);
  dr_fault : ctl → bool;
  dr_ready c : ∃ r c', poll dr_polls c = Some (r, c') ∧ (Z.land r (Z.lor IDE_DF IDE_ERR) =? 0) = negb (dr_fault c) ∧
    (∀ d s, dr_disk c' d s = dr_disk c d s) ∧ dr_reading c' = dr_reading c ∧ dr_fault c' = dr_fault c;
  dr_read c d s : 0 ≤ d < 2 → 0 ≤ s < 2 ^ 28 →
    let c' := outb 0x1f7 IDE_CMD_READ (regs d s c) in
    dr_reading c' = Some (d, s) ∧ ∀ d' s', dr_disk c' d' s' = dr_disk c d' s';
  dr_control c d s : dr_disk (outb 0x3f6 0 c) d s = dr_disk c d s;
  dr_insl c d s : dr_reading c = Some (d, s) → dr_fault c = false →
    ∃ c', insl 0x1f0 512 c = (dr_disk c d s, c') ∧ ∀ d' s', dr_disk c' d' s' = dr_disk c d' s';
  dr_write c d s x : 0 ≤ d < 2 → 0 ≤ s < 2 ^ 28 → length x = 512%nat →
    let c' := outsl 0x1f0 x (outb 0x1f7 IDE_CMD_WRITE (select d s c)) in
    (dr_fault c' = false → dr_disk c' d s = x) ∧
    ∀ d' s', ¬ (d' = d ∧ s' = s) → dr_disk c' d' s' = dr_disk c d' s'
}.

(** A drive on which no command fails. *)
Class Faultless (ctl : Type) {Dr : Drive ctl} {Laws : DriveLaws ctl} := no_fault c : dr_fault c = false.

(** ** Requests *)
Section requests.
Context {ctl : Type} {Dr : Drive ctl} {Laws : DriveLaws ctl}.
Local Abbreviation ist := (istate ctl).
Local Abbreviation ideintr := (ideintr dr_polls).
Local Abbreviation iderw := (iderw dr_polls).
Local Abbreviation idestart := (idestart dr_polls).

Definition contents : Type := Z → Z → block.
Definition drive_of (b : buf) : Z := Z.land (b_dev b) 1.
Definition dirty (b : buf) : bool := tst (b_flags b) B_DIRTY.

(** Whether a request writes this sector. *)
Definition writes_at (b : buf) (d s : Z) : bool := dirty b && ((d =? drive_of b) && (s =? b_blockno b)).

(** The disk after a request that has not failed. *)
Definition served (b : buf) (D : contents) : contents := λ d s, if writes_at b d s then b_data b else D d s.

(** The disk before and after a request: a write that fails leaves anything in its sector. *)
Definition effect (b : buf) (fault : bool) (D D' : contents) : Prop :=
  ∀ d s, if writes_at b d s then fault = false → D' d s = b_data b else D' d s = D d s.

(** The data in the buffer: a read that fails leaves what was there. *)
Definition result (b : buf) (fault : bool) (D : contents) : block :=
  if dirty b || fault then b_data b else D (drive_of b) (b_blockno b).

(** A buffer that needs the disk. *)
Record request_ok (b : buf) : Prop := {
  rq_flags : Z.land (b_flags b) (Z.lor B_VALID B_DIRTY) ≠ B_VALID;
  rq_block : 0 ≤ b_blockno b < FSSIZE;
  rq_data : length (b_data b) = 512%nat
}.

Lemma drive_range b : 0 ≤ drive_of b < 2.
Proof. unfold drive_of. change 1 with (Z.ones 1). rewrite Z.land_ones by lia. apply Z.mod_pos_bound. lia. Qed.

Lemma idewait_ok chk s : ∃ c', idewait dr_polls chk s = Done (if chk && dr_fault (is_ctl s) then -1 else 0) (i_ctl c' s) ∧
  (∀ d x, dr_disk c' d x = dr_disk (is_ctl s) d x) ∧ dr_reading c' = dr_reading (is_ctl s) ∧ dr_fault c' = dr_fault (is_ctl s).
Proof.
  destruct (dr_ready (is_ctl s)) as (r & c' & Hp & Hr & HD & HR & HF). exists c'. split; [|done].
  assert (Hl : ∀ fuel s, poll fuel (is_ctl s) = Some (r, c') → idewait_loop fuel s = Done r (i_ctl c' s)).
  { clear. induction fuel as [|fuel IH]; intros s; cbn [poll idewait_loop]; unfold bind, port_in;
      destruct (inb 0x1f7 (is_ctl s)) as [v c]; destruct (_ =? _).
    - by intros [= -> ->].
    - done.
    - by intros [= -> ->].
    - intros E. rewrite (IH (i_ctl c s) E). done. }
  unfold idewait. by rewrite (bind_done _ _ _ _ _ (Hl _ _ Hp)), Hr, negb_involutive.
Qed.

(** The drive works on the buffer: a write is on the disk or has failed, a read can be taken. *)
Definition started (c : ctl) (b : buf) : Prop :=
  if dirty b then True else dr_reading c = Some (drive_of b, b_blockno b).

Lemma idestart_ok i s :
  request_ok (ibuf s i) →
  ∃ c', idestart (Some i) s = Done tt (i_ctl c' s) ∧ started c' (ibuf s i) ∧
    effect (ibuf s i) (dr_fault c') (dr_disk (is_ctl s)) (dr_disk c').
Proof.
  intros [_ Hb Hd]. set (b := ibuf s i) in *. pose proof (drive_range b) as Hdr.
  destruct (idewait_ok false s) as (c1 & E & HD & _).
  assert (Hs : s32 (b_blockno b * (BSIZE / SECTOR_SIZE)) = b_blockno b).
  { change (BSIZE / SECTOR_SIZE) with 1. rewrite Z.mul_1_r. apply s32_nonneg. unfold FSSIZE in Hb. lia. }
  unfold Ide.idestart, bind at 1, gets. fold b. rewrite (proj2 (Z.leb_gt _ _)) by apply Hb. cbv zeta. rewrite Hs.
  change (7 <? BSIZE / SECTOR_SIZE) with false. cbv iota. rewrite (bind_done _ _ _ _ _ E).
  assert (Hrange : 0 ≤ b_blockno b < 2 ^ 28) by (unfold FSSIZE in Hb; lia).
  unfold effect, writes_at, started, dirty. destruct (tst (b_flags b) B_DIRTY) eqn:Et; cbn [andb].
  - exists (outsl 0x1f0 (b_data b) (outb 0x1f7 IDE_CMD_WRITE (select (drive_of b) (b_blockno b) c1))). split; [done|]. split; [done|].
    destruct (dr_write c1 (drive_of b) (b_blockno b) (b_data b) Hdr Hrange Hd) as [Hw Ho]. intros d x.
    destruct (Z.eqb_spec d (drive_of b)) as [->|Hd']; cbn [andb]; [destruct (Z.eqb_spec x (b_blockno b)) as [->|Hx']|]; [exact Hw|..];
      rewrite Ho, HD by naive_solver; done.
  - exists (outb 0x1f7 IDE_CMD_READ (select (drive_of b) (b_blockno b) c1)). split; [done|].
    destruct (dr_read (outb 0x3f6 0 c1) (drive_of b) (b_blockno b) Hdr Hrange) as [Hp HD']. split; [done|]. intros d x. by rewrite HD', dr_control, HD.
Qed.

(** ** The queue *)

(** The buffers from pointer [p] on are [q]. *)
Fixpoint chain (nx : nat → option nat) (p : option nat) (q : list nat) : Prop :=
  match q with
  | [] => p = None
  | j :: q => p = Some j ∧ chain nx (nx j) q
  end.

Lemma qchain_ext nx nx' p q : (∀ j, j ∈ q → nx j = nx' j) → chain nx p q → chain nx' p q.
Proof.
  revert p. induction q as [|j q IH]; intros p Hq; [done|]. cbn [chain]. intros [-> Hc]. split; [done|].
  rewrite <- Hq by apply list_elem_of_here. apply IH; [|done]. intros i Hi. apply Hq. by apply list_elem_of_further.
Qed.

(** The search for the end of the queue finds the last pointer. *)
Lemma queue_end_ok fuel pp (s : ist) q :
  chain (is_qnext s) (deref pp s) q → (length q ≤ fuel)%nat →
  queue_end fuel pp s = Some (match last q with Some j => Some j | None => pp end).
Proof.
  revert pp q. induction fuel as [|fuel IH]; intros pp q Hc Hl; destruct q as [|j q]; cbn [chain length] in *; try lia; cbn [queue_end].
  - by rewrite Hc.
  - by rewrite Hc.
  - destruct Hc as [-> Hc]. rewrite (IH (Some j) q Hc) by lia. rewrite last_cons. by destruct (last q).
Qed.

(** Storing at the end appends. *)
Lemma chain_snoc (s : ist) q i :
  chain (is_qnext s) (is_queue s) q → NoDup q → i ∉ q →
  let s' := store_pp (last q) i (i_qnext i None s) in chain (is_qnext s') (is_queue s') (q ++ [i]).
Proof.
  intros Hc Hn Hi. destruct q as [|k q] using rev_ind; [cbn; by rewrite Nat.eqb_refl|]. clear IHq. rewrite last_snoc.
  assert (Hki : k ≠ i) by set_solver. apply NoDup_app in Hn as (Hn & Hk & _).
  assert (Hgen : ∀ p, chain (is_qnext s) p (q ++ [k]) →
    chain (λ j, if (j =? k)%nat then Some i else if (j =? i)%nat then None else is_qnext s j) p ((q ++ [k]) ++ [i])).
  2: { cbn. by apply Hgen. }
  assert (Hq : ∀ j, j ∈ q → j ≠ k ∧ j ≠ i) by (intros j Hj; split; [intros ->; by apply (Hk k); [|left]|set_solver]).
  clear -Hq Hki. induction q as [|j q IH]; intros p.
  - cbn. intros [-> _]. rewrite Nat.eqb_refl, (proj2 (Nat.eqb_neq i k)), Nat.eqb_refl by done. done.
  - cbn [app chain]. intros [-> Hc]. split; [done|]. destruct (Hq j) as [H1 H2]; [apply list_elem_of_here|].
    rewrite (proj2 (Nat.eqb_neq j k)), (proj2 (Nat.eqb_neq j i)) by done. apply IH; [|done].
    intros x Hx. apply Hq. by apply list_elem_of_further.
Qed.

(** The driver with queue [q]: each buffer waits for the disk, which works on the first. *)
Record ide_ok (s : ist) (q : list nat) : Prop := {
  io_chain : chain (is_qnext s) (is_queue s) q;
  io_nodup : NoDup q;
  io_lt j : j ∈ q → (j < length (is_buf s))%nat;
  io_wants j : j ∈ q → request_ok (ibuf s j);
  io_head : match q with [] => True | h :: _ => started (is_ctl s) (ibuf s h) end
}.

Lemma ibuf_upd i f (s : ist) j : (i < length (is_buf s))%nat → ibuf (upd_ibuf i f s) j = if (j =? i)%nat then f (ibuf s i) else ibuf s j.
Proof.
  intros Hi. unfold ibuf, upd_ibuf. cbn [is_buf i_buf]. destruct (Nat.eqb_spec j i) as [->|Hne].
  - by rewrite list_lookup_total_alter_eq.
  - rewrite list_lookup_total_alter_ne; done.
Qed.

(** ** The interrupt *)
Definition done_flags (f : Z) : Z := Z.land (Z.lor f B_VALID) (Z.lnot B_DIRTY).

Lemma done_flags_valid f : Z.land (done_flags f) (Z.lor B_VALID B_DIRTY) = B_VALID.
Proof.
  unfold done_flags. apply Z.bits_inj'. intros n Hn. rewrite !Z.land_spec, !Z.lor_spec, Z.lnot_spec by done.
  change B_VALID with (2 ^ 1). change B_DIRTY with (2 ^ 2). rewrite !Z.pow2_bits_eqb by lia.
  destruct (Z.eqb_spec 1 n), (Z.eqb_spec 2 n); try lia; by destruct (Z.testbit f n).
Qed.

Lemma set_same_data h (s : ist) : upd_ibuf h (set_data (b_data (ibuf s h))) s = s.
Proof.
  unfold upd_ibuf. replace (alter _ h _) with (is_buf s); [by destruct s|]. symmetry. apply list_eq. intros j.
  destruct (decide (j = h)) as [->|Hne]; [|by rewrite list_lookup_alter_ne].
  rewrite list_lookup_alter. unfold ibuf. rewrite decide_True by done. destruct (is_buf s !! h) as [b|] eqn:E; [|done].
  rewrite (list_lookup_total_correct _ _ _ E). cbn. by destruct b.
Qed.

(** The first buffer has its data: with the lock held, after the read. *)
Lemma take_data_ok h (s : ist) :
  started (is_ctl s) (ibuf s h) →
  ∃ c', (if tst (b_flags (ibuf s h)) B_DIRTY then ret tt
         else r <- idewait dr_polls true;; if 0 <=? r then ide_insl h else ret tt) s =
        Done tt (upd_ibuf h (set_data (result (ibuf s h) (dr_fault (is_ctl s)) (dr_disk (is_ctl s)))) (i_ctl c' s)) ∧
    ∀ d x, dr_disk c' d x = dr_disk (is_ctl s) d x.
Proof.
  intros Hst. unfold started, result, dirty in *. destruct (tst _ _) eqn:Et; cbn [orb].
  - exists (is_ctl s). split; [|done]. unfold ret. f_equal. symmetry.
    etransitivity; [exact (set_same_data h (i_ctl (is_ctl s) s))|]. by destruct s.
  - destruct (idewait_ok true s) as (c1 & E & HD & HR & HF). rewrite (bind_done _ _ _ _ _ E). cbn [andb].
    destruct (dr_fault (is_ctl s)); cbn [Z.leb].
    + exists c1. split; [|done]. unfold ret. f_equal. symmetry. apply (set_same_data h (i_ctl c1 s)).
    + rewrite Hst in HR. destruct (dr_insl c1 _ _ HR HF) as (c2 & Ei & HD2). exists c2. split.
      * change (0 <=? 0) with true. cbv iota. unfold ide_insl.
        change (Z.to_nat BSIZE) with 512%nat. cbn [is_ctl i_ctl]. rewrite Ei. by rewrite HD.
      * intros d x. by rewrite HD2, HD.
Qed.

Lemma ide_core_done {A} (m : K core A) (s : ist) a c : m (is_core s) = Done a c → ide_core m s = Done a (i_core c s).
Proof. intros E. unfold ide_core, zoom. by rewrite E. Qed.

(** The buffer that the interrupt has served. *)
Definition finished (fault : bool) (D : contents) (b : buf) : buf :=
  set_flags (done_flags (b_flags b)) (set_data (result b fault D) b).

Lemma finish_ok h (s : ist) :
  started (is_ctl s) (ibuf s h) → Lk_ptable ∉ c_held (is_core s) →
  ∃ c', finish_request dr_polls h s =
      Done tt (upd_ibuf h (finished (dr_fault (is_ctl s)) (dr_disk (is_ctl s))) (i_core (woken (Ch_buf h) (is_core s)) (i_ctl c' s))) ∧
    ∀ d x, dr_disk c' d x = dr_disk (is_ctl s) d x.
Proof.
  intros Hst Hp. destruct (take_data_ok h s Hst) as (c' & E & HD). exists c'. split; [|done].
  unfold finish_request, bind at 1, gets.
  rewrite (bind_done _ _ _ _ _ E). unfold bind at 1, modify at 1. unfold bind at 1, modify at 1.
  erewrite ide_core_done by (apply wakeup_ok; exact Hp). unfold upd_ibuf, i_core, i_buf, i_ctl. cbn. do 2 f_equal.
  apply list_eq. intros j. rewrite !list_lookup_alter. destruct (decide (h = j)) as [->|Hj]; [rewrite !decide_True by done|done].
  unfold ibuf. destruct (is_buf s !! _) as [b|] eqn:Eb; [|done]. by rewrite (list_lookup_total_correct _ _ _ Eb).
Qed.

(** The disk when the buffers [q] wait: the first is under way. *)
Definition next_disk (s : ist) (q : list nat) (c : ctl) (D : contents) : Prop :=
  match q with [] => ∀ d x, dr_disk c d x = D d x | j :: _ => effect (ibuf s j) (dr_fault c) D (dr_disk c) end.

Lemma effect_ext b f D1 D2 D' : (∀ d x, D1 d x = D2 d x) → effect b f D1 D' → effect b f D2 D'.
Proof. intros HD He d x. specialize (He d x). destruct (writes_at b d x); [done|by rewrite He]. Qed.

Lemma ideintr_ok (s : ist) h q :
  ide_ok s (h :: q) → Lk_ide ∉ c_held (is_core s) → Lk_ptable ∉ c_held (is_core s) →
  ∃ s', ideintr s = Done tt s' ∧ ide_ok s' q ∧
    is_buf s' = alter (finished (dr_fault (is_ctl s)) (dr_disk (is_ctl s))) h (is_buf s) ∧
    is_core s' = woken (Ch_buf h) (is_core s) ∧
    next_disk s q (is_ctl s') (dr_disk (is_ctl s)).
Proof.
  intros [[Hq Hc] Hn Hlt Hw Hst] Hi Hp. apply NoDup_cons in Hn as [Hh Hn]. unfold Ide.ideintr.
  erewrite bind_done by (apply ide_core_done, acquire_ok; exact Hi). unfold bind at 1, gets at 1. cbn [is_queue i_core]. rewrite Hq.
  unfold bind at 1, modify at 1. set (s2 := i_queue _ _).
  destruct (finish_ok h s2) as (c' & E & HD); [exact Hst|cbn; set_solver|].
  rewrite (bind_done _ _ _ _ _ E). set (s3 := upd_ibuf _ _ _) in *. clear E.
  assert (Hbuf : ∀ j, j ∈ q → ibuf s3 j = ibuf s j).
  { intros j Hj. unfold s3. rewrite ibuf_upd by apply (Hlt h), list_elem_of_here.
    rewrite (proj2 (Nat.eqb_neq _ _)) by (intros ->; done). done. }
  assert (Hst' : ∃ c'', (match is_qnext s h with Some _ => idestart (is_qnext s h) | None => ret tt end) s3 = Done tt (i_ctl c'' s3) ∧
    next_disk s q c'' (dr_disk (is_ctl s)) ∧
    match q with [] => True | j :: _ => started c'' (ibuf s3 j) end).
  { destruct q as [|j q]; cbn [chain] in Hc.
    - rewrite Hc. exists c'. split; [done|]. split; [exact HD|done].
    - destruct Hc as [-> _]. destruct (idestart_ok j s3) as (c'' & E & Hs & HD'').
      + rewrite Hbuf by apply list_elem_of_here. apply Hw, list_elem_of_further, list_elem_of_here.
      + exists c''. split; [exact E|]. split; [|done]. rewrite Hbuf in HD'' by apply list_elem_of_here.
        cbn [next_disk]. eapply effect_ext; [|exact HD'']. exact HD. }
  destruct Hst' as (c'' & E & HD'' & Hs'). unfold bind at 1, gets at 1. change (is_queue s3) with (is_qnext s h).
  rewrite (bind_done _ _ _ _ _ E).
  erewrite ide_core_done by (apply (release_head Lk_ide (c_held (is_core s))); [done|exact Hi]).
  eexists. split; [reflexivity|]. split; [|split; [done|split; [by destruct (is_core s)|exact HD'']]].
  split; try done.
  - intros j Hj. cbn. rewrite length_alter. apply Hlt. by apply list_elem_of_further.
  - intros j Hj. change (request_ok (ibuf s3 j)). rewrite Hbuf by done. apply Hw. by apply list_elem_of_further.
Qed.

(** An interrupt without a request changes nothing. *)
Lemma ideintr_spurious (s : ist) : ide_ok s [] → Lk_ide ∉ c_held (is_core s) → ideintr s = Done tt s.
Proof.
  intros Hok Hi. pose proof (io_chain _ _ Hok) as Hq. cbn [chain] in Hq. unfold Ide.ideintr.
  erewrite bind_done by (apply ide_core_done, acquire_ok; exact Hi). unfold bind at 1, gets at 1. cbn [is_queue i_core]. rewrite Hq.
  erewrite ide_core_done by (apply (release_head Lk_ide (c_held (is_core s))); [done|exact Hi]).
  f_equal. destruct s as [[] ? ? ? ? ?]. done.
Qed.

(** ** A request *)
Lemma holding_ok i (s : ist) :
  quiet (is_core s) → ide_lock i (holdingsleep (SL_buf i)) s = Done (sl_locked (b_lock (ibuf s i))) s.
Proof.
  intros Hq. unfold ide_lock, zoom. rewrite holdingsleep_ok by done. cbn [fst snd]. f_equal.
  unfold upd_ibuf. replace (alter _ i _) with (is_buf s); [by destruct s|]. apply list_eq. intros j.
  destruct (decide (j = i)) as [->|Hne]; [|by rewrite list_lookup_alter_ne].
  rewrite list_lookup_alter, decide_True by done. unfold ibuf. destruct (is_buf s !! i) as [b|] eqn:E; [|done].
  rewrite (list_lookup_total_correct _ _ _ E). by destruct b.
Qed.

Lemma queue_length (q : list nat) n : NoDup q → (∀ j, j ∈ q → (j < n)%nat) → (length q ≤ n)%nat.
Proof.
  intros Hn Hlt. rewrite <- (length_seq n 0). apply submseteq_length, NoDup_submseteq; [done|].
  intros j Hj. apply elem_of_seq. specialize (Hlt j Hj). lia.
Qed.

(** The process sleeps on channel [ch], with ptable.lock held. *)
Definition asleep (ch : chan) (c : core) : core :=
  match c_cur c with
  | Some k => upd_proc k (λ p, set_state SLEEPING (set_chan ch p)) (set_held [Lk_ptable] c)
  | None => c
  end.

Lemma iderw_ok (s : ist) q i :
  ide_ok s q → quiet (is_core s) → i ∉ q → (i < length (is_buf s))%nat →
  sl_locked (b_lock (ibuf s i)) = true → request_ok (ibuf s i) → b_dev (ibuf s i) = 0 ∨ is_have1 s = true →
  ∃ s', iderw i s = Sleep (Ch_buf i) s' ∧ ide_ok s' (q ++ [i]) ∧ is_buf s' = is_buf s ∧
    is_core s' = asleep (Ch_buf i) (is_core s) ∧
    match q with [] => effect (ibuf s i) (dr_fault (is_ctl s')) (dr_disk (is_ctl s)) (dr_disk (is_ctl s')) | _ => is_ctl s' = is_ctl s end.
Proof.
  intros Hok Hq Hi Hlt Hl Hr Hdev. pose proof Hok as [Hc Hn Hlts Hw Hh]. unfold Ide.iderw.
  rewrite (bind_done _ _ _ _ _ (holding_ok i s Hq)), Hl. cbn [negb]. unfold bind at 1, gets at 1.
  rewrite (proj2 (Z.eqb_neq _ _)) by apply Hr. unfold bind at 1, gets at 1.
  replace (negb (b_dev (ibuf s i) =? 0) && negb (is_have1 s)) with false.
  2: { destruct Hdev as [-> | ->]; [done|by rewrite andb_false_r]. }
  erewrite bind_done by (apply ide_core_done, acquire_ok; by apply quiet_held).
  unfold bind at 1, modify at 1. unfold bind at 1, gets at 1. set (s1 := i_qnext i None _).
  rewrite (queue_end_ok _ None s1 q).
  2: { apply (qchain_ext (is_qnext s)); [|exact Hc]. intros j Hj. cbn. by rewrite (proj2 (Nat.eqb_neq j i)) by (intros ->; done). }
  2: { by apply queue_length. }
  unfold bind at 1, modify at 1.
  replace (match last q with Some j => Some j | None => None end) with (last q) by by destruct (last q).
  set (s2 := store_pp (last q) i s1).
  assert (Hc2 : chain (is_qnext s2) (is_queue s2) (q ++ [i])) by exact (chain_snoc (i_core (set_held (Lk_ide :: c_held (is_core s)) (is_core s)) s) q i Hc Hn Hi).
  assert (Hs2 : is_buf s2 = is_buf s ∧ is_ctl s2 = is_ctl s ∧ is_core s2 = set_held (Lk_ide :: c_held (is_core s)) (is_core s)).
  { unfold s2, store_pp. by destruct (last q). }
  destruct Hs2 as (Hb2 & Hctl2 & Hcore2). assert (Hib : ∀ j, ibuf s2 j = ibuf s j) by (intros j; unfold ibuf; by rewrite Hb2).
  assert (Hst : ∃ c', (if bool_decide (is_queue s2 = Some i) then idestart (Some i) else ret tt) s2 = Done tt (i_ctl c' s2) ∧
    match q with [] => effect (ibuf s i) (dr_fault c') (dr_disk (is_ctl s)) (dr_disk c') | _ => c' = is_ctl s end ∧
    match q ++ [i] with [] => True | j :: _ => started c' (ibuf s j) end).
  { destruct q as [|j q]; cbn [app chain] in *.
    - rewrite bool_decide_eq_true_2 by apply Hc2. destruct (idestart_ok i s2) as (c' & E & Hs & HD); [by rewrite Hib|].
      rewrite Hib in Hs. rewrite Hib, Hctl2 in HD. exists c'. split; [done|]. by split.
    - destruct Hc2 as [-> _]. rewrite bool_decide_eq_false_2 by (intros [= ->]; apply Hi, list_elem_of_here).
      exists (is_ctl s). split; [|done]. unfold ret. f_equal. rewrite <- Hctl2. by destruct s2. }
  destruct Hst as (c' & E & HD & Hs). unfold bind at 1, gets at 1. rewrite (bind_done _ _ _ _ _ E).
  unfold iderw_loop, bind at 1, gets at 1. change (ibuf (i_ctl c' s2) i) with (ibuf s2 i). rewrite Hib.
  rewrite (proj2 (Z.eqb_neq _ _)) by apply Hr. cbn [negb]. unfold ide_core, zoom. cbn [is_core i_ctl].
  destruct Hq as [Hheld [p Hp]]. destruct (c_cur (is_core s)) as [k|] eqn:Ek; [|done]. cbn [mbind option_bind] in Hp.
  rewrite (sleep_ok _ Lk_ide (is_core s2) k p); rewrite ?Hcore2; cbn [c_held c_cur c_procs set_held]; [|by rewrite Hheld|done|done|done].
  eexists. split; [reflexivity|]. cbn [is_core i_core is_buf i_ctl is_ctl]. split; [|split; [exact Hb2|split; [|exact HD]]].
  - split; cbn [is_core i_core is_buf i_ctl is_ctl is_qnext is_queue].
    + exact Hc2.
    + apply NoDup_app. split; [done|]. split; [|apply NoDup_singleton]. intros j Hj ->%list_elem_of_singleton. done.
    + intros j [Hj| ->%list_elem_of_singleton]%elem_of_app; rewrite Hb2; [by apply Hlts|done].
    + intros j Hj. change (request_ok (ibuf s2 j)). rewrite Hib. apply elem_of_app in Hj as [Hj| ->%list_elem_of_singleton]; [by apply Hw|done].
    + destruct (q ++ [i]) as [|j l]; [done|]. change (started c' (ibuf s2 j)). by rewrite Hib.
  - unfold asleep. by rewrite Ek.
Qed.
End requests.
