(* ===== verification/IdeRuns.v ===== *)
(** * The disk driver as an array of blocks

    Processes request transfers and the drive interrupts, in any order.  Seen from the
    buffers, every request takes effect at once, in the order of the requests. *)

From S2P Require Import Prelude Params Devices Core Bio BioSpec Ide IdeTheorems.

(** The fields that a request is about. *)
Record same_request (b b' : buf) : Prop := {
  sr_flags : b_flags b' = b_flags b;
  sr_dev : b_dev b' = b_dev b;
  sr_block : b_blockno b' = b_blockno b;
  sr_data : b_data b' = b_data b
}.
#[global] Instance same_request_refl : Reflexive same_request.
Proof. by split. Qed.
#[global] Instance same_request_trans : Transitive same_request.
Proof. intros b1 b2 b3 [] []. split; congruence. Qed.

Lemma same_effect b b' f D D' : same_request b b' → effect b' f D D' → effect b f D D'.
Proof. intros [Hf Hd Hb Hx]. unfold effect, writes_at, dirty, drive_of. by rewrite Hf, Hd, Hb, Hx. Qed.
Lemma same_result b b' f D : same_request b b' → result b' f D = result b f D.
Proof. intros [Hf Hd Hb Hx]. unfold result, dirty, drive_of. by rewrite Hf, Hd, Hb, Hx. Qed.
Lemma same_ok b b' : same_request b b' → request_ok b → request_ok b'.
Proof. intros [Hf Hd Hb Hx] []. split; congruence. Qed.

Lemma result_ext b f D D' : (∀ d x, D d x = D' d x) → result b f D = result b f D'.
Proof. intros H. unfold result. by rewrite H. Qed.

(** A read leaves the disk as it is, and its result does not depend on what it leaves. *)
Lemma result_effect b f D D' : effect b f D D' → result b f D' = result b f D.
Proof.
  intros He. unfold result. destruct (dirty b) eqn:Ed; [done|]. destruct f; [done|]. cbn [orb].
  specialize (He (drive_of b) (b_blockno b)). unfold writes_at in He. by rewrite Ed in He.
Qed.

(** The requests so far, each with its buffer as it was then. *)
Abbreviation history := (list (nat * buf)).
Definition disk_after (hist : history) (D : contents) : contents := foldl (λ D x, served (snd x) D) D hist.

(** The requests that have ended: the data in the buffer, and whether the drive reported an error. *)
Abbreviation results := (list (block * bool)).
Definition waiting (hist : history) (res : results) : list nat := fst <$> drop (length res) hist.

Lemma disk_after_snoc hist x D : disk_after (hist ++ [x]) D = served (snd x) (disk_after hist D).
Proof. unfold disk_after. by rewrite foldl_app. Qed.

(** An array of blocks on which requests are carried out one by one, some of which may fail: the
    requests, their results and the array at the end. *)
Section array.
Variable D0 : contents.

Inductive array_run : history → results → contents → Prop :=
| ar_start D : (∀ d x, D d x = D0 d x) → array_run [] [] D
| ar_step hist res D i b f D' :
    array_run hist res D → effect b f D D' → array_run (hist ++ [(i, b)]) (res ++ [(result b f D, f)]) D'.

Lemma array_run_ext hist res D D' : array_run hist res D → (∀ d x, D' d x = D d x) → array_run hist res D'.
Proof.
  intros Hr HD. destruct Hr as [D H0|hist res D1 i b f D Hr He].
  - apply ar_start. intros d x. by rewrite HD.
  - eapply ar_step; [exact Hr|]. intros d x. specialize (He d x). rewrite HD. done.
Qed.

Lemma array_run_length hist res D : array_run hist res D → length hist = length res.
Proof. induction 1; [done|]. rewrite !length_app. cbn. lia. Qed.

(** Without errors it is the array that the writes leave. *)
Lemma array_run_faultless hist res D :
  array_run hist res D → Forall (λ x, snd x = false) res →
  (∀ d x, D d x = disk_after hist D0 d x) ∧
  ∀ k i b, hist !! k = Some (i, b) → res !! k = Some (result b false (disk_after (take k hist) D0), false).
Proof.
  induction 1 as [D H0|hist res D i b f D' Hr IH He]; intros Hf; [done|].
  apply Forall_app in Hf as [Hf [Hff _]%Forall_cons]. cbn in Hff. subst f. destruct (IH Hf) as [HD Hres].
  pose proof (array_run_length _ _ _ Hr) as Hl. split.
  - intros d x. rewrite disk_after_snoc. cbn [snd]. unfold served. specialize (He d x). destruct (writes_at b d x); [by apply He|by rewrite He, HD].
  - intros k j c Hk. destruct (decide (k < length hist)%nat) as [Hlt|Hge].
    + rewrite lookup_app_l in Hk by done. rewrite lookup_app_l, take_app_le by lia. by apply Hres with j.
    + assert (k = length hist) as -> by (apply lookup_lt_Some in Hk; rewrite length_app in Hk; cbn in Hk; lia).
      rewrite lookup_app_r, Nat.sub_diag in Hk by done. injection Hk as <- <-.
      rewrite lookup_app_r, Hl, Nat.sub_diag, <- Hl, take_app_length by lia. cbn. f_equal. f_equal. by apply result_ext.
Qed.
End array.

Section runs.
Context {ctl : Type} {Dr : Drive ctl} {Laws : DriveLaws ctl}.
Local Abbreviation ist := (istate ctl).
Variable D0 : contents.

(** Runs, with the requests and the data of the buffers whose request has ended: processes
    make requests, the drive interrupts, and the rest of the kernel does what it likes
    with the processor and with the buffers that do not wait. *)
Inductive ide_run : history → results → ist → Prop :=
| ir_start s : ide_ok s [] → (∀ d x, dr_disk (is_ctl s) d x = D0 d x) → ide_run [] [] s
| ir_other hist res s c bs :
    ide_run hist res s → length bs = length (is_buf s) →
    (∀ j, j ∈ waiting hist res → same_request (ibuf s j) (bs !!! j)) →
    ide_run hist res (i_core c (i_buf bs s))
| ir_request hist res s i ch s' :
    ide_run hist res s → quiet (is_core s) → i ∉ waiting hist res → (i < length (is_buf s))%nat →
    sl_locked (b_lock (ibuf s i)) = true → request_ok (ibuf s i) → b_dev (ibuf s i) = 0 ∨ is_have1 s = true →
    iderw dr_polls i s = Sleep ch s' → ide_run (hist ++ [(i, ibuf s i)]) res s'
| ir_intr hist res s h q s' :
    ide_run hist res s → waiting hist res = h :: q → Lk_ide ∉ c_held (is_core s) → Lk_ptable ∉ c_held (is_core s) →
    ideintr dr_polls s = Done tt s' → ide_run hist (res ++ [(b_data (ibuf s' h), dr_fault (is_ctl s))]) s'
| ir_spurious hist res s s' :
    ide_run hist res s → waiting hist res = [] → Lk_ide ∉ c_held (is_core s) →
    ideintr dr_polls s = Done tt s' → ide_run hist res s'.

(** The requests that have ended are a run of the array, and the drive works on the next. *)
Record run_ok (hist : history) (res : results) (s : ist) : Prop := {
  ro_len : (length res ≤ length hist)%nat;
  ro_ok : ide_ok s (waiting hist res);
  ro_bufs i b : (i, b) ∈ drop (length res) hist → same_request b (ibuf s i);
  ro_array : ∃ D, array_run D0 (take (length res) hist) res D ∧
    match drop (length res) hist with
    | [] => ∀ d x, dr_disk (is_ctl s) d x = D d x
    | (_, b) :: _ => effect b (dr_fault (is_ctl s)) D (dr_disk (is_ctl s))
    end
}.

Lemma run_other hist res s c bs :
  run_ok hist res s → length bs = length (is_buf s) →
  (∀ j, j ∈ waiting hist res → same_request (ibuf s j) (bs !!! j)) → run_ok hist res (i_core c (i_buf bs s)).
Proof.
  intros [Hlen Hok Hb HD] Hl Hs. split; try done.
  - destruct Hok as [Hc Hn Hlt Hw Hh]. split; try done.
    + intros j Hj. cbn. rewrite Hl. by apply Hlt.
    + intros j Hj. eapply same_ok; [by apply Hs|by apply Hw].
    + destruct (waiting hist res) as [|h q]; [done|]. destruct (Hs h (list_elem_of_here _ _)) as [Hf Hd Hbl Hx].
      unfold started, dirty, drive_of in *. change (ibuf (i_core c (i_buf bs s)) h) with (bs !!! h). by rewrite Hf, Hd, Hbl.
  - intros i b Hi. etrans; [by apply Hb|]. apply Hs. apply list_elem_of_fmap. by exists (i, b).
Qed.

Lemma run_request hist res s i ch s' :
  run_ok hist res s → quiet (is_core s) → i ∉ waiting hist res → (i < length (is_buf s))%nat →
  sl_locked (b_lock (ibuf s i)) = true → request_ok (ibuf s i) → b_dev (ibuf s i) = 0 ∨ is_have1 s = true →
  iderw dr_polls i s = Sleep ch s' → run_ok (hist ++ [(i, ibuf s i)]) res s'.
Proof.
  intros [Hlen Hok Hb (D & HD & Hnow)] Hq Hi Hlt Hl Hro Hdev E.
  destruct (iderw_ok s _ i Hok Hq Hi Hlt Hl Hro Hdev) as (s1 & E1 & Hok1 & Hb1 & _ & HD1). rewrite E in E1. injection E1 as _ <-.
  assert (Hib : ∀ j, ibuf s' j = ibuf s j) by (intros j; unfold ibuf; by rewrite Hb1).
  split.
  - rewrite length_app. lia.
  - unfold waiting. rewrite drop_app_le, fmap_app by done. exact Hok1.
  - intros j b. rewrite drop_app_le by done. rewrite Hib. intros [Hj|Hj]%elem_of_app; [by apply Hb|].
    apply list_elem_of_singleton in Hj. by injection Hj as -> ->.
  - exists D. rewrite take_app_le, drop_app_le by done. split; [exact HD|]. unfold waiting in HD1.
    destruct (drop (length res) hist) as [|[j b] l]; cbn [fmap list_fmap app] in HD1 |- *.
    + eapply effect_ext; [|exact HD1]. exact Hnow.
    + by rewrite HD1.
Qed.

Lemma run_intr hist res s h q s' :
  run_ok hist res s → waiting hist res = h :: q → Lk_ide ∉ c_held (is_core s) → Lk_ptable ∉ c_held (is_core s) →
  ideintr dr_polls s = Done tt s' → run_ok hist (res ++ [(b_data (ibuf s' h), dr_fault (is_ctl s))]) s'.
Proof.
  intros [Hlen Hok Hb (D & HD & Hnow)] Hwt Hi Hp E. rewrite Hwt in Hok.
  destruct (ideintr_ok s h q Hok Hi Hp) as (s1 & E1 & Hok1 & Hb1 & _ & HD1). rewrite E in E1. injection E1 as <-.
  unfold waiting in Hwt. destruct (drop (length res) hist) as [|[h' b] l] eqn:Ed; [done|]. injection Hwt as -> Hq.
  change (fst <$> l = q) in Hq.
  assert (Hlt : (length res < length hist)%nat) by (apply (f_equal length) in Ed; rewrite length_drop in Ed; cbn in Ed; lia).
  assert (Hk : hist !! length res = Some (h, b)) by (rewrite <- (Nat.add_0_r (length res)), <- lookup_drop, Ed; done).
  assert (Hd' : drop (S (length res)) hist = l).
  { replace (S (length res)) with (length res + 1)%nat by lia. by rewrite <- drop_drop, Ed. }
  assert (Hsb : same_request b (ibuf s h)) by apply Hb, list_elem_of_here.
  assert (Hdata : b_data (ibuf s' h) = result b (dr_fault (is_ctl s)) D).
  { unfold ibuf. rewrite Hb1, list_lookup_total_alter_eq by (apply Hok, list_elem_of_here). cbn [finished set_flags set_data b_data].
    rewrite (same_result b _ _ _ Hsb). by apply result_effect. }
  split; rewrite ?length_app; cbn [length]; rewrite ?Nat.add_1_r.
  - lia.
  - unfold waiting. rewrite length_app, Nat.add_1_r, Hd'. by rewrite Hq.
  - intros i b' Hin. rewrite Hd' in Hin. assert (Hne : i ≠ h).
    { intros ->. apply (io_nodup _ _) in Hok. apply NoDup_cons in Hok as [Hnin _]. apply Hnin. rewrite <- Hq.
      apply list_elem_of_fmap. by exists (h, b'). }
    unfold ibuf. rewrite Hb1, list_lookup_total_alter_ne by done. apply Hb. by apply list_elem_of_further.
  - rewrite Hd', (take_S_r _ _ _ Hk), Hdata. exists (dr_disk (is_ctl s)). split; [by apply ar_step|].
    destruct l as [|[j bj] l]; cbn [fmap list_fmap] in Hq; subst q; cbn [next_disk fst] in HD1; [exact HD1|].
    eapply same_effect; [|exact HD1]. apply Hb, list_elem_of_further, list_elem_of_here.
Qed.

Lemma ide_run_ok hist res s : ide_run hist res s → run_ok hist res s.
Proof.
  induction 1 as [s Hok HD| |hist res s i ch s' _ IH|hist res s h q s' _ IH|hist res s s' _ IH Hw Hi E].
  - split; [done|done|by intros i b ?%elem_of_nil|]. exists D0. split; [by apply ar_start|exact HD].
  - by apply run_other.
  - by eapply run_request.
  - by eapply run_intr.
  - pose proof (ro_ok _ _ _ IH) as Hok. rewrite Hw in Hok. rewrite (ideintr_spurious s Hok Hi) in E. by injection E as <-.
Qed.

(** C10: the disk driver is an array of blocks.  However requests and interrupts interleave, and
    whatever the rest of the kernel does meanwhile, requests end in the order in which they
    were made, and those that have ended are a run of an array of blocks on which they are
    carried out one by one: a read gives what the array has, a write changes its block.  A
    request for which the drive reports an error is one that fails: a read leaves the buffer
    as it was, and a write leaves its block unknown and no other.  As long as the drive
    reports no error, each request gives what it would if those before it had been carried
    out: a read gives what the last write before it left in the block. *)
Theorem ide_linearizable hist res s :
  ide_run hist res s →
  (length res ≤ length hist)%nat ∧
  (∃ D, array_run D0 (take (length res) hist) res D) ∧
  (Forall (λ x, snd x = false) res → ∀ k i b, (k < length res)%nat → hist !! k = Some (i, b) →
   res !! k = Some (result b false (disk_after (take k hist) D0), false)).
Proof.
  intros [Hl _ _ (D & Hr & _)]%ide_run_ok. split; [done|]. split; [by exists D|]. intros Hf k i b Hk Hb.
  pose proof (proj2 (array_run_faultless _ _ _ _ Hr Hf) k i b) as H. rewrite take_take, Nat.min_l in H by lia. apply H.
  by rewrite lookup_take_lt by done.
Qed.
End runs.

(** ** Every request ends *)
Section liveness.
Context {ctl : Type} {Dr : Drive ctl} {Laws : DriveLaws ctl}.
Local Abbreviation ist := (istate ctl).

Fixpoint interrupts (n : nat) : K ist unit :=
  match n with
  | O => ret tt
  | S n => ideintr dr_polls ;;; interrupts n
  end.

Definition sleeps_on (ch : chan) (c : core) : Prop := ∃ k p, c_procs c !! k = Some p ∧ p_state p = SLEEPING ∧ p_chan p = ch.

Lemma woken_none ch c : ¬ sleeps_on ch (woken ch c).
Proof.
  intros (k & p & Hp & Hs & Hc). cbn in Hp. apply list_lookup_fmap_Some_1 in Hp as (p0 & -> & Hp). unfold wakeup1_proc in *.
  destruct (bool_decide (p_state p0 = SLEEPING) && bool_decide (p_chan p0 = ch)) eqn:E; [done|].
  rewrite !bool_decide_eq_true_2 in E by done. done.
Qed.

(** C29: every request to the disk ends.  A buffer with [n] requests before it in the queue is
    valid and clean after [n + 1] interrupts, none of which panics, and no process sleeps
    waiting for it any more; when the process runs again, iderw returns. *)
Theorem ide_completes (s : ist) q1 i q2 :
  ide_ok s (q1 ++ i :: q2) → Lk_ide ∉ c_held (is_core s) → Lk_ptable ∉ c_held (is_core s) →
  ∃ s', interrupts (S (length q1)) s = Done tt s' ∧ ide_ok s' q2 ∧
    Z.land (b_flags (ibuf s' i)) (Z.lor B_VALID B_DIRTY) = B_VALID ∧ ¬ sleeps_on (Ch_buf i) (is_core s') ∧
    ∀ c, c_held c = [Lk_ide] → iderw_loop i (i_core c s') = Done tt (i_core (set_held [] c) s').
Proof.
  revert s. induction q1 as [|h q1 IH]; intros s Hok Hi Hp; cbn [app length] in *; cbn [interrupts].
  - destruct (ideintr_ok s i q2 Hok Hi Hp) as (s' & E & Hok' & Hb & Hc & _). exists s'.
    rewrite (bind_done _ _ _ _ _ E). split; [done|]. split; [done|].
    assert (Hf : Z.land (b_flags (ibuf s' i)) (Z.lor B_VALID B_DIRTY) = B_VALID).
    { unfold ibuf. rewrite Hb, list_lookup_total_alter_eq by (apply Hok, list_elem_of_here). apply done_flags_valid. }
    split; [done|]. split; [rewrite Hc; apply woken_none|]. intros c Hheld. unfold iderw_loop, bind at 1, gets at 1.
    change (ibuf (i_core c s') i) with (ibuf s' i). rewrite Hf, Z.eqb_refl. cbn [negb].
    erewrite ide_core_done by (apply (release_head Lk_ide []); [exact Hheld|apply not_elem_of_nil]). done.
  - destruct (ideintr_ok s h (q1 ++ i :: q2) Hok Hi Hp) as (s1 & E & Hok1 & _ & Hc & _).
    rewrite (bind_done _ _ _ _ _ E). apply IH; [done|by rewrite Hc|by rewrite Hc].
Qed.
End liveness.

(** ** The memory disk *)

(** The blocks of the memory disk, which is drive 1. *)
Definition memdisk (s : bstate) : contents := λ _ x, dblock (bs_disk s) x.

Lemma done_flags_dirty f : Z.lor (Z.land f (Z.lnot B_DIRTY)) B_VALID = done_flags f.
Proof.
  unfold done_flags. apply Z.bits_inj'. intros n Hn. rewrite !Z.lor_spec, !Z.land_spec, Z.lor_spec, Z.lnot_spec by done.
  change B_VALID with (2 ^ 1). change B_DIRTY with (2 ^ 2). rewrite !Z.pow2_bits_eqb by lia.
  destruct (Z.eqb_spec 1 n), (Z.eqb_spec 2 n); try lia; by destruct (Z.testbit f n).
Qed.

(** The two drivers do the same: what memide.c does to a buffer and its disk at once is what
    a request of ide.c has done when it ends. *)
Theorem memide_agrees s i :
  quiet (bs_core s) → (i < length (bs_buf s))%nat → sl_locked (b_lock (bufp s i)) = true → request_ok (bufp s i) →
  b_dev (bufp s i) = 1 → b_blockno (bufp s i) < d_size (bs_disk s) →
  ∃ s', Bio.iderw i s = Done tt s' ∧ bufp s' i = finished false (memdisk s) (bufp s i) ∧
    (∀ j, j ≠ i → bufp s' j = bufp s j) ∧
    ∀ x, memdisk s' 1 x = served (bufp s i) (memdisk s) 1 x.
Proof.
  intros Hq Hi Hl [Hf _ _] Hdev Hsz.
  assert (Hh : with_lock i (holdingsleep (SL_buf i)) s = Done true s).
  { unfold with_lock, zoom. rewrite holdingsleep_ok by done. cbn [fst snd]. rewrite Hl. f_equal. unfold bufp, upd_buf.
    replace (alter _ i _) with (bs_buf s); [by destruct s|]. apply list_eq. intros j.
    destruct (decide (j = i)) as [->|Hne]; [|by rewrite list_lookup_alter_ne].
    rewrite list_lookup_alter, decide_True by done. destruct (bs_buf s !! i) as [b|] eqn:E; [|done].
    rewrite (list_lookup_total_correct _ _ _ E). by destruct b. }
  unfold Bio.iderw. rewrite (bind_done _ _ _ _ _ Hh). cbn [negb]. unfold bind at 1, gets at 1.
  rewrite (proj2 (Z.eqb_neq _ _)) by done. rewrite Hdev, Z.eqb_refl. cbn [negb]. unfold bind at 1, gets at 1.
  rewrite (proj2 (Z.leb_gt _ _)) by done. unfold finished, served, writes_at, result, dirty, drive_of. rewrite Hdev.
  destruct (tst (b_flags (bufp s i)) B_DIRTY) eqn:Et; (eexists; split; [reflexivity|]); unfold bufp at 1, upd_buf;
    cbn [bs_buf set_disk]; (split; [rewrite ?list_lookup_total_alter_eq by (rewrite ?length_alter; done)|]).
  - cbn. rewrite done_flags_dirty. unfold bufp. by destruct (bs_buf s !!! i).
  - split; [intros j Hj; unfold bufp, upd_buf; cbn; by rewrite !list_lookup_total_alter_ne|]. intros x. cbn.
    unfold memdisk, dblock. cbn [bs_disk d_writes d_image dwrite written fst snd]. done.
  - cbn. f_equal. unfold done_flags. unfold tst in Et. apply negb_false_iff, Z.eqb_eq in Et.
    apply Z.bits_inj'. intros n Hn. apply (f_equal (λ z, Z.testbit z n)) in Et. rewrite Z.land_spec, Z.bits_0 in Et.
    rewrite Z.land_spec, !Z.lor_spec, Z.lnot_spec by done. revert Et. change B_VALID with (2 ^ 1). change B_DIRTY with (2 ^ 2).
    rewrite !Z.pow2_bits_eqb by lia. destruct (Z.eqb_spec 1 n), (Z.eqb_spec 2 n); try lia; by destruct (Z.testbit _ n).
  - split; [intros j Hj; unfold bufp, upd_buf; cbn; by rewrite !list_lookup_total_alter_ne|]. done.
Qed.

(** ** A drive *)

(** The registers and the sectors of two drives, some of which are bad. *)
Record ata (bad : Z → Z → bool) := Ata { a_regs : Z → Z; a_disk : Z → Z → block }.
Arguments Ata {bad}.
Arguments a_regs {bad}.
Arguments a_disk {bad}.
Definition a_lba (r : Z → Z) : Z := r 0x1f3 + 2 ^ 8 * r 0x1f4 + 2 ^ 16 * r 0x1f5 + 2 ^ 24 * Z.land (r 0x1f6) 15.
Definition a_drive (r : Z → Z) : Z := Z.land (Z.shiftr (r 0x1f6) 4) 1.
Definition a_bad {bad} (c : ata bad) : bool := bad (a_drive (a_regs c)) (a_lba (a_regs c)).

#[global] Instance ata_drive bad : Drive (ata bad) := {
  outb p v c := Ata (λ x, if x =? p then v else a_regs c x) (a_disk c);
  inb p c := (if a_bad c then Z.lor IDE_DRDY IDE_ERR else IDE_DRDY, c);
  outsl p x c :=
    if (a_regs c 0x1f7 =? IDE_CMD_WRITE) && negb (a_bad c)
    then Ata (a_regs c) (λ d s, if (d =? a_drive (a_regs c)) && (s =? a_lba (a_regs c)) then x else a_disk c d s)
    else c;
  insl p n c := (if a_bad c then replicate n 0 else a_disk c (a_drive (a_regs c)) (a_lba (a_regs c)), c)
}.

(** The register for the drive and the highest bits. *)
Lemma drive_register d h :
  0 ≤ d < 2 → 0 ≤ h < 16 →
  let v := Z.lor (Z.lor 0xe0 (Z.shiftl d 4)) h in Z.land v 15 = h ∧ Z.land (Z.shiftr v 4) 1 = d.
Proof.
  intros Hd Hh. assert (Hn : ∃ n, h = Z.of_nat n ∧ (n < 16)%nat) by (exists (Z.to_nat h); lia). destruct Hn as (n & -> & Hn).
  assert (d = 0 ∨ d = 1) as [-> | ->] by lia; do 16 (destruct n as [|n]; [done|]); lia.
Qed.

(** The registers for a sector give the sector and the drive back. *)
Lemma ata_select {bad} (c : ata bad) cmd d s :
  0 ≤ d < 2 → 0 ≤ s < 2 ^ 28 →
  let r := a_regs (outb 0x1f7 cmd (regs d s c)) in a_lba r = s ∧ a_drive r = d.
Proof.
  intros Hd Hs r.
  assert (Hm : ∀ a, Z.land a 0xff = a mod 256) by (intros a; apply (Z.land_ones a 8); lia).
  assert (Hh : Z.land (Z.shiftr s 24) 0x0f = s / 2 ^ 24).
  { rewrite Z.shiftr_div_pow2 by lia. change 0x0f with (Z.ones 4). rewrite Z.land_ones by lia. apply Z.mod_small.
    split; [apply Z.div_pos; lia|]. apply Z.div_lt_upper_bound; lia. }
  assert (Hrange : 0 ≤ s / 2 ^ 24 < 16) by (split; [apply Z.div_pos; lia|apply Z.div_lt_upper_bound; lia]).
  destruct (drive_register d (s / 2 ^ 24) Hd Hrange) as [H1 H2].
  change (a_lba r) with (Z.land s 0xff + 2 ^ 8 * Z.land (Z.shiftr s 8) 0xff + 2 ^ 16 * Z.land (Z.shiftr s 16) 0xff +
    2 ^ 24 * Z.land (Z.lor (Z.lor 0xe0 (Z.shiftl d 4)) (Z.land (Z.shiftr s 24) 0x0f)) 15).
  change (a_drive r) with (Z.land (Z.shiftr (Z.lor (Z.lor 0xe0 (Z.shiftl d 4)) (Z.land (Z.shiftr s 24) 0x0f)) 4) 1).
  rewrite Hh, H1, H2, !Hm, !Z.shiftr_div_pow2 by lia. split; [|done].
  Z.to_euclidean_division_equations. lia.
Qed.

#[global] Instance ata_laws bad : DriveLaws (ata bad).
Proof.
  refine {| dr_polls := 0; dr_disk := a_disk; dr_fault := a_bad;
    dr_reading c := if a_regs c 0x1f7 =? IDE_CMD_READ then Some (a_drive (a_regs c), a_lba (a_regs c)) else None |}.
  - intros c. exists (if a_bad c then Z.lor IDE_DRDY IDE_ERR else IDE_DRDY), c. cbn [poll inb ata_drive]. by destruct (a_bad c).
  - intros c d s Hd Hs. destruct (ata_select c IDE_CMD_READ d s Hd Hs) as [H1 H2]. cbv zeta. split; [|done].
    change (a_regs (outb 0x1f7 IDE_CMD_READ (regs d s c)) 0x1f7 =? IDE_CMD_READ) with true. cbv iota. by rewrite H1, H2.
  - done.
  - intros c d s. destruct (_ =? _); [|done]. intros [= <- <-] Hb. exists c. cbn [insl ata_drive]. by rewrite Hb.
  - intros c d s x Hd Hs _ c'. destruct (ata_select (outb 0x3f6 0 c) IDE_CMD_WRITE d s Hd Hs) as [H1 H2].
    set (c1 := outb 0x1f7 IDE_CMD_WRITE (select d s c)) in *. change (a_lba (a_regs c1) = s) in H1. change (a_drive (a_regs c1) = d) in H2.
    assert (Ec : c' = if a_bad c1 then c1 else Ata (a_regs c1) (λ d' s', if (d' =? d) && (s' =? s) then x else a_disk c1 d' s')).
    { unfold c'. cbn [outsl ata_drive]. change (a_regs c1 0x1f7 =? IDE_CMD_WRITE) with true. cbn [andb]. rewrite H1, H2. by destruct (a_bad c1). }
    rewrite Ec. destruct (a_bad c1) eqn:Eb; cbn [a_disk]; split.
    + by rewrite Eb.
    + done.
    + intros _. by rewrite !Z.eqb_refl.
    + intros d' s' Hne. destruct (Z.eqb_spec d' d), (Z.eqb_spec s' s); cbn [andb]; naive_solver.
Defined.

(** Drives without bad sectors. *)
Abbreviation good_ata := (ata (λ _ _, false)).
#[global] Instance ata_faultless : Faultless good_ata.
Proof. done. Defined.

(** ** A write and a read of block 5, and a read of block 6, which is bad *)
Definition block6_bad (d x : Z) : bool := (d =? 1) && (x =? 6).
Abbreviation bad_ata := (ata block6_bad).
Definition ide_proc : proc := Proc 0 0 0 RUNNING 1 None (Trapframe 0 0 0 0 0 0 0 0 0 0 0 0 0 0 0 0 0 0 0 0 0 0) Ch_null false [] None [].
Definition ide_cpu : core := Core [] [ide_proc] (Some 0%nat) devices0.
Definition write_buf : buf := Buf B_DIRTY 1 5 (Sleeplock true 1) 1 0 0 (replicate 512 1).
Definition read_buf : buf := Buf 0 1 5 (Sleeplock true 1) 1 0 0 (replicate 512 0).
Definition bad_buf : buf := Buf 0 1 6 (Sleeplock true 1) 1 0 0 (replicate 512 9).
Definition ide_bufs : list buf := [write_buf; read_buf; bad_buf].
Definition ide_start : istate bad_ata :=
  IState ide_cpu ide_bufs (λ _, None) None true (Ata (λ _, 0) (λ _ _, replicate 512 7)).
Definition blank_disk : contents := λ _ _, replicate 512 7.

Definition after (m : K (istate bad_ata) unit) (s : istate bad_ata) : istate bad_ata :=
  match m s with Done _ s' | Sleep _ s' => s' | Panic _ => s end.

(** The first two requests, the interrupts that end them, then the third and its interrupt;
    the processor is another's after each request. *)
Definition ide_s1 : istate bad_ata := i_core ide_cpu (i_buf ide_bufs (after (iderw 0 0) ide_start)).
Definition ide_s2 : istate bad_ata := i_core ide_cpu (i_buf ide_bufs (after (iderw 0 1) ide_s1)).
Definition ide_s3 : istate bad_ata := after (ideintr 0) ide_s2.
Definition ide_s4 : istate bad_ata := after (ideintr 0) ide_s3.
Definition ide_s5 : istate bad_ata := i_core ide_cpu (i_buf ide_bufs (after (iderw 0 2) (i_core ide_cpu (i_buf ide_bufs ide_s4)))).
Definition ide_s6 : istate bad_ata := after (ideintr 0) ide_s5.
Definition two_requests : history := [(0%nat, write_buf); (1%nat, read_buf)].
Definition two_results : results := [(replicate 512 1, false); (replicate 512 1, false)].

Lemma write_buf_ok : request_ok write_buf.
Proof. split; [done|unfold FSSIZE; cbn; lia|reflexivity]. Qed.
Lemma read_buf_ok : request_ok read_buf.
Proof. split; [done|unfold FSSIZE; cbn; lia|reflexivity]. Qed.
Lemma bad_buf_ok : request_ok bad_buf.
Proof. split; [done|unfold FSSIZE; cbn; lia|reflexivity]. Qed.
Lemma ide_cpu_quiet : quiet ide_cpu.
Proof. split; [done|by eexists]. Qed.
Lemma ide_start_ok : ide_ok ide_start [].
Proof. split; try done; [constructor|by intros j ?%elem_of_nil|by intros j ?%elem_of_nil]. Qed.

Lemma ide_two_requests : ide_run blank_disk two_requests [] ide_s2.
Proof.
  assert (H1 : ide_run blank_disk [(0%nat, write_buf)] [] ide_s1).
  { apply ir_other; [|reflexivity|intros j Hj; apply list_elem_of_singleton in Hj as ->; split; reflexivity].
    refine (ir_request blank_disk [] [] ide_start 0 (Ch_buf 0) _ (ir_start _ _ ide_start_ok _) ide_cpu_quiet _ _ eq_refl write_buf_ok (or_intror eq_refl) _).
    - reflexivity.
    - apply not_elem_of_nil.
    - exact (Nat.lt_0_succ 2).
    - vm_compute. reflexivity. }
  apply ir_other; [|reflexivity|].
  - refine (ir_request blank_disk [(0%nat, write_buf)] [] ide_s1 1 (Ch_buf 1) _ H1 ide_cpu_quiet _ _ eq_refl read_buf_ok (or_intror eq_refl) _).
    + by intros ?%list_elem_of_singleton.
    + cbn. lia.
    + vm_compute. reflexivity.
  - intros j Hj. apply elem_of_cons in Hj as [->|Hj]; [split; reflexivity|]. apply list_elem_of_singleton in Hj as ->. split; reflexivity.
Qed.

Lemma ide_two_results : ide_run blank_disk two_requests two_results ide_s4.
Proof.
  assert (H3 : ide_run blank_disk two_requests (take 1 two_results) ide_s3).
  { refine (ir_intr blank_disk _ [] ide_s2 0 [1%nat] ide_s3 ide_two_requests eq_refl _ _ _); [apply not_elem_of_nil|apply not_elem_of_nil|].
    vm_compute. reflexivity. }
  refine (ir_intr blank_disk _ _ ide_s3 1 [] ide_s4 H3 eq_refl _ _ _); [apply not_elem_of_nil|apply not_elem_of_nil|].
  vm_compute. reflexivity.
Qed.

(** The read of the bad block leaves the buffer as it was. *)
Lemma ide_three_results : ide_run blank_disk (two_requests ++ [(2%nat, bad_buf)]) (two_results ++ [(replicate 512 9, true)]) ide_s6.
Proof.
  assert (H4 : ide_run blank_disk two_requests two_results (i_core ide_cpu (i_buf ide_bufs ide_s4))).
  { apply ir_other; [exact ide_two_results|reflexivity|]. by intros j ?%elem_of_nil. }
  assert (H5 : ide_run blank_disk (two_requests ++ [(2%nat, bad_buf)]) two_results ide_s5).
  { apply ir_other; [|reflexivity|intros j Hj; apply list_elem_of_singleton in Hj as ->; split; reflexivity].
    refine (ir_request blank_disk two_requests two_results _ 2 (Ch_buf 2) _ H4 ide_cpu_quiet _ _ eq_refl bad_buf_ok (or_intror eq_refl) _).
    - apply not_elem_of_nil.
    - cbn. lia.
    - vm_compute. reflexivity. }
  refine (ir_intr blank_disk _ _ ide_s5 2 [] ide_s6 H5 eq_refl _ _ _); [apply not_elem_of_nil|apply not_elem_of_nil|].
  vm_compute. reflexivity.
Qed.

Lemma ide_linearizable_witness :
  result read_buf false (disk_after [(0%nat, write_buf)] blank_disk) = replicate 512 1 ∧
  two_results !! 1%nat = Some (result read_buf false (disk_after [(0%nat, write_buf)] blank_disk), false) ∧
  ∃ D, array_run blank_disk (two_requests ++ [(2%nat, bad_buf)]) (two_results ++ [(replicate 512 9, true)]) D.
Proof.
  split; [reflexivity|]. split.
  - refine (proj2 (proj2 (ide_linearizable blank_disk two_requests two_results ide_s4 ide_two_results)) _
      1%nat 1%nat read_buf (Nat.lt_succ_diag_r 1) eq_refl). by repeat constructor.
  - exact (proj1 (proj2 (ide_linearizable blank_disk _ _ ide_s6 ide_three_results))).
Defined.

Lemma ide_completes_witness :
  ∃ s', interrupts 2 ide_s2 = Done tt s' ∧ Z.land (b_flags (ibuf s' 1)) (Z.lor B_VALID B_DIRTY) = B_VALID.
Proof.
  destruct (ide_completes ide_s2 [0%nat] 1 []) as (s' & E & _ & Hf & _).
  - exact (ro_ok _ _ _ _ (ide_run_ok _ _ _ _ ide_two_requests)).
  - apply not_elem_of_nil.
  - apply not_elem_of_nil.
  - exists s'. split; [exact E|exact Hf].
Defined.
