(* ===== verification/Boot.v ===== *)
(** * The boot loader: bootmain.c

    It runs in 32-bit mode on physical memory and reads the disk through the ports of the
    drive.  The kernel on the disk has a multiboot header among its first 8192 bytes. *)

From S2P Require Import Prelude Params CString Ide IdeTheorems.

Definition SECTSIZE : Z := 512.

(** struct mbheader: fields of 4 bytes from [a] on. *)
Definition get32 (m : mem) (a : Z) : Z := le_get ((λ i, m (u32 (a + Z.of_nat i))) <$> seq 0 4).
Definition hdr_flags (m : mem) (h : Z) : Z := get32 m (h + 4).
Definition hdr_header_addr (m : mem) (h : Z) : Z := get32 m (h + 12).
Definition hdr_load_addr (m : mem) (h : Z) : Z := get32 m (h + 16).
Definition hdr_load_end_addr (m : mem) (h : Z) : Z := get32 m (h + 20).
Definition hdr_bss_end_addr (m : mem) (h : Z) : Z := get32 m (h + 24).
Definition hdr_entry_addr (m : mem) (h : Z) : Z := get32 m (h + 28).

Section boot.
Context {ctl : Type} `{Drive ctl}.

(** Memory and the drive. *)
Record bootst := BootSt { bt_mem : mem; bt_ctl : ctl }.
Local Abbreviation BM := (M Empty_set bootst).

Definition bt_out (p v : Z) : BM unit := modify (λ s, BootSt (bt_mem s) (outb p v (bt_ctl s))).
Definition bt_in (p : Z) : BM Z := λ s, let '(v, c) := inb p (bt_ctl s) in Done v (BootSt (bt_mem s) c).

(** The drive answers within this number of polls. *)
Variable polls : nat.

Fixpoint waitdisk (fuel : nat) : BM unit :=
  r <- bt_in 0x1f7;;
  if Z.land r 0xc0 =? 0x40 then ret tt
  else match fuel with O => panic "waitdisk: not ready" | S fuel => waitdisk fuel end.

(** insl: the bytes of the sector to memory. *)
Definition bt_insl (dst : Z) (n : nat) : BM unit := λ s,
  let '(d, c) := insl 0x1f0 n (bt_ctl s) in
  Done tt (BootSt (λ a, if u32 (a - dst) <? Z.of_nat (length d) then d !!! Z.to_nat (u32 (a - dst)) else bt_mem s a) c).

Definition readsect (dst offset : Z) : BM unit :=
  waitdisk polls ;;;
  bt_out 0x1f2 1 ;;;
  bt_out 0x1f3 (u8 offset) ;;;
  bt_out 0x1f4 (u8 (Z.shiftr offset 8)) ;;;
  bt_out 0x1f5 (u8 (Z.shiftr offset 16)) ;;;
  bt_out 0x1f6 (u8 (Z.lor (Z.shiftr offset 24) 0xe0)) ;;;
  bt_out 0x1f7 0x20 ;;;
  waitdisk polls ;;;
  bt_insl dst (Z.to_nat SECTSIZE).

(** The loop of readseg, with a bound on its turns. *)
Fixpoint readseg_loop (fuel : nat) (pa epa offset : Z) : BM unit :=
  if pa <? epa then
    match fuel with
    | O => panic "readseg: out of fuel"
    | S fuel => readsect pa offset ;;; readseg_loop fuel (u32 (pa + SECTSIZE)) epa (u32 (offset + 1))
    end
  else ret tt.

Definition readseg (pa count offset : Z) : BM unit :=
  let epa := u32 (pa + count) in
  let pa := u32 (pa - offset mod SECTSIZE) in
  let offset := offset / SECTSIZE + 1 in
  readseg_loop (Z.to_nat (count / SECTSIZE + 2)) pa epa offset.

(** for (n = 0; n < 8192/4; n++): the header, if there is one among the first [k] words. *)
Fixpoint find_header (k : nat) (n : Z) (x : Z) (m : mem) : option Z :=
  match k with
  | O => None
  | S k =>
      if (get32 m (x + 4 * n) =? 0x1BADB002) &&
         (u32 (get32 m (x + 4 * n) + get32 m (x + 4 * (n + 1)) + get32 m (x + 4 * (n + 2))) =? 0)
      then Some n else find_header k (n + 1) x m
  end.

Definition stosb (a n : Z) (m : mem) : mem := λ b, if u32 (b - a) <? n then 0 else m b.

(** The address that it jumps to; nothing when it returns. *)
Definition bootmain : BM (option Z) :=
  let x := 0x10000 in
  readseg x 8192 0 ;;;
  m <- gets bt_mem;;
  match find_header (Z.to_nat (8192 / 4)) 0 x m with
  | None => ret None
  | Some n =>
      let hdr := x + 4 * n in
      if Z.land (hdr_flags m hdr) 0x10000 =? 0 then ret None else
      if hdr_header_addr m hdr <? hdr_load_addr m hdr then ret None else
      if hdr_load_end_addr m hdr <? hdr_load_addr m hdr then ret None else
      readseg (hdr_load_addr m hdr) (u32 (hdr_load_end_addr m hdr - hdr_load_addr m hdr))
              (u32 (n * 4 - u32 (hdr_header_addr m hdr - hdr_load_addr m hdr))) ;;;
      m <- gets bt_mem;;
      (if hdr_load_end_addr m hdr <? hdr_bss_end_addr m hdr then
         modify (λ s, BootSt (stosb (hdr_load_end_addr m hdr) (u32 (hdr_bss_end_addr m hdr - hdr_load_end_addr m hdr)) (bt_mem s)) (bt_ctl s))
       else ret tt) ;;;
      m <- gets bt_mem;;
      ret (Some (hdr_entry_addr m hdr))
  end.
End boot.
Arguments BootSt {ctl}.
Arguments bt_mem {ctl}.
Arguments bt_ctl {ctl}.
