(* ===== verification/BootTheorems.v ===== *)
(** * The boot loader loads the kernel

    With the behaviour of the drive that the disk driver also relies on. *)

From S2P Require Import Prelude Params CString Bio Ide IdeTheorems IdeRuns Boot.

Lemma u32_id z : 0 ≤ z < 2 ^ 32 → u32 z = z.
Proof. apply Z.mod_small. Qed.

(** Whether an address lies in [n] bytes from [dst] on, as the processor computes it. *)
Lemma u32_within a dst n : 0 ≤ a < 2 ^ 32 → 0 ≤ dst → 0 ≤ n → dst + n ≤ 2 ^ 32 → (u32 (a - dst) <? n) = (dst <=? a) && (a <? dst + n).
Proof.
  intros Ha Hd Hn Hs. destruct (Z.leb_spec dst a) as [H|H]; cbn [andb].
  - rewrite u32_id by lia. destruct (Z.ltb_spec (a - dst) n), (Z.ltb_spec a (dst + n)); (done || lia).
  - apply Z.ltb_ge. unfold u32. rewrite <- (Z.mod_add _ 1) by lia. rewrite Z.mod_small by lia. lia.
Qed.

Lemma device_register h : 0 ≤ h < 16 → u8 (Z.lor h 0xe0) = Z.lor (Z.lor 0xe0 (Z.shiftl 0 4)) h.
Proof.
  intros Hh. assert (Hn : ∃ n, h = Z.of_nat n ∧ (n < 16)%nat) by (exists (Z.to_nat h); lia). destruct Hn as (n & -> & Hn).
  do 16 (destruct n as [|n]; [done|]). lia.
Qed.

Section boot.
Context {ctl : Type} {Dr : Drive ctl} {Laws : DriveLaws ctl} {Sound : Faultless ctl}.
Local Abbreviation bst := (@bootst ctl).

(** The first drive, and byte [o] of what is on it from sector 1 on. *)
Variable D : Z → block.
Hypothesis HD : ∀ s, length (D s) = 512%nat.
Definition fbyte (o : Z) : Z := D (o / 512 + 1) !!! Z.to_nat (o mod 512).
Definition has_disk (s : bst) : Prop := ∀ x, dr_disk (bt_ctl s) 0 x = D x.

Lemma waitdisk_poll fuel (s : bst) r c : poll fuel (bt_ctl s) = Some (r, c) → waitdisk fuel s = Done tt (BootSt (bt_mem s) c).
Proof.
  revert s. induction fuel as [|fuel IH]; intros s; cbn [poll waitdisk]; unfold bind, bt_in; destruct (inb 0x1f7 (bt_ctl s)) as [v c'];
    change (Z.lor IDE_BSY IDE_DRDY) with 0xc0; change IDE_DRDY with 0x40; destruct (Z.land v 0xc0 =? 0x40).
  - by intros [= -> ->].
  - done.
  - by intros [= -> ->].
  - intros E. by rewrite (IH (BootSt (bt_mem s) c') E).
Qed.

Lemma waitdisk_ok s : has_disk s →
  ∃ c, waitdisk dr_polls s = Done tt (BootSt (bt_mem s) c) ∧ has_disk (BootSt (bt_mem s) c) ∧ dr_reading c = dr_reading (bt_ctl s).
Proof.
  intros Hs. destruct (dr_ready (bt_ctl s)) as (r & c' & Hp & Hr & Hd & HR & _). exists c'. split; [by eapply waitdisk_poll|].
  split; [intros x; cbn; by rewrite Hd|done].
Qed.

Lemma readsect_ok s dst offset :
  has_disk s → 0 ≤ offset < 2 ^ 28 → 0 ≤ dst → dst + 512 ≤ 2 ^ 32 →
  ∃ s', readsect dr_polls dst offset s = Done tt s' ∧ has_disk s' ∧
    ∀ a, 0 ≤ a < 2 ^ 32 → bt_mem s' a = if (dst <=? a) && (a <? dst + 512) then D offset !!! Z.to_nat (a - dst) else bt_mem s a.
Proof.
  intros Hs Ho Hd He. destruct (waitdisk_ok s Hs) as (c1 & E1 & H1 & _).
  destruct (dr_read c1 0 offset ltac:(lia) Ho) as [Hr HDr]. set (c2 := outb 0x1f7 IDE_CMD_READ (regs 0 offset c1)) in *.
  assert (Hs2 : has_disk (BootSt (bt_mem s) c2)) by (intros x; cbn; rewrite HDr; apply H1).
  destruct (waitdisk_ok _ Hs2) as (c3 & E3 & H3 & HR3). cbn [bt_ctl bt_mem] in *. rewrite Hr in HR3.
  destruct (dr_insl c3 0 offset HR3 (no_fault _)) as (c4 & E4 & HD4). assert (HDo : dr_disk c3 0 offset = D offset) by apply H3. rewrite HDo in E4.
  assert (Hregs : outb 0x1f7 0x20 (outb 0x1f6 (u8 (Z.lor (Z.shiftr offset 24) 0xe0)) (outb 0x1f5 (u8 (Z.shiftr offset 16))
      (outb 0x1f4 (u8 (Z.shiftr offset 8)) (outb 0x1f3 (u8 offset) (outb 0x1f2 1 c1))))) = c2).
  { unfold c2, regs, IDE_CMD_READ. assert (Hm : ∀ x, u8 x = Z.land x 0xff) by (intros x; symmetry; apply (Z.land_ones x 8); lia).
    assert (Hh : 0 ≤ Z.shiftr offset 24 < 16) by (rewrite Z.shiftr_div_pow2 by lia; split; [apply Z.div_pos; lia|apply Z.div_lt_upper_bound; lia]).
    change 0x0f with (Z.ones 4). rewrite Z.land_ones, (Z.mod_small (Z.shiftr offset 24)) by lia. rewrite device_register by done. by rewrite !Hm. }
  eexists. split.
  { unfold readsect. rewrite (bind_done _ _ _ _ _ E1). unfold bt_out. do 6 (unfold bind at 1, modify at 1; cbn [bt_mem bt_ctl]). rewrite Hregs.
    rewrite (bind_done _ _ _ _ _ E3). unfold bt_insl. cbn [bt_ctl bt_mem]. change (Z.to_nat SECTSIZE) with 512%nat. rewrite E4. reflexivity. }
  split; [intros x; cbn; rewrite HD4; apply H3|]. intros a Ha. cbn [bt_mem]. rewrite HD.
  change (Z.of_nat 512) with 512. rewrite u32_within by lia. destruct (Z.leb_spec dst a), (Z.ltb_spec a (dst + 512)); cbn [andb]; try done.
  by rewrite u32_id by lia.
Qed.

Lemma fbyte_at offset i : 0 ≤ i < 512 → fbyte (512 * (offset - 1) + i) = D offset !!! Z.to_nat i.
Proof.
  intros Hi. unfold fbyte. rewrite Z.add_comm, Z.mul_comm, Z.div_add, Z.mod_add, Z.div_small, Z.mod_small by lia. do 2 f_equal. lia.
Qed.

Lemma readseg_loop_ok fuel s pa epa offset :
  has_disk s → 0 ≤ pa → epa + 512 ≤ 2 ^ 32 → 1 ≤ offset → offset + Z.of_nat fuel ≤ 2 ^ 28 → epa - pa ≤ 512 * Z.of_nat fuel →
  ∃ s', readseg_loop dr_polls fuel pa epa offset s = Done tt s' ∧ has_disk s' ∧
    (∀ a, pa ≤ a < epa → bt_mem s' a = fbyte (512 * (offset - 1) + (a - pa))) ∧
    (∀ a, 0 ≤ a < 2 ^ 32 → a < pa ∨ epa + 512 ≤ a → bt_mem s' a = bt_mem s a).
Proof.
  revert s pa offset. induction fuel as [|fuel IH]; intros s pa offset Hs Hp He Ho Hf Hn; cbn [readseg_loop];
    destruct (Z.ltb_spec pa epa) as [Hlt|Hge]; try lia; try (exists s; split; [done|split; [done|split; [intros a Ha; lia|done]]]).
  destruct (readsect_ok s pa offset Hs) as (s1 & E1 & H1 & M1); [lia|lia|lia|]. rewrite (bind_done _ _ _ _ _ E1).
  rewrite !u32_id by (unfold SECTSIZE; lia). unfold SECTSIZE.
  destruct (IH s1 (pa + 512) (offset + 1) H1) as (s2 & E2 & H2 & M2 & F2); [lia|lia|lia|lia|lia|].
  exists s2. split; [exact E2|]. split; [done|]. split.
  - intros a Ha. destruct (decide (a < pa + 512)) as [Hin|Hout].
    + rewrite F2 by lia. rewrite M1 by lia. rewrite (proj2 (Z.leb_le _ _)), (proj2 (Z.ltb_lt _ _)) by lia. cbn [andb]. by rewrite fbyte_at by lia.
    + rewrite M2 by lia. f_equal. lia.
  - intros a Ha Hout. rewrite F2 by lia. rewrite M1 by done.
    destruct (Z.leb_spec pa a), (Z.ltb_spec a (pa + 512)); cbn [andb]; (done || lia).
Qed.

Lemma readseg_ok s pa count offset :
  has_disk s → 0 ≤ offset → offset mod 512 ≤ pa → 0 ≤ count → pa + count + 512 ≤ 2 ^ 32 → offset + count ≤ 2 ^ 36 →
  ∃ s', readseg dr_polls pa count offset s = Done tt s' ∧ has_disk s' ∧
    (∀ a, pa ≤ a < pa + count → bt_mem s' a = fbyte (offset + (a - pa))) ∧
    (∀ a, 0 ≤ a < 2 ^ 32 → a < pa - 512 ∨ pa + count + 512 ≤ a → bt_mem s' a = bt_mem s a).
Proof.
  intros Hs Ho Hp Hc He Hr. unfold readseg. unfold SECTSIZE. pose proof (Z.mod_pos_bound offset 512 ltac:(lia)) as Hm. pose proof (Z.div_mod offset 512 ltac:(lia)) as Hdm.
  pose proof (Z.div_mod count 512 ltac:(lia)) as Hcd. pose proof (Z.mod_pos_bound count 512 ltac:(lia)) as Hcm.
  assert (Hc0 : 0 ≤ count / 512) by (apply Z.div_pos; lia). assert (Ho0 : 0 ≤ offset / 512) by (apply Z.div_pos; lia).
  rewrite !u32_id by lia.
  destruct (readseg_loop_ok (Z.to_nat (count / 512 + 2)) s (pa - offset mod 512) (pa + count) (offset / 512 + 1) Hs) as (s' & E & H1 & H2 & H3); [lia|lia|lia|lia|lia|].
  exists s'. split; [exact E|]. split; [done|]. split.
  - intros a Ha. rewrite H2 by lia. f_equal. lia.
  - intros a Ha Hout. apply H3; [done|lia].
Qed.

(** ** The header *)

(** The file as it lies in the scratch space. *)
Definition scratch : mem := λ a, fbyte (a - 0x10000).

Lemma get32_ext m m' a : (∀ b, a ≤ b < a + 4 → m b = m' b) → 0 ≤ a → a + 4 ≤ 2 ^ 32 → get32 m a = get32 m' a.
Proof.
  intros Hm H0 Ha. unfold get32. f_equal. apply list_fmap_ext. intros i k Hk. apply list_elem_of_lookup_2, elem_of_seq in Hk.
  rewrite u32_id by lia. apply Hm. lia.
Qed.

Lemma find_header_ext k n m m' r :
  find_header k n 0x10000 m = Some r → 0 ≤ n → r ≤ 2040 → (∀ a, 0x10000 ≤ a < 0x12000 → m a = m' a) →
  find_header k n 0x10000 m' = Some r ∧ n ≤ r.
Proof.
  intros Hf Hn Hr Hm. revert n Hf Hn. induction k as [|k IH]; intros n Hf Hn; [done|]. cbn [find_header] in *.
  assert (Hle : n ≤ r).
  { destruct (_ && _); [injection Hf as <-; lia|]. destruct (IH (n + 1) Hf ltac:(lia)). lia. }
  rewrite <- !(get32_ext m m') by (first [intros b Hb; apply Hm; lia|lia]).
  destruct (_ && _); [by injection Hf as <-|]. destruct (IH (n + 1) Hf ltac:(lia)). done.
Qed.

Hypothesis HB : ∀ x, bytes_ok (D x).

Lemma scratch_field a : 0 ≤ a → a + 4 ≤ 2 ^ 32 → 0 ≤ get32 scratch a < 2 ^ 32.
Proof.
  intros H0 Ha. unfold get32. pose proof (le_get_bound ((λ i, scratch (u32 (a + Z.of_nat i))) <$> seq 0 4)) as H. rewrite length_fmap, length_seq in H.
  change (256 ^ Z.of_nat 4) with (2 ^ 32) in H. apply H. apply Forall_fmap, Forall_forall. intros i _. unfold compose, scratch, fbyte.
  pose proof (Z.mod_pos_bound (u32 (a + Z.of_nat i) - 0x10000) 512 ltac:(lia)) as Hm.
  apply (Forall_lookup_total_1 is_byte); [apply HB|rewrite HD; lia].
Qed.

(** The fields of the header are the same in memory that agrees with the file. *)
Lemma header_ext m n : 0 ≤ n ≤ 2040 → (∀ a, 0x10000 ≤ a < 0x12000 → m a = scratch a) →
  let h := 0x10000 + 4 * n in
  hdr_flags m h = hdr_flags scratch h ∧ hdr_header_addr m h = hdr_header_addr scratch h ∧ hdr_load_addr m h = hdr_load_addr scratch h ∧
  hdr_load_end_addr m h = hdr_load_end_addr scratch h ∧ hdr_bss_end_addr m h = hdr_bss_end_addr scratch h ∧ hdr_entry_addr m h = hdr_entry_addr scratch h.
Proof.
  intros Hn Hm h. unfold hdr_flags, hdr_header_addr, hdr_load_addr, hdr_load_end_addr, hdr_bss_end_addr, hdr_entry_addr, h.
  repeat split; (apply get32_ext; [intros b Hb; apply Hm; lia|lia|lia]).
Qed.

(** What the header at word [n] must say. *)
Record header_ok (n : Z) : Prop := {
  ho_found : find_header 2048 0 0x10000 scratch = Some n;
  ho_n : n ≤ 2040;
  ho_flags : Z.land (hdr_flags scratch (0x10000 + 4 * n)) 0x10000 ≠ 0;
  ho_load : hdr_load_addr scratch (0x10000 + 4 * n) ≤ hdr_header_addr scratch (0x10000 + 4 * n) ≤ hdr_load_addr scratch (0x10000 + 4 * n) + 4 * n;
  ho_low : 0x12200 ≤ hdr_load_addr scratch (0x10000 + 4 * n) ≤ hdr_load_end_addr scratch (0x10000 + 4 * n);
  ho_high : hdr_load_end_addr scratch (0x10000 + 4 * n) + 512 ≤ 2 ^ 32
}.

(** C30: the boot loader loads the kernel.  When the drive reports no errors, which bootmain
    does not look for, and has a kernel with a multiboot header among its first words that
    asks for memory above the scratch space, bootmain jumps to
    the entry point of the header with the bytes of the file at the addresses from
    load_addr to load_end_addr and zeros from there to bss_end_addr. *)
Theorem boot_loads s n :
  has_disk s → header_ok n →
  let h := 0x10000 + 4 * n in
  let start := hdr_load_addr scratch h in
  let stop := hdr_load_end_addr scratch h in
  ∃ s', bootmain dr_polls s = Done (Some (hdr_entry_addr scratch h)) s' ∧
    (∀ a, start ≤ a < stop → bt_mem s' a = fbyte (4 * n - (hdr_header_addr scratch h - start) + (a - start))) ∧
    (∀ a, stop ≤ a < hdr_bss_end_addr scratch h → bt_mem s' a = 0).
Proof.
  intros Hs [Hf Hn2 Hfl Hld Hlow Hhi] h start stop. fold h in Hfl, Hld, Hlow, Hhi. fold start in Hld, Hlow. fold stop in Hlow, Hhi.
  destruct (readseg_ok s 0x10000 8192 0 Hs) as (s1 & E1 & H1 & M1 & _); [lia|done|lia|lia|lia|].
  assert (Hm1 : ∀ a, 0x10000 ≤ a < 0x12000 → bt_mem s1 a = scratch a) by (intros a Ha; rewrite M1 by lia; unfold scratch; f_equal; lia).
  destruct (find_header_ext 2048 0 scratch (bt_mem s1) n Hf) as [Hf1 Hn1]; [lia|done|intros a Ha; by rewrite Hm1|].
  destruct (header_ext (bt_mem s1) n ltac:(lia) Hm1) as (F1 & F2 & F3 & F4 & F5 & F6). fold h in F1, F2, F3, F4, F5, F6.
  assert (Hh : 0 ≤ hdr_header_addr scratch h < 2 ^ 32) by (apply scratch_field; unfold h; lia).
  assert (Hb : 0 ≤ hdr_bss_end_addr scratch h < 2 ^ 32) by (apply scratch_field; unfold h; lia).
  destruct (readseg_ok s1 start (stop - start) (4 * n - (hdr_header_addr scratch h - start)) H1) as (s2 & E2 & H2 & M2 & U2); [lia| |lia|lia|lia|].
  { pose proof (Z.mod_pos_bound (4 * n - (hdr_header_addr scratch h - start)) 512). lia. }
  assert (Hm2 : ∀ a, 0x10000 ≤ a < 0x12000 → bt_mem s2 a = scratch a) by (intros a Ha; rewrite U2 by lia; by apply Hm1).
  destruct (header_ext (bt_mem s2) n ltac:(lia) Hm2) as (_ & _ & _ & G4 & G5 & _). fold h in G4, G5.
  set (s3 := if stop <? hdr_bss_end_addr scratch h then BootSt (stosb stop (hdr_bss_end_addr scratch h - stop) (bt_mem s2)) (bt_ctl s2) else s2).
  assert (Hm3 : ∀ a, 0 ≤ a < 2 ^ 32 → bt_mem s3 a = if (stop <=? a) && (a <? hdr_bss_end_addr scratch h) then 0 else bt_mem s2 a).
  { intros a Ha. unfold s3. destruct (Z.ltb_spec stop (hdr_bss_end_addr scratch h)).
    - cbn [bt_mem]. unfold stosb. rewrite u32_within by lia. by replace (stop + (hdr_bss_end_addr scratch h - stop)) with (hdr_bss_end_addr scratch h) by lia.
    - destruct (Z.leb_spec stop a), (Z.ltb_spec a (hdr_bss_end_addr scratch h)); cbn [andb]; (done || lia). }
  destruct (header_ext (bt_mem s3) n ltac:(lia)) as (_ & _ & _ & _ & _ & K6).
  { intros a Ha. rewrite Hm3 by lia. rewrite (proj2 (Z.leb_gt _ _)) by lia. by apply Hm2. }
  fold h in K6.
  exists s3. split; [|split].
  - unfold bootmain. rewrite (bind_done _ _ _ _ _ E1). unfold bind at 1, gets at 1. change (Z.to_nat (8192 / 4)) with 2048%nat. rewrite Hf1. fold h.
    rewrite F1, F2, F3, F4. fold start stop. rewrite (proj2 (Z.eqb_neq _ 0)) by done. rewrite !(proj2 (Z.ltb_ge _ _)) by lia.
    rewrite !u32_id by (rewrite ?u32_id; lia). rewrite (Z.mul_comm n 4), (bind_done _ _ _ _ _ E2). unfold bind at 1, gets at 1. rewrite G4, G5. fold stop.
    rewrite <- K6. unfold s3. destruct (Z.ltb_spec stop (hdr_bss_end_addr scratch h)); [rewrite u32_id by lia|]; reflexivity.
  - intros a Ha. rewrite Hm3 by lia. rewrite (proj2 (Z.leb_gt _ _)) by lia. cbn [andb]. apply M2. lia.
  - intros a Ha. rewrite Hm3 by lia. by rewrite (proj2 (Z.leb_le _ _)), (proj2 (Z.ltb_lt _ _)) by lia.
Qed.
End boot.

(** A kernel of 64 bytes at 1M, with the header at its start, and 64 more bytes of zeros. *)
Definition tiny_sector : block :=
  concat (le_put 4 <$> [0x1BADB002; 0x10000; 2 ^ 32 - 0x1BADB002 - 0x10000; 0x100000; 0x100000; 0x100040; 0x100080; 0x100020]) ++ replicate 480 7.
Definition tiny_disk (s : Z) : block := if s =? 1 then tiny_sector else replicate 512 0.
Definition tiny_boot : @bootst good_ata := BootSt (λ _, 1) (Ata (λ _, 0) (λ _ s, tiny_disk s)).

Lemma tiny_len s : length (tiny_disk s) = 512%nat.
Proof. unfold tiny_disk. by destruct (s =? 1). Qed.
Lemma tiny_bytes s : bytes_ok (tiny_disk s).
Proof. unfold tiny_disk. destruct (s =? 1); apply (bool_decide_unpack _); by vm_compute. Qed.

Lemma boot_loads_witness :
  ∃ s', bootmain 0 tiny_boot = Done (Some 0x100020) s' ∧ bt_mem s' 0x100000 = 0x02 ∧ bt_mem s' 0x10003f = 7 ∧ bt_mem s' 0x100040 = 0.
Proof.
  destruct (boot_loads tiny_disk tiny_len tiny_bytes tiny_boot 0) as (s' & E & H1 & H2); [done|split; vm_compute; (done || (split; discriminate) || discriminate)|].
  assert (Hs : hdr_load_addr (scratch tiny_disk) 0x10000 = 0x100000) by (by vm_compute).
  assert (He : hdr_load_end_addr (scratch tiny_disk) 0x10000 = 0x100040) by (by vm_compute).
  assert (Hb : hdr_bss_end_addr (scratch tiny_disk) 0x10000 = 0x100080) by (by vm_compute).
  assert (Hh : hdr_header_addr (scratch tiny_disk) 0x10000 = 0x100000) by (by vm_compute).
  change (0x10000 + 4 * 0) with 0x10000 in *. rewrite Hs, He, Hh in H1. rewrite He, Hb in H2. clear Hs He Hb Hh.
  exists s'. split; [exact E|]. split; [exact (H1 0x100000 ltac:(lia))|]. split; [exact (H1 0x10003f ltac:(lia))|exact (H2 0x100040 ltac:(lia))].
Defined.
