(* ===== verification/Asm.v ===== *)
(** * Machine code: an interpreter for the instructions that the .S files use

    The registers, the control and model-specific registers and memory of one processor, and
    the files swtch.S, trapasm.S, usys.S, initcode.S, entry.S, bootasm.S and entryother.S as
    lists of instructions, with vectors.pl, which writes vectors.S, as the function that it
    computes.  A run follows the jumps inside a file and ends where control leaves it: at a
    call of a C function, or at a return to code outside.  Of the arithmetic flags only the
    zero flag is kept. *)

From S2P Require Import Prelude Params CString Core Vm Syscall.

(** ** The processor *)
Inductive reg := RAX | RBX | RCX | RDX | RSI | RDI | RBP | RSP | R8 | R9 | R10 | R11 | R12 | R13 | R14 | R15.
Inductive sreg := CS | DS | ES | FS | GS | SS.
Inductive creg := CR0 | CR3 | CR4.
Definition reg_num (r : reg) : nat :=
  match r with
  | RAX => 0 | RBX => 1 | RCX => 2 | RDX => 3 | RSI => 4 | RDI => 5 | RBP => 6 | RSP => 7
  | R8 => 8 | R9 => 9 | R10 => 10 | R11 => 11 | R12 => 12 | R13 => 13 | R14 => 14 | R15 => 15
  end.
Lemma reg_num_inj r r' : reg_num r = reg_num r' → r = r'.
Proof. by destruct r, r'. Qed.
#[global] Instance reg_eq_dec : EqDecision reg := λ r r',
  match decide (reg_num r = reg_num r') with left H => left (reg_num_inj r r' H) | right H => right (λ E, H (f_equal reg_num E)) end.
#[global] Instance sreg_eq_dec : EqDecision sreg.
Proof. solve_decision. Defined.
#[global] Instance creg_eq_dec : EqDecision creg.
Proof. solve_decision. Defined.

Inductive width := W8 | W16 | W32 | W64.
Definition nbytes (w : width) : nat := match w with W8 => 1 | W16 => 2 | W32 => 4 | W64 => 8 end.
Definition cut (w : width) (v : Z) : Z := v mod 256 ^ Z.of_nat (nbytes w).

(** Labels are addresses that the linker gives. *)
Definition label := string.

Inductive operand :=
| Imm (v : Z)                (* $v *)
| Lbl (l : label) (d : Z)    (* $(l + d) *)
| Rg (r : reg)               (* %r *)
| Sg (s : sreg)
| Cr (c : creg)
| At (r : reg) (d : Z)       (* d(%r) *)
| Abs (a : Z)                (* a *)
| Abl (l : label) (d : Z)    (* (l + d) *)
| Low (l : label)            (* (l - mboot_header + mboot_load_addr) *)
| At_fs (d : Z).             (* %fs:(d) *)

(** [Call] and [Syscall] have the label of the instruction behind them. *)
Inductive instr :=
| Push (o : operand)
| Pop (r : reg)
| Mov (w : width) (src dst : operand)
| Add (w : width) (src dst : operand)
| Xor (w : width) (src dst : operand)
| Or (w : width) (src dst : operand)
| Shr (k : Z) (r : reg)
| Bts (k : Z) (r : reg)
| Test (w : width) (a b : operand)
| Jnz (l : label)
| Jmp (l : label)
| Jmp_reg (r : reg)
| Ljmp (sel : Z) (l : label)
| Call (w : width) (f : label) (next : label)
| Call_at (w : width) (o : operand) (next : label)
| Ret
| Iretq
| Syscall (next : label)
| Sysretq
| Cli
| Rep_stosb
| Lgdt (o : operand)
| Rdmsr
| Wrmsr
| In (port : Z)
| Out (port : Z)
| Outw_dx.

(** [c_ip] is the address where control goes when the run ends at a return or a jump
    through a register; [c_in] the bytes that the input ports give, [c_out] the output. *)
Record cpu := Cpu {
  c_reg : reg → Z;
  c_flags : Z;
  c_seg : sreg → Z;
  c_cr : creg → Z;
  c_msr : Z → Z;
  c_gdtr : Z;
  c_ip : Z;
  c_mem : mem;
  c_in : list Z;
  c_out : list (Z * Z)
}.

Definition set_reg (r : reg) (v : Z) (s : cpu) : cpu :=
  Cpu (λ x, if decide (x = r) then v else c_reg s x) (c_flags s) (c_seg s) (c_cr s) (c_msr s) (c_gdtr s) (c_ip s) (c_mem s) (c_in s) (c_out s).
Definition set_flags (v : Z) (s : cpu) : cpu :=
  Cpu (c_reg s) v (c_seg s) (c_cr s) (c_msr s) (c_gdtr s) (c_ip s) (c_mem s) (c_in s) (c_out s).
Definition set_seg (r : sreg) (v : Z) (s : cpu) : cpu :=
  Cpu (c_reg s) (c_flags s) (λ x, if decide (x = r) then v else c_seg s x) (c_cr s) (c_msr s) (c_gdtr s) (c_ip s) (c_mem s) (c_in s) (c_out s).
Definition set_cr (r : creg) (v : Z) (s : cpu) : cpu :=
  Cpu (c_reg s) (c_flags s) (c_seg s) (λ x, if decide (x = r) then v else c_cr s x) (c_msr s) (c_gdtr s) (c_ip s) (c_mem s) (c_in s) (c_out s).
Definition set_msr (r v : Z) (s : cpu) : cpu :=
  Cpu (c_reg s) (c_flags s) (c_seg s) (c_cr s) (λ x, if decide (x = r) then v else c_msr s x) (c_gdtr s) (c_ip s) (c_mem s) (c_in s) (c_out s).
Definition set_gdtr (v : Z) (s : cpu) : cpu :=
  Cpu (c_reg s) (c_flags s) (c_seg s) (c_cr s) (c_msr s) v (c_ip s) (c_mem s) (c_in s) (c_out s).
Definition set_ip (v : Z) (s : cpu) : cpu :=
  Cpu (c_reg s) (c_flags s) (c_seg s) (c_cr s) (c_msr s) (c_gdtr s) v (c_mem s) (c_in s) (c_out s).
Definition set_cmem (v : mem) (s : cpu) : cpu :=
  Cpu (c_reg s) (c_flags s) (c_seg s) (c_cr s) (c_msr s) (c_gdtr s) (c_ip s) v (c_in s) (c_out s).
Definition set_in (v : list Z) (s : cpu) : cpu :=
  Cpu (c_reg s) (c_flags s) (c_seg s) (c_cr s) (c_msr s) (c_gdtr s) (c_ip s) (c_mem s) v (c_out s).
Definition add_out (p v : Z) (s : cpu) : cpu :=
  Cpu (c_reg s) (c_flags s) (c_seg s) (c_cr s) (c_msr s) (c_gdtr s) (c_ip s) (c_mem s) (c_in s) (c_out s ++ [(p, v)]).

(** Numbers in memory, little-endian. *)
Definition load (n : nat) (m : mem) (a : Z) : Z := le_get ((λ i, m (a + Z.of_nat i)) <$> seq 0 n).
Definition put (n : nat) (a v : Z) (m : mem) : mem := λ x,
  if (a <=? x) && (x <? a + Z.of_nat n) then le_put n v !!! Z.to_nat (x - a) else m x.

Definition FL_ZF : Z := 0x40.
Definition FL_TF : Z := 0x100.
Definition FL_IF : Z := 0x200.
Definition FL_DF : Z := 0x400.
Definition FL_IOPL_3 : Z := 0x3000.
Definition FL_NT : Z := 0x4000.
Definition FL_AC : Z := 0x40000.
Definition MSR_FS_BASE : Z := 0xc0000100.
Definition MSR_EFER : Z := 0xc0000080.
Definition MSR_STAR : Z := 0xc0000081.
Definition MSR_LSTAR : Z := 0xc0000082.
Definition MSR_CSTAR : Z := 0xc0000083.
Definition MSR_SFMASK : Z := 0xc0000084.

(** Where control leaves the file. *)
Inductive event :=
| Calls (f : label)     (* a C function; the return address is on the stack *)
| Jumps (f : label)     (* a C function *)
| Leaves                (* code at [c_ip] *)
| Irets
| Syscalls
| Sysrets.

(** A file: its labels in order, each with the code up to the next one. *)
Definition program := list (label * list instr).

Section cpu.
Variable lbl : label → Z.

Fixpoint code_at (p : program) (l : label) : option (list instr) :=
  match p with
  | [] => None
  | (l', il) :: p => if decide (l = l') then Some (il ++ concat (snd <$> p)) else code_at p l
  end.

Definition effective (o : operand) (s : cpu) : Z :=
  match o with
  | At r d => u64 (c_reg s r + d)
  | Abs a => a
  | Abl l d => lbl l + d
  | Low l => lbl l - lbl "mboot_header"%string + lbl "mboot_load_addr"%string
  | At_fs d => u64 (c_msr s MSR_FS_BASE + d)
  | _ => 0
  end.

Definition value (w : width) (o : operand) (s : cpu) : Z :=
  match o with
  | Imm v => cut w v
  | Lbl l d => cut w (lbl l + d)
  | Rg r => cut w (c_reg s r)
  | Sg r => c_seg s r
  | Cr r => c_cr s r
  | _ => load (nbytes w) (c_mem s) (effective o s)
  end.

(** A 32-bit result clears the upper half of the register; shorter ones keep the rest. *)
Definition merge (w : width) (old v : Z) : Z :=
  match w with
  | W64 | W32 => v
  | _ => Z.lor (Z.ldiff old (Z.ones (8 * Z.of_nat (nbytes w)))) v
  end.

Definition assign (w : width) (o : operand) (v : Z) (s : cpu) : cpu :=
  match o with
  | Rg r => set_reg r (merge w (c_reg s r) v) s
  | Sg r => set_seg r v s
  | Cr r => set_cr r v s
  | _ => set_cmem (put (nbytes w) (effective o s) v (c_mem s)) s
  end.

Definition set_zf (v : Z) (s : cpu) : cpu :=
  set_flags (if v =? 0 then Z.lor (c_flags s) FL_ZF else Z.ldiff (c_flags s) FL_ZF) s.

Definition push (w : width) (v : Z) (s : cpu) : cpu :=
  let sp := cut w (c_reg s RSP - Z.of_nat (nbytes w)) in
  set_cmem (put (nbytes w) sp v (c_mem s)) (set_reg RSP sp s).
Definition pop (s : cpu) : Z * cpu :=
  (load 8 (c_mem s) (c_reg s RSP), set_reg RSP (u64 (c_reg s RSP + 8)) s).

Definition arith (w : width) (v : Z) (dst : operand) (s : cpu) : cpu := set_zf v (assign w dst v s).

Definition iret (s : cpu) : cpu :=
  let '(ip, s) := pop s in
  let '(cs, s) := pop s in
  let '(fl, s) := pop s in
  let '(sp, s) := pop s in
  let '(ss, s) := pop s in
  set_ip ip (set_reg RSP sp (set_flags fl (set_seg CS cs (set_seg SS ss s)))).

(** syscall: from user code whose next instruction is at [next]. *)
Definition syscall_insn (next : Z) (s : cpu) : cpu :=
  let star := Z.shiftr (c_msr s MSR_STAR) 32 mod 2 ^ 16 in
  set_ip (c_msr s MSR_LSTAR)
    (set_seg CS (Z.ldiff star 3) (set_seg SS (Z.ldiff star 3 + 8)
      (set_flags (Z.ldiff (c_flags s) (c_msr s MSR_SFMASK))
        (set_reg R11 (c_flags s) (set_reg RCX next s))))).

(** sysretq; the reserved flags of R11 are dropped and bit 1 is set. *)
Definition sysret_insn (s : cpu) : cpu :=
  let star := Z.shiftr (c_msr s MSR_STAR) 48 in
  set_ip (c_reg s RCX)
    (set_seg CS (Z.lor (star + 16) 3) (set_seg SS (Z.lor (star + 8) 3)
      (set_flags (Z.lor (Z.land (c_reg s R11) 0x3c7fd7) 2) s))).

Fixpoint run (p : program) (fuel : nat) (il : list instr) (s : cpu) : option (event * cpu) :=
  match fuel with
  | O => None
  | S fuel =>
      match il with
      | [] => None
      | i :: il =>
          match i with
          | Push o => run p fuel il (push W64 (value W64 o s) s)
          | Pop r => let '(v, s) := pop s in run p fuel il (set_reg r v s)
          | Mov w src dst => run p fuel il (assign w dst (value w src s) s)
          | Add w src dst => run p fuel il (arith w (cut w (value w dst s + value w src s)) dst s)
          | Xor w src dst => run p fuel il (arith w (Z.lxor (value w dst s) (value w src s)) dst s)
          | Or w src dst => run p fuel il (arith w (Z.lor (value w dst s) (value w src s)) dst s)
          | Shr k r => run p fuel il (arith W64 (Z.shiftr (c_reg s r) k) (Rg r) s)
          | Bts k r => run p fuel il (assign W32 (Rg r) (Z.setbit (value W32 (Rg r) s) k) s)
          | Test w a b => run p fuel il (set_zf (Z.land (value w a s) (value w b s)) s)
          | Jnz l =>
              if negb (Z.land (c_flags s) FL_ZF =? 0) then run p fuel il s
              else match code_at p l with Some il => run p fuel il s | None => Some (Jumps l, s) end
          | Jmp l => match code_at p l with Some il => run p fuel il s | None => Some (Jumps l, s) end
          | Jmp_reg r => Some (Leaves, set_ip (c_reg s r) s)
          | Ljmp sel l =>
              let s := set_seg CS sel s in
              match code_at p l with Some il => run p fuel il s | None => Some (Jumps l, s) end
          | Call w f next =>
              let s := push w (lbl next) s in
              match code_at p f with Some il => run p fuel il s | None => Some (Calls f, s) end
          | Call_at w o next =>
              let a := value w o s in
              Some (Leaves, set_ip a (push w (lbl next) s))
          | Ret => let '(ip, s) := pop s in Some (Leaves, set_ip ip s)
          | Iretq => Some (Irets, iret s)
          | Syscall next => Some (Syscalls, syscall_insn (lbl next) s)
          | Sysretq => Some (Sysrets, sysret_insn s)
          | Cli => run p fuel il (set_flags (Z.ldiff (c_flags s) FL_IF) s)
          | Rep_stosb =>
              run p fuel il
                (set_reg RDI (u32 (c_reg s RDI + c_reg s RCX)) (set_reg RCX 0
                  (set_cmem (λ x, if (c_reg s RDI <=? x) && (x <? c_reg s RDI + c_reg s RCX) then cut W8 (c_reg s RAX) else c_mem s x) s)))
          | Lgdt o => run p fuel il (set_gdtr (effective o s) s)
          | Rdmsr =>
              let v := c_msr s (cut W32 (c_reg s RCX)) in
              run p fuel il (set_reg RAX (v mod 2 ^ 32) (set_reg RDX (Z.shiftr v 32) s))
          | Wrmsr =>
              run p fuel il (set_msr (cut W32 (c_reg s RCX)) (Z.lor (Z.shiftl (cut W32 (c_reg s RDX)) 32) (cut W32 (c_reg s RAX))) s)
          | In port =>
              match c_in s with
              | [] => None
              | v :: vs => run p fuel il (assign W8 (Rg RAX) v (set_in vs s))
              end
          | Out port => run p fuel il (add_out port (cut W8 (c_reg s RAX)) s)
          | Outw_dx => run p fuel il (add_out (cut W16 (c_reg s RDX)) (cut W16 (c_reg s RAX)) s)
          end
      end
  end.
End cpu.

(** ** swtch.S, and struct context of proc.h *)
Record context := Context { x_r15 : Z; x_r14 : Z; x_r13 : Z; x_r12 : Z; x_rbx : Z; x_rbp : Z; x_rip : Z }.
Definition context_at (m : mem) (a : Z) : context :=
  let f i := load 8 m (a + 8 * i) in Context (f 0) (f 1) (f 2) (f 3) (f 4) (f 5) (f 6).

Definition swtch : program :=
  [("swtch",
     [Push (Rg RBP); Push (Rg RBX); Push (Rg R12); Push (Rg R13); Push (Rg R14); Push (Rg R15);
      Mov W64 (Rg RSP) (At RDI 0);
      Mov W64 (Rg RSI) (Rg RSP);
      Pop R15; Pop R14; Pop R13; Pop R12; Pop RBX; Pop RBP;
      Ret])]%string.

(** ** trapasm.S *)
Definition alltraps_code : list instr :=
  [Push (Rg R15); Push (Rg R14); Push (Rg R13); Push (Rg R12); Push (Rg R11); Push (Rg R10); Push (Rg R9); Push (Rg R8);
   Push (Rg RDI); Push (Rg RSI); Push (Rg RBP); Push (Rg RDX); Push (Rg RCX); Push (Rg RBX); Push (Rg RAX);
   Mov W64 (Rg RSP) (Rg RDI);
   Call W64 "trap" "trapret"].
Definition trapret_code : list instr :=
  [Pop RAX; Pop RBX; Pop RCX; Pop RDX; Pop RBP; Pop RSI; Pop RDI; Pop R8; Pop R9; Pop R10; Pop R11;
   Pop R12; Pop R13; Pop R14; Pop R15;
   Add W64 (Imm 16) (Rg RSP);
   Iretq].
Definition syscall_entry_code : list instr :=
  [Mov W64 (Rg RAX) (At_fs 0);
   Mov W64 (At_fs (-8)) (Rg RAX);
   Mov W64 (At RAX 0x10) (Rg RAX);
   Add W64 (Imm (4096 - 16)) (Rg RAX);
   Mov W64 (Rg RSP) (At RAX 0);
   Mov W64 (Rg RAX) (Rg RSP);
   Mov W64 (At_fs 0) (Rg RAX);
   Push (Rg R11);
   Push (Imm 0);
   Push (Rg RCX);
   Push (Imm 0);
   Push (Imm 0);
   Push (Rg R15); Push (Rg R14); Push (Rg R13); Push (Rg R12); Push (Rg R11); Push (Rg R10); Push (Rg R9); Push (Rg R8);
   Push (Rg RDI); Push (Rg RSI); Push (Rg RBP); Push (Rg RDX); Push (Rg RCX); Push (Rg RBX); Push (Rg RAX);
   Mov W64 (Rg RSP) (Rg RDI);
   Call W64 "syscall" "syscall_trapret"].
Definition syscall_trapret_code : list instr :=
  [Pop RAX; Pop RBX; Pop RCX; Pop RDX; Pop RBP; Pop RSI; Pop RDI; Pop R8; Pop R9; Pop R10; Pop R11;
   Pop R12; Pop R13; Pop R14; Pop R15;
   Add W64 (Imm 40) (Rg RSP);
   Cli;
   Mov W64 (At RSP 0) (Rg RSP);
   Sysretq].
Definition trapasm : program :=
  [("alltraps", alltraps_code); ("trapret", trapret_code);
   ("syscall_entry", syscall_entry_code); ("syscall_trapret", syscall_trapret_code)]%string.

(** ** vectors.pl *)

(** The traps for which the processor pushes an error code. *)
Definition has_error (i : Z) : bool := (i =? 8) || ((10 <=? i) && (i <=? 14)) || (i =? 17).
Definition vector (i : Z) : list instr :=
  (if negb (has_error i) then [Push (Imm 0)] else []) ++ [Push (Imm i); Jmp "alltraps"].

(** ** usys.S *)
Definition stub (name : label) (n : Z) : list instr :=
  [Mov W64 (Imm n) (Rg RAX); Mov W64 (Rg RCX) (Rg R10); Syscall (name +:+ ".ret")%string; Ret].
Definition usys : list (label * Z) :=
  [("fork", SYS_fork); ("exit", SYS_exit); ("wait", SYS_wait); ("pipe", SYS_pipe); ("read", SYS_read);
   ("write", SYS_write); ("close", SYS_close); ("kill", SYS_kill); ("exec", SYS_exec); ("open", SYS_open);
   ("mknod", SYS_mknod); ("unlink", SYS_unlink); ("fstat", SYS_fstat); ("link", SYS_link); ("mkdir", SYS_mkdir);
   ("chdir", SYS_chdir); ("dup", SYS_dup); ("getpid", SYS_getpid); ("sbrk", SYS_sbrk); ("sleep", SYS_sleep);
   ("uptime", SYS_uptime); ("triggerpanic", SYS_triggerpanic)]%string.

(** ** initcode.S; the data behind the code is at the labels init and argv. *)
Definition initcode : program :=
  [("start",
     [Mov W64 (Lbl "init" 0) (Rg RDI);
      Mov W64 (Lbl "argv" 0) (Rg RSI);
      Mov W64 (Imm SYS_exec) (Rg RAX);
      Syscall "exit"]);
   ("exit",
     [Mov W64 (Imm SYS_exit) (Rg RAX);
      Syscall "exit.jmp"]);
   ("exit.jmp",
     [Jmp "exit"])]%string.

(** ** asm.h: segment descriptors *)
Definition STA_X : Z := 0x8.
Definition STA_W : Z := 0x2.
Definition STA_R : Z := 0x2.
Definition SEG_NULLASM : list Z := le_put 2 0 ++ le_put 2 0 ++ [0; 0; 0; 0].
Definition SEG_ASM (type base lim : Z) : list Z :=
  le_put 2 (Z.land (Z.shiftr lim 12) 0xffff) ++ le_put 2 (Z.land base 0xffff) ++
  [Z.land (Z.shiftr base 16) 0xff; Z.lor 0x90 type; Z.lor 0xc0 (Z.land (Z.shiftr lim 28) 0xf); Z.land (Z.shiftr base 24) 0xff].

(** mmu.h *)
Definition SEG_KCODE : Z := 1.
Definition SEG_KDATA : Z := 2.
Definition SEG_UCODE32 : Z := 3.
Definition SEG_UDATA : Z := 4.
Definition SEG_UCODE : Z := 5.
Definition DPL_USER : Z := 0x3.
Definition USER_CS : Z := Z.lor (Z.shiftl SEG_UCODE 3) DPL_USER.
Definition USER_DS : Z := Z.lor (Z.shiftl SEG_UDATA 3) DPL_USER.
Definition USER32_CS : Z := Z.lor (Z.shiftl SEG_UCODE32 3) DPL_USER.
Definition KERNEL_CS : Z := Z.shiftl SEG_KCODE 3.
Definition CR0_PE : Z := 0x1.
Definition CR0_MP : Z := 0x2.
Definition CR0_WP : Z := 0x10000.
Definition CR0_PG : Z := 0x80000000.

(** ** bootasm.S *)
Definition bootasm : program :=
  [("start",
     [Cli;
      Xor W16 (Rg RAX) (Rg RAX);
      Mov W16 (Rg RAX) (Sg DS);
      Mov W16 (Rg RAX) (Sg ES);
      Mov W16 (Rg RAX) (Sg SS)]);
   ("seta20.1",
     [In 0x64;
      Test W8 (Imm 0x2) (Rg RAX);
      Jnz "seta20.1";
      Mov W8 (Imm 0xd1) (Rg RAX);
      Out 0x64]);
   ("seta20.2",
     [In 0x64;
      Test W8 (Imm 0x2) (Rg RAX);
      Jnz "seta20.2";
      Mov W8 (Imm 0xdf) (Rg RAX);
      Out 0x60;
      Lgdt (Abl "gdtdesc" 0);
      Mov W32 (Cr CR0) (Rg RAX);
      Or W32 (Imm CR0_PE) (Rg RAX);
      Mov W32 (Rg RAX) (Cr CR0);
      Ljmp (Z.shiftl SEG_KCODE 3) "start32"]);
   ("start32",
     [Mov W16 (Imm (Z.shiftl SEG_KDATA 3)) (Rg RAX);
      Mov W16 (Rg RAX) (Sg DS);
      Mov W16 (Rg RAX) (Sg ES);
      Mov W16 (Rg RAX) (Sg SS);
      Mov W16 (Imm 0) (Rg RAX);
      Mov W16 (Rg RAX) (Sg FS);
      Mov W16 (Rg RAX) (Sg GS);
      Mov W32 (Lbl "start" 0) (Rg RSP);
      Call W32 "bootmain" "spin"]);
   ("spin",
     [Jmp "spin"])]%string.
Definition boot_gdt : list Z := SEG_NULLASM ++ SEG_ASM (Z.lor STA_X STA_R) 0x0 0xffffffff ++ SEG_ASM STA_W 0x0 0xffffffff.
Definition boot_gdtdesc (gdt : Z) : list Z := le_put 2 (Z.of_nat (length boot_gdt) - 1) ++ le_put 4 gdt.

(** ** entryother.S *)
Definition entryother : program :=
  [("start",
     [Cli;
      Xor W16 (Rg RAX) (Rg RAX);
      Mov W16 (Rg RAX) (Sg DS);
      Mov W16 (Rg RAX) (Sg ES);
      Mov W16 (Rg RAX) (Sg SS);
      Lgdt (Abl "gdtdesc" 0);
      Mov W32 (Cr CR0) (Rg RAX);
      Or W32 (Imm CR0_PE) (Rg RAX);
      Mov W32 (Rg RAX) (Cr CR0);
      Ljmp (Z.shiftl SEG_KCODE 3) "start32"]);
   ("start32",
     [Mov W16 (Imm (Z.shiftl SEG_KDATA 3)) (Rg RAX);
      Mov W16 (Rg RAX) (Sg DS);
      Mov W16 (Rg RAX) (Sg ES);
      Mov W16 (Rg RAX) (Sg SS);
      Mov W16 (Imm 0) (Rg RAX);
      Mov W16 (Rg RAX) (Sg FS);
      Mov W16 (Rg RAX) (Sg GS);
      Mov W32 (Imm 1) (Rg RBX);
      Mov W32 (Abl "start" (-4)) (Rg RSP);
      Call_at W32 (Abl "start" (-8)) "start32.ret"]);
   ("start32.ret",
     [Mov W16 (Imm 0x8a00) (Rg RAX);
      Mov W16 (Rg RAX) (Rg RDX);
      Outw_dx;
      Mov W16 (Imm 0x8ae0) (Rg RAX);
      Outw_dx]);
   ("spin",
     [Jmp "spin"])]%string.

(** What startothers of main.c stores before the code at 0x7000 for the processor that it
    starts: a stack for 32-bit mode, the address of entry32mp, and the stack of the kernel.
    The comment in entryother.S has another block, with mpenter and entrypgdir. *)
Definition ap_block (entry32mp stack : Z) (m : mem) : mem :=
  put 8 (0x7000 - 16) (stack + KSTACKSIZE) (put 4 (0x7000 - 8) entry32mp (put 4 (0x7000 - 4) 0x8000 m)).

(** ** entry.S *)
Definition mboot_magic : Z := 0x1badb002.
Definition mboot_flags : Z := 0x00010000.
Definition mboot_header (load_addr load_end bss_end entry_addr : Z) : list Z :=
  concat (le_put 4 <$> [mboot_magic; mboot_flags; - mboot_magic - mboot_flags; load_addr; load_addr; load_end; bss_end; entry_addr]).

Definition entry : program :=
  [("mboot_entry",
     [Xor W32 (Rg RAX) (Rg RAX);
      Mov W32 (Imm 0x1000) (Rg RDI);
      Mov W32 (Imm 0x2000) (Rg RCX);
      Rep_stosb;
      Mov W32 (Imm (Z.lor (Z.lor 0x2000 PTE_P) PTE_W)) (Rg RAX);
      Mov W32 (Rg RAX) (Abs 0x1000);
      Mov W32 (Rg RAX) (Abs 0x1800);
      Mov W32 (Imm (Z.lor (Z.lor (Z.lor 0x0 PTE_P) PTE_PS) PTE_W)) (Rg RAX);
      Mov W32 (Rg RAX) (Abs 0x2000);
      Xor W32 (Rg RBX) (Rg RBX)]);
   ("entry32mp",
     [Mov W32 (Imm 0x1000) (Rg RAX);
      Mov W32 (Rg RAX) (Cr CR3);
      Lgdt (Low "gdtr64");
      Mov W32 (Cr CR4) (Rg RAX);
      Bts 5 RAX;
      Mov W32 (Rg RAX) (Cr CR4);
      Mov W32 (Imm MSR_EFER) (Rg RCX);
      Rdmsr;
      Bts 0 RAX;
      Bts 8 RAX;
      Wrmsr;
      Mov W32 (Cr CR0) (Rg RAX);
      Or W32 (Imm (Z.lor (Z.lor CR0_PG CR0_WP) CR0_MP)) (Rg RAX);
      Mov W32 (Rg RAX) (Cr CR0);
      Ljmp 8 "entry64low"]);
   ("entry64low",
     [Mov W64 (Lbl "entry64high" 0) (Rg RAX);
      Jmp_reg RAX]);
   ("entry64high",
     [Xor W64 (Rg RAX) (Rg RAX);
      Mov W16 (Rg RAX) (Sg SS);
      Mov W16 (Rg RAX) (Sg DS);
      Mov W16 (Rg RAX) (Sg ES);
      Mov W16 (Rg RAX) (Sg FS);
      Mov W16 (Rg RAX) (Sg GS);
      Test W32 (Rg RBX) (Rg RBX);
      Jnz "entry64mp";
      Mov W64 (Imm 0xffff800000010000) (Rg RAX);
      Mov W64 (Rg RAX) (Rg RSP);
      Jmp "main"]);
   ("__deadloop",
     [Jmp "__deadloop"]);
   ("entry64mp",
     [Mov W64 (Imm 0x7000) (Rg RAX);
      Mov W64 (At RAX (-16)) (Rg RSP);
      Jmp "mpenter"]);
   ("wrmsr",
     [Mov W64 (Rg RDI) (Rg RCX);
      Mov W64 (Rg RSI) (Rg RAX);
      Shr 32 RSI;
      Mov W64 (Rg RSI) (Rg RDX);
      Wrmsr;
      Ret]);
   ("ignore_sysret",
     [Mov W64 (Imm (-38)) (Rg RAX);
      Sysretq])]%string.
Definition gdt64 : list Z := concat (le_put 4 <$> [0; 0; 0; 0x00209800; 0; 0x00009000]).
Definition gdtr64 (gdt64_begin : Z) : list Z := le_put 2 (Z.of_nat (length gdt64) - 1) ++ le_put 8 gdt64_begin.

(** ** syscallinit of vm.c; wrmsr is the routine of entry.S. *)
Definition syscallinit (lbl : label → Z) (s : cpu) : cpu :=
  let s := set_msr MSR_STAR (Z.lor (Z.shiftl USER32_CS 48) (Z.shiftl KERNEL_CS 32)) s in
  let s := set_msr MSR_LSTAR (lbl "syscall_entry"%string) s in
  let s := set_msr MSR_CSTAR (lbl "ignore_sysret"%string) s in
  set_msr MSR_SFMASK (Z.lor FL_TF (Z.lor FL_DF (Z.lor FL_IF (Z.lor FL_IOPL_3 (Z.lor FL_AC FL_NT))))) s.
