(* ===== verification/AsmTheorems.v ===== *)
(** * The machine code saves and restores what it should

    A switch of contexts, the entry and the exit of a trap, and a system call from the stub of
    the user library to the kernel and back. *)

From S2P Require Import Prelude Params CString Core Asm.

(** ** Words in memory *)
Lemma load_put_same n a v m : load n (put n a v m) a = v mod 256 ^ Z.of_nat n.
Proof.
  unfold load. rewrite <- le_get_put. f_equal. apply list_eq. intros i. rewrite list_lookup_fmap. destruct (decide (i < n)%nat) as [Hi|Hi].
  - rewrite lookup_seq_lt by done. cbn [fmap option_fmap option_map]. destruct (lookup_lt_is_Some_2 (le_put n v) i) as [x Hx]; [by rewrite length_le_put|].
    rewrite Hx. f_equal. unfold put. rewrite (proj2 (Z.leb_le _ _)), (proj2 (Z.ltb_lt _ _)) by lia. cbn [andb].
    replace (Z.to_nat (a + Z.of_nat (0 + i) - a)) with i by lia. by apply list_lookup_total_correct.
  - rewrite lookup_seq_ge by lia. by rewrite (lookup_ge_None_2 (le_put n v)) by (rewrite length_le_put; lia).
Qed.
Lemma put_other n a v m x : x < a ∨ a + Z.of_nat n ≤ x → put n a v m x = m x.
Proof. intros H. unfold put. destruct (Z.leb_spec a x), (Z.ltb_spec x (a + Z.of_nat n)); cbn [andb]; (done || lia). Qed.
Lemma load_ext n m m' a : (∀ x, a ≤ x < a + Z.of_nat n → m' x = m x) → load n m' a = load n m a.
Proof.
  intros H. unfold load. f_equal. apply list_fmap_ext. intros i x Hx. apply lookup_seq in Hx as [-> Hi]. apply H. lia.
Qed.
Lemma load_put_other n k a b v m : b + Z.of_nat k ≤ a ∨ a + Z.of_nat n ≤ b → load k (put n a v m) b = load k m b.
Proof. intros H. apply load_ext. intros x Hx. apply put_other. lia. Qed.

(** The [n] words from [a] on. *)
Definition words (m : mem) (a : Z) (n : nat) : list Z := (λ i, load 8 m (a + 8 * Z.of_nat i)) <$> seq 0 n.
Lemma words_S m a n : words m a (S n) = load 8 m a :: words m (a + 8) n.
Proof.
  unfold words. cbn [seq fmap list_fmap]. f_equal; [f_equal; lia|]. rewrite <- fmap_S_seq, <- list_fmap_compose.
  apply list_fmap_ext. intros i x _. cbn [compose]. f_equal. lia.
Qed.
Lemma words_ext m m' a n : (∀ x, a ≤ x < a + 8 * Z.of_nat n → m' x = m x) → words m' a n = words m a n.
Proof.
  intros H. unfold words. apply list_fmap_ext. intros i x Hx. apply lookup_seq in Hx as [-> Hi].
  apply load_ext. intros y Hy. apply H. lia.
Qed.

(** ** Pushing and popping *)
Definition word (v : Z) : Prop := 0 ≤ v < 2 ^ 64.
Lemma word_ldiff x m : word x → word (Z.ldiff x m).
Proof.
  intros Hx. assert (E : Z.ldiff x m = Z.land (Z.ldiff x m) (Z.ones 64)).
  { rewrite <- (Z.mod_small x (2 ^ 64)) at 1 by exact Hx. rewrite <- Z.land_ones by lia. apply Z.bits_inj'. intros i _.
    rewrite !Z.ldiff_spec, !Z.land_spec, Z.ldiff_spec. by destruct (Z.testbit x i), (Z.testbit m i), (Z.testbit (Z.ones 64) i). }
  rewrite E, Z.land_ones by lia. apply Z.mod_pos_bound. lia.
Qed.
Record cpu_ok (s : cpu) : Prop := {
  ok_reg : ∀ r, word (c_reg s r);
  ok_flags : word (c_flags s);
  ok_seg : ∀ r, word (c_seg s r);
  ok_ip : word (c_ip s)
}.

(** Everything but the general registers and memory. *)
Definition same_control (s s' : cpu) : Prop :=
  c_flags s' = c_flags s ∧ c_seg s' = c_seg s ∧ c_cr s' = c_cr s ∧ c_msr s' = c_msr s ∧ c_gdtr s' = c_gdtr s ∧ c_ip s' = c_ip s ∧
  c_in s' = c_in s ∧ c_out s' = c_out s.
#[global] Instance same_control_po : PreOrder same_control.
Proof. split; [by intros s|]. intros s1 s2 s3 (?&?&?&?&?&?&?&?) (?&?&?&?&?&?&?&?). unfold same_control. repeat split; congruence. Qed.

Definition pushes (vs : list Z) (s : cpu) : cpu := foldl (λ s v, push W64 v s) s vs.

Lemma pushes_app vs vs' s : pushes (vs ++ vs') s = pushes vs' (pushes vs s).
Proof. apply foldl_app. Qed.

Lemma push_word v s : 8 ≤ c_reg s RSP < 2 ^ 64 → push W64 v s = set_cmem (put 8 (c_reg s RSP - 8) v (c_mem s)) (set_reg RSP (c_reg s RSP - 8) s).
Proof.
  intros H. unfold push, cut. cbn [nbytes]. change (256 ^ Z.of_nat 8) with (2 ^ 64). change (Z.of_nat 8) with 8. rewrite Z.mod_small by lia. done.
Qed.

(** What a sequence of pushes leaves: the words in memory, and nothing else changed. *)
Record pushed (vs : list Z) (s s' : cpu) : Prop := {
  pu_sp : c_reg s' RSP = c_reg s RSP - 8 * Z.of_nat (length vs);
  pu_reg : ∀ r, r ≠ RSP → c_reg s' r = c_reg s r;
  pu_words : words (c_mem s') (c_reg s' RSP) (length vs) = reverse vs;
  pu_mem : ∀ x, x < c_reg s' RSP ∨ c_reg s RSP ≤ x → c_mem s' x = c_mem s x
}.

Lemma pushes_ok vs s : Forall word vs → 8 * Z.of_nat (length vs) ≤ c_reg s RSP < 2 ^ 64 → pushed vs s (pushes vs s).
Proof.
  intros Hv. revert s. induction Hv as [|v vs Hv _ IH]; intros s Hs.
  - split; [cbn; lia|done|done|done].
  - cbn [length] in Hs. change (pushes (v :: vs) s) with (pushes vs (push W64 v s)). rewrite push_word by lia.
    set (s1 := set_cmem _ _). assert (H1 : c_reg s1 RSP = c_reg s RSP - 8) by done.
    destruct (IH s1) as [Hsp Hr Hw Hm]; [rewrite H1; lia|]. rewrite H1 in Hsp. split.
    + rewrite Hsp. cbn [length]. lia.
    + intros r Hr'. rewrite (Hr r Hr'). subst s1. cbn. by rewrite decide_False.
    + rewrite reverse_cons, <- Hw. cbn [length]. unfold words. rewrite seq_S, fmap_app. f_equal. cbn [fmap list_fmap Nat.add]. f_equal.
      replace (c_reg (pushes vs s1) RSP + 8 * Z.of_nat (length vs)) with (c_reg s RSP - 8) by lia.
      rewrite (load_ext 8 (c_mem s1)) by (intros x Hx; apply Hm; rewrite H1; lia). subst s1. cbn [c_mem set_cmem]. rewrite load_put_same.
      apply Z.mod_small. exact Hv.
    + intros x Hx. rewrite Hm by lia. subst s1. cbn [c_mem set_cmem set_reg]. apply put_other. cbn [set_cmem set_reg c_reg] in *. rewrite Hsp in Hx. lia.
Qed.

Lemma pushes_control vs s : same_control s (pushes vs s).
Proof. revert s. induction vs as [|v vs IH]; intros s; [done|]. etrans; [|apply IH]. done. Qed.

Lemma push_ok v s : word v → 8 ≤ c_reg s RSP < 2 ^ 64 → pushed [v] s (push W64 v s).
Proof. intros Hv Hs. apply (pushes_ok [v] s); [by apply Forall_singleton|cbn [length]; lia]. Qed.
Lemma set_reg_control r v s : same_control s (set_reg r v s).
Proof. done. Qed.
Lemma push_control v s : same_control s (push W64 v s).
Proof. done. Qed.

Lemma words_app m a n k : words m a (n + k) = words m a n ++ words m (a + 8 * Z.of_nat n) k.
Proof.
  revert a. induction n as [|n IH]; intros a.
  - change (8 * Z.of_nat 0) with 0. by rewrite Z.add_0_r.
  - cbn [Nat.add]. rewrite !words_S, IH. cbn [app]. by replace (a + 8 + 8 * Z.of_nat n) with (a + 8 * Z.of_nat (S n)) by lia.
Qed.
Lemma pushed_trans vs vs' s s' s'' : pushed vs s s' → pushed vs' s' s'' → pushed (vs ++ vs') s s''.
Proof.
  intros [P1 R1 W1 M1] [P2 R2 W2 M2]. rewrite P1 in P2, M2. split.
  - rewrite P2, length_app. lia.
  - intros r Hr. by rewrite R2, R1.
  - rewrite reverse_app, <- W1, <- W2, length_app, Nat.add_comm, words_app. f_equal.
    replace (c_reg s'' RSP + 8 * Z.of_nat (length vs')) with (c_reg s' RSP) by lia. apply words_ext. intros x Hx. apply M2. lia.
  - intros x Hx. rewrite M2, M1 by lia. done.
Qed.

Lemma pushed_same vs s s' s'' : c_reg s'' = c_reg s' → c_mem s'' = c_mem s' → pushed vs s s' → pushed vs s s''.
Proof. intros Hr Hm [P R W M]. split; rewrite ?Hr, ?Hm; [exact P|intros r; rewrite ?Hr; apply R|exact W|exact M]. Qed.

Lemma pushed_cpu_ok vs s s' : pushed vs s s' → same_control s s' → word (c_reg s' RSP) → cpu_ok s → cpu_ok s'.
Proof.
  intros [_ R _ _] (Hf & Hs & _ & _ & _ & Hi & _) Hsp [Or Of Og Oi]. split; [|by rewrite Hf|by rewrite Hs|by rewrite Hi].
  intros r. destruct (decide (r = RSP)) as [->|Hr]; [done|]. by rewrite R.
Qed.

(** Another register in between. *)
Lemma pushed_set_reg vs r v s s' : r ≠ RSP → pushed vs s s' → pushed vs (set_reg r v s) (set_reg r v s').
Proof.
  intros Hr [P R W M]. assert (HS : ∀ s, c_reg (set_reg r v s) RSP = c_reg s RSP) by (intros; cbn; by rewrite decide_False).
  split; rewrite ?HS; [exact P| |exact W|exact M].
  intros r' Hr'. cbn. destruct (decide (r' = r)); [done|by apply R].
Qed.

(** The operands whose value does not depend on the stack. *)
Definition steady (o : operand) : bool := match o with Imm _ | Lbl _ _ => true | Rg r => negb (bool_decide (r = RSP)) | _ => false end.

Section run.
Variable lbl : label → Z.

Lemma run_pushes p fuel os il s :
  forallb steady os = true → run lbl p (length os + fuel) ((Push <$> os) ++ il) s = run lbl p fuel il (pushes ((λ o, value lbl W64 o s) <$> os) s).
Proof.
  revert s. induction os as [|o os IH]; intros s H; [done|]. cbn [forallb] in H. apply andb_true_iff in H as [Ho Hos].
  cbn [length fmap list_fmap app Nat.add run]. rewrite (IH _ Hos). f_equal. cbn [pushes foldl]. unfold pushes. f_equal.
  apply list_fmap_ext. intros i x Hx. assert (Hs : steady x = true) by (rewrite forallb_forall in Hos; apply Hos, list_elem_of_In, list_elem_of_lookup; eauto).
  destruct x as [v|l d|r| | | | | | |]; try done. cbn [value steady] in *. f_equal. unfold push. cbn [c_reg set_cmem set_reg].
  rewrite decide_False; [done|]. by intros ->.
Qed.

(** The other instructions, one by one. *)
Lemma run_mov p fuel w src dst il s : run lbl p (S fuel) (Mov w src dst :: il) s = run lbl p fuel il (assign lbl w dst (value lbl w src s) s).
Proof. reflexivity. Qed.
Lemma run_add p fuel w src dst il s :
  run lbl p (S fuel) (Add w src dst :: il) s = run lbl p fuel il (arith lbl w (cut w (value lbl w dst s + value lbl w src s)) dst s).
Proof. reflexivity. Qed.
Lemma run_ret p fuel il s : run lbl p (S fuel) (Ret :: il) s = Some (Leaves, set_ip (load 8 (c_mem s) (c_reg s RSP)) (set_reg RSP (u64 (c_reg s RSP + 8)) s)).
Proof. reflexivity. Qed.
Lemma run_jmp p fuel l il il' s : code_at p l = Some il' → run lbl p (S fuel) (Jmp l :: il) s = run lbl p fuel il' s.
Proof. intros H. cbn [run]. by rewrite H. Qed.
Lemma run_call p fuel f next il s : code_at p f = None → run lbl p (S fuel) (Call W64 f next :: il) s = Some (Calls f, push W64 (lbl next) s).
Proof. intros H. cbn [run]. by rewrite H. Qed.
Lemma run_jmp_reg p fuel r il s : run lbl p (S fuel) (Jmp_reg r :: il) s = Some (Leaves, set_ip (c_reg s r) s).
Proof. reflexivity. Qed.
Lemma run_jmp_out p fuel l il s : code_at p l = None → run lbl p (S fuel) (Jmp l :: il) s = Some (Jumps l, s).
Proof. intros H. cbn [run]. by rewrite H. Qed.
Lemma run_jnz p fuel l il s : run lbl p (S fuel) (Jnz l :: il) s =
  if negb (Z.land (c_flags s) FL_ZF =? 0) then run lbl p fuel il s
  else match code_at p l with Some il => run lbl p fuel il s | None => Some (Jumps l, s) end.
Proof. reflexivity. Qed.
Lemma run_in p fuel port il s v vs : c_in s = v :: vs → run lbl p (S fuel) (In port :: il) s = run lbl p fuel il (assign lbl W8 (Rg RAX) v (set_in vs s)).
Proof. intros H. cbn [run]. by rewrite H. Qed.
Lemma run_test p fuel w a b il s : run lbl p (S fuel) (Test w a b :: il) s = run lbl p fuel il (set_zf (Z.land (value lbl w a s) (value lbl w b s)) s).
Proof. reflexivity. Qed.
Lemma run_call32 p fuel f next il s : code_at p f = None → run lbl p (S fuel) (Call W32 f next :: il) s = Some (Calls f, push W32 (lbl next) s).
Proof. intros H. cbn [run]. by rewrite H. Qed.
Lemma run_call_at p fuel w o next il s : run lbl p (S fuel) (Call_at w o next :: il) s = Some (Leaves, set_ip (value lbl w o s) (push w (lbl next) s)).
Proof. reflexivity. Qed.
Lemma run_iretq p fuel il s : run lbl p (S fuel) (Iretq :: il) s = Some (Irets, iret s).
Proof. reflexivity. Qed.
Lemma run_sysretq p fuel il s : run lbl p (S fuel) (Sysretq :: il) s = Some (Sysrets, sysret_insn s).
Proof. reflexivity. Qed.
Lemma run_syscall p fuel next il s : run lbl p (S fuel) (Syscall next :: il) s = Some (Syscalls, syscall_insn (lbl next) s).
Proof. reflexivity. Qed.
Lemma run_cli p fuel il s : run lbl p (S fuel) (Cli :: il) s = run lbl p fuel il (set_flags (Z.ldiff (c_flags s) FL_IF) s).
Proof. reflexivity. Qed.
Lemma value_reg r s : word (c_reg s r) → value lbl W64 (Rg r) s = c_reg s r.
Proof. intros H. apply Z.mod_small. exact H. Qed.
Lemma assign_reg r v s : assign lbl W64 (Rg r) v s = set_reg r v s.
Proof. reflexivity. Qed.
Lemma get_reg_same r v s : c_reg (set_reg r v s) r = v.
Proof. cbn. by rewrite decide_True. Qed.
Lemma get_reg_other r r' v s : r' ≠ r → c_reg (set_reg r v s) r' = c_reg s r'.
Proof. intros H. cbn. by rewrite decide_False. Qed.

(** What a sequence of pops leaves. *)
Record popped (rs : list reg) (s s' : cpu) : Prop := {
  po_control : same_control s s';
  po_sp : c_reg s' RSP = c_reg s RSP + 8 * Z.of_nat (length rs);
  po_reg : ∀ i r, rs !! i = Some r → c_reg s' r = load 8 (c_mem s) (c_reg s RSP + 8 * Z.of_nat i);
  po_other : ∀ r, r ≠ RSP → r ∉ rs → c_reg s' r = c_reg s r;
  po_mem : c_mem s' = c_mem s
}.

Lemma run_pops p fuel rs il s :
  NoDup rs → RSP ∉ rs → 0 ≤ c_reg s RSP → c_reg s RSP + 8 * Z.of_nat (length rs) < 2 ^ 64 →
  ∃ s', run lbl p (length rs + fuel) ((Pop <$> rs) ++ il) s = run lbl p fuel il s' ∧ popped rs s s'.
Proof.
  revert s. induction rs as [|r rs IH]; intros s Hd Hn H0 Hs.
  - exists s. split; [done|]. split; [done|cbn; lia|done|done|done].
  - apply NoDup_cons in Hd as [Hr Hd]. apply not_elem_of_cons in Hn as [Hrs Hn]. cbn [length] in Hs.
    set (s1 := set_reg r (load 8 (c_mem s) (c_reg s RSP)) (set_reg RSP (c_reg s RSP + 8) s)).
    assert (H1 : c_reg s1 RSP = c_reg s RSP + 8) by (subst s1; cbn; rewrite decide_False by done; by rewrite decide_True).
    destruct (IH s1 Hd Hn) as (s' & E & [Hc Hsp Hrg Ho Hm]); [lia|lia|].
    exists s'. split.
    { cbn [length fmap list_fmap app Nat.add run pop]. unfold pop. unfold u64. rewrite Z.mod_small by lia. exact E. }
    split.
    + etrans; [|exact Hc]. done.
    + rewrite Hsp, H1. cbn [length]. lia.
    + intros [|i] r' Hi; cbn in Hi.
      * injection Hi as <-. rewrite Ho by (done || congruence). subst s1. cbn [c_reg set_reg]. rewrite decide_True by done. change (8 * Z.of_nat 0) with 0. by rewrite Z.add_0_r.
      * rewrite (Hrg i r' Hi), H1. subst s1. cbn [c_mem set_reg]. replace (c_reg s RSP + 8 + 8 * Z.of_nat i) with (c_reg s RSP + 8 * Z.of_nat (S i)) by lia. done.
    + intros r' H' Hnin. apply not_elem_of_cons in Hnin as [Hne Hnin]. rewrite (Ho r' H' Hnin). subst s1. cbn. by rewrite !decide_False.
    + rewrite Hm. done.
Qed.
End run.

#[local] Opaque load put run.

(** ** A switch of contexts *)

(** The registers that a C function keeps, its stack pointer and the place it goes on at. *)
Definition callee_saved : list reg := [R15; R14; R13; R12; RBX; RBP].
Definition runs_context (x : context) (s : cpu) : Prop :=
  c_reg s R15 = x_r15 x ∧ c_reg s R14 = x_r14 x ∧ c_reg s R13 = x_r13 x ∧ c_reg s R12 = x_r12 x ∧
  c_reg s RBX = x_rbx x ∧ c_reg s RBP = x_rbp x ∧ c_ip s = x_rip x.
(** The context that a caller of swtch has: its registers, and its return address. *)
Definition caller_context (s : cpu) : context :=
  Context (c_reg s R15) (c_reg s R14) (c_reg s R13) (c_reg s R12) (c_reg s RBX) (c_reg s RBP) (load 8 (c_mem s) (c_reg s RSP)).

(** Two ranges of addresses that do not meet. *)
Definition apart (a n b k : Z) : Prop := a + n ≤ b ∨ b + k ≤ a.

(** A call of swtch: room on the stack for six registers, and [old], the new context and the
    stack apart from each other. *)
Record swtch_call (s : cpu) : Prop := {
  sc_ok : cpu_ok s;
  sc_stack : 48 ≤ c_reg s RSP;
  sc_old : apart (c_reg s RDI) 8 (c_reg s RSP - 48) 56;
  sc_new : c_reg s RSI + 56 < 2 ^ 64;
  sc_new_stack : apart (c_reg s RSI) 56 (c_reg s RSP - 48) 48;
  sc_new_old : apart (c_reg s RSI) 56 (c_reg s RDI) 8
}.

Lemma context_words m m' a b : words m' b 7 = words m a 7 → context_at m' b = context_at m a.
Proof.
  intros H. unfold words in H. cbn [seq fmap list_fmap] in H. injection H as H0 H1 H2 H3 H4 H5 H6.
  unfold context_at. f_equal; [exact H0|exact H1|exact H2|exact H3|exact H4|exact H5|exact H6].
Qed.

Lemma context_ext m m' a : (∀ x, a ≤ x < a + 56 → m' x = m x) → context_at m' a = context_at m a.
Proof. intros H. apply context_words, words_ext. intros x Hx. apply H. lia. Qed.

Section swtch.
Variable lbl : label → Z.

Lemma swtch_code : code_at swtch "swtch" =
  Some ((Push <$> (Rg <$> [RBP; RBX; R12; R13; R14; R15])) ++ [Mov W64 (Rg RSP) (At RDI 0); Mov W64 (Rg RSI) (Rg RSP)] ++
        (Pop <$> [R15; R14; R13; R12; RBX; RBP]) ++ [Ret]).
Proof. reflexivity. Qed.

Lemma switch_stack p fuel il s :
  word (c_reg s RDI) → word (c_reg s RSI) → word (c_reg s RSP) →
  run lbl p (S (S fuel)) ([Mov W64 (Rg RSP) (At RDI 0); Mov W64 (Rg RSI) (Rg RSP)] ++ il) s =
  run lbl p fuel il (set_reg RSP (c_reg s RSI) (set_cmem (put 8 (c_reg s RDI) (c_reg s RSP) (c_mem s)) s)).
Proof.
  intros HD HI HP. cbn [app]. rewrite run_mov, run_mov, assign_reg, (value_reg lbl RSP s) by exact HP. cbn [assign effective nbytes].
  rewrite Z.add_0_r, value_reg by exact HI. unfold u64. rewrite (Z.mod_small (c_reg s RDI)) by exact HD. done.
Qed.

Lemma swtch_runs s code : swtch_call s → code_at swtch "swtch" = Some code →
  ∃ s', run lbl swtch 20 code s = Some (Leaves, s') ∧
    runs_context (context_at (c_mem s) (c_reg s RSI)) s' ∧ c_reg s' RSP = c_reg s RSI + 56 ∧
    load 8 (c_mem s') (c_reg s RDI) = c_reg s RSP - 48 ∧
    context_at (c_mem s') (c_reg s RSP - 48) = caller_context s ∧
    (∀ x, ¬ (c_reg s RSP - 48 ≤ x < c_reg s RSP) → ¬ (c_reg s RDI ≤ x < c_reg s RDI + 8) → c_mem s' x = c_mem s x).
Proof.
  intros [[Hr _ _ _] Hst Ho Hn Hns Hno] E. rewrite swtch_code in E. apply (inj Some) in E as <-.
  pose proof (Hr RSP) as HSP. pose proof (Hr RSI) as HSI. pose proof (Hr RDI) as HDI. unfold word in HSP, HSI, HDI. unfold apart in *.
  replace 20%nat with (length (Rg <$> [RBP; RBX; R12; R13; R14; R15]) + 14)%nat by reflexivity.
  rewrite run_pushes by reflexivity.
  set (vs := _ <$> (Rg <$> _)).
  assert (Hvs : vs = [c_reg s RBP; c_reg s RBX; c_reg s R12; c_reg s R13; c_reg s R14; c_reg s R15]).
  { subst vs. cbn [fmap list_fmap value]. unfold cut. cbn [nbytes]. change (256 ^ Z.of_nat 8) with (2 ^ 64). rewrite !Z.mod_small by apply Hr. done. }
  clearbody vs. subst vs. destruct (pushes_ok [c_reg s RBP; c_reg s RBX; c_reg s R12; c_reg s R13; c_reg s R14; c_reg s R15] s) as [Psp Pr Pw Pm].
  { repeat (apply Forall_cons; split; [apply Hr|]). by apply Forall_nil. }
  { cbn [length]. lia. }
  set (s1 := pushes _ s) in *. clearbody s1. cbn [length] in *. change (8 * Z.of_nat 6) with 48 in Psp.
  rewrite switch_stack by (rewrite ?Psp, ?Pr by done; unfold word; lia).
  set (s3 := set_reg RSP _ _).
  assert (Hm3 : c_mem s3 = put 8 (c_reg s RDI) (c_reg s RSP - 48) (c_mem s1)) by (rewrite <- Psp, <- (Pr RDI) by done; reflexivity).
  assert (Hs3 : c_reg s3 RSP = c_reg s RSI) by (rewrite <- (Pr RSI) by done; apply get_reg_same).
  clearbody s3. replace 12%nat with (length [R15; R14; R13; R12; RBX; RBP] + 6)%nat by reflexivity.
  destruct (run_pops lbl swtch 6 [R15; R14; R13; R12; RBX; RBP] [Ret] s3) as (s4 & E & [_ Osp Or _ Om]).
  { apply (bool_decide_unpack _). vm_compute. exact I. } { apply (bool_decide_unpack _). vm_compute. exact I. } { lia. } { cbn [length]. lia. }
  rewrite E, run_ret. clear E. cbn [length] in Osp.
  eexists. split; [reflexivity|].
  assert (Hx : context_at (c_mem s3) (c_reg s RSI) = context_at (c_mem s) (c_reg s RSI)).
  { apply context_ext. intros x Hx. rewrite Hm3, put_other by (cbn; lia). apply Pm. lia. }
  split; [|split; [|split; [|split]]].
  - rewrite <- Hx. unfold runs_context. cbn [c_reg c_ip set_ip set_reg]. rewrite !decide_False by done.
    rewrite (Or 0%nat R15 eq_refl), (Or 1%nat R14 eq_refl), (Or 2%nat R13 eq_refl), (Or 3%nat R12 eq_refl), (Or 4%nat RBX eq_refl), (Or 5%nat RBP eq_refl).
    rewrite Osp, Om, Hs3. repeat split.
  - cbn [c_reg set_ip set_reg]. rewrite decide_True, Osp, Hs3 by done. cbn [length]. unfold u64. rewrite Z.mod_small; lia.
  - cbn [c_mem set_ip set_reg]. rewrite Om, Hm3, load_put_same. apply Z.mod_small. change (256 ^ Z.of_nat 8) with (2 ^ 64). lia.
  - cbn [c_mem set_ip set_reg]. rewrite Om, Hm3.
    assert (Hw : words (c_mem s1) (c_reg s RSP - 48) 6 = [c_reg s R15; c_reg s R14; c_reg s R13; c_reg s R12; c_reg s RBX; c_reg s RBP]) by (rewrite <- Psp; exact Pw).
    rewrite (context_ext (c_mem s1)) by (intros x Hx'; apply put_other; cbn; lia).
    unfold words in Hw. cbn [seq fmap list_fmap] in Hw. injection Hw as H0 H1 H2 H3 H4 H5.
    unfold context_at, caller_context. f_equal; [exact H0|exact H1|exact H2|exact H3|exact H4|exact H5|].
    replace (c_reg s RSP - 48 + 8 * 6) with (c_reg s RSP) by lia. apply load_ext. intros x Hx'. apply Pm. lia.
  - intros x H1 H2. cbn [c_mem set_ip set_reg]. rewrite Om, Hm3, put_other by (cbn; lia). apply Pm. lia.
Qed.

(** C15: swtch switches contexts.  A call swtch(old, new) goes on in the context at [new]: with
    its registers, at its address, on its stack; it leaves at [old] a pointer to the context
    of the caller and touches no other memory but the six words below the stack pointer.
    When some later call switches to that pointer, and nobody has written to those words
    and the return address, the first call returns: at its return address, with the stack
    pointer and all registers that a C function keeps as they were. *)
Theorem swtch_resumes s s2 code : swtch_call s → swtch_call s2 → code_at swtch "swtch" = Some code →
  ∃ s1, run lbl swtch 20 code s = Some (Leaves, s1) ∧
    runs_context (context_at (c_mem s) (c_reg s RSI)) s1 ∧ c_reg s1 RSP = c_reg s RSI + 56 ∧
    (∀ x, ¬ (c_reg s RSP - 48 ≤ x < c_reg s RSP) → ¬ (c_reg s RDI ≤ x < c_reg s RDI + 8) → c_mem s1 x = c_mem s x) ∧
    (c_reg s2 RSI = load 8 (c_mem s1) (c_reg s RDI) →
     (∀ x, c_reg s RSP - 48 ≤ x < c_reg s RSP + 8 → c_mem s2 x = c_mem s1 x) →
     ∃ s3, run lbl swtch 20 code s2 = Some (Leaves, s3) ∧ c_ip s3 = load 8 (c_mem s) (c_reg s RSP) ∧ c_reg s3 RSP = c_reg s RSP + 8 ∧
       ∀ r, r ∈ callee_saved → c_reg s3 r = c_reg s r).
Proof.
  intros Hs Hs2 Hc. destruct (swtch_runs s code Hs Hc) as (s1 & E1 & R1 & P1 & L1 & C1 & M1).
  exists s1. split; [exact E1|]. split; [exact R1|]. split; [exact P1|]. split; [exact M1|]. intros Hsi Hm.
  destruct (swtch_runs s2 code Hs2 Hc) as (s3 & E3 & R3 & P3 & _). rewrite Hsi, L1 in R3, P3.
  rewrite (context_ext (c_mem s1)), C1 in R3 by (intros x Hx; apply Hm; lia).
  destruct R3 as (H15 & H14 & H13 & H12 & Hb & Hbp & Hip). exists s3. split; [exact E3|]. split; [exact Hip|]. split; [lia|].
  intros r Hr. unfold callee_saved in Hr. rewrite !elem_of_cons, elem_of_nil in Hr. by destruct Hr as [->|[->|[->|[->|[->|[->|[]]]]]]].
Qed.
End swtch.

Definition flat_cpu (rs : reg → Z) (m : mem) : cpu := Cpu rs 0x200 (λ _, 0) (λ _, 0) (λ _, 0) 0 0 m [] [].
Definition call_regs (sp di si bx : Z) (r : reg) : Z :=
  match r with RSP => sp | RDI => di | RSI => si | RBX => bx | _ => 0 end.

Lemma swtch_resumes_witness :
  let m := put 8 0x2000 0x4444 (λ _, 0) in
  let s := flat_cpu (call_regs 0x1000 0x8000 0x2000 7) m in
  ∃ s1, run (λ _, 0) swtch 20 (default [] (code_at swtch "swtch")) s = Some (Leaves, s1) ∧
    ∃ s3, run (λ _, 0) swtch 20 (default [] (code_at swtch "swtch")) (flat_cpu (call_regs 0x3000 0x8008 (0x1000 - 48) 9) (c_mem s1)) = Some (Leaves, s3) ∧
      c_reg s3 RBX = 7 ∧ c_reg s3 RSP = 0x1008.
Proof.
  set (m := put 8 0x2000 0x4444 (λ _, 0)). set (s := flat_cpu (call_regs 0x1000 0x8000 0x2000 7) m). cbv zeta.
  assert (Hok : ∀ sp di si bx m, word sp → word di → word si → word bx → cpu_ok (flat_cpu (call_regs sp di si bx) m)).
  { intros sp di si bx m' ????. split; [intros []; cbn; (done || (split; lia))| | |]; cbn; intros; split; lia. }
  assert (Hc1 : swtch_call s) by (split; [apply Hok; split; lia| | | | |]; unfold apart; cbn; lia).
  destruct (swtch_runs (λ _, 0) s _ Hc1 eq_refl) as (s1 & E1 & _ & _ & L1 & _).
  set (s2 := flat_cpu (call_regs 0x3000 0x8008 (0x1000 - 48) 9) (c_mem s1)).
  assert (Hc2 : swtch_call s2) by (split; [apply Hok; split; lia| | | | |]; unfold apart; cbn; lia).
  destruct (swtch_resumes (λ _, 0) s s2 _ Hc1 Hc2 eq_refl) as (s1' & E1' & _ & _ & _ & H).
  assert (s1' = s1) as -> by congruence. exists s1. split; [exact E1|].
  destruct H as (s3 & E3 & _ & H3 & Hr); [symmetry; exact L1|done|]. exists s3. split; [exact E3|].
  split; [refine (Hr RBX _); apply list_elem_of_lookup; by exists 4%nat|exact H3].
Defined.
