(* ===== verification/AsmTraps.v ===== *)
(** * Traps and system calls at the level of the machine

    The code of vectors.S and trapasm.S between the processor and the C functions trap and
    syscall: the frame that they get is the struct trapframe of x86.h with the registers of
    the interrupted code, and what they leave in it is what the code goes on with. *)

From S2P Require Import Prelude Params CString Core Kernel Syscall Asm AsmTheorems.

#[local] Opaque load put run.

(** ** The frame in memory *)
Definition frame_words : nat := 22.
Definition frame_size : Z := 8 * Z.of_nat frame_words.
Definition frame_of (l : list Z) : trapframe :=
  let w i := nth i l 0 in
  Trapframe (w 0%nat) (w 1%nat) (w 2%nat) (w 3%nat) (w 4%nat) (w 5%nat) (w 6%nat) (w 7%nat) (w 8%nat) (w 9%nat) (w 10%nat)
    (w 11%nat) (w 12%nat) (w 13%nat) (w 14%nat) (w 15%nat) (w 16%nat) (w 17%nat) (w 18%nat) (w 19%nat) (w 20%nat) (w 21%nat).
Definition frame_at (m : mem) (a : Z) : trapframe := frame_of (words m a frame_words).

(** The value of a register in a frame. *)
Definition saved (tf : trapframe) (r : reg) : Z :=
  match r with
  | RAX => rax tf | RBX => rbx tf | RCX => rcx tf | RDX => rdx tf | RSI => rsi tf | RDI => rdi tf | RBP => rbp tf | RSP => rsp tf
  | R8 => r8 tf | R9 => r9 tf | R10 => r10 tf | R11 => r11 tf | R12 => r12 tf | R13 => r13 tf | R14 => r14 tf | R15 => r15 tf
  end.

(** The frame with the registers of [s]. *)
Definition frame_with (f : reg → Z) (trapno err rip cs rflags rsp ss : Z) : trapframe :=
  Trapframe (f RAX) (f RBX) (f RCX) (f RDX) (f RBP) (f RSI) (f RDI) (f R8) (f R9) (f R10) (f R11) (f R12) (f R13) (f R14) (f R15)
    trapno err rip cs rflags rsp ss.

(** The registers in the order in which they are pushed. *)
Definition pushed_regs : list reg := [R15; R14; R13; R12; R11; R10; R9; R8; RDI; RSI; RBP; RDX; RCX; RBX; RAX].

(** ** The processor takes an interrupt

    [rsp0] is the stack pointer of the task state segment.  The exceptions with an error
    code push it. *)
Definition error_exceptions : list Z := [8; 10; 11; 12; 13; 14; 17].
Definition from_user (s : cpu) : bool := negb (Z.land (c_seg s CS) 3 =? 0).
Definition handler_stack (rsp0 : Z) (s : cpu) : Z := Z.ldiff (if from_user s then rsp0 else c_reg s RSP) 15.
Definition hardware_words (n error : Z) (s : cpu) : list Z :=
  [c_seg s SS; c_reg s RSP; c_flags s; c_seg s CS; c_ip s] ++ (if decide (n ∈ error_exceptions) then [error] else []).
Definition interrupt (rsp0 n error : Z) (s : cpu) : cpu :=
  let s1 := pushes (hardware_words n error s) (set_reg RSP (handler_stack rsp0 s) s) in
  set_flags (Z.ldiff (c_flags s) (Z.lor FL_IF (Z.lor FL_TF FL_NT))) (set_seg CS KERNEL_CS (if from_user s then set_seg SS 0 s1 else s1)).

(** The error code in the frame. *)
Definition error_of (n error : Z) : Z := if decide (n ∈ error_exceptions) then error else 0.

(** vectors.pl knows which exceptions have one. *)
Lemma has_error_ok n : has_error n = bool_decide (n ∈ error_exceptions).
Proof.
  apply eq_bool_prop_intro. rewrite bool_decide_spec. unfold has_error, error_exceptions.
  rewrite !elem_of_cons, elem_of_nil. rewrite Is_true_true, !orb_true_iff, andb_true_iff, !Z.eqb_eq, !Z.leb_le. lia.
Qed.

(** A state as it is before an interrupt: registers are words, and the stack of the handler
    has room. *)
Record interruptible (rsp0 error : Z) (s : cpu) : Prop := {
  in_cpu : cpu_ok s;
  in_rsp0 : word rsp0;
  in_error : word error;
  in_room : frame_size + 8 ≤ handler_stack rsp0 s
}.

Lemma handler_stack_word rsp0 s : word rsp0 → word (c_reg s RSP) → word (handler_stack rsp0 s).
Proof.
  intros H0 Hs. unfold handler_stack. apply word_ldiff. by destruct (from_user s).
Qed.

Section traps.
Variable lbl : label → Z.
Hypothesis lbl_ok : ∀ l, word (lbl l).

Lemma values_regs (rs : list reg) s : cpu_ok s → (λ o, value lbl W64 o s) <$> (Rg <$> rs) = c_reg s <$> rs.
Proof. intros Hs. rewrite <- list_fmap_compose. apply list_fmap_ext. intros i r _. apply value_reg, Hs. Qed.
Lemma regs_words (rs : list reg) s : (∀ r, word (c_reg s r)) → Forall word (c_reg s <$> rs).
Proof. intros H. apply Forall_fmap, Forall_forall. intros r _. apply H. Qed.

(** Saving the registers, the frame pointer in RDI, and the call. *)
Definition save_regs (f next : label) : list instr := (Push <$> (Rg <$> pushed_regs)) ++ [Mov W64 (Rg RSP) (Rg RDI); Call W64 f next].

Lemma frame_call p fuel f next il s :
  code_at p f = None → word (c_reg s RSP) →
  run lbl p (S (S fuel)) ([Mov W64 (Rg RSP) (Rg RDI); Call W64 f next] ++ il) s = Some (Calls f, push W64 (lbl next) (set_reg RDI (c_reg s RSP) s)).
Proof. intros Hf Hs. cbn [app]. by rewrite run_mov, run_call, assign_reg, value_reg. Qed.

Lemma run_save_regs p fuel f next s il :
  code_at p f = None → cpu_ok s → 120 + 8 ≤ c_reg s RSP →
  ∃ s', run lbl p (15 + S (S fuel)) (save_regs f next ++ il) s = Some (Calls f, s') ∧
    pushed ((c_reg s <$> pushed_regs) ++ [lbl next]) (set_reg RDI (c_reg s RSP - 120) s) s' ∧ same_control s s'.
Proof.
  intros Hf Hs Hroom. unfold save_regs. rewrite <- app_assoc.
  replace (15 + S (S fuel))%nat with (length (Rg <$> pushed_regs) + S (S fuel))%nat by reflexivity.
  rewrite run_pushes by reflexivity. rewrite values_regs by exact Hs.
  destruct (pushes_ok (c_reg s <$> pushed_regs) s) as [Psp Pr Pw Pm].
  { apply regs_words, Hs. } { change (length _) with 15%nat. pose proof (ok_reg s Hs RSP) as H. unfold word in H. lia. }
  pose proof (pushes_control (c_reg s <$> pushed_regs) s) as Pc. set (s1 := pushes _ s) in *. clearbody s1.
  rewrite length_fmap in Psp, Pw. assert (Psp' : c_reg s1 RSP = c_reg s RSP - 120) by (rewrite Psp; cbn [length pushed_regs]; lia).
  pose proof (ok_reg s Hs RSP) as HSP. unfold word in HSP. rewrite frame_call by (done || (unfold word; lia)).
  eexists. split; [reflexivity|]. split.
  - apply pushed_trans with (set_reg RDI (c_reg s1 RSP) s1).
    + rewrite Psp'. apply pushed_set_reg; [done|]. split; [by rewrite Psp, length_fmap|exact Pr|by rewrite length_fmap|exact Pm].
    + apply push_ok; [apply lbl_ok|]. rewrite get_reg_other by done. lia.
  - etrans; [exact Pc|]. etrans; [apply (set_reg_control RDI (c_reg s1 RSP))|apply push_control].
Qed.

(** The entry of a trap up to the call of trap. *)
Lemma vector_code n : vector n = (Push <$> ((if negb (has_error n) then [Imm 0] else []) ++ [Imm n])) ++ [Jmp "alltraps"].
Proof. unfold vector. by destruct (has_error n). Qed.
Lemma alltraps_at : code_at trapasm "alltraps" = Some (save_regs "trap" "trapret" ++ concat (snd <$> drop 1 trapasm)).
Proof. reflexivity. Qed.

(** All words of the frame, in the order in which the processor and the code push them. *)
Definition all_words (n error : Z) (s : cpu) : list Z :=
  [c_seg s SS; c_reg s RSP; c_flags s; c_seg s CS; c_ip s; error_of n error; n] ++ (c_reg s <$> pushed_regs).

Lemma vector_words n error s :
  hardware_words n error s ++ ((λ o, value lbl W64 o s) <$> ((if negb (has_error n) then [Imm 0] else []) ++ [Imm n])) =
  [c_seg s SS; c_reg s RSP; c_flags s; c_seg s CS; c_ip s; error_of n error; cut W64 n].
Proof.
  unfold hardware_words, error_of. rewrite has_error_ok. destruct (decide (n ∈ error_exceptions)) as [H|H].
  - by rewrite bool_decide_true.
  - by rewrite bool_decide_false.
Qed.

Lemma hardware_words_ok n rsp0 error s : interruptible rsp0 error s → Forall word (hardware_words n error s).
Proof.
  intros [[Hr Hf Hg Hi] _ He _]. unfold hardware_words. apply Forall_app. split.
  - repeat (apply Forall_cons; split; [auto|]). by apply Forall_nil.
  - destruct (decide _); [by apply Forall_singleton|by apply Forall_nil].
Qed.

Lemma interrupt_pushed n rsp0 error s : interruptible rsp0 error s →
  pushed (hardware_words n error s) (set_reg RSP (handler_stack rsp0 s) s) (interrupt rsp0 n error s).
Proof.
  intros H. unfold interrupt. eapply pushed_same; [| |apply pushes_ok].
  - by destruct (from_user s).
  - by destruct (from_user s).
  - by eapply hardware_words_ok.
  - rewrite get_reg_same. destruct H as [[Hr _ _ _] H0 _ Hroom]. pose proof (handler_stack_word rsp0 s H0 (Hr RSP)) as [_ Hw].
    unfold frame_size, frame_words in Hroom. unfold hardware_words. rewrite length_app. cbn [length]. destruct (decide _); cbn [length]; lia.
Qed.

Lemma interrupt_ok n rsp0 error s : interruptible rsp0 error s → cpu_ok (interrupt rsp0 n error s).
Proof.
  intros H. pose proof (interrupt_pushed n rsp0 error s H) as [P R _ _]. destruct H as [[Hr Hf Hg Hi] H0 _ Hroom].
  pose proof (handler_stack_word rsp0 s H0 (Hr RSP)) as [_ Hw]. rewrite get_reg_same in P. unfold frame_size, frame_words in Hroom.
  assert (Hl : (length (hardware_words n error s) ≤ 6)%nat) by (unfold hardware_words; rewrite length_app; cbn [length]; destruct (decide _); cbn [length]; lia).
  split.
  - intros r. destruct (decide (r = RSP)) as [->|Hne]; [rewrite P; split; lia|]. rewrite (R r Hne), get_reg_other by done. apply Hr.
  - unfold interrupt. cbn [c_flags set_flags]. by apply word_ldiff.
  - intros r. pose proof (pushes_control (hardware_words n error s) (set_reg RSP (handler_stack rsp0 s) s)) as (_ & Hs & _).
    unfold interrupt. destruct (from_user s); cbn [c_seg set_flags set_seg]; rewrite Hs; cbn [c_seg set_reg];
      repeat (case_decide; [split; vm_compute; congruence|]); apply Hg.
  - pose proof (pushes_control (hardware_words n error s) (set_reg RSP (handler_stack rsp0 s) s)) as (_ & _ & _ & _ & _ & Hs & _).
    unfold interrupt. destruct (from_user s); cbn [c_ip set_flags set_seg]; rewrite Hs; exact Hi.
Qed.

(** Where the frame of an interrupt is. *)
Definition frame_addr (rsp0 : Z) (s : cpu) : Z := handler_stack rsp0 s - frame_size.

(** The registers, and then the return address, on the stack of the handler. *)
Lemma frame_pushed n error ra a sp s s' : 
  pushed (all_words n error s ++ [ra]) (set_reg RDI a (set_reg RSP sp s)) s' →
  c_reg s' RSP = sp - frame_size - 8 ∧ c_reg s' RDI = a ∧ load 8 (c_mem s') (sp - frame_size - 8) = ra ∧
  frame_at (c_mem s') (sp - frame_size) = frame_with (c_reg s) n (error_of n error) (c_ip s) (c_seg s CS) (c_flags s) (c_reg s RSP) (c_seg s SS) ∧
  ∀ x, x < sp - frame_size - 8 ∨ sp ≤ x → c_mem s' x = c_mem s x.
Proof.
  intros [P R W M]. rewrite get_reg_other, get_reg_same in P, M by done. rewrite length_app in P. cbn [length all_words app pushed_regs fmap list_fmap Nat.add] in P.
  assert (HP : c_reg s' RSP = sp - frame_size - 8) by (rewrite P; unfold frame_size, frame_words; lia).
  rewrite HP in W, M. rewrite reverse_snoc, length_app, Nat.add_comm in W. change (length [ra] + _)%nat with (S frame_words) in W. rewrite words_S in W.
  pose proof (f_equal (hd 0) W) as Wr. pose proof (f_equal tl W) as Ww. cbn [hd tl] in Wr, Ww. replace (sp - frame_size - 8 + 8) with (sp - frame_size) in Ww by lia.
  split; [exact HP|]. split; [rewrite (R RDI), get_reg_same by done; done|]. split; [exact Wr|]. split; [|exact M].
  unfold frame_at. rewrite Ww. reflexivity.
Qed.

Lemma run_vector n s :
  0 ≤ n < 256 → ∃ os, forallb steady os = true ∧ (length os ≤ 2)%nat ∧
    (λ o, value lbl W64 o s) <$> os = (if decide (n ∈ error_exceptions) then [n] else [0; n]) ∧
    vector n = (Push <$> os) ++ [Jmp "alltraps"].
Proof.
  intros Hn. exists ((if negb (has_error n) then [Imm 0] else []) ++ [Imm n]). rewrite vector_code, has_error_ok.
  assert (Hc : cut W64 n = n) by (unfold cut; apply Z.mod_small; cbn; lia).
  destruct (decide (n ∈ error_exceptions)) as [H|H]; [rewrite bool_decide_true by done|rewrite bool_decide_false by done]; cbn [negb app fmap list_fmap value];
    rewrite Hc; repeat split; cbn; lia.
Qed.

Lemma split_words n error s :
  hardware_words n error s ++ (if decide (n ∈ error_exceptions) then [n] else [0; n]) ++ (c_reg s <$> pushed_regs) = all_words n error s.
Proof. unfold hardware_words, all_words, error_of. by destruct (decide _). Qed.

Lemma trap_enters n rsp0 error s :
  interruptible rsp0 error s → 0 ≤ n < 256 →
  ∃ s', run lbl trapasm 40 (vector n) (interrupt rsp0 n error s) = Some (Calls "trap", s') ∧
    pushed (all_words n error s ++ [lbl "trapret"]) (set_reg RDI (frame_addr rsp0 s) (set_reg RSP (handler_stack rsp0 s) s)) s' ∧
    same_control (interrupt rsp0 n error s) s'.
Proof.
  intros H Hn. pose proof (interrupt_pushed n rsp0 error s H) as Pi. pose proof (interrupt_ok n rsp0 error s H) as Oi.
  set (si := interrupt rsp0 n error s) in *. clearbody si.
  destruct (run_vector n si Hn) as (os & Hst & Hlen & Hv & ->).
  replace 40%nat with (length os + (40 - length os))%nat by lia. rewrite run_pushes by exact Hst. rewrite Hv.
  set (vs := if decide (n ∈ error_exceptions) then [n] else [0; n]) in *.
  assert (Hvs : Forall word vs ∧ (length vs ≤ 2)%nat).
  { subst vs. destruct (decide _); (split; [|cbn; lia]); repeat (apply Forall_cons; split; [split; lia|]); by apply Forall_nil. }
  destruct Hvs as [Hvs Hl2]. pose proof (handler_stack_word rsp0 s (in_rsp0 _ _ _ H) (ok_reg _ (in_cpu _ _ _ H) RSP)) as [_ Hw].
  pose proof (in_room _ _ _ H) as Hroom. unfold frame_size, frame_words in Hroom.
  pose proof (split_words n error s) as Hall. fold vs in Hall. assert (Hlen7 : (length (hardware_words n error s) + length vs = 7)%nat).
  { apply (f_equal length) in Hall. rewrite !length_app, length_fmap in Hall. cbn [length all_words app pushed_regs fmap list_fmap Nat.add] in Hall. lia. }
  assert (Hsi : c_reg si RSP = handler_stack rsp0 s - 8 * Z.of_nat (length (hardware_words n error s))) by (rewrite (pu_sp _ _ _ Pi), get_reg_same; done).
  assert (Pv : pushed vs si (pushes vs si)) by (apply pushes_ok; [done|rewrite Hsi; lia]).
  pose proof (pushes_control vs si) as Cv. set (sv := pushes vs si) in *. clearbody sv vs.
  assert (Hsv : c_reg sv RSP = handler_stack rsp0 s - 56) by (rewrite (pu_sp _ _ _ Pv), Hsi; lia).
  assert (Ov : cpu_ok sv) by (apply (pushed_cpu_ok vs si); [done|done|rewrite Hsv; split; lia|done]).
  replace (40 - length os)%nat with (S (15 + S (S (22 - length os))))%nat by lia.
  rewrite (run_jmp _ _ _ _ _ _ _ alltraps_at).
  destruct (run_save_regs trapasm (22 - length os) "trap" "trapret" sv (concat (snd <$> drop 1 trapasm))) as (s' & E & Ps & Cs); [done|done|lia|].
  exists s'. split; [exact E|]. split; [|by etrans].
  rewrite <- Hall, <- !app_assoc, app_assoc. eapply pushed_trans.
  - apply pushed_set_reg; [done|]. eapply pushed_trans; [exact Pi|exact Pv].
  - replace (frame_addr rsp0 s) with (c_reg sv RSP - 120) by (rewrite Hsv; unfold frame_addr, frame_size, frame_words; lia).
    replace (c_reg s <$> pushed_regs) with (c_reg sv <$> pushed_regs); [exact Ps|]. apply list_fmap_ext. intros i r Hr.
    assert (Hne : r ≠ RSP) by (intros ->; apply list_elem_of_lookup_2 in Hr; revert Hr; apply (bool_decide_unpack _); vm_compute; exact I).
    rewrite (pu_reg _ _ _ Pv r Hne), (pu_reg _ _ _ Pi r Hne). by apply get_reg_other.
Qed.

(** ** The way back *)
Lemma words_nth m a n i : (i < n)%nat → nth i (words m a n) 0 = load 8 m (a + 8 * Z.of_nat i).
Proof.
  intros H. apply nth_lookup_Some with (d := 0). unfold words. by rewrite list_lookup_fmap, lookup_seq_lt.
Qed.

(** The place of a register in the frame. *)
Definition slot (r : reg) : nat :=
  match r with
  | RAX => 0 | RBX => 1 | RCX => 2 | RDX => 3 | RBP => 4 | RSI => 5 | RDI => 6 | R8 => 7 | R9 => 8 | R10 => 9 | R11 => 10
  | R12 => 11 | R13 => 12 | R14 => 13 | R15 => 14 | RSP => 20
  end.
Lemma slot_reg r : r ≠ RSP → reverse pushed_regs !! slot r = Some r.
Proof. by destruct r. Qed.
Lemma saved_slot m a r : saved (frame_at m a) r = load 8 m (a + 8 * Z.of_nat (slot r)).
Proof.
  assert (E : saved (frame_at m a) r = nth (slot r) (words m a frame_words) 0) by (unfold frame_at; generalize (words m a frame_words); by destruct r).
  rewrite E. apply words_nth. unfold frame_words. destruct r; cbn; lia.
Qed.

Lemma run_restore_regs p fuel il s :
  0 ≤ c_reg s RSP → c_reg s RSP + frame_size < 2 ^ 64 →
  ∃ s', run lbl p (15 + fuel) ((Pop <$> reverse pushed_regs) ++ il) s = run lbl p fuel il s' ∧
    (∀ r, r ≠ RSP → c_reg s' r = saved (frame_at (c_mem s) (c_reg s RSP)) r) ∧
    c_reg s' RSP = c_reg s RSP + 120 ∧ c_mem s' = c_mem s ∧ same_control s s'.
Proof.
  intros H0 H1. unfold frame_size, frame_words in H1.
  destruct (run_pops lbl p fuel (reverse pushed_regs) il s) as (s' & E & [Pc Psp Pr _ Pm]).
  { apply (bool_decide_unpack _). vm_compute. exact I. } { apply (bool_decide_unpack _). vm_compute. exact I. } { lia. } { rewrite length_reverse. cbn [length pushed_regs]. lia. }
  exists s'. rewrite length_reverse in E, Psp. split; [exact E|]. split; [|split; [|split; [exact Pm|exact Pc]]].
  - intros r Hr. rewrite saved_slot. apply Pr. by apply slot_reg.
  - rewrite Psp. cbn [length pushed_regs]. lia.
Qed.

Lemma iret_ok s : 0 ≤ c_reg s RSP → c_reg s RSP + 40 < 2 ^ 64 →
  let m := c_mem s in let a := c_reg s RSP in let s' := iret s in
  c_ip s' = load 8 m a ∧ c_seg s' CS = load 8 m (a + 8) ∧ c_flags s' = load 8 m (a + 16) ∧ c_reg s' RSP = load 8 m (a + 24) ∧
  c_seg s' SS = load 8 m (a + 32) ∧ (∀ r, r ≠ RSP → c_reg s' r = c_reg s r) ∧ c_mem s' = m.
Proof.
  intros H0 H1. cbv zeta. unfold iret, pop. rewrite !get_reg_same. cbn [c_mem set_reg].
  assert (Hu : ∀ x, 0 ≤ x < 2 ^ 64 → u64 x = x) by (intros x Hx; apply Z.mod_small; exact Hx).
  rewrite (Hu (c_reg s RSP + 8)) by lia. rewrite (Hu (c_reg s RSP + 8 + 8)) by lia. rewrite (Hu (c_reg s RSP + 8 + 8 + 8)) by lia.
  rewrite (Hu (c_reg s RSP + 8 + 8 + 8 + 8)) by lia. rewrite <- !Z.add_assoc.
  split; [done|]. split; [done|]. split; [done|]. split; [by apply get_reg_same|]. split; [done|]. split; [|done].
  intros r Hr. cbn. by rewrite !decide_False.
Qed.

Lemma run_add_sp p fuel k il s : 0 ≤ k → 0 ≤ c_reg s RSP → c_reg s RSP + k < 2 ^ 64 →
  run lbl p (S fuel) (Add W64 (Imm k) (Rg RSP) :: il) s = run lbl p fuel il (set_zf (c_reg s RSP + k) (set_reg RSP (c_reg s RSP + k) s)).
Proof.
  intros H0 H1 H2. rewrite run_add. unfold arith. rewrite assign_reg, value_reg by (split; lia). cbn [value]. unfold cut. cbn [nbytes].
  change (256 ^ Z.of_nat 8) with (2 ^ 64). rewrite (Z.mod_small k), Z.mod_small by lia. done.
Qed.

Definition restores (tf : trapframe) (s : cpu) : Prop :=
  (∀ r, c_reg s r = saved tf r) ∧ c_ip s = rip tf ∧ c_flags s = rflags tf ∧ c_seg s CS = cs tf ∧ c_seg s SS = ss tf.

Lemma trapret_at : code_at trapasm "trapret" =
  Some ((Pop <$> reverse pushed_regs) ++ Add W64 (Imm 16) (Rg RSP) :: Iretq :: concat (snd <$> drop 2 trapasm)).
Proof. reflexivity. Qed.

Lemma frame_fields m a :
  let tf := frame_at m a in
  rip tf = load 8 m (a + 136) ∧ cs tf = load 8 m (a + 144) ∧ rflags tf = load 8 m (a + 152) ∧ rsp tf = load 8 m (a + 160) ∧ ss tf = load 8 m (a + 168).
Proof.
  cbv zeta. unfold frame_at, frame_of, frame_words. cbn [rip cs rflags rsp ss]. rewrite !words_nth by lia. done.
Qed.

Lemma trapret_runs s code : code_at trapasm "trapret" = Some code → 0 ≤ c_reg s RSP → c_reg s RSP + frame_size < 2 ^ 64 →
  ∃ s', run lbl trapasm 20 code s = Some (Irets, s') ∧ restores (frame_at (c_mem s) (c_reg s RSP)) s' ∧ c_mem s' = c_mem s.
Proof.
  intros Hc H0 H1. rewrite trapret_at in Hc. apply (inj Some) in Hc as <-. replace 20%nat with (15 + 5)%nat by done.
  destruct (run_restore_regs trapasm 5 (Add W64 (Imm 16) (Rg RSP) :: Iretq :: concat (snd <$> drop 2 trapasm)) s H0 H1) as (s1 & E & Hr & Hsp & Hm & _).
  unfold frame_size, frame_words in H1. rewrite E, run_add_sp, run_iretq, Hsp by lia. eexists. split; [reflexivity|].
  set (s2 := set_zf _ _). assert (H2 : c_reg s2 RSP = c_reg s RSP + 136) by (etrans; [apply get_reg_same|lia]).
  assert (Hm2 : c_mem s2 = c_mem s) by (rewrite <- Hm; reflexivity).
  assert (Hr2 : ∀ r, r ≠ RSP → c_reg s2 r = saved (frame_at (c_mem s) (c_reg s RSP)) r).
  { intros r Hne. rewrite <- (Hr r Hne). by apply get_reg_other. }
  clearbody s2. destruct (iret_ok s2) as (Hip & Hcs & Hfl & Hrs & Hss & Hro & Hmm); [lia|lia|].
  rewrite Hm2, H2 in *. rewrite <- !Z.add_assoc in *.
  destruct (frame_fields (c_mem s) (c_reg s RSP)) as (F1 & F2 & F3 & F4 & F5).
  split; [|exact Hmm]. split; [|split; [|split; [|split]]].
  - intros r. destruct (decide (r = RSP)) as [->|Hne]; [rewrite Hrs; cbn [saved]; rewrite F4; reflexivity|]. rewrite (Hro r Hne). exact (Hr2 r Hne).
  - rewrite Hip, F1. reflexivity.
  - rewrite Hfl, F3. reflexivity.
  - rewrite Hcs, F2. reflexivity.
  - rewrite Hss, F5. reflexivity.
Qed.

Lemma frame_addr_user rsp0 s : from_user s = true → rsp0 mod 16 = 0 → frame_addr rsp0 s = rsp0 - frame_size.
Proof.
  intros Hu Hm. unfold frame_addr, handler_stack. rewrite Hu. f_equal. change 15 with (Z.ones 4).
  rewrite Z.ldiff_ones_r, Z.shiftl_mul_pow2, Z.shiftr_div_pow2 by lia. change (2 ^ 4) with 16. pose proof (Z.div_mod rsp0 16). lia.
Qed.

(** C14: a trap is transparent.  Whatever the processor was doing when it takes interrupt
    [n], the code of vectors.S and alltraps calls trap with interrupts off and with a
    pointer to a struct trapframe that has all its registers, its flags, its segments, the
    address of its next instruction, the number of the trap, and the error code or 0; the
    memory outside the stack is as it was.  A trap from user code has its frame at the top
    of the kernel stack, where p->tf points.  When trap returns, trapret goes on with the registers, the flags and the address that the frame has
    then; when trap has not changed the frame, that is exactly the interrupted code. *)
Theorem trap_transparent n rsp0 error s code :
  interruptible rsp0 error s → 0 ≤ n < 256 → code_at trapasm "trapret" = Some code →
  let a := frame_addr rsp0 s in
  let tf := frame_with (c_reg s) n (error_of n error) (c_ip s) (c_seg s CS) (c_flags s) (c_reg s RSP) (c_seg s SS) in
  (from_user s = true → rsp0 mod 16 = 0 → a = rsp0 - frame_size) ∧
  ∃ s1, run lbl trapasm 40 (vector n) (interrupt rsp0 n error s) = Some (Calls "trap", s1) ∧
    c_reg s1 RDI = a ∧ frame_at (c_mem s1) a = tf ∧
    c_reg s1 RSP = a - 8 ∧ load 8 (c_mem s1) (a - 8) = lbl "trapret" ∧ Z.land (c_flags s1) FL_IF = 0 ∧
    (∀ x, x < a - 8 ∨ a + frame_size ≤ x → c_mem s1 x = c_mem s x) ∧
    ∀ s2, c_reg s2 RSP = a →
      ∃ s3, run lbl trapasm 20 code s2 = Some (Irets, s3) ∧ restores (frame_at (c_mem s2) a) s3 ∧ c_mem s3 = c_mem s2 ∧
        (frame_at (c_mem s2) a = tf →
         (∀ r, c_reg s3 r = c_reg s r) ∧ c_ip s3 = c_ip s ∧ c_flags s3 = c_flags s ∧ c_seg s3 CS = c_seg s CS ∧ c_seg s3 SS = c_seg s SS).
Proof.
  intros H Hn Hc. cbv zeta. split; [apply frame_addr_user|].
  destruct (trap_enters n rsp0 error s H Hn) as (s1 & E1 & P1 & (Hf & _)). exists s1. split; [exact E1|].
  destruct (frame_pushed _ _ _ _ _ _ _ P1) as (Hsp & Hdi & Hra & Hfr & Hm). fold (frame_addr rsp0 s) in *.
  split; [exact Hdi|]. split; [exact Hfr|]. split; [exact Hsp|]. split; [exact Hra|]. split; [|split].
  - rewrite Hf. unfold interrupt. cbn [c_flags set_flags]. apply Z.bits_inj'. intros i Hi. rewrite Z.land_spec, Z.ldiff_spec, !Z.lor_spec, Z.bits_0.
    destruct (Z.testbit FL_IF i); [|apply andb_false_r]. by rewrite orb_true_l, andb_false_r.
  - intros x Hx. apply Hm. assert (frame_addr rsp0 s + frame_size = handler_stack rsp0 s) by (unfold frame_addr; lia). lia.
  - intros s2 Hs2. pose proof (handler_stack_word rsp0 s (in_rsp0 _ _ _ H) (ok_reg _ (in_cpu _ _ _ H) RSP)) as [_ Hw]. pose proof (in_room _ _ _ H).
    assert (Ha : 0 ≤ frame_addr rsp0 s ∧ frame_addr rsp0 s + frame_size < 2 ^ 64) by (unfold frame_addr; lia).
    destruct (trapret_runs s2 code Hc) as (s3 & E3 & R3 & M3); [lia|lia|]. rewrite Hs2 in R3. exists s3.
    split; [exact E3|]. split; [exact R3|]. split; [exact M3|]. intros Hsame. rewrite Hsame in R3. destruct R3 as (Rr & Ri & Rf & Rc & Rs).
    split; [|by repeat split]. intros r. rewrite Rr. by destruct r.
Qed.
End traps.

Definition user_cpu (rs : reg → Z) (ip : Z) (msr : Z → Z) (m : mem) : cpu :=
  Cpu rs 0x202 (λ r, match r with CS => 0x2b | _ => 0x23 end) (λ _, 0) msr 0 ip m [] [].

Lemma user_cpu_ok rs ip msr m : (∀ r, word (rs r)) → word ip → cpu_ok (user_cpu rs ip msr m).
Proof. intros Hr Hi. split; [exact Hr|by split; cbn|intros []; by split; cbn|exact Hi]. Qed.

(** A page fault of user code. *)
Lemma trap_transparent_witness :
  let s := user_cpu (λ r, Z.of_nat (reg_num r) + 0x1000) 0x4000 (λ _, 0) (λ _, 0) in
  ∃ s1, run (λ _, 0x100) trapasm 40 (vector 14) (interrupt 0x9000 14 5 s) = Some (Calls "trap", s1) ∧
    rip (frame_at (c_mem s1) (0x9000 - frame_size)) = 0x4000 ∧ err (frame_at (c_mem s1) (0x9000 - frame_size)) = 5.
Proof.
  set (s := user_cpu _ _ _ _). cbv zeta. assert (Hl : ∀ l : label, word ((λ _, 0x100) l)) by (intros l; split; vm_compute; congruence).
  assert (Hs : interruptible 0x9000 5 s).
  { split; [|split; lia|split; lia|vm_compute; discriminate]. apply user_cpu_ok; [intros []; split; vm_compute; congruence|split; lia]. }
  destruct (trap_transparent (λ _, 0x100) Hl 14 0x9000 5 s _ Hs ltac:(lia) eq_refl) as (Ha & s1 & E & _ & Hf & _).
  rewrite (Ha eq_refl eq_refl) in Hf. exists s1. split; [exact E|]. rewrite Hf. split; reflexivity.
Defined.
