(* ===== verification/AsmCalls.v ===== *)
(** * A system call from the stub of the user library to the kernel and back

    usys.S, the instruction syscall, syscall_entry, the C function syscall, syscall_trapret and
    the instruction sysret. *)

From S2P Require Import Prelude Params CString Core Kernel Syscall Asm AsmTheorems AsmTraps.

#[local] Opaque load put run.

(** ** The switch to the kernel stack *)

(** What syscall_entry finds: the process at the end of the thread-local variables, its kernel
    stack, and the place for rax, all apart from each other.  [F] is the base of fs, [p] the
    struct proc and [k] its kernel stack. *)
Record entry_memory (F p k : Z) (m : mem) : Prop := {
  em_F : 8 ≤ F ∧ F + 8 < 2 ^ 64;
  em_p : 0 ≤ p ∧ p + 24 < 2 ^ 64;
  em_k : 0 ≤ k ∧ k + 4096 < 2 ^ 64;
  em_proc : load 8 m (F - 8) = p;
  em_kstack : load 8 m (p + 0x10) = k;
  em_apart : apart F 8 (p + 0x10) 8;
  em_stack : apart (F - 8) 16 k 4096
}.

Definition entry_prefix : list instr :=
  [Mov W64 (Rg RAX) (At_fs 0); Mov W64 (At_fs (-8)) (Rg RAX); Mov W64 (At RAX 0x10) (Rg RAX); Add W64 (Imm (4096 - 16)) (Rg RAX);
   Mov W64 (Rg RSP) (At RAX 0); Mov W64 (Rg RAX) (Rg RSP); Mov W64 (At_fs 0) (Rg RAX)].

Lemma set_zf_if v s : Z.land (c_flags (set_zf v s)) FL_IF = Z.land (c_flags s) FL_IF.
Proof.
  unfold set_zf. cbn [c_flags set_flags]. destruct (v =? 0).
  - rewrite Z.land_lor_distr_l. change (Z.land FL_ZF FL_IF) with 0. apply Z.lor_0_r.
  - apply Z.bits_inj'. intros i _. rewrite !Z.land_spec, Z.ldiff_spec.
    assert (Hz : Z.testbit FL_ZF i && Z.testbit FL_IF i = false) by (rewrite <- Z.land_spec; change (Z.land FL_ZF FL_IF) with 0; apply Z.bits_0).
    destruct (Z.testbit (c_flags s) i), (Z.testbit FL_ZF i), (Z.testbit FL_IF i); done.
Qed.
Lemma set_zf_word v s : word (c_flags s) → word (c_flags (set_zf v s)).
Proof.
  intros H. unfold set_zf. cbn [c_flags set_flags]. destruct (v =? 0); [|by apply word_ldiff].
  unfold word in *. split; [apply Z.lor_nonneg; unfold FL_ZF; lia|].
  apply Z.log2_lt_cancel. rewrite Z.log2_lor by (unfold FL_ZF; lia). rewrite Z.log2_pow2 by lia. change (Z.log2 FL_ZF) with 6.
  apply Z.max_lub_lt; [|lia]. destruct (decide (c_flags s = 0)) as [->|Hne]; [cbn; lia|]. apply Z.log2_lt_pow2; lia.
Qed.

Section calls.
Variable lbl : label → Z.
Hypothesis lbl_ok : ∀ l, word (lbl l).

Lemma value_fs d s : 0 ≤ c_msr s MSR_FS_BASE + d < 2 ^ 64 → value lbl W64 (At_fs d) s = load 8 (c_mem s) (c_msr s MSR_FS_BASE + d).
Proof. intros H. cbn [value effective nbytes]. unfold u64. by rewrite Z.mod_small. Qed.
Lemma value_at r d s : 0 ≤ c_reg s r + d < 2 ^ 64 → value lbl W64 (At r d) s = load 8 (c_mem s) (c_reg s r + d).
Proof. intros H. cbn [value effective nbytes]. unfold u64. by rewrite Z.mod_small. Qed.
Lemma assign_fs d v s : 0 ≤ c_msr s MSR_FS_BASE + d < 2 ^ 64 → assign lbl W64 (At_fs d) v s = set_cmem (put 8 (c_msr s MSR_FS_BASE + d) v (c_mem s)) s.
Proof. intros H. cbn [assign effective nbytes]. unfold u64. by rewrite Z.mod_small. Qed.
Lemma assign_at r d v s : 0 ≤ c_reg s r + d < 2 ^ 64 → assign lbl W64 (At r d) v s = set_cmem (put 8 (c_reg s r + d) v (c_mem s)) s.
Proof. intros H. cbn [assign effective nbytes]. unfold u64. by rewrite Z.mod_small. Qed.

(** What the instructions of the prefix leave alone. *)
Definition entry_same (s s' : cpu) : Prop :=
  Z.land (c_flags s') FL_IF = Z.land (c_flags s) FL_IF ∧ (word (c_flags s) → word (c_flags s')) ∧ c_seg s' = c_seg s ∧ c_msr s' = c_msr s ∧ c_ip s' = c_ip s.

Lemma run_find_stack p fuel il s F pr k :
  word (c_reg s RAX) → c_msr s MSR_FS_BASE = F → entry_memory F pr k (c_mem s) →
  ∃ s', run lbl p (4 + fuel) (take 4 entry_prefix ++ il) s = run lbl p fuel il s' ∧
    c_reg s' RAX = k + 4080 ∧ (∀ r, r ≠ RAX → c_reg s' r = c_reg s r) ∧ c_mem s' = put 8 F (c_reg s RAX) (c_mem s) ∧ entry_same s s'.
Proof.
  intros Hw HF [HF1 Hp1 Hk1 Hp Hk Ha Hst]. unfold apart in *. cbn [entry_prefix take app Nat.add].
  rewrite run_mov, value_reg, assign_fs by (rewrite ?HF; (done || lia)). rewrite HF, Z.add_0_r.
  set (m1 := put 8 F (c_reg s RAX) (c_mem s)).
  assert (L1 : load 8 m1 (F + -8) = pr) by (rewrite <- Hp; apply load_put_other; cbn; lia).
  assert (L2 : load 8 m1 (pr + 0x10) = k) by (rewrite <- Hk; apply load_put_other; cbn; lia). clearbody m1.
  rewrite run_mov, assign_reg, value_fs by (cbn [c_msr set_cmem]; lia). cbn [c_msr set_cmem c_mem]. rewrite HF, L1.
  rewrite run_mov, assign_reg, value_at by (rewrite get_reg_same; lia). rewrite get_reg_same. cbn [c_mem set_reg set_cmem]. rewrite L2.
  rewrite run_add. unfold arith. rewrite assign_reg, value_reg by (rewrite get_reg_same; split; lia). rewrite get_reg_same.
  assert (Hv : cut W64 (k + value lbl W64 (Imm (4096 - 16)) (set_cmem m1 s)) = k + 4080).
  { cbn [value]. unfold cut. cbn [nbytes]. change (256 ^ Z.of_nat 8) with (2 ^ 64). rewrite (Z.mod_small (4096 - 16)) by lia. apply Z.mod_small. lia. }
  cbn [value] in *. rewrite Hv. eexists. split; [reflexivity|]. split; [apply get_reg_same|]. split; [|split; [reflexivity|]].
  - intros r Hr. cbn. by rewrite !decide_False.
  - split; [by rewrite set_zf_if|]. split; [intros Hf; by apply set_zf_word|]. done.
Qed.

Lemma run_take_stack p fuel il s F k :
  word (c_reg s RSP) → c_msr s MSR_FS_BASE = F → 8 ≤ F ∧ F + 8 < 2 ^ 64 → c_reg s RAX = k + 4080 → 0 ≤ k ∧ k + 4096 < 2 ^ 64 → apart F 8 (k + 4080) 8 →
  ∃ s', run lbl p (3 + fuel) (drop 4 entry_prefix ++ il) s = run lbl p fuel il s' ∧
    c_reg s' RSP = k + 4080 ∧ c_reg s' RAX = load 8 (c_mem s) F ∧ (∀ r, r ≠ RAX → r ≠ RSP → c_reg s' r = c_reg s r) ∧
    c_mem s' = put 8 (k + 4080) (c_reg s RSP) (c_mem s) ∧ entry_same s s'.
Proof.
  intros Hw HF HF1 Hk Hk1 Ha. unfold apart in Ha. cbn [entry_prefix drop app Nat.add].
  rewrite run_mov, value_reg, assign_at by (rewrite ?Hk; (done || lia)). rewrite Hk, Z.add_0_r.
  set (m1 := put 8 (k + 4080) (c_reg s RSP) (c_mem s)).
  assert (L1 : load 8 m1 F = load 8 (c_mem s) F) by (apply load_put_other; cbn; lia). clearbody m1.
  rewrite run_mov, assign_reg, value_reg by (cbn [c_reg set_cmem]; rewrite Hk; split; lia). cbn [c_reg set_cmem]. rewrite Hk.
  rewrite run_mov, assign_reg, value_fs by (cbn [c_msr set_reg set_cmem]; lia). cbn [c_msr c_mem set_reg set_cmem]. rewrite HF, Z.add_0_r, L1.
  eexists. split; [reflexivity|]. split; [|split; [apply get_reg_same|split; [|split; [reflexivity|]]]].
  - rewrite get_reg_other by done. apply get_reg_same.
  - intros r H1 H2. by rewrite !get_reg_other.
  - split; [reflexivity|]. by split.
Qed.

Lemma entry_code p : entry_prefix ++ p = take 4 entry_prefix ++ drop 4 entry_prefix ++ p.
Proof. reflexivity. Qed.

Lemma run_entry p fuel il s F pr k :
  cpu_ok s → c_msr s MSR_FS_BASE = F → entry_memory F pr k (c_mem s) →
  ∃ s', run lbl p (7 + fuel) (entry_prefix ++ il) s = run lbl p fuel il s' ∧
    c_reg s' RSP = k + 4080 ∧ (∀ r, r ≠ RSP → c_reg s' r = c_reg s r) ∧
    c_mem s' = put 8 (k + 4080) (c_reg s RSP) (put 8 F (c_reg s RAX) (c_mem s)) ∧
    Z.land (c_flags s') FL_IF = Z.land (c_flags s) FL_IF ∧ cpu_ok s'.
Proof.
  intros [Or Of Og Oi] HF Hm. rewrite entry_code. replace (7 + fuel)%nat with (4 + (3 + fuel))%nat by lia.
  destruct (run_find_stack p (3 + fuel) (drop 4 entry_prefix ++ il) s F pr k (Or RAX) HF Hm) as (s1 & -> & A1 & R1 & M1 & (I1 & W1 & G1 & S1 & P1)).
  destruct Hm as [HF1 _ Hk1 _ _ _ Hst]. unfold apart in Hst.
  destruct (run_take_stack p fuel il s1 F k) as (s2 & -> & B2 & A2 & R2 & M2 & (I2 & W2 & G2 & S2 & P2));
    [rewrite R1 by done; apply Or|by rewrite S1|exact HF1|exact A1|exact Hk1|unfold apart; lia|].
  assert (HA : c_reg s2 RAX = c_reg s RAX) by (rewrite A2, M1, load_put_same; apply Z.mod_small, Or).
  assert (HR : ∀ r, r ≠ RSP → c_reg s2 r = c_reg s r).
  { intros r Hr. destruct (decide (r = RAX)) as [->|Hra]; [exact HA|]. by rewrite R2, R1. }
  exists s2. split; [done|]. split; [exact B2|]. split; [exact HR|]. split; [by rewrite M2, M1, R1|]. split; [by rewrite I2, I1|].
  split; [|by auto|by rewrite G2, G1|by rewrite P2, P1]. intros r. destruct (decide (r = RSP)) as [->|Hr]; [rewrite B2; split; lia|by rewrite HR].
Qed.

(** ** The frame of a system call *)
Lemma syscall_entry_at : code_at trapasm "syscall_entry" =
  Some (entry_prefix ++ (Push <$> [Rg R11; Imm 0; Rg RCX; Imm 0; Imm 0]) ++ save_regs "syscall" "syscall_trapret" ++ concat (snd <$> drop 3 trapasm)).
Proof. reflexivity. Qed.

(** p->tf: the frame at the top of the kernel stack. *)
Definition tf_addr (k : Z) : Z := k + KSTACKSIZE - frame_size.

Lemma call_words s : (λ o, value lbl W64 o s) <$> [Rg R11; Imm 0; Rg RCX; Imm 0; Imm 0] = [cut W64 (c_reg s R11); 0; cut W64 (c_reg s RCX); 0; 0].
Proof. reflexivity. Qed.

Lemma call_frame s s0 s' k F ra a :
  c_reg s0 RSP = k + 4080 → (∀ r, r ≠ RSP → c_reg s0 r = c_reg s r) →
  c_mem s0 = put 8 (k + 4080) (c_reg s RSP) (put 8 F (c_reg s RAX) (c_mem s)) → word (c_reg s RSP) → apart (F - 8) 16 k 4096 →
  pushed ([c_reg s R11; 0; c_reg s RCX; 0; 0] ++ (c_reg s <$> pushed_regs) ++ [ra]) (set_reg RDI a s0) s' →
  frame_at (c_mem s') (tf_addr k) = frame_with (c_reg s) 0 0 (c_reg s RCX) 0 (c_reg s R11) (c_reg s RSP) (load 8 (c_mem s) (k + 4088)) ∧
  c_reg s' RSP = tf_addr k - 8 ∧ c_reg s' RDI = a ∧ load 8 (c_mem s') (tf_addr k - 8) = ra ∧
  (∀ x, x < k + 3912 ∨ k + 4088 ≤ x → ¬ (F ≤ x < F + 8) → c_mem s' x = c_mem s x).
Proof.
  intros H0 Hr Hm Hw Hap [P R W M]. unfold apart in Hap. rewrite get_reg_other in P, M by done. rewrite !length_app, length_fmap in P. cbn [length pushed_regs Nat.add] in P.
  assert (HT : tf_addr k = k + 3920) by (unfold tf_addr, KSTACKSIZE, frame_size, frame_words; lia).
  assert (HP : c_reg s' RSP = k + 3912) by lia. rewrite HP in W, M. cbn [c_mem set_reg] in M.
  rewrite app_assoc, reverse_snoc, length_app, Nat.add_comm in W. change (length [ra] + _)%nat with (S 20) in W. rewrite words_S in W.
  pose proof (f_equal (hd 0) W) as Wr. pose proof (f_equal tl W) as Ww. cbn [hd tl] in Wr, Ww. clear W.
  replace (k + 3912 + 8) with (k + 3920) in Ww by lia. rewrite HT. replace (k + 3920 - 8) with (k + 3912) by lia.
  assert (Hout : ∀ x, x < k + 3912 ∨ k + 4080 ≤ x → c_mem s' x = c_mem s0 x) by (intros x Hx; apply M; lia).
  split; [|split; [exact HP|split; [rewrite (R RDI), get_reg_same by done; done|split; [exact Wr|]]]].
  - assert (L1 : load 8 (c_mem s') (k + 4080) = c_reg s RSP).
    { rewrite (load_ext 8 (c_mem s0)) by (intros x Hx; apply Hout; lia). rewrite Hm, load_put_same. apply Z.mod_small. exact Hw. }
    assert (L2 : load 8 (c_mem s') (k + 4088) = load 8 (c_mem s) (k + 4088)).
    { rewrite (load_ext 8 (c_mem s0)) by (intros x Hx; apply Hout; lia). rewrite Hm, !load_put_other by (cbn; lia). done. }
    unfold frame_at. change frame_words with (20 + 2)%nat. rewrite words_app, Ww, !words_S. change (8 * Z.of_nat 20) with 160.
    replace (k + 3920 + 160) with (k + 4080) by lia. replace (k + 4080 + 8) with (k + 4088) by lia. rewrite L1, L2. reflexivity.
  - intros x Hx HFx. destruct (decide (x < k + 3912 ∨ k + 4080 ≤ x)) as [H|H]; [|lia]. rewrite (Hout x H), Hm, !put_other by (cbn; lia). done.
Qed.

Lemma syscall_enters s code F pr k :
  cpu_ok s → c_msr s MSR_FS_BASE = F → entry_memory F pr k (c_mem s) → code_at trapasm "syscall_entry" = Some code →
  ∃ s', run lbl trapasm 40 code s = Some (Calls "syscall", s') ∧
    frame_at (c_mem s') (tf_addr k) = frame_with (c_reg s) 0 0 (c_reg s RCX) 0 (c_reg s R11) (c_reg s RSP) (load 8 (c_mem s) (k + 4088)) ∧
    c_reg s' RDI = tf_addr k ∧ c_reg s' RSP = tf_addr k - 8 ∧ load 8 (c_mem s') (tf_addr k - 8) = lbl "syscall_trapret" ∧
    Z.land (c_flags s') FL_IF = Z.land (c_flags s) FL_IF ∧
    (∀ x, x < k + 3912 ∨ k + 4088 ≤ x → ¬ (F ≤ x < F + 8) → c_mem s' x = c_mem s x).
Proof.
  intros Hs HF Hm Hc. rewrite syscall_entry_at in Hc. apply (inj Some) in Hc as <-. replace 40%nat with (7 + 33)%nat by done.
  destruct (run_entry trapasm 33 ((Push <$> [Rg R11; Imm 0; Rg RCX; Imm 0; Imm 0]) ++ save_regs "syscall" "syscall_trapret" ++ concat (snd <$> drop 3 trapasm))
    s F pr k Hs HF Hm) as (s0 & -> & H0 & Hr0 & Hm0 & Hi0 & O0).
  replace 33%nat with (length [Rg R11; Imm 0; Rg RCX; Imm 0; Imm 0] + 28)%nat by done. rewrite run_pushes, call_words by done.
  assert (Hcut : ∀ r, cut W64 (c_reg s0 r) = c_reg s0 r) by (intros r; apply Z.mod_small, O0). rewrite !Hcut. clear Hcut.
  destruct Hm as [_ _ Hk _ _ _ Hap].
  assert (P1 : pushed [c_reg s0 R11; 0; c_reg s0 RCX; 0; 0] s0 (pushes [c_reg s0 R11; 0; c_reg s0 RCX; 0; 0] s0)).
  { apply pushes_ok; [|cbn [length]; lia]. repeat (apply Forall_cons; split; [apply O0 || (split; lia)|]). by apply Forall_nil. }
  pose proof (pushes_control [c_reg s0 R11; 0; c_reg s0 RCX; 0; 0] s0) as C1. set (s1 := pushes _ s0) in *. clearbody s1.
  assert (H1 : c_reg s1 RSP = k + 4040) by (rewrite (pu_sp _ _ _ P1); cbn [length]; lia).
  assert (O1 : cpu_ok s1) by (apply (pushed_cpu_ok _ s0 s1 P1); [done|rewrite H1; split; lia|done]).
  replace 28%nat with (15 + S (S 11))%nat by done.
  destruct (run_save_regs lbl lbl_ok trapasm 11 "syscall" "syscall_trapret" s1 (concat (snd <$> drop 3 trapasm))) as (s' & -> & P2 & C2); [done|done|lia|].
  exists s'. split; [done|]. rewrite (Hr0 R11), (Hr0 RCX) in P1 by done.
  replace (c_reg s1 <$> pushed_regs) with (c_reg s <$> pushed_regs) in P2.
  2: { apply list_fmap_ext. intros i r Hr. assert (Hne : r ≠ RSP) by (intros ->; apply list_elem_of_lookup_2 in Hr; revert Hr; apply (bool_decide_unpack _); vm_compute; exact I).
       by rewrite (pu_reg _ _ _ P1 r Hne), Hr0. }
  replace (c_reg s1 RSP - 120) with (tf_addr k) in P2 by (rewrite H1; unfold tf_addr, KSTACKSIZE, frame_size, frame_words; lia).
  destruct (call_frame s s0 s' k F (lbl "syscall_trapret") (tf_addr k) H0 Hr0 Hm0) as (F1 & F2 & F3 & F4 & F5); [apply Hs|exact Hap| |].
  { eapply pushed_trans; [|exact P2]. by apply pushed_set_reg. }
  split; [exact F1|]. split; [exact F3|]. split; [exact F2|]. split; [exact F4|]. split; [|exact F5].
  destruct C1 as (C1 & _). destruct C2 as (C2 & _). by rewrite C2, C1.
Qed.

(** ** The way back to user code *)
Lemma syscall_trapret_at : code_at trapasm "syscall_trapret" =
  Some ((Pop <$> reverse pushed_regs) ++ [Add W64 (Imm 40) (Rg RSP); Cli; Mov W64 (At RSP 0) (Rg RSP); Sysretq]).
Proof. reflexivity. Qed.

Lemma syscall_trapret_runs s code : code_at trapasm "syscall_trapret" = Some code → 0 ≤ c_reg s RSP → c_reg s RSP + frame_size < 2 ^ 64 →
  let tf := frame_at (c_mem s) (c_reg s RSP) in
  let star := Z.shiftr (c_msr s MSR_STAR) 48 in
  ∃ s', run lbl trapasm 20 code s = Some (Sysrets, s') ∧ (∀ r, c_reg s' r = saved tf r) ∧ c_ip s' = rcx tf ∧
    c_flags s' = Z.lor (Z.land (r11 tf) 0x3c7fd7) 2 ∧ c_seg s' CS = Z.lor (star + 16) 3 ∧ c_seg s' SS = Z.lor (star + 8) 3 ∧ c_mem s' = c_mem s.
Proof.
  intros Hc H0 H1. cbv zeta. rewrite syscall_trapret_at in Hc. apply (inj Some) in Hc as <-. replace 20%nat with (15 + 5)%nat by done.
  destruct (run_restore_regs lbl trapasm 5 [Add W64 (Imm 40) (Rg RSP); Cli; Mov W64 (At RSP 0) (Rg RSP); Sysretq] s H0 H1) as (s1 & -> & Hr & Hsp & Hm & (_ & _ & _ & Hmsr & _)).
  assert (HR : ∀ v s, c_reg (set_flags v s) = c_reg s) by done. assert (HZ : ∀ v s, c_reg (set_zf v s) = c_reg s) by done.
  unfold frame_size, frame_words in H1. rewrite run_add_sp, run_cli, run_mov, assign_reg, value_at, run_sysretq by (rewrite ?HR, ?HZ, ?get_reg_same, ?Hsp; lia).
  destruct (frame_fields (c_mem s) (c_reg s RSP)) as (_ & _ & _ & F4 & _).
  assert (HL : load 8 (c_mem s) (c_reg s1 RSP + 40 + 0) = rsp (frame_at (c_mem s) (c_reg s RSP))) by (rewrite F4, Hsp, <- !Z.add_assoc; reflexivity).
  rewrite HR, HZ, get_reg_same. cbn [c_mem set_flags set_zf set_reg]. rewrite Hm, HL. set (s2 := set_reg RSP _ _).
  assert (H2 : ∀ r, c_reg s2 r = saved (frame_at (c_mem s) (c_reg s RSP)) r).
  { intros r. destruct (decide (r = RSP)) as [->|Hne]; [apply get_reg_same|]. subst s2. rewrite get_reg_other, HR, HZ, get_reg_other by done. exact (Hr r Hne). }
  assert (Hm2 : c_mem s2 = c_mem s) by (rewrite <- Hm; reflexivity).
  assert (Hk2 : c_msr s2 = c_msr s) by (rewrite <- Hmsr; reflexivity). clearbody s2.
  eexists. split; [reflexivity|]. unfold sysret_insn. cbn [c_reg c_ip c_flags c_seg c_mem set_ip set_seg set_flags]. rewrite Hk2.
  split; [exact H2|]. split; [exact (H2 RCX)|]. split; [by rewrite (H2 R11)|]. split; [reflexivity|]. split; [reflexivity|exact Hm2].
Qed.

(** ** The whole call *)

(** The arguments of a C function, in the registers of the calling convention. *)
Definition c_args : list reg := [RDI; RSI; RDX; RCX; R8; R9].

(** A user state at the stub of a system call; [s0] is the state in which the processor
    executed syscallinit. *)
Record calls_stub (F pr k : Z) (s0 s : cpu) : Prop := {
  cs_ok : cpu_ok s;
  cs_stack : c_reg s RSP + 8 < 2 ^ 64;
  cs_cs : c_seg s CS = USER_CS;
  cs_ss : c_seg s SS = USER_DS;
  cs_flags : Z.lor (Z.land (c_flags s) 0x3c7fd7) 2 = c_flags s;
  cs_msr : ∀ r, r ∈ [MSR_STAR; MSR_LSTAR; MSR_SFMASK] → c_msr s r = c_msr (syscallinit lbl s0) r;
  cs_fs : c_msr s MSR_FS_BASE = F;
  cs_mem : entry_memory F pr k (c_mem s)
}.

Lemma usys_small name n : (name, n) ∈ usys → 0 ≤ n < 256.
Proof.
  intros H. assert (Hall : Forall (λ x, 0 ≤ snd x < 256) usys) by (apply (bool_decide_unpack _); vm_compute; exact I).
  rewrite Forall_forall in Hall. exact (Hall _ H).
Qed.

Lemma syscall_insn_reg next s r :
  c_reg (syscall_insn next s) r = if decide (r = R11) then c_flags s else if decide (r = RCX) then next else c_reg s r.
Proof. reflexivity. Qed.
Lemma syscall_insn_ip next s : c_ip (syscall_insn next s) = c_msr s MSR_LSTAR.
Proof. reflexivity. Qed.
Lemma syscall_insn_seg next s r :
  let star := Z.ldiff (Z.shiftr (c_msr s MSR_STAR) 32 mod 2 ^ 16) 3 in
  c_seg (syscall_insn next s) r = if decide (r = CS) then star else if decide (r = SS) then star + 8 else c_seg s r.
Proof. reflexivity. Qed.
Lemma syscall_insn_cs next s : c_seg (syscall_insn next s) CS = Z.ldiff (Z.shiftr (c_msr s MSR_STAR) 32 mod 2 ^ 16) 3.
Proof. reflexivity. Qed.
Lemma ldiff_if x m : Z.testbit m 9 = true → Z.land (Z.ldiff x m) FL_IF = 0.
Proof.
  intros Hm. apply Z.bits_inj'. intros i Hi. rewrite Z.land_spec, Z.ldiff_spec, Z.bits_0. change FL_IF with (2 ^ 9).
  destruct (decide (i = 9)) as [->|Hne]; [by rewrite Hm, andb_false_r|]. rewrite Z.pow2_bits_false by lia. apply andb_false_r.
Qed.

(** After the stub: the number in rax, the fourth argument in r10. *)
Lemma stub_runs F pr k s0 s name n : calls_stub F pr k s0 s → (name, n) ∈ usys →
  ∃ s1, run lbl [] 10 (stub name n) s = Some (Syscalls, s1) ∧ c_ip s1 = lbl "syscall_entry" ∧ c_seg s1 CS = KERNEL_CS ∧
    c_reg s1 RAX = n ∧ c_reg s1 R10 = c_reg s RCX ∧ c_reg s1 RCX = lbl (name +:+ ".ret")%string ∧ c_reg s1 R11 = c_flags s ∧
    (∀ r, r ∉ [RAX; RCX; R10; R11] → c_reg s1 r = c_reg s r) ∧ c_mem s1 = c_mem s ∧ c_msr s1 = c_msr s ∧
    Z.land (c_flags s1) FL_IF = 0 ∧ cpu_ok s1.
Proof.
  intros [[Or Of Og Oi] Hst Hcs Hss Hfl Hmsr HF Hm] Hn. pose proof (usys_small name n Hn) as Hns. unfold stub.
  rewrite run_mov, assign_reg, run_mov, assign_reg, run_syscall. rewrite (value_reg _ RCX) by (rewrite get_reg_other by done; apply Or). rewrite get_reg_other by done.
  assert (Hv : value lbl W64 (Imm n) s = n) by (cbn [value]; apply Z.mod_small; cbn; lia). rewrite Hv.
  set (s1 := set_reg R10 _ _). assert (H1 : ∀ r, c_reg s1 r = if decide (r = R10) then c_reg s RCX else if decide (r = RAX) then n else c_reg s r) by done.
  assert (HM : c_msr s1 = c_msr s ∧ c_mem s1 = c_mem s ∧ c_flags s1 = c_flags s ∧ c_seg s1 = c_seg s) by done. clearbody s1. destruct HM as (HM1 & HM2 & HM3 & HM4).
  assert (ES : c_msr s MSR_STAR = Z.lor (Z.shiftl USER32_CS 48) (Z.shiftl KERNEL_CS 32)) by (rewrite Hmsr; [reflexivity|by apply list_elem_of_lookup_2 with 0%nat]).
  assert (EL : c_msr s MSR_LSTAR = lbl "syscall_entry") by (rewrite Hmsr; [reflexivity|by apply list_elem_of_lookup_2 with 1%nat]).
  assert (EF : Z.testbit (c_msr s MSR_SFMASK) 9 = true) by (rewrite Hmsr; [reflexivity|by apply list_elem_of_lookup_2 with 2%nat]).
  eexists. split; [reflexivity|]. rewrite syscall_insn_ip, syscall_insn_cs, !syscall_insn_reg, !H1. rewrite HM1, ES.
  split; [exact EL|]. split; [reflexivity|]. split; [reflexivity|]. split; [reflexivity|]. split; [reflexivity|]. split; [exact HM3|]. split.
  { intros r Hr. rewrite !not_elem_of_cons in Hr. destruct Hr as (N1 & N2 & N3 & N4 & _). rewrite syscall_insn_reg, !decide_False, H1, !decide_False by done. done. }
  split; [exact HM2|]. split; [exact HM1|].
  assert (Hfl1 : c_flags (syscall_insn (lbl (name +:+ ".ret")%string) s1) = Z.ldiff (c_flags s) (c_msr s MSR_SFMASK)) by (rewrite <- HM1, <- HM3; reflexivity).
  rewrite Hfl1. split; [by apply ldiff_if|]. split; [| |intros r|].
  - intros r. rewrite syscall_insn_reg, H1, HM3. repeat case_decide; [apply Of|apply lbl_ok|apply Or|split; lia|apply Or].
  - rewrite Hfl1. by apply word_ldiff.
  - rewrite syscall_insn_seg, HM1, ES, HM4. repeat case_decide; [split; vm_compute; congruence|split; vm_compute; congruence|apply Og].
  - rewrite syscall_insn_ip, HM1, EL. apply lbl_ok.
Qed.

Lemma fetcharg_args K i p f : myproc K = Done (i, p) K →
  p_tf p = f → ∀ j a, [rdi f; rsi f; rdx f; r10 f; r8 f; r9 f] !! j = Some a → fetcharg (Z.of_nat j) K = Done a K.
Proof.
  intros Hp Ht j a Hj. unfold fetcharg. rewrite (bind_done _ _ _ _ _ Hp). cbn [snd]. rewrite Ht.
  do 6 (destruct j as [|j]; [by injection Hj as <-|]). done.
Qed.

(** C13: a system call passes its arguments and its result.  When user code calls the stub of
    system call [n], the kernel function syscall runs with interrupts off and a frame at
    p->tf, in which rax is [n] and from which fetcharg gives the six arguments of the
    call in their order.  When syscall has stored its result in rax of that frame and
    left the rest of it, the user code goes on behind its call: with the result in rax, the
    stack pointer, the flags and all registers that a function keeps as they were. *)
Theorem syscall_roundtrip F pr k s0 s name n entry_code ret_code :
  calls_stub F pr k s0 s → (name, n) ∈ usys →
  code_at trapasm "syscall_entry" = Some entry_code → code_at trapasm "syscall_trapret" = Some ret_code →
  ∃ s1 s2, run lbl [] 10 (stub name n) s = Some (Syscalls, s1) ∧ c_ip s1 = lbl "syscall_entry" ∧ c_seg s1 CS = KERNEL_CS ∧
    run lbl trapasm 40 entry_code s1 = Some (Calls "syscall", s2) ∧ c_reg s2 RDI = tf_addr k ∧ Z.land (c_flags s2) FL_IF = 0 ∧
    let tf := frame_at (c_mem s2) (tf_addr k) in
    rax tf = n ∧
    (∀ K i p, myproc K = Done (i, p) K → p_tf p = tf → ∀ j r, c_args !! j = Some r → fetcharg (Z.of_nat j) K = Done (c_reg s r) K) ∧
    ∀ s3 result, c_reg s3 RSP = tf_addr k → c_msr s3 = c_msr s → frame_at (c_mem s3) (tf_addr k) = set_rax result tf →
      load 8 (c_mem s3) (c_reg s RSP) = load 8 (c_mem s) (c_reg s RSP) →
      ∃ s4 s5, run lbl trapasm 20 ret_code s3 = Some (Sysrets, s4) ∧ c_ip s4 = lbl (name +:+ ".ret")%string ∧
        c_seg s4 CS = c_seg s CS ∧ c_seg s4 SS = c_seg s SS ∧
        run lbl [] 1 (drop 3 (stub name n)) s4 = Some (Leaves, s5) ∧ c_ip s5 = load 8 (c_mem s) (c_reg s RSP) ∧ c_reg s5 RAX = result ∧
        c_reg s5 RSP = c_reg s RSP + 8 ∧ c_flags s5 = c_flags s ∧ ∀ r, r ∈ callee_saved → c_reg s5 r = c_reg s r.
Proof.
  intros Hs Hn He Hr. destruct (stub_runs F pr k s0 s name n Hs Hn) as (s1 & E1 & Hip1 & Hcs1 & Hax & H10 & Hcx & H11 & Hreg & Hm1 & Hmsr1 & Hif & O1).
  destruct (syscall_enters s1 entry_code F pr k O1) as (s2 & E2 & Hfr & Hdi & _ & _ & Hif2 & _); [by rewrite Hmsr1, (cs_fs _ _ _ _ _ Hs)|rewrite Hm1; apply Hs|exact He|].
  exists s1, s2. split; [exact E1|]. split; [exact Hip1|]. split; [exact Hcs1|]. split; [exact E2|]. split; [exact Hdi|]. split; [by rewrite Hif2|].
  cbv zeta. rewrite Hfr. split; [exact Hax|]. split.
  - intros K i p Hp Ht j r Hj. eapply fetcharg_args; [exact Hp|exact Ht|]. cbn [frame_with rdi rsi rdx r10 r8 r9]. rewrite H10.
    rewrite !Hreg by (apply (bool_decide_unpack _); vm_compute; exact I). do 6 (destruct j as [|j]; [by injection Hj as <-|]). done.
  - intros s3 result H3 Hmsr3 Hfr3 Hret. destruct (em_k _ _ _ _ (cs_mem _ _ _ _ _ Hs)) as [Hk1 Hk2].
    assert (Ht : 0 ≤ tf_addr k ∧ tf_addr k + frame_size < 2 ^ 64) by (unfold tf_addr, KSTACKSIZE, frame_size, frame_words; lia).
    destruct (syscall_trapret_runs s3 ret_code Hr) as (s4 & E4 & R4 & I4 & F4 & C4 & S4 & M4); [lia|lia|]. rewrite H3, Hfr3 in R4, I4, F4.
    assert (HSP : c_reg s4 RSP = c_reg s RSP) by (rewrite R4; cbn [saved set_rax rsp frame_with]; apply Hreg; apply (bool_decide_unpack _); vm_compute; exact I).
    assert (ES : Z.shiftr (c_msr s3 MSR_STAR) 48 = USER32_CS) by (rewrite Hmsr3, (cs_msr _ _ _ _ _ Hs); [reflexivity|by apply list_elem_of_lookup_2 with 0%nat]).
    rewrite ES in C4, S4. pose proof (ok_reg s (cs_ok _ _ _ _ _ Hs) RSP) as [HS0 _]. pose proof (cs_stack _ _ _ _ _ Hs).
    eexists s4, _. split; [exact E4|]. split; [by rewrite I4|]. split; [by rewrite C4, (cs_cs _ _ _ _ _ Hs)|]. split; [by rewrite S4, (cs_ss _ _ _ _ _ Hs)|].
    split; [apply run_ret|]. split; [cbn [c_ip set_ip]; by rewrite HSP, M4|]. cbn [c_flags set_ip].
    split; [etrans; [by apply get_reg_other|exact (R4 RAX)]|]. split; [etrans; [apply get_reg_same|]; rewrite HSP; apply Z.mod_small; lia|].
    split; [|intros r Hcr].
    + change (c_flags (set_reg RSP (u64 (c_reg s4 RSP + 8)) s4)) with (c_flags s4). rewrite F4. cbn [set_rax r11 frame_with]. rewrite H11. apply Hs.
    + assert (Hn' : r ≠ RSP ∧ r ∉ [RAX; RCX; R10; R11] ∧ saved (set_rax result (frame_with (c_reg s1) 0 0 (c_reg s1 RCX) 0 (c_reg s1 R11) (c_reg s1 RSP) (load 8 (c_mem s1) (k + 4088)))) r = c_reg s1 r).
      { unfold callee_saved in Hcr. rewrite !elem_of_cons, elem_of_nil in Hcr. destruct Hcr as [->|[->|[->|[->|[->|[->|[]]]]]]];
          (split; [done|]; split; [apply (bool_decide_unpack _); vm_compute; exact I|reflexivity]). }
      destruct Hn' as (N1 & N2 & N3). rewrite <- (Hreg r N2), <- N3, <- (R4 r). by apply get_reg_other.
Qed.
End calls.

(** read(3, 0x1000, 100), with the process at 0x20000 and its kernel stack at 0x9000. *)
Definition call_mem : mem := put 8 0x20010 0x9000 (put 8 0x87f8 0x20000 (λ _, 0)).
Definition call_labels (l : label) : Z := Z.min 0x8000 (0x4000 + Z.of_nat (String.length l)).
Definition call_cpu : cpu :=
  let s := user_cpu (λ r, match r with RDI => 3 | RSI => 0x1000 | RDX => 100 | RSP => 0x7000 | RBX => 5 | _ => 0 end) 0x4000 (λ _, 0) call_mem in
  set_msr MSR_FS_BASE 0x8800 (syscallinit call_labels s).

Lemma syscall_roundtrip_witness :
  ∃ s1 s2, run call_labels [] 10 (stub "read" SYS_read) call_cpu = Some (Syscalls, s1) ∧
    run call_labels trapasm 40 (default [] (code_at trapasm "syscall_entry")) s1 = Some (Calls "syscall", s2) ∧
    rax (frame_at (c_mem s2) (tf_addr 0x9000)) = SYS_read.
Proof.
  assert (Hl : ∀ l, word (call_labels l)) by (intros l; unfold call_labels; split; lia).
  assert (Hs : calls_stub call_labels 0x8800 0x20000 0x9000 call_cpu call_cpu).
  { split; [|vm_compute; reflexivity|reflexivity|reflexivity|reflexivity| |reflexivity|].
    - apply (user_cpu_ok _ 0x4000 _ call_mem); [intros []; split; vm_compute; congruence|split; lia].
    - intros r Hr. rewrite !elem_of_cons, elem_of_nil in Hr. destruct Hr as [->|[->|[->|[]]]]; reflexivity.
    - split; [split; lia|split; lia|split; lia|vm_compute; reflexivity|vm_compute; reflexivity|left; lia|left; lia]. }
  destruct (syscall_roundtrip call_labels Hl 0x8800 0x20000 0x9000 call_cpu call_cpu "read" SYS_read (default [] (code_at trapasm "syscall_entry")) (default [] (code_at trapasm "syscall_trapret")) Hs) as (s1 & s2 & E1 & _ & _ & E2 & _ & _ & Hax & _).
  - by apply list_elem_of_lookup_2 with 4%nat.
  - reflexivity.
  - reflexivity.
  - exists s1, s2. split; [exact E1|]. split; [exact E2|exact Hax].
Defined.
