(* ===== verification/AsmBoot.v ===== *)
(** * From the reset to C code

    bootasm.S and entryother.S take a processor from real mode to 32-bit mode, entry.S from there
    to 64-bit mode with a page table that maps the first gigabyte twice. *)

From S2P Require Import Prelude Params CString Core Vm Asm AsmTheorems.

#[local] Opaque load put.

(** ** Straight code *)
Section straight.
Variable lbl : label → Z.

Definition step1 (i : instr) (s : cpu) : option cpu :=
  match i with
  | Push o => Some (push W64 (value lbl W64 o s) s)
  | Mov w src dst => Some (assign lbl w dst (value lbl w src s) s)
  | Add w src dst => Some (arith lbl w (cut w (value lbl w dst s + value lbl w src s)) dst s)
  | Xor w src dst => Some (arith lbl w (Z.lxor (value lbl w dst s) (value lbl w src s)) dst s)
  | Or w src dst => Some (arith lbl w (Z.lor (value lbl w dst s) (value lbl w src s)) dst s)
  | Shr k r => Some (arith lbl W64 (Z.shiftr (c_reg s r) k) (Rg r) s)
  | Bts k r => Some (assign lbl W32 (Rg r) (Z.setbit (value lbl W32 (Rg r) s) k) s)
  | Test w a b => Some (set_zf (Z.land (value lbl w a s) (value lbl w b s)) s)
  | Cli => Some (set_flags (Z.ldiff (c_flags s) FL_IF) s)
  | Lgdt o => Some (set_gdtr (effective lbl o s) s)
  | Rdmsr =>
      let v := c_msr s (cut W32 (c_reg s RCX)) in
      Some (set_reg RAX (v mod 2 ^ 32) (set_reg RDX (Z.shiftr v 32) s))
  | Wrmsr => Some (set_msr (cut W32 (c_reg s RCX)) (Z.lor (Z.shiftl (cut W32 (c_reg s RDX)) 32) (cut W32 (c_reg s RAX))) s)
  | Rep_stosb =>
      Some (set_reg RDI (u32 (c_reg s RDI + c_reg s RCX)) (set_reg RCX 0
        (set_cmem (λ x, if (c_reg s RDI <=? x) && (x <? c_reg s RDI + c_reg s RCX) then cut W8 (c_reg s RAX) else c_mem s x) s)))
  | Out port => Some (add_out port (cut W8 (c_reg s RAX)) s)
  | _ => None
  end.
Definition exec (il : list instr) (s : cpu) : option cpu := foldl (λ o i, o ≫= step1 i) (Some s) il.

Lemma run_step1 p fuel i il s s' : step1 i s = Some s' → run lbl p (S fuel) (i :: il) s = run lbl p fuel il s'.
Proof. destruct i; cbn [step1]; try discriminate; intros [= <-]; reflexivity. Qed.
Lemma exec_cons i il s s' : step1 i s = Some s' → exec (i :: il) s = exec il s'.
Proof. intros H. unfold exec. cbn [foldl]. change (Some s ≫= step1 i) with (step1 i s). by rewrite H. Qed.
Lemma exec_none il : foldl (λ o i, o ≫= step1 i) None il = None.
Proof. by induction il. Qed.
Lemma run_exec p fuel il il' s s' : exec il s = Some s' → run lbl p (length il + fuel) (il ++ il') s = run lbl p fuel il' s'.
Proof.
  revert s. induction il as [|i il IH]; intros s H; [by injection H as <-|].
  cbn [length Nat.add app]. destruct (step1 i s) as [s1|] eqn:E.
  - rewrite (run_step1 _ _ _ _ _ _ E). apply IH. by rewrite <- (exec_cons _ _ _ _ E).
  - unfold exec in H. cbn [foldl] in H. change (Some s ≫= step1 i) with (step1 i s) in H. by rewrite E, exec_none in H.
Qed.
Lemma run_ljmp p fuel sel l il il' s : code_at p l = Some il' → run lbl p (S fuel) (Ljmp sel l :: il) s = run lbl p fuel il' (set_seg CS sel s).
Proof. intros H. cbn [run]. by rewrite H. Qed.
End straight.

(** ** Translation of addresses *)

(** The walk of the processor through the four levels of tables at [cr3], with pages of a
    gigabyte and of two megabytes. *)
Definition translate (m : mem) (cr3 va : Z) : option Z :=
  let e4 := load 8 m (PTE_ADDR cr3 + 8 * PMX va) in
  if negb (tst e4 PTE_P) then None else
  let e3 := load 8 m (PTE_ADDR e4 + 8 * PDPX va) in
  if negb (tst e3 PTE_P) then None else
  if tst e3 PTE_PS then Some (PTE_ADDR e3 + va mod 2 ^ 30) else
  let e2 := load 8 m (PTE_ADDR e3 + 8 * PDX va) in
  if negb (tst e2 PTE_P) then None else
  if tst e2 PTE_PS then Some (PTE_ADDR e2 + va mod 2 ^ 21) else
  let e1 := load 8 m (PTE_ADDR e2 + 8 * PTX va) in
  if negb (tst e1 PTE_P) then None else Some (PTE_ADDR e1 + va mod 2 ^ 12).

Lemma le_get_app l l' : le_get (l ++ l') = le_get l + 256 ^ Z.of_nat (length l) * le_get l'.
Proof.
  induction l as [|b l IH]; [cbn [app le_get length]; lia|]. cbn [app le_get length]. rewrite IH, Nat2Z.inj_succ, Z.pow_succ_r by lia. lia.
Qed.
Lemma load_split n k m a : load (n + k) m a = load n m a + 256 ^ Z.of_nat n * load k m (a + Z.of_nat n).
Proof.
  Transparent load. unfold load. rewrite seq_app, fmap_app, le_get_app, length_fmap, length_seq. do 3 f_equal.
  cbn [Nat.add]. rewrite <- (Nat.add_0_r n) at 1. rewrite <- fmap_add_seq, <- list_fmap_compose. apply list_fmap_ext. intros i x _. cbn [compose]. f_equal. lia.
Qed.
#[local] Opaque load.
Lemma load_zero n m a : (∀ x, a ≤ x < a + Z.of_nat n → m x = 0) → load n m a = 0.
Proof.
  intros H. rewrite (load_ext n (λ _, 0)) by exact H. Transparent load. unfold load. clear H. generalize (seq 0 n). induction l as [|i l IH]; [done|].
  cbn [fmap list_fmap le_get]. by rewrite IH.
Qed.
#[local] Opaque load.

(** The tables that entry.S builds: two entries of the first level point to one table of the
    second, whose first entry is the gigabyte at 0. *)
Definition boot_tables (m : mem) : Prop := load 8 m 0x1000 = 0x2003 ∧ load 8 m 0x1800 = 0x2003 ∧ load 8 m 0x2000 = 0x83.

Lemma boot_tables_map m va : boot_tables m → 0 ≤ va < 2 ^ 30 → translate m 0x1000 va = Some va ∧ translate m 0x1000 (KERNBASE + va) = Some va.
Proof.
  intros (H1 & H2 & H3) Hva. unfold translate.
  assert (P1 : PMX va = 0) by (unfold PMX; rewrite Z.shiftr_div_pow2, Z.div_small by (unfold PML4XSHIFT; lia); done).
  assert (P2 : PDPX va = 0) by (unfold PDPX; rewrite Z.shiftr_div_pow2, Z.div_small by (unfold PDPXSHIFT; lia); done).
  assert (K1 : PMX (KERNBASE + va) = 256).
  { unfold PMX. rewrite Z.shiftr_div_pow2 by (unfold PML4XSHIFT; lia). change KERNBASE with (0x1ffff00 * 2 ^ PML4XSHIFT). rewrite Z.div_add_l, (Z.div_small va) by (unfold PML4XSHIFT; lia). done. }
  assert (K2 : PDPX (KERNBASE + va) = 0).
  { unfold PDPX. rewrite Z.shiftr_div_pow2 by (unfold PDPXSHIFT; lia). change KERNBASE with (0x3fffe0000 * 2 ^ PDPXSHIFT). rewrite Z.div_add_l, (Z.div_small va) by (unfold PDPXSHIFT; lia). done. }
  rewrite P1, P2, K1, K2. change (PTE_ADDR 0x1000 + 8 * 0) with 0x1000. change (PTE_ADDR 0x1000 + 8 * 256) with 0x1800. rewrite H1, H2. cbn [negb tst].
  change (PTE_ADDR 0x2003 + 8 * 0) with 0x2000. rewrite H3. change (tst 0x2003 PTE_P) with true. change (tst 0x83 PTE_P) with true. change (tst 0x83 PTE_PS) with true.
  cbn [negb]. change (PTE_ADDR 0x83) with 0. split; f_equal; [by apply Z.mod_small|].
  change KERNBASE with (0x3fffe0000 * 2 ^ 30). rewrite Z.add_0_l, (Z.add_comm (_ * _)), Z.mod_add by lia. by apply Z.mod_small.
Qed.

(** ** entry.S *)
Section entry.
Variable lbl : label → Z.

(** The first block: two pages of zeroes. *)
Lemma low_entry_zero s :
  ∃ s', exec lbl [Xor W32 (Rg RAX) (Rg RAX); Mov W32 (Imm 0x1000) (Rg RDI); Mov W32 (Imm 0x2000) (Rg RCX); Rep_stosb] s = Some s' ∧
    (∀ x, c_mem s' x = if (0x1000 <=? x) && (x <? 0x3000) then 0 else c_mem s x) ∧ c_cr s' = c_cr s ∧ c_msr s' = c_msr s.
Proof.
  eexists. split; [reflexivity|]. split; [|split; reflexivity]. intros x. cbn. rewrite !Z.lxor_nilpotent. reflexivity.
Qed.

(** The entries of the tables. *)
Lemma entry_tables s :
  ∃ s', exec lbl [Mov W32 (Imm (Z.lor (Z.lor 0x2000 PTE_P) PTE_W)) (Rg RAX); Mov W32 (Rg RAX) (Abs 0x1000); Mov W32 (Rg RAX) (Abs 0x1800);
      Mov W32 (Imm (Z.lor (Z.lor (Z.lor 0x0 PTE_P) PTE_PS) PTE_W)) (Rg RAX); Mov W32 (Rg RAX) (Abs 0x2000); Xor W32 (Rg RBX) (Rg RBX)] s = Some s' ∧
    c_mem s' = put 4 0x2000 0x83 (put 4 0x1800 0x2003 (put 4 0x1000 0x2003 (c_mem s))) ∧ c_cr s' = c_cr s ∧ c_msr s' = c_msr s ∧ c_reg s' RBX = 0.
Proof.
  eexists. split; [reflexivity|]. split; [reflexivity|]. split; [reflexivity|]. split; [reflexivity|].
  cbn. rewrite Z.lxor_nilpotent. reflexivity.
Qed.

Lemma cut32_bit v i : 0 ≤ i < 32 → Z.testbit (cut W32 v) i = Z.testbit v i.
Proof. intros H. unfold cut. cbn [nbytes]. change (256 ^ Z.of_nat 4) with (2 ^ 32). apply Z.mod_pow2_bits_low. lia. Qed.

(** The control registers. *)
Lemma entry_cr3 s :
  ∃ s', exec lbl [Mov W32 (Imm 0x1000) (Rg RAX); Mov W32 (Rg RAX) (Cr CR3); Lgdt (Low "gdtr64"); Mov W32 (Cr CR4) (Rg RAX); Bts 5 RAX; Mov W32 (Rg RAX) (Cr CR4)] s = Some s' ∧
    c_cr s' CR3 = 0x1000 ∧ c_cr s' CR0 = c_cr s CR0 ∧ Z.testbit (c_cr s' CR4) 5 = true ∧ c_mem s' = c_mem s ∧ c_msr s' = c_msr s ∧ c_reg s' RBX = c_reg s RBX ∧
    c_gdtr s' = lbl "gdtr64"%string - lbl "mboot_header"%string + lbl "mboot_load_addr"%string.
Proof.
  eexists. split; [reflexivity|]. split; [reflexivity|]. split; [reflexivity|]. split; [|repeat split; reflexivity].
  change (Z.testbit (cut W32 (Z.setbit (cut W32 (c_cr s CR4)) 5)) 5 = true). by rewrite cut32_bit, Z.setbit_eq by lia.
Qed.

Lemma entry_efer s :
  ∃ s', exec lbl [Mov W32 (Imm MSR_EFER) (Rg RCX); Rdmsr; Bts 0 RAX; Bts 8 RAX; Wrmsr] s = Some s' ∧
    Z.testbit (c_msr s' MSR_EFER) 0 = true ∧ Z.testbit (c_msr s' MSR_EFER) 8 = true ∧ c_cr s' = c_cr s ∧ c_mem s' = c_mem s ∧ c_gdtr s' = c_gdtr s ∧ c_reg s' RBX = c_reg s RBX.
Proof.
  eexists. split; [reflexivity|].
  set (v := c_msr s MSR_EFER). set (lo := cut W32 (Z.setbit (cut W32 (Z.setbit (cut W32 (v mod 2 ^ 32)) 0)) 8)).
  assert (Hlo : ∀ i, 0 ≤ i < 32 → Z.testbit (Z.lor (Z.shiftl (cut W32 (Z.shiftr v 32)) 32) lo) i = Z.testbit lo i).
  { intros i Hi. rewrite Z.lor_spec, Z.shiftl_spec_low by lia. done. }
  split; [change (Z.testbit (Z.lor (Z.shiftl (cut W32 (Z.shiftr v 32)) 32) lo) 0 = true)|split; [change (Z.testbit (Z.lor (Z.shiftl (cut W32 (Z.shiftr v 32)) 32) lo) 8 = true)|repeat split; reflexivity]].
  - rewrite Hlo by lia. subst lo. by rewrite cut32_bit, Z.setbit_neq, cut32_bit, Z.setbit_eq by lia.
  - rewrite Hlo by lia. subst lo. by rewrite cut32_bit, Z.setbit_eq by lia.
Qed.

Lemma entry_cr0 s :
  ∃ s', exec lbl [Mov W32 (Cr CR0) (Rg RAX); Or W32 (Imm (Z.lor (Z.lor CR0_PG CR0_WP) CR0_MP)) (Rg RAX); Mov W32 (Rg RAX) (Cr CR0)] s = Some s' ∧
    Z.testbit (c_cr s' CR0) 31 = true ∧ Z.testbit (c_cr s' CR0) 16 = true ∧ Z.testbit (c_cr s' CR0) 0 = Z.testbit (c_cr s CR0) 0 ∧
    c_cr s' CR3 = c_cr s CR3 ∧ c_cr s' CR4 = c_cr s CR4 ∧ c_msr s' = c_msr s ∧ c_mem s' = c_mem s ∧ c_gdtr s' = c_gdtr s ∧ c_reg s' RBX = c_reg s RBX.
Proof.
  eexists. split; [reflexivity|].
  set (v := cut W32 (Z.lor (cut W32 (c_cr s CR0)) (Z.lor (Z.lor CR0_PG CR0_WP) CR0_MP))).
  assert (Hv : ∀ i, 0 ≤ i < 32 → Z.testbit v i = Z.testbit (c_cr s CR0) i || Z.testbit (Z.lor (Z.lor CR0_PG CR0_WP) CR0_MP) i).
  { intros i Hi. subst v. by rewrite cut32_bit, Z.lor_spec, cut32_bit by lia. }
  split; [change (Z.testbit v 31 = true); rewrite Hv by lia; apply orb_true_r|].
  split; [change (Z.testbit v 16 = true); rewrite Hv by lia; apply orb_true_r|].
  split; [change (Z.testbit v 0 = Z.testbit (c_cr s CR0) 0); rewrite Hv by lia; apply orb_false_r|]. repeat split; reflexivity.
Qed.

(** 64-bit mode, with paging on the tables at 0x1000. *)
Definition long_mode (s : cpu) : Prop :=
  c_cr s CR3 = 0x1000 ∧ Z.testbit (c_cr s CR4) 5 = true ∧ Z.testbit (c_msr s MSR_EFER) 0 = true ∧ Z.testbit (c_msr s MSR_EFER) 8 = true ∧
  Z.testbit (c_cr s CR0) 31 = true ∧ Z.testbit (c_cr s CR0) 16 = true ∧ c_seg s CS = 8.

Lemma entry32mp_runs s code : code_at entry "entry32mp" = Some code →
  ∃ s', run lbl entry 20 code s = Some (Leaves, s') ∧ c_ip s' = cut W64 (lbl "entry64high") ∧ long_mode s' ∧
    Z.testbit (c_cr s' CR0) 0 = Z.testbit (c_cr s CR0) 0 ∧ c_mem s' = c_mem s ∧ c_reg s' RBX = c_reg s RBX ∧
    c_gdtr s' = lbl "gdtr64"%string - lbl "mboot_header"%string + lbl "mboot_load_addr"%string.
Proof.
  intros Hc. assert (E0 : code_at entry "entry32mp" = Some
    ([Mov W32 (Imm 0x1000) (Rg RAX); Mov W32 (Rg RAX) (Cr CR3); Lgdt (Low "gdtr64"); Mov W32 (Cr CR4) (Rg RAX); Bts 5 RAX; Mov W32 (Rg RAX) (Cr CR4)] ++
     [Mov W32 (Imm MSR_EFER) (Rg RCX); Rdmsr; Bts 0 RAX; Bts 8 RAX; Wrmsr] ++
     [Mov W32 (Cr CR0) (Rg RAX); Or W32 (Imm (Z.lor (Z.lor CR0_PG CR0_WP) CR0_MP)) (Rg RAX); Mov W32 (Rg RAX) (Cr CR0)] ++
     Ljmp 8 "entry64low" :: concat (snd <$> drop 2 entry))) by reflexivity.
  rewrite E0 in Hc. apply (inj Some) in Hc as <-. clear E0.
  destruct (entry_cr3 s) as (s1 & X1 & C3 & C0 & C4 & M1 & S1 & B1 & G1).
  destruct (entry_efer s1) as (s2 & X2 & F0 & F8 & C2 & M2 & G2 & B2).
  destruct (entry_cr0 s2) as (s3 & X3 & P31 & P16 & P0 & K3 & K4 & S3 & M3 & G3 & B3).
  replace 20%nat with (6 + (5 + (3 + S 5)))%nat by done.
  rewrite (run_exec lbl entry (5 + (3 + S 5)) _ _ s s1 X1), (run_exec lbl entry (3 + S 5) _ _ s1 s2 X2), (run_exec lbl entry (S 5) _ _ s2 s3 X3).
  assert (E1 : code_at entry "entry64low" = Some (Mov W64 (Lbl "entry64high" 0) (Rg RAX) :: Jmp_reg RAX :: concat (snd <$> drop 3 entry))) by reflexivity.
  rewrite (run_ljmp _ _ _ _ _ _ _ _ E1), run_mov, assign_reg, run_jmp_reg, get_reg_same. eexists. split; [reflexivity|].
  cbn [c_ip set_ip value]. rewrite Z.add_0_r. split; [reflexivity|]. split; [|split; [|split; [|split]]].
  - split; [change (c_cr s3 CR3 = 0x1000); by rewrite K3, C2|]. split; [change (Z.testbit (c_cr s3 CR4) 5 = true); by rewrite K4, C2|].
    split; [change (Z.testbit (c_msr s3 MSR_EFER) 0 = true); by rewrite S3|]. split; [change (Z.testbit (c_msr s3 MSR_EFER) 8 = true); by rewrite S3|].
    split; [exact P31|]. split; [exact P16|reflexivity].
  - change (Z.testbit (c_cr s3 CR0) 0 = Z.testbit (c_cr s CR0) 0). by rewrite P0, C2, C0.
  - change (c_mem s3 = c_mem s). by rewrite M3, M2, M1.
  - change (c_reg s3 RBX = c_reg s RBX). by rewrite B3, B2, B1.
  - change (c_gdtr s3 = lbl "gdtr64"%string - lbl "mboot_header"%string + lbl "mboot_load_addr"%string). by rewrite G3, G2, G1.
Qed.

Lemma zf_set v s : (Z.land (c_flags (set_zf v s)) FL_ZF =? 0) = negb (v =? 0).
Proof.
  unfold set_zf. cbn [c_flags set_flags]. destruct (v =? 0); cbn [negb].
  - apply Z.eqb_neq. intros H. apply (f_equal (λ x, Z.testbit x 6)) in H. rewrite Z.land_spec, Z.lor_spec in H. cbn in H. by rewrite orb_true_r in H.
  - apply Z.eqb_eq, Z.bits_inj'. intros i _. rewrite Z.land_spec, Z.ldiff_spec, Z.bits_0. destruct (Z.testbit FL_ZF i); [by rewrite andb_false_r|apply andb_false_r].
Qed.

Lemma entry64_segs s :
  ∃ s', exec lbl [Xor W64 (Rg RAX) (Rg RAX); Mov W16 (Rg RAX) (Sg SS); Mov W16 (Rg RAX) (Sg DS); Mov W16 (Rg RAX) (Sg ES); Mov W16 (Rg RAX) (Sg FS);
      Mov W16 (Rg RAX) (Sg GS); Test W32 (Rg RBX) (Rg RBX)] s = Some s' ∧
    (∀ r, c_seg s' r = if decide (r = CS) then c_seg s CS else 0) ∧ (Z.land (c_flags s') FL_ZF =? 0) = negb (cut W32 (c_reg s RBX) =? 0) ∧
    c_mem s' = c_mem s ∧ c_cr s' = c_cr s ∧ c_msr s' = c_msr s.
Proof.
  eexists. split; [reflexivity|]. split; [|split; [|repeat split; reflexivity]].
  - intros r. destruct r; cbn; rewrite ?Z.lxor_nilpotent; reflexivity.
  - rewrite zf_set. change (negb (Z.land (cut W32 (c_reg s RBX)) (cut W32 (c_reg s RBX)) =? 0) = negb (cut W32 (c_reg s RBX) =? 0)). by rewrite Z.land_diag.
Qed.

Lemma entry64high_runs s code : code_at entry "entry64high" = Some code →
  ∃ s', run lbl entry 20 code s = Some (Jumps (if (cut W32 (c_reg s RBX) =? 0)%Z then "main" else "mpenter"), s') ∧
    c_reg s' RSP = (if cut W32 (c_reg s RBX) =? 0 then KERNBASE + 0x10000 else load 8 (c_mem s) (0x7000 - 16)) ∧
    (∀ r, c_seg s' r = if decide (r = CS) then c_seg s CS else 0) ∧ c_mem s' = c_mem s ∧ c_cr s' = c_cr s ∧ c_msr s' = c_msr s.
Proof.
  intros Hc. assert (E0 : code_at entry "entry64high" = Some
    ([Xor W64 (Rg RAX) (Rg RAX); Mov W16 (Rg RAX) (Sg SS); Mov W16 (Rg RAX) (Sg DS); Mov W16 (Rg RAX) (Sg ES); Mov W16 (Rg RAX) (Sg FS);
      Mov W16 (Rg RAX) (Sg GS); Test W32 (Rg RBX) (Rg RBX)] ++ Jnz "entry64mp" :: Mov W64 (Imm 0xffff800000010000) (Rg RAX) :: Mov W64 (Rg RAX) (Rg RSP) :: Jmp "main" ::
      concat (snd <$> drop 4 entry))) by reflexivity.
  rewrite E0 in Hc. apply (inj Some) in Hc as <-. clear E0. destruct (entry64_segs s) as (s1 & X1 & G1 & Z1 & M1 & C1 & S1).
  replace 20%nat with (7 + S 12)%nat by done. rewrite (run_exec lbl entry (S 12) _ _ s s1 X1).
  rewrite run_jnz, Z1, negb_involutive. destruct (cut W32 (c_reg s RBX) =? 0).
  - rewrite run_mov, assign_reg, run_mov, assign_reg, run_jmp_out by reflexivity. eexists. split; [reflexivity|].
    split; [reflexivity|]. split; [exact G1|]. split; [exact M1|]. split; [exact C1|exact S1].
  - assert (E1 : code_at entry "entry64mp" = Some (Mov W64 (Imm 0x7000) (Rg RAX) :: Mov W64 (At RAX (-16)) (Rg RSP) :: Jmp "mpenter" :: concat (snd <$> drop 6 entry))) by reflexivity.
    rewrite E1, run_mov, assign_reg, run_mov, assign_reg, run_jmp_out by reflexivity. eexists. split; [reflexivity|].
    split; [etrans; [apply get_reg_same|]; rewrite <- M1; reflexivity|]. split; [exact G1|]. split; [exact M1|]. split; [exact C1|exact S1].
Qed.

(** ** The first processor *)
Lemma tables_built m : (∀ x, 0x1000 ≤ x < 0x3000 → m x = 0) → boot_tables (put 4 0x2000 0x83 (put 4 0x1800 0x2003 (put 4 0x1000 0x2003 m))).
Proof.
  intros Hz. assert (H8 : ∀ a m v, 0 ≤ v < 2 ^ 32 → load 4 m a = v → load 4 m (a + 4) = 0 → load 8 m a = v).
  { intros a m' v Hv H1 H2. change 8%nat with (4 + 4)%nat. rewrite load_split, H1. change (Z.of_nat 4) with 4. rewrite H2. lia. }
  assert (H4 : ∀ a v m, 0 ≤ v < 2 ^ 32 → load 4 (put 4 a v m) a = v) by (intros a v m' Hv; rewrite load_put_same; apply Z.mod_small; cbn; lia).
  split; [|split]; apply H8; try lia.
  - rewrite !(load_put_other 4 4) by (cbn; lia). by apply H4.
  - rewrite !load_put_other by (cbn; lia). apply load_zero. intros x Hx. apply Hz. lia.
  - rewrite (load_put_other 4 4) by (cbn; lia). by apply H4.
  - rewrite !load_put_other by (cbn; lia). apply load_zero. intros x Hx. apply Hz. lia.
  - by apply H4.
  - rewrite !load_put_other by (cbn; lia). apply load_zero. intros x Hx. apply Hz. lia.
Qed.

(** C32: the kernel starts in 64-bit mode at its high addresses.  From mboot_entry, where the
    boot loader jumps to, entry.S builds its page tables in the two pages at 0x1000 and touches
    no other memory, switches on paging, long mode and the system call instruction, and
    jumps to entry64high; the tables map the first gigabyte of physical memory at 0, where
    the code runs, and at KERNBASE, where it jumps to.  From there it enters main on
    the stack below KERNBASE + 0x10000 with empty data segments. *)
Theorem entry_reaches_main s c1 c2 : code_at entry "mboot_entry" = Some c1 → code_at entry "entry64high" = Some c2 →
  ∃ s1 s2, run lbl entry 30 c1 s = Some (Leaves, s1) ∧ c_ip s1 = cut W64 (lbl "entry64high") ∧ long_mode s1 ∧
    Z.testbit (c_cr s1 CR0) 0 = Z.testbit (c_cr s CR0) 0 ∧
    (∀ va, 0 ≤ va < 2 ^ 30 → translate (c_mem s1) (c_cr s1 CR3) va = Some va ∧ translate (c_mem s1) (c_cr s1 CR3) (KERNBASE + va) = Some va) ∧
    (∀ x, x < 0x1000 ∨ 0x3000 ≤ x → c_mem s1 x = c_mem s x) ∧
    run lbl entry 20 c2 s1 = Some (Jumps "main", s2) ∧ c_reg s2 RSP = KERNBASE + 0x10000 ∧ long_mode s2 ∧ c_mem s2 = c_mem s1 ∧
    ∀ r, r ≠ CS → c_seg s2 r = 0.
Proof.
  intros Hc1 Hc2. assert (E0 : code_at entry "mboot_entry" = Some
    ([Xor W32 (Rg RAX) (Rg RAX); Mov W32 (Imm 0x1000) (Rg RDI); Mov W32 (Imm 0x2000) (Rg RCX); Rep_stosb] ++
     [Mov W32 (Imm (Z.lor (Z.lor 0x2000 PTE_P) PTE_W)) (Rg RAX); Mov W32 (Rg RAX) (Abs 0x1000); Mov W32 (Rg RAX) (Abs 0x1800);
      Mov W32 (Imm (Z.lor (Z.lor (Z.lor 0x0 PTE_P) PTE_PS) PTE_W)) (Rg RAX); Mov W32 (Rg RAX) (Abs 0x2000); Xor W32 (Rg RBX) (Rg RBX)] ++
     default [] (code_at entry "entry32mp"))) by reflexivity.
  rewrite E0 in Hc1. apply (inj Some) in Hc1 as <-. clear E0.
  destruct (low_entry_zero s) as (sa & Xa & Ma & Ca & Sa). destruct (entry_tables sa) as (sb & Xb & Mb & Cb & Sb & Bb).
  replace 30%nat with (4 + (6 + 20))%nat by done. rewrite (run_exec lbl entry (6 + 20) _ _ s sa Xa), (run_exec lbl entry 20 _ _ sa sb Xb).
  destruct (entry32mp_runs sb (default [] (code_at entry "entry32mp"))) as (s1 & E1 & I1 & L1 & P1 & M1 & B1 & _); [reflexivity|].
  destruct (entry64high_runs s1 c2 Hc2) as (s2 & E2 & R2 & G2 & M2 & C2 & S2). rewrite B1, Bb in E2, R2.
  change (cut W32 0 =? 0) with true in E2, R2. exists s1, s2. split; [exact E1|]. split; [exact I1|]. split; [exact L1|]. split; [by rewrite P1, Cb, Ca|].
  assert (Hout : ∀ x, x < 0x1000 ∨ 0x3000 ≤ x → c_mem s1 x = c_mem s x).
  { intros x Hx. rewrite M1, Mb, !put_other by (cbn; lia). rewrite Ma. destruct (Z.leb_spec 0x1000 x), (Z.ltb_spec x 0x3000); cbn [andb]; [exfalso; lia|reflexivity..]. }
  assert (Ht : boot_tables (c_mem s1)).
  { rewrite M1, Mb. apply tables_built. intros x Hx. rewrite Ma. by rewrite (proj2 (Z.leb_le _ _)), (proj2 (Z.ltb_lt _ _)) by lia. }
  destruct L1 as (L3 & L1). split; [intros va Hva; rewrite L3; by apply boot_tables_map|]. split; [exact Hout|]. split; [exact E2|]. split; [exact R2|].
  split; [unfold long_mode; rewrite C2, S2, G2; by split|]. split; [exact M2|]. intros r Hr. rewrite G2. by rewrite decide_False.
Qed.

(** ** Protected mode *)
Lemma cut16_merge old v : cut W16 (merge W16 old v) = cut W16 v.
Proof.
  unfold merge, cut. cbn [nbytes]. change (256 ^ Z.of_nat 2) with (2 ^ 16). change (8 * Z.of_nat 2) with 16. apply Z.bits_inj'. intros i Hi.
  destruct (decide (i < 16)).
  - rewrite !Z.mod_pow2_bits_low, Z.lor_spec, Z.ldiff_spec, Z.ones_spec_low, andb_false_r by lia. done.
  - by rewrite !Z.mod_pow2_bits_high by lia.
Qed.

Lemma load_gdt s :
  ∃ s', exec lbl [Lgdt (Abl "gdtdesc" 0); Mov W32 (Cr CR0) (Rg RAX); Or W32 (Imm CR0_PE) (Rg RAX); Mov W32 (Rg RAX) (Cr CR0)] s = Some s' ∧
    c_gdtr s' = lbl "gdtdesc"%string + 0 ∧ Z.testbit (c_cr s' CR0) 0 = true ∧ c_mem s' = c_mem s ∧ c_out s' = c_out s ∧ c_in s' = c_in s ∧ c_msr s' = c_msr s.
Proof.
  eexists. split; [reflexivity|]. split; [reflexivity|]. split; [|repeat split; reflexivity].
  change (Z.testbit (cut W32 (Z.lor (cut W32 (c_cr s CR0)) CR0_PE)) 0 = true). rewrite cut32_bit, Z.lor_spec by lia. apply orb_true_r.
Qed.

(** The data segments of 32-bit mode. *)
Lemma load_segs s :
  ∃ s', exec lbl [Mov W16 (Imm (Z.shiftl SEG_KDATA 3)) (Rg RAX); Mov W16 (Rg RAX) (Sg DS); Mov W16 (Rg RAX) (Sg ES); Mov W16 (Rg RAX) (Sg SS)] s = Some s' ∧
    (∀ r, c_seg s' r = if decide (r ∈ [DS; ES; SS]) then Z.shiftl SEG_KDATA 3 else c_seg s r) ∧ c_gdtr s' = c_gdtr s ∧ c_cr s' = c_cr s ∧ c_mem s' = c_mem s ∧
    c_out s' = c_out s ∧ c_in s' = c_in s ∧ c_msr s' = c_msr s.
Proof.
  eexists. split; [reflexivity|]. split; [|repeat split; reflexivity]. intros r.
  assert (Hv : cut W16 (merge W16 (c_reg s RAX) (cut W16 (Z.shiftl SEG_KDATA 3))) = Z.shiftl SEG_KDATA 3) by (rewrite cut16_merge; reflexivity).
  destruct r; [reflexivity|exact Hv|exact Hv|reflexivity|reflexivity|exact Hv].
Qed.
Lemma clear_segs s :
  ∃ s', exec lbl [Mov W16 (Imm 0) (Rg RAX); Mov W16 (Rg RAX) (Sg FS); Mov W16 (Rg RAX) (Sg GS)] s = Some s' ∧
    (∀ r, c_seg s' r = if decide (r ∈ [FS; GS]) then 0 else c_seg s r) ∧ c_gdtr s' = c_gdtr s ∧ c_cr s' = c_cr s ∧ c_mem s' = c_mem s ∧
    c_out s' = c_out s ∧ c_in s' = c_in s ∧ c_msr s' = c_msr s.
Proof.
  eexists. split; [reflexivity|]. split; [|repeat split; reflexivity]. intros r.
  assert (Hv : cut W16 (merge W16 (c_reg s RAX) (cut W16 0)) = 0) by (rewrite cut16_merge; reflexivity).
  destruct r; [reflexivity|reflexivity|reflexivity|exact Hv|exact Hv|reflexivity].
Qed.

(** 32-bit mode with the segments of the boot code. *)
Definition protected_mode (s : cpu) : Prop :=
  Z.testbit (c_cr s CR0) 0 = true ∧ c_gdtr s = lbl "gdtdesc"%string ∧ c_seg s CS = Z.shiftl SEG_KCODE 3 ∧
  (∀ r, r ∈ [DS; ES; SS] → c_seg s r = Z.shiftl SEG_KDATA 3) ∧ (∀ r, r ∈ [FS; GS] → c_seg s r = 0).

Definition protect : list instr := [Lgdt (Abl "gdtdesc" 0); Mov W32 (Cr CR0) (Rg RAX); Or W32 (Imm CR0_PE) (Rg RAX); Mov W32 (Rg RAX) (Cr CR0)].
Definition segments : list instr :=
  [Mov W16 (Imm (Z.shiftl SEG_KDATA 3)) (Rg RAX); Mov W16 (Rg RAX) (Sg DS); Mov W16 (Rg RAX) (Sg ES); Mov W16 (Rg RAX) (Sg SS);
   Mov W16 (Imm 0) (Rg RAX); Mov W16 (Rg RAX) (Sg FS); Mov W16 (Rg RAX) (Sg GS)].

Lemma protect_runs p fuel il il' s :
  code_at p "start32" = Some (segments ++ il') →
  ∃ s', run lbl p (12 + fuel) (protect ++ Ljmp (Z.shiftl SEG_KCODE 3) "start32" :: il) s = run lbl p fuel il' s' ∧ protected_mode s' ∧
    c_mem s' = c_mem s ∧ c_out s' = c_out s ∧ c_in s' = c_in s ∧ c_msr s' = c_msr s.
Proof.
  intros Hc. destruct (load_gdt s) as (s1 & X1 & G1 & P1 & M1 & O1 & I1 & S1).
  destruct (load_segs (set_seg CS (Z.shiftl SEG_KCODE 3) s1)) as (s2 & X2 & R2 & G2 & C2 & M2 & O2 & I2 & S2).
  destruct (clear_segs s2) as (s3 & X3 & R3 & G3 & C3 & M3 & O3 & I3 & S3).
  replace (12 + fuel)%nat with (4 + S (4 + (3 + fuel)))%nat by lia. rewrite (run_exec lbl p (S (4 + (3 + fuel))) protect _ s s1 X1), (run_ljmp _ _ _ _ _ _ _ _ Hc).
  change (segments ++ il') with (take 4 segments ++ drop 4 segments ++ il').
  rewrite (run_exec lbl p (3 + fuel) (take 4 segments) _ _ s2 X2), (run_exec lbl p fuel (drop 4 segments) _ s2 s3 X3).
  exists s3. split; [done|]. split; [|split; [by rewrite M3, M2|split; [by rewrite O3, O2|split; [by rewrite I3, I2|by rewrite S3, S2]]]].
  split; [rewrite C3, C2; exact P1|]. split; [rewrite G3, G2; etrans; [exact G1|apply Z.add_0_r]|].
  split; [by rewrite R3, decide_False, R2, decide_False by (apply (bool_decide_unpack _); vm_compute; exact I)|].
  split; intros r Hr.
  - assert (Hn : r ∉ [FS; GS]).
    { intros Hf. apply list_elem_of_In in Hr, Hf. cbn in Hr, Hf. destruct Hr as [<-|[<-|[<-|[]]]], Hf as [?|[?|[]]]; discriminate. }
    rewrite R3, decide_False, R2, decide_True by assumption. done.
  - by rewrite R3, decide_True.
Qed.

(** ** The keyboard controller, which gates address line 20 *)
Definition poll (l : label) : list instr := [In 0x64; Test W8 (Imm 0x2) (Rg RAX); Jnz l].
Definition is_busy (v : Z) : Prop := Z.land 2 (cut W8 v) ≠ 0.

Lemma cut8_merge old v : cut W8 (merge W8 old v) = cut W8 v.
Proof.
  unfold merge, cut. cbn [nbytes]. change (256 ^ Z.of_nat 1) with (2 ^ 8). change (8 * Z.of_nat 1) with 8. apply Z.bits_inj'. intros i Hi.
  destruct (decide (i < 8)).
  - rewrite !Z.mod_pow2_bits_low, Z.lor_spec, Z.ldiff_spec, Z.ones_spec_low, andb_false_r by lia. done.
  - by rewrite !Z.mod_pow2_bits_high by lia.
Qed.

Lemma poll_once p fuel l il s v vs : c_in s = v :: vs →
  ∃ s', run lbl p (3 + fuel) (poll l ++ il) s =
      (if Z.land 2 (cut W8 v) =? 0 then run lbl p fuel il s' else match code_at p l with Some il => run lbl p fuel il s' | None => Some (Jumps l, s') end) ∧
    c_in s' = vs ∧ c_mem s' = c_mem s ∧ c_cr s' = c_cr s ∧ c_out s' = c_out s ∧ c_msr s' = c_msr s.
Proof.
  intros Hin. cbn [Nat.add poll app]. rewrite (run_in _ _ _ _ _ _ _ _ Hin), run_test, run_jnz, zf_set, negb_involutive.
  change (value lbl W8 (Imm 0x2) _) with 2. change (value lbl W8 (Rg RAX) _) with (cut W8 (merge W8 (c_reg s RAX) v)). rewrite cut8_merge.
  eexists. split; [reflexivity|]. repeat split; reflexivity.
Qed.

Lemma poll_runs p fuel l il s busy v vs :
  code_at p l = Some (poll l ++ il) → c_in s = busy ++ v :: vs → Forall is_busy busy → ¬ is_busy v →
  ∃ s', run lbl p (3 * length busy + 3 + fuel) (poll l ++ il) s = run lbl p fuel il s' ∧ c_in s' = vs ∧ c_mem s' = c_mem s ∧ c_cr s' = c_cr s ∧
    c_out s' = c_out s ∧ c_msr s' = c_msr s.
Proof.
  intros Hc Hin Hb Hv. revert s Hin. induction Hb as [|b busy Hb _ IH]; intros s Hin.
  - destruct (poll_once p fuel l il s v vs Hin) as (s' & E & Hs). exists s'. split; [|exact Hs]. cbn [length Nat.mul Nat.add]. etrans; [exact E|].
    destruct (Z.eqb_spec (Z.land 2 (cut W8 v)) 0); [done|]. by destruct Hv.
  - destruct (poll_once p (3 * length busy + 3 + fuel) l il s b (busy ++ v :: vs) Hin) as (s1 & E & I1 & M1 & C1 & O1 & S1).
    destruct (IH s1 I1) as (s' & E' & I' & M' & C' & O' & S'). exists s'. split; [|by rewrite I', M', C', O', S', M1, C1, O1, S1].
    cbn [length]. replace (3 * S (length busy) + 3 + fuel)%nat with (3 + (3 * length busy + 3 + fuel))%nat by lia. rewrite E, (proj2 (Z.eqb_neq _ _) Hb), Hc. exact E'.
Qed.

Lemma zero_segs s :
  ∃ s', exec lbl [Cli; Xor W16 (Rg RAX) (Rg RAX); Mov W16 (Rg RAX) (Sg DS); Mov W16 (Rg RAX) (Sg ES); Mov W16 (Rg RAX) (Sg SS)] s = Some s' ∧
    c_in s' = c_in s ∧ c_mem s' = c_mem s ∧ c_cr s' = c_cr s ∧ c_out s' = c_out s ∧ c_msr s' = c_msr s.
Proof. eexists. split; [reflexivity|]. repeat split; reflexivity. Qed.

Lemma send_byte v port s :
  ∃ s', exec lbl [Mov W8 (Imm v) (Rg RAX); Out port] s = Some s' ∧ c_in s' = c_in s ∧ c_mem s' = c_mem s ∧ c_cr s' = c_cr s ∧
    c_out s' = c_out s ++ [(port, cut W8 v)] ∧ c_msr s' = c_msr s.
Proof.
  eexists. split; [reflexivity|]. split; [reflexivity|]. split; [reflexivity|]. split; [reflexivity|]. split; [|reflexivity].
  change (c_out s ++ [(port, cut W8 (merge W8 (c_reg s RAX) (cut W8 v)))] = c_out s ++ [(port, cut W8 v)]). rewrite cut8_merge. unfold cut. by rewrite Z.mod_mod.
Qed.

(** The segment of a selector in the table of the boot code: its base, and the last address. *)
Definition descriptor (sel : Z) : list Z := take 8 (drop (Z.to_nat sel) boot_gdt).
Definition seg_base (d : list Z) : Z := nth 2 d 0 + 2 ^ 8 * nth 3 d 0 + 2 ^ 16 * nth 4 d 0 + 2 ^ 24 * nth 7 d 0.
Definition seg_limit (d : list Z) : Z :=
  let l := nth 0 d 0 + 2 ^ 8 * nth 1 d 0 + 2 ^ 16 * Z.land (nth 6 d 0) 0xf in
  if Z.testbit (nth 6 d 0) 7 then l * 4096 + 4095 else l.
Definition flat_segment (exe : bool) (d : list Z) : Prop :=
  seg_base d = 0 ∧ seg_limit d = 2 ^ 32 - 1 ∧ Z.testbit (nth 5 d 0) 7 = true ∧ Z.testbit (nth 5 d 0) 3 = exe.

(** C31: bootasm.S reaches bootmain in 32-bit mode.  However long the keyboard controller is
    busy, the code sends it the two bytes that enable address line 20, one when it is ready
    each time, switches to protected mode with segments that span the whole address
    space, and calls bootmain with a stack that grows down from its own start. *)
Theorem bootasm_reaches_bootmain s busy1 v1 busy2 v2 rest code :
  code_at bootasm "start" = Some code → 4 ≤ lbl "start" < 2 ^ 32 →
  c_in s = busy1 ++ v1 :: busy2 ++ v2 :: rest → Forall is_busy busy1 → Forall is_busy busy2 → ¬ is_busy v1 → ¬ is_busy v2 →
  ∃ s', run lbl bootasm (40 + 3 * (length busy1 + length busy2)) code s = Some (Calls "bootmain", s') ∧
    c_out s' = c_out s ++ [(0x64, 0xd1); (0x60, 0xdf)] ∧ c_in s' = rest ∧ protected_mode s' ∧
    flat_segment true (descriptor (c_seg s' CS)) ∧ flat_segment false (descriptor (c_seg s' DS)) ∧ flat_segment false (descriptor (c_seg s' SS)) ∧
    c_reg s' RSP = lbl "start" - 4 ∧ c_mem s' = put 4 (lbl "start" - 4) (lbl "spin") (c_mem s).
Proof.
  intros Hc Hst Hin Hb1 Hb2 Hv1 Hv2.
  assert (E2 : code_at bootasm "seta20.2" = Some (poll "seta20.2" ++ [Mov W8 (Imm 0xdf) (Rg RAX); Out 0x60] ++ protect ++ Ljmp (Z.shiftl SEG_KCODE 3) "start32" :: concat (snd <$> drop 3 bootasm))) by reflexivity.
  assert (E1 : code_at bootasm "seta20.1" = Some (poll "seta20.1" ++ [Mov W8 (Imm 0xd1) (Rg RAX); Out 0x64] ++ default [] (code_at bootasm "seta20.2"))) by reflexivity.
  assert (E0 : code_at bootasm "start" = Some ([Cli; Xor W16 (Rg RAX) (Rg RAX); Mov W16 (Rg RAX) (Sg DS); Mov W16 (Rg RAX) (Sg ES); Mov W16 (Rg RAX) (Sg SS)] ++ default [] (code_at bootasm "seta20.1"))) by reflexivity.
  assert (E3 : code_at bootasm "start32" = Some (segments ++ Mov W32 (Lbl "start" 0) (Rg RSP) :: Call W32 "bootmain" "spin" :: concat (snd <$> drop 4 bootasm))) by reflexivity.
  rewrite E0 in Hc. apply (inj Some) in Hc as <-. clear E0. rewrite E1, E2. cbn [default id]. rewrite E2 in E1. cbn [default id] in E1.
  destruct (zero_segs s) as (s0 & X0 & I0 & M0 & C0 & O0 & _). rewrite Hin in I0.
  replace (40 + 3 * (length busy1 + length busy2))%nat with (5 + (3 * length busy1 + 3 + (2 + (3 * length busy2 + 3 + (2 + (12 + 13))))))%nat by lia.
  rewrite (run_exec _ _ _ _ _ _ _ X0).
  destruct (poll_runs bootasm (2 + (3 * length busy2 + 3 + (2 + (12 + 13)))) _ _ s0 busy1 v1 (busy2 ++ v2 :: rest) E1 I0 Hb1 Hv1) as (s1 & -> & I1 & M1 & C1 & O1 & _).
  destruct (send_byte 0xd1 0x64 s1) as (s2 & X2 & I2 & M2 & C2 & O2 & _). rewrite (run_exec _ _ _ _ _ _ _ X2). rewrite I1 in I2.
  destruct (poll_runs bootasm (2 + (12 + 13)) _ _ s2 busy2 v2 rest E2 I2 Hb2 Hv2) as (s3 & -> & I3 & M3 & C3 & O3 & _).
  destruct (send_byte 0xdf 0x60 s3) as (s4 & X4 & I4 & M4 & C4 & O4 & _). rewrite (run_exec _ _ _ _ _ _ _ X4).
  destruct (protect_runs bootasm 13 (concat (snd <$> drop 3 bootasm)) _ s4 E3) as (s5 & -> & P5 & M5 & O5 & I5 & _).
  rewrite run_mov, run_call32 by reflexivity. eexists. split; [reflexivity|].
  assert (HP : protected_mode (push W32 (lbl "spin") (assign lbl W32 (Rg RSP) (value lbl W32 (Lbl "start" 0) s5) s5))) by exact P5.
  split; [change (c_out s5 = c_out s ++ [(0x64, 0xd1); (0x60, 0xdf)]); by rewrite O5, O4, O3, O2, O1, O0, <- app_assoc|].
  split; [change (c_in s5 = rest); by rewrite I5, I4, I3|]. split; [exact HP|]. destruct HP as (_ & _ & -> & HD & _).
  rewrite (HD DS), (HD SS) by (apply (bool_decide_unpack _); vm_compute; exact I).
  split; [by repeat split|]. split; [by repeat split|]. split; [by repeat split|].
  assert (HM : c_mem s5 = c_mem s) by (by rewrite M5, M4, M3, M2, M1, M0).
  assert (HV : value lbl W32 (Lbl "start" 0) s5 = lbl "start") by (cbn [value]; unfold cut; cbn [nbytes]; change (256 ^ Z.of_nat 4) with (2 ^ 32); rewrite Z.add_0_r; apply Z.mod_small; lia).
  rewrite HV. change (assign lbl W32 (Rg RSP) (lbl "start") s5) with (set_reg RSP (lbl "start") s5). unfold push. rewrite get_reg_same. cbn [nbytes c_mem set_cmem set_reg].
  assert (HC : cut W32 (lbl "start" - Z.of_nat 4) = lbl "start" - 4) by (unfold cut; cbn [nbytes]; change (256 ^ Z.of_nat 4) with (2 ^ 32); change (Z.of_nat 4) with 4; apply Z.mod_small; lia).
  rewrite HC, HM. split; [|done]. etrans; [|apply (get_reg_same RSP (lbl "start" - 4) (set_reg RSP (lbl "start") s5))]. reflexivity.
Qed.
End entry.

Lemma entryother_runs lbl s code e sp : code_at entryother "start" = Some code → 4 ≤ sp < 2 ^ 32 →
  load 4 (c_mem s) (lbl "start" + -4) = sp → load 4 (c_mem s) (lbl "start" + -8) = e →
  ∃ s', run lbl entryother 30 code s = Some (Leaves, s') ∧ c_ip s' = e ∧ protected_mode lbl s' ∧ c_reg s' RBX = 1 ∧
    c_mem s' = put 4 (sp - 4) (lbl "start32.ret") (c_mem s).
Proof.
  intros Hc Hsp Hl4 Hl8.
  assert (E0 : code_at entryother "start" = Some ([Cli; Xor W16 (Rg RAX) (Rg RAX); Mov W16 (Rg RAX) (Sg DS); Mov W16 (Rg RAX) (Sg ES); Mov W16 (Rg RAX) (Sg SS)] ++
    protect ++ Ljmp (Z.shiftl SEG_KCODE 3) "start32" :: concat (snd <$> drop 1 entryother))) by reflexivity.
  assert (E1 : code_at entryother "start32" = Some (segments ++ Mov W32 (Imm 1) (Rg RBX) :: Mov W32 (Abl "start" (-4)) (Rg RSP) ::
    Call_at W32 (Abl "start" (-8)) "start32.ret" :: concat (snd <$> drop 2 entryother))) by reflexivity.
  rewrite E0 in Hc. apply (inj Some) in Hc as <-. clear E0.
  destruct (zero_segs lbl s) as (s0 & X0 & _ & M0 & _). replace 30%nat with (5 + (12 + 13))%nat by done. rewrite (run_exec _ _ _ _ _ _ _ X0).
  destruct (protect_runs lbl entryother 13 (concat (snd <$> drop 1 entryother)) _ s0 E1) as (s1 & -> & P1 & M1 & _).
  rewrite run_mov, run_mov, run_call_at. rewrite <- M0, <- M1 in Hl4, Hl8.
  set (s2 := assign lbl W32 (Rg RBX) _ s1). assert (P2 : protected_mode lbl s2 ∧ c_mem s2 = c_mem s1 ∧ c_reg s2 RBX = 1) by (split; [exact P1|split; reflexivity]).
  clearbody s2. destruct P2 as (P2 & M2 & B2). rewrite <- M2 in Hl4, Hl8.
  assert (HV : value lbl W32 (Abl "start" (-4)) s2 = sp) by exact Hl4. rewrite HV.
  change (assign lbl W32 (Rg RSP) sp s2) with (set_reg RSP sp s2). set (s3 := set_reg RSP sp s2).
  assert (H3 : value lbl W32 (Abl "start" (-8)) s3 = e) by exact Hl8. rewrite H3.
  assert (Hsp3 : c_reg s3 RSP = sp) by apply get_reg_same. assert (P3 : protected_mode lbl s3 ∧ c_mem s3 = c_mem s2 ∧ c_reg s3 RBX = 1) by (split; [exact P2|split; [reflexivity|exact B2]]).
  clearbody s3. destruct P3 as (P3 & M3 & B3). eexists. split; [reflexivity|]. split; [reflexivity|]. split; [exact P3|]. split; [exact B3|].
  unfold push. rewrite Hsp3. cbn [nbytes c_mem set_ip set_cmem]. rewrite M3, M2, M1, M0.
  assert (HC : cut W32 (sp - Z.of_nat 4) = sp - 4) by (unfold cut; cbn [nbytes]; change (256 ^ Z.of_nat 4) with (2 ^ 32); change (Z.of_nat 4) with 4; apply Z.mod_small; lia).
  by rewrite HC.
Qed.

(** C33: the processors that startothers starts reach mpenter.  With the block that startothers
    stores before the code of entryother.S at 0x7000, a processor that starts there in real
    mode jumps to entry32mp in 32-bit mode, from there to the high addresses of the
    kernel in 64-bit mode, with the page tables that the first processor built, and enters
    mpenter on the stack that startothers allocated for it.  The block has a small stack at
    start-4, entry32mp at start-8 and the stack of the kernel at start-16, and not the stack,
    mpenter and entrypgdir at start-4, start-8 and start-12 as the comment in entryother.S. *)
Theorem ap_reaches_mpenter lbl lbl' m0 e stack s c1 c2 c3 :
  code_at entryother "start" = Some c1 → code_at entry "entry32mp" = Some c2 → code_at entry "entry64high" = Some c3 →
  lbl' "start"%string = 0x7000 → boot_tables m0 → 0 ≤ e < 2 ^ 32 → 0 ≤ stack → stack + KSTACKSIZE < 2 ^ 64 → c_mem s = ap_block e stack m0 →
  ∃ s1 s2 s3, run lbl' entryother 30 c1 s = Some (Leaves, s1) ∧ protected_mode lbl' s1 ∧ c_ip s1 = e ∧
    run lbl entry 20 c2 s1 = Some (Leaves, s2) ∧ c_ip s2 = cut W64 (lbl "entry64high"%string) ∧ long_mode s2 ∧ Z.testbit (c_cr s2 CR0) 0 = true ∧
    (∀ va, 0 ≤ va < 2 ^ 30 → translate (c_mem s2) (c_cr s2 CR3) va = Some va ∧ translate (c_mem s2) (c_cr s2 CR3) (KERNBASE + va) = Some va) ∧
    run lbl entry 20 c3 s2 = Some (Jumps "mpenter", s3) ∧ c_reg s3 RSP = stack + KSTACKSIZE ∧ long_mode s3.
Proof.
  intros Hc1 Hc2 Hc3 Hstart Ht He Hst Hst' Hm. unfold ap_block in Hm.
  assert (L4 : load 4 (c_mem s) (lbl' "start"%string + -4) = 0x8000).
  { rewrite Hm, Hstart, !(load_put_other _ 4) by (cbn; lia). rewrite load_put_same. reflexivity. }
  assert (L8 : load 4 (c_mem s) (lbl' "start"%string + -8) = e).
  { rewrite Hm, Hstart, (load_put_other 8 4) by (cbn; lia). rewrite load_put_same. apply Z.mod_small. cbn. lia. }
  destruct (entryother_runs lbl' s c1 e 0x8000 Hc1 ltac:(lia) L4 L8) as (s1 & E1 & I1 & P1 & B1 & M1).
  destruct (entry32mp_runs lbl s1 c2 Hc2) as (s2 & E2 & I2 & G2 & Q2 & M2 & B2 & _).
  destruct (entry64high_runs lbl s2 c3 Hc3) as (s3 & E3 & R3 & G3 & M3 & C3 & S3). rewrite B2, B1 in E3, R3.
  change (cut W32 1 =? 0) with false in E3, R3. exists s1, s2, s3. split; [exact E1|]. split; [exact P1|]. split; [exact I1|]. split; [exact E2|].
  split; [exact I2|]. split; [exact G2|]. split; [rewrite Q2; apply P1|].
  assert (Hlow : ∀ x, x < 0x6ff0 → c_mem s2 x = m0 x) by (intros x Hx; rewrite M2, M1, Hm, !put_other by (cbn; lia); done).
  assert (Ht2 : boot_tables (c_mem s2)).
  { destruct Ht as (T1 & T2 & T3). split; [|split]; rewrite (load_ext 8 m0) by (intros x Hx; apply Hlow; lia); done. }
  split; [intros va Hva; rewrite (proj1 G2); by apply boot_tables_map|]. split; [exact E3|]. split.
  - rewrite R3, M2, M1, Hm, (load_put_other 4 8) by (cbn; lia). rewrite load_put_same. apply Z.mod_small. unfold KSTACKSIZE in *. cbn. lia.
  - unfold long_mode. by rewrite C3, S3, G3.
Qed.

(** A processor at its start, with the bytes of its input ports. *)
Definition reset_cpu (ins : list Z) (m : mem) : cpu := Cpu (λ _, 0x5555) 0x202 (λ _, 0xf000) (λ _, 0x10) (λ _, 0) 0 0x7c00 m ins [].
Definition boot_labels (l : label) : Z := if decide (l = "start"%string) then 0x7c00 else 0x7d00.

Lemma entry_reaches_main_witness :
  ∃ s1 s2, run boot_labels entry 30 (default [] (code_at entry "mboot_entry")) (reset_cpu [] (λ _, 7)) = Some (Leaves, s1) ∧
    translate (c_mem s1) (c_cr s1 CR3) (KERNBASE + 0x100000) = Some 0x100000 ∧
    run boot_labels entry 20 (default [] (code_at entry "entry64high")) s1 = Some (Jumps "main", s2).
Proof.
  destruct (entry_reaches_main boot_labels (reset_cpu [] (λ _, 7)) (default [] (code_at entry "mboot_entry")) (default [] (code_at entry "entry64high")) eq_refl eq_refl)
    as (s1 & s2 & E1 & _ & _ & _ & Ht & _ & E2 & _).
  exists s1, s2. split; [exact E1|]. split; [exact (proj2 (Ht 0x100000 ltac:(lia)))|exact E2].
Defined.

Lemma bootasm_reaches_bootmain_witness :
  ∃ s', run boot_labels bootasm 46 (default [] (code_at bootasm "start")) (reset_cpu [0x1f; 0x1c; 3; 0x18] (λ _, 0)) = Some (Calls "bootmain", s') ∧
    c_out s' = [(0x64, 0xd1); (0x60, 0xdf)] ∧ c_reg s' RSP = 0x7bfc.
Proof.
  destruct (bootasm_reaches_bootmain boot_labels (reset_cpu [0x1f; 0x1c; 3; 0x18] (λ _, 0)) [0x1f] 0x1c [3] 0x18 [] (default [] (code_at bootasm "start")))
    as (s' & E & Ho & _ & _ & _ & _ & _ & Hsp & _).
  - reflexivity.
  - split; vm_compute; congruence.
  - reflexivity.
  - apply Forall_singleton. vm_compute. congruence.
  - apply Forall_singleton. vm_compute. congruence.
  - intros H. apply H. reflexivity.
  - intros H. apply H. reflexivity.
  - exists s'. split; [exact E|]. split; [exact Ho|exact Hsp].
Defined.

Lemma ap_reaches_mpenter_witness :
  let m0 := put 8 0x2000 0x83 (put 8 0x1800 0x2003 (put 8 0x1000 0x2003 (λ _, 0))) in
  ∃ s1 s2 s3, run (λ _, 0x7000) entryother 30 (default [] (code_at entryother "start")) (reset_cpu [] (ap_block 0x100100 (KERNBASE + 0x200000) m0)) = Some (Leaves, s1) ∧
    run boot_labels entry 20 (default [] (code_at entry "entry32mp")) s1 = Some (Leaves, s2) ∧
    run boot_labels entry 20 (default [] (code_at entry "entry64high")) s2 = Some (Jumps "mpenter", s3) ∧ c_reg s3 RSP = KERNBASE + 0x201000.
Proof.
  set (m0 := put 8 0x2000 0x83 _). cbv zeta.
  assert (Ht : boot_tables m0).
  { subst m0. split; [|split]; [rewrite !(load_put_other 8 8) by (cbn; lia)|rewrite (load_put_other 8 8) by (cbn; lia)|]; rewrite load_put_same; reflexivity. }
  destruct (ap_reaches_mpenter boot_labels (λ _, 0x7000) m0 0x100100 (KERNBASE + 0x200000) (reset_cpu [] (ap_block 0x100100 (KERNBASE + 0x200000) m0))
    (default [] (code_at entryother "start")) (default [] (code_at entry "entry32mp")) (default [] (code_at entry "entry64high")))
    as (s1 & s2 & s3 & E1 & _ & _ & E2 & _ & _ & _ & _ & E3 & Hsp & _); [reflexivity|reflexivity|reflexivity|reflexivity|exact Ht|lia|unfold KERNBASE; lia|unfold KERNBASE, KSTACKSIZE; lia|reflexivity|].
  exists s1, s2, s3. split; [exact E1|]. split; [exact E2|]. split; [exact E3|exact Hsp].
Defined.
