(* ===== verification/Smp.v ===== *)
(** * Processors and the clock: mp.c and lapic.c

    The tables of the BIOS lie in memory, which is read at kernel addresses.  The local APIC
    and the ports of the machine are an interface; a poll of the APIC has a bound. *)

From S2P Require Import Prelude Params CString Devices Core Fs Console.

(** traps.h *)
Definition IRQ_ERROR : Z := 19.

(** ** mp.h *)
Definition MP_SIZE : Z := 16.        (* sizeof(struct mp) *)
Definition MPCONF_SIZE : Z := 44.    (* sizeof(struct mpconf) *)
Definition MPPROC_SIZE : Z := 20.    (* sizeof(struct mpproc) *)
Definition MPIOAPIC_SIZE : Z := 8.   (* sizeof(struct mpioapic) *)

Definition MPPROC : Z := 0x00.
Definition MPBUS : Z := 0x01.
Definition MPIOAPIC : Z := 0x02.
Definition MPIOINTR : Z := 0x03.
Definition MPLINTR : Z := 0x04.

Definition bytes_at (m : mem) (a : Z) (n : nat) : list Z := (λ i, m (a + Z.of_nat i)) <$> seq 0 n.
Definition get_at (m : mem) (a : Z) (n : nat) : Z := le_get (bytes_at m a n).

Definition mp_physaddr (m : mem) (p : Z) : Z := get_at m (p + 4) 4.
Definition mp_imcrp (m : mem) (p : Z) : Z := m (p + 12).
Definition conf_length (m : mem) (c : Z) : Z := get_at m (c + 4) 2.
Definition conf_version (m : mem) (c : Z) : Z := m (c + 6).
Definition conf_lapicaddr (m : mem) (c : Z) : Z := get_at m (c + 36) 4.
Definition proc_apicid (m : mem) (p : Z) : Z := m (p + 1).
Definition ioapic_apicno (m : mem) (p : Z) : Z := m (p + 1).

(** ** mp.c: the tables *)
Fixpoint sum_loop (l : list Z) (s : Z) : Z :=
  match l with
  | [] => u8 s
  | x :: l => sum_loop l (s32 (s + x))
  end.
Definition sum (m : mem) (addr len : Z) : Z := sum_loop (bytes_at m addr (Z.to_nat len)) 0.

Definition is_mp (m : mem) (p : Z) : bool :=
  (memcmp (λ i, m (p + Z.of_nat i)) (bytes_ptr (str "_MP_")) 4 =? 0) && (sum m p MP_SIZE =? 0).

(** for(p = addr; p < e; p += sizeof(struct mp)) *)
Fixpoint mpsearch_loop (k : nat) (m : mem) (p e : Z) : option Z :=
  match k with
  | O => None
  | S k => if p <? e then if is_mp m p then Some p else mpsearch_loop k m (p + MP_SIZE) e else None
  end.
Definition mpsearch1 (m : mem) (a len : Z) : option Z :=
  let addr := P2V a in
  mpsearch_loop (S (Z.to_nat (len / MP_SIZE))) m addr (addr + len).

Definition mpsearch (m : mem) : option Z :=
  let bda := P2V 0x400 in
  let p := Z.shiftl (Z.lor (Z.shiftl (m (bda + 0x0f)) 8) (m (bda + 0x0e))) 4 in
  let r :=
    if negb (p =? 0) then mpsearch1 m p 1024
    else
      let p := Z.lor (Z.shiftl (m (bda + 0x14)) 8) (m (bda + 0x13)) * 1024 in
      mpsearch1 m (u32 (p - 1024)) 1024 in
  match r with Some mp => Some mp | None => mpsearch1 m 0xf0000 0x10000 end.

(** mpconfig: the floating pointer and the table. *)
Definition mpconfig (m : mem) : option (Z * Z) :=
  match mpsearch m with
  | None => None
  | Some mp =>
      if mp_physaddr m mp =? 0 then None else
      let conf := P2V (mp_physaddr m mp) in
      if negb (memcmp (λ i, m (conf + Z.of_nat i)) (bytes_ptr (str "PCMP")) 4 =? 0) then None else
      if negb (conf_version m conf =? 1) && negb (conf_version m conf =? 4) then None else
      if negb (sum m conf (conf_length m conf) =? 0) then None else
      Some (mp, conf)
  end.

(** ** The machine *)
Class Machine (ctl : Type) := {
  m_outb : Z → Z → ctl → ctl;
  m_inb : Z → ctl → Z * ctl;
  m_lapicw : Z → Z → ctl → ctl;
  m_lapicr : Z → ctl → Z * ctl
}.

(** The globals of mp.c and lapic.c: cpus with their apicids, ncpu, ioapicid, lapic (0 when it
    is null), and the counter of cpunum; memory and the machine. *)
Record smp (ctl : Type) := Smp {
  s_core : core;
  s_mem : mem;
  s_ctl : ctl;
  s_cpus : list Z;
  s_ncpu : Z;
  s_ioapicid : Z;
  s_lapic : Z;
  s_n : Z
}.
Arguments Smp {ctl}.
Arguments s_core {ctl}.
Arguments s_mem {ctl}.
Arguments s_ctl {ctl}.
Arguments s_cpus {ctl}.
Arguments s_ncpu {ctl}.
Arguments s_ioapicid {ctl}.
Arguments s_lapic {ctl}.
Arguments s_n {ctl}.

Section smp.
Context {ctl : Type} `{Machine ctl}.
Local Abbreviation st := (smp ctl).

Definition set_s_core (c : core) (s : st) : st := Smp c (s_mem s) (s_ctl s) (s_cpus s) (s_ncpu s) (s_ioapicid s) (s_lapic s) (s_n s).
Definition set_s_mem (m : mem) (s : st) : st := Smp (s_core s) m (s_ctl s) (s_cpus s) (s_ncpu s) (s_ioapicid s) (s_lapic s) (s_n s).
Definition set_s_ctl (c : ctl) (s : st) : st := Smp (s_core s) (s_mem s) c (s_cpus s) (s_ncpu s) (s_ioapicid s) (s_lapic s) (s_n s).
Definition set_s_lapic (l : Z) (s : st) : st := Smp (s_core s) (s_mem s) (s_ctl s) (s_cpus s) (s_ncpu s) (s_ioapicid s) l (s_n s).
Definition set_s_n (n : Z) (s : st) : st := Smp (s_core s) (s_mem s) (s_ctl s) (s_cpus s) (s_ncpu s) (s_ioapicid s) (s_lapic s) n.
Definition set_s_ioapicid (i : Z) (s : st) : st := Smp (s_core s) (s_mem s) (s_ctl s) (s_cpus s) (s_ncpu s) i (s_lapic s) (s_n s).
Definition add_cpu (apicid : Z) (s : st) : st :=
  Smp (s_core s) (s_mem s) (s_ctl s) (<[Z.to_nat (s_ncpu s) := apicid]> (s_cpus s)) (s_ncpu s + 1) (s_ioapicid s) (s_lapic s) (s_n s).

Definition s_printf (fmt : list Z) (ap : list va) : K st unit := zoom s_core set_s_core (cprintf (Some fmt) ap).
Definition s_outb (p v : Z) : K st unit := modify (λ s, set_s_ctl (m_outb p v (s_ctl s)) s).
Definition s_inb (p : Z) : K st Z := λ s, let '(v, c) := m_inb p (s_ctl s) in Done v (set_s_ctl c s).
Definition s_lapicr (i : Z) : K st Z := λ s, let '(v, c) := m_lapicr i (s_ctl s) in Done v (set_s_ctl c s).

(** One entry of the table at [p]: what it does and where the next one is. *)
Definition mp_entry (p : Z) : K st Z :=
  m <- gets s_mem;;
  let t := m p in
  if t =? MPPROC then
    n <- gets s_ncpu;;
    (if n <? Z.of_nat NCPU then modify (add_cpu (proc_apicid m p)) else ret tt) ;;;
    ret (p + MPPROC_SIZE)
  else if t =? MPIOAPIC then
    modify (set_s_ioapicid (ioapic_apicno m p)) ;;;
    ret (p + MPIOAPIC_SIZE)
  else if (t =? MPBUS) || (t =? MPIOINTR) || (t =? MPLINTR) then ret (p + 8)
  else panic "Major problem parsing mp config.".

Fixpoint mp_entries (fuel : nat) (p e : Z) : K st unit :=
  if p <? e then
    match fuel with
    | O => panic "mpinit: out of fuel"
    | S fuel => p <- mp_entry p;; mp_entries fuel p e
    end
  else ret tt.

Definition mpinit : K st unit :=
  m <- gets s_mem;;
  match mpconfig m with
  | None => s_printf (str "No other CPUs found." ++ [10]) []
  | Some (mp, conf) =>
      modify (set_s_lapic (P2V (conf_lapicaddr m conf))) ;;;
      mp_entries (Z.to_nat (conf_length m conf)) (conf + MPCONF_SIZE) (conf + conf_length m conf) ;;;
      n <- gets s_ncpu;;
      s_printf (str "Seems we are SMP, ncpu = %d" ++ [10]) [Va_num n] ;;;
      if negb (mp_imcrp m mp =? 0) then
        s_outb 0x22 0x70 ;;;
        v <- s_inb 0x23;;
        s_outb 0x23 (Z.lor v 1)
      else ret tt
  end.

(** ** lapic.c *)
Definition ID : Z := 0x0020 / 4.
Definition VER : Z := 0x0030 / 4.
Definition TPR : Z := 0x0080 / 4.
Definition EOI : Z := 0x00b0 / 4.
Definition SVR : Z := 0x00f0 / 4.
Definition ENABLE : Z := 0x100.
Definition ESR : Z := 0x0280 / 4.
Definition ICRLO : Z := 0x0300 / 4.
Definition INIT : Z := 0x500.
Definition STARTUP : Z := 0x600.
Definition DELIVS : Z := 0x1000.
Definition ASSERT : Z := 0x4000.
Definition LEVEL : Z := 0x8000.
Definition BCAST : Z := 0x80000.
Definition ICRHI : Z := 0x0310 / 4.
Definition TIMER : Z := 0x0320 / 4.
Definition X1 : Z := 0xb.
Definition PERIODIC : Z := 0x20000.
Definition PCINT : Z := 0x0340 / 4.
Definition LINT0 : Z := 0x0350 / 4.
Definition LINT1 : Z := 0x0360 / 4.
Definition ERROR : Z := 0x0370 / 4.
Definition MASKED : Z := 0x10000.
Definition TICR : Z := 0x0380 / 4.
Definition TDCR : Z := 0x03e0 / 4.

Definition lapicw (index value : Z) : K st unit :=
  modify (λ s, set_s_ctl (m_lapicw index value (s_ctl s)) s) ;;;
  s_lapicr ID ;;;
  ret tt.

(** while(lapic[ICRLO] & DELIVS), with a bound on the polls. *)
Fixpoint wait_delivered (fuel : nat) : K st unit :=
  v <- s_lapicr ICRLO;;
  if Z.land v DELIVS =? 0 then ret tt
  else match fuel with O => panic "lapicinit: not delivered" | S fuel => wait_delivered fuel end.

Definition lapicinit (polls : nat) : K st unit :=
  l <- gets s_lapic;;
  if l =? 0 then ret tt else
  lapicw SVR (Z.lor ENABLE (T_IRQ0 + IRQ_SPURIOUS)) ;;;
  lapicw TDCR X1 ;;;
  lapicw TIMER (Z.lor PERIODIC (T_IRQ0 + IRQ_TIMER)) ;;;
  lapicw TICR 10000000 ;;;
  lapicw LINT0 MASKED ;;;
  lapicw LINT1 MASKED ;;;
  v <- s_lapicr VER;;
  (if 4 <=? Z.land (Z.shiftr v 16) 0xff then lapicw PCINT MASKED else ret tt) ;;;
  lapicw ERROR (T_IRQ0 + IRQ_ERROR) ;;;
  lapicw ESR 0 ;;;
  lapicw ESR 0 ;;;
  lapicw EOI 0 ;;;
  lapicw ICRHI 0 ;;;
  lapicw ICRLO (Z.lor (Z.lor BCAST INIT) LEVEL) ;;;
  wait_delivered polls ;;;
  lapicw TPR 0.

(** The search of cpunum among the first [n] of cpus. *)
Fixpoint find_apicid (l : list Z) (n i apicid : Z) : option Z :=
  match l with
  | [] => None
  | x :: l => if i <? n then if x =? apicid then Some i else find_apicid l n (i + 1) apicid else None
  end.

(** [fl] are the flags of the processor and [pc] the address that cpunum returns to. *)
Definition FL_IF : Z := 0x200.
Definition cpunum (fl pc : Z) : K st Z :=
  (if negb (Z.land fl FL_IF =? 0) then
     n <- gets s_n;;
     modify (set_s_n (s32 (n + 1))) ;;;
     if n =? 0 then s_printf (str "cpu called from %x with interrupts enabled" ++ [10]) [Va_num pc] else ret tt
   else ret tt) ;;;
  l <- gets s_lapic;;
  if l =? 0 then ret 0 else
  v <- s_lapicr ID;;
  r <- gets (λ s, find_apicid (s_cpus s) (s_ncpu s) 0 (Z.shiftr v 24));;
  match r with
  | Some i => ret i
  | None => panic ("unknown apicid" +:+ String (Ascii.ascii_of_nat 10) EmptyString)
  end.

Definition lapiceoi : K st unit :=
  l <- gets s_lapic;;
  if l =? 0 then ret tt else lapicw EOI 0.

Definition microdelay (us : Z) : K st unit := ret tt.

Definition CMOS_PORT : Z := 0x70.
Definition CMOS_RETURN : Z := 0x71.

(** The body of the loop that sends the startup interrupt. *)
Definition send_startup (apicid addr : Z) : K st unit :=
  lapicw ICRHI (Z.shiftl apicid 24) ;;;
  lapicw ICRLO (Z.lor STARTUP (Z.shiftr addr 12)) ;;;
  microdelay 200.

Definition lapicstartap (apicid addr : Z) : K st unit :=
  s_outb CMOS_PORT 0xf ;;;
  s_outb (CMOS_PORT + 1) 0x0a ;;;
  let wrv := P2V (Z.lor (Z.shiftl 0x40 4) 0x67) in
  modify (λ s, set_s_mem (store (store (s_mem s) wrv 0) (wrv + 1) 0) s) ;;;
  modify (λ s, set_s_mem (store (store (s_mem s) (wrv + 2) (u8 (Z.shiftr addr 4))) (wrv + 3) (u8 (Z.shiftr addr 12))) s) ;;;
  lapicw ICRHI (Z.shiftl apicid 24) ;;;
  lapicw ICRLO (Z.lor (Z.lor INIT LEVEL) ASSERT) ;;;
  microdelay 200 ;;;
  lapicw ICRLO (Z.lor INIT LEVEL) ;;;
  microdelay 100 ;;;
  send_startup apicid addr ;;;
  send_startup apicid addr.

Definition CMOS_STATA : Z := 0x0a.
Definition CMOS_STATB : Z := 0x0b.
Definition CMOS_UIP : Z := Z.shiftl 1 7.
Definition SECS : Z := 0x00.
Definition MINS : Z := 0x02.
Definition HOURS : Z := 0x04.
Definition DAY : Z := 0x07.
Definition MONTH : Z := 0x08.
Definition YEAR : Z := 0x09.

Definition cmos_read (reg : Z) : K st Z :=
  s_outb CMOS_PORT reg ;;;
  microdelay 200 ;;;
  s_inb CMOS_RETURN.
End smp.

(** date.h *)
Record rtcdate := RtcDate { second : Z; minute : Z; hour : Z; day : Z; month : Z; year : Z }.
#[global] Instance rtcdate_eq_dec : EqDecision rtcdate.
Proof. solve_decision. Defined.

(** CONV: from two decimal digits to the number. *)
Definition CONV (x : Z) : Z := u32 (Z.shiftr x 4 * 10 + Z.land x 0xf).

Section clock.
Context {ctl : Type} `{Machine ctl}.
Local Abbreviation st := (smp ctl).

Definition fill_rtcdate : K st rtcdate :=
  s <- cmos_read SECS;;
  mi <- cmos_read MINS;;
  h <- cmos_read HOURS;;
  d <- cmos_read DAY;;
  mo <- cmos_read MONTH;;
  y <- cmos_read YEAR;;
  ret (RtcDate s mi h d mo y).

(** The loop of cmostime, with a bound on its turns. *)
Fixpoint cmostime_loop (fuel : nat) : K st rtcdate :=
  match fuel with
  | O => panic "cmostime: out of fuel"
  | S fuel =>
      t1 <- fill_rtcdate;;
      a <- cmos_read CMOS_STATA;;
      if negb (Z.land a CMOS_UIP =? 0) then cmostime_loop fuel else
      t2 <- fill_rtcdate;;
      if decide (t1 = t2) then ret t1 else cmostime_loop fuel
  end.

Definition cmostime (fuel : nat) : K st rtcdate :=
  sb <- cmos_read CMOS_STATB;;
  let bcd := Z.land sb (Z.shiftl 1 2) =? 0 in
  t1 <- cmostime_loop fuel;;
  let t1 := if bcd then RtcDate (CONV (second t1)) (CONV (minute t1)) (CONV (hour t1)) (CONV (day t1)) (CONV (month t1)) (CONV (year t1)) else t1 in
  ret (RtcDate (second t1) (minute t1) (hour t1) (day t1) (month t1) (u32 (year t1 + 2000))).
End clock.
