(* ===== verification/SmpTheorems.v ===== *)
(** * The time of the clock, and the numbers of the processors *)

From S2P Require Import Prelude Params CString Devices Core Fs Console ConsoleOut Smp.

(** ** The clock *)

(** A date as the registers of the clock have it. *)
Definition to_bcd (n : Z) : Z := 16 * (n / 10) + n mod 10.
Definition encode (bcd : bool) (n : Z) : Z := if bcd then to_bcd n else n.
Definition date_ok (d : rtcdate) : Prop :=
  Forall (λ n, 0 ≤ n < 100) [second d; minute d; hour d; day d; month d; year d].

Definition register (bcd : bool) (uip : bool) (d : rtcdate) (reg : Z) : Z :=
  if reg =? SECS then encode bcd (second d) else if reg =? MINS then encode bcd (minute d) else
  if reg =? HOURS then encode bcd (hour d) else if reg =? DAY then encode bcd (day d) else
  if reg =? MONTH then encode bcd (month d) else if reg =? YEAR then encode bcd (year d) else
  if reg =? CMOS_STATA then (if uip then CMOS_UIP else 0) else
  if bcd then 0 else 4.

(** The clock: at read number [i] it shows [cl_date i] and says whether an update is in
    progress.  Fewer than sixty seconds pass while the date is read twice: when two
    moments show the same second, so does every moment between them, with the same date. *)
Class Clock (ctl : Type) `{Machine ctl} := {
  cl_bcd : bool;
  cl_date : nat → rtcdate;
  cl_uip : nat → bool;
  cl_now : ctl → nat;
  cl_read c reg : ∃ c', m_inb CMOS_RETURN (m_outb CMOS_PORT reg c) = (register cl_bcd (cl_uip (cl_now c)) (cl_date (cl_now c)) reg, c') ∧ cl_now c' = S (cl_now c);
  cl_range i : date_ok (cl_date i);
  cl_slow i j k : (i ≤ j ≤ k)%nat → (k ≤ i + 12)%nat → second (cl_date i) = second (cl_date k) → cl_date j = cl_date i
}.

Lemma conv_bcd n : 0 ≤ n < 100 → CONV (to_bcd n) = n.
Proof.
  intros H. unfold CONV, to_bcd, u32. pose proof (Z.mod_pos_bound n 10 ltac:(lia)). pose proof (Z.div_mod n 10 ltac:(lia)).
  assert (0 ≤ n / 10 < 10) by (split; [apply Z.div_pos; lia|apply Z.div_lt_upper_bound; lia]).
  change 0xf with (Z.ones 4). rewrite Z.land_ones, Z.shiftr_div_pow2 by lia. change (2 ^ 4) with 16.
  rewrite (Z.mul_comm 16), Z.div_add_l, (Z.add_comm (_ * 16)), Z.mod_add, (Z.div_small (n mod 10) 16), (Z.mod_small (n mod 10) 16) by lia.
  rewrite Z.mod_small; lia.
Qed.

Section clock.
Context {ctl : Type} `{Clock ctl}.
Local Abbreviation st := (smp ctl).

Definition now (s : st) : nat := cl_now (s_ctl s).

Lemma cmos_read_ok (s : st) reg : ∃ c, cmos_read reg s = Done (register cl_bcd (cl_uip (now s)) (cl_date (now s)) reg) (set_s_ctl c s) ∧ cl_now c = S (now s).
Proof.
  destruct (cl_read (s_ctl s) reg) as (c & E & Hc). exists c. split; [|exact Hc].
  unfold cmos_read, s_outb, bind, modify, microdelay, ret, s_inb. cbn [s_ctl set_s_ctl]. rewrite E. done.
Qed.

Definition raw (d : rtcdate) : rtcdate :=
  RtcDate (encode cl_bcd (second d)) (encode cl_bcd (minute d)) (encode cl_bcd (hour d)) (encode cl_bcd (day d)) (encode cl_bcd (month d)) (encode cl_bcd (year d)).

(** The registers that are read from moment [i] on. *)
Definition shown (i : nat) : rtcdate :=
  let e (f : rtcdate → Z) k := encode cl_bcd (f (cl_date (i + k)%nat)) in
  RtcDate (e second 0%nat) (e minute 1%nat) (e hour 2%nat) (e day 3%nat) (e month 4%nat) (e year 5%nat).

Lemma fill_ok (s : st) : ∃ c, fill_rtcdate s = Done (shown (now s)) (set_s_ctl c s) ∧ cl_now c = (now s + 6)%nat.
Proof.
  unfold fill_rtcdate.
  destruct (cmos_read_ok s SECS) as (c1 & E1 & N1). rewrite (bind_done _ _ _ _ _ E1).
  destruct (cmos_read_ok (set_s_ctl c1 s) MINS) as (c2 & E2 & N2). rewrite (bind_done _ _ _ _ _ E2). unfold now in *. cbn [s_ctl set_s_ctl] in *.
  destruct (cmos_read_ok (set_s_ctl c2 s) HOURS) as (c3 & E3 & N3). rewrite (bind_done _ _ _ _ _ E3). unfold now in *. cbn [s_ctl set_s_ctl] in *.
  destruct (cmos_read_ok (set_s_ctl c3 s) DAY) as (c4 & E4 & N4). rewrite (bind_done _ _ _ _ _ E4). unfold now in *. cbn [s_ctl set_s_ctl] in *.
  destruct (cmos_read_ok (set_s_ctl c4 s) MONTH) as (c5 & E5 & N5). rewrite (bind_done _ _ _ _ _ E5). unfold now in *. cbn [s_ctl set_s_ctl] in *.
  destruct (cmos_read_ok (set_s_ctl c5 s) YEAR) as (c6 & E6 & N6). rewrite (bind_done _ _ _ _ _ E6). unfold now in *. cbn [s_ctl set_s_ctl] in *.
  exists c6. split; [|lia]. unfold ret, shown. rewrite N5, N4, N3, N2, N1. f_equal.
  set (i := cl_now (s_ctl s)). replace (i + 5)%nat with (S (S (S (S (S i))))) by lia. replace (i + 4)%nat with (S (S (S (S i)))) by lia.
  replace (i + 3)%nat with (S (S (S i))) by lia. replace (i + 2)%nat with (S (S i)) by lia. replace (i + 1)%nat with (S i) by lia. rewrite Nat.add_0_r. done.
Qed.

Lemma encode_inj n n' : 0 ≤ n < 100 → 0 ≤ n' < 100 → encode cl_bcd n = encode cl_bcd n' → n = n'.
Proof. unfold encode. destruct cl_bcd; [|done]. intros Hn Hn' E. rewrite <- (conv_bcd n Hn), E. by apply conv_bcd. Qed.

(** Two equal readings show a date that the clock had all the time between them. *)
Lemma shown_same i : shown i = shown (i + 7) → shown i = (raw (cl_date i)).
Proof.
  intros E. apply (f_equal second) in E. cbn in E. rewrite !Nat.add_0_r in E.
  apply encode_inj in E; [|apply (Forall_inv (cl_range i))|apply (Forall_inv (cl_range (i + 7)))].
  assert (Hs : ∀ k, (k ≤ 5)%nat → cl_date (i + k) = cl_date i) by (intros k Hk; apply (cl_slow i (i + k) (i + 7)); [lia|lia|done]).
  unfold shown. cbn zeta. rewrite !Hs by lia. done.
Qed.

(** The clock keeps still from moment [T] on, for as long as two turns of the loop take. *)
Definition still (T : nat) : Prop := ∀ j, (T ≤ j ≤ T + 25)%nat → cl_date j = cl_date T ∧ cl_uip j = false.

Lemma uip_bit (b : bool) : negb (Z.land (if b then CMOS_UIP else 0) CMOS_UIP =? 0) = b.
Proof. by destruct b. Qed.

Lemma cmostime_loop_ok fuel (s : st) T :
  still T → (now s ≤ T)%nat → (T - now s < fuel)%nat →
  ∃ i c, cmostime_loop fuel s = Done (raw (cl_date i)) (set_s_ctl c s) ∧
    (now s ≤ i ≤ T + 12)%nat.
Proof.
  intros HT. assert (Hgen : ∀ fuel (s : st), (now s ≤ T + 12)%nat → (T < now s + fuel)%nat → (1 ≤ fuel)%nat → 
    ∃ i c, cmostime_loop fuel s = Done (raw (cl_date i)) (set_s_ctl c s) ∧
    (now s ≤ i ≤ T + 12)%nat).
  2: { intros Hn Hf. apply Hgen; lia. }
  clear fuel s. induction fuel as [|fuel IH]; intros s Hn Hf H1; [lia|]. cbn [cmostime_loop].
  destruct (fill_ok s) as (c1 & E1 & N1). rewrite (bind_done _ _ _ _ _ E1).
  destruct (cmos_read_ok (set_s_ctl c1 s) CMOS_STATA) as (c2 & E2 & N2). rewrite (bind_done _ _ _ _ _ E2). unfold now in N2, E2. cbn [s_ctl set_s_ctl] in N2, E2.
  change (register cl_bcd (cl_uip (now (set_s_ctl c1 s))) (cl_date (now (set_s_ctl c1 s))) CMOS_STATA) with (if cl_uip (cl_now c1) then CMOS_UIP else 0).
  rewrite uip_bit. set (s2 := set_s_ctl c2 s). change (set_s_ctl c2 (set_s_ctl c1 s)) with s2.
  assert (Hnow2 : now s2 = (now s + 7)%nat) by (unfold now, s2 in *; cbn [s_ctl set_s_ctl]; lia).
  assert (Hagain : ∀ s', (now s + 7 ≤ now s' ≤ now s + 13)%nat → (∃ c, s' = set_s_ctl c s) → (now s < T)%nat →
    ∃ i c, cmostime_loop fuel s' = Done (raw (cl_date i)) (set_s_ctl c s) ∧ (now s ≤ i ≤ T + 12)%nat).
  { intros s' Hs' [c ->] HT'. destruct (IH (set_s_ctl c s)) as (i & c' & E & Hi); [lia|lia|lia|]. exists i, c'. split; [exact E|lia]. }
  destruct (cl_uip (cl_now c1)) eqn:Eu.
  { apply Hagain; [lia|by exists c2|]. destruct (decide (now s < T)%nat) as [|Hge]; [done|]. destruct (HT (cl_now c1)) as [_ Hu]; [lia|]. congruence. }
  destruct (fill_ok s2) as (c3 & E3 & N3). rewrite (bind_done _ _ _ _ _ E3). rewrite Hnow2. case_decide as Heq.
  - exists (now s), c3. rewrite (shown_same _ Heq). split; [done|lia].
  - apply Hagain; [unfold now in *; cbn [s_ctl set_s_ctl] in *; lia|by exists c3|].
    destruct (decide (now s < T)%nat) as [|Hge]; [done|]. exfalso. apply Heq. unfold shown. cbn zeta.
    assert (Hd : ∀ k, (k ≤ 5)%nat → cl_date (now s + k) = cl_date (now s + 7 + k)).
    { intros k Hk. destruct (HT (now s + k)%nat ltac:(lia)) as [-> _]. by destruct (HT (now s + 7 + k)%nat ltac:(lia)) as [-> _]. }
    rewrite !Hd by lia. done.
Qed.

(** C34: the time that cmostime returns is a time of the clock.  If the clock keeps still for 25
    reads at some time, cmostime returns after at most as many turns as reads until
    then, and what it returns is the date that the clock had at one single moment, in
    decimal numbers also when the clock counts in BCD, with the year of this century. *)
Theorem cmostime_snapshot fuel (s : st) T :
  still T → (now s < T)%nat → (T - now s ≤ fuel)%nat →
  ∃ i c, cmostime fuel s = Done (let d := cl_date i in RtcDate (second d) (minute d) (hour d) (day d) (month d) (year d + 2000)) (set_s_ctl c s) ∧ (now s ≤ i ≤ T + 12)%nat.
Proof.
  intros HT Hn Hf. unfold cmostime. destruct (cmos_read_ok s CMOS_STATB) as (c1 & E1 & N1). rewrite (bind_done _ _ _ _ _ E1).
  destruct (cmostime_loop_ok fuel (set_s_ctl c1 s) T HT) as (i & c & E & Hi); unfold now in *; cbn [s_ctl set_s_ctl] in *; [lia|lia|].
  rewrite (bind_done _ _ _ _ _ E). exists i, c. split; [|lia]. unfold ret, raw. f_equal. cbn zeta.
  pose proof (cl_range i) as Hr. unfold date_ok in Hr. rewrite !Forall_cons in Hr. destruct Hr as (R1 & R2 & R3 & R4 & R5 & R6 & _).
  change (register cl_bcd _ _ CMOS_STATB) with (if cl_bcd then 0 else 4). unfold encode. destruct cl_bcd.
  - change (Z.land 0 (Z.shiftl 1 2) =? 0) with true. cbv iota. cbn [second minute hour day month year]. rewrite !conv_bcd by done. f_equal. apply Z.mod_small. lia.
  - change (Z.land 4 (Z.shiftl 1 2) =? 0) with false. cbv iota. cbn [second minute hour day month year]. f_equal. apply Z.mod_small. lia.
Qed.
End clock.

(** A clock in BCD that turns from 23:59:59 to midnight at its third read. *)
Record toy := Toy { toy_now : nat; toy_reg : Z; toy_apicid : Z }.
Definition toy_date (i : nat) : rtcdate := if (i <? 3)%nat then RtcDate 59 59 23 31 12 25 else RtcDate 0 0 0 1 1 26.
#[global] Instance toy_machine : Machine toy := {
  m_outb p v c := if p =? CMOS_PORT then Toy (toy_now c) v (toy_apicid c) else c;
  m_inb p c := (register true false (toy_date (toy_now c)) (toy_reg c), Toy (S (toy_now c)) (toy_reg c) (toy_apicid c));
  m_lapicw i v c := c;
  m_lapicr i c := (Z.shiftl (toy_apicid c) 24, c)
}.
#[global] Instance toy_clock : Clock toy.
Proof.
  refine {| cl_bcd := true; cl_date := toy_date; cl_uip := λ _, false; cl_now := toy_now |}.
  - intros c reg. by eexists.
  - intros i. unfold toy_date, date_ok. destruct (i <? 3)%nat; cbn [second minute hour day month year]; repeat (apply Forall_cons; split; [lia|]); apply Forall_nil; exact I.
  - intros i j k Hj Hk. unfold toy_date. destruct (Nat.ltb_spec i 3), (Nat.ltb_spec j 3), (Nat.ltb_spec k 3); cbn; (done || lia).
Defined.

Definition toy_smp (apicid : Z) (m : mem) : smp toy := Smp serial_core m (Toy 0 0 apicid) (replicate NCPU 0) 0 0 0 0.

Lemma cmostime_snapshot_witness :
  ∃ i c, cmostime 3 (toy_smp 0 (λ _, 0)) =
    Done (let d := toy_date i in RtcDate (second d) (minute d) (hour d) (day d) (month d) (year d + 2000)) (set_s_ctl c (toy_smp 0 (λ _, 0))).
Proof.
  destruct (cmostime_snapshot 3 (toy_smp 0 (λ _, 0)) 3) as (i & c & E & _).
  - intros j Hj. split; [|done]. change (toy_date j = toy_date 3). unfold toy_date. by destruct (Nat.ltb_spec j 3); [lia|].
  - unfold now. cbn. lia.
  - unfold now. cbn. lia.
  - by exists i, c.
Defined.

(** ** The table of the processors *)

(** An entry: a processor with its APIC id, an I/O APIC with its number, or another one; and
    the bytes that do not matter. *)
Inductive mpentry :=
| Eproc (apicid : Z) (rest : list Z)
| Eioapic (apicno : Z) (rest : list Z)
| Eother (t : Z) (rest : list Z).

Definition entry_bytes (e : mpentry) : list Z :=
  match e with
  | Eproc a rest => MPPROC :: a :: rest
  | Eioapic a rest => MPIOAPIC :: a :: rest
  | Eother t rest => t :: rest
  end.
Definition entry_ok (e : mpentry) : Prop :=
  match e with
  | Eproc _ rest => length rest = 18%nat
  | Eioapic _ rest => length rest = 6%nat
  | Eother t rest => (t = MPBUS ∨ t = MPIOINTR ∨ t = MPLINTR) ∧ length rest = 7%nat
  end.

(** The processors and the last I/O APIC of a table. *)
Definition apicids (es : list mpentry) : list Z := omap (λ e, match e with Eproc a _ => Some a | _ => None end) es.
Definition ioapic_of (old : Z) (es : list mpentry) : Z := foldl (λ i e, match e with Eioapic a _ => a | _ => i end) old es.

Definition mem_has (m : mem) (p : Z) (l : list Z) : Prop := ∀ i b, l !! i = Some b → m (p + Z.of_nat i) = b.
Lemma mem_has_app m p l l' : mem_has m p (l ++ l') → mem_has m p l ∧ mem_has m (p + Z.of_nat (length l)) l'.
Proof.
  intros H. split; intros i b Hi.
  - apply H. by apply lookup_app_l_Some.
  - rewrite <- Z.add_assoc, <- Nat2Z.inj_add. apply H. rewrite lookup_app_r by lia. rewrite <- Hi. f_equal. lia.
Qed.

Section table.
Context {ctl : Type} `{Machine ctl}.
Local Abbreviation st := (smp ctl).

Definition read_entry (s : st) (e : mpentry) : st :=
  match e with
  | Eproc a _ => if s_ncpu s <? Z.of_nat NCPU then add_cpu a s else s
  | Eioapic a _ => set_s_ioapicid a s
  | Eother _ _ => s
  end.

Lemma read_entry_mem s e : s_mem (read_entry s e) = s_mem s.
Proof. destruct e; cbn; [by destruct (_ <? _)|done|done]. Qed.

Lemma mp_entry_ok s p e :
  mem_has (s_mem s) p (entry_bytes e) → entry_ok e → mp_entry p s = Done (p + Z.of_nat (length (entry_bytes e))) (read_entry s e).
Proof.
  intros Hm He. unfold mp_entry, bind at 1, gets at 1. destruct e as [a rest|a rest|t rest]; cbn [entry_bytes entry_ok length] in *.
  - pose proof (Hm 0%nat MPPROC eq_refl) as H0. pose proof (Hm 1%nat a eq_refl) as H1. rewrite Z.add_0_r in H0. change (Z.of_nat 1) with 1 in H1.
    rewrite H0, Z.eqb_refl. unfold bind at 1, gets at 1. cbn [read_entry]. unfold proc_apicid. rewrite H1, He.
    destruct (_ <? _); done.
  - pose proof (Hm 0%nat MPIOAPIC eq_refl) as H0. pose proof (Hm 1%nat a eq_refl) as H1. rewrite Z.add_0_r in H0. change (Z.of_nat 1) with 1 in H1.
    rewrite H0. change (MPIOAPIC =? MPPROC) with false. rewrite Z.eqb_refl. unfold ioapic_apicno. by rewrite H1, He.
  - pose proof (Hm 0%nat t eq_refl) as H0. rewrite Z.add_0_r in H0. rewrite H0. destruct He as [Ht ->]. by destruct Ht as [->|[->| ->]].
Qed.

Lemma mp_entries_ok fuel s p es :
  mem_has (s_mem s) p (concat (entry_bytes <$> es)) → Forall entry_ok es → (length es ≤ fuel)%nat →
  mp_entries fuel p (p + Z.of_nat (length (concat (entry_bytes <$> es)))) s = Done tt (foldl read_entry s es).
Proof.
  intros Hm Hes. revert fuel s p Hm. induction Hes as [|e es He Hes IH]; intros fuel s p Hm Hf.
  - cbn [fmap list_fmap concat length]. rewrite Z.add_0_r. destruct fuel; cbn [mp_entries]; by rewrite Z.ltb_irrefl.
  - rewrite fmap_cons in *. cbn [concat length foldl] in *. destruct fuel as [|fuel]; [lia|]. cbn [mp_entries]. rewrite length_app.
    assert (Hpos : (0 < length (entry_bytes e))%nat) by (destruct e; cbn; lia). rewrite (proj2 (Z.ltb_lt _ _)) by lia.
    apply mem_has_app in Hm as [Hm1 Hm2]. rewrite (bind_done _ _ _ _ _ (mp_entry_ok s p e Hm1 He)).
    rewrite Nat2Z.inj_add, Z.add_assoc. apply IH; [by rewrite read_entry_mem|lia].
Qed.

(** What the table leaves in cpus, ncpu and ioapicid. *)
Lemma read_entries es (s : st) :
  length (s_cpus s) = NCPU → 0 ≤ s_ncpu s ≤ Z.of_nat NCPU →
  let s' := foldl read_entry s es in
  let n' := Z.min (Z.of_nat NCPU) (s_ncpu s + Z.of_nat (length (apicids es))) in
  s_ncpu s' = n' ∧ s_ioapicid s' = ioapic_of (s_ioapicid s) es ∧ length (s_cpus s') = NCPU ∧
  take (Z.to_nat n') (s_cpus s') = take (Z.to_nat n') (take (Z.to_nat (s_ncpu s)) (s_cpus s) ++ apicids es) ∧
  s_core s' = s_core s ∧ s_mem s' = s_mem s ∧ s_ctl s' = s_ctl s ∧ s_lapic s' = s_lapic s ∧ s_n s' = s_n s.
Proof.
  revert s. induction es as [|e es IH]; intros s Hl Hn; cbn zeta.
  - cbn [foldl apicids omap list_omap length]. rewrite Z.add_0_r, Z.min_r, app_nil_r by lia. rewrite take_take, Nat.min_id. done.
  - cbn [foldl]. destruct e as [a rest|a rest|t rest]; cbn [read_entry]; [|exact (IH (set_s_ioapicid a s) Hl Hn)|exact (IH s Hl Hn)].
    cbn [apicids omap list_omap length]. fold (apicids es). destruct (Z.ltb_spec (s_ncpu s) (Z.of_nat NCPU)) as [Hlt|Hge].
    + destruct (IH (add_cpu a s)) as (I1 & I2 & I3 & I4 & I5); cbn [add_cpu s_cpus s_ncpu]; [by rewrite length_insert|lia|].
      cbn [add_cpu s_cpus s_ncpu s_ioapicid s_core s_mem s_ctl s_lapic s_n] in *.
      replace (s_ncpu s + 1 + Z.of_nat (length (apicids es))) with (s_ncpu s + Z.of_nat (S (length (apicids es)))) in * by lia.
      split; [done|]. split; [done|]. split; [done|]. split; [|done]. rewrite I4. f_equal.
      replace (Z.to_nat (s_ncpu s + 1)) with (S (Z.to_nat (s_ncpu s))) by lia.
      rewrite (take_S_r _ _ a) by (apply list_lookup_insert_eq; lia). rewrite take_insert_ge by lia. by rewrite <- app_assoc.
    + destruct (IH s Hl Hn) as (I1 & I2 & I3 & I4 & I5). rewrite !Z.min_l in * by lia. split; [done|]. split; [done|]. split; [done|]. split; [|done].
      rewrite I4. assert (s_ncpu s = Z.of_nat NCPU) as -> by lia. rewrite Nat2Z.id. by rewrite !take_app_le by (rewrite length_take, Hl; lia).
Qed.

(** Every entry moves on: the bound of the loop is never reached. *)
Lemma mp_entry_next p (s : st) : match mp_entry p s with Done p' _ => p < p' | Panic msg => msg = "Major problem parsing mp config."%string | Sleep _ _ => False end.
Proof.
  unfold mp_entry, MPPROC_SIZE, MPIOAPIC_SIZE, bind, gets, modify, ret, panic.
  destruct (_ =? MPPROC); [destruct (_ <? _); lia|]. destruct (_ =? MPIOAPIC); [lia|]. destruct (_ || _); [lia|done].
Qed.
Lemma mp_entries_enough fuel p e (s : st) : e - p ≤ Z.of_nat fuel →
  match mp_entries fuel p e s with Done _ _ => True | Panic msg => msg = "Major problem parsing mp config."%string | Sleep _ _ => False end.
Proof.
  revert p s. induction fuel as [|fuel IH]; intros p s Hf; cbn [mp_entries]; destruct (Z.ltb_spec p e); [lia|done| |done].
  unfold bind. pose proof (mp_entry_next p s) as Hn. destruct (mp_entry p s) as [p' s'|msg|]; [|done|done]. apply IH. lia.
Qed.

Lemma s_printf_ok fmt ap t (s : st) :
  format fmt ap = Some t → d_panicked (c_dev (s_core s)) = false → Lk_cons ∉ c_held (s_core s) →
  s_printf fmt ap s = Done tt (set_s_core (set_dev (put_chars t (c_dev (s_core s))) (s_core s)) s).
Proof. intros Ht Hd Hc. unfold s_printf, zoom. by rewrite (cprintf_put _ _ _ _ Ht Hd Hc). Qed.

Lemma find_apicid_ok l n k i a :
  NoDup (take (Z.to_nat (n - k)) l) → l !! i = Some a → k + Z.of_nat i < n → find_apicid l n k a = Some (k + Z.of_nat i).
Proof.
  revert k i. induction l as [|x l IH]; intros k i Hd Hi Hn; [done|]. cbn [find_apicid]. rewrite (proj2 (Z.ltb_lt _ _)) by lia.
  replace (Z.to_nat (n - k)) with (S (Z.to_nat (n - (k + 1)))) in Hd by lia. cbn [take] in Hd. apply NoDup_cons in Hd as [Hx Hd].
  destruct i as [|i]; cbn in Hi.
  - injection Hi as ->. rewrite Z.eqb_refl. f_equal. lia.
  - destruct (Z.eqb_spec x a) as [->|_].
    + destruct Hx. apply list_elem_of_lookup. exists i. rewrite lookup_take_lt by lia. exact Hi.
    + rewrite (IH (k + 1) i) by (done || lia). f_equal. lia.
Qed.

Lemma find_apicid_none l n k a : a ∉ take (Z.to_nat (n - k)) l → find_apicid l n k a = None.
Proof.
  revert k. induction l as [|x l IH]; intros k Ha; [done|]. cbn [find_apicid]. destruct (Z.ltb_spec k n); [|done].
  replace (Z.to_nat (n - k)) with (S (Z.to_nat (n - (k + 1)))) in Ha by lia. cbn [take] in Ha. apply not_elem_of_cons in Ha as [Hx Ha].
  rewrite (proj2 (Z.eqb_neq _ _)) by congruence. by apply IH.
Qed.

Lemma entries_length es : Forall entry_ok es → (length es ≤ length (concat (entry_bytes <$> es)))%nat.
Proof.
  induction 1 as [|e es He _ IH]; [done|]. rewrite fmap_cons. cbn [concat length]. rewrite length_app. destruct e; cbn [entry_bytes length]; lia.
Qed.

Lemma lapic_set m conf : (∀ a, is_byte (m a)) → P2V (conf_lapicaddr m conf) ≠ 0.
Proof.
  intros Hm. assert (0 ≤ conf_lapicaddr m conf < 256 ^ 4).
  { apply (le_get_bound (bytes_at m (conf + 36) 4)). apply Forall_fmap, Forall_forall. intros i _. apply Hm. }
  unfold P2V, u64, KERNBASE. rewrite Z.mod_small; lia.
Qed.

(** The state that mpinit leaves: it has read the table and printed the number of
    processors. *)
Lemma mpinit_runs es mp conf (s : st) :
  mpconfig (s_mem s) = Some (mp, conf) →
  mem_has (s_mem s) (conf + MPCONF_SIZE) (concat (entry_bytes <$> es)) → Forall entry_ok es →
  conf_length (s_mem s) conf = MPCONF_SIZE + Z.of_nat (length (concat (entry_bytes <$> es))) →
  d_panicked (c_dev (s_core s)) = false → Lk_cons ∉ c_held (s_core s) →
  length (s_cpus s) = NCPU → s_ncpu s = 0 →
  ∃ c d, mpinit s = Done tt (set_s_ctl c (set_s_core (set_dev d (s_core s)) (foldl read_entry (set_s_lapic (P2V (conf_lapicaddr (s_mem s) conf)) s) es))) ∧
    d_panicked d = false ∧ (c = s_ctl s ∨ ∃ v, c = m_outb 0x23 v (snd (m_inb 0x23 (m_outb 0x22 0x70 (s_ctl s))))).
Proof.
  intros Hc Hm Hes Hlen Hd Hlk Hl H0. unfold mpinit, bind at 1, gets at 1. rewrite Hc. unfold bind at 1, modify at 1.
  pose proof (entries_length es Hes). set (s0 := set_s_lapic _ s).
  assert (E : mp_entries (Z.to_nat (conf_length (s_mem s) conf)) (conf + MPCONF_SIZE) (conf + conf_length (s_mem s) conf) s0 = Done tt (foldl read_entry s0 es)).
  { rewrite Hlen. replace (conf + (MPCONF_SIZE + _)) with (conf + MPCONF_SIZE + Z.of_nat (length (concat (entry_bytes <$> es)))) by lia.
    apply mp_entries_ok; [exact Hm|exact Hes|unfold MPCONF_SIZE; lia]. }
  rewrite (bind_done _ _ _ _ _ E). destruct (read_entries es s0) as (_ & _ & _ & _ & I5 & _ & I7 & _); [exact Hl|cbn; lia|].
  set (s1 := foldl read_entry s0 es) in *. unfold bind at 1, gets at 1.
  erewrite bind_done by (apply s_printf_ok; [reflexivity|by rewrite I5|by rewrite I5]). rewrite I5. change (s_core s0) with (s_core s).
  change (s_ctl s0) with (s_ctl s) in I7. destruct (negb _).
  - unfold bind, s_outb, s_inb, modify. cbn [s_ctl set_s_ctl set_s_core]. rewrite I7. destruct (m_inb 0x23 _) as [v c].
    eexists _, _. split; [reflexivity|]. split; [rewrite put_chars_panicked; exact Hd|]. right. by eexists.
  - exists (s_ctl s1). eexists. split; [reflexivity|]. split; [rewrite put_chars_panicked; exact Hd|]. by left.
Qed.

(** the processors that the BIOS names are the ones cpunum counts.  When the tables of the
    BIOS check, mpinit reads any sequence of entries to its end and does not panic; ncpu is
    the number of processor entries, at most NCPU, their APIC ids stand in cpus in the order
    of the table, and ioapicid is the last I/O APIC of the table.  When the ids are distinct,
    cpunum on the processor whose local APIC shows the i-th id returns i, so no two
    processors share a struct cpu; on a processor that is not in the table it panics. *)
Theorem mpinit_cpunum es mp conf (s : st) :
  mpconfig (s_mem s) = Some (mp, conf) → (∀ a, is_byte (s_mem s a)) →
  mem_has (s_mem s) (conf + MPCONF_SIZE) (concat (entry_bytes <$> es)) → Forall entry_ok es →
  conf_length (s_mem s) conf = MPCONF_SIZE + Z.of_nat (length (concat (entry_bytes <$> es))) →
  d_panicked (c_dev (s_core s)) = false → Lk_cons ∉ c_held (s_core s) →
  length (s_cpus s) = NCPU → s_ncpu s = 0 → NoDup (take NCPU (apicids es)) →
  ∃ s', mpinit s = Done tt s' ∧
    s_ncpu s' = Z.min (Z.of_nat NCPU) (Z.of_nat (length (apicids es))) ∧
    take (Z.to_nat (s_ncpu s')) (s_cpus s') = take NCPU (apicids es) ∧
    s_ioapicid s' = ioapic_of (s_ioapicid s) es ∧
    ∀ c fl pc, Z.land fl FL_IF = 0 →
      let a := Z.shiftr (fst (m_lapicr ID c)) 24 in
      let c' := snd (m_lapicr ID c) in
      (∀ i, take NCPU (apicids es) !! i = Some a → cpunum fl pc (set_s_ctl c s') = Done (Z.of_nat i) (set_s_ctl c' s')) ∧
      (a ∉ take NCPU (apicids es) → ∃ msg, cpunum fl pc (set_s_ctl c s') = Panic msg).
Proof.
  intros Hc Hb Hm Hes Hlen Hd Hlk Hl H0 Hnd. destruct (mpinit_runs es mp conf s) as (c0 & d & E & _); [done..|].
  destruct (read_entries es (set_s_lapic (P2V (conf_lapicaddr (s_mem s) conf)) s)) as (I1 & I2 & I3 & I4 & _ & _ & _ & I8 & _); [exact Hl|cbn; lia|].
  set (s1 := foldl _ _ es) in *. cbn [set_s_lapic s_ncpu s_ioapicid s_cpus s_lapic] in I1, I2, I4, I8. rewrite H0 in I1, I4. change (take (Z.to_nat 0) (s_cpus s)) with (@nil Z) in I4.
  rewrite Z.add_0_l in I1, I4. cbn [app] in I4. rewrite <- I1 in I4.
  assert (Ht : take (Z.to_nat (s_ncpu s1)) (s_cpus s1) = take NCPU (apicids es)).
  { rewrite I4, I1. destruct (Z.min_spec (Z.of_nat NCPU) (Z.of_nat (length (apicids es)))) as [[_ ->]|[? ->]]; rewrite Nat2Z.id; [done|].
    rewrite (take_ge _ NCPU) by lia. by rewrite take_ge. }
  eexists. split; [exact E|]. split; [exact I1|]. split; [exact Ht|]. split; [exact I2|].
  intros c fl pc Hfl a c'. subst a c'. unfold cpunum, bind, gets, s_lapicr. rewrite Hfl. cbn [negb Z.eqb ret s_lapic set_s_ctl set_s_core s_ctl].
  rewrite I8, (proj2 (Z.eqb_neq _ _) (lapic_set _ conf Hb)).
  change (s_ctl (set_s_ctl c _)) with c. destruct (m_lapicr ID c) as [v c']. cbn [fst snd s_cpus s_ncpu set_s_ctl set_s_core].
  split.
  - intros i Hi. rewrite <- Ht in Hi. apply lookup_take_Some in Hi as [Hi Hlt].
    rewrite (find_apicid_ok _ _ 0 i) by (rewrite ?Z.sub_0_r, ?Ht; (done || lia)). done.
  - intros Hn. rewrite find_apicid_none; [by eexists|]. by rewrite Z.sub_0_r, Ht.
Qed.
End table.

(** A table with two processors, an I/O APIC and a bus, 256 bytes after the floating pointer,
    at 0xf0000. *)
Definition bios_entries : list mpentry := [Eproc 0 (replicate 18 0); Eproc 3 (replicate 18 0); Eother MPBUS (replicate 7 0); Eioapic 2 (replicate 6 0)].
Definition with_sum (l : list Z) (i : nat) : list Z := <[i := u8 (- sum_loop l 0)]> l.
Definition bios : list Z :=
  with_sum (str "_MP_" ++ le_put 4 0xf0100 ++ [1; 4; 0; 0; 0x80; 0; 0; 0]) 10 ++ replicate 240 0 ++
  with_sum (str "PCMP" ++ le_put 2 100 ++ [4; 0] ++ replicate 28 0 ++ le_put 4 0xfee00000 ++ [0; 0; 0; 0] ++ concat (entry_bytes <$> bios_entries)) 7.
Definition bios_mem : mem := λ a,
  let i := a - P2V 0xf0000 in if (0 <=? i) && (i <? Z.of_nat (length bios)) then nth (Z.to_nat i) bios 0 else 0.

Lemma bios_mem_byte a : is_byte (bios_mem a).
Proof.
  unfold bios_mem. cbv zeta. destruct (_ && _); [|unfold is_byte; lia].
  destruct (nth_in_or_default (Z.to_nat (a - P2V 0xf0000)) bios 0) as [Hin| ->]; [|unfold is_byte; lia].
  assert (Forall is_byte bios) as Hb by (apply (bool_decide_unpack _); vm_compute; reflexivity).
  rewrite Forall_forall in Hb. apply Hb. by apply list_elem_of_In.
Qed.

Lemma bios_has_entries : mem_has bios_mem (P2V 0xf0100 + MPCONF_SIZE) (concat (entry_bytes <$> bios_entries)).
Proof.
  intros i b Hi. assert (Hlt : (i < 56)%nat) by (apply lookup_lt_Some in Hi; exact Hi).
  assert (Hall : Forall (λ i, concat (entry_bytes <$> bios_entries) !! i = Some (bios_mem (P2V 0xf0100 + MPCONF_SIZE + Z.of_nat i))) (seq 0 56))
    by (apply (bool_decide_unpack _); vm_compute; reflexivity).
  rewrite Forall_forall in Hall. rewrite (Hall i) in Hi by (apply elem_of_seq; lia). by injection Hi.
Qed.

Lemma mpinit_cpunum_witness :
  ∃ s', mpinit (toy_smp 0 bios_mem) = Done tt s' ∧ s_ncpu s' = 2 ∧ s_ioapicid s' = 2 ∧
    cpunum 0 0 (set_s_ctl (Toy 0 0 3) s') = Done 1 (set_s_ctl (Toy 0 0 3) s').
Proof.
  destruct (mpinit_cpunum bios_entries (P2V 0xf0000) (P2V 0xf0100) (toy_smp 0 bios_mem)) as (s' & E & H1 & _ & H3 & H4).
  - vm_compute. reflexivity.
  - apply bios_mem_byte.
  - apply bios_has_entries.
  - repeat constructor.
  - vm_compute. reflexivity.
  - reflexivity.
  - apply not_elem_of_nil.
  - reflexivity.
  - reflexivity.
  - apply (bool_decide_unpack _). vm_compute. reflexivity.
  - exists s'. split; [exact E|]. split; [exact H1|]. split; [exact H3|]. apply (proj1 (H4 (Toy 0 0 3) 0 0 eq_refl) 1%nat). reflexivity.
Defined.
