(* ===== verification/Main.v ===== *)
(** * The start of the kernel: main.c and seginit of vm.c

    The parts of the state that only the start touches are added to the state of the kernel:
    the tables of mp.c and the machine ([Smp.smp]), the rest of the array cpus, and the
    registers of each processor.  main starts the other processors one after the other and
    waits for each of them; while it waits, the code of the other processor runs. *)

From S2P Require Import Prelude Params CString Devices Core Kalloc Vm Bio Log BlockStore Fs Console Kernel File Proc Syscall Trap Asm Smp.

(** ** mmu.h: segment descriptors *)
Definition SEG_KCPU : Z := 6.
Definition SEG_TSS : Z := 7.
Definition NSEGS : Z := 8.
Definition APP_SEG : Z := 0x1.
Definition STS_T64A : Z := 0x9.

Record segdesc := Segdesc {
  lim_15_0 : Z;
  base_15_0 : Z;
  base_23_16 : Z;
  sd_type : Z;
  sd_s : Z;
  sd_dpl : Z;
  sd_p : Z;
  lim_19_16 : Z;
  sd_avl : Z;
  rsv1 : Z;
  sd_db : Z;
  sd_g : Z;
  base_31_24 : Z
}.
Definition segdesc0 : segdesc := Segdesc 0 0 0 0 0 0 0 0 0 0 0 0 0.

(** The fields with their widths, from the lowest bit on: the 8 bytes of the structure. *)
Definition seg_fields (d : segdesc) : list (Z * Z) :=
  [(lim_15_0 d, 16); (base_15_0 d, 16); (base_23_16 d, 8); (sd_type d, 4); (sd_s d, 1); (sd_dpl d, 2); (sd_p d, 1);
   (lim_19_16 d, 4); (sd_avl d, 1); (rsv1 d, 1); (sd_db d, 1); (sd_g d, 1); (base_31_24 d, 8)].
Definition seg_bits (d : segdesc) : Z := foldr (λ f acc, fst f mod 2 ^ snd f + 2 ^ snd f * acc) 0 (seg_fields d).

Definition SEG (type lim base sys dpl rsv : Z) : segdesc :=
  Segdesc (Z.land lim 0xffff) (Z.land (u32 base) 0xffff) (Z.land (Z.shiftr base 16) 0xff) type sys dpl 1
    (Z.shiftr lim 60) 0 rsv 0 1 (Z.shiftr base 24).

(** ** x86.h: the operands of lgdt and lidt *)
Definition pseudo_desc (addr size : Z) : list Z :=
  [u16 (size - 1); u16 addr; u16 (Z.shiftr addr 16); u16 (Z.shiftr addr 32); u16 (Z.shiftr addr 48)].

(** ** The state *)

(** started and local of struct cpu; scheduler, ncli and intena belong to the locks and to the
    scheduler, and apicid to [Smp]. *)
Record cpu_rec := CpuRec { cpu_started : Z; cpu_local : Z }.
#[global] Instance cpu_rec_inhabited : Inhabited cpu_rec := populate (CpuRec 0 0).

(** What the start sets in a processor: the registers of the tables, the model-specific registers, and the
    variable cpu in its local storage (proc is [c_cur] of the kernel). *)
Record pregs := PRegs {
  r_gdtr : list Z;
  r_idtr : list Z;
  r_tr : Z;
  r_asm : Asm.cpu;
  r_cpu : Z
}.
Definition pregs0 : pregs := PRegs [] [] 0 (Cpu (λ _, 0) 0 (λ _, 0) (λ _, 0) (λ _, 0) 0 0 (λ _, 0) [] []) 0.
#[global] Instance pregs_inhabited : Inhabited pregs := populate pregs0.

Record mstate (ctl : Type) := MState {
  ms_k : kstate;
  ms_smp : smp ctl;            (* its core is a copy of the one of the kernel *)
  ms_cpus : list cpu_rec;
  ms_regs : list pregs;        (* by the number of the processor *)
  ms_self : Z;                 (* the processor that runs *)
  ms_idt : Z * list Z          (* idt and the table it points to *)
}.
Arguments MState {ctl}.
Arguments ms_k {ctl}.
Arguments ms_smp {ctl}.
Arguments ms_cpus {ctl}.
Arguments ms_regs {ctl}.
Arguments ms_self {ctl}.
Arguments ms_idt {ctl}.

(** What a processor that does not run yet has been told by its local APIC: nothing, an INIT,
    and then a STARTUP with the number of the page where it is to start. *)
Inductive ap := Ap_off | Ap_init | Ap_start (page : Z).

(** The processors of the machine: [as_cpu a] is the machine as the processor with APIC id [a]
    sees it, and [ap_of a] what that processor has been told. *)
Class Processors (ctl : Type) := { as_cpu : Z → ctl → ctl; ap_of : Z → ctl → ap }.

(** kpml4 and kpdpt *)
Definition set_kpt (kpml4 kpdpt : Z) (s : kstate) : kstate :=
  KState (k_fs s) (k_mem s) (k_file s) (k_pipe s) (k_nextpid s) (k_initproc s) (k_ticks s)
    kpml4 kpdpt (k_cr3 s) (k_rsp0 s) (k_first s).

Section main.
Context {ctl : Type} `{Machine ctl} `{Processors ctl}.
Local Abbreviation st := (mstate ctl).

Definition set_k (k : kstate) (s : st) : st := MState k (ms_smp s) (ms_cpus s) (ms_regs s) (ms_self s) (ms_idt s).
Definition set_smp (x : smp ctl) (s : st) : st := MState (ms_k s) x (ms_cpus s) (ms_regs s) (ms_self s) (ms_idt s).
Definition set_cpus (x : list cpu_rec) (s : st) : st := MState (ms_k s) (ms_smp s) x (ms_regs s) (ms_self s) (ms_idt s).
Definition set_regs (x : list pregs) (s : st) : st := MState (ms_k s) (ms_smp s) (ms_cpus s) x (ms_self s) (ms_idt s).
Definition set_self (i : Z) (s : st) : st := MState (ms_k s) (ms_smp s) (ms_cpus s) (ms_regs s) i (ms_idt s).
Definition set_idt (x : Z * list Z) (s : st) : st := MState (ms_k s) (ms_smp s) (ms_cpus s) (ms_regs s) (ms_self s) x.

Definition in_k {A} (m : K kstate A) : K st A := zoom ms_k set_k m.
Definition in_smp {A} (m : K (smp ctl) A) : K st A :=
  zoom (λ s, set_s_core (k_core (ms_k s)) (ms_smp s)) (λ x s, set_smp x (set_k (set_kcore (s_core x) (ms_k s)) s)) m.
Definition on_dev (f : devices → devices) : K st unit := in_k (k_locks (in_dev (modify f))).
Definition upd_regs (f : pregs → pregs) : K st unit :=
  modify (λ s, set_regs (alter f (Z.to_nat (ms_self s)) (ms_regs s)) s).
Definition upd_cpu (i : Z) (f : cpu_rec → cpu_rec) : K st unit :=
  modify (λ s, set_cpus (alter f (Z.to_nat i) (ms_cpus s)) s).

Definition lgdt (addr size : Z) : K st unit :=
  upd_regs (λ r, PRegs (pseudo_desc addr size) (r_idtr r) (r_tr r) (r_asm r) (r_cpu r)).
Definition lidt (addr size : Z) : K st unit :=
  upd_regs (λ r, PRegs (r_gdtr r) (pseudo_desc addr size) (r_tr r) (r_asm r) (r_cpu r)).
Definition ltr (sel : Z) : K st unit :=
  upd_regs (λ r, PRegs (r_gdtr r) (r_idtr r) sel (r_asm r) (r_cpu r)).
Definition on_asm (f : Asm.cpu → Asm.cpu) : K st unit :=
  upd_regs (λ r, PRegs (r_gdtr r) (r_idtr r) (r_tr r) (f (r_asm r)) (r_cpu r)).
Definition set_r_cpu (n : Z) : K st unit :=
  upd_regs (λ r, PRegs (r_gdtr r) (r_idtr r) (r_tr r) (r_asm r) n).

(** [fl] are the flags of a processor that starts and [pc] stands for the return addresses of
    the calls of cpunum. *)
Variables fl pc : Z.
Definition m_cpunum : K st Z := in_smp (Smp.cpunum fl pc).

(** ** vm.c: seginit *)
Definition store32 (a v : Z) (s : kst) : kst :=
  set_page (pg_base a) (set_field (Z.to_nat (a mod PGSIZE)) 4 v (km_page (fst s) (pg_base a))) s.
Definition gdt_set (gdt i : Z) (d : segdesc) : K st unit := in_k (in_mem (modify (store64 (gdt + 8 * i) (seg_bits d)))).

Definition lnot (x : Z) : Z := if x =? 0 then 1 else 0.

Definition seginit : K st unit :=
  local <- in_k (in_mem kalloc);;
  in_k (in_mem (modify (memset_page local 0))) ;;;
  let gdt := local in
  let tss := local + 1024 in
  in_k (in_mem (modify (store32 (tss + 4 * 16) 0x00680000))) ;;;
  on_asm (set_msr 0xC0000100 (u64 (local + 2048))) ;;;
  c <- m_cpunum;;
  upd_cpu c (λ x, CpuRec (cpu_started x) local) ;;;
  set_r_cpu c ;;;
  in_k (k_locks (modify (λ c, Core (c_held c) (c_procs c) None (c_dev c)))) ;;;
  let addr := tss in
  gdt_set gdt 0 segdesc0 ;;;
  gdt_set gdt SEG_KCODE (SEG (Z.lor STA_X STA_R) 0 0 APP_SEG (lnot DPL_USER) 1) ;;;
  gdt_set gdt SEG_KDATA (SEG STA_W 0 0 APP_SEG (lnot DPL_USER) 0) ;;;
  gdt_set gdt SEG_UCODE32 segdesc0 ;;;
  gdt_set gdt SEG_UDATA (SEG STA_W 0 0 APP_SEG DPL_USER 0) ;;;
  gdt_set gdt SEG_UCODE (SEG (Z.lor STA_X STA_R) 0 0 APP_SEG DPL_USER 1) ;;;
  gdt_set gdt SEG_KCPU segdesc0 ;;;
  gdt_set gdt SEG_TSS (SEG STS_T64A 0xb addr (lnot APP_SEG) DPL_USER 0) ;;;
  gdt_set gdt (SEG_TSS + 1) (SEG 0 (Z.shiftr addr 32) (Z.shiftr addr 48) 0 0 0) ;;;
  lgdt gdt ((NSEGS + 1) * 8) ;;;
  ltr (Z.shiftl SEG_TSS 3).

(** ** The other initialisations *)

(** spinlock.c: initlock makes a lock free. *)
Definition initlock (l : lockid) : K st unit :=
  in_k (k_locks (modify (λ c, set_held (filter (λ x, x ≠ l) (c_held c)) c))).
(** proc.c and file.c *)
Definition pinit : K st unit := initlock Lk_ptable.
Definition fileinit : K st unit := initlock Lk_ftable.

(** ioapic.c, with the message about the id. *)
Definition ioapic_start : K st unit :=
  r <- gets (λ s, d_ioapic (c_dev (k_core (ms_k s))));;
  id <- gets (λ s, s_ioapicid (ms_smp s));;
  (if negb (Z.shiftr (ioapicread REG_ID r) 24 =? id)
   then in_smp (s_printf (str "ioapicinit: id isn't equal to ioapicid; not a MP" ++ [10]) []) else ret tt) ;;;
  on_dev (λ d, set_ioapic (ioapicinit (d_ioapic d)) d).

(** memide.c: the disk is the image that the kernel is linked with, [size] bytes long. *)
Definition mem_ideinit (img : Z → block) (size : Z) : K st unit :=
  in_k (in_log (in_bio (modify (λ b, BState (bs_core b) (bs_buf b) (Disk (u32 size / BSIZE) img []))))).

(** trap.c: idtinit *)
Definition idtinit : K st unit :=
  idt <- gets (λ s, fst (ms_idt s));;
  lidt idt PGSIZE.

(** ** main.c *)

(** [lbl] are the addresses of the labels of the machine code; [polls] bounds the wait for the
    local APIC; [apcode] are the bytes that entryother.S is assembled to. *)
Variable lbl : label → Z.
Variable polls : nat.
Variable apcode : list Z.

(** mpmain up to the call of scheduler, where the model of a processor ends: the others
    stand still there while the one that runs main goes on. *)
Definition mpmain : K st unit :=
  n <- m_cpunum;;
  in_smp (s_printf (str "cpu%d: starting" ++ [10]) [Va_num n]) ;;;
  idtinit ;;;
  on_asm (syscallinit lbl) ;;;
  i <- gets (λ s, r_cpu (ms_regs s !!! Z.to_nat (ms_self s)));;
  upd_cpu i (λ x, CpuRec 1 (cpu_local x)).

Definition mpenter : K st unit :=
  in_k switchkvm ;;;
  seginit ;;;
  in_smp (lapicinit polls) ;;;
  mpmain.

(** What processor [i] does while the one that runs waits: the machine and the page table
    register are those of processor [i] meanwhile. *)
Definition run_on (i : Z) (m : K st unit) : K st unit :=
  self <- gets ms_self;;
  cr3 <- gets (λ s, k_cr3 (ms_k s));;
  let go i : K st unit :=
    modify (set_self i) ;;;
    in_smp (modify (λ x, set_s_ctl (as_cpu (s_cpus x !!! Z.to_nat i) (s_ctl x)) x)) in
  go i ;;;
  m ;;;
  go self ;;;
  in_k (modify (set_cr3 cr3)).

(** Processor [i] comes to mpenter when it has been sent an INIT and a STARTUP for the page at
    [code], which has the code of entryother.S, and the block before the page has what that
    code and the one at entry32mp take from it ([AsmBoot.ap_reaches_mpenter]). *)
Definition ap_enters (code stack i : Z) (s : st) : bool :=
  let x := ms_smp s in
  match ap_of (s_cpus x !!! Z.to_nat i) (s_ctl x) with
  | Ap_start page =>
      (P2V (Z.shiftl page 12) =? code) &&
      bool_decide ((λ k, s_mem x (code + Z.of_nat k)) <$> seq 0 (length apcode) = apcode) &&
      (load 4 (s_mem x) (code - 4) =? 0x8000) &&
      (load 4 (s_mem x) (code - 8) =? V2P (lbl "entry32mp"%string)) &&
      (load 8 (s_mem x) (code - 16) =? stack + KSTACKSIZE)
  | _ => false
  end.

(** while(c->started == 0): meanwhile the other processor runs mpenter, if it gets there;
    otherwise the wait does not end, which is a panic of the model. *)
Definition wait_started (code stack i : Z) : K st unit :=
  a <- gets (λ s, cpu_started (ms_cpus s !!! Z.to_nat i));;
  if negb (a =? 0) then ret tt else
  up <- gets (ap_enters code stack i);;
  (if (up : bool) then run_on i mpenter else ret tt) ;;;
  b <- gets (λ s, cpu_started (ms_cpus s !!! Z.to_nat i));;
  if negb (b =? 0) then ret tt else panic "startothers: waits for ever".

(** The body of the loop of startothers. *)
Definition startother (code i : Z) : K st unit :=
  n <- m_cpunum;;
  if i =? n then ret tt else
  stack <- in_k (in_mem kalloc);;
  in_smp (modify (λ x, set_s_mem (put 4 (code - 4) 0x8000 (s_mem x)) x)) ;;;
  in_smp (modify (λ x, set_s_mem (put 4 (code - 8) (V2P (lbl "entry32mp"%string)) (s_mem x)) x)) ;;;
  in_smp (modify (λ x, set_s_mem (put 8 (code - 16) (stack + KSTACKSIZE) (s_mem x)) x)) ;;;
  apicid <- gets (λ s, s_cpus (ms_smp s) !!! Z.to_nat i);;
  in_smp (lapicstartap apicid (V2P code)) ;;;
  wait_started code stack i.

Fixpoint startothers_loop (k : nat) (code i : Z) : K st unit :=
  match k with
  | O => ret tt
  | S k => startother code i ;;; startothers_loop k code (i + 1)
  end.

Definition startothers : K st unit :=
  let code := P2V 0x7000 in
  in_smp (modify (λ x, set_s_mem (memmove code (lbl "_binary_entryother_start"%string) (lbl "_binary_entryother_size"%string) (s_mem x)) x)) ;;;
  n <- gets (λ s, s_ncpu (ms_smp s));;
  startothers_loop (Z.to_nat n) code 0.

(** vm.c: kvmalloc, which keeps its page tables in kpml4 and kpdpt and uses them. *)
Definition kvm_start : K st unit :=
  k <- in_k (in_mem kvmalloc);;
  in_k (modify (set_kpt (fst k) (snd k))) ;;;
  in_k switchkvm.

(** [kend] is the address end, [status] the line status of the serial port, [vectors] the
    entry points of vectors.S, [img] and [imgsize] the image of the disk, [init] the bytes of
    initcode.S; [devread] are the devices of the file system.  Up to the scheduler. *)
Definition main (kend status : Z) (vectors : nat → Z) (img : Z → block) (imgsize : Z) (init : list Z)
    (devread : Z → option (nat → Z → Z → K (fstate lstate) (Z * list Z))) : K st unit :=
  on_dev (λ d, set_serial (uartearlyinit status (d_serial d)) d) ;;;
  in_k (in_mem (kinit1 kend kend (P2V PHYSTOP))) ;;;
  kvm_start ;;;
  in_smp mpinit ;;;
  in_smp (lapicinit polls) ;;;
  t <- in_k (tvinit vectors);;
  modify (set_idt t) ;;;
  seginit ;;;
  n <- m_cpunum;;
  in_smp (s_printf ([10] ++ str "cpu%d: starting Fall 2025 xv6" ++ [10; 10]) [Va_num n]) ;;;
  ioapic_start ;;;
  on_dev consoleinit ;;;
  on_dev uartinit ;;;
  pinit ;;;
  in_k (in_log (in_bio (modify binit))) ;;;
  fileinit ;;;
  mem_ideinit img imgsize ;;;
  startothers ;;;
  in_k (in_mem kinit2) ;;;
  in_k (userinit devread init) ;;;
  mpmain.
End main.
