(* ===== verification/MainInit.v ===== *)
(** * The first process

    The state of the kernel while it starts, and userinit: the allocations of main, and the
    process that userinit makes. *)

From stdpp Require Import functions.
From S2P Require Import Prelude Params CString Devices Core Kalloc Vm VmTree VmSpec VmUser VmTheorems Bio Log BlockStore Fs FsInodes Console Frame Kernel File Proc ProcSched KernelInv Syscall Main.

(** ** The invariant *)

(** What stays as it is while the processors start: the roots of the page tables, what they
    map, and the tables of files, processes and inodes. *)
Record base := Base {
  b_roots : list Z;
  b_space : Z → Z → option (page * Z);
  b_files : list file;
  b_procs : list proc;
  b_icache : list inode;
  b_pid : Z;
  b_kpt : Z * Z;
  b_init : option nat
}.
Definition k_icache (s : kstate) : list inode := fs_icache (k_fs s).

Record kernel_at (kend : Z) (B : base) (D : list (Z * page)) (l : list Z) (k : kstate) : Prop := {
  ka_held : c_held (k_core k) = [];
  ka_cur : c_cur (k_core k) = None;
  ka_panicked : d_panicked (c_dev (k_core k)) = false;
  ka_vm : vm_rep kend (k_mem k) l (b_roots B);
  ka_space : ∀ Q wa, Q ∈ b_roots B → 0 ≤ wa < MAXVA → upage (k_mem k) Q wa = b_space B Q wa;
  ka_pages : ∀ v d, (v, d) ∈ D → fresh kend (k_mem k) l (b_roots B) v ∧ km_page (k_mem k) v = d;
  ka_nodup : NoDup D.*1;
  ka_files : k_file k = b_files B;
  ka_procs : c_procs (k_core k) = b_procs B;
  ka_icache : k_icache k = b_icache B;
  ka_pid : k_nextpid k = b_pid B;
  ka_kpt : (k_kpml4 k, k_kpdpt k) = b_kpt B;
  ka_init : k_initproc k = b_init B
}.

Section kernel.
Variable kend : Z.
Hypothesis Hend : KERNBASE < kend ≤ KERNBASE + PHYSTOP.

Lemma kernel_at_dev B D l k d : kernel_at kend B D l k → d_panicked d = false → kernel_at kend B D l (set_kcore (set_dev d (k_core k)) k).
Proof. intros [] Hd. by split. Qed.

(** ** Memory *)
Lemma kernel_at_mem B D l k m' l' D' :
  kernel_at kend B D l k → vm_rep kend m' l' (b_roots B) →
  (∀ Q wa, Q ∈ b_roots B → 0 ≤ wa < MAXVA → upage m' Q wa = upage (k_mem k) Q wa) →
  (∀ v d, (v, d) ∈ D' → fresh kend m' l' (b_roots B) v ∧ km_page m' v = d) → NoDup D'.*1 →
  kernel_at kend B D' l' (set_mem m' k).
Proof. intros [] Hvm Hup Hpg Hnd. split; try done. intros Q wa HQ Hwa. cbn [k_mem set_mem]. rewrite Hup by done. auto. Qed.

Lemma ka_quiet B D l k : kernel_at kend B D l k → kquiet (k_core k).
Proof. intros Hk. unfold kquiet. rewrite (ka_held _ _ _ _ _ Hk). apply not_elem_of_nil. Qed.

Lemma in_mem_same {A} (m : K kst A) k a m' : m (k_mem k, k_core k) = Done a (m', k_core k) → in_mem m k = Done a (set_mem m' k).
Proof. intros E. rewrite (in_mem_done _ _ _ _ _ E). by rewrite set_kcore_id. Qed.

Lemma pages_not_free B D l k v d : kernel_at kend B D l k → (v, d) ∈ D → v ∉ l.
Proof. intros Hk Hv. by apply (ka_pages _ _ _ _ _ Hk v d Hv). Qed.

Lemma popped_upage m v Q wa : upage (popped m v) Q wa = upage m Q wa.
Proof. unfold upage, pte, leaf. by rewrite (node_pages m) by done. Qed.

Lemma kalloc_at B D l k v :
  kernel_at kend B D (v :: l) k →
  ∃ k', in_mem kalloc k = Done v k' ∧ kernel_at kend B ((v, km_page (k_mem k) v) :: D) l k' ∧ valid_page kend v.
Proof.
  intros Hk. destruct (vm_kalloc kend Hend (k_mem k) (k_core k) v l (b_roots B) (ka_quiet _ _ _ _ Hk) (ka_vm _ _ _ _ _ Hk)) as (E & _ & Hvr & Hf).
  exists (set_mem (popped (k_mem k) v) k). split; [by apply in_mem_same|]. split; [|apply Hf].
  assert (Hnv : ∀ x d, (x, d) ∈ D → x ≠ v).
  { intros x d Hx ->. apply (pages_not_free _ _ _ _ _ _ Hk Hx). left. }
  apply (kernel_at_mem _ _ _ _ _ _ _ Hk Hvr).
  - intros Q wa _ _. apply popped_upage.
  - intros x d [[= -> ->]|Hx]%elem_of_cons; [done|]. destruct (ka_pages _ _ _ _ _ Hk x d Hx) as [(H1 & H2 & H3) <-]. split; [|done].
    split; [done|]. split; [intros Hl; apply H2; by right|]. intros Q q HQ Hq. rewrite (node_pages (k_mem k)) by done. by apply H3.
  - cbn. apply NoDup_cons. split; [|apply Hk]. intros ((y & d) & -> & Hy)%list_elem_of_fmap. by apply (Hnv y d).
Qed.

(** Writing to a page that main has allocated. *)
Definition writes (v : Z) (h : page → page) (g : kst → kst) : Prop := ∀ m c, g (m, c) = (put_page v (h (km_page m v)) m, c).
Definition page_map (h : page → page) : Prop :=
  ∀ d, length d = Z.to_nat PGSIZE → Forall is_byte d → length (h d) = Z.to_nat PGSIZE ∧ Forall is_byte (h d).

Lemma write_at B D l k v d h :
  kernel_at kend B ((v, d) :: D) l k → page_map h → kernel_at kend B ((v, h d) :: D) l (set_mem (put_page v (h d) (k_mem k)) k).
Proof.
  intros Hk Hh. destruct (ka_pages _ _ _ _ _ Hk v d ltac:(left)) as [Hf Ed].
  pose proof (vr_free _ _ _ _ (ka_vm _ _ _ _ _ Hk)) as Hfr.
  destruct (Hh d) as [Hd1 Hd2]; [rewrite <- Ed; apply Hfr|rewrite <- Ed; apply Hfr|].
  pose proof (ka_nodup _ _ _ _ _ Hk) as Hnd. cbn in Hnd. apply NoDup_cons in Hnd as [Hv Hnd].
  apply (kernel_at_mem _ _ _ _ _ _ _ Hk).
  - by apply (fresh_put_page kend _ l _ v (h d) v Hf (ka_vm _ _ _ _ _ Hk)).
  - intros Q wa HQ Hwa. by apply (upage_fresh kend _ l (b_roots B)); [apply Hk|..].
  - intros x e [[= -> ->]|Hx]%elem_of_cons.
    + split; [|apply fn_lookup_insert]. by apply (fresh_put_page kend _ l _ v (h d) v Hf (ka_vm _ _ _ _ _ Hk)).
    + destruct (ka_pages _ _ _ _ _ Hk x e ltac:(by right)) as [Hfx Ee]. split.
      * by apply (fresh_put_page kend _ l _ v (h d) x Hf (ka_vm _ _ _ _ _ Hk)).
      * rewrite <- Ee. apply fn_lookup_insert_ne. intros Ex. rewrite <- Ex in Hx. apply Hv. apply list_elem_of_fmap. by exists (v, e).
  - cbn. by apply NoDup_cons.
Qed.

Lemma writes_memset v : writes v (λ _, zero_page) (memset_page v 0).
Proof. done. Qed.
Lemma zero_page_map : page_map (λ _, zero_page).
Proof. intros d _ _. apply zero_page_ok. Qed.
Lemma page_base v o : v mod PGSIZE = 0 → 0 ≤ o < PGSIZE → pg_base (v + o) = v ∧ (v + o) mod PGSIZE = o.
Proof.
  intros Hv Ho. assert (E : (v + o) mod PGSIZE = o) by (rewrite Z.add_mod, Hv by done; rewrite Z.add_0_l, Z.mod_mod by done; by apply Z.mod_small).
  split; [|done]. unfold pg_base. rewrite E. lia.
Qed.
Lemma writes64 v o x : v mod PGSIZE = 0 → 0 ≤ o < PGSIZE → writes v (set_field (Z.to_nat o) 8 x) (store64 (v + o) x).
Proof. intros Hv Ho m c. unfold store64. by destruct (page_base v o Hv Ho) as [-> ->]. Qed.
Lemma writes32 v o x : v mod PGSIZE = 0 → 0 ≤ o < PGSIZE → writes v (set_field (Z.to_nat o) 4 x) (store32 (v + o) x).
Proof. intros Hv Ho m c. unfold store32. by destruct (page_base v o Hv Ho) as [-> ->]. Qed.
Lemma field_page_map o n x : 0 ≤ o → o + Z.of_nat n ≤ PGSIZE → page_map (set_field (Z.to_nat o) n x).
Proof.
  intros Ho Hn d Hd Hb. split; [rewrite length_set_field; [done|rewrite Hd; unfold PGSIZE in *; lia]|by apply set_field_bytes].
Qed.

Lemma vm_rep_uselock b m l R : vm_rep kend m l R → vm_rep kend (KMem b (km_freelist m) (km_page m)) l R.
Proof.
  intros [[] Hn Hi]. set (m' := KMem b _ _). assert (Hnode : ∀ P p, node m' P p = node m P p) by (intros; by apply node_pages).
  split.
  - split; try done. by apply (chain_frame kend m).
  - intros P p a HP Hp. rewrite Hnode. by apply Hn.
  - intros P Q p q a HP HQ Hp Hq. rewrite !Hnode. by apply Hi.
Qed.


(** ** Triples *)
Definition kruns {A} (n : nat) (B : base) (D : list (Z * page)) (m : K kstate A) (Q : A → base → list (Z * page) → Prop) : Prop :=
  ∀ l k, kernel_at kend B D l k → (n ≤ length l)%nat →
  ∃ a k' B' D' l', m k = Done a k' ∧ kernel_at kend B' D' l' k' ∧ (length l ≤ n + length l')%nat ∧ Q a B' D'.

Lemma kruns_bind {A C} n1 n B D (m : K kstate A) (f : A → K kstate C) Q1 Q :
  kruns n1 B D m Q1 → (n1 ≤ n)%nat → (∀ a B' D', Q1 a B' D' → kruns (n - n1) B' D' (f a) Q) → kruns n B D (bind m f) Q.
Proof.
  intros Hm Hn Hf l k Hk Hl. destruct (Hm l k Hk ltac:(lia)) as (a & k1 & B1 & D1 & l1 & E1 & Hk1 & Hl1 & HQ1).
  destruct (Hf a B1 D1 HQ1 l1 k1 Hk1 ltac:(lia)) as (c & k2 & B2 & D2 & l2 & E2 & Hk2 & Hl2 & HQ2).
  exists c, k2, B2, D2, l2. split; [by rewrite (bind_done _ _ _ _ _ E1)|]. split; [done|]. split; [lia|done].
Qed.

Definition gives {A} (a : A) (B : base) (D : list (Z * page)) : A → base → list (Z * page) → Prop := λ a' B' D', a' = a ∧ B' = B ∧ D' = D.

Lemma kruns_pure {A} B B' D (m : K kstate A) a f :
  (∀ l k, kernel_at kend B D l k → m k = Done a (f k) ∧ kernel_at kend B' D l (f k)) → kruns 0 B D m (gives a B' D).
Proof. intros Hm l k Hk _. destruct (Hm l k Hk) as [E Hk']. exists a, (f k), B', D, l. split; [done|]. split; [done|]. by split; [lia|]. Qed.

(** Changes of the invariant *)
Definition b_set_procs (ps : list proc) (B : base) : base := Base (b_roots B) (b_space B) (b_files B) ps (b_icache B) (b_pid B) (b_kpt B) (b_init B).
Definition b_set_pid (pid : Z) (B : base) : base := Base (b_roots B) (b_space B) (b_files B) (b_procs B) (b_icache B) pid (b_kpt B) (b_init B).
Definition b_set_init (i : option nat) (B : base) : base := Base (b_roots B) (b_space B) (b_files B) (b_procs B) (b_icache B) (b_pid B) (b_kpt B) i.
Definition b_set_icache (l : list inode) (B : base) : base := Base (b_roots B) (b_space B) (b_files B) (b_procs B) l (b_pid B) (b_kpt B) (b_init B).
Definition b_set_space (R : list Z) (f : Z → Z → option (page * Z)) (B : base) : base := Base R f (b_files B) (b_procs B) (b_icache B) (b_pid B) (b_kpt B) (b_init B).

Lemma kruns_proc B D i f : kruns 0 B D (upd_kproc i f) (gives tt (b_set_procs (alter f i (b_procs B)) B) D).
Proof.
  apply (kruns_pure _ _ _ _ _ (λ k, set_kcore (upd_proc i f (k_core k)) k)). intros l k Hk. split; [done|].
  pose proof (ka_procs _ _ _ _ _ Hk) as Hp. destruct Hk. split; try done. rewrite k_core_set. cbn [upd_proc set_procs c_procs b_set_procs b_procs]. by rewrite Hp.
Qed.
Lemma kruns_init B D i : kruns 0 B D (modify (set_initproc i)) (gives tt (b_set_init i B) D).
Proof. apply (kruns_pure _ _ _ _ _ (set_initproc i)). intros l k []. by split; [|split]. Qed.
Lemma kruns_kpdpt B D : kruns 0 B D (gets k_kpdpt) (gives (snd (b_kpt B)) B D).
Proof. intros l k Hk _. exists (k_kpdpt k), k, B, D, l. split; [done|]. split; [done|]. split; [lia|]. split; [|done]. by rewrite <- (ka_kpt _ _ _ _ _ Hk). Qed.

(** Through the lock of the process table and the allocator. *)
Lemma kruns_allocproc B D i :
  find_state UNUSED (b_procs B) 0 = Some i →
  kruns 1 B D allocproc (λ a B' D', ∃ v d, a = Some i ∧ valid_page kend v ∧ D' = (v, d) :: D ∧
    B' = b_set_pid (s32 (b_pid B + 1)) (b_set_procs (alter (set_kstack v ∘ set_pid (b_pid B) ∘ set_state EMBRYO) i (b_procs B)) B)).
Proof.
  intros Hi [|v l] k Hk Hl; [cbn in Hl; lia|]. set (c := k_core k).
  pose proof (ka_held _ _ _ _ _ Hk) as Hh. pose proof (ka_procs _ _ _ _ _ Hk) as Hp. pose proof (ka_pid _ _ _ _ _ Hk) as Hpid.
  set (ps := alter (set_pid (b_pid B)) i (alter (set_state EMBRYO) i (c_procs c))).
  set (k1 := set_nextpid (s32 (b_pid B + 1)) (set_kcore (Core [Lk_ptable] ps (c_cur c) (c_dev c)) k)).
  set (k2 := set_kcore (Core [] ps (c_cur c) (c_dev c)) k1).
  set (B2 := b_set_pid (s32 (b_pid B + 1)) (b_set_procs (alter (set_pid (b_pid B) ∘ set_state EMBRYO) i (b_procs B)) B)).
  assert (Hk2 : kernel_at kend B2 D (v :: l) k2).
  { destruct Hk. split; try done. change (c_procs (k_core k2)) with ps. unfold ps, c. by rewrite Hp, list_alter_alter_eq. }
  destruct (kalloc_at _ _ _ _ _ Hk2) as (k3 & E3 & Hk3 & Hv).
  destruct (kruns_proc B2 ((v, km_page (k_mem k2) v) :: D) i (set_kstack v) l k3 Hk3 ltac:(lia)) as ([] & k4 & B4 & D4 & l4 & E4 & Hk4 & Hl4 & (_ & -> & ->)).
  eexists (Some i), k4, _, _, l4. split; [|split; [exact Hk4|split; [cbn [length] in *; lia|]]].
  - unfold allocproc. rewrite (bind_done _ _ _ _ _ (k_acquire Lk_ptable k ltac:(rewrite Hh; apply not_elem_of_nil))), Hh.
    rewrite bind_gets, k_core_set. cbn [c_procs set_held]. rewrite Hp, Hi. rewrite bind_upd_kproc, bind_gets. cbn [k_nextpid set_kcore set_fs]. rewrite Hpid.
    rewrite bind_upd_kproc, bind_modify.
    match goal with |- bind _ _ ?x = _ => change x with k1 end. rewrite (bind_done _ _ _ _ _ (k_release Lk_ptable [] k1 eq_refl (not_elem_of_nil _))).
    match goal with |- bind _ _ ?x = _ => change x with k2 end. rewrite (bind_done _ _ _ _ _ E3), (bind_done _ _ _ _ _ E4).
    rewrite (proj2 (Z.eqb_neq _ _)); [done|]. destruct Hv as (_ & Hv & _). unfold KERNBASE in *. lia.
  - exists v. eexists. split; [done|]. split; [done|]. split; [done|]. unfold B2, b_set_procs, b_set_pid. cbn. by rewrite list_alter_alter_eq.
Qed.

Lemma kruns_setupkvm B D kpdpt :
  valid_page kend kpdpt →
  kruns 1 B D (in_mem (setupkvm kpdpt)) (λ r B' D', D' = D ∧ r ≠ 0 ∧
    B' = b_set_space (r :: b_roots B) (λ Q wa, if decide (Q = r) then None else b_space B Q wa) B).
Proof.
  intros Hkp [|r l] k Hk Hl; [cbn in Hl; lia|].
  destruct (setupkvm_spec kend Hend _ _ r l _ kpdpt (ka_quiet _ _ _ _ Hk) (ka_vm _ _ _ _ _ Hk) Hkp) as (m' & E & Hr & HrR & Hvr & Hup & Hoth).
  eexists r, (set_mem m' k), _, D, l. split; [by apply in_mem_same|]. split; [|split; [cbn; lia|done]].
  pose proof (ka_pages _ _ _ _ _ Hk) as Hpg. pose proof (ka_space _ _ _ _ _ Hk) as Hsp. destruct Hk. split; try done; cbn [b_set_space b_roots b_space k_mem set_mem].
  - intros Q wa HQ Hwa. rewrite Hup by done. destruct (decide (Q = r)); [done|]. apply Hsp; [|done]. by apply elem_of_cons in HQ as [?|?].
  - intros v d Hv. destruct (Hpg v d Hv) as [Hf <-]. by apply Hoth.
Qed.

Lemma kruns_inituvm B D P init :
  P ∈ b_roots B → Z.of_nat (length init) < PGSIZE → Forall is_byte init → b_space B P PGSIZE = None →
  kruns 4 B D (in_mem (inituvm P init (Z.of_nat (length init))))
    (gives tt (b_set_space (b_roots B) (λ Q wa, if decide (Q = P ∧ wa / PGSIZE = 1) then Some (init_page init, user_flags) else b_space B Q wa) B) D).
Proof.
  intros HP Hinit Hb Hnone l k Hk Hl. pose proof (ka_pages _ _ _ _ _ Hk) as Hpg. pose proof (ka_space _ _ _ _ _ Hk) as Hsp.
  destruct (inituvm_spec kend Hend _ _ l _ P init (ka_quiet _ _ _ _ Hk) (ka_vm _ _ _ _ _ Hk) HP Hl Hinit Hb) as (m' & l' & E & Hvr & Hlen & Hup & Hoth).
  { by rewrite Hsp. }
  eexists tt, (set_mem m' k), _, D, l'. split; [by apply in_mem_same|]. split; [|split; [lia|by split]].
  destruct Hk. split; try done; cbn [b_set_space b_roots b_space k_mem set_mem].
  - intros Q wa HQ Hwa. rewrite Hup by done. destruct (decide _); [done|]. by apply Hsp.
  - intros v d Hv. destruct (Hpg v d Hv) as [Hf <-]. by apply Hoth.
Qed.

Lemma kruns_root B D devread ip :
  icache_find ROOTDEV ROOTINO (b_icache B) 0 None = (false, Some ip) →
  kruns 0 B D (in_fs (namei devread [slash])) (gives (Some ip) (b_set_icache (alter (fresh_inode ROOTDEV ROOTINO) ip (b_icache B)) B) D).
Proof.
  intros Hip. apply (kruns_pure _ _ _ _ _ (λ k, set_fs (FState (fs_st (k_fs k)) (fs_sb (k_fs k)) (alter (fresh_inode ROOTDEV ROOTINO) ip (fs_icache (k_fs k)))) k)).
  intros l k Hk. pose proof (ka_held _ _ _ _ _ Hk) as Hh. pose proof (ka_icache _ _ _ _ _ Hk) as Hic.
  split; [|destruct Hk; split; try done; unfold k_icache in *; cbn; by rewrite Hic].
  unfold in_fs, zoom. unfold k_icache in Hic. destruct (k_fs k) as [[[c bs d] lg] sb ic] eqn:Ef. cbn in Hic. subst ic.
  assert (Hc : c_held c = []) by (rewrite <- Hh; unfold k_core; by rewrite Ef).
  set (locked := λ ic, FState (LState (BState (set_held [Lk_icache] c) bs d) lg) sb ic).
  assert (Ea : fs_core (acquire Lk_icache) (FState (LState (BState c bs d) lg) sb (b_icache B)) = Done tt (locked (b_icache B))).
  { unfold fs_core, in_st, zoom. cbn [fs_st]. change (st_core (LState (BState c bs d) lg)) with c.
    rewrite acquire_ok by (rewrite Hc; apply not_elem_of_nil). by rewrite Hc. }
  assert (Er : ∀ ic, fs_core (release Lk_icache) (locked ic) = Done tt (FState (LState (BState c bs d) lg) sb ic)).
  { intros ic. unfold fs_core, in_st, zoom, locked. cbn [fs_st]. change (st_core (LState (BState (set_held [Lk_icache] c) bs d) lg)) with (set_held [Lk_icache] c).
    rewrite (release_head _ []) by (done || apply not_elem_of_nil). destruct c. cbn in *. by subst. }
  assert (Ei : iget ROOTDEV ROOTINO (FState (LState (BState c bs d) lg) sb (b_icache B)) =
    Done ip (FState (LState (BState c bs d) lg) sb (alter (fresh_inode ROOTDEV ROOTINO) ip (b_icache B)))).
  { unfold iget. rewrite (bind_done _ _ _ _ _ Ea). unfold bind at 1, gets. cbn [fs_icache locked]. rewrite Hip. unfold bind at 1, modify.
    change (upd_inode ip _ _) with (locked (alter (fresh_inode ROOTDEV ROOTINO) ip (b_icache B))). by rewrite (bind_done _ _ _ _ _ (Er _)). }
  assert (En : namex devread [slash] false (replicate 14 0) (FState (LState (BState c bs d) lg) sb (b_icache B)) =
    Done (Some ip, replicate 14 0) (FState (LState (BState c bs d) lg) sb (alter (fresh_inode ROOTDEV ROOTINO) ip (b_icache B)))).
  { unfold namex. etransitivity; [apply (bind_done _ _ _ _ _ Ei)|]. reflexivity. }
  unfold namei. by rewrite (bind_done _ _ _ _ _ En).
Qed.

(** ** The allocator and the page table of the kernel *)
Lemma in_mem_bind {A C} (m : K kst A) (f : A → K kst C) k : in_mem (bind m f) k = bind (in_mem m) (λ a, in_mem (f a)) k.
Proof.
  unfold in_mem, zoom, bind. destruct (m (k_mem k, k_core k)) as [a [m1 c1]| |]; [|done|done]. cbn [fst snd].
  change (k_mem (set_mem m1 (set_kcore c1 k)), k_core (set_mem m1 (set_kcore c1 k))) with (m1, c1).
  by destruct (f a (m1, c1)) as [b [m2 c2]| |ch [m2 c2]].
Qed.
Lemma kruns_mem_bind {A C} n B D (m : K kst A) (f : A → K kst C) Q :
  kruns n B D (bind (in_mem m) (λ a, in_mem (f a))) Q → kruns n B D (in_mem (bind m f)) Q.
Proof. intros Hm l k. rewrite in_mem_bind. apply Hm. Qed.

Lemma kernel_at_perm B D D' l k : D ≡ₚ D' → kernel_at kend B D l k → kernel_at kend B D' l k.
Proof.
  intros Hp []. split; try done; [intros v d Hv; apply ka_pages0; by rewrite Hp|]. by rewrite <- Hp.
Qed.
Lemma kruns_perm {A} n B D D' (m : K kstate A) Q : D ≡ₚ D' → kruns n B D' m Q → kruns n B D m Q.
Proof. intros Hp Hm l k Hk. apply Hm. by eapply kernel_at_perm. Qed.

Lemma kruns_kalloc B D : kruns 1 B D (in_mem kalloc) (λ v B' D', B' = B ∧ valid_page kend v ∧ ∃ d, D' = (v, d) :: D).
Proof.
  intros [|v l] k Hk Hl; [cbn in Hl; lia|]. destruct (kalloc_at _ _ _ _ _ Hk) as (k' & E & Hk' & Hv).
  eexists v, k', B, _, l. split; [done|]. split; [exact Hk'|]. split; [cbn; lia|]. split; [done|]. split; [done|]. by eexists.
Qed.
Lemma kruns_write B D v d h g : writes v h g → page_map h → kruns 0 B ((v, d) :: D) (in_mem (modify g)) (gives tt B ((v, h d) :: D)).
Proof.
  intros Hg Hh l k Hk _. exists tt, (set_mem (put_page v (h d) (k_mem k)) k), B, ((v, h d) :: D), l. split.
  - rewrite (in_mem_same _ _ tt (put_page v (h d) (k_mem k))); [done|]. unfold modify. rewrite Hg.
    by rewrite (proj2 (ka_pages _ _ _ _ _ Hk v d ltac:(left))).
  - split; [by apply write_at|]. by split; [lia|].
Qed.
Lemma kruns_entry B D v d i x :
  v mod PGSIZE = 0 → 0 ≤ i < 512 → kruns 0 B ((v, d) :: D) (in_mem (modify (store64 (entry_addr v i) x))) (gives tt B ((v, set_field (Z.to_nat (8 * i)) 8 x d) :: D)).
Proof. intros Hv Hi. apply kruns_write; [apply writes64; [done|unfold PGSIZE; lia]|apply field_page_map; unfold PGSIZE; lia]. Qed.

Ltac bsimpl := cbn [b_set_procs b_set_pid b_set_init b_set_icache b_set_space b_roots b_space b_files b_procs b_icache b_pid b_kpt b_init] in *.
Tactic Notation "kstep" tactic3(t) := eapply kruns_bind; [t|cbn; lia|intros ? ? ? (-> & -> & ->); bsimpl].

Lemma kruns_kvmalloc B D :
  kruns 2 B D (in_mem kvmalloc) (λ a B' D', B' = B ∧ valid_page kend (fst a) ∧ valid_page kend (snd a) ∧ ∃ d1 d2, D' = (snd a, d2) :: (fst a, d1) :: D).
Proof.
  unfold kvmalloc. apply kruns_mem_bind. eapply kruns_bind; [apply kruns_kalloc|lia|]. intros v1 ? ? (-> & Hv1 & d1 & ->).
  apply kruns_mem_bind. kstep (apply kruns_write; [apply writes_memset|apply zero_page_map]).
  apply kruns_mem_bind. eapply kruns_bind; [apply kruns_kalloc|cbn; lia|]. intros v2 ? ? (-> & Hv2 & d2 & ->).
  apply kruns_mem_bind. kstep (apply kruns_write; [apply writes_memset|apply zero_page_map]).
  apply kruns_mem_bind. eapply kruns_perm; [apply Permutation_swap|]. kstep (apply kruns_entry; [apply Hv1|done]).
  apply kruns_mem_bind. eapply kruns_perm; [apply Permutation_swap|]. kstep (apply kruns_entry; [apply Hv2|done]).
  apply kruns_mem_bind. kstep (apply kruns_entry; [apply Hv2|done]).
  intros l k Hk Hl. eexists _, k, B, _, l. split; [unfold in_mem, zoom, ret; cbn [fst snd]; rewrite set_kcore_id; by destruct k|].
  split; [exact Hk|]. split; [lia|]. split; [done|]. split; [done|]. split; [done|]. by eexists _, _.
Qed.

(** ** userinit *)

(** The first process: it starts at PGSIZE in user mode with interrupts enabled and its stack at the end of its page. *)
Definition first_proc (kstack pgdir pid : Z) (cwd : nat) (p : proc) : proc :=
  Proc (PGSIZE * 2) pgdir kstack RUNNABLE pid (p_parent p) (set_rcx PGSIZE (set_rsp (PGSIZE * 2) (set_r11 Proc.FL_IF trapframe0)))
    (p_chan p) (p_killed p) (p_ofile p) (Some cwd) (safestrcpy (p_name p) (bytes_ptr initcode_name) 16).
Definition first_space (pgdir : Z) (init : list Z) (space : Z → Z → option (page * Z)) (Q wa : Z) : option (page * Z) :=
  if decide (Q = pgdir ∧ wa / PGSIZE = 1) then Some (init_page init, user_flags) else if decide (Q = pgdir) then None else space Q wa.



Lemma kruns_userinit B D devread init i ip :
  find_state UNUSED (b_procs B) 0 = Some i → icache_find ROOTDEV ROOTINO (b_icache B) 0 None = (false, Some ip) →
  valid_page kend (snd (b_kpt B)) → Z.of_nat (length init) < PGSIZE → Forall is_byte init →
  kruns 6 B D (userinit devread init) (λ _ B' D', ∃ v d r, valid_page kend v ∧ D' = (v, d) :: D ∧ r ≠ 0 ∧
    B' = Base (r :: b_roots B) (first_space r init (b_space B)) (b_files B) (alter (first_proc v r (b_pid B) ip) i (b_procs B))
           (alter (fresh_inode ROOTDEV ROOTINO) ip (b_icache B)) (s32 (b_pid B + 1)) (b_kpt B) (Some i)).
Proof.
  intros Hi Hip Hkp Hinit Hb. destruct B as [R sp fs ps ic pid kpt ini]. bsimpl. unfold userinit. eapply kruns_bind; [by apply (kruns_allocproc _ _ i)|lia|].
  intros ? ? ? (v & d & -> & Hv & -> & ->). bsimpl. kstep (apply kruns_init). kstep (apply kruns_kpdpt).
  eapply kruns_bind; [by apply kruns_setupkvm|cbn; lia|]. intros r ? ? (-> & Hr & ->). bsimpl.
  kstep (apply kruns_proc). rewrite (proj2 (Z.eqb_neq _ _) Hr).
  kstep (apply kruns_inituvm; [left|done|done|by bsimpl; rewrite decide_True]).
  kstep (apply kruns_proc). kstep (apply kruns_proc). kstep (apply kruns_proc). kstep (apply kruns_root; exact Hip). kstep (apply kruns_proc).
  intros l k Hk Hl. destruct (kruns_proc _ _ i (set_state RUNNABLE) l k Hk ltac:(lia)) as (a & k' & B' & D' & l' & E & Hk' & Hl' & (-> & -> & ->)).
  eexists tt, k', _, _, l'. split; [exact E|]. split; [exact Hk'|]. split; [lia|]. exists v, d, r. split; [exact Hv|]. split; [reflexivity|]. split; [exact Hr|].
  bsimpl. rewrite !list_alter_alter_eq. f_equal.
Qed.
End kernel.
