(* ===== verification/MainTheorems.v ===== *)
(** * The kernel starts

    main returns to the scheduler with every processor of the table started, each with its
    own segments and local storage, and with the first process ready to run.  The
    initialisations are composed by triples over the invariant [booting]. *)

From stdpp Require Import functions.
From S2P Require Import Prelude Params CString Devices Core Pipe Kalloc Vm VmTree VmSpec VmUser VmTheorems Bio Log BlockStore Fs FsInodes Console ConsoleOut Frame Kernel File Proc ProcSched KernelInv Syscall Trap Asm AsmTheorems Smp SmpTheorems Main MainInit.

(** What a processor does with a command of another's interrupt command register: an INIT
    makes it wait for a STARTUP, which it takes once. *)
Definition ap_receive (v : Z) (x : ap) : ap :=
  if Z.land v 0x700 =? INIT then (if Z.land v ASSERT =? 0 then x else Ap_init)
  else if Z.land v 0x700 =? STARTUP then match x with Ap_init => Ap_start (Z.land v 0xff) | _ => x end
  else x.

(** The machine has several processors: each reads its own id from its local APIC, whatever
    the ports and the other registers do, and the APIC delivers an interrupt within [polls]
    reads of its status.  A command without a shorthand for its destination goes to the
    processor whose id is in the high half of the register. *)
Class ProcessorLaws (ctl : Type) `{Machine ctl} `{Processors ctl} (polls : nat) := {
  apic_id : ctl → Z;
  delivering : ctl → nat;
  id_as a c : apic_id (as_cpu a c) = a;
  id_outb p v c : apic_id (m_outb p v c) = apic_id c;
  id_inb p c : apic_id (snd (m_inb p c)) = apic_id c;
  id_lapicw i v c : apic_id (m_lapicw i v c) = apic_id c;
  id_lapicr i c : apic_id (snd (m_lapicr i c)) = apic_id c;
  id_read c : Z.shiftr (fst (m_lapicr ID c)) 24 = apic_id c;
  deliver c : Z.land (fst (m_lapicr ICRLO c)) DELIVS = 0 ∨ (delivering (snd (m_lapicr ICRLO c)) < delivering c)%nat;
  deliver_bound c : (delivering c ≤ polls)%nat;
  icr_target : ctl → Z;
  target_lapicr i c : icr_target (snd (m_lapicr i c)) = icr_target c;
  target_icrhi v c : icr_target (m_lapicw ICRHI v c) = Z.land (Z.shiftr v 24) 0xff;
  target_icrlo v c : icr_target (m_lapicw ICRLO v c) = icr_target c;
  ap_lapicr a i c : ap_of a (snd (m_lapicr i c)) = ap_of a c;
  ap_icrhi a v c : ap_of a (m_lapicw ICRHI v c) = ap_of a c;
  ap_icrlo a v c : Z.land v 0xc0800 = 0 → ap_of a (m_lapicw ICRLO v c) = if a =? icr_target c then ap_receive v (ap_of a c) else ap_of a c
}.

(** ** Segment descriptors *)

(** The base address that a processor takes from a descriptor, and the one of the 16-byte
    descriptor of a task state segment. *)
Definition desc_base (w : Z) : Z :=
  Z.land (Z.shiftr w 16) 0xffffff + 2 ^ 24 * Z.land (Z.shiftr w 56) 0xff.
Definition tss_base (lo hi : Z) : Z := desc_base lo + 2 ^ 32 * Z.land hi 0xffffffff.
(** The address in the operand of lgdt and lidt. *)
Definition desc_addr (pd : list Z) : Z := pd !!! 1%nat + 2 ^ 16 * (pd !!! 2%nat) + 2 ^ 32 * (pd !!! 3%nat) + 2 ^ 48 * (pd !!! 4%nat).

Lemma desc_base_sum l b t c :
  0 ≤ l < 2 ^ 16 → 0 ≤ b < 2 ^ 24 → 0 ≤ t < 2 ^ 16 → 0 ≤ c < 2 ^ 8 →
  desc_base (l + 2 ^ 16 * b + 2 ^ 40 * t + 2 ^ 56 * c) = b + 2 ^ 24 * c.
Proof.
  intros Hl Hb Ht Hc. unfold desc_base. change 0xffffff with (Z.ones 24). change 0xff with (Z.ones 8).
  rewrite !Z.land_ones, !Z.shiftr_div_pow2 by lia. f_equal; [|f_equal].
  - rewrite <- (Z.div_unique _ (2 ^ 16) (b + 2 ^ 24 * (t + 2 ^ 16 * c)) l) by lia.
    symmetry. apply (Z.mod_unique _ _ (t + 2 ^ 16 * c)); lia.
  - rewrite <- (Z.div_unique _ (2 ^ 56) c (l + 2 ^ 16 * b + 2 ^ 40 * t)) by lia. apply Z.mod_small. lia.
Qed.

Lemma low_mod a n k : 0 ≤ k ≤ n → (a mod 2 ^ n) mod 2 ^ k = a mod 2 ^ k.
Proof. intros Hk. apply Z.mod_mod_divide. exists (2 ^ (n - k)). rewrite <- Z.pow_add_r by lia. f_equal. lia. Qed.
Lemma mod_split a n k : 0 ≤ n → 0 ≤ k → a mod 2 ^ (n + k) = a mod 2 ^ n + 2 ^ n * ((a / 2 ^ n) mod 2 ^ k).
Proof. intros Hn Hk. rewrite Z.pow_add_r by done. apply Z.rem_mul_r; lia. Qed.

Lemma seg_base type lim base sys dpl rsv :
  desc_base (seg_bits (SEG type lim base sys dpl rsv)) = base mod 2 ^ 32.
Proof.
  unfold seg_bits, seg_fields, SEG.
  cbn [lim_15_0 base_15_0 base_23_16 sd_type sd_s sd_dpl sd_p lim_19_16 sd_avl rsv1 sd_db sd_g base_31_24 foldr fst snd].
  change 0xffff with (Z.ones 16). change 0xff with (Z.ones 8). unfold u32. rewrite !Z.land_ones, !Z.shiftr_div_pow2, !Z.mod_mod, low_mod by lia.
  set (t := type mod 2 ^ 4 + 2 ^ 4 * (sys mod 2 ^ 1) + 2 ^ 5 * (dpl mod 2 ^ 2) + 2 ^ 7 * (1 mod 2 ^ 1)
    + 2 ^ 8 * ((lim / 2 ^ 60) mod 2 ^ 4) + 2 ^ 12 * (0 mod 2 ^ 1) + 2 ^ 13 * (rsv mod 2 ^ 1) + 2 ^ 14 * (0 mod 2 ^ 1) + 2 ^ 15 * (1 mod 2 ^ 1)).
  assert (Ht : 0 ≤ t < 2 ^ 16).
  { pose proof (Z.mod_pos_bound type (2 ^ 4) eq_refl). pose proof (Z.mod_pos_bound sys (2 ^ 1) eq_refl). pose proof (Z.mod_pos_bound dpl (2 ^ 2) eq_refl).
    pose proof (Z.mod_pos_bound (lim / 2 ^ 60) (2 ^ 4) eq_refl). pose proof (Z.mod_pos_bound rsv (2 ^ 1) eq_refl). unfold t.
    change (1 mod 2 ^ 1) with 1. change (0 mod 2 ^ 1) with 0. lia. }
  pose proof (Z.mod_pos_bound lim (2 ^ 16) eq_refl) as H1. pose proof (Z.mod_pos_bound base (2 ^ 16) eq_refl) as H2.
  pose proof (Z.mod_pos_bound (base / 2 ^ 16) (2 ^ 8) eq_refl) as H3. pose proof (Z.mod_pos_bound (base / 2 ^ 24) (2 ^ 8) eq_refl) as H4.
  change 32 with (24 + 8). rewrite (mod_split base 24 8) by lia. change 24 with (16 + 8) at 2. rewrite (mod_split base 16 8) by lia.
  rewrite <- (desc_base_sum (lim mod 2 ^ 16) (base mod 2 ^ 16 + 2 ^ 16 * ((base / 2 ^ 16) mod 2 ^ 8)) t ((base / 2 ^ 24) mod 2 ^ 8)) by (lia || assumption).
  f_equal. unfold t. lia.
Qed.

Lemma seg_low type lim base sys dpl rsv : seg_bits (SEG type lim base sys dpl rsv) mod 2 ^ 32 = lim mod 2 ^ 16 + 2 ^ 16 * (base mod 2 ^ 16).
Proof.
  unfold seg_bits, seg_fields, SEG.
  cbn [lim_15_0 base_15_0 base_23_16 sd_type sd_s sd_dpl sd_p lim_19_16 sd_avl rsv1 sd_db sd_g base_31_24 foldr fst snd].
  change 0xffff with (Z.ones 16). unfold u32. rewrite !Z.land_ones, !Z.mod_mod, low_mod by lia.
  match goal with |- (?a + _ * (?b + _ * ?x)) mod _ = _ => set (y := x); clearbody y end.
  pose proof (Z.mod_pos_bound lim (2 ^ 16) eq_refl). pose proof (Z.mod_pos_bound base (2 ^ 16) eq_refl).
  symmetry. apply (Z.mod_unique _ _ y); lia.
Qed.

Lemma seg_tss_base a :
  0 ≤ a < 2 ^ 64 →
  tss_base (seg_bits (SEG STS_T64A 0xb a (lnot APP_SEG) DPL_USER 0)) (seg_bits (SEG 0 (Z.shiftr a 32) (Z.shiftr a 48) 0 0 0)) = a.
Proof.
  intros Ha. unfold tss_base. rewrite seg_base. change 0xffffffff with (Z.ones 32). rewrite Z.land_ones, seg_low by lia.
  rewrite !Z.shiftr_div_pow2 by lia. transitivity (a mod 2 ^ (32 + 32)); [|by apply Z.mod_small].
  rewrite (mod_split a 32 32) by lia. f_equal. f_equal. symmetry. etransitivity; [apply (mod_split _ 16 16); lia|].
  by rewrite Z.div_div by lia.
Qed.

Lemma pseudo_desc_addr a n : 0 ≤ a < 2 ^ 64 → desc_addr (pseudo_desc a n) = a.
Proof.
  intros Ha. unfold desc_addr, pseudo_desc, u16. cbn [lookup_total list_lookup_total].
  rewrite !Z.shiftr_div_pow2 by lia. transitivity (a mod 2 ^ (48 + 16)); [|by apply Z.mod_small].
  rewrite (mod_split a 48 16) by lia. pose proof (mod_split a 32 16) as E1. pose proof (mod_split a 16 16) as E2.
  change (32 + 16) with 48 in E1. change (16 + 16) with 32 in E2. rewrite E1, E2 by lia. lia.
Qed.

(** ** The invariant *)
Record rest := Rest {
  rs_cpus : list cpu_rec;
  rs_regs : list pregs;
  rs_self : Z;
  rs_idt : Z * list Z;
  rs_mem : mem
}.

(** An entry of the process table that was never used. *)
Definition zero_proc : proc := Proc 0 0 0 UNUSED 0 None trapframe0 Ch_null false (replicate NOFILE None) None (replicate 16 0).

Section boot.
Context {ctl : Type} `{Machine ctl} `{Processors ctl} (polls : nat) `{!ProcessorLaws ctl polls}.
Local Abbreviation st := (mstate ctl).
Variable kend : Z.
Hypothesis Hend : KERNBASE < kend ≤ KERNBASE + PHYSTOP.
Variables fl pc : Z.
Hypothesis Hfl : Z.land fl Smp.FL_IF = 0.
Variable lbl : label → Z.
(** The ids of the processors. *)
Variable ids : list Z.
Hypothesis Hids : NoDup ids.

Record smp_at (self : Z) (x : smp ctl) : Prop := {
  sa_cpus : take (Z.to_nat (s_ncpu x)) (s_cpus x) = ids;
  sa_ncpu : s_ncpu x = Z.of_nat (length ids);
  sa_lapic : s_lapic x ≠ 0;
  sa_self : 0 ≤ self ∧ ids !! Z.to_nat self = Some (apic_id (s_ctl x))
}.

Definition rest_of (s : st) : rest := Rest (ms_cpus s) (ms_regs s) (ms_self s) (ms_idt s) (s_mem (ms_smp s)).

Record booting (B : base) (D : list (Z * page)) (l : list Z) (s : st) : Prop := {
  bo_k : kernel_at kend B D l (ms_k s);
  bo_smp : smp_at (ms_self s) (ms_smp s)
}.

(** From the allocated pages [D] and the rest [r], with [n] free pages. *)
Definition boots {A} (B : base) (n : nat) (D : list (Z * page)) (r : rest) (m : K st A) (Q : A → list (Z * page) → rest → Prop) : Prop :=
  ∀ l s, booting B D l s → rest_of s = r → (n ≤ length l)%nat →
  ∃ a s' D' l', m s = Done a s' ∧ booting B D' l' s' ∧ (length l ≤ n + length l')%nat ∧ Q a D' (rest_of s').

Lemma boots_ret {A} B D r (a : A) (Q : A → list (Z * page) → rest → Prop) : Q a D r → boots B 0 D r (ret a) Q.
Proof. intros HQ l s Hb <- _. exists a, s, D, l. by split_and!; [done|done|lia|]. Qed.

Lemma boots_bind {A C} B n1 n D r (m : K st A) (k : A → K st C) Q1 Q :
  boots B n1 D r m Q1 → (n1 ≤ n)%nat → (∀ a D' r', Q1 a D' r' → boots B (n - n1) D' r' (k a) Q) → boots B n D r (bind m k) Q.
Proof.
  intros Hm Hn Hk l s Hb Hr Hl. destruct (Hm l s Hb Hr ltac:(lia)) as (a & s1 & D1 & l1 & E1 & Hb1 & Hl1 & HQ1).
  destruct (Hk a D1 (rest_of s1) HQ1 l1 s1 Hb1 eq_refl ltac:(lia)) as (c & s2 & D2 & l2 & E2 & Hb2 & Hl2 & HQ2).
  exists c, s2, D2, l2. split; [by rewrite (bind_done _ _ _ _ _ E1)|]. split; [done|]. split; [lia|done].
Qed.

Lemma boots_mono {A} B n n' D r (m : K st A) (Q Q' : A → list (Z * page) → rest → Prop) :
  boots B n D r m Q → (n ≤ n')%nat → (∀ a D' r', Q a D' r' → Q' a D' r') → boots B n' D r m Q'.
Proof.
  intros Hm Hn HQ l s Hb Hr Hl. destruct (Hm l s Hb Hr ltac:(lia)) as (a & s1 & D1 & l1 & E1 & Hb1 & Hl1 & HQ1).
  exists a, s1, D1, l1. split_and!; [done|done|lia|auto].
Qed.

(** What gives [a] and changes nothing that the invariant speaks of. *)
Definition keeps {A} (a : A) (D : list (Z * page)) (r : rest) : A → list (Z * page) → rest → Prop := λ a' D' r', a' = a ∧ D' = D ∧ r' = r.

Lemma boots_gets {A} B D r (f : st → A) (a : A) : (∀ s, rest_of s = r → f s = a) → boots B 0 D r (gets f) (keeps a D r).
Proof. intros Hf l s Hb <- _. exists (f s), s, D, l. split; [done|]. split; [done|]. split; [lia|]. split; [by apply Hf|done]. Qed.

(** The rest of the state *)
Lemma boots_cpu B D r i f :
  boots B 0 D r (upd_cpu i f) (keeps tt D (Rest (alter f (Z.to_nat i) (rs_cpus r)) (rs_regs r) (rs_self r) (rs_idt r) (rs_mem r))).
Proof. intros l s Hb <- _. eexists tt, _, D, l. split; [done|]. split; [|by split; [lia|]]. by destruct Hb. Qed.

Lemma boots_regs B D r f :
  boots B 0 D r (upd_regs f)
    (keeps tt D (Rest (rs_cpus r) (alter f (Z.to_nat (rs_self r)) (rs_regs r)) (rs_self r) (rs_idt r) (rs_mem r))).
Proof. intros l s Hb <- _. eexists tt, _, D, l. split; [done|]. split; [|by split; [lia|]]. by destruct Hb. Qed.

(** The kernel, but for its memory. *)
Definition quiet_k (f : kstate → kstate) : Prop := ∀ B D l k, kernel_at kend B D l k → kernel_at kend B D l (f k).
Lemma boots_quiet {A} B D r (m : K kstate A) (a : A) f :
  quiet_k f → (∀ k, m k = Done a (f k)) → boots B 0 D r (in_k m) (keeps a D r).
Proof.
  intros Hf Hm l s [Hk Hs] <- _. exists a, (set_k (f (ms_k s)) s), D, l. split; [unfold in_k, zoom; by rewrite Hm|].
  split; [split; [by apply Hf|done]|]. by split; [lia|].
Qed.

Lemma boots_dev B D r f : (∀ d, d_panicked (f d) = d_panicked d) → boots B 0 D r (on_dev f) (keeps tt D r).
Proof.
  intros Hf. apply (boots_quiet _ _ _ _ _ (λ k, set_kcore (set_dev (f (c_dev (k_core k))) (k_core k)) k)); [|done].
  intros B' D' l k Hk. apply kernel_at_dev; [done|]. rewrite Hf. apply Hk.
Qed.

(** The machine *)
Definition smp_same (x x' : smp ctl) : Prop :=
  (∃ d, s_core x' = set_dev d (s_core x) ∧ d_panicked d = d_panicked (c_dev (s_core x))) ∧
  s_cpus x' = s_cpus x ∧ s_ncpu x' = s_ncpu x ∧ s_lapic x' = s_lapic x ∧ apic_id (s_ctl x') = apic_id (s_ctl x) ∧ s_mem x' = s_mem x.

Record smp_ready (self : Z) (x : smp ctl) : Prop := {
  sr_held : c_held (s_core x) = [];
  sr_panicked : d_panicked (c_dev (s_core x)) = false;
  sr_at : smp_at self x
}.

Lemma boots_smp {A} B D r (m : K (smp ctl) A) (a : A) :
  (∀ x, smp_ready (rs_self r) x → ∃ x', m x = Done a x' ∧ smp_same x x') → boots B 0 D r (in_smp m) (keeps a D r).
Proof.
  intros Hm l s [Hk Hs] <- _. set (x := set_s_core (k_core (ms_k s)) (ms_smp s)).
  destruct (Hm x) as (x' & E & (d & Ed & Hd) & E1 & E2 & E3 & E4 & E5).
  { split; [apply Hk|apply Hk|]. by destruct Hs. }
  exists a, (set_smp x' (set_k (set_kcore (s_core x') (ms_k s)) s)), D, l.
  split; [unfold in_smp, zoom; fold x; by rewrite E|].
  split; [|split; [lia|]; split; [done|split; [done|]]; unfold rest_of; cbn [ms_smp set_smp]; by rewrite E5]. split.
  - cbn [ms_k set_smp set_k]. rewrite Ed. apply kernel_at_dev; [done|]. rewrite Hd. apply Hk.
  - cbn [ms_smp set_smp set_k ms_self]. destruct Hs as [H1 H2 H3 H4]. split; rewrite ?E1, ?E2, ?E3, ?E4; done.
Qed.

(** ** The functions of lapic.c and mp.c *)
Definition calm {A} (m : K (smp ctl) A) : Prop := ∀ self x, smp_ready self x → ∃ a x', m x = Done a x' ∧ smp_same x x'.

Lemma smp_same_refl x : smp_same x x.
Proof. split; [|done]. exists (c_dev (s_core x)). split; [by destruct (s_core x)|done]. Qed.
Lemma smp_same_trans x y z : smp_same x y → smp_same y z → smp_same x z.
Proof.
  intros ((d & E & Hd) & E1 & E2 & E3 & E4 & E5) ((d' & E' & Hd') & E1' & E2' & E3' & E4' & E5').
  split; [|split_and!; congruence]. exists d'. rewrite E', E. split; [done|]. rewrite Hd', E. exact Hd.
Qed.
Lemma smp_same_ready self x y : smp_same x y → smp_ready self x → smp_ready self y.
Proof.
  intros ((d & E & Hd) & E1 & E2 & E3 & E4 & E5) [H1 H2 [A1 A2 A3 A4]]. split.
  - by rewrite E.
  - by rewrite E, <- H2.
  - split; rewrite ?E1, ?E2, ?E3, ?E4; done.
Qed.
Lemma smp_same_ctl x c : apic_id c = apic_id (s_ctl x) → smp_same x (set_s_ctl c x).
Proof. intros Hc. split; [|done]. exists (c_dev (s_core x)). split; [by destruct x as [[]]|done]. Qed.

Lemma calm_ret {A} (a : A) : calm (ret a).
Proof. intros self x _. exists a, x. split; [done|apply smp_same_refl]. Qed.
Lemma calm_bind {A C} (m : K (smp ctl) A) (k : A → K (smp ctl) C) : calm m → (∀ a, calm (k a)) → calm (bind m k).
Proof.
  intros Hm Hk self x Hx. destruct (Hm self x Hx) as (a & y & E & S1). destruct (Hk a self y (smp_same_ready _ _ _ S1 Hx)) as (c & z & E' & S2).
  exists c, z. split; [by rewrite (bind_done _ _ _ _ _ E)|by eapply smp_same_trans].
Qed.
Lemma calm_gets {A} (f : smp ctl → A) : calm (gets f).
Proof. intros self x _. exists (f x), x. split; [done|apply smp_same_refl]. Qed.
Lemma calm_if {A} (b : bool) (m m' : K (smp ctl) A) : calm m → calm m' → calm (if b then m else m').
Proof. by destruct b. Qed.
Lemma calm_outb p v : calm (s_outb p v).
Proof. intros self x _. eexists tt, _. split; [done|]. apply smp_same_ctl, id_outb. Qed.
Lemma calm_lapicr i : calm (s_lapicr i).
Proof.
  intros self x _. unfold s_lapicr. pose proof (id_lapicr i (s_ctl x)) as E. destruct (m_lapicr i (s_ctl x)) as [v c].
  eexists v, _. split; [done|]. by apply smp_same_ctl.
Qed.
Lemma calm_lapicw i v : calm (lapicw i v).
Proof.
  apply calm_bind; [|intros _; apply calm_bind; [apply calm_lapicr|intros _; apply calm_ret]].
  intros self x _. eexists tt, _. split; [done|]. apply smp_same_ctl, id_lapicw.
Qed.

Lemma wait_delivered_calm n : ∀ x, (delivering (s_ctl x) ≤ n)%nat → ∃ x', wait_delivered n x = Done tt x' ∧ smp_same x x'.
Proof.
  induction n as [|n IH]; intros x Hn; cbn [wait_delivered]; unfold bind, s_lapicr; pose proof (deliver (s_ctl x)) as Hd;
    pose proof (id_lapicr ICRLO (s_ctl x)) as Hi; destruct (m_lapicr ICRLO (s_ctl x)) as [v c]; cbn [fst snd] in Hd, Hi;
    (destruct Hd as [->|Hd]; [eexists; split; [reflexivity|by apply smp_same_ctl]|]).
  - lia.
  - destruct (Z.land v DELIVS =? 0); [eexists; split; [reflexivity|by apply smp_same_ctl]|].
    destruct (IH (set_s_ctl c x)) as (x' & E & S'); [cbn; lia|]. exists x'. split; [exact E|].
    eapply smp_same_trans; [|exact S']. by apply smp_same_ctl.
Qed.
Lemma calm_wait : calm (wait_delivered polls).
Proof. intros self x _. destruct (wait_delivered_calm polls x (deliver_bound _)) as (x' & E & S'). by exists tt, x'. Qed.

Create HintDb calm.
#[local] Hint Resolve calm_ret calm_bind calm_gets calm_if calm_outb calm_lapicr calm_lapicw calm_wait : calm.
Lemma calm_lapicinit : calm (lapicinit polls).
Proof. unfold lapicinit. auto 50 with calm. Qed.

Lemma lapicw_done i v x : lapicw i v x = Done tt (set_s_ctl (snd (m_lapicr ID (m_lapicw i v (s_ctl x)))) x).
Proof. unfold lapicw, bind, modify, s_lapicr. cbn [s_ctl set_s_ctl]. by destruct (m_lapicr ID _). Qed.

(** The machine after [lapicw ICRHI] and [lapicw ICRLO]. *)
Definition icr_hi (v : Z) (c : ctl) : ctl := snd (m_lapicr ID (m_lapicw ICRHI v c)).
Definition icr_lo (v : Z) (c : ctl) : ctl := snd (m_lapicr ID (m_lapicw ICRLO v c)).
Lemma send_startup_done a addr x :
  send_startup a addr x = Done tt (set_s_ctl (icr_lo (Z.lor STARTUP (Z.shiftr addr 12)) (icr_hi (Z.shiftl a 24) (s_ctl x))) x).
Proof. unfold send_startup. by do 2 rewrite (bind_done _ _ _ _ _ (lapicw_done _ _ _)). Qed.
Definition told (a : Z) (x : ap) (c c' : ctl) : Prop := apic_id c' = apic_id c ∧ icr_target c' = a ∧ ap_of a c' = x.
Lemma told_hi a c : is_byte a → told a (ap_of a c) c (icr_hi (Z.shiftl a 24) c).
Proof.
  intros Ha. unfold icr_hi. split; [by rewrite id_lapicr, id_lapicw|]. rewrite target_lapicr, target_icrhi, ap_lapicr, ap_icrhi. split; [|done].
  rewrite Z.shiftr_shiftl_l, Z.shiftl_0_r by lia. change 0xff with (Z.ones 8). rewrite Z.land_ones by lia. apply Z.mod_small. exact Ha.
Qed.
Lemma told_lo a x v c c' : told a x c c' → Z.land v 0xc0800 = 0 → told a (ap_receive v x) c (icr_lo v c').
Proof.
  intros (H1 & H2 & H3) Hv. unfold icr_lo. split; [by rewrite id_lapicr, id_lapicw|]. rewrite target_lapicr, target_icrlo, ap_lapicr, ap_icrlo by done.
  by rewrite H2, Z.eqb_refl, H3.
Qed.
Lemma told_again a x c c' : is_byte a → told a x c c' → told a x c (icr_hi (Z.shiftl a 24) c').
Proof. intros Ha (H1 & H2 & H3). destruct (told_hi a c' Ha) as (K1 & K2 & K3). split; [congruence|]. split; congruence. Qed.

(** The warm reset vector, and the command with the STARTUP. *)
Definition reset_vector (addr : Z) (m : mem) : mem :=
  let wrv := P2V (Z.lor (Z.shiftl 0x40 4) 0x67) in
  store (store (store (store m wrv 0) (wrv + 1) 0) (wrv + 2) (u8 (Z.shiftr addr 4))) (wrv + 3) (u8 (Z.shiftr addr 12)).

(** lapicstartap starts the processor with the id [a] at 0x7000. *)
Lemma lapicstartap_runs a x :
  is_byte a → ∃ c, lapicstartap a 0x7000 x = Done tt (set_s_ctl c (set_s_mem (reset_vector 0x7000 (s_mem x)) x)) ∧
    apic_id c = apic_id (s_ctl x) ∧ ap_of a c = Ap_start 7.
Proof.
  intros Ha. set (c0 := m_outb (CMOS_PORT + 1) 0x0a (m_outb CMOS_PORT 0xf (s_ctl x))).
  set (start := Z.lor STARTUP (Z.shiftr 0x7000 12)).
  set (c1 := icr_lo (Z.lor INIT LEVEL) (icr_lo (Z.lor (Z.lor INIT LEVEL) ASSERT) (icr_hi (Z.shiftl a 24) c0))).
  set (c2 := icr_lo start (icr_hi (Z.shiftl a 24) c1)). set (c3 := icr_lo start (icr_hi (Z.shiftl a 24) c2)).
  assert (H1 : told a Ap_init c0 c1) by (apply (told_lo a Ap_init); [apply (told_lo a (ap_of a c0)); [by apply told_hi|done]|done]).
  assert (H2 : told a (Ap_start 7) c0 c2) by (apply (told_lo a Ap_init); [by apply told_again|done]).
  assert (H3 : told a (Ap_start 7) c0 c3) by (apply (told_lo a (Ap_start 7)); [by apply told_again|done]).
  exists c3. split; [|split; [|apply H3]].
  - unfold lapicstartap, microdelay. rewrite (bind_done (s_outb _ _) _ _ _ _ eq_refl), (bind_done (s_outb _ _) _ _ _ _ eq_refl).
    cbv zeta. do 2 rewrite (bind_done (modify _) _ _ _ _ eq_refl). do 2 rewrite (bind_done _ _ _ _ _ (lapicw_done _ _ _)).
    rewrite (bind_done (ret tt) _ _ _ _ eq_refl), (bind_done _ _ _ _ _ (lapicw_done _ _ _)), (bind_done (ret tt) _ _ _ _ eq_refl).
    rewrite (bind_done _ _ _ _ _ (send_startup_done _ _ _)), send_startup_done. by destruct x.
  - rewrite (proj1 H3). unfold c0. by rewrite !id_outb.
Qed.

Lemma boots_calm B D r (m : K (smp ctl) unit) : calm m → boots B 0 D r (in_smp m) (keeps tt D r).
Proof. intros Hm. apply boots_smp. intros x Hx. destruct (Hm _ x Hx) as ([] & x' & ?). by exists x'. Qed.

Lemma boots_printf B D r fmt ap t : format fmt ap = Some t → boots B 0 D r (in_smp (s_printf fmt ap)) (keeps tt D r).
Proof.
  intros Ht. apply boots_smp. intros x [Hh Hp _]. eexists. split; [apply (s_printf_ok _ _ _ _ Ht Hp)|].
  { rewrite Hh. apply not_elem_of_nil. }
  split; [|done]. eexists. split; [done|]. apply put_chars_panicked.
Qed.

Lemma boots_cpunum B D r : boots B 0 D r (m_cpunum fl pc) (keeps (rs_self r) D r).
Proof.
  apply boots_smp. intros x [_ _ [A1 A2 A3 [A4 A5]]]. unfold Smp.cpunum, bind, gets, s_lapicr. rewrite Hfl. cbn [negb Z.eqb ret].
  rewrite (proj2 (Z.eqb_neq _ _) A3). pose proof (id_read (s_ctl x)) as Hr. pose proof (id_lapicr ID (s_ctl x)) as Hi.
  destruct (m_lapicr ID (s_ctl x)) as [v c]. cbn [fst snd s_cpus s_ncpu set_s_ctl] in *. rewrite Hr.
  pose proof A5 as A6. rewrite <- A1 in A6. apply lookup_take_Some in A6 as [A6 A7].
  rewrite (find_apicid_ok _ _ 0 (Z.to_nat (rs_self r))) by (rewrite ?Z.sub_0_r, ?A1; (done || lia)).
  eexists. split; [unfold ret; do 2 f_equal; lia|]. by apply smp_same_ctl.
Qed.

Lemma boots_kalloc B D r :
  boots B 1 D r (in_k (in_mem kalloc)) (λ v D' r', (∃ d, D' = (v, d) :: D) ∧ r' = r ∧ valid_page kend v ∧ v ∉ D.*1).
Proof.
  intros [|v l] s [Hk Hs] <- Hl; [cbn in Hl; lia|]. destruct (kalloc_at kend Hend _ _ _ _ _ Hk) as (k' & E & Hk' & Hv).
  eexists v, (set_k k' s), _, l. split; [unfold in_k, zoom; by rewrite E|]. split; [split; [exact Hk'|done]|].
  split; [cbn; lia|]. split; [by eexists|]. split; [done|]. split; [done|].
  by pose proof (ka_nodup _ _ _ _ _ Hk') as [? _]%NoDup_cons.
Qed.

Lemma boots_write B D r v d h g :
  writes v h g → page_map h → boots B 0 ((v, d) :: D) r (in_k (in_mem (modify g))) (keeps tt ((v, h d) :: D) r).
Proof.
  intros Hg Hh l s [Hk Hs] <- _. exists tt, (set_k (set_mem (put_page v (h d) (k_mem (ms_k s))) (ms_k s)) s), ((v, h d) :: D), l.
  split.
  - unfold in_k, zoom. rewrite (in_mem_same _ _ tt (put_page v (h d) (k_mem (ms_k s)))); [done|]. unfold modify. rewrite Hg.
    by rewrite (proj2 (ka_pages _ _ _ _ _ Hk v d ltac:(left))).
  - split; [split; [by apply write_at|done]|]. by split; [lia|].
Qed.

(** ** seginit *)

(** A page with a global descriptor table and a task state segment, as seginit fills it. *)
Definition local_page (v : Z) : page :=
  set_field (Z.to_nat (8 * (SEG_TSS + 1))) 8 (seg_bits (SEG 0 (Z.shiftr (v + 1024) 32) (Z.shiftr (v + 1024) 48) 0 0 0))
  (set_field (Z.to_nat (8 * SEG_TSS)) 8 (seg_bits (SEG STS_T64A 0xb (v + 1024) (lnot APP_SEG) DPL_USER 0))
  (set_field (Z.to_nat (8 * SEG_KCPU)) 8 (seg_bits segdesc0)
  (set_field (Z.to_nat (8 * SEG_UCODE)) 8 (seg_bits (SEG (Z.lor STA_X STA_R) 0 0 APP_SEG DPL_USER 1))
  (set_field (Z.to_nat (8 * SEG_UDATA)) 8 (seg_bits (SEG STA_W 0 0 APP_SEG DPL_USER 0))
  (set_field (Z.to_nat (8 * SEG_UCODE32)) 8 (seg_bits segdesc0)
  (set_field (Z.to_nat (8 * SEG_KDATA)) 8 (seg_bits (SEG STA_W 0 0 APP_SEG (lnot DPL_USER) 0))
  (set_field (Z.to_nat (8 * SEG_KCODE)) 8 (seg_bits (SEG (Z.lor STA_X STA_R) 0 0 APP_SEG (lnot DPL_USER) 1))
  (set_field (Z.to_nat (8 * 0)) 8 (seg_bits segdesc0)
  (set_field (Z.to_nat (1024 + 4 * 16)) 4 0x00680000 zero_page))))))))).

Definition seg_regs (v self : Z) (g : pregs) : pregs :=
  PRegs (pseudo_desc v ((NSEGS + 1) * 8)) (r_idtr g) (Z.shiftl SEG_TSS 3) (set_msr 0xC0000100 (u64 (v + 2048)) (r_asm g)) self.
Definition seg_rest (v : Z) (r : rest) : rest :=
  Rest (alter (λ x, CpuRec (cpu_started x) v) (Z.to_nat (rs_self r)) (rs_cpus r)) (alter (seg_regs v (rs_self r)) (Z.to_nat (rs_self r)) (rs_regs r))
    (rs_self r) (rs_idt r) (rs_mem r).

Lemma boots_gdt B D r v d i x :
  v mod PGSIZE = 0 → 0 ≤ i < 512 → boots B 0 ((v, d) :: D) r (gdt_set v i x) (keeps tt ((v, set_field (Z.to_nat (8 * i)) 8 (seg_bits x) d) :: D) r).
Proof. intros Hv Hi. apply boots_write; [apply writes64; [done|unfold PGSIZE; lia]|apply field_page_map; unfold PGSIZE; lia]. Qed.

Lemma boots_no_proc B D r :
  boots B 0 D r (in_k (k_locks (modify (λ c, Core (c_held c) (c_procs c) None (c_dev c))))) (keeps tt D r).
Proof.
  apply (boots_quiet _ _ _ _ _ (λ k, set_kcore (let c := k_core k in Core (c_held c) (c_procs c) None (c_dev c)) k)); [|done].
  intros B' D' l k []. by split.
Qed.

Tactic Notation "bstep" tactic3(t) := eapply boots_bind; [t|cbn; lia|intros ? ? ? (-> & -> & ->)].

Lemma boots_seginit B D r :
  boots B 1 D r (seginit fl pc) (λ _ D' r', ∃ v, valid_page kend v ∧ v ∉ D.*1 ∧ D' = (v, local_page v) :: D ∧ r' = seg_rest v r).
Proof.
  unfold seginit. eapply boots_bind; [apply boots_kalloc|lia|]. intros v D1 r1 ((d & ->) & -> & Hv & HvD). cbv zeta.
  assert (Hm : v mod PGSIZE = 0) by apply Hv. change (1 - 1)%nat with 0%nat.
  bstep (apply boots_write; [apply writes_memset|apply zero_page_map]).
  rewrite <- Z.add_assoc. bstep (apply boots_write; [apply writes32; [done|unfold PGSIZE; lia]|apply field_page_map; unfold PGSIZE; lia]).
  bstep (apply boots_regs). bstep (apply boots_cpunum). bstep (apply boots_cpu). bstep (apply boots_regs). bstep (apply boots_no_proc).
  do 9 bstep (apply boots_gdt; [done|done]).
  bstep (apply boots_regs). eapply boots_mono; [apply boots_regs|done|]. intros ? ? ? (-> & -> & ->). exists v. split; [done|]. split; [done|].
  cbn [rs_cpus rs_regs rs_self rs_idt rs_mem]. split; [done|]. unfold seg_rest. f_equal. by rewrite !list_alter_alter_eq.
Qed.

(** ** The other processors *)
Hypothesis Hncpu : (length ids ≤ NCPU)%nat.

Section others.
Variable apcode : list Z.
Hypothesis Hbytes : Forall is_byte ids.

Definition with_self (i : Z) (r : rest) : rest := Rest (rs_cpus r) (rs_regs r) i (rs_idt r) (rs_mem r).
Definition rest_ok (r : rest) : Prop := length (rs_cpus r) = NCPU ∧ length (rs_regs r) = NCPU ∧ 0 ≤ rs_self r < Z.of_nat (length ids).

(** The registers and the struct cpu of a processor that is ready for the scheduler. *)
Definition ready_regs (idt v self : Z) (g : pregs) : pregs :=
  PRegs (pseudo_desc v ((NSEGS + 1) * 8)) (pseudo_desc idt PGSIZE) (Z.shiftl SEG_TSS 3)
    (syscallinit lbl (set_msr 0xC0000100 (u64 (v + 2048)) (r_asm g))) self.
Definition ready_rest (v : Z) (r : rest) : rest :=
  Rest (alter (λ x, CpuRec 1 v) (Z.to_nat (rs_self r)) (rs_cpus r))
    (alter (ready_regs (fst (rs_idt r)) v (rs_self r)) (Z.to_nat (rs_self r)) (rs_regs r)) (rs_self r) (rs_idt r) (rs_mem r).

Lemma boots_switchkvm B D r : boots B 0 D r (in_k switchkvm) (keeps tt D r).
Proof. apply (boots_quiet _ _ _ _ _ (λ k, set_cr3 (V2P (k_kpml4 k)) k)); [|done]. intros B' D' l k []. by split. Qed.

Lemma boots_idtinit B D r :
  boots B 0 D r idtinit (keeps tt D (Rest (rs_cpus r)
    (alter (λ g, PRegs (r_gdtr g) (pseudo_desc (fst (rs_idt r)) PGSIZE) (r_tr g) (r_asm g) (r_cpu g)) (Z.to_nat (rs_self r)) (rs_regs r)) (rs_self r) (rs_idt r) (rs_mem r))).
Proof. unfold idtinit. bstep (apply (boots_gets _ _ _ _ (fst (rs_idt r))); by intros s <-). apply boots_regs. Qed.

Lemma boots_mpmain B D r g :
  rs_regs r !! Z.to_nat (rs_self r) = Some g → r_cpu g = rs_self r →
  boots B 0 D r (mpmain fl pc lbl)
    (keeps tt D (Rest (alter (λ x, CpuRec 1 (cpu_local x)) (Z.to_nat (rs_self r)) (rs_cpus r))
      (alter (λ g, PRegs (r_gdtr g) (pseudo_desc (fst (rs_idt r)) PGSIZE) (r_tr g) (syscallinit lbl (r_asm g)) (r_cpu g)) (Z.to_nat (rs_self r)) (rs_regs r))
      (rs_self r) (rs_idt r) (rs_mem r))).
Proof.
  intros Hg Hc. unfold mpmain. bstep (apply boots_cpunum). bstep (eapply boots_printf; reflexivity).
  bstep (apply boots_idtinit).
  bstep (apply boots_regs). cbn [rs_cpus rs_regs rs_self rs_idt rs_mem]. rewrite list_alter_alter_eq.
  bstep (apply (boots_gets _ _ _ _ (rs_self r)); intros s Hs).
  { destruct s as [k x cs rs self idt]. unfold rest_of in Hs. cbn in Hs. injection Hs as -> -> -> ->. cbn [ms_regs ms_self].
    rewrite list_lookup_total_alt, list_lookup_alter_eq, Hg. exact Hc. }
  apply boots_cpu.
Qed.

Lemma boots_mpenter B D r :
  rest_ok r →
  boots B 1 D r (mpenter fl pc lbl polls) (λ _ D' r', ∃ v, valid_page kend v ∧ v ∉ D.*1 ∧ D' = (v, local_page v) :: D ∧ r' = ready_rest v r).
Proof.
  intros (Hc & Hr & Hs). unfold mpenter. bstep (apply boots_switchkvm).
  eapply boots_bind; [apply boots_seginit|lia|]. intros ? ? ? (v & Hv & HvD & -> & ->).
  bstep (apply boots_calm, calm_lapicinit).
  destruct (lookup_lt_is_Some_2 (rs_regs r) (Z.to_nat (rs_self r))) as [g Hg]; [lia|].
  eapply boots_mono; [apply (boots_mpmain _ _ _ (seg_regs v (rs_self r) g))|lia|].
  - cbn [seg_rest rs_regs rs_self]. by rewrite list_lookup_alter_eq, Hg.
  - done.
  - intros ? ? ? (_ & -> & ->). exists v. split; [done|]. split; [done|]. split; [done|].
    unfold ready_rest, seg_rest. cbn [rs_cpus rs_regs rs_self rs_idt rs_mem]. by rewrite !list_alter_alter_eq.
Qed.

(** Another processor runs. *)
Lemma boots_go B D r i :
  0 ≤ i < Z.of_nat (length ids) →
  boots B 0 D r (modify (set_self i) ;;; in_smp (modify (λ x, set_s_ctl (as_cpu (s_cpus x !!! Z.to_nat i) (s_ctl x)) x))) (keeps tt D (with_self i r)).
Proof.
  intros Hi l s [Hk [A1 A2 A3 A4]] <- _. eexists tt, _, D, l. split; [reflexivity|]. split; [|by split; [lia|]]. split.
  - cbn [ms_k set_smp set_k s_core set_s_ctl set_s_core set_self]. by rewrite set_kcore_id.
  - split; [done|done|done|]. split; [cbn; lia|]. cbn [ms_self ms_smp set_smp set_k s_ctl set_s_ctl s_cpus set_s_core set_self]. rewrite id_as.
    destruct (lookup_lt_is_Some_2 ids (Z.to_nat i)) as [a Ha]; [lia|]. rewrite Ha. f_equal. symmetry. apply list_lookup_total_correct.
    rewrite <- A1 in Ha. by apply lookup_take_Some in Ha as [Ha _].
Qed.

Lemma boots_self {A} B n D r (m : K st A) Q : (0 ≤ rs_self r < Z.of_nat (length ids) → boots B n D r m Q) → boots B n D r m Q.
Proof.
  intros Hm l s Hb Hr. apply Hm; [|done|done]. destruct Hb as [_ [_ _ _ [A4 A5]]]. subst r. apply lookup_lt_Some in A5. cbn. lia.
Qed.
Lemma boots_gets_any {A C} B n D r (f : st → A) (k : A → K st C) Q : (∀ a, boots B n D r (k a) Q) → boots B n D r (bind (gets f) k) Q.
Proof. intros Hk l s. apply Hk. Qed.
Lemma boots_cr3 B D r x : boots B 0 D r (in_k (modify (set_cr3 x))) (keeps tt D r).
Proof. apply (boots_quiet _ _ _ _ _ (set_cr3 x)); [|done]. intros B' D' l k []. by split. Qed.

Lemma boots_run_on B n D r i m Q :
  0 ≤ i < Z.of_nat (length ids) → boots B n D (with_self i r) m Q →
  boots B n D r (run_on i m) (λ a D' r', ∃ r1, Q a D' r1 ∧ r' = with_self (rs_self r) r1).
Proof.
  intros Hi Hm. apply boots_self. intros Hself. unfold run_on.
  bstep (apply (boots_gets _ _ _ _ (rs_self r)); by intros s <-). rewrite Nat.sub_0_r. apply boots_gets_any. intros cr3.
  bstep (apply boots_go; done). rewrite Nat.sub_0_r. eapply boots_bind; [exact Hm|done|]. intros [] D1 r1 HQ. rewrite Nat.sub_diag.
  bstep (apply boots_go; done). eapply boots_mono; [apply boots_cr3|done|]. intros [] ? ? (_ & -> & ->). by exists r1.
Qed.

(** Processor [i] is ready, with its local storage in the page [v] of its own. *)
Definition ready_cpu (D : list (Z * page)) (r : rest) (j : nat) (v : Z) : Prop :=
  (v, local_page v) ∈ D ∧ valid_page kend v ∧ rs_cpus r !! j = Some (CpuRec 1 v) ∧
  ∃ g, rs_regs r !! j = Some (ready_regs (fst (rs_idt r)) v (Z.of_nat j) g).
(** The one that runs main has not come to mpmain yet. *)
Definition main_cpu (D : list (Z * page)) (r : rest) (j : nat) (v : Z) : Prop :=
  (v, local_page v) ∈ D ∧ valid_page kend v ∧ rs_cpus r !! j = Some (CpuRec 0 v) ∧
  ∃ g, rs_regs r !! j = Some (seg_regs v (Z.of_nat j) g).

(** The processors below [i] are ready; [L] are their pages. *)
Record started_to (i self : nat) (L : nat → Z) (D : list (Z * page)) (r : rest) : Prop := {
  sd_ok : rest_ok r;
  sd_self : rs_self r = Z.of_nat self;
  sd_idt : valid_page kend (fst (rs_idt r));
  sd_main : main_cpu D r self (L self);
  sd_ready : ∀ j, (j < i)%nat → j ≠ self → ready_cpu D r j (L j);
  sd_later : ∀ j, (i ≤ j < length ids)%nat → j ≠ self → ∃ v, rs_cpus r !! j = Some (CpuRec 0 v);
  sd_distinct : ∀ j j', (j < i ∨ j = self)%nat → (j' < i ∨ j' = self)%nat → L j = L j' → j = j'
}.

(** The page that a processor starts in has the code of entryother.S, and the block before it
    has what startothers puts there. *)
Definition code_page : Z := P2V 0x7000.
Definition has_code (m : mem) : Prop := (λ k, m (code_page + Z.of_nat k)) <$> seq 0 (length apcode) = apcode.
Record ap_page (stack : Z) (m : mem) : Prop := {
  ap_code : has_code m;
  ap_stack32 : load 4 m (code_page - 4) = 0x8000;
  ap_entry : load 4 m (code_page - 8) = V2P (lbl "entry32mp"%string);
  ap_stack : load 8 m (code_page - 16) = stack + KSTACKSIZE
}.
Definition with_mem (m : mem) (r : rest) : rest := Rest (rs_cpus r) (rs_regs r) (rs_self r) (rs_idt r) m.

Lemma has_code_ext m m' : (∀ x, code_page ≤ x → m' x = m x) → has_code m → has_code m'.
Proof. intros He Hm. unfold has_code in *. rewrite <- Hm at 2. apply list_fmap_ext. intros _ k _. apply He. lia. Qed.
Lemma ap_page_ext stack m m' : (∀ x, code_page - 16 ≤ x → m' x = m x) → ap_page stack m → ap_page stack m'.
Proof.
  intros He [H1 H2 H3 H4]. split; [by apply (has_code_ext m); [intros; apply He; lia|]|..].
  - rewrite (load_ext 4 m); [done|]. intros x Hx. apply He. lia.
  - rewrite (load_ext 4 m); [done|]. intros x Hx. apply He. lia.
  - rewrite (load_ext 8 m); [done|]. intros x Hx. apply He. lia.
Qed.
Lemma reset_vector_low addr m x : code_page - 16 ≤ x → reset_vector addr m x = m x.
Proof.
  intros Hx. unfold reset_vector, store. change code_page with (KERNBASE + 0x7000) in Hx. cbv zeta.
  change (P2V (Z.lor (Z.shiftl 0x40 4) 0x67)) with (KERNBASE + 0x467). by rewrite !(proj2 (Z.eqb_neq _ _)) by lia.
Qed.
Lemma ap_enters_true stack i (s : st) a :
  s_cpus (ms_smp s) !! i = Some a → ap_of a (s_ctl (ms_smp s)) = Ap_start 7 → ap_page stack (s_mem (ms_smp s)) →
  ap_enters lbl apcode code_page stack (Z.of_nat i) s = true.
Proof.
  intros Hi Ha [H1 H2 H3 H4]. unfold ap_enters. rewrite Nat2Z.id, (list_lookup_total_correct _ _ _ Hi), Ha. cbv zeta iota beta.
  by rewrite H2, H3, H4, !Z.eqb_refl, (bool_decide_eq_true_2 _ H1).
Qed.

(** A processor runs mpenter and is ready. *)
Lemma boots_up B D r i v0 :
  rest_ok r → (i < length ids)%nat → rs_cpus r !! i = Some (CpuRec 0 v0) →
  boots B 1 D r (run_on (Z.of_nat i) (mpenter fl pc lbl polls) ;;; b <- gets (λ s, cpu_started (ms_cpus s !!! i));;
      if negb (b =? 0) then ret tt else panic "startothers: waits for ever")
    (λ _ D' r', ∃ v, valid_page kend v ∧ v ∉ D.*1 ∧ D' = (v, local_page v) :: D ∧ r' = with_self (rs_self r) (ready_rest v (with_self (Z.of_nat i) r))).
Proof.
  intros (Hc & Hr & Hs) Hi Hv0. eapply boots_bind; [apply boots_run_on, boots_mpenter|done|].
  - lia.
  - split; [done|]. split; [done|]. cbn. lia.
  - intros [] D1 r1 (r2 & (v & Hv & HvD & -> & ->) & ->).
    bstep (apply (boots_gets _ _ _ _ 1); intros s Hs').
    { replace (ms_cpus s) with (rs_cpus (rest_of s)) by done. rewrite Hs'. cbn [ready_rest with_self rs_cpus rs_self]. rewrite Nat2Z.id.
      by rewrite list_lookup_total_alt, list_lookup_alter_eq, Hv0. }
    cbn [negb Z.eqb]. apply boots_ret. by exists v.
Qed.

(** The startup interrupt: the processor is told where to start. *)
Lemma startup_sent B D l (s : st) i :
  booting B D l s → (i < length ids)%nat →
  ∃ a s', s_cpus (ms_smp s) !! i = Some a ∧ in_smp (lapicstartap a 0x7000) s = Done tt s' ∧ booting B D l s' ∧
    rest_of s' = with_mem (reset_vector 0x7000 (s_mem (ms_smp s))) (rest_of s) ∧ s_cpus (ms_smp s') !! i = Some a ∧ ap_of a (s_ctl (ms_smp s')) = Ap_start 7.
Proof.
  intros [Hk [A1 A2 A3 A4]] Hi. destruct (lookup_lt_is_Some_2 ids i Hi) as [a Ha]. pose proof (proj1 (Forall_lookup _ _) Hbytes i a Ha) as Hbyte.
  assert (Hs : s_cpus (ms_smp s) !! i = Some a) by (rewrite <- A1 in Ha; by apply lookup_take_Some in Ha as [Ha _]).
  destruct (lapicstartap_runs a (set_s_core (k_core (ms_k s)) (ms_smp s)) Hbyte) as (c & E & Hid & Hap).
  eexists a, _. split; [done|]. split; [unfold in_smp, zoom; rewrite E; reflexivity|]. split; [|by split_and!].
  split; [cbn [ms_k set_smp set_k s_core set_s_ctl set_s_mem set_s_core]; by rewrite set_kcore_id|]. split; [done|done|done|]. cbn [ms_smp set_smp s_ctl set_s_ctl ms_self set_k]. rewrite Hid. exact A4.
Qed.

Lemma boots_wait B D r i v0 stack :
  rest_ok r → (i < length ids)%nat → rs_cpus r !! i = Some (CpuRec 0 v0) → ap_page stack (rs_mem r) →
  boots B 1 D r (a <- gets (λ s, s_cpus (ms_smp s) !!! Z.to_nat (Z.of_nat i));; in_smp (lapicstartap a 0x7000) ;;;
      wait_started fl pc lbl polls apcode code_page stack (Z.of_nat i))
    (λ _ D' r', ∃ v, valid_page kend v ∧ v ∉ D.*1 ∧ D' = (v, local_page v) :: D ∧
      r' = with_self (rs_self r) (ready_rest v (with_self (Z.of_nat i) (with_mem (reset_vector 0x7000 (rs_mem r)) r)))).
Proof.
  intros Hok Hi Hv0 Hpage l s Hb Hr Hl. destruct (startup_sent B D l s i Hb Hi) as (a & s1 & Ha & E1 & Hb1 & Hr1 & Hc1 & Ha1).
  unfold bind at 1, gets at 1. rewrite Nat2Z.id, (list_lookup_total_correct _ _ _ Ha), (bind_done _ _ _ _ _ E1).
  change (s_mem (ms_smp s)) with (rs_mem (rest_of s)) in Hr1. rewrite Hr in Hr1.
  destruct (boots_up B D (with_mem (reset_vector 0x7000 (rs_mem r)) r) i v0 Hok Hi Hv0 l s1 Hb1 Hr1 Hl) as (c & s2 & D2 & l2 & E2 & Hrest).
  exists c, s2, D2, l2. split; [|exact Hrest]. rewrite <- E2. unfold wait_started. unfold bind at 1, gets at 1. rewrite Nat2Z.id.
  replace (ms_cpus s1) with (rs_cpus r) by (change (rs_cpus r = rs_cpus (rest_of s1)); by rewrite Hr1). rewrite (list_lookup_total_correct _ _ _ Hv0).
  cbn [cpu_started Z.eqb negb]. unfold bind at 1, gets at 1. rewrite (ap_enters_true stack i s1 a Hc1 Ha1); [done|].
  change (s_mem (ms_smp s1)) with (rs_mem (rest_of s1)). rewrite Hr1. apply (ap_page_ext stack (rs_mem r)); [|done]. intros x. apply reset_vector_low.
Qed.

Lemma boots_mem B D r f : boots B 0 D r (in_smp (modify (λ x, set_s_mem (f (s_mem x)) x))) (keeps tt D (with_mem (f (rs_mem r)) r)).
Proof.
  intros l s [Hk Hs] <- _. eexists tt, _, D, l. split; [reflexivity|]. split; [|by split; [lia|]]. split; [cbn [ms_k set_smp set_k s_core set_s_ctl set_s_mem set_s_core]; by rewrite set_kcore_id|]. by destruct Hs.
Qed.

Lemma started_skip i self L D r : started_to i self L D r → i = self → started_to (S i) self L D r.
Proof.
  intros [] ->. split; try done.
  - intros j Hj Hne. apply sd_ready0; [lia|done].
  - intros j Hj. apply sd_later0. lia.
  - intros j j' Hj Hj'. apply sd_distinct0; lia.
Qed.

Lemma started_next i self L D D' r v :
  started_to i self L D r → (i < length ids)%nat → i ≠ self → (∀ x, x ∈ D → x ∈ D') → (v, local_page v) ∈ D' → valid_page kend v → v ∉ D.*1 →
  started_to (S i) self (λ j, if decide (j = i) then v else L j) D' (with_self (rs_self r) (ready_rest v (with_self (Z.of_nat i) r))).
Proof.
  intros [(Hc & Hr & Hs) Hself Hidt (M1 & M2 & M3 & M4) Hready Hlater Hd] Hi Hne HD HvD Hv Hfree.
  assert (Hin : ∀ j, (j < i ∨ j = self)%nat → j ≠ i → L j ∈ D.*1).
  { intros j Hj Hji. apply list_elem_of_fmap. exists (L j, local_page (L j)). split; [done|]. destruct (decide (j = self)) as [->|]; [done|]. apply Hready; [lia|done]. }
  split.
  - split; [by cbn; rewrite length_alter|]. split; [by cbn; rewrite length_alter|]. done.
  - done.
  - done.
  - rewrite decide_False by done. split; [by apply HD|]. split; [done|].
    cbn [with_self ready_rest rs_cpus rs_regs rs_self rs_idt rs_mem]. rewrite Nat2Z.id. by rewrite !list_lookup_alter_ne by done.
  - intros j Hj Hjs. unfold ready_cpu. cbn [with_self ready_rest rs_cpus rs_regs rs_self rs_idt rs_mem]. rewrite Nat2Z.id. destruct (decide (j = i)) as [->|Hji].
    + split; [done|]. split; [done|]. rewrite !list_lookup_alter_eq. destruct (Hlater i) as [v0 ->]; [lia|done|]. split; [done|].
      destruct (lookup_lt_is_Some_2 (rs_regs r) i) as [g ->]; [lia|]. by exists g.
    + rewrite !list_lookup_alter_ne by done. destruct (Hready j) as (R1 & R2 & R3 & R4); [lia|done|]. split; [by apply HD|]. done.
  - intros j Hj Hjs. cbn [with_self ready_rest rs_cpus rs_self]. rewrite Nat2Z.id, list_lookup_alter_ne by lia. apply Hlater; [lia|done].
  - intros j j' Hj Hj'. destruct (decide (j = i)) as [->|], (decide (j' = i)) as [->|]; [done| | |].
    + intros ->. destruct Hfree. apply Hin; [lia|done].
    + intros <-. destruct Hfree. apply Hin; [lia|done].
    + apply Hd; lia.
Qed.

Lemma started_mem i self L D r m : started_to i self L D r → started_to i self L D (with_mem m r).
Proof. by intros []. Qed.

Lemma valid_bound v : valid_page kend v → 0 ≤ v ∧ v + PGSIZE < 2 ^ 64.
Proof. intros (_ & H1 & H2). clear - Hend H1 H2. unfold KERNBASE, PHYSTOP, PGSIZE in *. lia. Qed.

(** What startothers puts before the code. *)
Hypothesis Hentry : KERNBASE ≤ lbl "entry32mp"%string < kend.
Lemma block_page stack m :
  has_code m → valid_page kend stack →
  ap_page stack (put 8 (code_page - 16) (stack + KSTACKSIZE) (put 4 (code_page - 8) (V2P (lbl "entry32mp"%string)) (put 4 (code_page - 4) 0x8000 m))).
Proof.
  intros Hc Hv. destruct (valid_bound _ Hv) as [Hv1 Hv2].
  split.
  - apply (has_code_ext m); [|done]. intros x Hx. by rewrite !put_other by (cbn; lia).
  - rewrite !(load_put_other _ 4) by (cbn; lia). by rewrite load_put_same.
  - rewrite (load_put_other 8 4) by (cbn; lia). rewrite load_put_same. apply Z.mod_small. unfold V2P, u64, KERNBASE, PHYSTOP in *.
    rewrite Z.mod_small; cbn; lia.
  - rewrite load_put_same. apply Z.mod_small. unfold KSTACKSIZE, KERNBASE, PHYSTOP, PGSIZE in *. cbn. lia.
Qed.

Lemma boots_startother B D r i self L :
  (i < length ids)%nat → started_to i self L D r → has_code (rs_mem r) →
  boots B 2 D r (startother fl pc lbl polls apcode code_page (Z.of_nat i))
    (λ _ D' r', ∃ L', started_to (S i) self L' D' r' ∧ has_code (rs_mem r')).
Proof.
  intros Hi Hst Hcode. unfold startother. bstep (apply boots_cpunum). rewrite (sd_self _ _ _ _ _ Hst). rewrite Nat.sub_0_r.
  destruct (Z.eqb_spec (Z.of_nat i) (Z.of_nat self)) as [E|Hne].
  { eapply (boots_mono _ 0); [apply (boots_ret _ _ _ _ (keeps tt D r)); done|lia|]. intros [] ? ? (_ & -> & ->). exists L. split; [|done]. apply started_skip; [done|lia]. }
  eapply boots_bind; [apply boots_kalloc|lia|]. intros stack ? ? ((d & ->) & -> & Hv & Hstack).
  do 3 bstep (apply boots_mem). change (V2P code_page) with 0x7000.
  match goal with |- boots _ _ _ ?x _ _ => assert (Hst3 : started_to i self L D x) by (by do 3 apply started_mem);
    assert (Hpage : ap_page stack (rs_mem x)) by (by apply block_page); generalize dependent x end.
  intros r3 Hst3 Hpage.
  destruct (sd_later _ _ _ _ _ Hst3 i) as [v0 Hv0]; [lia|lia|].
  eapply boots_mono; [apply (boots_wait _ _ _ i v0 stack); [apply Hst3|done|done|exact Hpage]|cbn; lia|]. intros [] ? ? (w & Hw & HwD & -> & ->).
  eexists. split.
  - apply (started_next i self L D _ (with_mem (reset_vector 0x7000 (rs_mem r3)) r3)); [by apply started_mem|done|lia| |left|done|].
    + intros x Hx. by do 2 right.
    + intros Hx. apply HwD. by right.
  - cbn [with_self ready_rest with_mem rs_mem]. eapply has_code_ext; [|exact (ap_code _ _ Hpage)]. intros x Hx. apply reset_vector_low. lia.
Qed.

Lemma boots_startothers_loop B k : ∀ D r i self L,
  (i + k = length ids)%nat → started_to i self L D r → has_code (rs_mem r) →
  boots B (2 * k) D r (startothers_loop fl pc lbl polls apcode k code_page (Z.of_nat i)) (λ _ D' r', ∃ L', started_to (length ids) self L' D' r').
Proof.
  induction k as [|k IH]; intros D r i self L Hk Hst Hcode; cbn [startothers_loop].
  - apply boots_ret. exists L. by replace (length ids) with i by lia.
  - eapply boots_bind; [apply (boots_startother _ _ _ _ self L); [lia|done|done]|lia|]. intros [] D1 r1 (L1 & Hst1 & Hcode1).
    replace (Z.of_nat i + 1) with (Z.of_nat (S i)) by lia. replace (2 * S k - 2)%nat with (2 * k)%nat by lia. apply (IH _ _ _ self L1); [lia|done|done].
Qed.

Lemma boots_ncpu {C} B n D r (k : Z → K st C) Q :
  boots B n D r (k (Z.of_nat (length ids))) Q → boots B n D r (n <- gets (λ s, s_ncpu (ms_smp s));; k n) Q.
Proof. intros Hk l s Hb. unfold bind, gets. rewrite (sa_ncpu _ _ (bo_smp _ _ _ _ Hb)). by apply Hk. Qed.

(** The image of entryother.S that the kernel is linked with. *)
Hypothesis Hsize : lbl "_binary_entryother_size"%string = Z.of_nat (length apcode).
Lemma memmove_code m : mem_has m (lbl "_binary_entryother_start"%string) apcode →
  has_code (memmove code_page (lbl "_binary_entryother_start"%string) (lbl "_binary_entryother_size"%string) m).
Proof.
  intros Hm. apply list_eq. intros k. rewrite list_lookup_fmap. destruct (apcode !! k) as [b|] eqn:E.
  - pose proof (lookup_lt_Some _ _ _ E) as Hk. rewrite lookup_seq_lt by done. cbn [fmap option_fmap option_map]. rewrite memmove_copies, Hsize.
    rewrite (proj2 (Z.leb_le _ _)), (proj2 (Z.ltb_lt _ _)) by lia. cbn [andb]. rewrite <- (Hm k b E). do 2 f_equal. lia.
  - rewrite lookup_seq_ge; [done|]. by apply lookup_ge_None.
Qed.

Lemma boots_startothers B D r self L :
  started_to 0 self L D r → mem_has (rs_mem r) (lbl "_binary_entryother_start"%string) apcode →
  boots B (2 * length ids) D r (startothers fl pc lbl polls apcode) (λ _ D' r', ∃ L', started_to (length ids) self L' D' r').
Proof.
  intros Hst Hm. unfold startothers. cbv zeta. bstep (apply boots_mem). rewrite Nat.sub_0_r. apply boots_ncpu. rewrite Nat2Z.id.
  apply (boots_startothers_loop _ _ _ _ 0 self L); [lia|by apply started_mem|by apply memmove_code].
Qed.

(** ** From lapicinit to kinit2 *)
Lemma boots_idt B D r x : boots B 0 D r (modify (set_idt x)) (keeps tt D (Rest (rs_cpus r) (rs_regs r) (rs_self r) x (rs_mem r))).
Proof. intros l s [Hk Hs] <- _. eexists tt, _, D, l. split; [done|]. split; [by split|]. by split; [lia|]. Qed.

Lemma boots_tvinit B D r vectors :
  boots B 1 D r (in_k (tvinit vectors)) (λ t D' r', (∃ d, D' = (fst t, d) :: D) ∧ r' = r ∧ valid_page kend (fst t)).
Proof.
  intros [|v l] s [Hk Hs] <- Hl; [cbn in Hl; lia|]. destruct (kalloc_at kend Hend _ _ _ _ _ Hk) as (k' & E & Hk' & Hv).
  eexists _, (set_k k' s), _, l. split; [unfold in_k, zoom, tvinit; by rewrite (bind_done _ _ _ _ _ E)|]. split; [split; [exact Hk'|done]|].
  split; [cbn; lia|]. split; [by eexists|done].
Qed.

Lemma boots_initlock B D r x : boots B 0 D r (initlock x) (keeps tt D r).
Proof.
  apply (boots_quiet _ _ _ _ _ (λ k, set_kcore (set_held (filter (λ y, y ≠ x) (c_held (k_core k))) (k_core k)) k)); [|done].
  intros B' D' l k Hk. pose proof (ka_held _ _ _ _ _ Hk) as Hh. destruct Hk. split; try done. rewrite k_core_set. cbn [set_held c_held]. by rewrite Hh.
Qed.

Lemma boots_bio B D r f : (∀ b, bs_core (f b) = bs_core b) → boots B 0 D r (in_k (in_log (in_bio (modify f)))) (keeps tt D r).
Proof.
  intros Hf. apply (boots_quiet _ _ _ _ _ (λ k, set_fs (FState (LState (f (ls_bs (fs_st (k_fs k)))) (ls_log (fs_st (k_fs k)))) (fs_sb (k_fs k)) (fs_icache (k_fs k))) k)); [|done].
  intros B' D' l k []. split; try done; unfold k_core in *; cbn; rewrite Hf; done.
Qed.

Lemma boots_ioapic B D r : boots B 0 D r ioapic_start (keeps tt D r).
Proof.
  unfold ioapic_start. apply boots_gets_any. intros x. apply boots_gets_any. intros id.
  apply (boots_bind _ 0 _ _ _ _ _ (keeps tt D r)); [|lia|intros ? ? ? (-> & -> & ->)].
  - destruct (negb _); [eapply boots_printf; reflexivity|by apply boots_ret].
  - by apply boots_dev.
Qed.

Lemma boots_kinit2 B D r : boots B 0 D r (in_k (in_mem kinit2)) (keeps tt D r).
Proof.
  apply (boots_quiet _ _ _ _ _ (λ k, set_mem (KMem true (km_freelist (k_mem k)) (km_page (k_mem k))) (set_kcore (k_core k) k))); [|done].
  intros B' D' l k Hk. rewrite set_kcore_id. set (m' := KMem true _ _).
  assert (Hnode : ∀ P p, node m' P p = node (k_mem k) P p) by (intros; by apply node_pages).
  apply (kernel_at_mem kend _ _ _ _ _ _ _ Hk); [apply vm_rep_uselock, Hk| |..].
  - intros Q wa _ _. unfold upage, pte, leaf. by rewrite Hnode.
  - intros v d Hv. destruct (ka_pages _ _ _ _ _ Hk v d Hv) as [(F1 & F2 & F3) Hp]. split; [|done]. split; [done|]. split; [done|].
    intros Q q HQ Hq. rewrite Hnode. by apply F3.
  - apply Hk.
Qed.

(** ** The whole of main *)
Definition reaches (B : base) (n : nat) (D : list (Z * page)) (r : rest) (m : K st unit) (Post : st → Prop) : Prop :=
  ∀ l s, booting B D l s → rest_of s = r → (n ≤ length l)%nat → ∃ s', m s = Done tt s' ∧ Post s'.

Lemma reaches_bind {A} B n1 n D r (m : K st A) (k : A → K st unit) Q Post :
  boots B n1 D r m Q → (n1 ≤ n)%nat → (∀ a D' r', Q a D' r' → reaches B (n - n1) D' r' (k a) Post) → reaches B n D r (bind m k) Post.
Proof.
  intros Hm Hn Hk l s Hb Hr Hl. destruct (Hm l s Hb Hr ltac:(lia)) as (a & s1 & D1 & l1 & E1 & Hb1 & Hl1 & HQ).
  destruct (Hk a D1 (rest_of s1) HQ l1 s1 Hb1 eq_refl ltac:(lia)) as (s2 & E2 & HP). exists s2. split; [|done]. by rewrite (bind_done _ _ _ _ _ E1).
Qed.
Tactic Notation "rstep" tactic3(t) := eapply reaches_bind; [t|cbn; lia|intros ? ? ? (-> & -> & ->)].

Lemma reaches_kernel {A} B n1 n D r (m : K kstate A) (k : A → K st unit) Q Post :
  kruns kend n1 B D m Q → (n1 ≤ n)%nat → (∀ a B' D', Q a B' D' → reaches B' (n - n1) D' r (k a) Post) → reaches B n D r (bind (in_k m) k) Post.
Proof.
  intros Hm Hn Hk l s [Hkk Hs] Hr Hl. destruct (Hm l (ms_k s) Hkk ltac:(lia)) as (a & k1 & B1 & D1 & l1 & E1 & Hk1 & Hl1 & HQ).
  destruct (Hk a B1 D1 HQ l1 (set_k k1 s)) as (s2 & E2 & HP); [by split|by rewrite <- Hr|lia|]. exists s2. split; [|done].
  assert (E : in_k m s = Done a (set_k k1 s)) by (unfold in_k, zoom; by rewrite E1). by rewrite (bind_done _ _ _ _ _ E).
Qed.

Lemma reaches_end B n D r m Q Post :
  boots B n D r m Q → (∀ D' l' s', booting B D' l' s' → Q tt D' (rest_of s') → Post s') → reaches B n D r m Post.
Proof. intros Hm HQ l s Hb Hr Hl. destruct (Hm l s Hb Hr Hl) as ([] & s1 & D1 & l1 & E1 & Hb1 & Hl1 & HQ1). exists s1. split; [done|]. by eapply HQ. Qed.

Lemma started_first self v D r :
  rest_ok r → rs_self r = Z.of_nat self → rs_cpus r = replicate NCPU (CpuRec 0 0) → valid_page kend (fst (rs_idt r)) → valid_page kend v →
  (v, local_page v) ∈ D → started_to 0 self (λ _, v) D (seg_rest v r).
Proof.
  intros (Hc & Hr & Hs) Hself Hcpus Hidt Hv HvD. split.
  - split; [by cbn; rewrite length_alter|]. split; [by cbn; rewrite length_alter|done].
  - done.
  - done.
  - split; [done|]. split; [done|]. cbn [seg_rest rs_cpus rs_regs]. rewrite Hself, Nat2Z.id, !list_lookup_alter_eq, Hcpus.
    rewrite lookup_replicate_2 by lia. split; [done|]. destruct (lookup_lt_is_Some_2 (rs_regs r) self) as [g ->]; [lia|]. by exists g.
  - lia.
  - intros j Hj Hne. cbn [seg_rest rs_cpus]. rewrite Hself, Nat2Z.id, list_lookup_alter_ne, Hcpus by done. exists 0. apply lookup_replicate_2. lia.
  - lia.
Qed.

(** When the last processor has come to the scheduler, all are ready. *)
Lemma started_all self L D r :
  started_to (length ids) self L D r → ∀ j, (j < length ids)%nat →
  ready_cpu D (Rest (alter (λ x, CpuRec 1 (cpu_local x)) self (rs_cpus r))
    (alter (λ g, PRegs (r_gdtr g) (pseudo_desc (fst (rs_idt r)) PGSIZE) (r_tr g) (syscallinit lbl (r_asm g)) (r_cpu g)) self (rs_regs r)) (rs_self r) (rs_idt r) (rs_mem r)) j (L j).
Proof.
  intros [_ _ _ (M1 & M2 & M3 & g & M4) Hready _ _] j Hj. unfold ready_cpu. cbn [rs_cpus rs_regs rs_idt rs_mem]. destruct (decide (j = self)) as [->|Hne].
  - rewrite !list_lookup_alter_eq, M3, M4. split; [done|]. split; [done|]. split; [done|]. by exists g.
  - rewrite !list_lookup_alter_ne by done. by apply Hready.
Qed.

(** From lapicinit on: every processor gets ready, then the first process is made. *)
Lemma reaches_tail B D r vectors img imgsize init devread self i ip :
  rest_ok r → rs_self r = Z.of_nat self → rs_cpus r = replicate NCPU (CpuRec 0 0) →
  find_state UNUSED (b_procs B) 0 = Some i → icache_find ROOTDEV ROOTINO (b_icache B) 0 None = (false, Some ip) →
  valid_page kend (snd (b_kpt B)) → Z.of_nat (length init) < PGSIZE → Forall is_byte init →
  mem_has (rs_mem r) (lbl "_binary_entryother_start"%string) apcode →
  reaches B (2 * length ids + 8) D r
    (in_smp (lapicinit polls) ;;;
     t <- in_k (tvinit vectors);;
     modify (set_idt t) ;;;
     seginit fl pc ;;;
     n <- m_cpunum fl pc;;
     in_smp (s_printf ([10] ++ str "cpu%d: starting Fall 2025 xv6" ++ [10; 10]) [Va_num n]) ;;;
     ioapic_start ;;;
     on_dev consoleinit ;;;
     on_dev uartinit ;;;
     pinit ;;;
     in_k (in_log (in_bio (modify binit))) ;;;
     fileinit ;;;
     mem_ideinit img imgsize ;;;
     startothers fl pc lbl polls apcode ;;;
     in_k (in_mem kinit2) ;;;
     in_k (userinit devread init) ;;;
     mpmain fl pc lbl)
    (λ s', ∃ D' l' L v pgdir, pgdir ≠ 0 ∧ valid_page kend (fst (ms_idt s')) ∧
       booting (Base (pgdir :: b_roots B) (first_space pgdir init (b_space B)) (b_files B) (alter (first_proc v pgdir (b_pid B) ip) i (b_procs B))
         (alter (fresh_inode ROOTDEV ROOTINO) ip (b_icache B)) (s32 (b_pid B + 1)) (b_kpt B) (Some i)) D' l' s' ∧
       (∀ j, (j < length ids)%nat → ready_cpu D' (rest_of s') j (L j)) ∧
       (∀ j j', (j < length ids)%nat → (j' < length ids)%nat → L j = L j' → j = j')).
Proof.
  intros (Hc & Hr & Hs) Hself Hcpus Hi Hip Hkp Hinit Hb Hcode. rstep (apply boots_calm, calm_lapicinit).
  eapply reaches_bind; [apply boots_tvinit|lia|]. intros t ? ? ((dt & ->) & -> & Hidt). rstep (apply boots_idt).
  eapply reaches_bind; [apply boots_seginit|lia|]. intros ? ? ? (v & Hv & HvD & -> & ->).
  rstep (apply boots_cpunum). rstep (eapply boots_printf; reflexivity). rstep (apply boots_ioapic). rstep (by apply boots_dev).
  rstep (apply boots_dev; intros d; unfold uartinit; by destruct (uart _)). rstep (apply boots_initlock). rstep (by apply boots_bio).
  rstep (apply boots_initlock). rstep (by apply boots_bio).
  eapply reaches_bind; [apply (boots_startothers _ _ _ self (λ _, v)); [apply started_first; (done || left)|done]|cbn; lia|].
  intros ? D1 r1 (L & Hst). rstep (apply boots_kinit2).
  eapply reaches_kernel; [apply (kruns_userinit kend Hend _ _ devread init i ip Hi Hip Hkp Hinit Hb)|cbn; lia|].
  intros ? ? ? (w & d & pgdir & Hw & -> & Hpg & ->). destruct (sd_main _ _ _ _ _ Hst) as (M1 & M2 & M3 & g & M4). pose proof (sd_self _ _ _ _ _ Hst) as Hs1.
  eapply reaches_end.
  - eapply boots_mono; [apply (boots_mpmain _ _ _ (seg_regs (L self) (Z.of_nat self) g)); rewrite Hs1, ?Nat2Z.id; done|lia|]. intros ? ? ? Hq. exact Hq.
  - intros D' l' s' Hbt (_ & -> & Er). exists ((w, d) :: D1), l', L, w, pgdir. split; [done|].
    split; [change (valid_page kend (fst (rs_idt (rest_of s')))); rewrite Er; apply Hst|]. split; [exact Hbt|]. rewrite Er, Hs1, Nat2Z.id. split.
    + intros j Hj. destruct (started_all self L D1 r1 Hst j Hj) as (R1 & R2). split; [by right|]. rewrite <- Hs1. exact R2.
    + intros j j' Hj Hj'. apply (sd_distinct _ _ _ _ _ Hst); by left.
Qed.

End others.

(** ** Up to mpinit *)

(** The memory of the kernel when main starts: its tables are zero. *)
Record powered_on (self : nat) (s : st) : Prop := {
  po_held : c_held (k_core (ms_k s)) = [];
  po_cur : c_cur (k_core (ms_k s)) = None;
  po_panicked : d_panicked (c_dev (k_core (ms_k s))) = false;
  po_memory : memory_ok (k_mem (ms_k s));
  po_files : k_file (ms_k s) = replicate NFILE file0;
  po_procs : c_procs (k_core (ms_k s)) = replicate NPROC zero_proc;
  po_icache : k_icache (ms_k s) = replicate NINODE inode0;
  po_pid : k_nextpid (ms_k s) = 1;
  po_init : k_initproc (ms_k s) = None;
  po_cpus : ms_cpus s = replicate NCPU (CpuRec 0 0);
  po_regs : length (ms_regs s) = NCPU;
  po_self : ms_self s = Z.of_nat self;
  po_apicids : length (s_cpus (ms_smp s)) = NCPU;
  po_ncpu : s_ncpu (ms_smp s) = 0
}.
Definition zero_base (kpt : Z * Z) : base :=
  Base [] (λ _ _, None) (replicate NFILE file0) (replicate NPROC zero_proc) (replicate NINODE inode0) 1 kpt None.

Lemma free_vm_rep m l : free_rep kend m l → vm_rep kend m l [].
Proof. intros Hf. split; [done|by intros ? ? ? ?%elem_of_nil|by intros ? ? ? ? ? ?%elem_of_nil]. Qed.

Lemma start_memory self s d n :
  powered_on self s → d_panicked d = false → PGROUNDUP kend + PGSIZE * Z.of_nat n ≤ KERNBASE + PHYSTOP < PGROUNDUP kend + PGSIZE * (Z.of_nat n + 1) →
  let k1 := set_kcore (set_dev d (k_core (ms_k s))) (ms_k s) in
  ∃ k2 l, in_mem (kinit1 kend kend (P2V PHYSTOP)) k1 = Done tt k2 ∧ kernel_at kend (zero_base (k_kpml4 (ms_k s), k_kpdpt (ms_k s))) [] l k2 ∧ length l = n.
Proof.
  intros [] Hd Hn k1. destruct (kinit1_spec kend Hend (k_mem k1) (k_core k1) (P2V PHYSTOP) n) as (m' & E & Hf).
  - unfold kquiet. change (c_held (k_core k1)) with (c_held (k_core (ms_k s))). rewrite po_held0. apply not_elem_of_nil.
  - done.
  - exact Hn.
  - done.
  - exists (set_mem m' k1), (reverse (pages (PGROUNDUP kend) n)). split; [by apply in_mem_same|]. split; [|by unfold pages; rewrite length_reverse, length_fmap, length_seq].
    split; try done; [by apply free_vm_rep|by intros ? ? ?%elem_of_nil|by intros ? ? ?%elem_of_nil|constructor].
Qed.

Lemma in_k_done {A} (m : K kstate A) (s : st) a k : m (ms_k s) = Done a k → in_k m s = Done a (set_k k s).
Proof. intros E. unfold in_k, zoom. by rewrite E. Qed.

Lemma start_kvm (s : st) l kpt :
  kernel_at kend (zero_base kpt) [] l (ms_k s) → (2 ≤ length l)%nat →
  ∃ k' D l' kpt', kvm_start s = Done tt (set_k k' s) ∧ kernel_at kend (zero_base kpt') D l' k' ∧ valid_page kend (snd kpt') ∧ (length l ≤ 2 + length l')%nat.
Proof.
  intros Hk Hl. destruct (kruns_kvmalloc kend Hend _ _ l _ Hk Hl) as ([p1 p2] & k1 & B1 & D1 & l1 & E1 & Hk1 & Hl1 & (-> & Hp1 & Hp2 & _)).
  exists (set_cr3 (V2P p1) (set_kpt p1 p2 k1)), D1, l1, (p1, p2). split; [|split; [|by split]].
  - unfold kvm_start. by rewrite (bind_done _ _ _ _ _ (in_k_done _ _ _ _ E1)).
  - destruct Hk1. by split.
Qed.

(** The tables of the BIOS list the processors [ids]. *)
Record bios_table (m : mem) (es : list mpentry) (mp conf : Z) : Prop := {
  bt_conf : mpconfig m = Some (mp, conf);
  bt_bytes : ∀ a, is_byte (m a);
  bt_entries : mem_has m (conf + MPCONF_SIZE) (concat (entry_bytes <$> es));
  bt_ok : Forall entry_ok es;
  bt_length : conf_length m conf = MPCONF_SIZE + Z.of_nat (length (concat (entry_bytes <$> es)));
  bt_ids : take NCPU (apicids es) = ids
}.

Lemma table_ids m es mp conf : bios_table m es mp conf → Forall is_byte ids.
Proof.
  intros [_ Hb He _ _ Hi]. rewrite <- Hi. apply Forall_take, Forall_forall. clear Hi. intros a ([a' rest| |] & Hin & Ha)%list_elem_of_omap; try done. injection Ha as ->.
  assert (Hc : a ∈ concat (entry_bytes <$> es)).
  { apply list_elem_of_In, in_concat. exists (entry_bytes (Eproc a rest)). split; [|by right; left]. apply list_elem_of_In, list_elem_of_fmap. by eexists. }
  apply list_elem_of_lookup_1 in Hc as [i Hi]. rewrite <- (He i a Hi). apply Hb.
Qed.

Lemma start_mpinit B D l (s : st) es mp conf self :
  kernel_at kend B D l (ms_k s) → bios_table (s_mem (ms_smp s)) es mp conf → length (s_cpus (ms_smp s)) = NCPU → s_ncpu (ms_smp s) = 0 →
  ms_self s = Z.of_nat self → ids !! self = Some (apic_id (s_ctl (ms_smp s))) →
  ∃ s', in_smp mpinit s = Done tt s' ∧ booting B D l s' ∧ rest_of s' = rest_of s.
Proof.
  intros Hk [] Hlen Hn Hself Hid. set (x := set_s_core (k_core (ms_k s)) (ms_smp s)).
  destruct (mpinit_runs es mp conf x) as (c & d & E & Hd & Hctl); try done.
  { apply Hk. }
  { change (s_core x) with (k_core (ms_k s)). rewrite (ka_held _ _ _ _ _ Hk). apply not_elem_of_nil. }
  destruct (read_entries es (set_s_lapic (P2V (conf_lapicaddr (s_mem x) conf)) x)) as (I1 & _ & I3 & I4 & _ & I6 & _ & I8 & _); [done|cbn; lia|].
  set (y := foldl _ _ es) in *. cbn [set_s_lapic s_ncpu s_ioapicid s_cpus s_lapic x set_s_core] in I1, I4, I8. rewrite Hn in I1, I4.
  change (take (Z.to_nat 0) (s_cpus (ms_smp s))) with (@nil Z) in I4. rewrite Z.add_0_l in I1, I4. cbn [app] in I4. rewrite <- I1 in I4.
  assert (Ht : take (Z.to_nat (s_ncpu y)) (s_cpus y) = ids ∧ s_ncpu y = Z.of_nat (length ids)).
  { rewrite I4, I1, <- bt_ids0, length_take, Nat2Z.inj_min. split; [|done]. destruct (Z.min_spec (Z.of_nat NCPU) (Z.of_nat (length (apicids es)))) as [[_ ->]|[? ->]]; rewrite Nat2Z.id; [done|].
    rewrite (take_ge _ NCPU) by lia. by rewrite take_ge. }
  assert (Hidc : apic_id c = apic_id (s_ctl (ms_smp s))) by (destruct Hctl as [->|[v ->]]; [done|by rewrite id_outb, id_inb, id_outb]).
  eexists. split; [unfold in_smp, zoom; fold x; by rewrite E|].
  split; [|unfold rest_of; cbn [ms_smp set_smp s_mem set_s_ctl set_s_core ms_cpus ms_regs ms_self ms_idt set_k]; by rewrite I6]. split.
  - cbn [ms_k set_smp set_k s_core set_s_ctl set_s_core]. by apply kernel_at_dev.
  - split; cbn [ms_self ms_smp set_smp set_k s_cpus s_ncpu s_lapic s_ctl set_s_ctl set_s_core]; [apply Ht|apply Ht| |].
    + rewrite I8. apply lapic_set. apply bt_bytes0.
    + rewrite Hself, Nat2Z.id, Hidc. split; [lia|done].
Qed.

(** The kernel is linked with the image [apcode] of entryother.S and lies below [kend]. *)
Record linked (apcode : list Z) (m : mem) : Prop := {
  ln_size : lbl "_binary_entryother_size"%string = Z.of_nat (length apcode);
  ln_code : mem_has m (lbl "_binary_entryother_start"%string) apcode;
  ln_entry : KERNBASE ≤ lbl "entry32mp"%string < kend
}.

(** ** The state that the scheduler finds *)
Definition processor_ready (s : st) (j : nat) (v : Z) : Prop :=
  let m := k_mem (ms_k s) in
  valid_page kend v ∧ ms_cpus s !! j = Some (CpuRec 1 v) ∧
  ∃ g, ms_regs s !! j = Some g ∧ r_cpu g = Z.of_nat j ∧
    desc_addr (r_gdtr g) = v ∧ desc_addr (r_idtr g) = fst (ms_idt s) ∧ r_tr g = 8 * SEG_TSS ∧
    tss_base (load64 m (v + 8 * SEG_TSS)) (load64 m (v + 8 * (SEG_TSS + 1))) = v + 1024 ∧
    load64 m (v + 8 * SEG_KCODE) = 0x00A09A0000000000 ∧ load64 m (v + 8 * SEG_UCODE) = 0x00A0FA0000000000 ∧
    c_msr (r_asm g) 0xC0000100 = v + 2048 ∧ c_msr (r_asm g) MSR_LSTAR = lbl "syscall_entry"%string.

Lemma local_load m v i w :
  km_page m v = local_page v → valid_page kend v → 0 ≤ i < 9 → field (Z.to_nat (8 * i)) 8 (local_page v) = w → load64 m (v + 8 * i) = w.
Proof.
  intros Hm Hv Hi <-. unfold load64. destruct (page_base v (8 * i)) as [-> ->]; [apply Hv|unfold PGSIZE; lia|]. by rewrite Hm.
Qed.

Lemma seg_bits_bound d : 0 ≤ seg_bits d < 2 ^ 64.
Proof.
  assert (Hf : ∀ l : list (Z * Z), Forall (λ f, 0 ≤ snd f) l →
    0 ≤ foldr (λ f acc, fst f mod 2 ^ snd f + 2 ^ snd f * acc) 0 l < 2 ^ (foldr (λ f n, snd f + n) 0 l) ∧ 0 ≤ foldr (λ f n, snd f + n) 0 l).
  { induction 1 as [|[x w] l Hw _ [IH1 IH2]]; cbn [foldr fst snd] in *; [lia|]. split; [|lia]. rewrite Z.pow_add_r by lia.
    pose proof (Z.mod_pos_bound x (2 ^ w) ltac:(lia)). nia. }
  unfold seg_bits. destruct (Hf (seg_fields d)) as [Hb _]; [|exact Hb]. repeat constructor; cbn; lia.
Qed.

Definition psize (d : page) : Prop := length d = Z.to_nat PGSIZE.
Lemma psize_set o n x d : psize d → (o + n ≤ 4096)%nat → psize (set_field o n x d).
Proof. unfold psize. intros Hd Ho. rewrite length_set_field; [done|]. rewrite Hd. unfold PGSIZE. lia. Qed.
Lemma psize_other o n x o' n' d : psize d → (o + n ≤ 4096)%nat → (o' + n' ≤ o ∨ o + n ≤ o')%nat → field o' n' (set_field o n x d) = field o' n' d.
Proof. intros Hd Ho Hne. apply field_set_other; [|done]. rewrite Hd. unfold PGSIZE. lia. Qed.
Lemma psize_same o x d : psize d → (o + 8 ≤ 4096)%nat → 0 ≤ x < 2 ^ 64 → field o 8 (set_field o 8 x d) = x.
Proof. intros Hd Ho Hx. rewrite field_set_same by (rewrite Hd; unfold PGSIZE; lia). by apply Z.mod_small. Qed.

Ltac poff := unfold SEG_TSS, SEG_KCPU, SEG_UCODE, SEG_UDATA, SEG_UCODE32, SEG_KDATA, SEG_KCODE; lia.
Ltac psize := repeat (apply psize_set; [|poff]); apply zero_page_ok.
Ltac pfield := repeat (rewrite psize_other; [|psize|poff|poff]); rewrite psize_same; [|psize|poff|apply seg_bits_bound].
Lemma local_tss v : field (Z.to_nat (8 * SEG_TSS)) 8 (local_page v) = seg_bits (SEG STS_T64A 0xb (v + 1024) (lnot APP_SEG) DPL_USER 0).
Proof. unfold local_page. pfield. reflexivity. Qed.
Lemma local_tss_high v : field (Z.to_nat (8 * (SEG_TSS + 1))) 8 (local_page v) = seg_bits (SEG 0 (Z.shiftr (v + 1024) 32) (Z.shiftr (v + 1024) 48) 0 0 0).
Proof. unfold local_page. pfield. reflexivity. Qed.
Lemma local_kcode v : field (Z.to_nat (8 * SEG_KCODE)) 8 (local_page v) = 0x00A09A0000000000.
Proof. unfold local_page. pfield. reflexivity. Qed.
Lemma local_ucode v : field (Z.to_nat (8 * SEG_UCODE)) 8 (local_page v) = 0x00A0FA0000000000.
Proof. unfold local_page. pfield. reflexivity. Qed.

Lemma ready_processor B D l (s : st) j v : booting B D l s → ready_cpu D (rest_of s) j v → 0 ≤ fst (ms_idt s) < 2 ^ 64 → processor_ready s j v.
Proof.
  intros [Hk _] (R1 & R2 & R3 & g & R4) Hidt. destruct (valid_bound v R2) as [B1 B2]. unfold PGSIZE in B2.
  destruct (ka_pages _ _ _ _ _ Hk v _ R1) as [_ Hp]. split; [done|]. split; [exact R3|]. eexists. split; [exact R4|]. split; [done|].
  split; [apply pseudo_desc_addr; lia|]. split; [by apply pseudo_desc_addr|]. split; [done|].
  split; [|split; [|split; [|split]]].
  - erewrite (local_load _ v SEG_TSS), (local_load _ v (SEG_TSS + 1)); [|done|done|done|apply local_tss_high|done|done|done|apply local_tss].
    apply seg_tss_base. lia.
  - by apply (local_load _ v SEG_KCODE); [..|apply local_kcode].
  - by apply (local_load _ v SEG_UCODE); [..|apply local_ucode].
  - change (u64 (v + 2048) = v + 2048). unfold u64. apply Z.mod_small. lia.
  - reflexivity.
Qed.

(** The process that userinit has made is the one that the scheduler switches to. *)
Record first_process (s : st) (init : list Z) : Prop := {
  fp_init : k_initproc (ms_k s) = Some 0%nat;
  fp_others : ∀ i p, c_procs (k_core (ms_k s)) !! i = Some p → i ≠ 0%nat → p_state p = UNUSED;
  fp_first : ∃ p, procp (ms_k s) 0 = Some p ∧ p_state p = RUNNABLE ∧ p_pid p = 1 ∧ p_sz p = PGSIZE * 2 ∧
    rcx (p_tf p) = PGSIZE ∧ rsp (p_tf p) = PGSIZE * 2 ∧ r11 (p_tf p) = Proc.FL_IF ∧
    (∀ wa, 0 ≤ wa < MAXVA → upage (k_mem (ms_k s)) (p_pgdir p) wa = if decide (wa / PGSIZE = 1) then Some (init_page init, user_flags) else None) ∧
    (∃ ip x, p_cwd p = Some ip ∧ k_icache (ms_k s) !! ip = Some x ∧ i_dev x = ROOTDEV ∧ i_inum x = ROOTINO ∧ i_ref x = 1) ∧
    ∃ k', scheduler_pass (ms_k s) = Done (Some 0%nat) k' ∧ c_cur (k_core k') = Some 0%nat ∧ k_cr3 k' = V2P (p_pgdir p)
}.

(** No process has open files, and no file is in use. *)
Lemma fresh_kernel_ok (k : kstate) :
  c_held (k_core k) = [] → c_cur (k_core k) = None → k_file k = replicate NFILE file0 →
  Forall (λ p, p_ofile p = replicate NOFILE None) (c_procs (k_core k)) → kernel_ok NFILE [] g0 k.
Proof.
  intros Hh Hc Hf Hp. assert (Hl : ∀ i p, c_procs (k_core k) !! i = Some p → p_ofile p = replicate NOFILE None) by (by apply Forall_lookup).
  split.
  - done.
  - constructor.
  - by rewrite Hf, length_replicate.
  - intros f Hlt. unfold filep. rewrite Hf, lookup_total_replicate_2 by done. replace (nrefs f (c_procs (k_core k))) with 0%nat; [done|].
    unfold nrefs. clear Hl. clear Hc Hh. revert Hp. generalize (c_procs (k_core k)). intros ps Hp. induction Hp as [|p ps Ho _ IH]; [done|].
    rewrite fmap_cons. cbn [sum_list foldr]. rewrite Ho, <- IH. done.
  - intros i p Hi. by rewrite (Hl i p Hi), length_replicate.
  - intros i p fd f Hi. rewrite (Hl i p Hi). by intros [? _]%lookup_replicate.
  - intros i p fd o Hi _. rewrite (Hl i p Hi). by intros [-> _]%lookup_replicate.
  - done.
  - intros i p Hi [?|[_ ?]]; [done|congruence].
  - done.
  - intros i [?|(? & ? & ?)]; done.
  - done.
Qed.

Lemma first_process_ok D l (s : st) init kpt v pgdir :
  pgdir ≠ 0 →
  booting (Base [pgdir] (first_space pgdir init (λ _ _, None)) (replicate NFILE file0) (alter (first_proc v pgdir 1 0) 0%nat (replicate NPROC zero_proc))
    (alter (fresh_inode ROOTDEV ROOTINO) 0%nat (replicate NINODE inode0)) (s32 (1 + 1)) kpt (Some 0%nat)) D l s →
  first_process s init ∧ kernel_ok NFILE [] g0 (ms_k s).
Proof.
  intros Hpg [Hk _]. set (p := first_proc v pgdir 1 0 zero_proc). set (ps := replicate 63 zero_proc).
  assert (Hps : c_procs (k_core (ms_k s)) = p :: ps) by (rewrite (ka_procs _ _ _ _ _ Hk); reflexivity).
  pose proof (ka_held _ _ _ _ _ Hk) as Hh.
  split; [split|apply fresh_kernel_ok; [done|apply Hk|apply Hk|]].
  - apply Hk.
  - intros i q. rewrite Hps. destruct i as [|i]; [done|]. intros [-> _]%lookup_replicate _. done.
  - exists p. split; [unfold procp; by rewrite Hps|]. do 6 (split; [reflexivity|]). split; [|split].
    + intros wa Hwa. rewrite (ka_space _ _ _ _ _ Hk) by (done || left). cbn [b_space]. unfold first_space.
      destruct (decide (wa / PGSIZE = 1)) as [Hw|Hw]; [by rewrite decide_True|]. rewrite decide_False by (by intros [_ ?]). by rewrite decide_True.
    + exists 0%nat, (fresh_inode ROOTDEV ROOTINO inode0). split; [done|]. rewrite (ka_icache _ _ _ _ _ Hk). done.
    + unfold scheduler_pass. set (k1 := set_kcore (set_held [Lk_ptable] (k_core (ms_k s))) (ms_k s)).
      assert (Ea : k_locks (acquire Lk_ptable) (ms_k s) = Done tt k1) by (rewrite k_acquire; [by rewrite Hh|rewrite Hh; apply not_elem_of_nil]).
      rewrite (bind_done _ _ _ _ _ Ea). unfold scheduler_from. rewrite bind_gets.
      change (c_procs (k_core k1)) with (c_procs (k_core (ms_k s))). rewrite Hps. change (find_runnable (p :: ps) 0 0) with (Some 0%nat). cbv iota beta.
      rewrite bind_modify, bind_gets. unfold procp. change (c_procs (k_core (set_kcore _ k1))) with (c_procs (k_core (ms_k s))). rewrite Hps. cbn [lookup list_lookup].
      unfold switchuvm. change (p_pgdir p) with pgdir. rewrite (proj2 (Z.eqb_neq _ _) Hpg). eexists. split; [reflexivity|]. split; reflexivity.
  - rewrite Hps. apply Forall_cons. split; [done|]. by apply Forall_replicate.
Qed.
End boot.

(** C9: the kernel boots.  For any tables of the BIOS that check and list distinct processors
    among the first NCPU, of which one runs main, any image of the disk and any code of
    initcode.S that fits in a page, main comes to the scheduler without a panic when there is
    memory for the pages that it takes.  Every processor that mpinit records, which are the
    first NCPU of the table, has started; the others of them run because they get their
    INIT and STARTUP at the page with the code of entryother.S and find before it the stack
    and the entry that startothers puts there, or startothers would wait for ever.  Each has
    its own page of local storage, with the global descriptor table and the task state
    segment that its registers point to, 64-bit code segments, the interrupt table and the
    entry of system calls.  The invariant of the kernel holds; the only process is the first
    one, with the code of initcode.S in its only page and the root directory as its
    directory, and it is the process that the scheduler switches to. *)
Theorem main_boots {ctl : Type} `{Machine ctl} `{Processors ctl} (polls : nat) `{!ProcessorLaws ctl polls}
    kend fl pc lbl apcode es mp conf self (s : mstate ctl) status vectors img imgsize init devread :
  let ids := take NCPU (apicids es) in
  KERNBASE < kend ≤ KERNBASE + PHYSTOP → PGROUNDUP kend + PGSIZE * 26 ≤ KERNBASE + PHYSTOP → Z.land fl Smp.FL_IF = 0 → NoDup ids →
  bios_table ids (s_mem (ms_smp s)) es mp conf → linked kend lbl apcode (s_mem (ms_smp s)) →
  powered_on self s → ids !! self = Some (apic_id (s_ctl (ms_smp s))) →
  Z.of_nat (length init) < PGSIZE → Forall is_byte init →
  ∃ s' L, main fl pc lbl polls apcode kend status vectors img imgsize init devread s = Done tt s' ∧
    (∀ j, (j < length ids)%nat → processor_ready kend lbl s' j (L j)) ∧
    (∀ j j', (j < length ids)%nat → (j' < length ids)%nat → L j = L j' → j = j') ∧
    first_process s' init ∧ kernel_ok NFILE [] g0 (ms_k s').
Proof.
  intros ids Hend Hmem Hfl Hnd Hbios [Hsize Hcode Hentry] Hpo Hid Hinit Hb. 
  assert (Hbytes : Forall is_byte ids) by (eapply table_ids, Hbios).
  assert (Hncpu : (length ids ≤ NCPU)%nat) by (unfold ids; rewrite length_take; lia).
  set (n := Z.to_nat ((KERNBASE + PHYSTOP - PGROUNDUP kend) / PGSIZE)).
  assert (Hn : PGROUNDUP kend + PGSIZE * Z.of_nat n ≤ KERNBASE + PHYSTOP < PGROUNDUP kend + PGSIZE * (Z.of_nat n + 1) ∧ (26 ≤ n)%nat).
  { unfold n, PGSIZE in *. Z.to_euclidean_division_equations; lia. }
  destruct Hn as [Hn H26]. clearbody n. set (d := set_serial (uartearlyinit status (d_serial (c_dev (k_core (ms_k s))))) (c_dev (k_core (ms_k s)))).
  destruct (start_memory kend Hend self s d n Hpo (po_panicked _ _ Hpo) Hn) as (k2 & l2 & E2 & Hk2 & Hl2).
  destruct (start_kvm kend Hend (set_k k2 s) l2 _ Hk2 ltac:(lia)) as (k3 & D3 & l3 & kpt & E3 & Hk3 & Hkp & Hl3).
  destruct (start_mpinit polls kend ids Hncpu _ _ _ (set_k k3 s) es mp conf self Hk3 Hbios (po_apicids _ _ Hpo) (po_ncpu _ _ Hpo) (po_self _ _ Hpo) Hid) as (s4 & E4 & Hb4 & Hr4).
  pose proof (lookup_lt_Some _ _ _ Hid) as Hself.
  destruct (reaches_tail polls kend Hend fl pc Hfl lbl ids Hnd Hncpu apcode Hbytes Hentry Hsize (zero_base kpt) D3 (rest_of s) vectors img imgsize init devread self 0%nat 0%nat)
    with (l := l3) (s := s4) as (s' & E & D & l & L & v & pgdir & Hpg & Hidt & Hbt & Hready & Hdist); try done.
  { split; [cbn; by rewrite (po_cpus _ _ Hpo), length_replicate|]. split; [apply Hpo|]. cbn [rest_of rs_self]. rewrite (po_self _ _ Hpo). lia. }
  { apply Hpo. }
  { apply Hpo. }
  { pose proof Hncpu as Hc. change NCPU with 8%nat in Hc. lia. }
  exists s', L. split; [|split; [|split; [exact Hdist|by eapply first_process_ok]]].
  - unfold main. assert (E1 : on_dev (λ d, set_serial (uartearlyinit status (d_serial d)) d) s = Done tt (set_k (set_kcore (set_dev d (k_core (ms_k s))) (ms_k s)) s)) by done.
    rewrite (bind_done _ _ _ _ _ E1). rewrite (bind_done _ _ _ _ _ (in_k_done _ (set_k _ s) _ _ E2)).
    change (set_k k2 (set_k _ s)) with (set_k k2 s). rewrite (bind_done _ _ _ _ _ E3). change (set_k k3 (set_k k2 s)) with (set_k k3 s).
    rewrite (bind_done _ _ _ _ _ E4). exact E.
  - intros j Hj. eapply (ready_processor polls kend Hend lbl ids Hncpu); [exact Hbt|by apply Hready|].
    destruct (valid_bound kend Hend _ Hidt) as [? ?]. unfold PGSIZE in *. lia.
Qed.

(** ** A machine with two processors *)
Record multi := Multi { mu_toy : toy; mu_target : Z; mu_ap : Z → ap }.
#[global] Instance multi_machine : Machine multi := {
  m_outb p v c := Multi (m_outb p v (mu_toy c)) (mu_target c) (mu_ap c);
  m_inb p c := let (r, t) := m_inb p (mu_toy c) in (r, Multi t (mu_target c) (mu_ap c));
  m_lapicw i v c :=
    if i =? ICRHI then Multi (mu_toy c) (Z.land (Z.shiftr v 24) 0xff) (mu_ap c)
    else if (i =? ICRLO) && (Z.land v 0xc0800 =? 0)
    then Multi (mu_toy c) (mu_target c) (λ a, if a =? mu_target c then ap_receive v (mu_ap c a) else mu_ap c a)
    else c;
  m_lapicr i c := (fst (m_lapicr i (mu_toy c)), c)
}.
#[global] Instance multi_processors : Processors multi := {
  as_cpu a c := Multi (Toy (toy_now (mu_toy c)) (toy_reg (mu_toy c)) a) (mu_target c) (mu_ap c);
  ap_of a c := mu_ap c a
}.
#[global] Instance multi_laws : ProcessorLaws multi 0.
Proof.
  refine {| apic_id c := toy_apicid (mu_toy c); delivering := λ _, 0%nat; icr_target := mu_target |}; try done.
  - intros p v c. cbn. by destruct (_ =? _).
  - intros i v c. cbn [m_lapicw multi_machine]. destruct (_ =? _); [done|]. by destruct (_ && _).
  - intros c. cbn [m_lapicr multi_machine toy_machine fst]. by rewrite Z.shiftr_shiftl_l, Z.sub_diag, Z.shiftl_0_r by lia.
  - intros c. left. cbn [m_lapicr multi_machine toy_machine fst]. apply Z.bits_inj'. intros i Hi. rewrite Z.land_spec, Z.bits_0.
    destruct (decide (i < 24)) as [Hlt|Hge]; [by rewrite Z.shiftl_spec_low|]. change DELIVS with (2 ^ 12). rewrite Z.pow2_bits_false by lia. apply andb_false_r.
  - intros v c. cbn [m_lapicw multi_machine]. change (ICRLO =? ICRHI) with false. cbn [andb]. by destruct (_ && _).
  - intros a v c Hv. cbn [m_lapicw multi_machine]. change (ICRLO =? ICRHI) with false. by rewrite Hv.
Defined.

Definition zero_kernel : kstate :=
  KState (FState (LState (BState (Core [] (replicate NPROC zero_proc) None devices0) [] (Disk 0 (λ _, []) [])) (MkLog 2 30 0 false 1 0 []))
      (Superblock 0 0 0 0 0 0 0) (replicate NINODE inode0))
    (KMem false 0 (λ _, zero_page)) (replicate NFILE file0) (λ _, pipe0) 1 None 0 0 0 0 0 true.
Definition multi_smp : smp multi :=
  let x := toy_smp 0 bios_mem in
  Smp (s_core x) (s_mem x) (Multi (s_ctl x) 0 (λ _, Ap_off)) (s_cpus x) (s_ncpu x) (s_ioapicid x) (s_lapic x) (s_n x).
Definition multi_mstate : mstate multi := MState zero_kernel multi_smp (replicate NCPU (CpuRec 0 0)) (replicate NCPU pregs0) 0 (0, []).
(** entryother.S is assembled to four bytes, which the kernel has at 1.5 megabytes. *)
Definition multi_lbl : label → Z := λ x,
  if String.eqb x "_binary_entryother_size" then 4 else KERNBASE + 0x180000.

Lemma main_boots_witness :
  ∃ s' L, main 0 0 multi_lbl 0 [0; 0; 0; 0] (KERNBASE + 0x200000) 0 (λ n, Z.of_nat n) (λ _, []) 0 [0xf4] (λ _, None) multi_mstate = Done tt s' ∧
    processor_ready (KERNBASE + 0x200000) multi_lbl s' 0 (L 0%nat) ∧ processor_ready (KERNBASE + 0x200000) multi_lbl s' 1 (L 1%nat) ∧ L 0%nat ≠ L 1%nat ∧
    first_process s' [0xf4] ∧ kernel_ok NFILE [] g0 (ms_k s').
Proof.
  destruct (main_boots 0 (KERNBASE + 0x200000) 0 0 multi_lbl [0; 0; 0; 0] bios_entries (P2V 0xf0000) (P2V 0xf0100) 0 multi_mstate 0 (λ n, Z.of_nat n) (λ _, []) 0 [0xf4] (λ _, None))
    as (s' & L & E & Hr & Hd & Hf & Hk).
  - split; vm_compute; congruence.
  - vm_compute. congruence.
  - reflexivity.
  - apply (bool_decide_unpack _). vm_compute. exact I.
  - split; [vm_compute; reflexivity|apply bios_mem_byte|apply bios_has_entries|repeat constructor|vm_compute; reflexivity|reflexivity].
  - split; [reflexivity| |split; vm_compute; congruence]. intros i b Hi. do 4 (destruct i as [|i]; [injection Hi as <-; vm_compute; reflexivity|]). done.
  - split; try reflexivity. split; intros v; apply zero_page_ok.
  - reflexivity.
  - reflexivity.
  - repeat constructor; lia.
  - exists s', L. split; [exact E|]. split; [apply Hr; apply (bool_decide_unpack _); vm_compute; exact I|].
    split; [apply Hr; apply (bool_decide_unpack _); vm_compute; exact I|]. split; [|split; [exact Hf|exact Hk]].
    intros EL. discriminate (Hd 0%nat 1%nat ltac:(apply (bool_decide_unpack _); vm_compute; exact I) ltac:(apply (bool_decide_unpack _); vm_compute; exact I) EL).
Defined.
