(* ===== verification/User.v ===== *)
(** * User programs: their system calls, ulib.c and printf.c

    A user program is the tree of its system calls with their answers.  A C string is the
    list of its characters before the null. *)

From S2P Require Import Prelude Params CString Fs Console.

(** ** System calls *)
Inductive call :=
| C_fork | C_exit | C_wait | C_sleep (n : Z)
| C_read (fd n : Z) | C_write (fd : Z) (bytes : list Z)
| C_open (path : list Z) (mode : Z) | C_close (fd : Z) | C_dup (fd : Z) | C_fstat (fd : Z)
| C_exec (path : list Z) (argv : list (list Z)) | C_kill (pid : Z)
| C_mknod (path : list Z) (major minor : Z) | C_link (old new : list Z) | C_unlink (path : list Z) | C_mkdir (path : list Z)
| C_pipe | C_chdir (path : list Z) | C_triggerpanic
(* what test programs do on purpose: a load through a pointer of their own, the instruction div
   with its dividend and divisor, and the undefined instruction; what comes of them is up to the
   machine *)
| C_load (a : Z) | C_div (x y : Z) | C_ud2.

(** What a call returns; read, fstat and pipe also store: the bytes read, the struct stat and
    the two descriptors. *)
Definition call_answer (c : call) : Type :=
  match c with
  | C_exit => Empty_set
  | C_read _ _ => Z * list Z
  | C_fstat _ => Z * stat
  | C_pipe => Z * (Z * Z)
  | _ => Z
  end.

(** A program, with a bound on the turns of its loops over system calls. *)
Inductive user (A : Type) :=
| URet (a : A)
| UCall (c : call) (k : call_answer c → user A)
| UMore.
Arguments URet {A} a.
Arguments UCall {A} c k.
Arguments UMore {A}.

Fixpoint user_bind {A B} (f : A → user B) (m : user A) : user B :=
  match m with
  | URet a => f a
  | UCall c k => UCall c (λ r, user_bind f (k r))
  | UMore => UMore
  end.
#[global] Instance user_mbind : MBind user := λ A B, user_bind.

Definition ucall (c : call) : user (call_answer c) := UCall c URet.
Definition uexit {A} : user A := UCall C_exit (λ x, match x with end).

(** ** printf.c *)
Definition putc (fd c : Z) : user unit := _ ← ucall (C_write fd [u8 c]); URet tt.

Fixpoint putcs (fd : Z) (l : list Z) : user unit :=
  match l with
  | [] => URet tt
  | c :: l => _ ← putc fd c; putcs fd l
  end.

(** The loop of print_x64 and print_x32, for numbers of [w] bits. *)
Fixpoint uprint_x (fd w : Z) (k : nat) (x : Z) : user unit :=
  match k with
  | O => URet tt
  | S k =>
      _ ← putc fd (digits !!! Z.to_nat (Z.shiftr x (w - 4)));
      uprint_x fd w k (Z.shiftl x 4 mod 2 ^ w)
  end.

Definition uprint_d (fd v : Z) : user unit :=
  let x := if v <? 0 then - v else v in
  let buf := decimal 16 x ++ (if v <? 0 then [45] else []) in
  putcs fd (reverse buf).

(** The arguments fit the format: numbers, and strings or null pointers for %s. *)
Fixpoint printf_loop (fd : Z) (fmt : list Z) (ap : list va) : user unit :=
  match fmt with
  | [] => URet tt
  | c :: fmt =>
      if negb (c =? 37) then _ ← putc fd c; printf_loop fd fmt ap
      else
      match fmt with
      | [] => URet tt
      | c :: fmt =>
          if c =? 99 then
            match ap with
            | Va_num v :: ap => _ ← putc fd v; printf_loop fd fmt ap
            | _ => UMore
            end
          else if c =? 100 then
            match ap with
            | Va_num v :: ap => _ ← uprint_d fd (s32 v); printf_loop fd fmt ap
            | _ => UMore
            end
          else if c =? 120 then
            match ap with
            | Va_num v :: ap => _ ← uprint_x fd 32 8 (u32 v); printf_loop fd fmt ap
            | _ => UMore
            end
          else if c =? 112 then
            match ap with
            | Va_num v :: ap => _ ← uprint_x fd 64 16 (u64 v); printf_loop fd fmt ap
            | _ => UMore
            end
          else if c =? 115 then
            match ap with
            | Va_str s :: ap => _ ← putcs fd (default (str "(null)") s); printf_loop fd fmt ap
            | _ => UMore
            end
          else if c =? 37 then _ ← putc fd 37; printf_loop fd fmt ap
          else _ ← putc fd 37; _ ← putc fd c; printf_loop fd fmt ap
      end
  end.

Definition printf (fd : Z) (fmt : list Z) (ap : list va) : user unit := printf_loop fd fmt ap.

(** ** ulib.c *)

(** strcpy(s, t) into the bytes [s]. *)
Definition strcpy (s t : list Z) : list Z := t ++ [0] ++ drop (S (length t)) s.

Fixpoint strcmp (p q : list Z) : Z :=
  match p, q with
  | a :: p, b :: q => if a =? b then strcmp p q else u8 a - u8 b
  | a :: _, [] => u8 a
  | [], b :: _ => - u8 b
  | [], [] => 0
  end.

(** strlen, with a bound on the bytes it looks at, and memset, which has no case for words. *)
Definition ustrlen (fuel : nat) (s : cptr) : option nat := strlen_at fuel 0 s.
Definition umemset (dst c n : Z) (m : mem) : mem := stosb (Z.to_nat (u32 n)) dst c m.

(** gets: what is read, at most [max - 1] characters and up to the end of the line. *)
Fixpoint gets_loop (k : nat) (buf : list Z) : user (list Z) :=
  match k with
  | O => URet buf
  | S k =>
      r ← ucall (C_read 0 1);
      let '(cc, bytes) := (r : Z * list Z) in
      if cc <? 1 then URet buf
      else
        let c := bytes !!! 0%nat in
        let buf := buf ++ [c] in
        if (c =? 10) || (c =? 13) then URet buf else gets_loop k buf
  end.
Definition gets (max : Z) : user (list Z) := gets_loop (Z.to_nat (max - 1)) [].

(** The result and the struct stat, when there is one. *)
Definition ustat (n : list Z) : user (Z * option stat) :=
  fd ← ucall (C_open n O_RDONLY);
  if (fd : Z) <? 0 then URet (-1, None)
  else
    r ← ucall (C_fstat fd);
    let '(r, st) := (r : Z * stat) in
    _ ← ucall (C_close fd);
    URet (r, Some st).

Fixpoint atoi_loop (n : Z) (s : list Z) : Z :=
  match s with
  | [] => n
  | c :: s => if (48 <=? c) && (c <=? 57) then atoi_loop (s32 (n * 10 + c - 48)) s else n
  end.
Definition atoi (s : list Z) : Z := atoi_loop 0 s.

(** memmove copies upwards, whatever the overlap. *)
Definition umemmove (vdst vsrc n : Z) (m : mem) : mem := move_up (Z.to_nat n) vdst vsrc m.
