(* ===== verification/Programs.v ===== *)
(** * The user programs: cat, wc, grep, ls, echo, kill, ln, mkdir, rm, init, sh, and small tests *)

From S2P Require Import Prelude Params CString Fs Console ConsoleOut Grep Sh ShTheorems ShPrint ShRun User.

(** A message with its newline. *)
Definition uprint (fd : Z) (fmt : string) (ap : list va) : user unit := printf fd (str fmt ++ [10]) ap.

(** for(i = 1; i < argc; i++) over the arguments after the program's name. *)
Fixpoint each {A} (f : A → user unit) (l : list A) : user unit :=
  match l with
  | [] => URet tt
  | a :: l => _ ← f a; each f l
  end.

(** ** cat.c *)
Fixpoint cat (fuel : nat) (fd : Z) : user unit :=
  match fuel with
  | O => UMore
  | S fuel =>
      r ← ucall (C_read fd 512);
      let '(n, buf) := (r : Z * list Z) in
      if 0 <? n then
        w ← ucall (C_write 1 (take (Z.to_nat n) buf));
        if negb ((w : Z) =? n) then _ ← uprint 1 "cat: write error" []; uexit
        else cat fuel fd
      else if n <? 0 then _ ← uprint 1 "cat: read error" []; uexit
      else URet tt
  end.

(** The loop over the files of cat, wc and grep. *)
Definition with_file (prog : string) (f : Z → list Z → user unit) (name : list Z) : user unit :=
  fd ← ucall (C_open name 0);
  if (fd : Z) <? 0 then _ ← printf 1 (str prog ++ str ": cannot open %s" ++ [10]) [Va_str (Some name)]; uexit
  else _ ← f fd name; _ ← ucall (C_close fd); URet tt.

Definition cat_main (fuel : nat) (args : list (list Z)) : user unit :=
  match args with
  | [] => _ ← cat fuel 0; uexit
  | _ => _ ← each (with_file "cat" (λ fd _, cat fuel fd)) args; uexit
  end.

(** ** wc.c *)

(** The counts l, w and c, and inword. *)
Record counts := Counts { wl : Z; ww : Z; wc_ : Z; inword : bool }.

Definition wc_char (x : counts) (b : Z) : counts :=
  let c := s32 (wc_ x + 1) in
  let l := if b =? 10 then s32 (wl x + 1) else wl x in
  if strchr [32; 13; 9; 10; 11] b then Counts l (ww x) c false
  else if negb (inword x) then Counts l (s32 (ww x + 1)) c true
  else Counts l (ww x) c true.

Fixpoint wc_loop (fuel : nat) (fd : Z) (name : list Z) (x : counts) : user unit :=
  match fuel with
  | O => UMore
  | S fuel =>
      r ← ucall (C_read fd 512);
      let '(n, buf) := (r : Z * list Z) in
      if 0 <? n then wc_loop fuel fd name (foldl wc_char x (take (Z.to_nat n) buf))
      else if n <? 0 then _ ← uprint 1 "wc: read error" []; uexit
      else uprint 1 "%d %d %d %s" [Va_num (wl x); Va_num (ww x); Va_num (wc_ x); Va_str (Some name)]
  end.
Definition wc (fuel : nat) (fd : Z) (name : list Z) : user unit := wc_loop fuel fd name (Counts 0 0 0 false).

Definition wc_main (fuel : nat) (args : list (list Z)) : user unit :=
  match args with
  | [] => _ ← wc fuel 0 []; uexit
  | _ => _ ← each (with_file "wc" (wc fuel)) args; uexit
  end.

(** ** ls.c *)

(** The loop of fmtname, which goes back from the end of the path: the characters after the
    last slash. *)
Fixpoint back_to_slash (rev_path p : list Z) : list Z :=
  match rev_path with
  | [] => p
  | c :: rev_path => if c =? 47 then p else back_to_slash rev_path (c :: p)
  end.

(** The name, padded with blanks. *)
Definition fmtname (path : list Z) : list Z :=
  let p := back_to_slash (reverse path) [] in
  if (Z.to_nat DIRSIZ <=? length p)%nat then p else p ++ replicate (Z.to_nat DIRSIZ - length p) 32.

Definition print_stat (name : list Z) (st : stat) : user unit :=
  uprint 1 "%s %d %d %d" [Va_str (Some name); Va_num (stat_type st); Va_num (stat_ino st); Va_num (stat_size st)].

(** The entries of a directory that is open at [fd]; [buf] is the path with its slash. *)
Fixpoint ls_entries (fuel : nat) (fd : Z) (buf : list Z) : user unit :=
  match fuel with
  | O => UMore
  | S fuel =>
      r ← ucall (C_read fd DIRENT_SIZE);
      let '(n, de) := (r : Z * list Z) in
      if negb (n =? DIRENT_SIZE) then URet tt
      else if le_get (take 2 de) =? 0 then ls_entries fuel fd buf
      else
        let path := buf ++ chars (take (Z.to_nat DIRSIZ) (drop 2 de)) in
        r ← ustat path;
        let '(r, st) := (r : Z * option stat) in
        _ ← match st with
            | Some st => if r <? 0 then uprint 1 "ls: cannot stat %s" [Va_str (Some path)] else print_stat (fmtname path) st
            | None => uprint 1 "ls: cannot stat %s" [Va_str (Some path)]
            end;
        ls_entries fuel fd buf
  end.

Definition ls (fuel : nat) (path : list Z) : user unit :=
  fd ← ucall (C_open path 0);
  if (fd : Z) <? 0 then uprint 2 "ls: cannot open %s" [Va_str (Some path)]
  else
    r ← ucall (C_fstat fd);
    let '(r, st) := (r : Z * stat) in
    if r <? 0 then
      _ ← uprint 2 "ls: cannot stat %s" [Va_str (Some path)];
      _ ← ucall (C_close fd); URet tt
    else
      _ ← (if stat_type st =? T_FILE then print_stat (fmtname path) st
           else if stat_type st =? T_DIR then
             if 512 <? Z.of_nat (length path) + 1 + DIRSIZ + 1 then uprint 1 "ls: path too long" []
             else ls_entries fuel fd (path ++ [47])
           else URet tt);
      _ ← ucall (C_close fd); URet tt.

Definition ls_main (fuel : nat) (args : list (list Z)) : user unit :=
  match args with
  | [] => _ ← ls fuel (str "."); uexit
  | _ => _ ← each (ls fuel) args; uexit
  end.

(** ** echo.c, kill.c, ln.c, mkdir.c, rm.c *)
Fixpoint echo_loop (args : list (list Z)) : user unit :=
  match args with
  | [] => URet tt
  | a :: args =>
      _ ← printf 1 (str "%s%s") [Va_str (Some a); Va_str (Some match args with [] => [10] | _ => [32] end)];
      echo_loop args
  end.
Definition echo_main (args : list (list Z)) : user unit := _ ← echo_loop args; uexit.

Definition kill_main (args : list (list Z)) : user unit :=
  match args with
  | [] => _ ← uprint 2 "usage: kill pid..." []; uexit
  | _ => _ ← each (λ a, _ ← ucall (C_kill (atoi a)); URet tt) args; uexit
  end.

Definition ln_main (args : list (list Z)) : user unit :=
  match args with
  | [old; new] =>
      r ← ucall (C_link old new);
      _ ← (if (r : Z) <? 0 then uprint 2 "link %s %s: failed" [Va_str (Some old); Va_str (Some new)] else URet tt);
      uexit
  | _ => _ ← uprint 2 "Usage: ln old new" []; uexit
  end.

(** The loop of mkdir and rm, which ends at the first failure. *)
Fixpoint until_failure (c : list Z → user Z) (msg : string) (args : list (list Z)) : user unit :=
  match args with
  | [] => URet tt
  | a :: args =>
      r ← c a;
      if (r : Z) <? 0 then uprint 2 msg [Va_str (Some a)] else until_failure c msg args
  end.
Definition mkdir_main (args : list (list Z)) : user unit :=
  match args with
  | [] => _ ← uprint 2 "Usage: mkdir files..." []; uexit
  | _ => _ ← until_failure (λ a, ucall (C_mkdir a)) "mkdir: %s failed to create" args; uexit
  end.
Definition rm_main (args : list (list Z)) : user unit :=
  match args with
  | [] => _ ← uprint 2 "Usage: rm files..." []; uexit
  | _ => _ ← until_failure (λ a, ucall (C_unlink a)) "rm: %s failed to delete" args; uexit
  end.

(** ** init.c *)

(** Waiting for the shell: other children that end are zombies it has been given. *)
Fixpoint init_wait (fuel : nat) (pid : Z) : user unit :=
  match fuel with
  | O => UMore
  | S fuel =>
      wpid ← ucall C_wait;
      if (0 <=? (wpid : Z)) && negb (wpid =? pid) then _ ← uprint 1 "zombie!" []; init_wait fuel pid
      else URet tt
  end.

Fixpoint init_loop (fuel turns : nat) : user unit :=
  match turns with
  | O => UMore
  | S turns =>
      _ ← uprint 1 "init: starting sh" [];
      pid ← ucall C_fork;
      if (pid : Z) <? 0 then _ ← uprint 1 "init: fork failed" []; uexit
      else if pid =? 0 then
        _ ← ucall (C_exec (str "sh") [str "sh"]);
        _ ← uprint 1 "init: exec sh failed" []; uexit
      else _ ← init_wait fuel pid; init_loop fuel turns
  end.

Definition init_main (fuel turns : nat) : user unit :=
  fd ← ucall (C_open (str "console") O_RDWR);
  _ ← (if (fd : Z) <? 0 then
         _ ← ucall (C_mknod (str "console") 1 1);
         _ ← ucall (C_open (str "console") O_RDWR); URet tt
       else URet tt);
  _ ← ucall (C_dup 0);
  _ ← ucall (C_dup 0);
  init_loop fuel turns.

(** ** grep.c *)

(** The lines of the buffer, each written when it matches; what is left behind the last newline,
    and whether there was one. *)
Fixpoint ugrep_lines (fuel : nat) (pattern p : list Z) : user (list Z * bool) :=
  match fuel with
  | O => URet (p, false)
  | S fuel =>
      match split_line p with
      | None => URet (p, false)
      | Some (line, rest) =>
          _ ← (if grep_match pattern line then _ ← ucall (C_write 1 (line ++ [newline])); URet tt else URet tt);
          r ← ugrep_lines fuel pattern rest;
          URet (fst (r : list Z * bool), true)
      end
  end.

Fixpoint ugrep (fuel : nat) (pattern : list Z) (fd : Z) (buf : list Z) : user unit :=
  match fuel with
  | O => UMore
  | S fuel =>
      r ← ucall (C_read fd (Z.of_nat (BUFSZ - length buf - 1)));
      let '(n, bytes) := (r : Z * list Z) in
      if 0 <? n then
        let buf := buf ++ bytes in
        x ← ugrep_lines (length buf) pattern buf;
        let '(p, moved) := (x : list Z * bool) in
        ugrep fuel pattern fd (if moved then p else [])
      else URet tt
  end.

Definition grep_main (fuel : nat) (args : list (list Z)) : user unit :=
  match args with
  | [] => _ ← uprint 2 "usage: grep pattern [file ...]" []; uexit
  | [pattern] => _ ← ugrep fuel pattern 0 []; uexit
  | pattern :: files => _ ← each (with_file "grep" (λ fd _, ugrep fuel pattern fd [])) files; uexit
  end.

(** ** sh.c: main *)

(** The tree of runcmd as calls. *)
Fixpoint prog_calls (p : prog) : user unit :=
  match p with
  | Exit => uexit
  | Exec path argv k => _ ← ucall (C_exec path argv); prog_calls k
  | Print fd msg k => _ ← putcs fd msg; prog_calls k
  | Close fd k => _ ← ucall (C_close fd); prog_calls k
  | Dup fd k => _ ← ucall (C_dup fd); prog_calls k
  | Open file mode k failed => fd ← ucall (C_open file mode); if (fd : Z) <? 0 then prog_calls failed else prog_calls k
  | Pipe k failed =>
      r ← ucall C_pipe;
      let '(r, (p0, p1)) := (r : Z * (Z * Z)) in
      if r <? 0 then prog_calls failed else prog_calls (k p0 p1)
  | Fork child parent failed =>
      pid ← ucall C_fork;
      if (pid : Z) =? -1 then prog_calls failed else if pid =? 0 then prog_calls child else prog_calls parent
  | Wait k => _ ← ucall C_wait; prog_calls k
  | Chdir path k failed => r ← ucall (C_chdir path); if (r : Z) <? 0 then prog_calls failed else prog_calls k
  end.

(** The line in the buffer of 100 characters, or nothing at the end of the input. *)
Definition getcmd : user (option (list Z)) :=
  _ ← printf 2 (str "$ ") [];
  s ← gets 100;
  let buf := chars s in
  URet (if bool_decide (buf = []) then None else Some buf).

Definition runcmd_line (buf : list Z) : user unit :=
  match parsecmd buf with
  | Ok (c, b) _ => prog_calls (runcmd (strings b c))
  | Syntax msg => prog_calls (sh_panic (str msg))
  | Out_of_fuel => uexit      (* does not happen *)
  end.

(** One turn of the loop of main. *)
Definition sh_turn (buf : list Z) : user unit :=
  if bool_decide (take 3 buf = str "cd ") then
    let path := drop 3 (take (length buf - 1) buf) in
    r ← ucall (C_chdir path);
    if (r : Z) <? 0 then uprint 2 "cannot cd %s" [Va_str (Some path)] else URet tt
  else
    pid ← ucall C_fork;
    if (pid : Z) =? -1 then prog_calls (sh_panic (str "fork"))
    else
      _ ← (if pid =? 0 then runcmd_line buf else URet tt);
      _ ← ucall C_wait; URet tt.

Fixpoint sh_loop (fuel : nat) : user unit :=
  match fuel with
  | O => UMore
  | S fuel =>
      o ← getcmd;
      match o with
      | None => uexit
      | Some buf => _ ← sh_turn buf; sh_loop fuel
      end
  end.

(** Until three descriptors are open. *)
Fixpoint open_console (fuel : nat) : user unit :=
  match fuel with
  | O => UMore
  | S fuel =>
      fd ← ucall (C_open (str "console") O_RDWR);
      if 0 <=? (fd : Z) then if 3 <=? fd then _ ← ucall (C_close fd); URet tt else open_console fuel
      else URet tt
  end.

Definition sh_main (fuel : nat) : user unit := _ ← open_console fuel; sh_loop fuel.

(** ** forktest.c, stressfs.c, zombie.c *)

(** The printf of forktest.c writes the format as it is. *)
Definition raw_print (fd : Z) (msg : string) : user unit := _ ← ucall (C_write fd (str msg ++ [10])); URet tt.

(** The number of children. *)
Fixpoint fork_loop (k : nat) (n : Z) : user Z :=
  match k with
  | O => URet n
  | S k =>
      pid ← ucall C_fork;
      if (pid : Z) <? 0 then URet n
      else if pid =? 0 then uexit
      else fork_loop k (n + 1)
  end.
Fixpoint wait_loop (k : nat) : user bool :=
  match k with
  | O => URet true
  | S k => r ← ucall C_wait; if (r : Z) <? 0 then URet false else wait_loop k
  end.

Definition FORKTEST_N : Z := 1000.
Definition forktest : user unit :=
  _ ← raw_print 1 "fork test";
  n ← fork_loop (Z.to_nat FORKTEST_N) 0;
  if (n : Z) =? FORKTEST_N then _ ← raw_print 1 "fork claimed to work N times!"; uexit
  else
    ok ← wait_loop (Z.to_nat n);
    if negb (ok : bool) then _ ← raw_print 1 "wait stopped early"; uexit
    else
      r ← ucall C_wait;
      if negb ((r : Z) =? -1) then _ ← raw_print 1 "wait got too many"; uexit
      else raw_print 1 "fork test OK".
Definition forktest_main : user unit := _ ← forktest; uexit.

(** for(i = 0; i < n; i++) *)
Fixpoint times (n : nat) (i : Z) (f : Z → user unit) : user unit :=
  match n with
  | O => URet tt
  | S n => _ ← f i; times n (i + 1) f
  end.

(** The index at which the process stops forking. *)
Fixpoint stress_forks (k : nat) (i : Z) : user Z :=
  match k with
  | O => URet i
  | S k => pid ← ucall C_fork; if 0 <? (pid : Z) then URet i else stress_forks k (i + 1)
  end.

Definition stressfs_main : user unit :=
  _ ← uprint 1 "stressfs starting" [];
  let data := replicate 512 97 in
  i ← stress_forks 4 0;
  _ ← uprint 1 "write %d" [Va_num i];
  let path := str "stressfs" ++ [48 + (i : Z)] in
  fd ← ucall (C_open path (Z.lor O_CREATE O_RDWR));
  _ ← times 20 0 (λ _, _ ← ucall (C_write fd data); URet tt);
  _ ← ucall (C_close fd);
  _ ← uprint 1 "read" [];
  fd ← ucall (C_open path O_RDONLY);
  _ ← times 20 0 (λ _, _ ← ucall (C_read fd 512); URet tt);
  _ ← ucall (C_close fd);
  _ ← ucall C_wait;
  uexit.

Definition zombie_main : user unit :=
  pid ← ucall C_fork;
  _ ← (if 0 <? (pid : Z) then _ ← ucall (C_sleep 5); URet tt else URet tt);
  uexit.

(** ** The programs that crash: user_crash.c, null_deref.c, invalid_pointer.c,
    invalid_instruction.c, trap_test.c *)
Definition user_crash_main : user unit :=
  _ ← uprint 1 "Starting user crash test (Div Zero)..." [];
  z ← ucall (C_div 10 0);
  _ ← uprint 1 "Result: %d" [Va_num z]; uexit.
Definition null_deref_main : user unit :=
  _ ← uprint 1 "null_deref: Testing NULL pointer dereference..." [];
  value ← ucall (C_load 0);
  _ ← uprint 1 "Value: %d (should not print)" [Va_num value]; uexit.
Definition invalid_pointer_main : user unit :=
  _ ← uprint 1 "invalid_pointer: Testing access to invalid memory address..." [];
  value ← ucall (C_load 0xDEADBEEF);
  _ ← uprint 1 "Value: %d (should not print)" [Va_num value]; uexit.
Definition invalid_instruction_main : user unit :=
  _ ← uprint 1 "invalid_instruction: Testing invalid opcode..." [];
  _ ← ucall C_ud2;
  _ ← uprint 1 "After invalid instruction (should not print)" []; uexit.
Definition trap_test_main : user unit :=
  _ ← uprint 1 "trap_test: Triggering page fault..." [];
  _ ← ucall C_triggerpanic;
  _ ← uprint 1 "trap_test: Should not reach here!" []; uexit.
