(* ===== verification/UserTheorems.v ===== *)
(** * What the small programs write

    A program with an input that arrives in pieces and an output: cat copies, wc counts,
    grep writes what its loop selects, printf writes the text of its format, and atoi reads
    back what %d prints.  Over any environment: a turn of the shell makes the calls of its
    line; forktest reports whether the kernel refuses a fork. *)

From stdpp Require Import pretty.
From S2P Require Import Prelude Params CString Fs Console ConsoleOut Grep Sh ShTheorems ShPrint ShRun User Programs.

(** ** Running a program *)

(** The pieces that reads will give, and the bytes written to each descriptor. *)
Record world := World { w_in : list (list Z); w_out : Z → list Z }.

Definition w_write (fd : Z) (bytes : list Z) (w : world) : world :=
  World (w_in w) (λ x, if x =? fd then w_out w x ++ bytes else w_out w x).

(** Reads take the pieces in order and then find the end; writes write everything; a file can
    be opened at descriptor 3; other calls fail. *)
Definition w_answer (c : call) (w : world) : option (call_answer c * world) :=
  match c with
  | C_exit => None
  | C_read _ _ =>
      match w_in w with
      | [] => Some ((0, []), w)
      | p :: ps => Some ((Z.of_nat (length p), p), World ps (w_out w))
      end
  | C_write fd bytes => Some (Z.of_nat (length bytes), w_write fd bytes w)
  | C_open _ _ => Some (3, w)
  | C_close _ => Some (0, w)
  | C_fstat _ => Some ((-1, Stat 0 0 0 0 0), w)
  | C_pipe => Some ((-1, (0, 0)), w)
  | _ => Some (-1, w)
  end.

Inductive ending (A : Type) := Returned (a : A) | Exited | Unfinished.
Arguments Returned {A} a.
Arguments Exited {A}.
Arguments Unfinished {A}.

Fixpoint exec_user {A} (m : user A) (w : world) : ending A * world :=
  match m with
  | URet a => (Returned a, w)
  | UMore => (Unfinished, w)
  | UCall c k => match w_answer c w with Some (r, w) => exec_user (k r) w | None => (Exited, w) end
  end.

Lemma exec_bind {A B} (m : user A) (f : A → user B) w :
  exec_user (mbind f m) w =
    match exec_user m w with
    | (Returned a, w) => exec_user (f a) w
    | (Exited, w) => (Exited, w)
    | (Unfinished, w) => (Unfinished, w)
    end.
Proof.
  unfold mbind, user_mbind. revert w. induction m as [a|c k IH|]; intros w; cbn [user_bind exec_user]; try done.
  destruct (w_answer c w) as [[r w']|]; [apply IH|done].
Qed.

Lemma exec_returned {A B} (m : user A) (f : A → user B) w a w' :
  exec_user m w = (Returned a, w') → exec_user (mbind f m) w = exec_user (f a) w'.
Proof. intros E. by rewrite exec_bind, E. Qed.

(** ** printf *)
Lemma exec_putc fd c w : exec_user (putc fd c) w = (Returned tt, w_write fd [u8 c] w).
Proof. done. Qed.

(** Worlds with the same output. *)
Record same_world (w w' : world) : Prop := { sw_in : w_in w' = w_in w; sw_out fd : w_out w' fd = w_out w fd }.
#[global] Instance same_world_equiv : Equivalence same_world.
Proof.
  split; [by split| |].
  - intros w w' [H1 H2]. by split.
  - intros w1 w2 w3 [H1 H2] [H3 H4]. split; [congruence|]. intros fd. by rewrite H4.
Qed.

Lemma exec_putcs fd l w : bytes_ok l → ∃ w', exec_user (putcs fd l) w = (Returned tt, w') ∧ same_world (w_write fd l w) w'.
Proof.
  intros Hl. revert w. induction Hl as [|c l Hc Hl IH]; intros w.
  - exists w. split; [done|]. split; [done|]. intros x. cbn. destruct (x =? fd); [by rewrite app_nil_r|done].
  - cbn [putcs]. rewrite (exec_returned _ _ _ _ _ (exec_putc fd c w)). destruct (IH (w_write fd [u8 c] w)) as (w' & E & [H1 H2]).
    exists w'. split; [done|]. split; [done|]. intros x. rewrite H2. cbn. unfold u8. rewrite Z.mod_small by exact Hc.
    destruct (x =? fd); [by rewrite <- app_assoc|done].
Qed.

Lemma w_write_app fd t t' w w1 w2 :
  same_world (w_write fd t w) w1 → same_world (w_write fd t' w1) w2 → same_world (w_write fd (t ++ t') w) w2.
Proof.
  intros [H1 H2] [H3 H4]. split; [by rewrite H3|]. intros x. rewrite H4. cbn. rewrite H2. cbn.
  destruct (x =? fd); [by rewrite app_assoc|done].
Qed.

(** A program that writes [t] to [fd] and returns. *)
Definition writes (fd : Z) (m : user unit) (t : list Z) : Prop :=
  ∀ w, ∃ w', exec_user m w = (Returned tt, w') ∧ same_world (w_write fd t w) w'.

Lemma writes_bind fd m t (k : user unit) t' : writes fd m t → writes fd k t' → writes fd (mbind (λ _, k) m) (t ++ t').
Proof.
  intros Hm Hk w. destruct (Hm w) as (w1 & E1 & H1). destruct (Hk w1) as (w2 & E2 & H2). exists w2.
  rewrite (exec_returned _ _ _ _ _ E1). split; [done|]. by eapply w_write_app.
Qed.
Lemma writes_nil fd : writes fd (URet tt) [].
Proof. intros w. exists w. split; [done|]. split; [done|]. intros x. cbn. destruct (x =? fd); [by rewrite app_nil_r|done]. Qed.
Lemma writes_putc fd c : writes fd (putc fd c) [u8 c].
Proof. intros w. exists (w_write fd [u8 c] w). split; [done|reflexivity]. Qed.
Lemma writes_putcs fd l : bytes_ok l → writes fd (putcs fd l) l.
Proof. intros Hl w. by apply exec_putcs. Qed.

Lemma digit_byte d : 0 ≤ d < 16 → is_byte (digits !!! Z.to_nat d).
Proof.
  intros H. assert (Hx : ∃ n, d = Z.of_nat n ∧ (n < 16)%nat) by (exists (Z.to_nat d); lia). destruct Hx as (n & -> & Hn).
  rewrite Nat2Z.id. do 16 (destruct n as [|n]; [by split|]). lia.
Qed.

Lemma digit_value d : 0 ≤ d < 10 → digits !!! Z.to_nat d = 48 + d.
Proof.
  intros H. assert (Hx : ∃ n, d = Z.of_nat n ∧ (n < 10)%nat) by (exists (Z.to_nat d); lia). destruct Hx as (n & -> & Hn).
  rewrite Nat2Z.id. do 10 (destruct n as [|n]; [done|]). lia.
Qed.

Lemma writes_x fd n k y :
  (k ≤ n)%nat → writes fd (uprint_x fd (4 * Z.of_nat n) k ((y * 16 ^ Z.of_nat (n - k)) mod 16 ^ Z.of_nat n)) (hex k y).
Proof.
  induction k as [|k IH]; intros Hk; [apply writes_nil|]. cbn [uprint_x hex].
  rewrite Z.shiftr_div_pow2 by lia.
  replace (2 ^ (4 * Z.of_nat n - 4)) with (16 ^ Z.of_nat (n - 1)).
  2: { change 16 with (2 ^ 4). rewrite <- Z.pow_mul_r by lia. f_equal. lia. }
  rewrite hex_digit by done. rewrite Z.shiftl_mul_pow2 by lia.
  replace (2 ^ (4 * Z.of_nat n)) with (16 ^ Z.of_nat n) by (change 16 with (2 ^ 4); by rewrite <- Z.pow_mul_r by lia).
  rewrite Zmult_mod_idemp_l, <- Z.mul_assoc.
  replace (16 ^ Z.of_nat (n - S k) * 2 ^ 4) with (16 ^ Z.of_nat (n - k)).
  2: { change (2 ^ 4) with (16 ^ 1). rewrite <- Z.pow_add_r by lia. f_equal. lia. }
  set (d := digits !!! _). assert (Hd : u8 d = d).
  { apply Z.mod_small, digit_byte, Z.mod_pos_bound. lia. }
  change (d :: hex k y) with ([d] ++ hex k y). rewrite <- Hd at 2. apply writes_bind; [apply writes_putc|apply IH; lia].
Qed.

Lemma writes_d fd v : - 2 ^ 31 ≤ v < 2 ^ 31 → writes fd (uprint_d fd v) (str (pretty v)).
Proof.
  intros Hv. assert (E : str (pretty v) = reverse (decimal 16 (if v <? 0 then - v else v) ++ (if v <? 0 then [45] else []))).
  { rewrite reverse_app. destruct v as [|v|v]; [done|..].
    - change (str (pretty (Zpos v))) with (str (pretty_N_go (Z.to_N (Zpos v)) "")). rewrite (decimal_pretty 16) by lia. by rewrite app_nil_r.
    - change (str (pretty (Zneg v))) with (45 :: str (pretty_N_go (Z.to_N (Zpos v)) "")). rewrite (decimal_pretty 16) by lia.
      by rewrite app_nil_r. }
  rewrite E. apply writes_putcs. rewrite <- E. unfold str. apply Forall_fmap, Forall_forall. intros c _. cbn.
  unfold is_byte. pose proof (Ascii.N_ascii_bounded c). lia.
Qed.

(** The text of a user format; %c is a character. *)
Fixpoint uformat (fmt : list Z) (ap : list va) : option (list Z) :=
  match fmt with
  | [] => Some []
  | c :: fmt =>
      if negb (c =? 37) then cons (u8 c) <$> uformat fmt ap
      else
      match fmt with
      | [] => Some []
      | c :: fmt =>
          if (c =? 99) || converts c then
            match ap with
            | [] => None
            | a :: ap =>
                t ← (if c =? 99 then match a with Va_num v => Some [u8 v] | Va_str _ => None end
                     else match a with Va_str s => if c =? 115 then Some (default (str "(null)") s) else None | _ => convert c a end);
                app t <$> uformat fmt ap
            end
          else if c =? 37 then cons 37 <$> uformat fmt ap
          else app [37; u8 c] <$> uformat fmt ap
      end
  end.

Definition arg_ok (a : va) : Prop := match a with Va_str (Some s) => bytes_ok s | _ => True end.

(** One conversion. *)
Lemma writes_convert fd c a t fmt ap t' :
  c =? 99 = false → converts c = true →
  match a with Va_str s => if c =? 115 then Some (default (str "(null)") s) else None | _ => convert c a end = Some t →
  arg_ok a → writes fd (printf_loop fd fmt ap) t' → writes fd (printf_loop fd (37 :: c :: fmt) (a :: ap)) (t ++ t').
Proof.
  intros Hc99 Hc Ht Ha Hk. cbn [printf_loop]. change (37 =? 37) with true. cbn [negb]. rewrite Hc99.
  destruct a as [v|s]; cbn [convert] in Ht.
  - destruct (c =? 100); [|destruct (c =? 120); [|destruct (c =? 112); [|done]]]; injection Ht as <-; (apply writes_bind; [|done]).
    + apply writes_d, s32_range.
    + pose proof (writes_x fd 8 8 v (le_n _)) as H. by rewrite Z.mul_1_r in H.
    + pose proof (writes_x fd 16 16 v (le_n _)) as H. by rewrite Z.mul_1_r in H.
  - destruct (Z.eqb_spec c 115) as [->|]; [|done]. injection Ht as <-. cbn [Z.eqb Pos.eqb].
    apply writes_bind; [|done]. apply writes_putcs. destruct s as [s|]; [exact Ha|]. by apply (bool_decide_unpack _).
Qed.

Lemma printf_put fd fmt ap t : uformat fmt ap = Some t → Forall arg_ok ap → writes fd (printf fd fmt ap) t.
Proof.
  unfold printf. remember (length fmt) as n eqn:Hn. revert fmt ap t Hn.
  induction (Nat.lt_wf_0 n) as [n _ IH]. intros fmt ap t -> Ht Ha.
  assert (IH' : ∀ fmt' ap t, (length fmt' < length fmt)%nat → uformat fmt' ap = Some t → Forall arg_ok ap → writes fd (printf_loop fd fmt' ap) t).
  { intros. by eapply IH. } clear IH.
  destruct fmt as [|c fmt]; [injection Ht as <-; apply writes_nil|]. cbn [uformat] in Ht.
  destruct (Z.eqb_spec c 37) as [->|Hc]; cbn [negb] in Ht.
  2: { apply fmap_Some in Ht as (t' & Ht & ->). cbn [printf_loop]. rewrite (proj2 (Z.eqb_neq c 37)) by done. cbn [negb].
       apply (writes_bind fd _ [u8 c]); [apply writes_putc|]. by apply IH'; [cbn; lia|..]. }
  destruct fmt as [|c fmt]; [injection Ht as <-; apply writes_nil|].
  assert (Hlen : (length fmt < length (37%Z :: c :: fmt))%nat) by (cbn; lia).
  destruct (c =? 99) eqn:E99; cbn [orb] in Ht.
  { destruct ap as [|a ap]; [done|]. apply Forall_cons in Ha as [Ha Hap]. apply bind_Some in Ht as (t1 & H1 & (t2 & H2 & ->)%fmap_Some).
    destruct a as [v|]; [|done]. injection H1 as <-. cbn [printf_loop]. change (37 =? 37) with true. cbn [negb]. rewrite E99.
    apply writes_bind; [apply writes_putc|by apply IH']. }
  destruct (converts c) eqn:Ec.
  - destruct ap as [|a ap]; [done|]. apply Forall_cons in Ha as [Ha Hap]. apply bind_Some in Ht as (t1 & H1 & (t2 & H2 & ->)%fmap_Some).
    apply writes_convert; [done|done|done|done|by apply IH'].
  - unfold converts in Ec. apply orb_false_iff in Ec as [[[Ed Ex]%orb_false_iff Ep]%orb_false_iff Es].
    cbn [printf_loop]. change (37 =? 37) with true. cbn [negb]. rewrite E99, Ed, Ex, Ep, Es.
    destruct (Z.eqb_spec c 37) as [->|_]; apply fmap_Some in Ht as (t' & Ht & ->).
    + apply (writes_bind fd _ [37]); [apply (writes_putc fd 37)|by apply IH'].
    + apply (writes_bind fd _ [37]); [apply (writes_putc fd 37)|]. apply (writes_bind fd _ [u8 c]); [apply writes_putc|by apply IH'].
Qed.

(** ** cat *)

(** Pieces as read gives them: some bytes, at most those asked for. *)
Definition pieces_ok (ps : list (list Z)) : Prop := Forall (λ p, (0 < length p ≤ 512)%nat) ps.

Lemma cat_copies_all fuel fd ps out :
  pieces_ok ps → (length ps < fuel)%nat →
  ∃ w', exec_user (cat fuel fd) (World ps out) = (Returned tt, w') ∧ same_world (w_write 1 (concat ps) (World [] out)) w'.
Proof.
  intros Hps. revert fuel out. induction Hps as [|p ps Hp Hps IH]; intros fuel out Hf; (destruct fuel as [|fuel]; [lia|]); cbn [cat].
  - rewrite exec_bind. exists (World [] out). split; [done|]. split; [done|]. intros x. cbn. destruct (x =? 1); [by rewrite app_nil_r|done].
  - rewrite exec_bind. cbn [exec_user ucall w_answer w_in w_out].
    rewrite (proj2 (Z.ltb_lt 0 _)) by lia. rewrite exec_bind. cbn [exec_user ucall w_answer].
    rewrite Nat2Z.id, take_ge, Z.eqb_refl by lia. cbn [negb].
    destruct (IH fuel (w_out (w_write 1 p (World ps out)))) as (w' & E & [H1 H2]); [cbn in Hf; lia|]. exists w'. split; [exact E|].
    split; [done|]. intros x. rewrite H2. cbn. destruct (x =? 1); [by rewrite <- app_assoc|done].
Qed.

(** ** wc *)
Definition is_blank (c : Z) : bool := strchr [32; 13; 9; 10; 11] c.

(** The words of a text: its longest pieces without blanks. *)
Fixpoint words (t : list Z) : list (list Z) :=
  match t with
  | [] => []
  | c :: t =>
      if is_blank c then words t
      else match t with
           | d :: _ => if is_blank d then [c] :: words t
                       else match words t with w :: ws => (c :: w) :: ws | [] => [[c]] end
           | [] => [[c]]
           end
  end.
Definition newlines (t : list Z) : Z := Z.of_nat (length (filter (λ c, c = 10) t)).
Definition starts_word (t : list Z) : Z := match t with c :: _ => if is_blank c then 0 else 1 | [] => 0 end.

Lemma words_cons c t :
  Z.of_nat (length (words (c :: t))) =
    if is_blank c then Z.of_nat (length (words t)) else 1 + Z.of_nat (length (words t)) - starts_word t.
Proof.
  cbn [words]. destruct (is_blank c); [done|]. destruct t as [|d t]; [done|]. cbn [starts_word].
  destruct (is_blank d) eqn:Hd; [cbn [length]; lia|].
  destruct (words (d :: t)) as [|w ws] eqn:E; [|cbn [length]; lia].
  cbn [words] in E. rewrite Hd in E. destruct t as [|d' t]; [done|]. destruct (is_blank d'); [done|]. by destruct (words (d' :: t)).
Qed.

Lemma newlines_cons c t : newlines (c :: t) = (if c =? 10 then 1 else 0) + newlines t.
Proof. unfold newlines. rewrite filter_cons. destruct (decide (c = 10)) as [->|H]; [cbn [length Z.eqb Pos.eqb]; lia|].
  by rewrite (proj2 (Z.eqb_neq c 10)). Qed.

Lemma words_short t : Z.of_nat (length (words t)) ≤ Z.of_nat (length t).
Proof.
  induction t as [|c t IH]; [done|]. rewrite words_cons. cbn [length].
  assert (0 ≤ starts_word t) by (destruct t as [|d t]; cbn [starts_word]; [done|destruct (is_blank d); lia]). destruct (is_blank c); lia.
Qed.

(** wc's loop over any text, from any counts that cannot overflow. *)
Lemma wc_fold t x :
  0 ≤ wl x ≤ wc_ x → 0 ≤ ww x ≤ wc_ x → wc_ x + Z.of_nat (length t) < 2 ^ 31 →
  let y := foldl wc_char x t in
  wl y = wl x + newlines t ∧ wc_ y = wc_ x + Z.of_nat (length t) ∧
  ww y = ww x + Z.of_nat (length (words t)) - (if inword x then starts_word t else 0).
Proof.
  revert x. induction t as [|c t IH]; intros x Hl Hw Hb; cbn zeta.
  - change (newlines []) with 0. cbn. destruct (inword x); lia.
  - cbn [foldl length] in *. rewrite newlines_cons, words_cons. cbn [starts_word].
    destruct (IH (wc_char x c)) as (H1 & H2 & H3).
    all: unfold wc_char in *; fold (is_blank c) in *; rewrite ?(s32_nonneg (wc_ x + 1)), ?(s32_nonneg (ww x + 1)), ?(s32_nonneg (wl x + 1)) in * by lia.
    all: destruct (is_blank c), (inword x), (c =? 10); cbn [negb wl ww wc_ inword] in *; lia.
Qed.

Lemma wc_counts_text t :
  Z.of_nat (length t) < 2 ^ 31 →
  ∃ b, foldl wc_char (Counts 0 0 0 false) t = Counts (newlines t) (Z.of_nat (length (words t))) (Z.of_nat (length t)) b.
Proof.
  intros Ht. destruct (wc_fold t (Counts 0 0 0 false)) as (H1 & H2 & H3); [cbn; lia..|]. exists (inword (foldl wc_char (Counts 0 0 0 false) t)).
  destruct (foldl _ _ t) as [l w c b]; cbn [wl ww wc_ inword] in *. f_equal; lia.
Qed.

Lemma wc_loop_counts fuel fd name ps x out :
  pieces_ok ps → (length ps < fuel)%nat →
  exec_user (wc_loop fuel fd name x) (World ps out) =
    let y := foldl wc_char x (concat ps) in
    exec_user (uprint 1 "%d %d %d %s" [Va_num (wl y); Va_num (ww y); Va_num (wc_ y); Va_str (Some name)]) (World [] out).
Proof.
  intros Hps. revert fuel x. induction Hps as [|p ps Hp Hps IH]; intros fuel x Hf; (destruct fuel as [|fuel]; [lia|]); cbn [wc_loop].
  - by rewrite exec_bind.
  - rewrite exec_bind. cbn [exec_user ucall w_answer w_in w_out]. rewrite (proj2 (Z.ltb_lt 0 _)) by lia.
    rewrite Nat2Z.id, take_ge by lia. rewrite IH by (cbn in Hf; lia). cbn [concat]. by rewrite foldl_app.
Qed.

Lemma wc_line a b c name :
  uformat (str "%d %d %d %s" ++ [10]) [Va_num a; Va_num b; Va_num c; Va_str (Some name)] =
  Some (str (pretty (s32 a)) ++ [32] ++ str (pretty (s32 b)) ++ [32] ++ str (pretty (s32 c)) ++ [32] ++ name ++ [10]).
Proof. reflexivity. Qed.

(** ** atoi *)
Definition digit_char (c : Z) : bool := (48 <=? c) && (c <=? 57).

Lemma atoi_digits room x n rest :
  0 ≤ x < 10 ^ Z.of_nat room → 0 ≤ n → n * 10 ^ Z.of_nat (length (decimal room x)) + x < 2 ^ 31 →
  atoi_loop n (reverse (decimal room x) ++ rest) = atoi_loop (n * 10 ^ Z.of_nat (length (decimal room x)) + x) rest.
Proof.
  revert x n rest. induction room as [|room IH]; intros x n rest Hx Hn Hb.
  - cbn in *. f_equal. lia.
  - cbn [decimal] in *. set (l := if x / 10 =? 0 then [] else decimal room (x / 10)) in *.
    pose proof (Z.mod_pos_bound x 10). pose proof (Z.div_mod x 10).
    cbn [length] in Hb |- *. rewrite Nat2Z.inj_succ, Z.pow_succ_r in Hb |- * by lia.
    assert (Hp : 0 < 10 ^ Z.of_nat (length l)) by (apply Z.pow_pos_nonneg; lia).
    assert (E : ∀ r, atoi_loop n (reverse l ++ r) = atoi_loop (n * 10 ^ Z.of_nat (length l) + x / 10) r).
    { intros r. unfold l in *. destruct (Z.eqb_spec (x / 10) 0) as [E0|E0].
      - rewrite E0. cbn. f_equal. lia.
      - apply IH; [|done|nia]. split; [lia|]. apply Z.div_lt_upper_bound; [lia|].
        rewrite Nat2Z.inj_succ, Z.pow_succ_r in Hx by lia. lia. }
    rewrite reverse_cons, <- app_assoc, E. cbn [app atoi_loop]. rewrite digit_value by lia.
    rewrite (proj2 (Z.leb_le 48 _)), (proj2 (Z.leb_le _ 57)) by lia. cbn [andb]. f_equal. rewrite s32_nonneg; nia.
Qed.

(** ** The programs *)

(** whatever pieces read gives the text in, cat writes exactly the text to its standard
    output and returns. *)
Theorem cat_copies fuel fd ps out :
  pieces_ok ps → (length ps < fuel)%nat →
  ∃ w', exec_user (cat fuel fd) (World ps out) = (Returned tt, w') ∧ same_world (w_write 1 (concat ps) (World [] out)) w'.
Proof. apply cat_copies_all. Qed.

Lemma cat_copies_witness :
  ∃ w', exec_user (cat 3 0) (World [[104; 101]; [121; 10]] (λ _, [])) = (Returned tt, w') ∧
        same_world (w_write 1 (concat [[104; 101]; [121; 10]]) (World [] (λ _, []))) w'.
Proof. apply (cat_copies 3 0 [[104; 101]; [121; 10]]); [repeat constructor; cbn; lia|cbn; lia]. Defined.

(** wc prints the numbers of newlines, of words and of bytes of the text, whatever pieces
    the text comes in (a word may lie across two of them), and the name it was given. *)
Theorem wc_counts fuel fd name ps out :
  pieces_ok ps → (length ps < fuel)%nat → Z.of_nat (length (concat ps)) < 2 ^ 31 → bytes_ok name →
  let t := concat ps in
  let count n := str (pretty n) in
  ∃ w', exec_user (wc fuel fd name) (World ps out) = (Returned tt, w') ∧
        same_world (w_write 1 (count (newlines t) ++ [32] ++ count (Z.of_nat (length (words t))) ++ [32] ++
                               count (Z.of_nat (length t)) ++ [32] ++ name ++ [10]) (World [] out)) w'.
Proof.
  intros Hps Hf Ht Hn t count. unfold wc. rewrite wc_loop_counts by done. cbn zeta.
  destruct (wc_counts_text t Ht) as [b E]. fold t. rewrite E. cbn [wl ww wc_]. clear E. fold t in Ht. clearbody t.
  assert (Hl : newlines t ≤ Z.of_nat (length t)).
  { unfold newlines. pose proof (length_filter (λ c, c = 10) t). lia. }
  assert (Hw' : Z.of_nat (length (words t)) ≤ Z.of_nat (length t)) by apply words_short.
  apply printf_put; [|by repeat constructor].
  rewrite wc_line, !s32_nonneg by (unfold newlines in *; lia). done.
Qed.

Lemma wc_counts_witness :
  ∃ w', exec_user (wc 3 0 [102]) (World [[97; 98]; [99; 32; 100; 10]] (λ _, [])) = (Returned tt, w') ∧
        same_world (w_write 1 (str "1 2 6 f" ++ [10]) (World [] (λ _, []))) w'.
Proof. apply (wc_counts 3 0 [102] [[97; 98]; [99; 32; 100; 10]]); [repeat constructor; cbn; lia|cbn; lia|cbn; lia|by apply (bool_decide_unpack _)]. Defined.

(** printf's %d and atoi are inverse: what printf writes for a non-negative int, followed by
    anything that is not a digit, atoi reads back as the int. *)
Theorem printf_atoi fd v rest :
  0 ≤ v < 2 ^ 31 → match rest with c :: _ => digit_char c = false | [] => True end →
  ∃ t, writes fd (printf fd (str "%d") [Va_num v]) t ∧ atoi (t ++ rest) = v.
Proof.
  intros Hv Hr. exists (str (pretty v)). split.
  - replace (str (pretty v)) with (str (pretty (s32 v)) ++ []) by (rewrite s32_nonneg, app_nil_r by done; done).
    apply printf_put; [done|by repeat constructor].
  - destruct (decide (v = 0)) as [->|H0].
    + cbn. destruct rest as [|c rest]; [done|]. cbn [atoi_loop]. unfold digit_char in Hr. by rewrite Hr.
    + replace (str (pretty v)) with (reverse (decimal 16 v)).
      2: { assert (E : str (pretty_N_go (Z.to_N v) "") = reverse (decimal 16 v) ++ str "") by (apply (decimal_pretty 16); lia).
           rewrite app_nil_r in E. rewrite <- E. destruct v; [done|done|lia]. }
      unfold atoi. rewrite atoi_digits by lia. rewrite Z.mul_0_l, Z.add_0_l.
      destruct rest as [|c rest]; [done|]. cbn [atoi_loop]. unfold digit_char in Hr. by rewrite Hr.
Qed.

Lemma printf_atoi_witness : ∃ t, writes 1 (printf 1 (str "%d") [Va_num 1024]) t ∧ atoi (t ++ [10]) = 1024.
Proof. apply printf_atoi; [lia|reflexivity]. Defined.

(** ** grep *)

Lemma ugrep_lines_writes fuel pattern p w :
  let '(out, p', moved) := grep_lines fuel pattern p in
  ∃ w', exec_user (ugrep_lines fuel pattern p) w = (Returned (p', moved), w') ∧ same_world (w_write 1 out w) w'.
Proof.
  revert p w. induction fuel as [|fuel IH]; intros p w; cbn [grep_lines ugrep_lines].
  { exists w. split; [done|]. by destruct (writes_nil 1 w) as (w' & [= <-] & H). }
  destruct (split_line p) as [[line rest]|].
  2: { exists w. split; [done|]. by destruct (writes_nil 1 w) as (w' & [= <-] & H). }
  set (hit := if grep_match pattern line then line ++ [newline] else []).
  assert (Hm : ∃ w1, exec_user (if grep_match pattern line then _ ← ucall (C_write 1 (line ++ [newline])); URet tt else URet tt) w
                     = (Returned tt, w1) ∧ same_world (w_write 1 hit w) w1).
  { unfold hit. destruct (grep_match pattern line); [by eexists|apply writes_nil]. }
  destruct Hm as (w1 & E1 & H1). specialize (IH rest w1). destruct (grep_lines fuel pattern rest) as [[out p'] moved].
  destruct IH as (w2 & E2 & H2). exists w2. rewrite (exec_returned _ _ _ _ _ E1), (exec_returned _ _ _ _ _ E2).
  split; [done|]. by eapply w_write_app.
Qed.

(** A read of one of the pieces that the input comes in. *)
Definition read_piece (k : nat) (ps : list (list Z)) : list Z * list (list Z) :=
  match ps with
  | [] => ([], [])
  | p :: ps => (p, ps)
  end.

(** The calls of grep write what the loop over the buffer selects, whatever pieces the input
    comes in. *)
Theorem ugrep_writes fuel pattern fd ps buf out :
  Forall (λ p, p ≠ []) ps → (length ps < fuel)%nat →
  ∃ w', exec_user (ugrep fuel pattern fd buf) (World ps out) = (Returned tt, w') ∧
        same_world (w_write 1 (grep_loop fuel read_piece pattern buf ps) (World [] out)) w'.
Proof.
  intros Hps. revert fuel buf out. induction Hps as [|p ps Hp Hps IH]; intros fuel buf out Hf;
    (destruct fuel as [|fuel]; [cbn in Hf; lia|]); cbn [ugrep grep_loop read_piece]; rewrite exec_bind; cbn [exec_user ucall w_answer w_in w_out].
  - apply (writes_nil 1).
  - destruct p as [|c p]; [done|]. rewrite (proj2 (Z.ltb_lt 0 _)) by (cbn; lia).
    pose proof (ugrep_lines_writes (length (buf ++ c :: p)) pattern (buf ++ c :: p) (World ps out)) as Hl.
    destruct (grep_lines _ pattern (buf ++ c :: p)) as [[o p'] moved]. destruct Hl as ([ps1 out1] & E1 & H1).
    rewrite (exec_returned _ _ _ _ _ E1). pose proof (sw_in _ _ H1) as Hin. cbn in Hin. subst ps1.
    destruct (IH fuel (if moved then p' else []) out1) as (w2 & E2 & H2); [cbn in Hf; lia|]. exists w2. split; [exact E2|].
    apply (w_write_app 1 o _ (World [] out) (World [] out1)); [|done]. split; [done|]. intros x. exact (sw_out _ _ H1 x).
Qed.

(** ** Any environment *)

(** A program whose calls [env] answers, or ends. *)
Section env.
Context {W : Type} (env : ∀ c, W → option (call_answer c * W)).

Fixpoint exec_env {A} (m : user A) (w : W) : ending A * W :=
  match m with
  | URet a => (Returned a, w)
  | UMore => (Unfinished, w)
  | UCall c k => match env c w with Some (r, w) => exec_env (k r) w | None => (Exited, w) end
  end.

Lemma exec_env_bind {A B} (m : user A) (f : A → user B) w :
  exec_env (mbind f m) w =
    match exec_env m w with
    | (Returned a, w) => exec_env (f a) w
    | (Exited, w) => (Exited, w)
    | (Unfinished, w) => (Unfinished, w)
    end.
Proof.
  unfold mbind, user_mbind. revert w. induction m as [a|c k IH|]; intros w; cbn [user_bind exec_env]; try done.
  destruct (env c w) as [[r w']|]; [apply IH|done].
Qed.

(** A tree of the shell has no way to return. *)
Lemma prog_calls_end {A} p (f : unit → user A) w :
  ∃ e w', exec_env (prog_calls p) w = (e, w') ∧ match e with Returned _ => False | _ => True end ∧
          exec_env (mbind f (prog_calls p)) w = (match e with Exited => Exited | _ => Unfinished end, w').
Proof.
  assert (H : ∀ w, match fst (exec_env (prog_calls p) w) with Returned _ => False | _ => True end).
  { clear w. induction p as [|path argv k IH|fd msg k IH|fd k IH|fd k IH|file mode k IHk x IHx|k IHk x IHx|c IHc q IHq x IHx|k IH|path k IHk x IHx];
      intros w; cbn [prog_calls]; [|rewrite exec_env_bind; cbn [exec_env ucall]..].
    - cbn [exec_env uexit]. by destruct (env C_exit w) as [[[] ?]|].
    - destruct (env _ w) as [[r w']|]; [apply IH|done].
    - destruct (exec_env (putcs fd msg) w) as [[] w1]; [apply IH|done|done].
    - destruct (env _ w) as [[r w']|]; [apply IH|done].
    - destruct (env _ w) as [[r w']|]; [apply IH|done].
    - destruct (env _ w) as [[r w']|]; [|done]. destruct (_ <? _); [apply IHx|apply IHk].
    - destruct (env _ w) as [[[r [p0 p1]] w']|]; [|done]. destruct (_ <? _); [apply IHx|apply IHk].
    - destruct (env _ w) as [[r w']|]; [|done]. destruct (_ =? _); [apply IHx|]. destruct (_ =? _); [apply IHc|apply IHq].
    - destruct (env _ w) as [[r w']|]; [apply IH|done].
    - destruct (env _ w) as [[r w']|]; [|done]. destruct (_ <? _); [apply IHx|apply IHk]. }
  specialize (H w). rewrite exec_env_bind. destruct (exec_env (prog_calls p) w) as [e w']. exists e, w'. by destruct e.
Qed.

Lemma prog_calls_bind p (f : unit → user unit) w : exec_env (mbind f (prog_calls p)) w = exec_env (prog_calls p) w.
Proof. destruct (prog_calls_end p f w) as (e & w' & E & H & ->). rewrite E. by destruct e. Qed.

Lemma exec_env_putcs fd l l' w : exec_env (putcs fd (l ++ l')) w = exec_env (_ ← putcs fd l; putcs fd l') w.
Proof.
  revert w. induction l as [|c l IH]; intros w; [done|]. cbn [app putcs]. rewrite !exec_env_bind.
  destruct (exec_env (putc fd c) w) as [[] w1]; [|done|done]. rewrite IH. by rewrite exec_env_bind.
Qed.

(** printf of a format that has no conversion before its %s. *)
Lemma exec_env_printf_text fd l fmt ap w :
  37 ∉ l → exec_env (printf_loop fd (l ++ fmt) ap) w = exec_env (_ ← putcs fd l; printf_loop fd fmt ap) w.
Proof.
  revert w. induction l as [|c l IH]; intros w H; [done|]. apply not_elem_of_cons in H as [Hc H].
  cbn [app printf_loop putcs]. rewrite (proj2 (Z.eqb_neq c 37)) by done. cbn [negb]. rewrite !exec_env_bind.
  destruct (exec_env (putc fd c) w) as [[] w1]; [|done|done]. rewrite IH by done. by rewrite exec_env_bind.
Qed.

Lemma exec_env_printf_s fd l s l' w :
  37 ∉ l → 37 ∉ l' → exec_env (printf fd (l ++ [37; 115] ++ l') [Va_str (Some s)]) w = exec_env (putcs fd (l ++ s ++ l')) w.
Proof.
  intros H H'. unfold printf. rewrite exec_env_printf_text, exec_env_putcs by done. rewrite !exec_env_bind.
  destruct (exec_env (putcs fd l) w) as [[] w1]; [|done|done]. cbn [app printf_loop]. rewrite exec_env_putcs.
  change (exec_env (_ ← putcs fd s; printf_loop fd l' []) w1 = exec_env (_ ← putcs fd s; putcs fd l') w1). rewrite !exec_env_bind.
  destruct (exec_env (putcs fd s) w1) as [[] w2]; [|done|done]. rewrite <- (app_nil_r l') at 1. rewrite exec_env_printf_text by done.
  rewrite exec_env_bind. destruct (exec_env (putcs fd l') w2) as [[[]|  |] w3]; done.
Qed.

(** A turn of the shell's main makes the calls of [main_line], in any environment: cd in the
    shell itself, anything else in a child, for which the shell waits. *)
Theorem sh_turn_calls buf k w :
  exec_env (_ ← sh_turn buf; prog_calls k) w = exec_env (prog_calls (main_line buf k)) w.
Proof.
  unfold sh_turn, main_line. case_bool_decide.
  - cbn [prog_calls]. rewrite !exec_env_bind. cbn [exec_env ucall]. destruct (env (C_chdir _) w) as [[r w1]|]; [|done].
    cbn zeta. destruct (_ <? _); [|done]. cbn [prog_calls]. rewrite exec_env_bind. unfold uprint.
    change (str "cannot cd %s" ++ [10]) with (str "cannot cd " ++ [37; 115] ++ [10]).
    rewrite exec_env_printf_s by (by apply (bool_decide_unpack _)). done.
  - unfold fork1. cbn [prog_calls]. rewrite !exec_env_bind. cbn [exec_env ucall]. destruct (env C_fork w) as [[pid w1]|]; [|done].
    destruct (pid =? -1); [by destruct (prog_calls_end (sh_panic (str "fork")) (λ _, URet tt) w1) as ([] & w2 & -> & ? & _)|].
    rewrite exec_env_bind. destruct (pid =? 0).
    2: { cbn [exec_env]. rewrite !exec_env_bind. cbn [exec_env ucall prog_calls].
         by destruct (env C_wait w1) as [[]|]. }
    unfold runcmd_line. destruct (parsecmd buf) as [[c b] x|msg|].
    + by destruct (prog_calls_end (runcmd (strings b c)) (λ _, URet tt) w1) as ([] & w2 & -> & ? & _).
    + by destruct (prog_calls_end (sh_panic (str msg)) (λ _, URet tt) w1) as ([] & w2 & -> & ? & _).
    + cbn [prog_calls exec_env uexit]. by destruct (env C_exit w1) as [[[] ?]|].
Qed.
End env.

(** ** forktest *)

(** A kernel with room for [room] children: the children that are alive or not yet waited for,
    and the output. *)
Record kids := Kids { kids_n : nat; kids_out : list Z }.

Definition kids_env (room : nat) (pids : nat → Z) (c : call) (w : kids) : option (call_answer c * kids) :=
  match c with
  | C_exit => None
  | C_fork => if bool_decide (kids_n w < room)%nat then Some (pids (kids_n w), Kids (S (kids_n w)) (kids_out w)) else Some (-1, w)
  | C_wait => match kids_n w with S n => Some (pids n, Kids n (kids_out w)) | O => Some (-1, w) end
  | C_write _ bytes => Some (Z.of_nat (length bytes), Kids (kids_n w) (kids_out w ++ bytes))
  | C_read _ _ => Some ((0, []), w)
  | C_fstat _ => Some ((-1, Stat 0 0 0 0 0), w)
  | C_pipe => Some ((-1, (0, 0)), w)
  | _ => Some (-1, w)
  end.

Section forktest.
Context (room : nat) (pids : nat → Z) (Hpids : ∀ n, 0 < pids n).

Lemma fork_loop_forks k n out :
  exec_env (kids_env room pids) (fork_loop k (Z.of_nat n)) (Kids n out) =
    let m := (n + k `min` (room - n))%nat in (Returned (Z.of_nat m), Kids m out).
Proof.
  revert n. induction k as [|k IH]; intros n; cbn [fork_loop].
  - cbn zeta. by rewrite Nat.min_0_l, Nat.add_0_r.
  - rewrite exec_env_bind. cbn [exec_env ucall kids_env kids_n kids_out]. case_bool_decide as Hn.
    + rewrite (proj2 (Z.ltb_ge (pids n) 0)), (proj2 (Z.eqb_neq (pids n) 0)) by (pose proof (Hpids n); lia).
      replace (Z.of_nat n + 1) with (Z.of_nat (S n)) by lia. rewrite IH. cbn zeta.
      by replace (S n + k `min` (room - S n))%nat with (n + S k `min` (room - n))%nat by lia.
    + cbn zeta. by replace (n + S k `min` (room - n))%nat with n by lia.
Qed.

Lemma wait_loop_waits n out : exec_env (kids_env room pids) (wait_loop n) (Kids n out) = (Returned true, Kids 0 out).
Proof.
  induction n as [|n IH]; [done|]. cbn [wait_loop]. rewrite exec_env_bind. cbn [exec_env ucall kids_env kids_n kids_out].
  by rewrite (proj2 (Z.ltb_ge (pids n) 0)) by (pose proof (Hpids n); lia).
Qed.

(** forktest reports OK, with every child waited for, exactly when the kernel refuses a fork
    before the thousandth child. *)
Theorem forktest_reports :
  exec_env (kids_env room pids) forktest_main (Kids 0 []) =
    (Exited, if bool_decide (room < 1000)%nat then Kids 0 (str "fork test" ++ [10] ++ str "fork test OK" ++ [10])
             else Kids 1000 (str "fork test" ++ [10] ++ str "fork claimed to work N times!" ++ [10])).
Proof.
  assert (E : exec_env (kids_env room pids) forktest (Kids 0 []) =
    if bool_decide (room < 1000)%nat then (Returned tt, Kids 0 (str "fork test" ++ [10] ++ str "fork test OK" ++ [10]))
    else (Exited, Kids 1000 (str "fork test" ++ [10] ++ str "fork claimed to work N times!" ++ [10]))).
  { unfold forktest. rewrite exec_env_bind.
    change (exec_env (kids_env room pids) (raw_print 1 "fork test") (Kids 0 [])) with (@Returned unit tt, Kids 0 (str "fork test" ++ [10])).
    cbv beta iota. rewrite exec_env_bind. pose proof (fork_loop_forks (Z.to_nat FORKTEST_N) 0 (str "fork test" ++ [10])) as H.
    change (Z.of_nat 0) with 0 in H. rewrite H. cbn zeta. clear H. rewrite Nat.sub_0_r, Nat.add_0_l. unfold FORKTEST_N. case_bool_decide.
    - rewrite (proj2 (Z.eqb_neq _ 1000)) by lia. rewrite exec_env_bind, Nat2Z.id, wait_loop_waits. reflexivity.
    - replace (Z.to_nat 1000 `min` room)%nat with (Z.to_nat 1000) by lia. rewrite Z2Nat.id, Z.eqb_refl by lia. reflexivity. }
  unfold forktest_main. rewrite exec_env_bind, E. by destruct (bool_decide _).
Qed.
End forktest.
