(* ===== verification/Mkfs.v ===== *)
(** * mkfs.c: the program that makes the file system image

    The image is a file of the host, seen as blocks; an end with exit(1) or a failed assertion
    is a [Panic].  The host is little-endian, and its own failures on the image file are not
    modelled; nor are the messages. *)

From S2P Require Import Prelude Params CString Bio BioSpec Log Fs.

Definition NINODES : Z := 200.

Definition nbitmap : Z := FSSIZE / (BSIZE * 8) + 1.
Definition ninodeblocks : Z := NINODES / IPB + 1.
Definition nlog : Z := LOGSIZE.
Definition nmeta : Z := 2 + nlog + ninodeblocks + nbitmap.
Definition nblocks : Z := FSSIZE - nmeta.

(** The image with its length in blocks, and the counters. *)
Record mkst := MkSt { mk_img : bview; mk_len : Z; mk_freeinode : Z; mk_freeblock : Z }.

Abbreviation MK := (M Empty_set mkst).

Definition assert (b : bool) (msg : string) : MK unit := if b then ret tt else panic msg.

(** Intel byte order, on a host that has it. *)
Definition xshort (x : Z) : Z := le_get [u8 x; u8 (Z.shiftr x 8)].
Definition xint (x : Z) : Z := le_get [u8 x; u8 (Z.shiftr x 8); u8 (Z.shiftr x 16); u8 (Z.shiftr x 24)].

Definition sb : superblock :=
  Superblock (xint FSSIZE) (xint nblocks) (xint NINODES) (xint nlog) (xint 2) (xint (2 + nlog)) (xint (2 + nlog + ninodeblocks)).

Definition zeroes : block := replicate (Z.to_nat BSIZE) 0.

(** The block at the offset that lseek is given, an unsigned 32-bit number. *)
Definition seek (sec : Z) : Z := u32 (sec * BSIZE) / BSIZE.

(** Writing behind the end makes the file longer. *)
Definition wsect (sec : Z) (buf : block) : MK unit :=
  modify (λ s, MkSt (bupd (seek sec) buf (mk_img s)) (Z.max (mk_len s) (seek sec + 1)) (mk_freeinode s) (mk_freeblock s)).

Definition rsect (sec : Z) : MK block :=
  s <- get;;
  if seek sec <? mk_len s then ret (mk_img s (seek sec)) else panic "read".

Definition rinode (inum : Z) : MK dinode :=
  let bn := IBLOCK inum sb in
  buf <- rsect bn;;
  ret (get_dinode (Z.to_nat (inum mod IPB)) buf).

Definition winode (inum : Z) (ip : dinode) : MK unit :=
  let bn := IBLOCK inum sb in
  buf <- rsect bn;;
  wsect bn (put_dinode (Z.to_nat (inum mod IPB)) ip buf).

Definition ialloc (type : Z) : MK Z :=
  inum <- gets mk_freeinode;;
  modify (λ s, MkSt (mk_img s) (mk_len s) (u32 (inum + 1)) (mk_freeblock s)) ;;;
  winode inum (Dinode (s16 (xshort type)) 0 0 (s16 (xshort 1)) (xint 0) (replicate 13 0)) ;;;
  ret inum.

(** The loop of balloc: the bits of the first [used] blocks. *)
Definition mark_used (used : Z) : block := foldl mark_bit zeroes (seqZ 0 used).

Definition balloc (used : Z) : MK unit :=
  assert (used <? BSIZE * 8) "used < BSIZE*8" ;;;
  wsect (sb_bmapstart sb) (mark_used used).

(** freeblock++ *)
Definition new_block : MK Z :=
  b <- gets mk_freeblock;;
  modify (λ s, MkSt (mk_img s) (mk_len s) (mk_freeinode s) (u32 (b + 1))) ;;;
  ret b.

Definition set_addr (k : nat) (a : Z) (di : dinode) : dinode :=
  Dinode (di_type di) (di_major di) (di_minor di) (di_nlink di) (di_size di) (<[k := a]> (di_addrs di)).
Definition set_size (z : Z) (di : dinode) : dinode :=
  Dinode (di_type di) (di_major di) (di_minor di) (di_nlink di) z (di_addrs di).

(** The address at position [k] of the inode, allocated if there is none. *)
Definition need_addr (k : nat) (din : dinode) : MK dinode :=
  if xint (di_addrs din !!! k) =? 0 then b <- new_block;; ret (set_addr k (xint b) din) else ret din.

(** The block [fbn] of the file. *)
Definition file_block (fbn : Z) (din : dinode) : MK (Z * dinode) :=
  if fbn <? NDIRECT then
    din <- need_addr (Z.to_nat fbn) din;;
    ret (xint (di_addrs din !!! Z.to_nat fbn), din)
  else
    din <- need_addr (Z.to_nat NDIRECT) din;;
    let ind := xint (di_addrs din !!! Z.to_nat NDIRECT) in
    let o := (4 * Z.to_nat (fbn - NDIRECT))%nat in
    indirect <- rsect ind;;
    if field o 4 indirect =? 0 then
      b <- new_block;;
      wsect ind (set_field o 4 (xint b) indirect) ;;;
      ret (xint (field o 4 (set_field o 4 (xint b) indirect)), din)
    else ret (xint (field o 4 indirect), din).

(** while(n > 0), for the [n] bytes [p]: every turn takes at least one of them. *)
Fixpoint iappend_loop (fuel : nat) (off : Z) (p : list Z) (din : dinode) : MK (Z * dinode) :=
  match fuel with
  | O => ret (off, din)
  | S fuel =>
      match p with
      | [] => ret (off, din)
      | _ =>
          let fbn := off / BSIZE in
          assert (fbn <? MAXFILE) "fbn < MAXFILE" ;;;
          r <- file_block fbn din;;
          let '(x, din) := r in
          let n1 := Z.min (Z.of_nat (length p)) ((fbn + 1) * BSIZE - off) in
          buf <- rsect x;;
          wsect x (splice (Z.to_nat (off - fbn * BSIZE)) (take (Z.to_nat n1) p) buf) ;;;
          iappend_loop fuel (u32 (off + n1)) (drop (Z.to_nat n1) p) din
      end
  end.

Definition iappend (inum : Z) (xp : list Z) : MK unit :=
  din <- rinode inum;;
  r <- iappend_loop (length xp) (xint (di_size din)) xp din;;
  let '(off, din) := r in
  winode inum (set_size (xint off) din).

(** for(i = 0; i < FSSIZE; i++) wsect(i, zeroes) *)
Fixpoint zero_all (n : nat) (i : Z) : MK unit :=
  match n with
  | O => ret tt
  | S n => wsect i zeroes ;;; zero_all n (i + 1)
  end.

(** The superblock at the start of a block of zeroes. *)
Definition super_block : block :=
  splice 0 (concat (le_put 4 <$> [sb_size sb; sb_nblocks sb; sb_ninodes sb; sb_nlog sb; sb_logstart sb; sb_inodestart sb; sb_bmapstart sb])) zeroes.

(** An entry with a short name, as strcpy stores it. *)
Definition dot_entry (name : list Z) (inum : Z) : list Z :=
  le_put 2 (xshort inum) ++ splice 0 (name ++ [0]) (replicate (Z.to_nat DIRSIZ) 0).

(** while((cc = read(fd, buf, sizeof(buf))) > 0) *)
Fixpoint append_pieces (inum : Z) (pieces : list (list Z)) : MK unit :=
  match pieces with
  | [] => ret tt
  | p :: pieces => iappend inum p ;;; append_pieces inum pieces
  end.

Section main.
(** A file of the host: the pieces in which read gives it. *)
Variable host : list Z → option (list (list Z)).

Definition skip_underscore (name : list Z) : list Z :=
  match name with c :: name' => if c =? 95 then name' else name | [] => [] end.

Definition add_file (rootino : Z) (arg : list Z) : MK unit :=
  assert (bool_decide (47 ∉ arg)) "index(argv[i], '/') == 0" ;;;
  match host arg with
  | None => panic "open"
  | Some pieces =>
      inum <- ialloc T_FILE;;
      iappend rootino (make_dirent (skip_underscore arg) (xshort inum) (replicate 16 0)) ;;;
      append_pieces inum pieces
  end.

Fixpoint add_files (rootino : Z) (args : list (list Z)) : MK unit :=
  match args with
  | [] => ret tt
  | a :: args => add_file rootino a ;;; add_files rootino args
  end.

Definition fix_root (rootino : Z) : MK unit :=
  din <- rinode rootino;;
  let off := xint (di_size din) in
  let off := u32 ((off / BSIZE + 1) * BSIZE) in
  winode rootino (set_size (xint off) din).

(** argv: the name of the image and the files; [image] says whether the image could be opened. *)
Definition main (image : bool) (argv : list (list Z)) : MK unit :=
  match argv with
  | [] => panic "Usage: mkfs fs.img files..."
  | _ :: args =>
      assert (BSIZE mod DINODE_SIZE =? 0) "(BSIZE % sizeof(struct dinode)) == 0" ;;;
      assert (BSIZE mod DIRENT_SIZE =? 0) "(BSIZE % sizeof(struct dirent)) == 0" ;;;
      if negb image then panic "open" else
      modify (λ s, MkSt (mk_img s) (mk_len s) (mk_freeinode s) nmeta) ;;;
      zero_all (Z.to_nat FSSIZE) 0 ;;;
      wsect 1 super_block ;;;
      rootino <- ialloc T_DIR;;
      assert (rootino =? ROOTINO) "rootino == ROOTINO" ;;;
      iappend rootino (dot_entry (str ".") rootino) ;;;
      iappend rootino (dot_entry (str "..") rootino) ;;;
      add_files rootino args ;;;
      fix_root rootino ;;;
      used <- gets mk_freeblock;;
      balloc used
  end.
End main.

(** The globals when main starts, with the image truncated. *)
Definition mk_start : mkst := MkSt (λ _, []) 0 1 0.
