(* ===== verification/MkfsTheorems.v ===== *)
(** * The image that mkfs makes

    What each routine of mkfs.c does to the image, up to the files that the finished image
    has: their blocks are distinct and marked in use, and hold their contents. *)

From S2P Require Import Prelude Params CString Bio BioSpec Log Fs FsBlocks FsInodes FsFiles FsDirs Mkfs.

(** The state while the image is filled: all its blocks are written. *)
Definition mst (V : bview) (fi fb : Z) : mkst := MkSt V FSSIZE fi fb.

Lemma seek_small b : 0 ≤ b < FSSIZE → seek b = b.
Proof. intros H. unfold seek, u32, FSSIZE, BSIZE in *. rewrite Z.mod_small by lia. apply Z.div_mul. lia. Qed.

Lemma le_get_shifts n x :
  le_get ((λ i, u8 (Z.shiftr x (8 * Z.of_nat i))) <$> seq 0 n) = x mod 256 ^ Z.of_nat n.
Proof.
  rewrite <- le_get_put. f_equal. revert x. induction n as [|n IH]; intros x; [done|]. cbn [le_put].
  rewrite <- IH. cbn [seq]. rewrite fmap_cons. f_equal.
  rewrite <- fmap_S_seq, <- list_fmap_compose. apply list_fmap_ext. intros i k _. cbn [compose].
  change 256 with (2 ^ 8). rewrite <- Z.shiftr_div_pow2, Z.shiftr_shiftr by lia. do 2 f_equal. lia.
Qed.
Lemma xint_u32 x : xint x = u32 x.
Proof. exact (le_get_shifts 4 x). Qed.
Lemma xint_small x : 0 ≤ x < 2 ^ 32 → xint x = x.
Proof. intros H. rewrite xint_u32. by apply Z.mod_small. Qed.
Lemma xshort_small x : 0 ≤ x < 2 ^ 16 → xshort x = x.
Proof. intros H. etransitivity; [exact (le_get_shifts 2 x)|]. by apply Z.mod_small. Qed.

Lemma wsect_ok V fi fb b d : 0 ≤ b < FSSIZE → wsect b d (mst V fi fb) = Done tt (mst (bupd b d V) fi fb).
Proof.
  intros H. unfold wsect, modify, mst. cbn [mk_img mk_len mk_freeinode mk_freeblock]. rewrite seek_small by done.
  by rewrite Z.max_l by lia.
Qed.
Lemma rsect_ok V fi fb b : 0 ≤ b < FSSIZE → rsect b (mst V fi fb) = Done (V b) (mst V fi fb).
Proof.
  intros H. unfold rsect, bind, get, mst. cbn [mk_img mk_len]. rewrite seek_small by done. by rewrite (proj2 (Z.ltb_lt _ _)) by lia.
Qed.
Lemma new_block_ok V fi fb : 0 ≤ fb < FSSIZE → new_block (mst V fi fb) = Done fb (mst V fi (fb + 1)).
Proof. intros H. unfold new_block, bind, gets, modify, ret, mst. cbn. unfold u32, FSSIZE in *. by rewrite Z.mod_small by lia. Qed.

Lemma bupd_at b d V : bupd b d V b = d.
Proof. unfold bupd. by rewrite Z.eqb_refl. Qed.
Lemma bupd_ne b d V x : x ≠ b → bupd b d V x = V x.
Proof. intros H. unfold bupd. by rewrite (proj2 (Z.eqb_neq _ _)). Qed.

(** ** Files in the image *)

(** An inode as the kernel has it in memory. *)
Definition dx (di : dinode) : inode := load_dinode di inode0.

(** A file: its inode, its contents, the number of its blocks and whether it has an indirect one. *)
Record frec := FRec { f_di : dinode; f_c : list Z; f_m : Z; f_i : bool }.
Definition fcost (r : frec) : Z := f_m r + b2z (f_i r).

(** Every block in use has one owner: a file and the position in it, -1 for the indirect block. *)
Record file_at (V : bview) (fb : Z) (ow : Z → nat * Z) (k : nat) (r : frec) : Prop := {
  fa_addrs : length (di_addrs (f_di r)) = 13%nat;
  fa_m : 0 ≤ f_m r ≤ 140;
  fa_c : Z.of_nat (length (f_c r)) ≤ 512 * f_m r;
  fa_addr bn : 0 ≤ bn < f_m r → nmeta ≤ addr V (dx (f_di r)) bn < fb ∧ ow (addr V (dx (f_di r)) bn) = (k, bn);
  fa_none bn : f_m r ≤ bn < 140 → addr V (dx (f_di r)) bn = 0;
  fa_ind : if f_i r then nmeta ≤ indirect (dx (f_di r)) < fb ∧ ow (indirect (dx (f_di r))) = (k, -1) else indirect (dx (f_di r)) = 0;
  fa_i : 12 < f_m r → f_i r = true;
  fa_byte o b : f_c r !! o = Some b → fbyte V (dx (f_di r)) (Z.of_nat o) = b;
  fa_tail o : Z.of_nat (length (f_c r)) ≤ o < 512 * f_m r → fbyte V (dx (f_di r)) o = 0
}.

Lemma block_index o m : 0 ≤ o < 512 * m → 0 ≤ o / BSIZE < m.
Proof. intros H. unfold BSIZE. split; [apply Z.div_pos; lia|apply Z.div_lt_upper_bound; lia]. Qed.

Definition total (F : list frec) : Z := foldr (λ r n, fcost r + n) 0 F.

Record layout (V : bview) (fb : Z) (ow : Z → nat * Z) (F : list frec) : Prop := {
  ly_file k r : F !! k = Some r → file_at V fb ow k r;
  ly_fb : fb = nmeta + total F;
  ly_zero b : fb ≤ b < FSSIZE → V b = zeroes;
  ly_len b : 32 ≤ b < FSSIZE → length (V b) = 512%nat
}.

Lemma total_insert F k r r' : F !! k = Some r → total (<[k := r']> F) = total F - fcost r + fcost r'.
Proof.
  revert k. induction F as [|x F IH]; intros k Hk; [done|]. destruct k as [|k].
  - injection Hk as ->. cbn. lia.
  - change (fcost x + total (<[k := r']> F) = fcost x + total F - fcost r + fcost r'). rewrite IH by exact Hk. lia.
Qed.

Lemma addr_ext V V' di bn :
  (indirect (dx di) ≠ 0 → 12 ≤ bn → V' (indirect (dx di)) = V (indirect (dx di))) → addr V' (dx di) bn = addr V (dx di) bn.
Proof.
  intros H. unfold addr. destruct (Z.ltb_spec bn 12); [done|]. destruct (Z.eqb_spec (indirect (dx di)) 0); [done|]. by rewrite H.
Qed.

(** What a file depends on: its own blocks. *)
Lemma file_at_frame V V' fb fb' ow ow' k r :
  file_at V fb ow k r → fb ≤ fb' →
  (∀ b, nmeta ≤ b < fb → fst (ow b) = k → V' b = V b) → (∀ b, nmeta ≤ b < fb → ow' b = ow b) →
  file_at V' fb' ow' k r.
Proof.
  intros [Hl Hm Hc Ha Hn Hi Hmi Hb Ht] Hle HV How.
  assert (HI : indirect (dx (f_di r)) ≠ 0 → nmeta ≤ indirect (dx (f_di r)) < fb ∧ ow (indirect (dx (f_di r))) = (k, -1)).
  { intros H0. by destruct (f_i r). }
  assert (Hext : ∀ bn, addr V' (dx (f_di r)) bn = addr V (dx (f_di r)) bn).
  { intros bn. apply addr_ext. intros H0 _. destruct (HI H0) as [H1 H2]. apply HV; [done|]. by rewrite H2. }
  assert (Hby : ∀ o, 0 ≤ o < 512 * f_m r → fbyte V' (dx (f_di r)) o = fbyte V (dx (f_di r)) o).
  { intros o Ho. unfold fbyte. rewrite Hext. f_equal. destruct (Ha (o / BSIZE) (block_index o _ Ho)) as [H1 H2]. apply HV; [done|]. by rewrite H2. }
  split; try done.
  - intros bn Hbn. rewrite Hext. destruct (Ha bn Hbn) as [H1 H2]. rewrite How by done. split; [lia|done].
  - intros bn Hbn. rewrite Hext. by apply Hn.
  - destruct (f_i r); [|done]. destruct Hi as [H1 H2]. rewrite How by done. split; [lia|done].
  - intros o b Ho. rewrite <- (Hb o b Ho). apply lookup_lt_Some in Ho. apply Hby. lia.
  - intros o Ho. rewrite <- (Ht o Ho). apply Hby. lia.
Qed.

(** Changing one file and blocks that are its own or new. *)
Lemma layout_change V V' fb fb' ow ow' F k r r' :
  layout V fb ow F → F !! k = Some r → fb' = fb - fcost r + fcost r' → fb ≤ fb' →
  file_at V' fb' ow' k r' →
  (∀ b, nmeta ≤ b < fb → fst (ow b) ≠ k → V' b = V b) → (∀ b, nmeta ≤ b < fb → ow' b = ow b) →
  (∀ b, fb' ≤ b < FSSIZE → V' b = V b) → (∀ b, 32 ≤ b < FSSIZE → length (V' b) = 512%nat) →
  layout V' fb' ow' (<[k := r']> F).
Proof.
  intros [Hf Hfb Hz Hl] Hk Hfb' Hle Hr' HV How Hz' Hl'. split.
  - intros j y Hj. apply list_lookup_insert_Some in Hj as [(<- & <- & _)|[Hne Hj]]; [done|].
    eapply file_at_frame; [by apply Hf|done| |done]. intros b Hb Howbb. apply HV; [done|]. congruence.
  - rewrite (total_insert _ _ _ _ Hk). lia.
  - intros b Hb. rewrite Hz' by done. apply Hz. lia.
  - done.
Qed.

(** ** Adding a block to a file *)
Lemma addr_set_direct V di m a bn :
  length (di_addrs di) = 13%nat → 0 ≤ m < 12 → 0 ≤ bn →
  addr V (dx (set_addr (Z.to_nat m) a di)) bn = if bn =? m then a else addr V (dx di) bn.
Proof.
  intros Hl Hm Hbn. unfold addr, indirect, dx, load_dinode, set_addr. cbn [i_addrs di_addrs].
  rewrite (list_lookup_total_insert_ne _ (Z.to_nat m) 12%nat) by lia.
  destruct (Z.ltb_spec bn 12); [|by rewrite (proj2 (Z.eqb_neq bn m)) by lia].
  destruct (Z.eqb_spec bn m) as [->|Hne]; [apply list_lookup_total_insert_eq; lia|by apply list_lookup_total_insert_ne; lia].
Qed.
Lemma indirect_set_direct di m a : 0 ≤ m < 12 → indirect (dx (set_addr (Z.to_nat m) a di)) = indirect (dx di).
Proof. intros Hm. unfold indirect, dx, load_dinode, set_addr. cbn [i_addrs di_addrs]. apply list_lookup_total_insert_ne. lia. Qed.

(** The owner of the block [fb] that is allocated now. *)
Definition own (fb : Z) (x : nat * Z) (ow : Z → nat * Z) : Z → nat * Z := λ b, if b =? fb then x else ow b.
Lemma own_at fb x ow : own fb x ow fb = x.
Proof. unfold own. by rewrite Z.eqb_refl. Qed.
Lemma own_lt fb x ow b : b < fb → own fb x ow b = ow b.
Proof. intros H. unfold own. by rewrite (proj2 (Z.eqb_neq _ _)) by lia. Qed.

Section add.
Variables (V : bview) (fb : Z) (ow : Z → nat * Z) (F : list frec) (k : nat) (r : frec).
Hypothesis HL : layout V fb ow F.
Hypothesis Hk : F !! k = Some r.

Lemma layout_fb : nmeta ≤ fb.
Proof.
  rewrite (ly_fb _ _ _ _ HL). assert (H : 0 ≤ total F); [|lia].
  assert (Hr : Forall (λ r, 0 ≤ f_m r) F).
  { apply Forall_lookup_2. intros j x Hj. apply (fa_m _ _ _ _ _ (ly_file _ _ _ _ HL j x Hj)). }
  clear HL Hk. induction Hr as [|x l Hx Hl IH]; [done|]. change (0 ≤ fcost x + total l). unfold fcost, b2z. destruct (f_i x); lia.
Qed.

Lemma fbyte_ext V' di o : addr V' (dx di) (o / BSIZE) = addr V (dx (f_di r)) (o / BSIZE) →
  V' (addr V (dx (f_di r)) (o / BSIZE)) = V (addr V (dx (f_di r)) (o / BSIZE)) → fbyte V' (dx di) o = fbyte V (dx (f_di r)) o.
Proof. intros H1 H2. unfold fbyte. by rewrite H1, H2. Qed.

(** The bytes of the block that is allocated now. *)
Lemma new_index o m : 512 * m ≤ o < 512 * (m + 1) → o / BSIZE = m.
Proof. intros H. unfold BSIZE. symmetry. apply (Z.div_unique_pos _ _ _ (o - 512 * m)); lia. Qed.
Lemma new_tail V' di o : fb < FSSIZE → addr V' (dx di) (o / BSIZE) = fb → V' fb = V fb → fbyte V' (dx di) o = 0.
Proof.
  intros Hfb Ha Hf. unfold fbyte. rewrite Ha, Hf, (ly_zero _ _ _ _ HL) by lia. pose proof (Z.mod_pos_bound o BSIZE ltac:(done)).
  apply list_lookup_total_correct, lookup_replicate_2. unfold BSIZE in *. lia.
Qed.

Lemma add_direct :
  f_m r < 12 → fb < FSSIZE →
  layout V (fb + 1) (own fb (k, f_m r) ow) (<[k := FRec (set_addr (Z.to_nat (f_m r)) fb (f_di r)) (f_c r) (f_m r + 1) (f_i r)]> F).
Proof.
  intros Hm Hfb. pose proof (ly_file _ _ _ _ HL k r Hk) as [Hl Hm0 Hc Ha Hn Hi Hmi Hb Ht]. pose proof layout_fb as Hge.
  eapply layout_change; [exact HL|exact Hk|unfold fcost; cbn; lia|lia| |done|intros; apply own_lt; lia|done|apply HL].
  pose proof (λ bn, addr_set_direct V (f_di r) (f_m r) fb bn Hl ltac:(lia)) as Haddr.
  assert (Hby : ∀ o, 0 ≤ o < 512 * f_m r → fbyte V (dx (set_addr (Z.to_nat (f_m r)) fb (f_di r))) o = fbyte V (dx (f_di r)) o).
  { intros o Ho. apply fbyte_ext; [|done]. pose proof (block_index o _ Ho). rewrite Haddr by lia. by rewrite (proj2 (Z.eqb_neq _ _)) by lia. }
  split; cbn [f_di f_c f_m f_i]; try lia.
  - cbn. by rewrite length_insert.
  - intros bn Hbn. rewrite Haddr by lia. destruct (Z.eqb_spec bn (f_m r)) as [->|Hne]; [split; [lia|apply own_at]|].
    destruct (Ha bn) as [H1 H2]; [lia|]. rewrite own_lt by lia. split; [lia|done].
  - intros bn Hbn. rewrite Haddr, (proj2 (Z.eqb_neq _ _)) by lia. apply Hn. lia.
  - rewrite indirect_set_direct by lia. destruct (f_i r); [|done]. rewrite own_lt by lia. split; [lia|apply Hi].
  - intros o b Ho. rewrite <- (Hb o b Ho). apply lookup_lt_Some in Ho. apply Hby. lia.
  - intros o Ho. destruct (decide (o < 512 * f_m r)) as [Hlt|Hge']; [rewrite Hby by lia; apply Ht; lia|].
    apply new_tail; [lia| |done]. rewrite Haddr by (apply Z.div_pos; [lia|done]). rewrite new_index with (m := f_m r) by lia. by rewrite Z.eqb_refl.
Qed.

Lemma add_indirect :
  f_i r = false → fb < FSSIZE →
  layout V (fb + 1) (own fb (k, -1) ow) (<[k := FRec (set_addr 12 fb (f_di r)) (f_c r) (f_m r) true]> F).
Proof.
  intros Hf Hfb. pose proof (ly_file _ _ _ _ HL k r Hk) as [Hl Hm0 Hc Ha Hn Hi Hmi Hb Ht]. pose proof layout_fb as Hge.
  assert (H12 : f_m r ≤ 12) by (destruct (Z.leb_spec (f_m r) 12) as [|H]; [done|]; specialize (Hmi H); congruence).
  assert (Hnm : nmeta = 59) by done. rewrite Hf in Hi. assert (Hind : indirect (dx (set_addr 12 fb (f_di r))) = fb) by (apply list_lookup_total_insert_eq; lia).
  assert (Haddr : ∀ bn, 0 ≤ bn < 140 → addr V (dx (set_addr 12 fb (f_di r))) bn = addr V (dx (f_di r)) bn).
  { intros bn Hbn. unfold addr. rewrite Hind, Hi. cbn [Z.eqb]. rewrite (proj2 (Z.eqb_neq fb 0)) by lia.
    destruct (Z.ltb_spec bn 12); [by apply list_lookup_total_insert_ne; lia|].
    rewrite (ly_zero _ _ _ _ HL) by lia. apply field_zero_block. }
  eapply layout_change; [exact HL|exact Hk|unfold fcost; cbn; rewrite Hf; cbn; lia|lia| |done|intros; apply own_lt; lia|done|apply HL].
  split; cbn [f_di f_c f_m f_i]; try done; try lia.
  - cbn. by rewrite length_insert.
  - intros bn Hbn. rewrite Haddr by lia. destruct (Ha bn) as [H1 H2]; [lia|]. rewrite own_lt by lia. split; [lia|done].
  - intros bn Hbn. rewrite Haddr by lia. apply Hn. lia.
  - rewrite Hind. split; [lia|apply own_at].
  - intros o b Ho. rewrite <- (Hb o b Ho). apply lookup_lt_Some in Ho. apply fbyte_ext; [|done]. apply Haddr, block_index. lia.
  - intros o Ho. rewrite <- (Ht o Ho). apply fbyte_ext; [|done]. pose proof (block_index o (f_m r) ltac:(lia)). apply Haddr. lia.
Qed.

Lemma add_entry :
  f_i r = true → 12 ≤ f_m r < 140 → fb < FSSIZE →
  let ind := indirect (dx (f_di r)) in
  layout (bupd ind (set_field (4 * Z.to_nat (f_m r - 12)) 4 fb (V ind)) V) (fb + 1) (own fb (k, f_m r) ow)
    (<[k := FRec (f_di r) (f_c r) (f_m r + 1) true]> F).
Proof.
  intros Hf H12 Hfb ind. pose proof (ly_file _ _ _ _ HL k r Hk) as [Hl Hm0 Hc Ha Hn Hi Hmi Hb Ht]. pose proof layout_fb as Hge.
  rewrite Hf in Hi. fold ind in Hi. destruct Hi as [Hir Hio].
  assert (Hnm : nmeta = 59) by done. pose proof (ly_len _ _ _ _ HL ind ltac:(lia)) as Hlen.
  set (V' := bupd ind _ V).
  assert (Haddr : ∀ bn, 0 ≤ bn < 140 → addr V' (dx (f_di r)) bn = if bn =? f_m r then fb else addr V (dx (f_di r)) bn).
  { intros bn Hbn. unfold addr. fold ind. destruct (Z.ltb_spec bn 12); [by rewrite (proj2 (Z.eqb_neq bn (f_m r))) by lia|].
    rewrite (proj2 (Z.eqb_neq ind 0)) by lia. unfold V'. rewrite bupd_at. destruct (Z.eqb_spec bn (f_m r)) as [->|Hne].
    - rewrite field_set_same by lia. apply Z.mod_small. unfold FSSIZE in *. lia.
    - apply field_set_other; lia. }
  assert (Hne : ∀ bn, 0 ≤ bn < f_m r → V' (addr V (dx (f_di r)) bn) = V (addr V (dx (f_di r)) bn)).
  { intros bn Hbn. apply bupd_ne. intros E. destruct (Ha bn Hbn) as [_ H2]. rewrite E, Hio in H2. injection H2 as ?. lia. }
  assert (Hby : ∀ o, 0 ≤ o < 512 * f_m r → fbyte V' (dx (f_di r)) o = fbyte V (dx (f_di r)) o).
  { intros o Ho. pose proof (block_index o _ Ho). apply fbyte_ext; [|by apply Hne]. rewrite Haddr by lia. by rewrite (proj2 (Z.eqb_neq _ _)) by lia. }
  eapply layout_change; [exact HL|exact Hk|unfold fcost; cbn; rewrite Hf; cbn; lia|lia| | |intros; apply own_lt; lia| |].
  - split; cbn [f_di f_c f_m f_i]; try done; try lia.
    + intros bn Hbn. rewrite Haddr by lia. destruct (Z.eqb_spec bn (f_m r)) as [->|Hneb]; [split; [lia|apply own_at]|].
      destruct (Ha bn) as [H1 H2]; [lia|]. rewrite own_lt by lia. split; [lia|done].
    + intros bn Hbn. rewrite Haddr, (proj2 (Z.eqb_neq _ _)) by lia. apply Hn. lia.
    + fold ind. rewrite own_lt by lia. split; [lia|done].
    + intros o b Ho. rewrite <- (Hb o b Ho). apply lookup_lt_Some in Ho. apply Hby. lia.
    + intros o Ho. destruct (decide (o < 512 * f_m r)) as [Hlt|Hge']; [rewrite Hby by lia; apply Ht; lia|].
      apply new_tail; [lia| |apply bupd_ne; lia]. rewrite new_index with (m := f_m r) by lia. rewrite Haddr by lia. by rewrite Z.eqb_refl.
  - intros b Hb' Ho. apply bupd_ne. intros ->. by rewrite Hio in Ho.
  - intros b Hb'. apply bupd_ne. lia.
  - intros b Hb'. unfold V', bupd. destruct (Z.eqb_spec b ind); [|by apply HL]. rewrite length_set_field; lia.
Qed.

(** Appending bytes in the block of the end of the file. *)
Lemma add_bytes q :
  let n := Z.of_nat (length (f_c r)) in
  let fbn := n / BSIZE in
  let a := addr V (dx (f_di r)) fbn in
  fbn < f_m r → n + Z.of_nat (length q) ≤ (fbn + 1) * BSIZE → fb ≤ FSSIZE →
  layout (bupd a (splice (Z.to_nat (n - fbn * BSIZE)) q (V a)) V) fb ow (<[k := FRec (f_di r) (f_c r ++ q) (f_m r) (f_i r)]> F).
Proof.
  intros n fbn a Hfbn Hq Hfb. pose proof (ly_file _ _ _ _ HL k r Hk) as [Hl Hm0 Hc Ha Hn Hi Hmi Hb Ht]. pose proof layout_fb as Hge.
  assert (Hnm : nmeta = 59) by done. pose proof (Z.div_mod n BSIZE ltac:(done)) as Hdm. pose proof (Z.mod_pos_bound n BSIZE ltac:(done)) as Hmod.
  assert (Hf0 : 0 ≤ fbn) by (apply Z.div_pos; [unfold n; lia|done]). destruct (Ha fbn ltac:(lia)) as [Hr Ho]. fold a in Hr, Ho. fold fbn in Hdm.
  pose proof (ly_len _ _ _ _ HL a ltac:(lia)) as Hlen. set (V' := bupd a _ V).
  assert (Hlq : (Z.to_nat (n - fbn * BSIZE) + length q ≤ length (V a))%nat) by (unfold BSIZE in *; lia).
  assert (Haddr : ∀ bn, addr V' (dx (f_di r)) bn = addr V (dx (f_di r)) bn).
  { intros bn. apply addr_ext. intros H0 _. apply bupd_ne. intros E. destruct (f_i r); [|done].
    destruct Hi as [_ Hi]. rewrite E, Ho in Hi. injection Hi as ?. lia. }
  eapply layout_change; [exact HL|exact Hk|unfold fcost; cbn; lia|lia| | |done| |].
  - split; cbn [f_di f_c f_m f_i]; try done.
    + rewrite length_app. unfold BSIZE in *. lia.
    + intros bn Hbn. rewrite Haddr. by apply Ha.
    + intros bn Hbn. rewrite Haddr. by apply Hn.
    + intros o b Hob. unfold fbyte. rewrite Haddr.
      pose proof (Z.div_mod (Z.of_nat o) BSIZE ltac:(done)) as Hodm. pose proof (Z.mod_pos_bound (Z.of_nat o) BSIZE ltac:(done)) as Homod.
      pose proof (lookup_lt_Some _ _ _ Hob) as Hlt. rewrite length_app in Hlt.
      destruct (decide (Z.of_nat o / BSIZE = fbn)) as [E|E].
      * rewrite E in *. fold a. unfold V'. rewrite bupd_at. apply list_lookup_total_correct.
        destruct (decide (o < length (f_c r))%nat) as [Hold|Hnew].
        -- rewrite lookup_splice_old by lia. rewrite lookup_app_l in Hob by done. specialize (Hb o b Hob). unfold fbyte in Hb.
           rewrite E in Hb. fold a in Hb. rewrite <- Hb. apply list_lookup_lookup_total_lt. unfold BSIZE in *. lia.
        -- rewrite lookup_splice_new by lia. rewrite lookup_app_r in Hob by lia. rewrite <- Hob. f_equal. lia.
      * assert (Hold : (o < length (f_c r))%nat) by (unfold BSIZE in *; nia). rewrite lookup_app_l in Hob by done.
        rewrite <- (Hb o b Hob). unfold fbyte. f_equal. apply bupd_ne. intros Ea. destruct (Ha (Z.of_nat o / BSIZE)) as [_ H2].
        { apply block_index. lia. }
        rewrite Ea, Ho in H2. injection H2 as ?. lia.
    + intros o Hoo. rewrite length_app in Hoo. rewrite <- (Ht o) by lia. unfold fbyte. rewrite Haddr.
      pose proof (Z.div_mod o BSIZE ltac:(done)) as Hodm. pose proof (Z.mod_pos_bound o BSIZE ltac:(done)) as Homod.
      destruct (decide (o / BSIZE = fbn)) as [E|E].
      * rewrite E in *. fold a. unfold V'. rewrite bupd_at, !list_lookup_total_alt. by rewrite lookup_splice_old by lia.
      * f_equal. apply bupd_ne. intros Ea. destruct (Ha (o / BSIZE)) as [_ H2]; [apply block_index; lia|].
        rewrite Ea, Ho in H2. injection H2 as ?. lia.
  - intros b Hb' Hob. apply bupd_ne. intros ->. by rewrite Ho in Hob.
  - intros b Hb'. apply bupd_ne. lia.
  - intros b Hb'. unfold V', bupd. destruct (Z.eqb_spec b a); [|by apply HL]. rewrite length_splice; [congruence|done].
Qed.
End add.

(** ** iappend *)
Lemma nmeta_eq : nmeta = 59.
Proof. done. Qed.

(** Everything but the addresses. *)
Definition same_meta (di di' : dinode) : Prop :=
  di_type di' = di_type di ∧ di_major di' = di_major di ∧ di_minor di' = di_minor di ∧ di_nlink di' = di_nlink di ∧ di_size di' = di_size di.

Lemma need_addr_have di k V fi fb :
  nmeta ≤ di_addrs di !!! k < FSSIZE → need_addr k di (mst V fi fb) = Done di (mst V fi fb).
Proof.
  intros H. rewrite nmeta_eq in H. unfold FSSIZE in H. unfold need_addr. rewrite xint_small by lia. by rewrite (proj2 (Z.eqb_neq _ _)) by lia.
Qed.
Lemma need_addr_new di k V fi fb :
  di_addrs di !!! k = 0 → 0 ≤ fb < FSSIZE → need_addr k di (mst V fi fb) = Done (set_addr k fb di) (mst V fi (fb + 1)).
Proof.
  intros H Hfb. unfold need_addr. rewrite H. change (xint 0 =? 0) with true. cbv iota. rewrite (bind_done _ _ _ _ _ (new_block_ok V fi fb Hfb)).
  unfold ret. rewrite xint_small by (unfold FSSIZE in *; lia). done.
Qed.

Lemma addr_direct V di bn : 0 ≤ bn < 12 → addr V (dx di) bn = di_addrs di !!! Z.to_nat bn.
Proof. intros H. unfold addr. by rewrite (proj2 (Z.ltb_lt _ _)) by lia. Qed.
Lemma addr_entry V di bn : 12 ≤ bn → indirect (dx di) ≠ 0 → addr V (dx di) bn = field (4 * Z.to_nat (bn - 12)) 4 (V (indirect (dx di))).
Proof. intros H Hi. unfold addr. rewrite (proj2 (Z.ltb_ge _ _)) by lia. by rewrite (proj2 (Z.eqb_neq _ _)). Qed.

(** The result of getting block [fbn]: the file with the blocks [m'] and the indirect block [i']. *)
Definition got (V : bview) (fi fb : Z) (F : list frec) (k : nat) (r : frec) (m' : Z) (i' : bool) (fb' : Z)
    (P : dinode → bview → mkst → Prop) : Prop :=
  ∃ V' di' ow', P di' V' (mst V' fi fb') ∧ layout V' fb' ow' (<[k := FRec di' (f_c r) m' i']> F) ∧
    (∀ b, b < nmeta → V' b = V b) ∧ same_meta (f_di r) di'.

Lemma insert_same_frec (F : list frec) k r : F !! k = Some r → <[k := FRec (f_di r) (f_c r) (f_m r) (f_i r)]> F = F.
Proof. intros H. apply list_insert_id. by destruct r. Qed.

Section block.
Variables (V : bview) (fi fb : Z) (ow : Z → nat * Z) (F : list frec) (k : nat) (r : frec).
Hypothesis HL : layout V fb ow F.
Hypothesis Hk : F !! k = Some r.

Lemma got_same (P : dinode → bview → mkst → Prop) : P (f_di r) V (mst V fi fb) → got V fi fb F k r (f_m r) (f_i r) fb P.
Proof. intros HP. exists V, (f_di r), ow. split; [done|]. rewrite insert_same_frec by done. done. Qed.

Lemma direct_ok fbn :
  0 ≤ fbn < 12 → fbn ≤ f_m r → fb + (Z.max (f_m r) (fbn + 1) - f_m r) ≤ FSSIZE →
  got V fi fb F k r (Z.max (f_m r) (fbn + 1)) (f_i r) (fb + (Z.max (f_m r) (fbn + 1) - f_m r))
    (λ di' V' s', file_block fbn (f_di r) (mst V fi fb) = Done (addr V' (dx di') fbn, di') s').
Proof.
  intros H12 Hm Hfb. pose proof (ly_file _ _ _ _ HL k r Hk) as [Hl Hm0 Hc Ha Hn Hi Hmi Hb Ht]. pose proof (layout_fb _ _ _ _ HL) as Hge. rewrite nmeta_eq in *.
  destruct (decide (fbn < f_m r)) as [Hlt|Hge'].
  - rewrite Z.max_l by lia. replace (fb + _) with fb by lia. apply got_same. destruct (Ha fbn ltac:(lia)) as [H1 _].
    unfold file_block, NDIRECT. rewrite (proj2 (Z.ltb_lt _ _)) by lia. rewrite addr_direct in H1 |- * by lia.
    erewrite bind_done by (apply need_addr_have; rewrite nmeta_eq; lia). unfold ret. rewrite xint_small by (unfold FSSIZE in *; lia). done.
  - assert (fbn = f_m r) as -> by lia. rewrite Z.max_r by lia. replace (fb + _) with (fb + 1) by lia.
    eexists V, _, _. split; [|split; [apply (add_direct V fb ow F k r HL Hk); lia|done]].
    unfold file_block, NDIRECT. rewrite (proj2 (Z.ltb_lt _ _)) by lia. pose proof (Hn (f_m r) ltac:(lia)) as H0. rewrite addr_direct in H0 by lia.
    erewrite bind_done by (apply need_addr_new; [exact H0|lia]). unfold ret.
    rewrite (addr_set_direct V) by lia. rewrite Z.eqb_refl. cbn [di_addrs set_addr].
    rewrite list_lookup_total_insert_eq by lia. rewrite xint_small by (unfold FSSIZE in *; lia). done.
Qed.

Lemma need_ind :
  12 ≤ f_m r → fb + (1 - b2z (f_i r)) ≤ FSSIZE →
  got V fi fb F k r (f_m r) true (fb + (1 - b2z (f_i r)))
    (λ di' V' s', need_addr 12 (f_di r) (mst V fi fb) = Done di' s' ∧ V' = V).
Proof.
  intros H12 Hfb. pose proof (ly_file _ _ _ _ HL k r Hk) as [Hl Hm0 Hc Ha Hn Hi Hmi Hb Ht]. pose proof (layout_fb _ _ _ _ HL) as Hge. rewrite nmeta_eq in *.
  destruct (f_i r) eqn:Ei; cbn [b2z] in *.
  - replace (fb + _) with fb by lia. rewrite <- Ei. apply got_same. split; [|done]. apply need_addr_have. rewrite nmeta_eq. unfold indirect in Hi. cbn in Hi. lia.
  - eexists V, _, _. split; [|split; [apply (add_indirect V fb ow F k r HL Hk Ei); lia|done]]. split; [|done].
    apply need_addr_new; [exact Hi|lia].
Qed.

Definition entry_of (fbn : Z) (din : dinode) : MK (Z * dinode) :=
  let ind := xint (di_addrs din !!! Z.to_nat NDIRECT) in
  let o := (4 * Z.to_nat (fbn - NDIRECT))%nat in
  indirect <- rsect ind;;
  if field o 4 indirect =? 0 then
    b <- new_block;;
    wsect ind (set_field o 4 (xint b) indirect) ;;;
    ret (xint (field o 4 (set_field o 4 (xint b) indirect)), din)
  else ret (xint (field o 4 indirect), din).

Lemma entry_ok fbn :
  f_i r = true → 12 ≤ fbn < 140 → fbn ≤ f_m r → fb + (Z.max (f_m r) (fbn + 1) - f_m r) ≤ FSSIZE →
  got V fi fb F k r (Z.max (f_m r) (fbn + 1)) true (fb + (Z.max (f_m r) (fbn + 1) - f_m r))
    (λ di' V' s', entry_of fbn (f_di r) (mst V fi fb) = Done (addr V' (dx di') fbn, di') s').
Proof.
  intros Ei H12 Hm Hfb. pose proof (ly_file _ _ _ _ HL k r Hk) as [Hl Hm0 Hc Ha Hn Hi Hmi Hb Ht]. pose proof (layout_fb _ _ _ _ HL) as Hge. rewrite nmeta_eq in *.
  rewrite Ei in Hi. destruct Hi as [Hir Hio]. unfold entry_of, NDIRECT. change (di_addrs (f_di r) !!! Z.to_nat 12) with (indirect (dx (f_di r))).
  set (ind := indirect (dx (f_di r))) in *. rewrite xint_small by (unfold FSSIZE in *; lia).
  assert (Hr : 0 ≤ ind < FSSIZE) by lia. pose proof (ly_len _ _ _ _ HL ind ltac:(lia)) as Hlen.
  destruct (decide (fbn < f_m r)) as [Hlt|Hge'].
  - rewrite Z.max_l by lia. replace (fb + _) with fb by lia. rewrite <- Ei. apply got_same. destruct (Ha fbn ltac:(lia)) as [H1 _].
    rewrite addr_entry in H1 |- * by (fold ind; lia). fold ind in H1 |- *.
    erewrite bind_done by (apply rsect_ok; done). rewrite (proj2 (Z.eqb_neq _ _)) by lia. unfold ret. rewrite xint_small by (unfold FSSIZE in *; lia). done.
  - assert (fbn = f_m r) as -> by lia. rewrite Z.max_r by lia. replace (fb + _) with (fb + 1) by lia.
    eexists _, _, _. split; [|split; [apply (add_entry V fb ow F k r HL Hk Ei); lia|]].
    2: { split; [|done]. intros b Hb'. rewrite nmeta_eq in Hb'. apply bupd_ne. fold ind. lia. }
    pose proof (Hn (f_m r) ltac:(lia)) as H0. rewrite addr_entry in H0 by (fold ind; lia). fold ind in H0 |- *.
    erewrite bind_done by (apply rsect_ok; done). rewrite H0. cbn [Z.eqb]. erewrite bind_done by (apply new_block_ok; lia).
    rewrite xint_small by (unfold FSSIZE in *; lia). erewrite bind_done by (apply wsect_ok; done). unfold ret.
    rewrite addr_entry by (fold ind; lia). fold ind. rewrite bupd_at. rewrite xint_small; [done|].
    rewrite field_set_same by lia. apply Z.mod_pos_bound. done.
Qed.
End block.

Definition ceil (n : Z) : Z := (n + 511) / 512.
Definition blocks (m : Z) : Z := m + b2z (12 <? m).

Lemma file_block_ok V fi fb ow F k r fbn :
  layout V fb ow F → F !! k = Some r → f_i r = (12 <? f_m r) → 0 ≤ fbn < 140 → fbn ≤ f_m r →
  let m' := Z.max (f_m r) (fbn + 1) in
  fb + (blocks m' - blocks (f_m r)) ≤ FSSIZE →
  got V fi fb F k r m' (12 <? m') (fb + (blocks m' - blocks (f_m r)))
    (λ di' V' s', file_block fbn (f_di r) (mst V fi fb) = Done (addr V' (dx di') fbn, di') s').
Proof.
  intros HL Hk Hi H140 Hm m' Hfb. destruct (decide (fbn < 12)) as [H12|H12].
  - assert (Hii : (12 <? m') = f_i r).
    { rewrite Hi. unfold m'. destruct (Z.ltb_spec 12 (f_m r)), (Z.ltb_spec 12 (Z.max (f_m r) (fbn + 1))); (done || lia). }
    unfold blocks in *. rewrite Hii, Hi in *. replace (m' + _ - _) with (m' - f_m r) in * by lia. rewrite <- Hi.
    apply (direct_ok V fi fb ow F k r HL Hk fbn); [lia|done|exact Hfb].
  - assert (Hii : (12 <? m') = true) by (apply Z.ltb_lt; unfold m'; lia). unfold blocks in *. rewrite Hii, <- Hi in *. cbn [b2z] in Hfb.
    destruct (need_ind V fi fb ow F k r HL Hk) as (V1 & di1 & ow1 & (E1 & ->) & HL1 & _ & Hs1); [lia|unfold m' in *; lia|].
    assert (Hk1 : <[k := FRec di1 (f_c r) (f_m r) true]> F !! k = Some (FRec di1 (f_c r) (f_m r) true)).
    { apply list_lookup_insert_eq. by eapply lookup_lt_Some. }
    destruct (entry_ok V fi _ ow1 _ k _ HL1 Hk1 fbn eq_refl) as (V2 & di2 & ow2 & E2 & HL2 & HV2 & Hs2); [lia|done|cbn [f_m]; unfold m' in *; lia|].
    cbn [f_m f_c f_di] in *. fold m' in HL2, E2. rewrite list_insert_insert_eq in HL2.
    exists V2, di2, ow2. replace (fb + (m' + 1 - _)) with (fb + (1 - b2z (f_i r)) + (m' - f_m r)) by lia.
    split; [|split; [done|split; [done|]]].
    + unfold file_block. change (fbn <? NDIRECT) with (fbn <? 12). rewrite (proj2 (Z.ltb_ge _ _)) by lia.
      change (Z.to_nat NDIRECT) with 12%nat. erewrite bind_done by exact E1. exact E2.
    + unfold same_meta in *. intuition congruence.
Qed.

(** A file between two appends: no block more than its bytes need. *)
Definition tight (di : dinode) (c : list Z) : frec :=
  let m := ceil (Z.of_nat (length c)) in FRec di c m (12 <? m).

Lemma fcost_tight di c : fcost (tight di c) = blocks (ceil (Z.of_nat (length c))).
Proof. done. Qed.

Lemma ceil_bounds n : 0 ≤ n → n ≤ 512 * ceil n < n + 512.
Proof. intros H. unfold ceil. pose proof (Z.div_mod (n + 511) 512). pose proof (Z.mod_pos_bound (n + 511) 512). lia. Qed.
Lemma ceil_end n : 0 ≤ n → n / 512 ≤ ceil n ≤ n / 512 + 1.
Proof.
  intros H. pose proof (ceil_bounds n H). pose proof (Z.div_mod n 512). pose proof (Z.mod_pos_bound n 512). lia.
Qed.
Lemma ceil_next n q : 0 ≤ n → 0 < q → n + q ≤ 512 * (n / 512 + 1) → ceil (n + q) = n / 512 + 1 ∧ Z.max (ceil n) (n / 512 + 1) = n / 512 + 1.
Proof.
  intros H Hq Hle. pose proof (ceil_bounds n H). pose proof (ceil_end n H). pose proof (ceil_bounds (n + q) ltac:(lia)).
  pose proof (Z.div_mod n 512). pose proof (Z.mod_pos_bound n 512). lia.
Qed.

(** Appending [q] to file [k] gives this. *)
Record appended (V : bview) (fb : Z) (F : list frec) (k : nat) (di : dinode) (c q : list Z) (V' : bview) (fb' : Z) (di' : dinode) : Prop := {
  ap_layout : ∃ ow', layout V' fb' ow' (<[k := tight di' (c ++ q)]> F);
  ap_fb : fb' = fb + (blocks (ceil (Z.of_nat (length (c ++ q)))) - blocks (ceil (Z.of_nat (length c))));
  ap_meta : same_meta di di';
  ap_low b : b < nmeta → V' b = V b
}.

Lemma append_step V fi fb ow F k di c q :
  layout V fb ow F → F !! k = Some (tight di c) →
  let n := Z.of_nat (length c) in
  (0 < length q)%nat → n + Z.of_nat (length q) ≤ 512 * (n / 512 + 1) → n + Z.of_nat (length q) ≤ 512 * 140 →
  fb + (blocks (ceil (n + Z.of_nat (length q))) - blocks (ceil n)) ≤ FSSIZE →
  ∃ V' fb' di' V1 x, appended V fb F k di c q V' fb' di' ∧
    file_block (n / 512) di (mst V fi fb) = Done (x, di') (mst V1 fi fb') ∧ 0 ≤ x < FSSIZE ∧
    V' = bupd x (splice (Z.to_nat (n - n / 512 * 512)) q (V1 x)) V1.
Proof.
  intros HL Hk n Hq Hle Hmax Hfb. destruct (ceil_next n (Z.of_nat (length q))) as [Hc1 Hc2]; [lia..|].
  pose proof (Z.div_mod n 512). pose proof (Z.mod_pos_bound n 512). pose proof (ceil_end n ltac:(lia)).
  destruct (file_block_ok V fi fb ow F k _ (n / 512) HL Hk eq_refl) as (V1 & di1 & ow1 & E1 & HL1 & Hlow & Hmeta); cbn [f_m tight];
    fold n; rewrite ?Hc2; [lia|lia|by rewrite <- Hc1|].
  cbn [f_m f_di f_c tight] in E1, HL1, Hmeta. fold n in HL1, E1. rewrite Hc2, <- Hc1 in HL1, E1.
  set (m := ceil (n + Z.of_nat (length q))) in *. set (fb1 := fb + (blocks m - blocks (ceil n))) in *.
  assert (Hk1 : <[k := FRec di1 c m (12 <? m)]> F !! k = Some (FRec di1 c m (12 <? m))) by (apply list_lookup_insert_eq; by eapply lookup_lt_Some).
  pose proof (add_bytes V1 fb1 ow1 _ k _ HL1 Hk1 q) as HL2. cbn [f_c f_m f_di f_i] in HL2. fold n in HL2. cbn zeta in HL2. unfold BSIZE in HL2.
  specialize (HL2 ltac:(lia) ltac:(lia) Hfb). rewrite list_insert_insert_eq in HL2.
  destruct (fa_addr _ _ _ _ _ (ly_file _ _ _ _ HL1 k _ Hk1) (n / 512)) as [Hx _]; [cbn [f_m]; lia|]. cbn [f_di] in Hx. rewrite nmeta_eq in Hx.
  eexists _, fb1, di1, V1, (addr V1 (dx di1) (n / 512)). split; [|split; [exact E1|split; [lia|reflexivity]]].
  split; [|by rewrite length_app, Nat2Z.inj_add|done|].
  - exists ow1. unfold tight. rewrite length_app, Nat2Z.inj_add. exact HL2.
  - intros b Hb. rewrite nmeta_eq in Hb. rewrite bupd_ne by lia. by apply Hlow.
Qed.

Lemma appended_trans V fb F k di c p q V1 fb1 di1 V2 fb2 di2 :
  appended V fb F k di c p V1 fb1 di1 → appended V1 fb1 (<[k := tight di1 (c ++ p)]> F) k di1 (c ++ p) q V2 fb2 di2 →
  appended V fb F k di c (p ++ q) V2 fb2 di2.
Proof.
  intros [HL1 Hfb1 Hm1 Hl1] [HL2 Hfb2 Hm2 Hl2]. rewrite <- app_assoc in *. split.
  - destruct HL2 as [ow' HL2]. exists ow'. by rewrite list_insert_insert_eq in HL2.
  - lia.
  - unfold same_meta in *. intuition congruence.
  - intros b Hb. rewrite Hl2 by done. by apply Hl1.
Qed.

Lemma ceil_mono a b : a ≤ b → ceil a ≤ ceil b.
Proof. intros H. apply Z.div_le_mono; lia. Qed.
Lemma blocks_mono a b : a ≤ b → blocks a ≤ blocks b.
Proof. intros H. unfold blocks, b2z. destruct (Z.ltb_spec 12 a), (Z.ltb_spec 12 b); lia. Qed.

Lemma appended_nil V fb ow F k di c : layout V fb ow F → F !! k = Some (tight di c) → appended V fb F k di c [] V fb di.
Proof.
  intros HL Hk. split; rewrite ?app_nil_r; [|lia|done|done]. exists ow. by rewrite list_insert_id.
Qed.

Lemma iappend_loop_ok fuel p V fi fb F k di c :
  (∃ ow, layout V fb ow F) → F !! k = Some (tight di c) →
  let n := Z.of_nat (length c) in
  let n' := n + Z.of_nat (length p) in
  (length p ≤ fuel)%nat → n' ≤ MAXFILE * BSIZE → fb + (blocks (ceil n') - blocks (ceil n)) ≤ FSSIZE →
  ∃ V' fb' di', iappend_loop fuel n p di (mst V fi fb) = Done (n', di') (mst V' fi fb') ∧ appended V fb F k di c p V' fb' di'.
Proof.
  revert p V fb F di c. induction fuel as [|fuel IH]; intros p V fb F di c [ow HL] Hk n n' Hf Hmax Hroom.
  { destruct p; [|cbn in Hf; lia]. exists V, fb, di. unfold n'. rewrite Z.add_0_r. split; [done|by eapply appended_nil]. }
  destruct p as [|b p]; [exists V, fb, di; unfold n'; rewrite Z.add_0_r; split; [done|by eapply appended_nil]|].
  cbn [iappend_loop]. remember (b :: p) as l eqn:El. assert (Hl : (0 < length l)%nat) by (subst l; cbn; lia). clear El.
  change (MAXFILE * BSIZE) with (512 * 140) in Hmax. change MAXFILE with 140. change BSIZE with 512.
  pose proof (Z.div_mod n 512). pose proof (Z.mod_pos_bound n 512).
  set (n1 := Z.min (Z.of_nat (length l)) ((n / 512 + 1) * 512 - n)).
  assert (Hn1 : 0 < n1 ≤ Z.of_nat (length l)) by (unfold n1; lia).
  assert (Hlen : length (take (Z.to_nat n1) l) = Z.to_nat n1) by (rewrite length_take; lia).
  unfold assert. rewrite (proj2 (Z.ltb_lt _ _)) by lia. unfold bind at 1, ret at 1.
  destruct (append_step V fi fb ow F k di c (take (Z.to_nat n1) l) HL Hk) as (V1 & fb1 & di1 & Vx & x & Hap & E & Hx & ->);
    rewrite ?Hlen; fold n; rewrite ?Z2Nat.id by lia; [lia|lia|lia| |].
  { pose proof (blocks_mono _ _ (ceil_mono (n + n1) n' ltac:(lia))). lia. }
  fold n in E, Hap. erewrite bind_done by exact E. cbn beta iota. erewrite bind_done by (by apply rsect_ok).
  erewrite bind_done by (by apply wsect_ok). set (V1 := bupd x _ Vx) in *.
  assert (Hu : u32 (n + n1) = n + n1) by (apply Z.mod_small; lia). rewrite Hu.
  assert (Hnew : n + n1 = Z.of_nat (length (c ++ take (Z.to_nat n1) l))) by (rewrite length_app, Hlen; lia). rewrite Hnew.
  destruct (IH (drop (Z.to_nat n1) l) V1 fb1 (<[k := tight di1 (c ++ take (Z.to_nat n1) l)]> F) di1 (c ++ take (Z.to_nat n1) l)) as (V2 & fb2 & di2 & E2 & Hap2).
  - apply Hap.
  - apply list_lookup_insert_eq. by eapply lookup_lt_Some.
  - rewrite length_drop. lia.
  - change (MAXFILE * BSIZE) with (512 * 140). rewrite <- Hnew, length_drop. unfold n' in *. lia.
  - rewrite (ap_fb _ _ _ _ _ _ _ _ _ _ Hap), <- !Hnew, length_drop. fold n. unfold n' in *.
    replace (n + n1 + _) with (n + Z.of_nat (length l)) by lia. lia.
  - exists V2, fb2, di2. split; [|rewrite <- (take_drop (Z.to_nat n1) l); by eapply appended_trans].
    rewrite E2. f_equal. f_equal. rewrite <- Hnew, length_drop. lia.
Qed.

(** ** The inodes *)

(** The inode [inum] as the image has it. *)
Definition inode_at (V : bview) (inum : Z) : dinode := get_dinode (Z.to_nat (inum mod 8)) (V (32 + inum / 8)).

Lemma IBLOCK_eq inum : IBLOCK inum sb = 32 + inum / 8.
Proof. unfold IBLOCK. change IPB with 8. change (sb_inodestart sb) with 32. lia. Qed.

Lemma iblock_range inum : 0 < inum < 200 → 32 ≤ 32 + inum / 8 < 58.
Proof. intros H. assert (0 ≤ inum / 8 < 26); [|lia]. split; [apply Z.div_pos; lia|apply Z.div_lt_upper_bound; lia]. Qed.

Lemma rinode_ok V fi fb inum : 0 < inum < 200 → rinode inum (mst V fi fb) = Done (inode_at V inum) (mst V fi fb).
Proof.
  intros H. unfold rinode. pose proof (iblock_range inum H). erewrite bind_done by (apply rsect_ok; rewrite IBLOCK_eq; unfold FSSIZE; lia).
  rewrite IBLOCK_eq. done.
Qed.
Lemma winode_ok V fi fb inum di :
  0 < inum < 200 →
  winode inum di (mst V fi fb) = Done tt (mst (bupd (32 + inum / 8) (put_dinode (Z.to_nat (inum mod 8)) di (V (32 + inum / 8))) V) fi fb).
Proof.
  intros H. unfold winode. pose proof (iblock_range inum H). erewrite bind_done by (apply rsect_ok; rewrite IBLOCK_eq; unfold FSSIZE; lia).
  rewrite IBLOCK_eq. change IPB with 8. by rewrite wsect_ok by (unfold FSSIZE; lia).
Qed.

Lemma inode_at_put V inum di inum' :
  0 < inum < 200 → 0 < inum' < 200 → dinode_ok di → length (V (32 + inum / 8)) = 512%nat →
  inode_at (bupd (32 + inum / 8) (put_dinode (Z.to_nat (inum mod 8)) di (V (32 + inum / 8))) V) inum' =
    if inum' =? inum then di else inode_at V inum'.
Proof.
  intros H H' Hdi Hl. unfold inode_at. pose proof (Z.mod_pos_bound inum 8). pose proof (Z.mod_pos_bound inum' 8).
  pose proof (Z.div_mod inum 8). pose proof (Z.div_mod inum' 8).
  destruct (Z.eqb_spec inum' inum) as [->|Hne]; [rewrite bupd_at; apply get_put_dinode; (done || lia)|].
  destruct (decide (inum' / 8 = inum / 8)) as [E|E]; [|by rewrite bupd_ne by lia].
  rewrite E, bupd_at. apply get_put_dinode_other; [done|lia|lia|lia|apply Hdi].
Qed.

(** ** The whole image *)
Lemma layout_low V V' fb ow F :
  layout V fb ow F → fb ≤ FSSIZE → (∀ b, nmeta ≤ b < FSSIZE → V' b = V b) → (∀ b, 32 ≤ b < FSSIZE → length (V' b) = 512%nat) → layout V' fb ow F.
Proof.
  intros HL Hfb HV Hl. pose proof (layout_fb _ _ _ _ HL). split; [|apply HL| |done].
  - intros k r Hk. eapply file_at_frame; [by apply HL|done| |done]. intros b Hb _. apply HV. lia.
  - intros b Hb. rewrite HV by lia. by apply HL.
Qed.

Lemma file_at_size V fb ow k di c z : file_at V fb ow k (tight di c) → file_at V fb ow k (tight (set_size z di) c).
Proof. intros []. split; assumption. Qed.

Lemma layout_size V fb ow F k di c z :
  layout V fb ow F → F !! k = Some (tight di c) → layout V fb ow (<[k := tight (set_size z di) c]> F).
Proof.
  intros HL Hk. eapply layout_change; [exact HL|exact Hk|rewrite !fcost_tight; lia|lia| |done|done|done|apply HL].
  apply file_at_size. by apply HL.
Qed.

Definition new_inode (ty : Z) : dinode := Dinode ty 0 0 1 0 (replicate 13 0).

Lemma layout_snoc V fb ow F ty : layout V fb ow F → layout V fb ow (F ++ [tight (new_inode ty) []]).
Proof.
  intros HL. split; [|rewrite (ly_fb _ _ _ _ HL); unfold total; rewrite foldr_app; reflexivity|apply HL|apply HL].
  intros k r Hk. apply lookup_app_Some in Hk as [Hk|[_ Hk]]; [by apply HL|]. apply list_lookup_singleton_Some in Hk as [_ <-].
  assert (Hi : indirect (dx (new_inode ty)) = 0) by done.
  split; cbn [f_di f_c f_m f_i tight]; change (ceil (Z.of_nat (length []))) with 0; try done; try lia.
  intros bn Hbn. unfold addr. rewrite Hi. cbn [Z.eqb]. destruct (Z.ltb_spec bn 12); [|done].
  apply list_lookup_total_correct. apply (lookup_replicate_2 13 0). lia.
Qed.

(** The inode of a file of the image, with [n] bytes. *)
Record inode_ok (di : dinode) (n : Z) : Prop := {
  io_type : di_type di = T_DIR ∨ di_type di = T_FILE;
  io_rest : di_major di = 0 ∧ di_minor di = 0 ∧ di_nlink di = 1;
  io_size : di_size di = n
}.

Abbreviation file := (dinode * list Z)%type.
Definition to_frec (f : file) : frec := tight f.1 f.2.

Record built (V : bview) (fi fb : Z) (G : list file) : Prop := {
  bu_layout : ∃ ow, layout V fb ow (to_frec <$> G);
  bu_fi : fi = 1 + Z.of_nat (length G);
  bu_count : (length G < 200)%nat;
  bu_inode k f : G !! k = Some f → inode_at V (1 + Z.of_nat k) = f.1;
  bu_ok k f : G !! k = Some f → inode_ok f.1 (Z.of_nat (length f.2));
  bu_super : V 1 = super_block;
  bu_rest b : 0 ≤ b < nmeta → b ≠ 1 → b < 32 ∨ 58 ≤ b → V b = zeroes
}.

Lemma layout_dinode V fb ow F k r n :
  layout V fb ow F → F !! k = Some r → fb ≤ FSSIZE → inode_ok (f_di r) n → 0 ≤ n < 2 ^ 32 → dinode_ok (f_di r).
Proof.
  intros HL Hk Hfb [Hty (H1 & H2 & H3) Hsz] Hn. pose proof (ly_file _ _ _ _ HL k r Hk) as [Hl Hm0 Hc Ha Hnone Hi Hmi Hb Ht].
  rewrite nmeta_eq in *. unfold T_DIR, T_FILE, FSSIZE in *.
  split; [lia|lia|lia|lia|lia|done|]. apply Forall_lookup_2. intros j a Hj. pose proof (lookup_lt_Some _ _ _ Hj).
  apply list_lookup_total_correct in Hj. destruct (decide (j = 12%nat)) as [->|Hne].
  - change (di_addrs (f_di r) !!! 12%nat) with (indirect (dx (f_di r))) in Hj. destruct (f_i r); lia.
  - assert (Haj : addr V (dx (f_di r)) (Z.of_nat j) = a) by (rewrite addr_direct, Nat2Z.id by lia; done).
    destruct (decide (Z.of_nat j < f_m r)); [pose proof (Ha (Z.of_nat j)); lia|pose proof (Hnone (Z.of_nat j)); lia].
Qed.

(** Writing the inode of file [k] back, with a new size. *)
Lemma built_winode V V' fi fb fb' G k f di c :
  built V fi fb G → G !! k = Some f → fb' ≤ FSSIZE →
  (∃ ow, layout V' fb' ow (<[k := tight di c]> (to_frec <$> G))) → (∀ b, b < nmeta → V' b = V b) →
  inode_ok (set_size (Z.of_nat (length c)) di) (Z.of_nat (length c)) → Z.of_nat (length c) < 2 ^ 32 →
  ∃ V2, winode (1 + Z.of_nat k) (set_size (Z.of_nat (length c)) di) (mst V' fi fb') = Done tt (mst V2 fi fb') ∧
        built V2 fi fb' (<[k := (set_size (Z.of_nat (length c)) di, c)]> G).
Proof.
  intros [_ Hfi Hcnt Hin Hok Hsup Hrest] Hk Hfb [ow HL] Hlow Hdi Hc. pose proof (lookup_lt_Some _ _ _ Hk) as Hlt. rewrite nmeta_eq in *.
  set (di' := set_size _ di) in *. set (inum := 1 + Z.of_nat k).
  assert (Hinum : 0 < inum < 200) by lia. pose proof (iblock_range inum Hinum) as Hib.
  assert (Hkf : <[k := tight di c]> (to_frec <$> G) !! k = Some (tight di c)) by (apply list_lookup_insert_eq; by rewrite length_fmap).
  pose proof (layout_size _ _ _ _ _ _ _ (Z.of_nat (length c)) HL Hkf) as HL2. fold di' in HL2. rewrite list_insert_insert_eq in HL2.
  pose proof (layout_dinode _ _ _ _ k _ _ HL2 ltac:(apply list_lookup_insert_eq; by rewrite length_fmap) Hfb Hdi ltac:(lia)) as Hdok. cbn [f_di tight] in Hdok.
  pose proof (ly_len _ _ _ _ HL2 (32 + inum / 8) ltac:(unfold FSSIZE; lia)) as Hlen.
  eexists. split; [by apply winode_ok|]. set (V2 := bupd _ _ V'). assert (Hput : ∀ i, 0 < i < 200 → inode_at V2 i = if i =? inum then di' else inode_at V' i).
  { intros i Hi. by apply inode_at_put. }
  split; rewrite ?length_insert; try done.
  - exists ow. rewrite list_fmap_insert. apply (layout_low V'); [exact HL2|done| |].
    + intros b Hb. rewrite nmeta_eq in Hb. apply bupd_ne. lia.
    + intros b Hb. unfold V2, bupd. destruct (Z.eqb_spec b (32 + inum / 8)) as [->|]; [|by apply HL2].
      rewrite length_put_dinode; [done| |apply Hdok]. rewrite Hlen. pose proof (Z.mod_pos_bound inum 8). lia.
  - intros j g Hj. apply list_lookup_insert_Some in Hj as [(<- & <- & _)|[Hne Hj]].
    + rewrite Hput by lia. by rewrite Z.eqb_refl.
    + pose proof (lookup_lt_Some _ _ _ Hj). rewrite Hput, (proj2 (Z.eqb_neq _ _)) by lia. rewrite <- (Hin j g Hj).
      pose proof (iblock_range (1 + Z.of_nat j) ltac:(lia)). unfold inode_at. by rewrite Hlow by lia.
  - intros j g Hj. apply list_lookup_insert_Some in Hj as [(<- & <- & _)|[Hne Hj]]; [done|by eapply Hok].
  - unfold V2. rewrite bupd_ne by lia. by rewrite Hlow.
  - intros b Hb Hb1 Hb2. unfold V2. rewrite nmeta_eq in Hb. rewrite bupd_ne by lia. rewrite Hlow by lia. by apply Hrest.
Qed.

(** The types and contents of the files. *)
Abbreviation tfile := (Z * list Z)%type.
Definition to_tfile (f : file) : tfile := (di_type f.1, f.2).
Definition cost (t : tfile) : Z := blocks (ceil (Z.of_nat (length t.2))).
Definition tcost (T : list tfile) : Z := foldr (λ t n, cost t + n) 0 T.

Definition holds (s : mkst) (T : list tfile) : Prop :=
  ∃ V G, s = mst V (1 + Z.of_nat (length T)) (nmeta + tcost T) ∧ built V (1 + Z.of_nat (length T)) (nmeta + tcost T) G ∧ T = to_tfile <$> G.

Lemma total_tcost (G : list file) : total (to_frec <$> G) = tcost (to_tfile <$> G).
Proof. induction G as [|f G IH]; [done|]. rewrite !fmap_cons. unfold total, tcost in *. cbn [foldr]. by rewrite IH. Qed.

Lemma tcost_insert T k t t' : T !! k = Some t → tcost (<[k := t']> T) = tcost T + (cost t' - cost t).
Proof.
  revert k. induction T as [|x T IH]; intros k Hk; [done|]. destruct k as [|k].
  - injection Hk as ->. cbn. lia.
  - change (cost x + tcost (<[k := t']> T) = cost x + tcost T + (cost t' - cost t)). rewrite IH by exact Hk. lia.
Qed.
Lemma tcost_app T T' : tcost (T ++ T') = tcost T + tcost T'.
Proof. unfold tcost. induction T as [|x T IH]; [done|]. cbn [app foldr]. lia. Qed.

Lemma iappend_holds s T k ty c p :
  holds s T → T !! k = Some (ty, c) → Z.of_nat (length (c ++ p)) ≤ MAXFILE * BSIZE → nmeta + tcost (<[k := (ty, c ++ p)]> T) ≤ FSSIZE →
  ∃ s', iappend (1 + Z.of_nat k) p s = Done tt s' ∧ holds s' (<[k := (ty, c ++ p)]> T).
Proof.
  intros (V & G & -> & HB & ->) Hk Hmax Hroom. rewrite length_fmap in *. rewrite (tcost_insert _ _ _ _ Hk) in Hroom.
  apply list_lookup_fmap_Some_1 in Hk as ([di c'] & [= -> ->] & Hk). cbn [fst snd cost] in *. pose proof (lookup_lt_Some _ _ _ Hk) as Hlt.
  destruct (bu_layout _ _ _ _ HB) as [ow HL]. pose proof (bu_ok _ _ _ _ HB k _ Hk) as Hio. cbn [fst snd] in Hio. pose proof (bu_count _ _ _ _ HB).
  assert (Hkf : (to_frec <$> G) !! k = Some (tight di c')) by (by rewrite list_lookup_fmap, Hk).
  rewrite length_app in Hmax. unfold cost in Hroom. cbn [fst snd] in Hroom. rewrite length_app, Nat2Z.inj_add in Hroom.
  destruct (iappend_loop_ok (length p) p V (1 + Z.of_nat (length G)) (nmeta + tcost (to_tfile <$> G)) (to_frec <$> G) k di c') as (V1 & fb1 & di1 & E & Hap);
    [by exists ow|exact Hkf|done|lia|lia|].
  pose proof (ap_fb _ _ _ _ _ _ _ _ _ _ Hap) as Hfb1. rewrite length_app, Nat2Z.inj_add in Hfb1.
  destruct (built_winode V V1 _ _ fb1 G k _ di1 (c' ++ p) HB Hk) as (V2 & Ew & HB2).
  - lia.
  - apply Hap.
  - apply Hap.
  - destruct (ap_meta _ _ _ _ _ _ _ _ _ _ Hap) as (M1 & M2 & M3 & M4 & _). destruct Hio as [Hi1 Hi2 Hi3]. split; cbn [set_size di_type di_major di_minor di_nlink di_size]; [by rewrite M1|by rewrite M2, M3, M4|done].
  - rewrite length_app. change (MAXFILE * BSIZE) with 71680 in Hmax. lia.
  - assert (Hty : di_type di1 = di_type di) by apply Hap.
    assert (ET : <[k := (di_type di, c' ++ p)]> (to_tfile <$> G) = to_tfile <$> <[k := (set_size (Z.of_nat (length (c' ++ p))) di1, c' ++ p)]> G).
    { rewrite list_fmap_insert, <- Hty. done. }
    exists (mst V2 (1 + Z.of_nat (length G)) fb1). split.
    + unfold iappend. erewrite bind_done by (apply rinode_ok; lia). rewrite (bu_inode _ _ _ _ HB k _ Hk). cbn [fst].
      rewrite (io_size _ _ Hio), xint_small by (change (MAXFILE * BSIZE) with 71680 in Hmax; lia).
      erewrite bind_done by exact E. cbn beta iota. rewrite xint_small by (change (MAXFILE * BSIZE) with 71680 in Hmax; lia).
      rewrite <- Nat2Z.inj_add, <- length_app. exact Ew.
    + assert (Efb : nmeta + tcost (<[k := (di_type di, c' ++ p)]> (to_tfile <$> G)) = fb1).
      { rewrite (tcost_insert _ _ (di_type di, c') _) by (by rewrite list_lookup_fmap, Hk). unfold cost. cbn [fst snd]. rewrite length_app, Nat2Z.inj_add. lia. }
      exists V2, (<[k := (set_size (Z.of_nat (length (c' ++ p))) di1, c' ++ p)]> G). rewrite Efb, length_insert, length_fmap. done.
Qed.

Lemma ialloc_holds s T ty :
  holds s T → (length T < 199)%nat → nmeta + tcost T ≤ FSSIZE → ty = T_DIR ∨ ty = T_FILE →
  ∃ s', ialloc ty s = Done (1 + Z.of_nat (length T)) s' ∧ holds s' (T ++ [(ty, [])]).
Proof.
  intros (V & G & -> & HB & ->) Hlen Hroom Hty. rewrite length_fmap in *.
  destruct HB as [[ow HL] Hfi Hcnt Hin Hok Hsup Hrest]. set (inum := 1 + Z.of_nat (length G)) in *. rewrite nmeta_eq in *.
  assert (Hinum : 0 < inum < 200) by lia. pose proof (iblock_range inum Hinum) as Hib.
  assert (Hn : inode_ok (new_inode ty) 0) by (split; [done|done|done]).
  assert (Hdok : dinode_ok (new_inode ty)).
  { destruct Hty as [->| ->]; (split; cbn; [done|done|done|done|done|done|]; repeat (constructor; [done|]); constructor). }
  pose proof (ly_len _ _ _ _ HL (32 + inum / 8) ltac:(unfold FSSIZE; lia)) as Hlen'.
  eexists. split.
  { unfold ialloc, bind at 1, gets, bind at 1, modify. cbn [mk_freeinode mst mk_img mk_len mk_freeblock].
    assert (Hu : u32 (inum + 1) = inum + 1) by (apply Z.mod_small; lia). rewrite Hu.
    assert (Ht : s16 (xshort ty) = ty) by (by destruct Hty as [->| ->]). rewrite Ht.
    erewrite bind_done; [reflexivity|]. apply (winode_ok V (inum + 1) _ inum (new_inode ty) Hinum). }
  set (V2 := bupd _ _ V). exists V2, (G ++ [(new_inode ty, [])]). rewrite length_app, length_fmap, tcost_app, nmeta_eq. change (tcost [(ty, [])]) with 0.
  rewrite Z.add_0_r. replace (1 + Z.of_nat (length G + length [(ty, @nil Z)])) with (inum + 1) by (cbn [length]; lia).
  split; [done|]. split; [|by rewrite fmap_app].
  assert (Hput : ∀ i, 0 < i < 200 → inode_at V2 i = if i =? inum then new_inode ty else inode_at V i) by (intros i Hi; by apply inode_at_put).
  split; rewrite ?length_app; cbn [length]; [|lia|lia|..].
  - exists ow. rewrite fmap_app. apply layout_snoc. apply (layout_low V); [exact HL|by rewrite ?nmeta_eq| |].
    + intros b Hb. rewrite nmeta_eq in Hb. apply bupd_ne. lia.
    + intros b Hb. unfold V2, bupd. destruct (Z.eqb_spec b (32 + inum / 8)) as [->|]; [|by apply HL].
      rewrite length_put_dinode; [done| |apply Hdok]. rewrite Hlen'. pose proof (Z.mod_pos_bound inum 8). lia.
  - intros j g Hj. apply lookup_app_Some in Hj as [Hj|[Hge Hj]].
    + pose proof (lookup_lt_Some _ _ _ Hj). rewrite Hput, (proj2 (Z.eqb_neq _ _)) by lia. by apply Hin.
    + apply list_lookup_singleton_Some in Hj as [Hj <-]. rewrite Hput by lia. by rewrite (proj2 (Z.eqb_eq _ _)) by lia.
  - intros j g Hj. apply lookup_app_Some in Hj as [Hj|[Hge Hj]]; [by eapply Hok|]. by apply list_lookup_singleton_Some in Hj as [Hj <-].
  - unfold V2. by rewrite bupd_ne by lia.
  - intros b Hb Hb1 Hb2. unfold V2. rewrite nmeta_eq in Hb. rewrite bupd_ne by lia. by apply Hrest.
Qed.

(** ** main *)
Lemma zero_all_ok n i s :
  0 ≤ i → i + Z.of_nat n ≤ FSSIZE → mk_len s = i →
  ∃ V, zero_all n i s = Done tt (MkSt V (i + Z.of_nat n) (mk_freeinode s) (mk_freeblock s)) ∧
    (∀ b, i ≤ b < i + Z.of_nat n → V b = zeroes) ∧ ∀ b, b < i → V b = mk_img s b.
Proof.
  revert i s. induction n as [|n IH]; intros i s Hi Hn Hs.
  - exists (mk_img s). split; [rewrite Z.add_0_r, <- Hs; by destruct s|]. split; [intros b Hb; lia|done].
  - cbn [zero_all]. unfold wsect, bind at 1, modify. rewrite seek_small by lia. rewrite Z.max_r by lia.
    destruct (IH (i + 1) (MkSt (bupd i zeroes (mk_img s)) (i + 1) (mk_freeinode s) (mk_freeblock s))) as (V & E & H1 & H2); [lia|lia|done|].
    exists V. rewrite E. cbn. split; [do 2 f_equal; lia|]. split; [|intros b Hb; rewrite H2 by lia; apply bupd_ne; lia].
    intros b Hb. destruct (decide (b = i)) as [->|Hne]; [rewrite H2 by lia; apply bupd_at|apply H1; lia].
Qed.

Lemma length_zeroes : length zeroes = 512%nat.
Proof. done. Qed.

Lemma start_holds V : (∀ b, 0 ≤ b < FSSIZE → V b = zeroes) → holds (mst (bupd 1 super_block V) 1 nmeta) [].
Proof.
  intros HV. exists (bupd 1 super_block V), []. split; [done|]. split; [|done].
  assert (Hz : ∀ b, 0 ≤ b < FSSIZE → b ≠ 1 → bupd 1 super_block V b = zeroes) by (intros b Hb Hb1; rewrite bupd_ne by done; by apply HV).
  split; [|done|cbn; lia|done|done|apply bupd_at|intros b Hb Hb1 _; apply Hz; [rewrite nmeta_eq in Hb; unfold FSSIZE; lia|done]].
  exists (λ _, (0%nat, 0)). split; [done|done| |].
  - intros b Hb. apply Hz; rewrite nmeta_eq in Hb; cbn in Hb; lia.
  - intros b Hb. by rewrite Hz by lia.
Qed.

Lemma cost_nonneg t : 0 ≤ cost t.
Proof.
  unfold cost, blocks. pose proof (ceil_bounds (Z.of_nat (length t.2)) ltac:(lia)). unfold b2z. destruct (12 <? _); lia.
Qed.
Lemma cost_app ty ty' c p : cost (ty, c) ≤ cost (ty', c ++ p).
Proof. apply blocks_mono, ceil_mono. cbn. rewrite length_app. lia. Qed.

Lemma pieces_holds ps s T k ty c :
  holds s T → T !! k = Some (ty, c) → Z.of_nat (length (c ++ concat ps)) ≤ MAXFILE * BSIZE →
  nmeta + tcost (<[k := (ty, c ++ concat ps)]> T) ≤ FSSIZE →
  ∃ s', append_pieces (1 + Z.of_nat k) ps s = Done tt s' ∧ holds s' (<[k := (ty, c ++ concat ps)]> T).
Proof.
  revert s T c. induction ps as [|p ps IH]; intros s T c Hh Hk Hmax Hroom; cbn [append_pieces concat] in *.
  - exists s. split; [done|]. rewrite app_nil_r. by rewrite list_insert_id.
  - rewrite app_assoc in Hmax, Hroom |- *. pose proof (lookup_lt_Some _ _ _ Hk).
    destruct (iappend_holds s T k ty c p Hh Hk) as (s1 & E1 & H1).
    + rewrite length_app in Hmax. lia.
    + rewrite (tcost_insert _ _ _ _ Hk) in Hroom. rewrite (tcost_insert _ _ _ _ Hk). pose proof (cost_app ty ty (c ++ p) (concat ps)). lia.
    + destruct (IH s1 (<[k := (ty, c ++ p)]> T) (c ++ p) H1) as (s2 & E2 & H2).
      * by apply list_lookup_insert_eq.
      * done.
      * by rewrite list_insert_insert_eq.
      * exists s2. rewrite list_insert_insert_eq in H2. split; [|done]. by rewrite (bind_done _ _ _ _ _ E1).
Qed.

Section main.
Variable host : list Z → option (list (list Z)).

Definition host_file (arg : list Z) : list Z := concat (default [] (host arg)).
Definition root_entry (T : list tfile) (arg : list Z) : list Z :=
  make_dirent (skip_underscore arg) (1 + Z.of_nat (length T)) (replicate 16 0).

(** The files after one more; the root directory comes first. *)
Definition with_arg (T : list tfile) (arg : list Z) : list tfile :=
  match T with
  | (ty, c) :: T' => (ty, c ++ root_entry T arg) :: T' ++ [(T_FILE, host_file arg)]
  | [] => []
  end.

(** An argument that mkfs takes. *)
Record arg_ok (arg : list Z) : Prop := {
  ar_slash : 47 ∉ arg;
  ar_open : is_Some (host arg);
  ar_size : Z.of_nat (length (host_file arg)) ≤ MAXFILE * BSIZE
}.

Lemma with_arg_cost T arg : tcost T ≤ tcost (with_arg T arg).
Proof.
  destruct T as [|[ty c] T]; [done|]. cbn [with_arg]. set (e := root_entry _ arg).
  change (cost (ty, c) + tcost T ≤ cost (ty, c ++ e) + tcost (T ++ [(T_FILE, host_file arg)])). rewrite tcost_app.
  pose proof (cost_app ty ty c e). pose proof (cost_nonneg (T_FILE, host_file arg)).
  change (tcost [(T_FILE, host_file arg)]) with (cost (T_FILE, host_file arg) + 0). lia.
Qed.
Lemma foldl_cost args T : tcost T ≤ tcost (foldl with_arg T args).
Proof. revert T. induction args as [|a args IH]; intros T; [done|]. cbn [foldl]. pose proof (with_arg_cost T a). pose proof (IH (with_arg T a)). lia. Qed.

Lemma add_file_holds s T ty c arg :
  holds s ((ty, c) :: T) → arg_ok arg → (length T < 198)%nat → Z.of_nat (length c) ≤ 4000 →
  nmeta + tcost (with_arg ((ty, c) :: T) arg) ≤ FSSIZE →
  ∃ s', add_file host 1 arg s = Done tt s' ∧ holds s' (with_arg ((ty, c) :: T) arg).
Proof.
  intros Hh [Hs [ps Hp] Hsz] Hlen Hc Hroom. unfold add_file, assert. rewrite bool_decide_eq_true_2 by done. unfold bind at 1, ret. rewrite Hp.
  destruct (ialloc_holds s _ T_FILE Hh) as (s1 & E1 & H1); [cbn; lia| |by right|].
  { pose proof (with_arg_cost ((ty, c) :: T) arg). lia. }
  rewrite (bind_done _ _ _ _ _ E1). set (inum := 1 + Z.of_nat (length ((ty, c) :: T))) in *. rewrite xshort_small by (unfold inum; cbn [length]; lia).
  assert (Hf : host_file arg = concat ps) by (unfold host_file; by rewrite Hp). rewrite Hf in Hsz. set (e := root_entry ((ty, c) :: T) arg).
  assert (He : length e = 16%nat) by (by apply length_dirent).
  assert (Hroom' : nmeta + (cost (ty, c ++ e) + (tcost T + cost (T_FILE, concat ps))) ≤ FSSIZE).
  { revert Hroom. unfold with_arg. rewrite Hf. fold e.
    change (tcost ((ty, c ++ e) :: T ++ [(T_FILE, concat ps)])) with (cost (ty, c ++ e) + tcost (T ++ [(T_FILE, concat ps)])).
    rewrite tcost_app. change (tcost [(T_FILE, concat ps)]) with (cost (T_FILE, concat ps) + 0). lia. }
  destruct (iappend_holds s1 (((ty, c) :: T) ++ [(T_FILE, [])]) 0 ty c e H1 eq_refl) as (s2 & E2 & H2).
  { rewrite length_app, He. change (MAXFILE * BSIZE) with 71680. lia. }
  { change (nmeta + (cost (ty, c ++ e) + tcost (T ++ [(T_FILE, [])])) ≤ FSSIZE). rewrite tcost_app.
    change (tcost [(T_FILE, [])]) with 0. pose proof (cost_nonneg (T_FILE, concat ps)). lia. }
  change (1 + Z.of_nat 0) with 1 in E2. erewrite bind_done by exact E2.
  change (<[0%nat := (ty, c ++ e)]> (((ty, c) :: T) ++ [(T_FILE, [])])) with (((ty, c ++ e) :: T) ++ [(T_FILE, @nil Z)]) in H2.
  assert (Hlk : (((ty, c ++ e) :: T) ++ [(T_FILE, @nil Z)]) !! length ((ty, c) :: T) = Some (T_FILE, [])) by (by apply list_lookup_middle).
  assert (Hins : <[length ((ty, c) :: T) := (T_FILE, [] ++ concat ps)]> (((ty, c ++ e) :: T) ++ [(T_FILE, @nil Z)]) = ((ty, c ++ e) :: T) ++ [(T_FILE, concat ps)]).
  { change (length ((ty, c) :: T)) with (length ((ty, c ++ e) :: T)). rewrite <- (Nat.add_0_r (length _)). by rewrite insert_app_r. }
  destruct (pieces_holds ps s2 _ _ T_FILE [] H2 Hlk) as (s3 & E3 & H3).
  { exact Hsz. }
  { rewrite Hins, tcost_app. change (tcost ((ty, c ++ e) :: T)) with (cost (ty, c ++ e) + tcost T).
    change (tcost [(T_FILE, concat ps)]) with (cost (T_FILE, concat ps) + 0). lia. }
  rewrite Hins in H3. exists s3. split; [exact E3|]. unfold with_arg. rewrite Hf. exact H3.
Qed.

Lemma add_files_holds args s T ty c :
  holds s ((ty, c) :: T) → Forall arg_ok args → (length T + length args ≤ 198)%nat → Z.of_nat (length c) + 16 * Z.of_nat (length args) ≤ 4000 →
  nmeta + tcost (foldl with_arg ((ty, c) :: T) args) ≤ FSSIZE →
  ∃ s', add_files host 1 args s = Done tt s' ∧ holds s' (foldl with_arg ((ty, c) :: T) args).
Proof.
  intros Hh Hargs. revert s T c Hh. induction Hargs as [|a args Ha Hargs IH]; intros s T c Hh Hlen Hc Hroom; [by exists s|].
  cbn [add_files foldl length] in *.
  destruct (add_file_holds s T ty c a Hh Ha) as (s1 & E1 & H1); [lia|lia|pose proof (foldl_cost args (with_arg ((ty, c) :: T) a)); lia|].
  destruct (IH s1 _ _ H1) as (s2 & E2 & H2); [rewrite length_app; cbn [length]; lia| |exact Hroom|].
  { rewrite length_app. unfold root_entry. rewrite length_dirent by done. lia. }
  exists s2. split; [|exact H2]. by rewrite (bind_done _ _ _ _ _ E1).
Qed.

(** The root directory, with the inode numbers from [k] on for the arguments. *)
Definition arg_entries (k : Z) (args : list (list Z)) : list Z :=
  concat (imap (λ i arg, make_dirent (skip_underscore arg) (k + Z.of_nat i) (replicate 16 0)) args).
Definition dots : list Z := dot_entry (str ".") 1 ++ dot_entry (str "..") 1.
Definition root_dir (args : list (list Z)) : list Z := dots ++ arg_entries 2 args.

(** The files of the finished image. *)
Definition files (args : list (list Z)) : list tfile := (T_DIR, root_dir args) :: ((λ arg, (T_FILE, host_file arg)) <$> args).

Lemma foldl_files args ty c T :
  foldl with_arg ((ty, c) :: T) args =
    (ty, c ++ arg_entries (2 + Z.of_nat (length T)) args) :: T ++ ((λ arg, (T_FILE, host_file arg)) <$> args).
Proof.
  revert c T. induction args as [|a args IH]; intros c T; cbn [foldl with_arg].
  - unfold arg_entries. cbn. by rewrite !app_nil_r.
  - rewrite IH, <- !app_assoc. rewrite fmap_cons. f_equal. f_equal. f_equal. unfold root_entry, arg_entries. cbn [imap concat].
    f_equal; [f_equal; cbn [length]; lia|]. f_equal. apply imap_ext. intros i x _. unfold compose. f_equal. rewrite length_app. cbn [length]. lia.
Qed.

Lemma arg_entries_length k args : length (arg_entries k args) = (16 * length args)%nat.
Proof.
  unfold arg_entries. revert k. induction args as [|a args IH]; intros k; [done|]. cbn [imap concat length]. rewrite length_app, length_dirent by done.
  rewrite (imap_ext _ (λ i arg, make_dirent (skip_underscore arg) (k + 1 + Z.of_nat i) (replicate 16 0))), IH; [lia|].
  intros i x _. unfold compose. f_equal. lia.
Qed.
Lemma root_dir_length args : length (root_dir args) = (32 + 16 * length args)%nat.
Proof. unfold root_dir. rewrite length_app, arg_entries_length. done. Qed.

(** The image fits: the files and the blocks that they need. *)
Record args_ok (args : list (list Z)) : Prop := {
  as_args : Forall arg_ok args;
  as_count : (length args ≤ 198)%nat;
  as_room : nmeta + tcost (files args) ≤ FSSIZE
}.

Lemma files_holds args :
  args_ok args →
  ∃ s, holds s (files args) ∧ ∀ k : Z → MK unit,
       (modify (λ s, MkSt (mk_img s) (mk_len s) (mk_freeinode s) nmeta) ;;;
        zero_all (Z.to_nat FSSIZE) 0 ;;;
        wsect 1 super_block ;;;
        rootino <- ialloc T_DIR;;
        assert (rootino =? ROOTINO) "rootino == ROOTINO" ;;;
        iappend rootino (dot_entry (str ".") rootino) ;;;
        iappend rootino (dot_entry (str "..") rootino) ;;;
        add_files host rootino args ;;;
        k rootino) mk_start = k 1 s.
Proof.
  intros [Hargs Hcnt Hroom]. assert (H1r : 0 ≤ 1 < FSSIZE) by done.
  destruct (zero_all_ok (Z.to_nat FSSIZE) 0 (MkSt (mk_img mk_start) (mk_len mk_start) (mk_freeinode mk_start) nmeta)) as (V & E & HV & _); [done|done|done|].
  change (0 + Z.of_nat (Z.to_nat FSSIZE)) with FSSIZE in HV, E. change (MkSt V FSSIZE (mk_freeinode _) (mk_freeblock _)) with (mst V 1 nmeta) in E.
  pose proof (start_holds V HV) as H0. pose proof (wsect_ok V 1 nmeta 1 super_block H1r) as E0.
  destruct (ialloc_holds _ _ T_DIR H0) as (s1 & E1 & H1); [cbn; lia|by vm_compute|by left|].
  assert (Hle : nmeta + tcost [(T_DIR, dots)] ≤ FSSIZE) by (rewrite nmeta_eq; vm_compute; discriminate). cbn [app] in H1.
  destruct (iappend_holds _ _ 0 T_DIR [] (dot_entry (str ".") 1) H1 eq_refl) as (s2 & E2 & H2); [done|rewrite nmeta_eq; vm_compute; discriminate|].
  destruct (iappend_holds _ _ 0 T_DIR _ (dot_entry (str "..") 1) H2 eq_refl) as (s3 & E3 & H3); [done|exact Hle|].
  change (<[0%nat := _]> _) with [(T_DIR, dots)] in H3.
  assert (HF : foldl with_arg [(T_DIR, dots)] args = files args) by (by rewrite foldl_files).
  destruct (add_files_holds args s3 [] T_DIR dots H3 Hargs) as (s4 & E4 & H4); [cbn; lia|change (Z.of_nat (length dots)) with 32; lia|by rewrite HF|].
  rewrite HF in H4. exists s4. split; [exact H4|]. intros k. unfold bind at 1, modify.
  rewrite (bind_done _ _ _ _ _ E), (bind_done _ _ _ _ _ E0), (bind_done _ _ _ _ _ E1). unfold assert.
  change (1 + Z.of_nat (length []) =? ROOTINO) with true. cbv iota. unfold bind at 1, ret at 1. change (1 + Z.of_nat (length (@nil tfile))) with (1 + Z.of_nat 0).
  rewrite (bind_done _ _ _ _ _ E2), (bind_done _ _ _ _ _ E3). exact (bind_done _ _ _ _ _ E4).
Qed.
End main.
