(* ===== verification/MkfsBoot.v ===== *)
(** * The kernel on the image that mkfs makes

    The finished image satisfies what the file system of the kernel needs; after booting from
    it the kernel finds every file that mkfs was given, with its contents. *)

From S2P Require Import Prelude Params CString Core Bio BioSpec BioTheorems Log LogSpec LogCrash LogCommit Transactions BlockStore Fs FsBlocks FsInodes FsFiles FsWrite FsDirs Mkfs MkfsTheorems.

(** ** The bitmap *)
Lemma foldl_mark l d b :
  length d = 512%nat → Forall (λ i, 0 ≤ i < BPB) l → 0 ≤ b < BPB →
  length (foldl mark_bit d l) = 512%nat ∧ bit_set (foldl mark_bit d l) b = bit_set d b || bool_decide (b ∈ l).
Proof.
  intros Hd Hl Hb. revert d Hd. induction Hl as [|i l Hi Hl IH]; intros d Hd; cbn [foldl].
  - split; [done|]. by rewrite bool_decide_eq_false_2, orb_false_r by apply not_elem_of_nil.
  - destruct (IH (mark_bit d i)) as [H1 H2]; [by rewrite length_mark_bit|]. split; [done|].
    rewrite H2, bit_mark by done. rewrite <- orb_assoc. f_equal.
    destruct (Z.eqb_spec i b) as [->|Hne]; cbn [orb]; [by rewrite bool_decide_eq_true_2 by left|].
    apply bool_decide_ext. set_solver.
Qed.

Lemma zeroes_clear b : 0 ≤ b < BPB → bit_set zeroes b = false.
Proof.
  intros Hb. rewrite bit_set_testbit. replace (zeroes !!! Z.to_nat (b / 8)) with 0; [apply Z.bits_0|].
  symmetry. apply list_lookup_total_correct, lookup_replicate_2. change BPB with 4096 in Hb. unfold BSIZE.
  assert (b / 8 < 512); [apply Z.div_lt_upper_bound; lia|lia].
Qed.

Lemma mark_used_bit n b : 0 ≤ n ≤ BPB → 0 ≤ b < BPB → length (mark_used n) = 512%nat ∧ bit_set (mark_used n) b = (b <? n).
Proof.
  intros Hn Hb. destruct (foldl_mark (seqZ 0 n) zeroes b) as [H1 H2]; [done| |done|].
  { apply Forall_forall. intros i Hi. apply elem_of_seqZ in Hi. lia. }
  split; [exact H1|]. unfold mark_used. rewrite H2, zeroes_clear by done. cbn [orb].
  destruct (Z.ltb_spec b n); [apply bool_decide_eq_true_2|apply bool_decide_eq_false_2]; rewrite elem_of_seqZ; lia.
Qed.

(** ** The finished image *)
Section image.
Variable host : list Z → option (list (list Z)).

(** The size that the root directory is given. *)
Definition root_size (args : list (list Z)) : Z := (Z.of_nat (length (root_dir args)) / 512 + 1) * 512.

Record image (V : bview) (args : list (list Z)) : Prop := {
  im_super : V 1 = super_block;
  im_log : V 2 = zeroes;
  im_files : ∃ fb ow G, layout V fb ow (to_frec <$> G) ∧ fb ≤ FSSIZE ∧ V 58 = mark_used fb ∧
    to_tfile <$> G = files host args ∧
    (∀ k f, G !! k = Some f → inode_ok f.1 (Z.of_nat (length f.2))) ∧
    ∀ k f, G !! k = Some f → inode_at V (1 + Z.of_nat k) = if decide (k = 0%nat) then set_size (root_size args) f.1 else f.1
}.

Lemma fix_root_ok V fi fb G f args :
  built V fi fb G → fb ≤ FSSIZE → G !! 0%nat = Some f → f.2 = root_dir args → (length args ≤ 198)%nat →
  fix_root 1 (mst V fi fb) = Done tt (mst (bupd 32 (put_dinode 1 (set_size (root_size args) f.1) (V 32)) V) fi fb).
Proof.
  intros HB Hfb Hf Hc Hcnt. unfold fix_root. erewrite bind_done by (apply rinode_ok; lia).
  pose proof (bu_inode _ _ _ _ HB 0 f Hf) as Hin. change (1 + Z.of_nat 0) with 1 in Hin. rewrite Hin.
  rewrite (io_size _ _ (bu_ok _ _ _ _ HB 0 f Hf)), Hc. pose proof (root_dir_length args) as Hlen.
  assert (Hn : 0 ≤ Z.of_nat (length (root_dir args)) / 512 < 7).
  { split; [apply Z.div_pos; lia|apply Z.div_lt_upper_bound; lia]. }
  rewrite (xint_small (Z.of_nat _)) by lia. change BSIZE with 512. fold (root_size args).
  assert (Hu : u32 (root_size args) = root_size args) by (apply Z.mod_small; unfold root_size; lia). rewrite Hu.
  rewrite xint_small by (unfold root_size; lia). by rewrite winode_ok.
Qed.

Lemma main_image name args :
  args_ok host args → ∃ s, main host true (name :: args) mk_start = Done tt s ∧ image (mk_img s) args ∧ mk_len s = FSSIZE.
Proof.
  intros Hok. destruct (files_holds host args Hok) as (s & (V & G & Es & HB & HT) & E). pose proof (as_count _ _ Hok) as Hcnt.
  pose proof (as_room _ _ Hok) as Hroom. set (fb := nmeta + tcost (files host args)) in *.
  assert (Hf : ∃ f, G !! 0%nat = Some f ∧ f.2 = root_dir args).
  { destruct G as [|f G]; [done|]. exists f. split; [done|]. by injection HT as _ -> _. }
  destruct Hf as (f & Hf & Hc). destruct (bu_layout _ _ _ _ HB) as [ow HL]. pose proof (layout_fb _ _ _ _ HL) as Hge. rewrite nmeta_eq in Hge.
  pose proof (fix_root_ok V _ fb G f args HB Hroom Hf Hc Hcnt) as Efix. set (V1 := bupd 32 _ V) in *.
  assert (Hdi : dinode_ok (set_size (root_size args) f.1)).
  { destruct (layout_dinode _ _ _ _ 0 _ _ HL ltac:(by rewrite list_lookup_fmap, Hf) Hroom (bu_ok _ _ _ _ HB 0 f Hf)) as [D1 D2 D3 D4 D5 D6 D7].
    { rewrite Hc, root_dir_length. lia. }
    split; try done. cbn [set_size di_size]. unfold root_size. rewrite root_dir_length. split; [apply Z.mul_nonneg_nonneg; [|lia]|].
    - assert (0 ≤ Z.of_nat (32 + 16 * length args) / 512) by (apply Z.div_pos; lia). lia.
    - assert (Z.of_nat (32 + 16 * length args) / 512 < 7) by (apply Z.div_lt_upper_bound; lia). lia. }
  pose proof (ly_len _ _ _ _ HL 32 ltac:(unfold FSSIZE; lia)) as Hlen32. set (V2 := bupd 58 (mark_used fb) V1).
  exists (mst V2 (1 + Z.of_nat (length (files host args))) fb). split; [|split; [|done]].
  - unfold main. cbn [assert]. change (assert (BSIZE mod DINODE_SIZE =? 0) _) with (ret tt : MK unit).
    change (assert (BSIZE mod DIRENT_SIZE =? 0) _) with (ret tt : MK unit). unfold bind at 1, ret at 1, bind at 1, ret at 1. cbn [negb].
    rewrite (E (λ rootino, fix_root rootino ;;; used <- gets mk_freeblock;; balloc used)), Es, (bind_done _ _ _ _ _ Efix).
    unfold bind at 1, gets. cbn [mk_freeblock mst]. unfold balloc, assert. rewrite (proj2 (Z.ltb_lt _ _)) by (unfold FSSIZE, BSIZE in *; lia).
    unfold bind at 1, ret. change (sb_bmapstart sb) with 58. by rewrite wsect_ok.
  - cbn [mk_img mst]. split.
    + unfold V2, V1. rewrite !bupd_ne by lia. apply HB.
    + unfold V2, V1. rewrite !bupd_ne by lia. apply (bu_rest _ _ _ _ HB); rewrite ?nmeta_eq; lia.
    + exists fb, ow, G. split; [|split; [done|split; [apply bupd_at|split; [done|split; [apply HB|]]]]].
      * apply (layout_low V); [done|done| |].
        -- intros b Hb. rewrite nmeta_eq in Hb. unfold V2, V1. by rewrite !bupd_ne by lia.
        -- intros b Hb. unfold V2, V1, bupd. destruct (Z.eqb_spec b 58); [apply (mark_used_bit fb 0); change BPB with 4096; unfold FSSIZE in *; lia|].
           destruct (Z.eqb_spec b 32); [|by apply HL]. rewrite length_put_dinode; [done|lia|apply Hdi].
      * intros k g Hk. pose proof (lookup_lt_Some _ _ _ Hk). pose proof (bu_count _ _ _ _ HB).
        pose proof (iblock_range (1 + Z.of_nat k) ltac:(lia)). unfold inode_at, V2. rewrite bupd_ne by lia. fold (inode_at V1 (1 + Z.of_nat k)).
        pose proof (inode_at_put V 1 (set_size (root_size args) f.1) (1 + Z.of_nat k) ltac:(lia) ltac:(lia) Hdi Hlen32) as Hput.
        change (32 + 1 / 8) with 32 in Hput. change (Z.to_nat (1 mod 8)) with 1%nat in Hput. fold V1 in Hput. rewrite Hput. case_decide as Hk0.
        -- subst k. by rewrite Hf in Hk; injection Hk as <-.
        -- rewrite (proj2 (Z.eqb_neq _ _)) by lia. by apply HB.
Qed.
End image.

(** ** What the kernel needs of it *)
Lemma addr_addrs V x y bn : i_addrs x = i_addrs y → addr V x bn = addr V y bn.
Proof. intros H. unfold addr, indirect. by rewrite H. Qed.

Section kernel.
Context {St : Type} {B : BlockStore St} {L : BlockLaws St}.
Hypothesis Hhome : ∀ b, 32 ≤ b < FSSIZE → st_home b.
Variables (V : bview) (fb : Z) (ow : Z → nat * Z) (F : list frec).
Hypothesis HL : layout V fb ow F.
Hypothesis Hfb : fb ≤ FSSIZE.
Hypothesis Hbm : V 58 = mark_used fb.

Lemma image_bblock b : 0 ≤ b < FSSIZE → BBLOCK b sb = 58 ∧ b mod BPB = b.
Proof.
  intros Hb. unfold FSSIZE in Hb. unfold BBLOCK. change BPB with 4096. change (sb_bmapstart sb) with 58.
  rewrite Z.div_small, Z.mod_small by lia. done.
Qed.

Lemma image_in_use b : 0 ≤ b < FSSIZE → in_use sb V b = (b <? fb).
Proof.
  intros Hb. unfold in_use. destruct (image_bblock b Hb) as [-> ->]. rewrite Hbm. pose proof (layout_fb _ _ _ _ HL) as H59. rewrite nmeta_eq in H59.
  apply mark_used_bit; change BPB with 4096; unfold FSSIZE in *; lia.
Qed.

Lemma image_bitmap : bitmap_ok sb V.
Proof.
  pose proof (layout_fb _ _ _ _ HL) as H59. rewrite nmeta_eq in H59.
  split; change (sb_size sb) with FSSIZE.
  - done.
  - intros b Hb. destruct (image_bblock b Hb) as [-> _]. apply Hhome. unfold FSSIZE. lia.
  - intros b Hb. destruct (image_bblock b Hb) as [-> _]. apply (ly_len _ _ _ _ HL). unfold FSSIZE. lia.
  - intros b Hb Hu. rewrite image_in_use in Hu by done. apply Z.ltb_ge in Hu. split; [apply Hhome; lia|].
    intros b' Hb'. destruct (image_bblock b' Hb') as [-> _]. lia.
Qed.

Lemma image_bitmap_blocks y : y ∈ bitmap_blocks sb → y = 58.
Proof. rewrite elem_of_bitmap_blocks. intros (b & Hb & ->). by apply image_bblock. Qed.

Section file.
Variables (k : nat) (r : frec) (x : inode).
Hypothesis Hk : F !! k = Some r.
Hypothesis Hx : i_addrs x = di_addrs (f_di r).

Lemma image_addr bn : addr V x bn = addr V (dx (f_di r)) bn.
Proof. by apply addr_addrs. Qed.

Lemma image_file_inv ib : i_dev x = 1 → 32 ≤ ib < 58 → file_inv sb V ib x.
Proof.
  intros Hdev Hib. pose proof (ly_file _ _ _ _ HL k r Hk) as [Hl Hm0 Hc Ha Hn Hi Hmi Hb Ht].
  pose proof (layout_fb _ _ _ _ HL) as H59. rewrite nmeta_eq in *. assert (Hind : indirect x = indirect (dx (f_di r))) by (unfold indirect; by rewrite Hx).
  assert (Hfb' : ∀ a, 59 ≤ a < fb → FsFiles.file_block sb V ib a).
  { intros a Har. split; change (sb_size sb) with FSSIZE; [lia|apply Hhome; lia| | |lia|apply (ly_len _ _ _ _ HL); lia].
    - rewrite image_in_use by lia. apply Z.ltb_lt. lia.
    - intros H58. apply image_bitmap_blocks in H58. lia. }
  assert (Hlt : ∀ bn, 0 ≤ bn < 140 → addr V x bn ≠ 0 → bn < f_m r).
  { intros bn Hbn H0. destruct (Z.ltb_spec bn (f_m r)) as [|Hge]; [done|]. rewrite image_addr, Hn in H0 by lia. done. }
  split; change (sb_size sb) with FSSIZE.
  - apply image_bitmap.
  - unfold FSSIZE. lia.
  - rewrite image_in_use by (unfold FSSIZE; lia). apply Z.ltb_lt. lia.
  - exact Hdev.
  - by rewrite Hx.
  - intros Hr. rewrite image_in_use by done. apply Z.ltb_lt. lia.
  - intros H58. apply image_bitmap_blocks in H58. lia.
  - lia.
  - rewrite Hind. intros H0. destruct (f_i r); [|done]. apply Hfb', Hi.
  - intros bn Hbn H0. pose proof (Hlt bn Hbn H0). rewrite image_addr, Hind. destruct (Ha bn ltac:(lia)) as [H1 H2]. split; [by apply Hfb'|].
    intros E. destruct (f_i r); [|lia]. destruct Hi as [_ Hi]. rewrite <- E, H2 in Hi. injection Hi as ?. lia.
  - intros bn bn' Hbn Hbn' H0 E. pose proof (Hlt bn Hbn H0). assert (H0' : addr V x bn' ≠ 0) by congruence. pose proof (Hlt bn' Hbn' H0').
    rewrite !image_addr in E. destruct (Ha bn ltac:(lia)) as [_ H2]. destruct (Ha bn' ltac:(lia)) as [_ H2']. rewrite E, H2' in H2. by injection H2.
Qed.

(** A file may be given a size beyond its contents, in its last block. *)
Lemma image_content : Z.of_nat (length (f_c r)) ≤ i_size x ≤ 512 * f_m r →
  dense V x ∧ content V x = f_c r ++ replicate (Z.to_nat (i_size x) - length (f_c r)) 0.
Proof.
  intros Hs. pose proof (ly_file _ _ _ _ HL k r Hk) as [Hl Hm0 Hc Ha Hn Hi Hmi Hb Ht]. rewrite nmeta_eq in *.
  assert (Hby : ∀ o, fbyte V x o = fbyte V (dx (f_di r)) o) by (intros o; unfold fbyte; by rewrite image_addr). split.
  - split; [change (MAXFILE * BSIZE) with 71680; lia|]. intros bn Hbn Hbn'. rewrite image_addr. unfold BSIZE in Hbn'. pose proof (Ha bn ltac:(lia)). lia.
  - apply list_eq_lookup; [rewrite length_content, length_app, length_replicate; lia|]. rewrite length_content. intros o Ho.
    unfold content. rewrite list_lookup_fmap, lookup_seqZ_lt by lia. cbn [fmap option_fmap option_map]. rewrite Hby, Z.add_0_l.
    destruct (f_c r !! o) as [b|] eqn:E.
    + rewrite lookup_app_l by (by eapply lookup_lt_Some). by rewrite E, (Hb o b E).
    + apply lookup_ge_None in E. rewrite lookup_app_r by done. rewrite Ht by lia. symmetry. apply lookup_replicate_2. lia.
Qed.
End file.
End kernel.

(** ** The root directory *)
Section root.
Implicit Types args : list (list Z).

Lemma slice_app_l {A} o n (l l' : list A) : (o + n ≤ length l)%nat → slice o n (l ++ l') = slice o n l.
Proof. intros H. unfold slice. rewrite drop_app_le by lia. apply take_app_le. rewrite length_drop. lia. Qed.
Lemma slice_app_r {A} o n (l l' : list A) : slice (length l + o) n (l ++ l') = slice o n l'.
Proof. unfold slice. by rewrite drop_app_add. Qed.

Lemma arg_entries_cons k a args :
  arg_entries k (a :: args) = make_dirent (skip_underscore a) k (replicate 16 0) ++ arg_entries (k + 1) args.
Proof.
  unfold arg_entries. cbn [imap concat]. rewrite Z.add_0_r. f_equal. f_equal. apply imap_ext. intros i x _. unfold compose. f_equal. lia.
Qed.

Lemma arg_entry k i a args :
  args !! i = Some a → slice (16 * i) 16 (arg_entries k args) = make_dirent (skip_underscore a) (k + Z.of_nat i) (replicate 16 0).
Proof.
  revert k i. induction args as [|b args IH]; intros k i Hi; [done|]. rewrite arg_entries_cons.
  assert (Hl : length (make_dirent (skip_underscore b) k (replicate 16 0)) = 16%nat) by (by apply length_dirent).
  destruct i as [|i].
  - injection Hi as ->. rewrite Z.add_0_r, slice_app_l by lia. unfold slice. rewrite drop_0. by apply take_ge; lia.
  - set (e := make_dirent (skip_underscore b) k (replicate 16 0)) in *. replace (16 * S i)%nat with (length e + 16 * i)%nat by lia.
    rewrite slice_app_r, (IH (k + 1) i Hi). f_equal. lia.
Qed.

(** Entry [j] of the root directory, of which the rest of the last block is zero. *)
Lemma root_entry_at args z j :
  (16 * (j + 1) ≤ 32 + 16 * length args + z)%nat →
  slice (16 * j) 16 (root_dir args ++ replicate z 0) =
    match j with
    | 0%nat => dot_entry (str ".") 1
    | 1%nat => dot_entry (str "..") 1
    | S (S i) => match args !! i with Some a => make_dirent (skip_underscore a) (2 + Z.of_nat i) (replicate 16 0) | None => replicate 16 0 end
    end.
Proof.
  intros Hj. pose proof (root_dir_length args) as Hl.
  destruct j as [|[|i]]; [rewrite slice_app_l by lia; unfold root_dir; rewrite slice_app_l by (change (length dots) with 32%nat; lia); done..|].
  destruct (args !! i) as [a|] eqn:E.
  - pose proof (lookup_lt_Some _ _ _ E). rewrite slice_app_l by lia. unfold root_dir.
    replace (16 * S (S i))%nat with (length dots + 16 * i)%nat by (change (length dots) with 32%nat; lia). rewrite slice_app_r. by apply arg_entry.
  - apply lookup_ge_None in E. replace (16 * S (S i))%nat with (length (root_dir args) + (16 * (i - length args)))%nat by lia. rewrite slice_app_r.
    unfold slice. rewrite drop_replicate, take_replicate. f_equal. lia.
Qed.

Definition same_name (name arg : list Z) : Prop := dname (skip_underscore arg) = dname name.
#[global] Instance same_name_dec name arg : Decision (same_name name arg).
Proof. unfold same_name. apply _. Defined.

Lemma matches_dirent name nm inum :
  0 < inum < 65536 → matches name (make_dirent nm inum (replicate 16 0)) = bool_decide (dname nm = dname name).
Proof.
  intros H. unfold matches. rewrite dirent_inum by lia. rewrite (proj2 (Z.eqb_neq inum 0)) by lia. cbn [negb andb].
  destruct (Z.eqb_spec (namecmp name (de_name (make_dirent nm inum (replicate 16 0)))) 0) as [E|E]; rewrite namecmp_zero, dirent_name in E by done;
    [by rewrite bool_decide_eq_true_2|rewrite bool_decide_eq_false_2; [done|congruence]].
Qed.
Lemma matches_dot name nm : dname nm ≠ dname name → dname (de_name (dot_entry nm 1)) = dname nm → matches name (dot_entry nm 1) = false.
Proof.
  intros H E. unfold matches. apply andb_false_iff. right. apply Z.eqb_neq. rewrite namecmp_zero, E. congruence.
Qed.

Lemma dot_name nm : nm = str "." ∨ nm = str ".." → dname (de_name (dot_entry nm 1)) = dname nm.
Proof. by intros [->| ->]; vm_compute. Qed.

Lemma find_seq_first (P : nat → bool) n k : (k < n)%nat → P k = true → (∀ j, (j < k)%nat → P j = false) → find P (seq 0 n) = Some k.
Proof.
  intros Hk HP Hno. replace n with (k + S (n - S k))%nat by lia. rewrite find_seq_app.
  rewrite (proj2 (find_seq_None P 0 k)) by (intros j Hj; apply Hno; lia). cbn [seq find]. by rewrite HP.
Qed.

(** The entry of a name that is neither . nor .. *)
Lemma root_lookup V x args z name :
  content V x = root_dir args ++ replicate z 0 → (length args ≤ 198)%nat → dname name ≠ dname (str ".") → dname name ≠ dname (str "..") →
  match list_find (same_name name) args with
  | Some (i, _) => lookup_entry V x name = Some (S (S i)) ∧ de_inum (entry V x (S (S i))) = 2 + Z.of_nat i
  | None => lookup_entry V x name = None
  end.
Proof.
  intros Hc Hcnt Hd1 Hd2. pose proof (length_content V x) as Hlen. rewrite Hc, length_app, root_dir_length, length_replicate in Hlen.
  assert (Hen : (16 * entries x ≤ 32 + 16 * length args + z)%nat).
  { unfold entries, DIRENT_SIZE. pose proof (Z.mul_div_le (i_size x) 16 ltac:(lia)). lia. }
  assert (Hent : ∀ i, (S (S i) < entries x)%nat → matches name (entry V x (S (S i))) = match args !! i with Some a => bool_decide (same_name name a) | None => false end).
  { intros i Hi. unfold entry. rewrite Hc, root_entry_at by lia. destruct (args !! i) as [a|] eqn:E; [|done].
    apply lookup_lt_Some in E. by rewrite matches_dirent by lia. }
  assert (Hdot : ∀ j, (j < 2)%nat → (j < entries x)%nat → matches name (entry V x j) = false).
  { intros j Hj Hje. unfold entry. rewrite Hc, root_entry_at by lia.
    destruct j as [|[|]]; [apply matches_dot; [congruence|apply dot_name; auto]..|lia]. }
  destruct (list_find (same_name name) args) as [[i a]|] eqn:Ef.
  - apply list_find_Some in Ef as (Hi & Ha & Hno). pose proof (lookup_lt_Some _ _ _ Hi).
    assert (Hie : (S (S i) < entries x)%nat) by (unfold entries, DIRENT_SIZE; assert (Z.of_nat (S (S i)) + 1 ≤ i_size x / 16); [apply Z.div_le_lower_bound; lia|lia]).
    split; [|unfold entry; rewrite Hc, root_entry_at, Hi by lia; apply dirent_inum; lia].
    apply find_seq_first; [done|by rewrite Hent, Hi, bool_decide_eq_true_2|].
    intros j Hj. destruct j as [|[|j]]; [apply Hdot; lia..|]. rewrite Hent by lia. destruct (args !! j) as [b|] eqn:Eb; [|done].
    apply bool_decide_eq_false_2. apply (Hno j b Eb). lia.
  - apply list_find_None in Ef. apply find_seq_None. intros j Hj. destruct j as [|[|j]]; [apply Hdot; lia..|]. rewrite Hent by lia.
    destruct (args !! j) as [b|] eqn:Eb; [|done]. apply bool_decide_eq_false_2. rewrite Forall_lookup in Ef. by apply (Ef j b).
Qed.
End root.

(** ** Finding and reading a file *)

(** What open and read do in the kernel for a file of the root directory. *)
Definition read_file {St} {B : BlockStore St} (devread : Z → option (nat → Z → Z → K (fstate St) (Z * list Z)))
    (name : list Z) (n : Z) : K (fstate St) (option (Z * list Z)) :=
  dp <- iget 1 ROOTINO;;
  ilock (Some dp) ;;;
  r <- dirlookup devread dp name;;
  match r with
  | None => ret None
  | Some (ip, _) =>
      ilock (Some ip) ;;;
      x <- readi devread ip 0 n;;
      ret (Some x)
  end.

Section open.
Context {St : Type} {B : BlockStore St} {L : BlockLaws St}.
Hypothesis Hhome : ∀ b, 32 ≤ b < FSSIZE → st_home b.

(** Cache entries that are not in use are not locked. *)
Definition free_unlocked (l : list inode) : Prop := Forall (λ x, i_ref x = 0 → sl_locked (i_lock x) = false) l.

(** iget of an inode that is not cached finds a free entry. *)
Lemma iget_new (s : fstate St) inum :
  quiet (st_core (fs_st s)) → Forall (λ x, ¬ refers 1 inum x) (fs_icache s) → (∃ x, x ∈ fs_icache s ∧ i_ref x = 0) →
  ∃ ip x, fs_icache s !! ip = Some x ∧ i_ref x = 0 ∧ iget 1 inum s = Done ip (upd_inode ip (fresh_inode 1 inum) s).
Proof.
  intros Hq Hno (x & Hx & H0). destruct (iget_cases 1 inum s Hq) as [(ip & y & Hy & Hr & _)|[_ [H|[Hall _]]]].
  - exfalso. eapply Forall_lookup_1 in Hno; [|exact Hy]. done.
  - done.
  - exfalso. rewrite Forall_forall in Hall. by apply (Hall x).
Qed.

(** ilock then reads it from the disk. *)
Lemma ilock_new (s : fstate St) V W ip x inum :
  st_rep (fs_st s) V ∅ W → (size W ≤ st_cap)%nat → fs_sb s = sb → fs_icache s !! ip = Some x → i_ref x = 0 → sl_locked (i_lock x) = false →
  0 < inum < 200 → di_type (inode_at V inum) ≠ 0 →
  ∃ t' y, ilock (Some ip) (upd_inode ip (fresh_inode 1 inum) s) = Done tt (FState t' sb (<[ip := y]> (fs_icache s))) ∧ st_rep t' V ∅ W ∧
    i_dev y = 1 ∧ i_inum y = inum ∧ 0 < i_ref y ∧ i_type y = di_type (inode_at V inum) ∧ i_size y = di_size (inode_at V inum) ∧ i_addrs y = di_addrs (inode_at V inum).
Proof.
  intros Hr Hsz Hsb Hx H0 Hl Hin Hty. set (s1 := upd_inode ip (fresh_inode 1 inum) s). pose proof (lookup_lt_Some _ _ _ Hx) as Hip.
  assert (Hx1 : inodep s1 ip = fresh_inode 1 inum x) by (unfold s1; rewrite inodep_upd by done; f_equal; by apply list_lookup_total_correct).
  pose proof (iblock_range inum Hin) as Hib. assert (Hld : ∀ z, i_flags z = 0 → i_inum z = inum → loaded sb V z = set_i_flags (Z.lor 0 I_VALID) (load_dinode (inode_at V inum) z)).
  { intros z Hz0 Hzi. unfold loaded. rewrite Hz0, Hzi. change (tst 0 I_VALID) with false. cbv iota. unfold inode_at. rewrite IBLOCK_eq. change IPB with 8. done. }
  destruct (ilock_spec ip s1 V ∅ W) as (t' & E & Hr').
  - exact Hr.
  - unfold s1. cbn. by rewrite length_alter.
  - rewrite Hx1. cbn. lia.
  - rewrite Hx1. exact Hl.
  - by rewrite Hx1.
  - rewrite Hx1. cbn [fresh_inode i_inum]. change (fs_sb s1) with (fs_sb s). rewrite Hsb, IBLOCK_eq.
    pose proof (st_home_range (32 + inum / 8) (Hhome (32 + inum / 8) ltac:(unfold FSSIZE; lia))). lia.
  - intros j. by rewrite lookup_empty.
  - rewrite map_size_empty. lia.
  - rewrite Hx1. change (fs_sb s1) with (fs_sb s). rewrite Hsb, Hld by done. done.
  - set (y := loaded sb V (set_i_lock (owned s1) (fresh_inode 1 inum x))). exists t', y. split; [|split; [exact Hr'|]].
    + rewrite E. f_equal. unfold upd_inode, with_st, s1. cbn [fs_st fs_sb fs_icache upd_inode]. rewrite Hsb. f_equal.
      apply list_eq. intros j. destruct (decide (j = ip)) as [->|Hj].
      * rewrite list_lookup_insert_eq by done. rewrite !list_lookup_alter, !decide_True by done. rewrite Hx. cbn. done.
      * rewrite list_lookup_insert_ne, !list_lookup_alter_ne by done. done.
    + unfold y. rewrite Hld by done. cbn. done.
Qed.
End open.

Section read.
Context {St : Type} {B : BlockStore St} {L : BlockLaws St}.
Hypothesis Hhome : ∀ b, 32 ≤ b < FSSIZE → st_home b.
Variable host : list Z → option (list (list Z)).
Variable devread : Z → option (nat → Z → Z → K (fstate St) (Z * list Z)).
Variables (V : bview) (args : list (list Z)).
Hypothesis Hcnt : (length args ≤ 198)%nat.

(** The files of the image, as the kernel sees the blocks. *)
Record view : Type := {
  v_fb : Z; v_ow : Z → nat * Z; v_G : list file;
  v_layout : layout V v_fb v_ow (to_frec <$> v_G);
  v_max : v_fb ≤ FSSIZE;
  v_bitmap : V 58 = mark_used v_fb;
  v_files : to_tfile <$> v_G = files host args;
  v_ok k f : v_G !! k = Some f → inode_ok f.1 (Z.of_nat (length f.2));
  v_inode k f : v_G !! k = Some f → inode_at V (1 + Z.of_nat k) = if decide (k = 0%nat) then set_size (root_size args) f.1 else f.1
}.

(** The bytes of the root directory that have blocks, and its size. *)
Definition root_mapped : Z := 512 * ceil (Z.of_nat (length (root_dir args))).

Lemma root_size_mapped :
  root_mapped ≤ root_size args ≤ root_mapped + 512 ∧ root_size args mod 16 = 0 ∧
  ((2 + Z.of_nat (length args)) mod 32 ≠ 0 → root_size args = root_mapped).
Proof.
  unfold root_size, root_mapped. pose proof (root_dir_length args) as Hl. set (n := Z.of_nat (length (root_dir args))) in *.
  assert (Hn : n = 16 * (2 + Z.of_nat (length args))) by lia.
  pose proof (ceil_bounds n ltac:(lia)). pose proof (Z.div_mod n 512). pose proof (Z.mod_pos_bound n 512). split; [|split].
  - lia.
  - replace (_ * 512) with ((n / 512 + 1) * 32 * 16) by lia. by apply Z.mod_mul.
  - intros Hmod. assert (Hm : n mod 512 ≠ 0); [|lia]. rewrite Hn. change 512 with (16 * 32). rewrite Zmult_mod_distr_l. lia.
Qed.

Lemma view_file (v : view) k ty c :
  files host args !! k = Some (ty, c) → ∃ f, v_G v !! k = Some f ∧ f.2 = c ∧ di_type f.1 = ty.
Proof.
  rewrite <- (v_files v). intros H. apply list_lookup_fmap_Some_1 in H as (f & [= -> ->] & Hf). by exists f.
Qed.

Definition root_entries : nat := Z.to_nat (32 * ceil (Z.of_nat (length (root_dir args)))).

(** An entry of a directory does not depend on what comes behind it. *)
Lemma entry_shrink y z k : 16 * Z.of_nat k + 16 ≤ z ≤ i_size y → entry V (set_i_size z y) k = entry V y k.
Proof.
  intros Hk. unfold entry. replace (16 * k)%nat with (Z.to_nat (16 * Z.of_nat k)) by lia. change 16%nat with (Z.to_nat 16).
  rewrite <- !content_slice by (cbn [i_size set_i_size]; lia). done.
Qed.

Lemma find_same {A} (f g : A → bool) l : (∀ x, x ∈ l → f x = g x) → find f l = find g l.
Proof.
  induction l as [|x l IH]; intros H; [done|]. cbn [find]. rewrite (H x) by left.
  rewrite IH; [done|]. intros y Hy. apply H. by right.
Qed.

(** The root directory, open at [dp]: the entries that have blocks, and what they hold. *)
Lemma view_root (v : view) W t ic dp y :
  st_rep t V ∅ W → (size W ≤ st_cap)%nat → ic !! dp = Some y → i_dev y = 1 →
  i_type y = di_type (inode_at V 1) → i_size y = di_size (inode_at V 1) → i_addrs y = di_addrs (inode_at V 1) →
  open_dir sb 32 (FState t sb ic) dp V W root_entries ∧
  ((2 + Z.of_nat (length args)) mod 32 ≠ 0 → root_entries = entries y) ∧ root_mapped ≤ i_size y ∧
  ∃ z, content V (set_i_size root_mapped y) = root_dir args ++ replicate z 0.
Proof.
  intros Hr Hw Hy Hdev Hty Hsz Had. destruct (view_file v 0 T_DIR (root_dir args) eq_refl) as (f & Hf & Hc & Hft).
  pose proof (v_inode v 0 f Hf) as Hin. change (1 + Z.of_nat 0) with 1 in Hin. rewrite decide_True in Hin by done. rewrite Hin in *. cbn in Hty, Hsz, Had.
  assert (Hk : (to_frec <$> v_G v) !! 0%nat = Some (to_frec f)) by (by rewrite list_lookup_fmap, Hf).
  destruct root_size_mapped as (Hroot & Hroot16 & Hfull). pose proof (root_dir_length args) as Hlen.
  pose proof (ceil_bounds (Z.of_nat (length (root_dir args))) ltac:(lia)) as Hcb.
  destruct (image_content V _ _ _ (v_layout v) 0 (to_frec f) (set_i_size root_mapped y) Hk Had) as [Hd Hcont].
  { unfold to_frec, tight. cbn [f_c f_m i_size set_i_size]. rewrite Hc. unfold root_mapped. lia. }
  assert (Hdp : inodep (FState t sb ic) dp = y) by (by apply list_lookup_total_correct).
  assert (He : 16 * Z.of_nat root_entries = root_mapped) by (unfold root_entries, root_mapped; lia).
  split; [|split; [|split; [lia|unfold to_frec, tight in Hcont; cbn [f_c] in Hcont; rewrite Hc in Hcont; by eexists]]].
  - split; rewrite ?Hdp; [exact Hr|reflexivity| | | | |exact Hw].
    + eapply (image_file_inv Hhome); [apply v|apply v|apply v|exact Hk|exact Had|exact Hdev|lia].
    + rewrite He. destruct Hd as [Hd1 Hd2]. cbn [i_size set_i_size] in Hd1, Hd2. split; [lia|]. split; [|exact Hd2].
      change (MAXFILE * BSIZE) with 71680. unfold root_mapped in *. lia.
    + by rewrite Hty.
    + by rewrite Hsz.
  - intros Hmod. specialize (Hfull Hmod). unfold entries, DIRENT_SIZE. rewrite Hsz, Hfull, <- He, Z.mul_comm, Z.div_mul by done. lia.
Qed.

(** A regular file, open at [ip]. *)
Lemma view_read (v : view) W t ic ip y i a n :
  st_rep t V ∅ W → (size W ≤ st_cap)%nat → ic !! ip = Some y → args !! i = Some a → i_dev y = 1 →
  i_type y = di_type (inode_at V (2 + Z.of_nat i)) → i_size y = di_size (inode_at V (2 + Z.of_nat i)) → i_addrs y = di_addrs (inode_at V (2 + Z.of_nat i)) →
  0 ≤ n < 2 ^ 32 →
  ∃ t', readi devread ip 0 n (FState t sb ic) =
    Done (Z.min n (Z.of_nat (length (host_file host a))), take (Z.to_nat n) (host_file host a)) (FState t' sb ic).
Proof.
  intros Hr Hw Hy Hi Hdev Hty Hsz Had Hn. pose proof (lookup_lt_Some _ _ _ Hi) as Hlt.
  destruct (view_file v (S i) T_FILE (host_file host a)) as (f & Hf & Hc & Hft).
  { change (((λ arg, (T_FILE, host_file host arg)) <$> args) !! i = Some (T_FILE, host_file host a)). by rewrite list_lookup_fmap, Hi. }
  pose proof (v_inode v (S i) f Hf) as Hin. rewrite decide_False in Hin by done. replace (1 + Z.of_nat (S i)) with (2 + Z.of_nat i) in Hin by lia.
  rewrite Hin in *. pose proof (io_size _ _ (v_ok v (S i) f Hf)) as Hfs. rewrite Hc in Hfs. rewrite Hfs in Hsz.
  assert (Hk : (to_frec <$> v_G v) !! S i = Some (to_frec f)) by (by rewrite list_lookup_fmap, Hf).
  pose proof (ceil_bounds (Z.of_nat (length (host_file host a))) ltac:(lia)) as Hcb.
  destruct (image_content V _ _ _ (v_layout v) (S i) (to_frec f) y Hk Had) as [Hd Hcont].
  { unfold to_frec, tight. cbn [f_c f_m]. rewrite Hc, Hsz. lia. }
  unfold to_frec, tight in Hcont. cbn [f_c] in Hcont. rewrite Hc, Hsz, Nat2Z.id, Nat.sub_diag, app_nil_r in Hcont.
  assert (Hip : inodep (FState t sb ic) ip = y) by (by apply list_lookup_total_correct).
  pose proof (iblock_range (2 + Z.of_nat i) ltac:(lia)) as Hib.
  destruct (readi_spec sb devread ip 0 n (FState t sb ic) V W (32 + (2 + Z.of_nat i) / 8)) as (t' & E & _); rewrite ?Hip;
    [exact Hr|reflexivity| |exact Hd|exact Hw| |lia|lia|lia|].
  - eapply (image_file_inv Hhome); [apply v|apply v|apply v|exact Hk|exact Had|exact Hdev|lia].
  - by rewrite Hty, Hft.
  - exists t'. rewrite E. rewrite Hip, Hcont, Hsz, Z.sub_0_r. f_equal. f_equal. unfold slice. rewrite drop_0.
    apply list_eq_lookup; [rewrite !length_take; lia|]. intros j Hj. rewrite length_take in Hj. rewrite !lookup_take_lt by lia. done.
Qed.

Lemma inode_type (v : view) k f : v_G v !! k = Some f → di_type (inode_at V (1 + Z.of_nat k)) ≠ 0.
Proof.
  intros Hf. rewrite (v_inode v k f Hf). destruct (v_ok v k f Hf) as [[H|H] _ _]; case_decide; cbn; by rewrite H.
Qed.

(** What read_file gives: the contents of the first argument with that name. *)
Definition expected (name : list Z) (n : Z) : option (Z * list Z) :=
  match list_find (same_name name) args with
  | Some (_, a) => Some (Z.min n (Z.of_nat (length (host_file host a))), take (Z.to_nat n) (host_file host a))
  | None => None
  end.

Lemma not_refers0 inum l : l = inode0 → ¬ refers 1 inum l.
Proof. intros -> (H & _). done. Qed.

(** The first entry with a name, among those that have blocks. *)
Lemma root_found y z name :
  content V (set_i_size root_mapped y) = root_dir args ++ replicate z 0 → root_mapped ≤ i_size y →
  dname name ≠ dname (str ".") → dname name ≠ dname (str "..") →
  find (λ k, matches name (entry V y k)) (seq 0 root_entries) = (λ p, S (S (fst p))) <$> list_find (same_name name) args ∧
  match list_find (same_name name) args with
  | Some (i, _) => de_inum (entry V y (S (S i))) = 2 + Z.of_nat i
  | None => True
  end.
Proof.
  intros Hcont Hmap Hd1 Hd2. pose proof (root_lookup V _ args z name Hcont Hcnt Hd1 Hd2) as Hlk.
  assert (He : entries (set_i_size root_mapped y) = root_entries).
  { unfold entries, DIRENT_SIZE, root_mapped, root_entries. cbn [i_size set_i_size]. f_equal.
    replace (512 * _) with (32 * ceil (Z.of_nat (length (root_dir args))) * 16) by lia. by apply Z.div_mul. }
  assert (Hsame : ∀ k, (k < root_entries)%nat → entry V (set_i_size root_mapped y) k = entry V y k).
  { intros k Hk. apply entry_shrink. unfold root_mapped, root_entries in *. lia. }
  assert (Hfind : find (λ k, matches name (entry V y k)) (seq 0 root_entries) = lookup_entry V (set_i_size root_mapped y) name).
  { unfold lookup_entry. rewrite He. apply find_same. intros k Hk%elem_of_seq. by rewrite Hsame by lia. }
  rewrite Hfind. destruct (list_find (same_name name) args) as [[i a]|] eqn:Ef; [|by rewrite Hlk].
  destruct Hlk as [-> Hde]. split; [done|]. rewrite <- Hsame; [done|]. apply list_find_Some in Ef as (Hi & _).
  pose proof (lookup_lt_Some _ _ _ Hi). pose proof (root_dir_length args).
  pose proof (ceil_bounds (Z.of_nat (length (root_dir args))) ltac:(lia)). unfold root_entries. lia.
Qed.

Lemma read_file_ok (v : view) W t name n :
  st_rep t V ∅ W → (size W ≤ st_cap)%nat → 0 ≤ n < 2 ^ 32 → dname name ≠ dname (str ".") → dname name ≠ dname (str "..") →
  (2 + Z.of_nat (length args)) mod 32 ≠ 0 ∨ list_find (same_name name) args ≠ None →
  ∃ s', read_file devread name n (FState t sb (replicate NINODE inode0)) = Done (expected name n) s'.
Proof.
  intros Hr Hw Hn Hd1 Hd2 Hfull. set (ic := replicate NINODE inode0). set (s0 := FState t sb ic).
  assert (Hic : ∀ j x, ic !! j = Some x → x = inode0) by (intros j x Hx; by apply lookup_replicate in Hx as [-> _]).
  destruct (iget_new s0 1) as (dp & x & Hx & Hx0 & E1); [by eapply st_rep_quiet| | |].
  { apply Forall_lookup_2. intros j y Hy. eapply not_refers0, Hic, Hy. }
  { exists inode0. split; [|done]. apply (list_elem_of_lookup_2 _ 0%nat). done. }
  destruct (view_file v 0 T_DIR (root_dir args) eq_refl) as (f0 & Hf0 & _).
  assert (Hsl : sl_locked (i_lock x) = false) by (by rewrite (Hic _ _ Hx)).
  destruct (ilock_new Hhome s0 V W dp x 1 Hr Hw eq_refl Hx Hx0 Hsl) as (t1 & y & E2 & Hr1 & Hdev & Hinum & Href & Hty & Hsz & Had);
    [lia|exact (inode_type v 0 f0 Hf0)|].
  set (ic1 := <[dp := y]> ic) in *. pose proof (lookup_lt_Some _ _ _ Hx) as Hdp.
  assert (Hy : ic1 !! dp = Some y) by (by apply list_lookup_insert_eq).
  destruct (view_root v W t1 ic1 dp y Hr1 Hw Hy Hdev Hty Hsz Had) as (Hdir & Hent & Hmap & z & Hcont).
  assert (Hdpy : inodep (FState t1 sb ic1) dp = y) by (by apply list_lookup_total_correct).
  destruct (root_found y z name Hcont Hmap Hd1 Hd2) as [Hlk Hde].
  destruct (dirlookup_open sb 32 devread dp name (FState t1 sb ic1) V W _ Hdir) as (t2 & Hr2 & E3).
  { rewrite Hdpy. destruct Hfull as [Hf|Hf]; [left; by rewrite Hent|right]. rewrite Hlk. by destruct (list_find _ _) as [[]|]. }
  rewrite Hdpy, Hlk in E3. unfold read_file, expected.
  rewrite (bind_done _ _ _ _ _ E1), (bind_done _ _ _ _ _ E2).
  destruct (list_find (same_name name) args) as [[i a]|] eqn:Ef.
  2: { rewrite (bind_done _ _ _ _ _ E3). by eexists. }
  cbn [fmap option_fmap option_map fst] in E3. rewrite Hde in E3. apply list_find_Some in Ef as (Hi & _). pose proof (lookup_lt_Some _ _ _ Hi) as Hlt.
  set (s2 := with_st t2 (FState t1 sb ic1)) in *.
  destruct (iget_new s2 (2 + Z.of_nat i)) as (ip & x2 & Hx2 & Hx20 & E4); [by eapply st_rep_quiet| | |].
  { apply Forall_lookup_2. intros j u Hu. apply list_lookup_insert_Some in Hu as [(<- & <- & _)|[_ Hu]]; [intros (_ & _ & Hn'); lia|].
    eapply not_refers0, Hic, Hu. }
  { exists inode0. split; [|done]. apply (list_elem_of_lookup_2 _ (if decide (dp = 0%nat) then 1%nat else 0%nat)). unfold s2, ic1. cbn [fs_icache with_st].
    case_decide; rewrite list_lookup_insert_ne by lia; done. }
  assert (Hx2' : x2 = inode0).
  { apply list_lookup_insert_Some in Hx2 as [(<- & <- & _)|[_ Hu]]; [lia|by eapply Hic]. }
  rewrite (bind_done _ _ _ _ _ E4) in E3. rewrite (bind_done _ _ _ _ _ E3). unfold ret at 1. cbv beta iota.
  destruct (view_file v (S i) T_FILE (host_file host a)) as (f & Hf & _).
  { change (((λ arg, (T_FILE, host_file host arg)) <$> args) !! i = Some (T_FILE, host_file host a)). by rewrite list_lookup_fmap, Hi. }
  pose proof (inode_type v (S i) f Hf) as Hti. replace (1 + Z.of_nat (S i)) with (2 + Z.of_nat i) in Hti by lia.
  destruct (ilock_new Hhome s2 V W ip x2 (2 + Z.of_nat i) Hr2 Hw eq_refl Hx2 Hx20) as (t3 & y2 & E5 & Hr3 & Hdev2 & _ & _ & Hty2 & Hsz2 & Had2);
    [by rewrite Hx2'|lia|exact Hti|].
  rewrite (bind_done _ _ _ _ _ E5).
  destruct (view_read v W t3 (<[ip := y2]> (fs_icache s2)) ip y2 i a n) as (t4 & E6); try done.
  { apply list_lookup_insert_eq. by eapply lookup_lt_Some. }
  rewrite (bind_done _ _ _ _ _ E6). by eexists.
Qed.
End read.

(** ** Booting from the image *)
Section boot.
Variable host : list Z → option (list (list Z)).

Lemma image_view img V args :
  image host img args → (length args ≤ 198)%nat → (∀ b, 32 ≤ b < FSSIZE → V b = img b) → ∃ v : view host V args, True.
Proof.
  intros [_ _ (fb & ow & G & HL & Hfb & Hbm & HT & Hok & Hin)] Hcnt HV. pose proof (layout_fb _ _ _ _ HL) as H59. rewrite nmeta_eq in H59.
  assert (HL' : layout V fb ow (to_frec <$> G)).
  { apply (layout_low img); [done|done| |].
    - intros b Hb. rewrite nmeta_eq in Hb. apply HV. lia.
    - intros b Hb. rewrite HV by done. by apply (ly_len _ _ _ _ HL). }
  unshelve eexists; [|done]. refine {| v_fb := fb; v_ow := ow; v_G := G; v_layout := HL'; v_max := Hfb; v_files := HT; v_ok := Hok |}.
  - by rewrite HV by (unfold FSSIZE; lia).
  - intros k f Hk. rewrite <- (Hin k f Hk). assert (Hlt : (k < length (files host args))%nat) by (rewrite <- HT, length_fmap; by eapply lookup_lt_Some).
    unfold files in Hlt. cbn [length] in Hlt. rewrite length_fmap in Hlt.
    pose proof (iblock_range (1 + Z.of_nat k) ltac:(lia)). unfold inode_at. by rewrite HV by (unfold FSSIZE; lia).
Qed.

Lemma image_recoverable img args n : image host img args → recoverable 2 30 FSSIZE (dblock (Disk n img [])) img 0.
Proof.
  intros [Hs Hl _]. apply recoverable_empty; unfold hdr_n, dblock; cbn [d_image d_writes written].
  - lia.
  - by rewrite Hl.
  - by rewrite Hl.
  - by rewrite Hs.
  - done.
Qed.

(** Starting the log on the image and a transaction. *)
Lemma image_boot img args c :
  image host img args → quiet c →
  ∃ s1 s2 V, initlog 1 (boot c (Disk FSSIZE img [])) = Done tt s1 ∧ begin_op s1 = Done tt s2 ∧
    st_rep (BlockLaws := sample_laws) s2 V ∅ ∅ ∧ ∀ b, 32 ≤ b < FSSIZE → V b = img b.
Proof.
  intros Hi Hq. destruct (initlog_rep 2 30 FSSIZE ltac:(lia) ltac:(lia) ltac:(unfold FSSIZE; lia) c (Disk FSSIZE img []) img 0 Hq eq_refl (image_recoverable img args _ Hi))
    as (s1 & V & E1 & Hl1 & HV & Ho & Hc & Hn).
  pose proof (br_quiet _ _ _ _ (lr_rep _ _ _ _ _ _ _ Hl1)) as [Hh [p Hp]]. destruct (c_cur (bs_core (ls_bs s1))) as [i|] eqn:Ei; [|done]. cbn in Hp.
  pose proof (begin_op_decides s1 i p Hh Ei Hp) as Hb. cbn zeta in Hb. rewrite Hc, Hn, Ho in Hb. change (false || (LOGSIZE <? 0 + (0 + 1) * MAXOPBLOCKS)) with false in Hb.
  cbv iota in Hb. eexists s1, _, V. split; [exact E1|]. split; [exact Hb|]. split.
  - pose proof (log_rep_flags _ _ _ _ _ _ _ false 1 Hl1) as Hl2. split; [|split; [cbn; lia|intros j b Hj; by rewrite lookup_empty in Hj]].
    replace (set_outstanding (0 + 1) (ls_log s1)) with (set_committing false (set_outstanding 1 (ls_log s1))); [exact Hl2|].
    destruct (ls_log s1); cbn in *. by rewrite Hc.
  - intros b Hb'. apply HV. split; [lia|]. unfold in_log. lia.
Qed.

(** C8: the kernel finds what mkfs put in the image.  Given at most 198 files that fit, mkfs
    succeeds.  When the kernel starts its log on the image and looks up the name of a file in
    the root directory, without its leading underscore, it finds the first of the files whose
    names have the same first 14 characters, and reads exactly its contents.  A name that no
    file has is not found, if the entries of the directory do not fill its last block exactly
    (if they do, the lookup goes on in a block that is not there).  The names . and .., which
    are the directory itself, are left out. *)
Theorem mkfs_boot image_name args devread c :
  args_ok host args → quiet c →
  ∃ s s1 s2, main host true (image_name :: args) mk_start = Done tt s ∧
    initlog 1 (boot c (Disk (mk_len s) (mk_img s) [])) = Done tt s1 ∧ begin_op s1 = Done tt s2 ∧
    ∀ name n, 0 ≤ n < 2 ^ 32 → dname name ≠ dname (str ".") → dname name ≠ dname (str "..") →
      (2 + Z.of_nat (length args)) mod 32 ≠ 0 ∨ list_find (same_name name) args ≠ None →
      ∃ s3, read_file devread name n (FState s2 (read_superblock (mk_img s 1)) (replicate NINODE inode0)) = Done (expected host args name n) s3.
Proof.
  intros Hok Hq. destruct (main_image host image_name args Hok) as (s & E & Hi & Hlen). pose proof (as_count _ _ Hok) as Hcnt.
  destruct (image_boot (mk_img s) args c Hi Hq) as (s1 & s2 & V & E1 & E2 & Hr & HV).
  destruct (image_view (mk_img s) V args Hi Hcnt HV) as [v _]. exists s, s1, s2. rewrite Hlen. split; [exact E|]. split; [exact E1|]. split; [exact E2|].
  intros name n Hn Hd1 Hd2 Hfull. rewrite (im_super _ _ _ Hi). replace (read_superblock super_block) with sb by (by vm_compute).
  eapply (read_file_ok (L := sample_laws)); [|done|exact v|exact Hr|by rewrite size_empty; lia|done|done|done|done].
  intros b Hb. split; [split; [unfold FSSIZE in Hb; lia|unfold in_log; lia]|lia].
Qed.

(** C38: when the entries fill the last block of the root directory exactly, mkfs gives the
    directory one more block than it has: its size says so, and the address of the block
    is 0. *)
Theorem mkfs_root_hole image_name args :
  args_ok host args → (2 + Z.of_nat (length args)) mod 32 = 0 →
  ∃ s, main host true (image_name :: args) mk_start = Done tt s ∧
    let x := load_dinode (inode_at (mk_img s) 1) inode0 in
    let bn := (2 + Z.of_nat (length args)) / 32 in
    bn * BSIZE < i_size x ∧ addr (mk_img s) x bn = 0.
Proof.
  intros Hok Hmod. destruct (main_image host image_name args Hok) as (s & E & Hi & Hlen). exists s. split; [exact E|].
  pose proof (as_count _ _ Hok) as Hcnt. destruct (image_view (mk_img s) (mk_img s) args Hi Hcnt ltac:(done)) as [v _].
  destruct (view_file host (mk_img s) args v 0 T_DIR (root_dir args) eq_refl) as (f & Hf & Hc & _).
  pose proof (v_inode _ _ _ v 0 f Hf) as Hin. change (1 + Z.of_nat 0) with 1 in Hin. rewrite decide_True in Hin by done. rewrite Hin. cbn zeta.
  pose proof (root_dir_length args) as Hl. set (k := (2 + Z.of_nat (length args)) / 32).
  assert (Hk : 2 + Z.of_nat (length args) = 32 * k) by (pose proof (Z.div_mod (2 + Z.of_nat (length args)) 32); lia).
  assert (Hn : Z.of_nat (length (root_dir args)) = k * 512) by lia. split.
  - cbn [i_size load_dinode set_size di_size]. unfold root_size. rewrite Hn, Z.div_mul by done. unfold BSIZE. lia.
  - assert (Hkf : (to_frec <$> v_G _ _ _ v) !! 0%nat = Some (to_frec f)) by (by rewrite list_lookup_fmap, Hf).
    apply (fa_none _ _ _ _ _ (ly_file _ _ _ _ (v_layout _ _ _ v) 0 _ Hkf)). unfold to_frec, tight. cbn [f_m]. rewrite Hc, Hn.
    replace (ceil (k * 512)) with k; [lia|]. unfold ceil. rewrite Z.add_comm, Z.div_add by done. change (511 / 512) with 0. lia.
Qed.
End boot.

(** A host with one file, called _hi. *)
Definition sample_host (name : list Z) : option (list (list Z)) :=
  if decide (name = str "_hi") then Some [[104; 105]; [33]] else None.

Lemma sample_args_ok n : (n ≤ 30)%nat → args_ok sample_host (replicate n (str "_hi")).
Proof.
  intros Hn. assert (Ha : arg_ok sample_host (str "_hi")).
  { split; [apply (bool_decide_unpack _); by vm_compute|by exists [[104; 105]; [33]]|by vm_compute]. }
  split; [by apply Forall_replicate|rewrite length_replicate; lia|]. do 31 (destruct n as [|n]; [vm_compute; discriminate|]). lia.
Qed.

(** The thirty entries fill the last block of the directory. *)
Lemma mkfs_boot_witness :
  ∃ s s1 s2 s3, main sample_host true (str "fs.img" :: replicate 30 (str "_hi")) mk_start = Done tt s ∧
    initlog 1 (boot sample_core (Disk (mk_len s) (mk_img s) [])) = Done tt s1 ∧ begin_op s1 = Done tt s2 ∧
    read_file (λ _, None) (str "hi") 2 (FState s2 (read_superblock (mk_img s 1)) (replicate NINODE inode0)) = Done (Some (2, [104; 105])) s3.
Proof.
  destruct (mkfs_boot sample_host (str "fs.img") (replicate 30 (str "_hi")) (λ _, None) sample_core (sample_args_ok 30 ltac:(lia)) sample_quiet)
    as (s & s1 & s2 & E & E1 & E2 & H).
  destruct (H (str "hi") 2 ltac:(lia) ltac:(by vm_compute) ltac:(by vm_compute) ltac:(right; by vm_compute)) as (s3 & E3).
  exists s, s1, s2, s3. split; [exact E|]. split; [exact E1|]. split; [exact E2|]. exact E3.
Defined.

Lemma mkfs_root_hole_witness :
  ∃ s, main sample_host true (str "fs.img" :: replicate 30 (str "_hi")) mk_start = Done tt s ∧
    512 < i_size (load_dinode (inode_at (mk_img s) 1) inode0) ∧ addr (mk_img s) (load_dinode (inode_at (mk_img s) 1) inode0) 1 = 0.
Proof. exact (mkfs_root_hole sample_host (str "fs.img") (replicate 30 (str "_hi")) (sample_args_ok 30 ltac:(lia)) ltac:(by vm_compute)). Defined.
